(* ===== verification/_CoqProject ===== *)
-Q . S2P
Prelude.v
Chars.v
Which.v
Dplog.v
Dpret.v
Dpbuf.v
DpbufFacts.v
DpbufLife.v
DpbufCases.v
Deque.v
Ele.v
Tmrset.v
World.v
WorldLogic.v
Evp.v
EfdFacts.v
EleFacts.v
CtcFacts.v
Dpapp.v
DpappFacts.v
Aio.v
AscIo.v
AscSyc.v
AscBuf.v
AscFacts.v
AscRun.v
AscWrite.v
AscUntil.v
AscTmr.v
AscLoop.v
AscOps.v
SycFacts.v
Dpaco.v
DpacoFacts.v
Cwcid.v
Cwc.v
CwcFacts.v
CwcAsc.v
Cwcmod.v
Dpssl.v
DpsslIo.v
DpsslFacts.v
DpsslCases.v
Hdrset.v
HdrsetFacts.v
Rbt.v
Heapsl.v
RbtFacts.v
RbtDel.v
RbtWalk.v
RbtSpec.v
Kern.v
Sockets.v
SktFacts.v
Cmsg.v
CmsgFacts.v
CmsgBsd.v
Devices.v
DevFacts.v
Qic.v
QicOps.v
QicLogic.v
QicCases.v
QicSend.v
QicQueue.v
Kq.v
KqEvp.v
KqFacts.v
AscKq.v
AscKqFacts.v
KqLoop.v
KqDev.v
KqCases.v
Handoff.v
