(* ===== verification/Prelude.v ===== *)
(** * dpapp: a verification of the asynchronous runtime

    The repository is an asynchronous runtime in C: event loops over [epoll] or
    [kqueue], one per thread, with buffers, timers, calls between threads, coroutines and
    descriptor factories, and bindings for C++ and Lua.  This library models its
    C code function by function, with the C names, and proves what each part
    promises.

    ** The program and its files

    - Codes and text: [Dpret] (lib/dpapp/dpret.h, dpret.c), [Chars] (C strings),
      [Which] (which.c: paths and executables), [Dplog] (dplog.c).
    - Byte buffers: [Dpbuf] (dpbuf.c, dpbuf.h), with [DpbufFacts] (a buffer is a
      byte queue), [DpbufLife] (reference counts, seeks) and [DpbufCases]
      (borrowed storage, growth, failing paths).
    - The event loops (os/linux/dpevp_epoll.c, os/dpevp_pri.c, dpevp.h):
      [Deque] (the links of the queues), [Tmrset] (timers, over the interface
      [OrdTree] of an ordered tree), [Ele] and [World] (elements, calls, the
      state of all loops), [Evp] (the loops and what users call).  [WorldLogic]
      reasons about them; [EfdFacts], [EleFacts], [CtcFacts] and [Handoff] prove
      readiness, the life of elements, calls between threads, and the protocol by
      which a worker and the master hand calls to each other.
    - Rank-balanced trees (dprbt.h): [Rbt] has the macros' functions on nodes in
      memory.  [Heapsl] is a separation logic for them, an instance of the Iris
      proof mode; [RbtFacts] (insertion), [RbtDel] (removal) and [RbtWalk] (walks)
      prove the functions in it, and [RbtSpec] shows that they implement ordered
      lists and the interface [OrdTree] that [Tmrset] is proved over.
    - The process (dpapp.c): [Dpapp], [DpappFacts].
    - Operations (dpasc.c, os/linux/dpasc_epoll.c, dpefd.c): [Aio] (their data),
      [AscIo] (descriptors), [AscSyc] (paths), [AscBuf] (streams over buffers),
      [AscTmr] (timers); proved in [AscFacts], [AscRun], [AscWrite], [AscUntil],
      [SycFacts]; [AscLoop] states the contract with the loops and [AscOps] shows
      that the stream operations keep it.
    - Descriptor factories (os/dptcp.c, dpuds.c, dpudp.c, dppip.c, dpspd.c,
      linux/dpsig.c, dpfsm.c, dpudp_pri.c): [Kern] (the system's descriptors),
      [Sockets], [Devices], [Cmsg] (control messages of datagrams); proved in
      [SktFacts], [DevFacts] and [CmsgFacts].
    - TLS (dpssl.c): [Dpssl] (groups, certificates, the callbacks of OpenSSL),
      [DpsslIo] (sessions and their operations); [DpsslFacts] (they keep the
      contract of the loop), [DpsslCases].
    - QUIC and HTTP/3 (dpqic.c): [Qic] (engines and the callbacks of lsquic),
      [QicOps] (listeners, clients, connections, streams and the operations, as a
      program for the loops); [QicLogic] reasons about them, [QicSend] (packets),
      [QicQueue] (connections handed out), [QicCases].  [Hdrset] and
      [HdrsetFacts]: header sets.
    - The BSD systems (os/bsd/dpevp_kqueue.c, dpasc_kqueue.c, dpsig.c, dpfsm.c,
      dpudp_pri.c): [Kq] (elements over a kernel queue), [KqEvp] (the loops), [AscKq] (operations
      within the quota of an event), [KqDev] (signals and files as pipes).
      [CmsgBsd] is the twin of [Cmsg] (dpudp_pri.c), with its round trip.
      [KqFacts] has the rules and the loop's own facts, [AscKqFacts] compares the
      operations with those of Linux, [KqLoop] puts them in the loop, and [KqCases]
      runs the loops over a small kernel.  What is the same text in both systems is
      used from the files of Linux.
    - Coroutines (lib/dpaco/dpaco.c): [Dpaco], [DpacoFacts].
    - The coroutine runtime (lib/dpcwc): [Cwc] (dpcwc.c, dpcwc_aux.c: awaiting,
      the loop of a thread, connections, servers, calls to threads) and [CwcAsc]
      (dpcwc_asc.h), whose code is an interaction tree over the loops and the
      coroutines; [CwcFacts] runs it.  [Cwcmod] (loading a module), [Cwcid]
      (identifiers).

    ** How the model works

    A C function that touches memory is [ST S A], a function from a state to a
    value and a state, or [None] where C leaves the behaviour undefined (an access
    outside an object, [NULL], freed memory).  [wp m s Q] says that [m] is defined
    from [s] and its result satisfies [Q], so every theorem stated with it also
    says the code returns.  Machine integers are [Z].  Unsigned arithmetic and
    conversions wrap ([to_u32], [to_u64], [to_i32]); a signed sum or negation of
    values without a known bound is undefined where it leaves [int] ([int_val]), so
    the theorems about buffers say how far their cursors may go ([GROW_SAFE], a
    gigabyte), and [resolve_toid_valid] excludes [INT_MIN].  Objects are named by [loc] in
    stores, so that sharing and freeing are visible.  What is not C code of the
    repository is a parameter: the system ([Sys], [KSys], [IoSys], [DevSys], [Kern], [Fs]), name
    resolution ([NetLib]), serial devices ([TtyDev]), OpenSSL ([Ssl]), lsquic
    ([Lsq], [Lsxpack]), the user's operations ([program]), the code that runs on
    coroutines ([action]) and the dynamic loader.  Hypotheses on
    them are classes ([StreamOk], [AnswersFit], [KRegs], [PostOk]) with instances
    that run.  Numbers of errors and flags are those of the Linux headers, and of
    FreeBSD for the kernel queue.

    A thread runs one handler at a time.  Concurrency is modelled where threads
    meet: [Handoff] interleaves the accesses of a worker and the master to their
    shared counters and queues as a step relation, whose steps are pieces of the
    handlers of [Evp], and [World] counts a write that another thread may race
    with ([w_race]).

    ** What the theorems show

    - Refinement: buffers are byte queues ([dpbuf_refines_queue]); pools of queues
      are maps of lists ([deques_refine_lists]); the handlers are steps of the
      protocol ([handoff_refines]); coroutines are a stack machine
      ([coroutines_keep_a_stack]); stream operations keep the loop's contract
      ([stream_operations_post_ok]).
      A tree's operations are those of an ordered list
      ([rb_macros_refine_ordered_list]); TLS operations keep the loop's contract
      ([tls_operations_post_ok]); a header set is an ordered list
      ([hdrset_refines_list]); packets with shared control messages are sent as if
      each had its own ([send_packets_as_reference]); reading and writing over
      kqueue within the quota is that over epoll ([kqueue_io_as_epoll]).
    - Invariants and safety: exclusive hand-off in order ([handoff_exclusive],
      [handoff_fifo]), buffers' reference counts ([dpbuf_lifecycle_safe]), an element
      freed with its last reference ([dpele_freed_with_last_reference]), one winner of a cancel
      ([cancel_race_one_winner]), timers stay sorted ([tmrset_invariant]), one
      descriptor per factory ([vopen_owns_one_descriptor]), connections accepted
      once and in order ([connections_handed_out_in_order]), unique identifiers
      ([ids_are_unique]), one module opened and closed
      ([dpcwc_start_runs_one_module]).
    - Liveness and termination: offered calls arrive ([handoff_live]), awaited
      results arrive at their coroutine ([awaited_result_arrives]), no
      readiness is lost ([efd_feed_no_lost_edge]), waking ends
      ([efd_wake_terminates]); these two for operations that keep the contract of
      the loop ([PostOk]).  The stream operations keep it; those of TLS keep it but
      for a failure with a stale [errno], which [tls_operations_post_ok] sets apart.
    - Functional behaviour of streams ([dpaio_read_data_stream],
      [dpaio_read_until_stream], [dpaio_write_some_stream]), paths, logging, the
      command line and layouts; round trips (command line, identifiers,
      serial lines, control messages); bounds and overflow of lengths and names, and the
      depth of trees ([rb_search_is_logarithmic]).
    - The BSD loop: registrations follow the polled events
      ([watch_registers_polled]); a read that gets less than it asked for keeps the
      loop turning for ever ([short_read_never_ends]), and timers of a full batch
      are dropped ([full_batch_drops_timers]).
    - What fails: theorems and examples ([Example], evaluated) exhibit the faults
      that modelling found; they are listed with the source lines in the
      manifest's findings.

    ** Fuel

    Loops that are not structural take fuel.  [efd_wake_terminates] gives 31 turns
    (a mask has five bits) and the operation's own measure; the loops below an
    operation use the length asked for; timers use the size of the set; the
    recycled coroutines the size of the store, and so do the walks of a tree
    ([rb_fuel]; its depth is logarithmic); [dpcwc_id_next] the readings of the
    clock.  The program of [QicOps] is built in levels, one for each deletion
    within a deletion (a listener, its connections, their streams); the callbacks
    of one call of lsquic and the reads of one readiness take fuel, since how many
    there are is the library's and the peer's affair.  Each theorem states the fuel that is enough.

    ** Not modelled

    The context switch itself (assembly), the bindings (lib/dpcpp, lib/dplua), and
    the sample applications.  Of QUIC, the settings of an engine and the set-up of the log.
    Log lines are left out, except the logger's own. *)

From stdpp Require Export base gmap list numbers option strings.
From stdpp Require Import options.

#[export] Set Default Proof Using "Type".
Open Scope Z_scope.

(** ** Machine integers *)

Definition INT_MAX : Z := 2147483647.
Definition INT_MIN : Z := -2147483648.
Definition PTRDIFF_MAX : Z := 9223372036854775807.

(** Two's complement wrap-around of a C [int]. *)
Definition to_i32 (z : Z) : Z := (z + 2147483648) mod 4294967296 - 2147483648.
Definition to_u8 (z : Z) : Z := z mod 256.
Definition to_u32 (z : Z) : Z := z mod 4294967296.
Definition to_u64 (z : Z) : Z := z mod 18446744073709551616.

Definition is_i32 (z : Z) : Prop := INT_MIN <= z <= INT_MAX.

(** The value of a signed [int] expression: leaving the range is undefined. *)
Definition int_val (z : Z) : option Z := if (INT_MIN <=? z) && (z <=? INT_MAX) then Some z else None.

Lemma int_val_id (z : Z) : is_i32 z -> int_val z = Some z.
Proof. unfold is_i32, int_val. intros [H1%Z.leb_le H2%Z.leb_le]. by rewrite H1, H2. Qed.

Lemma int_val_None (z : Z) : ~ is_i32 z -> int_val z = None.
Proof.
  unfold is_i32, int_val. intros Hz. destruct (Z.leb_spec INT_MIN z), (Z.leb_spec z INT_MAX); try done. lia.
Qed.

(** [flags & mask] used as a C condition. *)
Definition has_flag (flags mask : Z) : bool := negb (Z.land flags mask =? 0).

Lemma to_i32_id (z : Z) : is_i32 z -> to_i32 z = z.
Proof. unfold is_i32, to_i32, INT_MIN, INT_MAX. intros. rewrite Z.mod_small; lia. Qed.

Lemma to_i32_range (z : Z) : is_i32 (to_i32 z).
Proof. unfold is_i32, to_i32, INT_MIN, INT_MAX. pose proof (Z.mod_pos_bound (z + 2147483648) 4294967296). lia. Qed.

(** ** Lists indexed by [Z] *)

Definition zlen {A} (l : list A) : Z := Z.of_nat (length l).
Definition ztake {A} (n : Z) (l : list A) : list A := take (Z.to_nat n) l.
Definition zdrop {A} (n : Z) (l : list A) : list A := drop (Z.to_nat n) l.
Definition znth {A} (l : list A) (i : Z) : option A :=
  if i <? 0 then None else l !! Z.to_nat i.

(** [slice off n l]: the [n] elements of [l] from index [off]. *)
Definition slice {A} (off n : Z) (l : list A) : list A := ztake n (zdrop off l).

(** [splice off bs l]: [l] with the elements from [off] overwritten by [bs]. *)
Definition splice {A} (off : Z) (bs l : list A) : list A :=
  ztake off l ++ bs ++ zdrop (off + zlen bs) l.

Lemma zlen_nonneg {A} (l : list A) : 0 <= zlen l.
Proof. unfold zlen. lia. Qed.

Lemma zlen_nil {A} : zlen (@nil A) = 0.
Proof. done. Qed.

Lemma zlen_cons {A} (x : A) l : zlen (x :: l) = 1 + zlen l.
Proof. unfold zlen. simpl. lia. Qed.

Lemma zlen_one {A} (x : A) : zlen [x] = 1.
Proof. done. Qed.

Lemma zlen_app {A} (l k : list A) : zlen (l ++ k) = zlen l + zlen k.
Proof. unfold zlen. rewrite length_app. lia. Qed.

Lemma zlen_replicate {A} n (x : A) : 0 <= n -> zlen (replicate (Z.to_nat n) x) = n.
Proof. intros. unfold zlen. rewrite length_replicate. lia. Qed.

Lemma zlen_ztake {A} n (l : list A) : zlen (ztake n l) = Z.max 0 (Z.min n (zlen l)).
Proof. unfold zlen, ztake. rewrite length_take. lia. Qed.

Lemma zlen_zdrop {A} n (l : list A) : zlen (zdrop n l) = Z.max 0 (zlen l - Z.max 0 n).
Proof. unfold zlen, zdrop. rewrite length_drop. lia. Qed.

Lemma zlen_slice {A} off n (l : list A) :
  0 <= off -> 0 <= n -> off + n <= zlen l -> zlen (slice off n l) = n.
Proof. intros. unfold slice. rewrite zlen_ztake, zlen_zdrop. lia. Qed.

Lemma zlen_splice {A} off (bs l : list A) :
  0 <= off -> off + zlen bs <= zlen l -> zlen (splice off bs l) = zlen l.
Proof.
  intros. unfold splice. pose proof (zlen_nonneg bs).
  rewrite !zlen_app, zlen_ztake, zlen_zdrop. lia.
Qed.

Lemma zdrop_zdrop {A} n m (l : list A) : 0 <= n -> 0 <= m -> zdrop n (zdrop m l) = zdrop (m + n) l.
Proof. intros. unfold zdrop. rewrite drop_drop. f_equal. lia. Qed.

Lemma zdrop_0 {A} (l : list A) : zdrop 0 l = l.
Proof. done. Qed.

Lemma ztake_0 {A} (l : list A) : ztake 0 l = [].
Proof. done. Qed.

Lemma ztake_nonpos {A} n (l : list A) : n <= 0 -> ztake n l = [].
Proof. intros. unfold ztake. by replace (Z.to_nat n) with 0%nat by lia. Qed.

Lemma ztake_all {A} n (l : list A) : zlen l <= n -> ztake n l = l.
Proof. unfold zlen, ztake. intros. apply take_ge. lia. Qed.

Lemma zdrop_all {A} n (l : list A) : zlen l <= n -> zdrop n l = [].
Proof. unfold zlen, zdrop. intros. apply drop_ge. lia. Qed.

Lemma ztake_app {A} n (l k : list A) : ztake n (l ++ k) = ztake n l ++ ztake (n - zlen l) k.
Proof. unfold ztake, zlen. rewrite take_app. f_equal. f_equal. lia. Qed.

Lemma zdrop_app {A} n (l k : list A) : 0 <= n -> zdrop n (l ++ k) = zdrop n l ++ zdrop (n - zlen l) k.
Proof. intros. unfold zdrop, zlen. rewrite drop_app. f_equal. f_equal. lia. Qed.

Lemma ztake_ztake {A} n m (l : list A) : ztake n (ztake m l) = ztake (Z.min n m) l.
Proof. unfold ztake. rewrite take_take. f_equal. lia. Qed.

Lemma ztake_zdrop {A} n (l : list A) : ztake n l ++ zdrop n l = l.
Proof. apply take_drop. Qed.

Lemma zdrop_ztake {A} n m (l : list A) : 0 <= n -> zdrop n (ztake m l) = ztake (m - n) (zdrop n l).
Proof.
  intros. unfold zdrop, ztake. rewrite skipn_firstn_comm. f_equal. lia.
Qed.

Lemma lookup_ztake {A} n (l : list A) (i : nat) :
  ztake n l !! i = if decide (Z.of_nat i < n) then l !! i else None.
Proof.
  unfold ztake. case_decide.
  - apply lookup_take_lt. lia.
  - apply lookup_take_ge. lia.
Qed.

Lemma lookup_zdrop {A} n (l : list A) (i : nat) : zdrop n l !! i = l !! (Z.to_nat n + i)%nat.
Proof. unfold zdrop. apply lookup_drop. Qed.

Lemma lookup_slice {A} off n (l : list A) (i : nat) :
  slice off n l !! i = if decide (Z.of_nat i < n) then l !! (Z.to_nat off + i)%nat else None.
Proof. unfold slice. rewrite lookup_ztake, lookup_zdrop. done. Qed.

Lemma lookup_splice {A} off (bs l : list A) (i : nat) :
  0 <= off -> off + zlen bs <= zlen l ->
  splice off bs l !! i =
    if decide (off <= Z.of_nat i < off + zlen bs) then bs !! (i - Z.to_nat off)%nat else l !! i.
Proof.
  intros Ho Hl. unfold splice, zlen in *.
  assert (Ht : length (ztake off l) = Z.to_nat off) by (unfold ztake; rewrite length_take; lia).
  destruct (decide (Z.of_nat i < off)) as [Hi|Hi].
  - rewrite lookup_app_l by lia. rewrite lookup_ztake.
    rewrite decide_True by lia. rewrite decide_False by lia. done.
  - rewrite lookup_app_r by lia. rewrite Ht. case_decide as Hd.
    + rewrite lookup_app_l by lia. done.
    + rewrite lookup_app_r by lia. rewrite lookup_zdrop. f_equal. lia.
Qed.

(** Solves equalities between lists built with [slice] and [splice] by
    comparing them element by element. *)
Ltac slice_ext :=
  apply list_eq; intros ?i;
  repeat first
    [ rewrite lookup_slice | rewrite lookup_splice by (unfold zlen in *; lia)
    | rewrite lookup_ztake | rewrite lookup_zdrop ];
  repeat case_decide; try done; try (exfalso; unfold zlen in *; lia);
  try (f_equal; lia).

Lemma slice_0_n {A} (l : list A) off : slice off 0 l = [].
Proof. done. Qed.

Lemma slice_all {A} (l : list A) : slice 0 (zlen l) l = l.
Proof. unfold slice. rewrite zdrop_0. apply ztake_all. lia. Qed.

Lemma slice_split {A} off n m (l : list A) :
  0 <= off -> 0 <= n -> 0 <= m -> off + n + m <= zlen l ->
  slice off (n + m) l = slice off n l ++ slice (off + n) m l.
Proof.
  intros. apply list_eq. intros i. rewrite lookup_slice.
  assert (Hl : length (slice off n l) = Z.to_nat n).
  { pose proof (zlen_slice off n l). unfold zlen in *. lia. }
  destruct (decide (Z.of_nat i < n)).
  - rewrite lookup_app_l by lia. rewrite lookup_slice.
    rewrite !decide_True by lia. done.
  - rewrite lookup_app_r by lia. rewrite lookup_slice, Hl.
    repeat case_decide; try lia; [f_equal; lia | done].
Qed.

Lemma slice_splice_eq {A} off (bs l : list A) :
  0 <= off -> off + zlen bs <= zlen l -> slice off (zlen bs) (splice off bs l) = bs.
Proof.
  intros. slice_ext. symmetry. apply lookup_ge_None. unfold zlen in *. lia.
Qed.

Lemma slice_splice_before {A} off (bs l : list A) o n :
  0 <= o -> 0 <= off -> off + zlen bs <= zlen l -> o + n <= off ->
  slice o n (splice off bs l) = slice o n l.
Proof. intros. slice_ext. Qed.

Lemma slice_splice_after {A} off (bs l : list A) o n :
  0 <= off -> off + zlen bs <= zlen l -> off + zlen bs <= o ->
  slice o n (splice off bs l) = slice o n l.
Proof. intros. pose proof (zlen_nonneg bs). slice_ext. Qed.

Lemma ztake_splice_before {A} off (bs l : list A) n :
  0 <= off -> off + zlen bs <= zlen l -> n <= off -> ztake n (splice off bs l) = ztake n l.
Proof. intros. slice_ext. Qed.

Lemma splice_splice {A} o (a b l : list A) :
  0 <= o -> o + zlen a + zlen b <= zlen l -> splice (o + zlen a) b (splice o a l) = splice o (a ++ b) l.
Proof.
  intros Ho Hl. pose proof (zlen_nonneg a). pose proof (zlen_nonneg b).
  assert (zlen (splice o a l) = zlen l) as Hz by (apply zlen_splice; lia).
  apply list_eq. intros i.
  rewrite !lookup_splice by (rewrite ?zlen_app, ?Hz; lia). rewrite zlen_app.
  repeat case_decide; try lia; try done.
  - rewrite lookup_app_r by (unfold zlen in *; lia). f_equal. unfold zlen in *. lia.
  - rewrite lookup_app_l by (unfold zlen in *; lia). done.
Qed.

Lemma slice_slice {A} o n o' n' (l : list A) :
  0 <= o -> 0 <= o' -> o' + n' <= n -> slice o' n' (slice o n l) = slice (o + o') n' l.
Proof. intros. slice_ext. Qed.

Lemma slice_ztake {A} o n m (l : list A) :
  0 <= o -> o + n <= m -> slice o n (ztake m l) = slice o n l.
Proof. intros. slice_ext. Qed.

Lemma slice_app_l {A} o n (l k : list A) :
  0 <= o -> o + n <= zlen l -> slice o n (l ++ k) = slice o n l.
Proof.
  intros. apply list_eq. intros i. rewrite !lookup_slice. case_decide; [|done].
  apply lookup_app_l. unfold zlen in *. lia.
Qed.

Lemma splice_nil {A} off (l : list A) : splice off [] l = l.
Proof. unfold splice. simpl. rewrite zlen_nil, Z.add_0_r. apply ztake_zdrop. Qed.

Lemma filter_all {A} (P : A -> Prop) `{forall x, Decision (P x)} (l : list A) :
  (forall x, x ∈ l -> P x) -> filter P l = l.
Proof.
  induction l as [|x l IH]; intros Hl; [done|]. rewrite filter_cons.
  rewrite decide_True by (apply Hl; left). rewrite IH; [done|]. intros y Hy. apply Hl. by right.
Qed.

Lemma filter_none {A} (P : A -> Prop) `{forall x, Decision (P x)} (l : list A) :
  (forall x, x ∈ l -> ~ P x) -> filter P l = [].
Proof.
  induction l as [|x l IH]; intros Hl; [done|]. rewrite filter_cons.
  rewrite decide_False by (apply Hl; left). apply IH. intros y Hy. apply Hl. by right.
Qed.

(** Removing an element that occurs at most once. *)
Lemma filter_neq_id `{EqDecision A} (l : list A) x : x ∉ l -> filter (fun y => y <> x) l = l.
Proof.
  intros Hx. apply filter_all. by intros y Hy ->.
Qed.

Lemma filter_remove `{EqDecision A} (l1 l2 : list A) x :
  NoDup (l1 ++ x :: l2) -> filter (fun y => y <> x) (l1 ++ x :: l2) = l1 ++ l2.
Proof.
  intros Hn. apply NoDup_app in Hn as (_ & Hd & Hn). apply NoDup_cons in Hn as [Hx _].
  rewrite filter_app, filter_cons, decide_False by auto.
  rewrite !filter_neq_id; [done|done|]. intros Hx1. by apply (Hd x Hx1); left.
Qed.

(** The first index of a list where [P] holds. *)
Fixpoint index_of {A} (P : A -> bool) (l : list A) : option Z :=
  match l with
  | [] => None
  | x :: l => if P x then Some 0 else Z.succ <$> index_of P l
  end.

Lemma index_of_Some {A} (P : A -> bool) (l : list A) (i : Z) :
  index_of P l = Some i -> 0 <= i < zlen l.
Proof.
  revert i. induction l as [|x l IH]; intros i; simpl; [done|].
  rewrite zlen_cons. destruct (P x).
  - intros [= <-]. pose proof (zlen_nonneg l). lia.
  - destruct (index_of P l) as [j|]; [|done]. intros [= <-]. specialize (IH j eq_refl). lia.
Qed.

(** ** The state monad with undefined behaviour

    A C function that reads and writes memory is [ST S A]: it returns a value
    and a new state, or [None] where the C program has undefined behaviour
    (an access outside an object, a [NULL] dereference, overlapping [memcpy]). *)

Definition ST (S A : Type) : Type := S -> option (A * S).

#[export] Instance ST_ret S : MRet (ST S) := fun A a s => Some (a, s).
#[export] Instance ST_bind S : MBind (ST S) :=
  fun A B f m s => match m s with Some (a, s') => f a s' | None => None end.

Definition ub {S A} : ST S A := fun _ => None.
Definition gets {S A} (f : S -> A) : ST S A := fun s => Some (f s, s).
Definition modify {S} (f : S -> S) : ST S unit := fun s => Some (tt, f s).
Definition lift_opt {S A} (o : option A) : ST S A :=
  fun s => match o with Some a => Some (a, s) | None => None end.

Lemma ST_bind_Some {S A B} (m : ST S A) (f : A -> ST S B) s a s' :
  m s = Some (a, s') -> (m ≫= f) s = f a s'.
Proof. intros H. unfold mbind, ST_bind. by rewrite H. Qed.

Lemma ST_bind_None {S A B} (m : ST S A) (f : A -> ST S B) s : m s = None -> (m ≫= f) s = None.
Proof. intros H. unfold mbind, ST_bind. by rewrite H. Qed.

Lemma ST_bind_inv {S A B} (m : ST S A) (f : A -> ST S B) s r :
  (m ≫= f) s = Some r -> exists a s', m s = Some (a, s') /\ f a s' = Some r.
Proof. unfold mbind, ST_bind. destruct (m s) as [[a s']|]; [eauto|done]. Qed.

(** Objects and blocks are named by [loc]; [NULL] is [None] where the code
    passes or tests a possibly-null pointer. *)
Abbreviation loc := positive (only parsing).

(** A byte pointer: an offset into a block. *)
Record ptr := Ptr { p_blk : loc; p_off : Z }.

#[export] Instance ptr_eq_dec : EqDecision ptr.
Proof. solve_decision. Defined.

Definition ptr_add (p : ptr) (i : Z) : ptr := Ptr (p_blk p) (p_off p + i).

(** ** Total correctness of state computations

    [wp m s Q]: from [s], [m] has no undefined behaviour, and its value and
    final state satisfy [Q]. *)

Definition wp {S A} (m : ST S A) (s : S) (Q : A -> S -> Prop) : Prop :=
  match m s with
  | Some (a, s') => Q a s'
  | None => False
  end.

Lemma wp_bind {S A B} (m : ST S A) (f : A -> ST S B) s Q :
  wp m s (fun a s' => wp (f a) s' Q) -> wp (m ≫= f) s Q.
Proof. unfold wp, mbind, ST_bind. by destruct (m s) as [[a s']|]. Qed.

Lemma wp_ret {S A} (a : A) (s : S) (Q : A -> S -> Prop) : Q a s -> wp (mret a) s Q.
Proof. done. Qed.

Lemma wp_mono {S A} (m : ST S A) s (Q Q' : A -> S -> Prop) :
  wp m s Q -> (forall a s', Q a s' -> Q' a s') -> wp m s Q'.
Proof. unfold wp. destruct (m s) as [[a s']|]; auto. Qed.

Lemma wp_run {S A} (m : ST S A) s (Q : A -> S -> Prop) :
  wp m s Q -> exists a s', m s = Some (a, s') /\ Q a s'.
Proof. unfold wp. destruct (m s) as [[a s']|]; [eauto|done]. Qed.

Lemma wp_modify {S} (f : S -> S) s (Q : unit -> S -> Prop) : Q tt (f s) -> wp (modify f) s Q.
Proof. done. Qed.

Lemma wp_gets {S A} (f : S -> A) s (Q : A -> S -> Prop) : Q (f s) s -> wp (gets f) s Q.
Proof. done. Qed.

Create HintDb wp.
#[export] Hint Resolve wp_ret wp_modify : wp.

(** One step of a [wp] goal: sequencing and returns; pattern-matching binds
    are reduced. *)
Ltac wp_seq := first [ apply wp_bind; cbv beta | apply wp_ret; cbv beta ].

(** Applies a specification to the first computation of the goal. *)
Tactic Notation "wp_apply" uconstr(lem) := first
  [ apply wp_bind; eapply wp_mono; [ eapply lem | cbv beta ]
  | eapply wp_mono; [ eapply lem | cbv beta ] ].

(** ** Bitwise bounds *)

Lemma Z_le_lor (a b : Z) : 0 <= a -> 0 <= b -> a <= Z.lor a b.
Proof.
  intros Ha Hb. replace (Z.lor a b) with (a + Z.ldiff b a).
  - assert (0 <= Z.ldiff b a) by (apply Z.ldiff_nonneg; auto). lia.
  - rewrite Z.add_nocarry_lxor.
    + apply Z.bits_inj'. intros n Hn.
      rewrite Z.lxor_spec, Z.ldiff_spec, Z.lor_spec.
      by destruct (Z.testbit a n), (Z.testbit b n).
    + apply Z.bits_inj'. intros n Hn.
      rewrite Z.land_spec, Z.ldiff_spec, Z.bits_0.
      by destruct (Z.testbit a n), (Z.testbit b n).
Qed.

Lemma Z_lor_lt_pow2 (a b n : Z) :
  0 <= n -> 0 <= a < 2 ^ n -> 0 <= b < 2 ^ n -> Z.lor a b < 2 ^ n.
Proof.
  intros Hn Ha Hb. assert (Hp : 0 < 2 ^ n) by lia.
  assert (0 <= Z.lor a b) by (apply Z.lor_nonneg; lia).
  destruct (Z.eq_dec (Z.lor a b) 0) as [->|]; [done|].
  apply Z.log2_lt_pow2; [lia|]. rewrite Z.log2_lor by lia.
  assert (Hlog : forall x, 0 <= x < 2 ^ n -> x = 0 \/ Z.log2 x < n).
  { intros x Hx. destruct (Z.eq_dec x 0); [by left|right]. apply Z.log2_lt_pow2; lia. }
  destruct (Hlog a Ha) as [->|?], (Hlog b Hb) as [->|?]; simpl; try lia.
  - exfalso. done.
  - pose proof (Z.log2_nonneg b). change (Z.log2 0) with 0. lia.
  - pose proof (Z.log2_nonneg a). change (Z.log2 0) with 0. lia.
Qed.

(** One smearing step [v |= v >> k] grows [v] and keeps it below a power of two. *)
Lemma smear_bound (v k n : Z) :
  0 <= k -> 0 <= n -> 0 <= v < 2 ^ n -> v <= Z.lor v (Z.shiftr v k) < 2 ^ n.
Proof.
  intros Hk Hn Hv. assert (0 <= Z.shiftr v k <= v) as Hs.
  { rewrite Z.shiftr_div_pow2 by done. assert (0 < 2 ^ k) by lia.
    split; [apply Z.div_pos; lia | apply Z.div_le_upper_bound; nia]. }
  split; [apply Z_le_lor; lia | apply Z_lor_lt_pow2; lia].
Qed.
