(* ===== verification/Chars.v ===== *)
(** * C strings

    A C string is the list of its characters, without the final [NUL]; a char
    array is written at an offset and holds at most its capacity.  [strtok],
    [snprintf], [atoi], [dirname] and decimal numbers are modelled here because
    several files of [lib/] use them. *)

From Stdlib Require Export Ascii.
From Stdlib Require String.
From S2P Require Import Prelude.

Abbreviation chars := (list ascii) (only parsing).

Definition chr (s : string) : chars := String.list_ascii_of_string s.

Definition code (c : ascii) : Z := Z.of_nat (nat_of_ascii c).

(** ** Tokens *)

(** The maximal runs of characters other than [sep]: what [strtok] yields. *)
Fixpoint tokens_from (sep : ascii) (tok s : chars) : list chars :=
  match s with
  | [] => match tok with [] => [] | _ => [tok] end
  | c :: s =>
      if bool_decide (c = sep)
      then match tok with [] => tokens_from sep [] s | _ => tok :: tokens_from sep [] s end
      else tokens_from sep (tok ++ [c]) s
  end.
Definition strtok (sep : ascii) (s : chars) : list chars := tokens_from sep [] s.

Fixpoint join (sep : ascii) (ts : list chars) : chars :=
  match ts with
  | [] => []
  | t :: ts => match ts with [] => t | _ => t ++ sep :: join sep ts end
  end.

(** A component: not empty, without the separator. *)
Definition is_token (sep : ascii) (t : chars) : Prop := t <> [] /\ sep ∉ t.

Lemma tokens_from_token sep s tok : sep ∉ tok -> Forall (is_token sep) (tokens_from sep tok s).
Proof.
  revert tok. induction s as [|c s IH]; intros tok Ht; cbn.
  - destruct tok; [constructor|repeat constructor; done].
  - case_bool_decide.
    + destruct tok; [apply IH; set_solver|constructor; [done|apply IH; set_solver]].
    + apply IH. set_solver.
Qed.

Lemma strtok_token sep s : Forall (is_token sep) (strtok sep s).
Proof. apply tokens_from_token. set_solver. Qed.

Lemma strtok_sep sep s : strtok sep (sep :: s) = strtok sep s.
Proof. unfold strtok. cbn. by rewrite bool_decide_true. Qed.

Lemma tokens_from_word sep t s tok :
  sep ∉ t -> tokens_from sep tok (t ++ s) = tokens_from sep (tok ++ t) s.
Proof.
  revert tok. induction t as [|c t IH]; intros tok Ht; cbn; [by rewrite app_nil_r|].
  rewrite bool_decide_false by set_solver. rewrite IH by set_solver. by rewrite <- app_assoc.
Qed.

(** Joining components and cutting again gives the components. *)
Lemma strtok_join sep ts : Forall (is_token sep) ts -> strtok sep (join sep ts) = ts.
Proof.
  unfold strtok. induction ts as [|t ts IH]; intros Hts; [done|].
  apply Forall_cons in Hts as [[Hne Hs] Hts]. specialize (IH Hts). cbn. destruct ts as [|u ts].
  - rewrite <- (app_nil_r t), tokens_from_word by done. cbn. rewrite app_nil_r. by destruct t.
  - rewrite tokens_from_word by done. cbn [tokens_from app]. rewrite bool_decide_true by done.
    destruct t; [done|]. by rewrite IH.
Qed.

Lemma zlen_join_cons sep t ts : ts <> [] -> zlen (join sep (t :: ts)) = zlen t + 1 + zlen (join sep ts).
Proof. destruct ts; [done|]. intros _. cbn [join]. rewrite zlen_app, zlen_cons. lia. Qed.

Lemma tokens_from_len sep s tok : zlen (join sep (tokens_from sep tok s)) <= zlen tok + zlen s.
Proof.
  revert tok. induction s as [|c s IH]; intros tok; cbn [tokens_from].
  - destruct tok; cbn [join]; rewrite ?zlen_nil; lia.
  - rewrite zlen_cons. case_bool_decide.
    + specialize (IH []). rewrite zlen_nil in IH. destruct tok as [|k tok]; [rewrite zlen_nil; lia|].
      destruct (tokens_from sep [] s) as [|u us] eqn:Hu.
      * cbn [join]. pose proof (zlen_nonneg s). lia.
      * rewrite zlen_join_cons by done. lia.
    + specialize (IH (tok ++ [c])). rewrite zlen_app, zlen_one in IH. lia.
Qed.

Lemma strtok_len sep s : zlen (join sep (strtok sep s)) <= zlen s.
Proof. pose proof (tokens_from_len sep s []). rewrite zlen_nil in *. unfold strtok. lia. Qed.

(** ** Decimal numbers *)

Definition digit (d : Z) : ascii := ascii_of_nat (Z.to_nat (48 + d)).

Fixpoint digits (fuel : nat) (n : Z) : chars :=
  match fuel with
  | O => []
  | S fuel => if n <? 10 then [digit n] else digits fuel (n / 10) ++ [digit (n mod 10)]
  end.

(** [%d] and [%ld]; twenty digits are enough for 64 bits. *)
Definition fmt_d (n : Z) : chars :=
  if n <? 0 then "-"%char :: digits 20 (- n) else digits 20 n.

(** [%0<width>d] and [%0<width>ld]. *)
Definition fmt_0d (width n : Z) : chars :=
  let ds := digits 20 (Z.abs n) in
  let sign := if n <? 0 then ["-"%char] else [] in
  sign ++ replicate (Z.to_nat (width - zlen ds - zlen sign)) "0"%char ++ ds.

Definition is_digit (c : ascii) : bool := (48 <=? Z.of_nat (nat_of_ascii c)) && (Z.of_nat (nat_of_ascii c) <=? 57).
Definition is_space (c : ascii) : bool :=
  let k := Z.of_nat (nat_of_ascii c) in (k =? 32) || ((9 <=? k) && (k <=? 13)).

Fixpoint atoi_digits (acc : Z) (s : chars) : Z :=
  match s with
  | c :: s => if is_digit c then atoi_digits (acc * 10 + Z.of_nat (nat_of_ascii c) - 48) s else acc
  | [] => acc
  end.
Fixpoint skip_space (s : chars) : chars :=
  match s with c :: s' => if is_space c then skip_space s' else s | [] => [] end.

(** [atoi]: undefined when the number is not an [int]. *)
Definition atoi (s : chars) : option Z :=
  let n := match skip_space s with
           | "-"%char :: s => - atoi_digits 0 s
           | "+"%char :: s => atoi_digits 0 s
           | s => atoi_digits 0 s
           end in
  if (INT_MIN <=? n) && (n <=? INT_MAX) then Some n else None.

(** ** Writing into a char array of [cap] characters *)

(** [snprintf (txt + at, cap - at, ...)] of the text [s]: the array's contents
    and the value returned, the length of [s].  An offset past the array is
    undefined. *)
Definition snprintf_at (cap : Z) (txt : chars) (at_ : Z) (s : chars) : option (chars * Z) :=
  if (at_ <? 0) || (cap <? at_) then None
  else Some (ztake at_ txt ++ ztake (cap - at_ - 1) s, zlen s).

(** ** Case *)

Definition to_lower (c : ascii) : ascii :=
  let k := Z.of_nat (nat_of_ascii c) in
  if (65 <=? k) && (k <=? 90) then ascii_of_nat (Z.to_nat (k + 32)) else c.
Definition strcasecmp (a b : chars) : bool := bool_decide (map to_lower a = map to_lower b).
