(* ===== verification/Which.v ===== *)
(** * Paths and executables ([lib/dpapp/which.c])

    The file system and the environment are the class [Fs]; paths are
    characters.  [None] is undefined behaviour, [Some None] a [NULL] result. *)

From S2P Require Import Prelude Chars.

Definition PATH_MAX : Z := 4096.
Definition slash : ascii := "/".

Inductive file_kind := IsDir | IsReg | IsLnk | IsOther.

(** [fs_mkdir] answers 0 or a negative [errno]. *)
Class Fs (F : Type) := {
  fs_getcwd : F -> option chars;
  fs_access : F -> chars -> bool; (* X_OK *)
  fs_path : F -> option chars;    (* getenv("PATH") *)
  fs_stat : F -> chars -> option file_kind;
  fs_mkdir : chars -> F -> Z * F;
}.

(** ** Normal form *)

(** One component on the stack of [normalize_path]. *)
Definition push_component (st : list chars) (t : chars) : list chars :=
  if bool_decide (t = chr "..") then take (length st - 1) st
  else if bool_decide (t = chr ".") then st
  else st ++ [t].

Definition resolve (ts : list chars) : list chars := fold_left push_component ts [].

(** The result and the copy of the path are arrays of [PATH_MAX] bytes. *)
Definition normalize_path (path : chars) : option chars :=
  let temp := ztake (PATH_MAX - 1) path in
  let r := slash :: join slash (resolve (strtok slash temp)) in
  if zlen r <? PATH_MAX then Some r else None.

Section Which.
Context {F : Type} `{Fs F} (fs : F).

Definition absolute_path (fullpath : chars) : option (option chars) :=
  if bool_decide (head fullpath = Some slash) then Some <$> normalize_path (ztake PATH_MAX fullpath)
  else match fs_getcwd fs with
       | None => Some None
       | Some cwd => Some <$> normalize_path (ztake PATH_MAX (cwd ++ slash :: fullpath))
       end.

(** The directories of [PATH] in turn. *)
Fixpoint find_in (dirs : list chars) (cmd : chars) : option (option chars) :=
  match dirs with
  | [] => Some None
  | dir :: dirs =>
      let full := ztake (PATH_MAX - 1) (dir ++ slash :: cmd) in
      if fs_access fs full then absolute_path full else find_in dirs cmd
  end.

Definition find_executable (cmd : chars) : option (option chars) :=
  if bool_decide (slash ∈ cmd) then
    if fs_access fs cmd then absolute_path cmd else Some None
  else match fs_path fs with
       | None => Some None
       | Some path => find_in (strtok ":"%char path) cmd
       end.

Definition is_dir (path : chars) : bool :=
  match fs_stat fs path with Some IsDir => true | _ => false end.

Definition is_file (path : chars) : bool :=
  match fs_stat fs path with Some IsReg | Some IsLnk => true | _ => false end.

End Which.

Section Mkdir.
Context {F : Type} `{Fs F}.

Definition EEXIST_ : Z := 17.
Definition made (r : Z) : bool := (r =? 0) || (r =? - EEXIST_).

(** [tmp] is the path up to the current character. *)
Fixpoint mkdir_each (tmp rest : chars) (fs : F) : bool * F :=
  match rest with
  | [] => let '(r, fs) := fs_mkdir tmp fs in (made r, fs)
  | c :: rest =>
      if bool_decide (c = slash) then
        let '(r, fs) := fs_mkdir tmp fs in
        if made r then mkdir_each (tmp ++ [c]) rest fs else (false, fs)
      else mkdir_each (tmp ++ [c]) rest fs
  end.

Definition mkdir_p (path : chars) (fs : F) : option (bool * F) :=
  r ← normalize_path path;
  match r with
  | [] => Some (false, fs)
  | c :: rest => Some (mkdir_each [c] rest fs)
  end.

End Mkdir.

(** ** What a path means

    Two lists of components name the same file, symbolic links aside, when they
    differ by "." components, by a name followed by "..", and by ".." at the
    root. *)
Definition name (t : chars) : Prop := t <> chr "." /\ t <> chr "..".

Inductive path_step : list chars -> list chars -> Prop :=
  | ps_dot pre post : path_step (pre ++ chr "." :: post) (pre ++ post)
  | ps_up pre t post : name t -> path_step (pre ++ t :: chr ".." :: post) (pre ++ post)
  | ps_root post : path_step (chr ".." :: post) post.

Definition same_path : list chars -> list chars -> Prop := rtsc path_step.

Lemma resolve_app ts us : resolve (ts ++ us) = fold_left push_component us (resolve ts).
Proof. apply fold_left_app. Qed.

Lemma push_up_name st t : name t -> push_component (push_component st t) (chr "..") = st.
Proof.
  intros [H1 H2]. unfold push_component at 2. rewrite !bool_decide_false by done.
  unfold push_component. rewrite bool_decide_true by done.
  rewrite length_app, take_app_length'; [done|cbn; lia].
Qed.

Lemma path_step_resolve ts us : path_step ts us -> resolve ts = resolve us.
Proof.
  intros [pre post|pre t post Ht|post]; [| |done]; rewrite !resolve_app; cbn [fold_left]; [done|].
  by rewrite push_up_name.
Qed.

Lemma same_path_resolve ts us : same_path ts us -> resolve ts = resolve us.
Proof.
  intros Hs. induction Hs as [|x y z [Hxy|Hxy] _ IH]; [done| |];
    apply path_step_resolve in Hxy; congruence.
Qed.

(** The stack holds names only, and the steps lead to it. *)
Lemma resolve_names ts : Forall name (resolve ts).
Proof.
  unfold resolve. assert (Hst : Forall name (@nil chars)) by constructor. revert Hst.
  generalize (@nil chars) as st. induction ts as [|t ts IH]; intros st Hst; [done|].
  cbn. apply IH. unfold push_component. repeat case_bool_decide; [by apply Forall_take|done|].
  apply Forall_app. by repeat constructor.
Qed.

Lemma fold_push_names st ts : Forall name ts -> fold_left push_component ts st = st ++ ts.
Proof.
  revert st. induction ts as [|t ts IH]; intros st Hts; [by rewrite app_nil_r|].
  apply Forall_cons in Hts as [[H1 H2] Hts]. cbn. unfold push_component at 2.
  rewrite !bool_decide_false by done. rewrite IH by done. by rewrite <- app_assoc.
Qed.

Lemma resolve_of_names ts : Forall name ts -> resolve ts = ts.
Proof. apply fold_push_names. Qed.

Lemma resolve_same ts : same_path ts (resolve ts).
Proof.
  enough (Hg : forall st, Forall name st -> same_path (st ++ ts) (fold_left push_component ts st))
    by by apply (Hg []).
  induction ts as [|t ts IH]; intros st Hst; [rewrite app_nil_r; reflexivity|].
  cbn. unfold push_component at 2. case_bool_decide as H1; [|case_bool_decide as H2].
  - subst t. induction st as [|c st' _] using rev_ind; cbn.
    + etrans; [apply rtsc_lr, ps_root|]. by apply (IH []).
    + apply Forall_app in Hst as [Hst Hc]. apply Forall_cons in Hc as [Hc _].
      rewrite length_app, take_app_length' by (cbn; lia). rewrite <- app_assoc. cbn.
      etrans; [by apply rtsc_lr, ps_up|]. by apply IH.
  - subst t. etrans; [apply rtsc_lr, ps_dot|]. by apply IH.
  - rewrite (cons_middle t st ts), (app_assoc st). apply IH. apply Forall_app. by repeat constructor.
Qed.

Lemma resolve_tokens ts : Forall (is_token slash) ts -> Forall (is_token slash) (resolve ts).
Proof.
  unfold resolve. assert (Hst : Forall (is_token slash) (@nil chars)) by constructor. revert Hst.
  generalize (@nil chars) as st. induction ts as [|t ts IH]; intros st Hst Hts; [done|].
  apply Forall_cons in Hts as [Ht Hts]. cbn. apply IH; [|done]. unfold push_component.
  repeat case_bool_decide; [by apply Forall_take|done|]. apply Forall_app_2; [done|]. constructor; [done|constructor].
Qed.

(** What [normalize_path] computes when it is defined. *)
Lemma normalize_path_tokens path r :
  normalize_path path = Some r -> strtok slash r = resolve (strtok slash (ztake (PATH_MAX - 1) path)).
Proof.
  unfold normalize_path. cbv zeta. case_match; [|done]. intros [= <-].
  rewrite strtok_sep, strtok_join; [done|]. apply resolve_tokens, strtok_token.
Qed.

Lemma normalize_path_root path r : normalize_path path = Some r -> r = slash :: join slash (strtok slash r).
Proof.
  intros Hr. rewrite (normalize_path_tokens _ _ Hr). unfold normalize_path in Hr.
  cbv zeta in Hr. case_match; [|done]. by injection Hr.
Qed.

Lemma resolve_len ts : zlen (join slash (resolve ts)) <= zlen (join slash ts).
Proof.
  assert (Htake : forall n us, zlen (join slash (take n us)) <= zlen (join slash us)).
  { intros n us. revert n. induction us as [|u us IH]; intros [|n]; cbn [take]; try reflexivity.
    - cbn [join]. apply zlen_nonneg.
    - specialize (IH n). destruct us as [|u2 us]; [by rewrite take_nil|].
      rewrite (zlen_join_cons slash u (u2 :: us)) by done. destruct (take n (u2 :: us)) as [|v vs] eqn:Hv.
      + change (join slash [u]) with u. pose proof (zlen_nonneg (join slash (u2 :: us))). lia.
      + rewrite zlen_join_cons by done. lia. }
  assert (Hcons : forall t us vs, zlen (join slash (us ++ vs)) <= zlen (join slash (us ++ t :: vs))).
  { intros t us vs. induction us as [|u us IH]; cbn [app].
    - destruct vs as [|v vs]; [cbn [join]; rewrite zlen_nil; apply zlen_nonneg|].
      rewrite (zlen_join_cons slash t) by done. pose proof (zlen_nonneg t). lia.
    - rewrite (zlen_join_cons slash u (us ++ t :: vs)) by (by destruct us).
      destruct (us ++ vs) as [|v us'] eqn:Hv; [cbn [join]; pose proof (zlen_nonneg (join slash (us ++ t :: vs))); lia|].
      rewrite zlen_join_cons by done. lia. }
  enough (Hg : forall st, zlen (join slash (fold_left push_component ts st)) <= zlen (join slash (st ++ ts)))
    by by apply (Hg []).
  induction ts as [|t ts IH]; intros st; cbn; [by rewrite app_nil_r|]. etrans; [apply IH|].
  unfold push_component. repeat case_bool_decide.
  - etrans; [|apply Hcons]. rewrite <- (take_drop (length st - 1) st) at 3. rewrite <- app_assoc.
    generalize (drop (length st - 1) st) as us. intros us. induction us as [|u us IHu]; [done|].
    cbn. etrans; [apply IHu|apply Hcons].
  - apply Hcons.
  - by rewrite <- app_assoc.
Qed.

(** C33. [normalize_path] is defined for every path of fewer than [PATH_MAX - 1]
    bytes, and for every path that starts at the root; its result is an
    absolute path without ".", ".." or empty components, normalizing it again
    changes nothing, and two paths have the same result exactly when their
    components mean the same file. *)
Theorem normalize_path_canonical (p q : chars)
    (Hp : zlen p < PATH_MAX - 1 \/ head p = Some slash) (Hq : zlen q < PATH_MAX - 1 \/ head q = Some slash) :
  exists r s, normalize_path p = Some r /\ normalize_path q = Some s /\
    normalize_path r = Some r /\ Forall name (strtok slash r) /\
    (r = s <-> same_path (strtok slash (ztake (PATH_MAX - 1) p)) (strtok slash (ztake (PATH_MAX - 1) q))).
Proof.
  assert (Hdef : forall p, zlen p < PATH_MAX - 1 \/ head p = Some slash ->
    exists r, normalize_path p = Some r /\ zlen r < PATH_MAX).
  { clear. intros p Hp. unfold normalize_path. cbv zeta. set (ts := strtok slash (ztake (PATH_MAX - 1) p)).
    enough (Hl : zlen (slash :: join slash (resolve ts)) < PATH_MAX).
    { rewrite (proj2 (Z.ltb_lt _ _) Hl). eauto. }
    rewrite zlen_cons. pose proof (resolve_len ts) as Hr. subst ts.
    assert (Hs : zlen (join slash (strtok slash (ztake (PATH_MAX - 1) p))) < PATH_MAX - 1); [|lia].
    destruct Hp as [Hp|Hp].
    - pose proof (strtok_len slash (ztake (PATH_MAX - 1) p)) as Hs. rewrite zlen_ztake in Hs. pose proof (zlen_nonneg p). lia.
    - destruct p as [|c p]; [done|]. injection Hp as ->.
      change (ztake (PATH_MAX - 1) (slash :: p)) with (slash :: ztake (PATH_MAX - 2) p).
      rewrite strtok_sep. pose proof (strtok_len slash (ztake (PATH_MAX - 2) p)) as Hs.
      rewrite zlen_ztake in Hs. unfold PATH_MAX in *. lia. }
  destruct (Hdef p Hp) as (r & Hr & Hlr), (Hdef q Hq) as (s & Hs & _). exists r, s.
  pose proof (normalize_path_tokens _ _ Hr) as Tr. pose proof (normalize_path_tokens _ _ Hs) as Ts.
  pose proof (normalize_path_root _ _ Hr) as Rr. pose proof (normalize_path_root _ _ Hs) as Rs.
  assert (Hnames : Forall name (strtok slash r)) by (rewrite Tr; apply resolve_names).
  split_and!; try done.
  - unfold normalize_path. cbv zeta. rewrite (ztake_all (PATH_MAX - 1)) by lia.
    rewrite resolve_of_names by done. rewrite <- Rr. by rewrite (proj2 (Z.ltb_lt _ _) Hlr).
  - split.
    + intros <-. etrans; [apply resolve_same|]. rewrite <- Tr, Ts. symmetry. apply resolve_same.
    + intros Hsame. apply same_path_resolve in Hsame. rewrite <- Tr, <- Ts in Hsame. by rewrite Rr, Rs, Hsame.
Qed.

(** The result of [normalize_path] has one byte less than its copy of the
    path needs: a relative path of one component of 4095 bytes or more is
    written past the end of the result, with its leading "/" and its [NUL]. *)
Theorem normalize_path_overflow (p : chars) (Hlen : PATH_MAX - 1 <= zlen p) (Hslash : slash ∉ p) :
  normalize_path p = None.
Proof.
  unfold normalize_path. cbv zeta.
  assert (Ht : is_token slash (ztake (PATH_MAX - 1) p)).
  { split.
    - intros Hz. pose proof (zlen_ztake (PATH_MAX - 1) p) as Hl. rewrite Hz, zlen_nil in Hl. unfold PATH_MAX in *. lia.
    - intros Hin. apply Hslash. unfold ztake in Hin. by apply elem_of_take in Hin as (i & Hi%list_elem_of_lookup_2 & _). }
  pose proof (strtok_join slash [ztake (PATH_MAX - 1) p] ltac:(constructor; [done|constructor])) as Hj.
  cbn [join] in Hj. rewrite Hj. rewrite resolve_of_names.
  - cbn [join]. rewrite zlen_cons, zlen_ztake, (proj2 (Z.ltb_ge _ _)); [done|]. unfold PATH_MAX in *. lia.
  - constructor; [|constructor]. pose proof (zlen_ztake (PATH_MAX - 1) p) as Hl.
    split; intros Hz; rewrite Hz in Hl; change (zlen (chr ".")) with 1 in Hl; change (zlen (chr "..")) with 2 in Hl;
      unfold PATH_MAX in *; lia.
Qed.

(** ** Creating directories *)

(** A file system that logs the directories it is asked to make. *)
#[export] Instance log_fs : Fs (list chars) := {|
  fs_getcwd _ := Some (chr "/home");
  fs_access _ _ := false;
  fs_path _ := None;
  fs_stat _ _ := None;
  fs_mkdir p l := (0, l ++ [p]);
|}.

(** [mkdir_p] normalizes without the working directory: a relative path makes
    directories at the root. *)
Example mkdir_p_relative :
  mkdir_p (chr "var/log/../run") [] = Some (true, [chr "/var"; chr "/var/run"]).
Proof. reflexivity. Qed.

(** ** Examples *)

Lemma normalize_path_canonical_witness :
  exists r s, normalize_path (chr "/usr//lib/../bin/.") = Some r /\ normalize_path (chr "usr/bin") = Some s /\
    normalize_path r = Some r /\ Forall name (strtok slash r) /\
    (r = s <-> same_path (strtok slash (ztake (PATH_MAX - 1) (chr "/usr//lib/../bin/.")))
                         (strtok slash (ztake (PATH_MAX - 1) (chr "usr/bin")))).
Proof. apply normalize_path_canonical; [by right|left; vm_compute; reflexivity]. Defined.

Lemma normalize_path_overflow_witness : normalize_path (replicate 4095 "a"%char) = None.
Proof.
  apply normalize_path_overflow.
  - unfold zlen. rewrite length_replicate. unfold PATH_MAX. lia.
  - intros [Hx _]%elem_of_replicate. done.
Defined.
