(* ===== verification/Dplog.v ===== *)
(** * Logging ([lib/dpapp/dplog.c])

    The logger's level, file and time accuracy, the per-thread cache of the
    broken-down time, and the lines that are written.  The text of a message is
    an argument: it is what [vsnprintf] makes of the format and its arguments. *)

From S2P Require Import Prelude Chars.

#[local] Set Default Proof Using "Type*".

Definition DPLOG_BUFSZ : Z := 2048.

Definition DPLOG_L_DEBUG : Z := 0.
Definition DPLOG_L_INFO : Z := 1.
Definition DPLOG_L_NOTICE : Z := 2.
Definition DPLOG_L_WARN : Z := 3.
Definition DPLOG_L_ERROR : Z := 4.
Definition DPLOG_L_ALERT : Z := 5.

Definition DPLOG_TA_SECOND : Z := 0.
Definition DPLOG_TA_MILLIS : Z := 1.
Definition DPLOG_TA_MICROS : Z := 2.

Definition _iclamp (v l h : Z) : Z :=
  let t := if v <? l then l else v in
  if t <? h then t else h.

(** ** Names of levels *)

Definition level_names : list chars :=
  [chr "debug"; chr "info"; chr "notice"; chr "warning"; chr "error"; chr "alert"].
Definition level_letters : list chars := [chr "D"; chr "I"; chr "N"; chr "W"; chr "E"; chr "A"].

Definition dplog_lname (l : Z) : option chars := znth level_names (_iclamp l 0 5).
Definition dplog_sname (l : Z) : option chars := znth level_letters (_iclamp l 0 5).

Definition dplog_namel (n : chars) : Z :=
  if strcasecmp n (chr "debug") then DPLOG_L_DEBUG
  else if strcasecmp n (chr "info") then DPLOG_L_INFO
  else if strcasecmp n (chr "notice") then DPLOG_L_NOTICE
  else if strcasecmp n (chr "warning") then DPLOG_L_WARN
  else if strcasecmp n (chr "error") then DPLOG_L_ERROR
  else if strcasecmp n (chr "alert") then DPLOG_L_ALERT
  else DPLOG_L_ALERT.

(** ** The logger *)

(** The clock, in seconds and microseconds, and the files.  [lg_open] takes the
    name and the permission bits. *)
Class LogOs (E : Type) := {
  lg_now : E -> (Z * Z) * E;
  lg_open : chars -> Z -> E -> Z * E;
  lg_close : Z -> E -> E;
  lg_write : Z -> chars -> E -> E;
}.

(** [l_sec] and [l_tm] are the thread's [_gTime]; [l_tm] is the second whose
    broken-down time it holds. *)
Record logger (E : Type) := Logger {
  l_level : Z;
  l_fd : Z;
  l_ta : Z;
  l_sec : Z;
  l_tm : option Z;
  l_ext : E;
}.
Arguments Logger {E}. Arguments l_level {E}. Arguments l_fd {E}. Arguments l_ta {E}.
Arguments l_sec {E}. Arguments l_tm {E}. Arguments l_ext {E}.

Definition STDOUT : Z := 1.

Section Dplog.
Context {E : Type} `{LogOs E}.

(** [strftime "%FT%T"] of the local time of a second, or of the zero [tm]; and
    [dpevp_id]. *)
Context (strftime : option Z -> chars) (evp_id : Z).

Abbreviation M := (ST (logger E)).

Definition ext {A} (f : E -> A * E) : M A :=
  fun s => let '(a, x) := f (l_ext s) in
           Some (a, Logger (l_level s) (l_fd s) (l_ta s) (l_sec s) (l_tm s) x).

Definition dplog_curlevel : M Z := gets l_level.
Definition dplog_curtsacc : M Z := gets l_ta.
Definition dplog_curlname : M chars := l ← dplog_curlevel; lift_opt (dplog_lname l).

Definition dplog_setlevel (l : Z) : M unit :=
  modify (fun s => Logger (_iclamp l 0 5) (l_fd s) (l_ta s) (l_sec s) (l_tm s) (l_ext s)).
Definition dplog_settsacc (ta : Z) : M unit :=
  modify (fun s => Logger (l_level s) (l_fd s) (_iclamp ta 0 2) (l_sec s) (l_tm s) (l_ext s)).

Definition dplog_init (file : option chars) (level ta : Z) : M bool :=
  let file := match file with Some f => f | None => chr "/dev/stdout" end in
  dplog_setlevel level;;
  dplog_settsacc ta;;
  fd ← ext (lg_open file 644);
  if 0 <=? fd then
    s ← gets id;
    (if 0 <=? l_fd s then ext (fun x => (tt, lg_close (l_fd s) x)) else mret tt);;
    modify (fun s => Logger (l_level s) fd (l_ta s) (l_sec s) (l_tm s) (l_ext s));;
    mret true
  else mret false.

(** The cached local time: refreshed when the clock is past it. *)
Definition dplog_nowtm : M (option Z) :=
  now ← ext lg_now;
  s ← gets id;
  if l_sec s <? now.1 then
    modify (fun s => Logger (l_level s) (l_fd s) (l_ta s) now.1 (Some now.1) (l_ext s));;
    mret (Some now.1)
  else mret (l_tm s).

Definition to_i64 (z : Z) : Z := (z + 9223372036854775808) mod 18446744073709551616 - 9223372036854775808.

Definition dplog_nowts (ta : Z) : M Z :=
  now ← ext lg_now;
  let u := to_u64 now.1 in
  mret (to_i64 (if ta =? DPLOG_TA_SECOND then u
                else if ta =? DPLOG_TA_MICROS then to_u64 (to_u64 (u * 1000000) + now.2)
                else to_u64 (to_u64 (u * 1000) + Z.quot now.2 1000))).

(** The bytes go to the log file, or to the standard output. *)
Definition put_line (txt : chars) : M unit :=
  s ← gets id;
  ext (fun x => (tt, lg_write (if 0 <=? l_fd s then l_fd s else STDOUT) txt x)).

Definition dplog_print (msg : chars) : M unit :=
  r ← lift_opt (snprintf_at DPLOG_BUFSZ [] 0 msg);
  let sz := if r.2 <? DPLOG_BUFSZ then r.2 + 1 else DPLOG_BUFSZ in
  put_line (ztake (sz - 1) r.1 ++ ["010"%char]).

(** A part of the line appended by [tsz += snprintf (txt + tsz, ...)]. *)
Definition append (txt : chars) (tsz : Z) (s : chars) : M (chars * Z) :=
  r ← lift_opt (snprintf_at DPLOG_BUFSZ txt tsz s); mret (r.1, tsz + r.2).

(** The part of a line before the message. *)
Definition line_tag (l : Z) (domain : option chars) : option chars :=
  n ← dplog_sname l;
  let id := if evp_id <? 0 then 0 else evp_id in
  mret (match domain with
        | Some d => chr "[" ++ fmt_0d 3 id ++ chr "-" ++ n ++ chr "](" ++ d ++ chr ") "
        | None => chr "[" ++ fmt_0d 2 id ++ chr "-" ++ n ++ chr "] "
        end).

(** The fraction of a second. *)
Definition stamp (ta : Z) (ts : Z) : chars :=
  if ta =? 1 then chr "." ++ fmt_0d 3 (Z.rem ts 1000) else chr "." ++ fmt_0d 6 (Z.rem ts 1000000).

Definition dplog_vprint (l : Z) (domain : option chars) (msg : option chars) : M unit :=
  s ← gets id;
  match msg with
  | None => mret tt
  | Some msg =>
      if l <? l_level s then mret tt else
      tm ← dplog_nowtm;
      let time := strftime tm in
      let '(txt, tsz) := if zlen time <? DPLOG_BUFSZ then (time, zlen time) else ([], 0) in
      r ← (if negb (l_ta s =? 0) then ts ← dplog_nowts (l_ta s); append txt tsz (stamp (l_ta s) ts)
           else mret (txt, tsz));
      tag ← lift_opt (line_tag l domain);
      r ← append r.1 r.2 tag;
      let '(txt, tsz) := r in
      r ← lift_opt (snprintf_at DPLOG_BUFSZ txt tsz msg);
      let '(txt, sz) := r in
      let tsz := if DPLOG_BUFSZ - tsz <=? sz then DPLOG_BUFSZ - 1 else tsz + sz in
      put_line (ztake tsz txt ++ ["010"%char])
  end.

(** [LOG (l)] and [ELOG (l)]. *)
Definition log_at (l : Z) (domain : option chars) (msg : option chars) : M unit :=
  cur ← dplog_curlevel;
  if l <? cur then mret tt else dplog_vprint l domain msg.

Definition dplog_write (level : Z) (domain msg : option chars) : M unit := log_at level domain msg.
Definition dplog_debug (domain msg : option chars) : M unit := log_at DPLOG_L_DEBUG domain msg.
Definition dplog_info (domain msg : option chars) : M unit := log_at DPLOG_L_INFO domain msg.
Definition dplog_notice (domain msg : option chars) : M unit := log_at DPLOG_L_NOTICE domain msg.
Definition dplog_warn (domain msg : option chars) : M unit := log_at DPLOG_L_WARN domain msg.
Definition dplog_error (domain msg : option chars) : M unit := log_at DPLOG_L_ERROR domain msg.
Definition dplog_alert (domain msg : option chars) : M unit := log_at DPLOG_L_ALERT domain msg.
Definition dpelog_write (level : Z) (msg : option chars) : M unit := log_at level None msg.
Definition dpelog_debug (msg : option chars) : M unit := log_at DPLOG_L_DEBUG None msg.
Definition dpelog_info (msg : option chars) : M unit := log_at DPLOG_L_INFO None msg.
Definition dpelog_notice (msg : option chars) : M unit := log_at DPLOG_L_NOTICE None msg.
Definition dpelog_warn (msg : option chars) : M unit := log_at DPLOG_L_WARN None msg.
Definition dpelog_error (msg : option chars) : M unit := log_at DPLOG_L_ERROR None msg.
Definition dpelog_alert (msg : option chars) : M unit := log_at DPLOG_L_ALERT None msg.

(** ** Lines *)

Lemma zlen_digits fuel n : zlen (digits fuel n) <= Z.of_nat fuel.
Proof.
  revert n. induction fuel as [|fuel IH]; intros n; [done|]. cbn [digits].
  destruct (n <? 10); [rewrite zlen_one; lia|]. rewrite zlen_app, zlen_one. specialize (IH (n / 10)). lia.
Qed.

Lemma zlen_fmt_0d width n : 0 <= width <= 20 -> zlen (fmt_0d width n) <= 41.
Proof.
  intros Hw. unfold fmt_0d. cbv zeta. rewrite !zlen_app. pose proof (zlen_digits 20 (Z.abs n)).
  unfold zlen at 2. rewrite length_replicate.
  pose proof (zlen_nonneg (digits 20 (Z.abs n))). destruct (n <? 0); rewrite ?zlen_one, ?zlen_nil; lia.
Qed.

Lemma zlen_stamp ta ts : zlen (stamp ta ts) <= 42.
Proof.
  unfold stamp. destruct (ta =? 1); rewrite zlen_app; change (zlen (chr ".")) with 1.
  - pose proof (zlen_fmt_0d 3 (Z.rem ts 1000) ltac:(lia)). lia.
  - pose proof (zlen_fmt_0d 6 (Z.rem ts 1000000) ltac:(lia)). lia.
Qed.

Lemma wp_ext {A} (f : E -> A * E) s (Q : A -> logger E -> Prop) :
  Q (f (l_ext s)).1 (Logger (l_level s) (l_fd s) (l_ta s) (l_sec s) (l_tm s) (f (l_ext s)).2) ->
  wp (ext f) s Q.
Proof. unfold wp, ext. by destruct (f (l_ext s)). Qed.

Lemma wp_line_append txt tsz p s (Q : chars * Z -> logger E -> Prop) :
  zlen txt = tsz -> tsz + zlen p < DPLOG_BUFSZ -> Q (txt ++ p, tsz + zlen p) s -> wp (append txt tsz p) s Q.
Proof.
  intros <- Hp HQ. pose proof (zlen_nonneg txt). pose proof (zlen_nonneg p).
  unfold append, snprintf_at. rewrite (proj2 (Z.ltb_ge _ _)), (proj2 (Z.ltb_ge _ _)) by lia.
  cbn [orb]. apply wp_bind, wp_ret, wp_ret. cbn. rewrite !ztake_all by lia. done.
Qed.

(** What a state and its successors agree on. *)
Definition same_logger (s s' : logger E) : Prop :=
  l_level s' = l_level s /\ l_fd s' = l_fd s /\ l_ta s' = l_ta s.

(** The clock read at the start of a line, and the time it shows; with a fraction
    of a second the clock is read again. *)
Definition ts_of (ta : Z) (now : Z * Z) : Z :=
  let u := to_u64 now.1 in
  to_i64 (if ta =? DPLOG_TA_SECOND then u
          else if ta =? DPLOG_TA_MICROS then to_u64 (to_u64 (u * 1000000) + now.2)
          else to_u64 (to_u64 (u * 1000) + Z.quot now.2 1000)).
Definition shown (s : logger E) : option Z :=
  let now := (lg_now (l_ext s)).1.1 in if l_sec s <? now then Some now else l_tm s.
Definition line_time (s : logger E) : chars * E :=
  let x := (lg_now (l_ext s)).2 in
  if l_ta s =? 0 then (strftime (shown s), x)
  else (strftime (shown s) ++ stamp (l_ta s) (ts_of (l_ta s) (lg_now x).1), (lg_now x).2).

Lemma wp_nowtm s (Q : option Z -> logger E -> Prop) :
  (forall s', same_logger s s' -> l_ext s' = (lg_now (l_ext s)).2 -> Q (shown s) s') -> wp dplog_nowtm s Q.
Proof.
  intros HQ. unfold dplog_nowtm, shown in *. apply wp_bind, wp_ext. apply wp_bind. apply wp_gets. unfold id. cbn [l_sec l_tm].
  case_match; [apply wp_bind, wp_modify, wp_ret; by apply HQ|apply wp_ret; by apply HQ].
Qed.

Lemma wp_put_line txt s (Q : unit -> logger E -> Prop) :
  Q tt (Logger (l_level s) (l_fd s) (l_ta s) (l_sec s) (l_tm s)
          (lg_write (if 0 <=? l_fd s then l_fd s else STDOUT) txt (l_ext s))) ->
  wp (put_line txt) s Q.
Proof. intros HQ. unfold put_line. apply wp_bind. apply wp_gets. by apply wp_ext. Qed.

(** The header before the message is short when the domain is. *)
Lemma line_tag_short l domain :
  zlen (default [] domain) <= 1800 -> exists tag, line_tag l domain = Some tag /\ zlen tag <= 1900.
Proof.
  intros Hd. unfold line_tag. assert (exists c, dplog_sname l = Some [c]) as [c ->].
  { unfold dplog_sname, _iclamp. destruct (Z.ltb_spec l 0); cbv zeta; [by eexists|]. destruct (Z.ltb_spec l 5); [|by eexists].
    assert (Hl : l = 0 \/ l = 1 \/ l = 2 \/ l = 3 \/ l = 4) by lia. repeat destruct Hl as [->|Hl]; [by eexists..|].
    rewrite Hl. by eexists. }
  set (id := if evp_id <? 0 then 0 else evp_id). eexists. split; [reflexivity|].
  pose proof (zlen_fmt_0d 3 id ltac:(lia)). pose proof (zlen_fmt_0d 2 id ltac:(lia)).
  destruct domain as [d|]; cbn [default] in Hd; rewrite !zlen_app; cbn in Hd |- *; unfold zlen in *; cbn; lia.
Qed.

(** The line that is written. *)
Definition log_line (time tag m : chars) : chars := ztake (DPLOG_BUFSZ - 1) ((time ++ tag) ++ m) ++ ["010"%char].
Definition log_fd (s : logger E) : Z := if 0 <=? l_fd s then l_fd s else STDOUT.

(** C39. A message is written when its level is at least the logger's, and only then
    ([dplog.h] says at most).  With a domain of at most 1800 bytes writing is defined,
    and is exactly one write, after the clock has been read: of the time, the tag of the
    level and the domain and the message, cut so that line and newline fit the buffer
    of 2048 bytes. *)
Theorem dplog_vprint_line (l : Z) (domain : option chars) (m : chars) (s : logger E)
    (Htime : forall t, zlen (strftime t) <= 64) (Hlen : zlen (default [] domain) <= 1800) :
  (l < l_level s -> dplog_vprint l domain (Some m) s = Some (tt, s)) /\
  (l_level s <= l -> exists tag s', line_tag l domain = Some tag /\ dplog_vprint l domain (Some m) s = Some (tt, s') /\
    l_ext s' = lg_write (log_fd s) (log_line (line_time s).1 tag m) (line_time s).2 /\ same_logger s s').
Proof.
  unfold dplog_vprint. split; intros Hl.
  { unfold mbind, ST_bind, gets. cbn. by rewrite (proj2 (Z.ltb_lt _ _)). }
  destruct (line_tag_short l domain Hlen) as (tag & Htag & Htl). exists tag.
  match goal with |- context [?c s = Some (tt, _)] => enough (wp c s (fun _ s' =>
    l_ext s' = lg_write (log_fd s) (log_line (line_time s).1 tag m) (line_time s).2 /\ same_logger s s')) as Hw end.
  { destruct (wp_run _ _ _ Hw) as ([] & s' & Hr & Hq & Hs). by exists s'. }
  apply wp_bind. apply wp_gets. unfold id. rewrite (proj2 (Z.ltb_ge _ _)) by lia.
  apply wp_bind, wp_nowtm. intros s1 H1 Hx1. cbv zeta. specialize (Htime (shown s)).
  rewrite (proj2 (Z.ltb_lt _ _)) by (unfold DPLOG_BUFSZ; lia). apply wp_bind.
  assert (Hrest : forall time s2, zlen time <= 106 -> same_logger s s2 -> (time, l_ext s2) = line_time s ->
    wp (tag ← lift_opt (line_tag l domain);
        r ← append (time, zlen time).1 (time, zlen time).2 tag;
        let '(txt, tsz) := r in
        r ← lift_opt (snprintf_at DPLOG_BUFSZ txt tsz m);
        let '(txt, sz) := r in
        put_line (ztake (if DPLOG_BUFSZ - tsz <=? sz then DPLOG_BUFSZ - 1 else tsz + sz) txt ++ ["010"%char])) s2
    (fun _ s' => l_ext s' = lg_write (log_fd s) (log_line (line_time s).1 tag m) (line_time s).2 /\ same_logger s s')).
  { intros time s2 Ht (L1 & L2 & L3) <-. rewrite Htag. pose proof (zlen_nonneg time). pose proof (zlen_nonneg tag).
    pose proof (zlen_nonneg m).
    apply wp_bind, wp_ret. apply wp_bind. cbn [fst snd]. apply wp_line_append; [done|unfold DPLOG_BUFSZ; lia|].
    apply wp_bind. unfold snprintf_at. rewrite (proj2 (Z.ltb_ge _ _)), (proj2 (Z.ltb_ge _ _)) by (unfold DPLOG_BUFSZ; lia).
    apply wp_ret. apply wp_put_line. cbn [l_ext]. unfold log_fd, log_line. rewrite L2. split; [|by split_and!]. do 2 f_equal.
    rewrite (ztake_all (zlen time + zlen tag)) by (rewrite zlen_app; lia).
    rewrite (ztake_app (DPLOG_BUFSZ - 1)), (ztake_all (DPLOG_BUFSZ - 1) (time ++ tag)) by (rewrite zlen_app; unfold DPLOG_BUFSZ; lia).
    rewrite zlen_app. replace (DPLOG_BUFSZ - 1 - (zlen time + zlen tag)) with (DPLOG_BUFSZ - (zlen time + zlen tag) - 1) by lia.
    apply ztake_all. rewrite !zlen_app, zlen_ztake.
    destruct (Z.leb_spec (DPLOG_BUFSZ - (zlen time + zlen tag)) (zlen m)); unfold DPLOG_BUFSZ in *; lia. }
  assert (H1' := H1). destruct H1' as (_ & _ & Hta). destruct (l_ta s =? 0) eqn:Hz; cbn [negb].
  - apply wp_ret. apply Hrest; [lia|done|unfold line_time; by rewrite Hz, Hx1].
  - unfold dplog_nowts. apply wp_bind, wp_bind, wp_ext, wp_ret.
    match goal with |- context [stamp ?a ?b] => pose proof (zlen_stamp a b) end.
    apply wp_line_append; [done|unfold DPLOG_BUFSZ; lia|].
    rewrite <- zlen_app. apply Hrest; [rewrite zlen_app; lia|destruct H1 as (? & ? & ?); by split_and!|].
    cbn [l_ext]. unfold line_time. by rewrite Hz, Hx1.
Qed.

Lemma append_at txt tsz p s : append txt tsz p s = None \/
  exists txt', append txt tsz p s = Some ((txt', tsz + zlen p), s).
Proof.
  unfold append, snprintf_at, mbind, ST_bind, lift_opt. destruct ((tsz <? 0) || (DPLOG_BUFSZ <? tsz)); [by left|].
  right. by eexists.
Qed.

(** The offset of the message is the sum of the lengths the parts of the
    header would have, cut or not: with a domain of 2048 bytes or more it is
    past the buffer, and the message is written there. *)
Theorem dplog_domain_overflow (l : Z) (d m : chars) (s : logger E)
    (Hd : DPLOG_BUFSZ <= zlen d) (Hl : l_level s <= l) :
  dplog_vprint l (Some d) (Some m) s = None.
Proof.
  unfold dplog_vprint. unfold mbind at 1, ST_bind at 1, gets. cbn [id]. rewrite (proj2 (Z.ltb_ge _ _)) by lia.
  destruct (wp_run dplog_nowtm s (fun _ _ => True) ltac:(by apply wp_nowtm)) as (t & s1 & Hn & _).
  erewrite ST_bind_Some by done. cbv zeta.
  assert (Htag : forall txt tsz s2, 0 <= tsz ->
    (tag ← lift_opt (line_tag l (Some d)); r ← append txt tsz tag;
     let '(txt, tsz) := r in
     r ← lift_opt (snprintf_at DPLOG_BUFSZ txt tsz m);
     let '(txt, sz) := r in
     put_line (ztake (if DPLOG_BUFSZ - tsz <=? sz then DPLOG_BUFSZ - 1 else tsz + sz) txt ++ ["010"%char])) s2 = None).
  { intros txt tsz s2 Ht. destruct (dplog_sname l) as [n|] eqn:Hn';
      [|apply ST_bind_None; unfold line_tag; by rewrite Hn'].
    destruct (line_tag l (Some d)) as [tag|] eqn:Htag; [|by apply ST_bind_None].
    assert (Hlen : zlen d < zlen tag).
    { unfold line_tag in Htag. rewrite Hn' in Htag. injection Htag as <-.
      unfold zlen. cbn. repeat (rewrite length_app; cbn). lia. }
    erewrite ST_bind_Some by done.
    destruct (append_at txt tsz tag s2) as [Ha|[txt' Ha]]; [by apply ST_bind_None|].
    erewrite ST_bind_Some by done. apply ST_bind_None.
    unfold snprintf_at, lift_opt. rewrite (proj2 (Z.ltb_lt DPLOG_BUFSZ _)) by lia. by rewrite orb_true_r. }
  assert (Htime : 0 <= (if zlen (strftime t) <? DPLOG_BUFSZ then (strftime t, zlen (strftime t)) else ([], 0)).2)
    by (case_match; cbn; [apply zlen_nonneg|lia]).
  destruct (if zlen (strftime t) <? DPLOG_BUFSZ then _ else _) as [txt tsz]. cbn [snd] in Htime.
  destruct (l_ta s =? 0); cbn [negb].
  - erewrite ST_bind_Some by done. by apply Htag.
  - destruct (dplog_nowts (l_ta s) s1) as [[ts s2]|] eqn:Hts;
      [|apply ST_bind_None; by apply ST_bind_None].
    destruct (append_at txt tsz (stamp (l_ta s) ts) s2) as [Ha|[txt' Ha]].
    + apply ST_bind_None. by erewrite ST_bind_Some.
    + erewrite ST_bind_Some; [|by erewrite ST_bind_Some].
      apply Htag. cbn. pose proof (zlen_nonneg (stamp (l_ta s) ts)). lia.
Qed.

(** The names of the levels are read back, in any case, and every other name
    is read as "alert": no name is refused, so the check of [dpapp_arg_parse]
    for an invalid level never fires. *)
Theorem dplog_level_roundtrip (l : Z) (n : chars) :
  0 <= dplog_namel n <= 5 /\
  exists name, dplog_lname l = Some name /\ dplog_namel name = _iclamp l 0 5 /\
    (map to_lower n = map to_lower name -> dplog_namel n = _iclamp l 0 5).
Proof.
  assert (Hclamp : _iclamp l 0 5 = 0 \/ _iclamp l 0 5 = 1 \/ _iclamp l 0 5 = 2 \/
                   _iclamp l 0 5 = 3 \/ _iclamp l 0 5 = 4 \/ _iclamp l 0 5 = 5).
  { unfold _iclamp. destruct (Z.ltb_spec l 0); cbv zeta; case_match; lia. }
  split.
  - unfold dplog_namel, DPLOG_L_DEBUG, DPLOG_L_INFO, DPLOG_L_NOTICE, DPLOG_L_WARN, DPLOG_L_ERROR, DPLOG_L_ALERT.
    repeat case_match; lia.
  - unfold dplog_lname. repeat destruct Hclamp as [->|Hclamp]; [..|rewrite Hclamp];
      eexists; (split; [done|]); (split; [done|]); intros Hn; unfold dplog_namel, strcasecmp; by rewrite Hn.
Qed.

End Dplog.

(** ** Examples *)

(** A clock that stands at second 100 and a log of what is written. *)
#[export] Instance log_os : LogOs (list (Z * chars)) := {|
  lg_now x := ((100, 5000), x);
  lg_open _ _ x := (3, x);
  lg_close _ x := x;
  lg_write fd txt x := x ++ [(fd, txt)];
|}.

Definition ex_time (t : option Z) : chars := chr "1970-01-01T00:01:40".
Definition ex_logger : logger (list (Z * chars)) := Logger 2 (-1) 1 0 None [].

Example dplog_line_example :
  (l_ext ∘ snd) <$> dplog_error ex_time 2 (Some (chr "net")) (Some (chr "down")) ex_logger
  = Some [(1, chr "1970-01-01T00:01:40.005[002-E](net) down" ++ ["010"%char])].
Proof. vm_compute. reflexivity. Qed.

Lemma dplog_vprint_line_witness :
  exists s', dplog_vprint ex_time 2 4 None (Some (chr "down")) ex_logger = Some (tt, s') /\
    l_ext s' = [(1, chr "1970-01-01T00:01:40.005[02-E] down" ++ ["010"%char])].
Proof.
  destruct (proj2 (dplog_vprint_line ex_time 2 4 None (chr "down") ex_logger ltac:(by intros t; vm_compute) ltac:(by vm_compute)))
    as (tag & s' & Htag & Hr & Hx & _); [by vm_compute|]. exists s'. split; [exact Hr|]. rewrite Hx.
  assert (Ht : tag = chr "[02-E] ") by (vm_compute in Htag; by injection Htag as <-). rewrite Ht. vm_compute. reflexivity.
Defined.

Lemma dplog_domain_overflow_witness :
  dplog_vprint ex_time 2 4 (Some (replicate 2048 "d"%char)) (Some (chr "x")) ex_logger = None.
Proof.
  apply (dplog_domain_overflow ex_time 2 4); [|by vm_compute].
  unfold zlen. rewrite length_replicate. unfold DPLOG_BUFSZ. lia.
Defined.
