(* ===== verification/Dpret.v ===== *)
(** * Return codes ([lib/dpapp/dpret.h], [lib/dpapp/dpret.c])

    The [DPE_*] constants as three tables (system errno values of Linux, the
    codes of dpapp itself, the HTTP status codes), the constants the other
    files use by name, and the lookup of a readable message. *)

From S2P Require Import Prelude.

(** ** The codes *)

(** [-errno] codes, with the errno numbers of Linux. *)
Definition dpe_errno_codes : list (string * Z) :=
  [("DPE_OK", 0); ("DPE_PERM", -1); ("DPE_NOENT", -2);
   ("DPE_SRCH", -3); ("DPE_INTR", -4); ("DPE_IO", -5);
   ("DPE_NXIO", -6); ("DPE_2BIG", -7); ("DPE_NOEXEC", -8);
   ("DPE_BADF", -9); ("DPE_CHILD", -10); ("DPE_AGAIN", -11);
   ("DPE_NOMEM", -12); ("DPE_ACCES", -13); ("DPE_FAULT", -14);
   ("DPE_NOTBLK", -15); ("DPE_BUSY", -16); ("DPE_EXIST", -17);
   ("DPE_XDEV", -18); ("DPE_NODEV", -19); ("DPE_NOTDIR", -20);
   ("DPE_ISDIR", -21); ("DPE_INVAL", -22); ("DPE_NFILE", -23);
   ("DPE_MFILE", -24); ("DPE_NOTTY", -25); ("DPE_TXTBSY", -26);
   ("DPE_FBIG", -27); ("DPE_NOSPC", -28); ("DPE_SPIPE", -29);
   ("DPE_ROFS", -30); ("DPE_MLINK", -31); ("DPE_PIPE", -32);
   ("DPE_DOM", -33); ("DPE_RANGE", -34); ("DPE_DEADLK", -35);
   ("DPE_NAMETOOLONG", -36); ("DPE_NOLCK", -37); ("DPE_NOSYS", -38);
   ("DPE_NOTEMPTY", -39); ("DPE_LOOP", -40); ("DPE_WOULDBLOCK", -11);
   ("DPE_NOMSG", -42); ("DPE_IDRM", -43); ("DPE_CHRNG", -44);
   ("DPE_L2NSYNC", -45); ("DPE_L3HLT", -46); ("DPE_L3RST", -47);
   ("DPE_LNRNG", -48); ("DPE_UNATCH", -49); ("DPE_NOCSI", -50);
   ("DPE_L2HLT", -51); ("DPE_BADE", -52); ("DPE_BADR", -53);
   ("DPE_XFULL", -54); ("DPE_NOANO", -55); ("DPE_BADRQC", -56);
   ("DPE_BADSLT", -57); ("DPE_DEADLOCK", -35); ("DPE_BFONT", -59);
   ("DPE_NOSTR", -60); ("DPE_NODATA", -61); ("DPE_TIME", -62);
   ("DPE_NOSR", -63); ("DPE_NONET", -64); ("DPE_NOPKG", -65);
   ("DPE_REMOTE", -66); ("DPE_NOLINK", -67); ("DPE_ADV", -68);
   ("DPE_SRMNT", -69); ("DPE_COMM", -70); ("DPE_PROTO", -71);
   ("DPE_MULTIHOP", -72); ("DPE_DOTDOT", -73); ("DPE_BADMSG", -74);
   ("DPE_OVERFLOW", -75); ("DPE_NOTUNIQ", -76); ("DPE_BADFD", -77);
   ("DPE_REMCHG", -78); ("DPE_LIBACC", -79); ("DPE_LIBBAD", -80);
   ("DPE_LIBSCN", -81); ("DPE_LIBMAX", -82); ("DPE_LIBEXEC", -83);
   ("DPE_ILSEQ", -84); ("DPE_RESTART", -85); ("DPE_STRPIPE", -86);
   ("DPE_USERS", -87); ("DPE_NOTSOCK", -88); ("DPE_DESTADDRREQ", -89);
   ("DPE_MSGSIZE", -90); ("DPE_PROTOTYPE", -91); ("DPE_NOPROTOOPT", -92);
   ("DPE_PROTONOSUPPORT", -93); ("DPE_SOCKTNOSUPPORT", -94); ("DPE_PFNOSUPPORT", -96);
   ("DPE_AFNOSUPPORT", -97); ("DPE_ADDRINUSE", -98); ("DPE_ADDRNOTAVAIL", -99);
   ("DPE_NETDOWN", -100); ("DPE_NETUNREACH", -101); ("DPE_NETRESET", -102);
   ("DPE_CONNABORTED", -103); ("DPE_CONNRESET", -104); ("DPE_NOBUFS", -105);
   ("DPE_ISCONN", -106); ("DPE_NOTCONN", -107); ("DPE_TOOMANYREFS", -109);
   ("DPE_TIMEDOUT", -110); ("DPE_CONNREFUSED", -111); ("DPE_HOSTDOWN", -112);
   ("DPE_HOSTUNREACH", -113); ("DPE_ALREADY", -114); ("DPE_INPROGRESS", -115);
   ("DPE_STALE", -116); ("DPE_UCLEAN", -117); ("DPE_NOTNAM", -118);
   ("DPE_NAVAIL", -119); ("DPE_ISNAM", -120); ("DPE_REMOTEIO", -121);
   ("DPE_DQUOT", -122); ("DPE_NOMEDIUM", -123); ("DPE_MEDIUMTYPE", -124);
   ("DPE_CANCELED", -125); ("DPE_NOKEY", -126); ("DPE_KEYEXPIRED", -127);
   ("DPE_KEYREVOKED", -128); ("DPE_KEYREJECTED", -129); ("DPE_OWNERDEAD", -130);
   ("DPE_NOTRECOVERABLE", -131); ("DPE_RFKILL", -132); ("DPE_HWPOISON", -133);
   ("DPE_PARSE", -71); ("DPE_WAIT", -11)].

(** Codes of dpapp itself. *)
Definition dpe_app_codes : list (string * Z) :=
  [("DPE_UNKNOWN", -150); ("DPE_REPEAT", -151); ("DPE_UNINIT", -152);
   ("DPE_OPEN", -153); ("DPE_CLOSED", -154); ("DPE_SETATTR", -155);
   ("DPE_EOF", -156); ("DPE_NOTEXISTS", -157); ("DPE_INITED", -158);
   ("DPE_BEINITED", -159); ("DPE_PARAMTYPE", -160); ("DPE_PARAMMISS", -166);
   ("DPE_PREPARE", -167); ("DPE_NOTAUTH", -168); ("DPE_NOTOPEN", -169);
   ("DPE_INVCMD", -170); ("DPE_AUTHED", -171); ("DPE_DATATYPE", -172);
   ("DPE_NOEVENT", -173); ("DPE_AUTHERR", -174); ("DPE_UNSUPPORT", -175);
   ("DPE_NOSOURCE", -176); ("DPE_DELETED", -177); ("DPE_NOTENOUGH", -178);
   ("DPE_PARTIALOK", -179); ("DPE_IGNORE", -180)].

(** HTTP status codes, negated; the 1xx class is moved to 19x. *)
Definition dpe_http_codes : list (string * Z) :=
  [("DPE_CONTINUE", -190); ("DPE_SWITCHING_PROTOCOLS", -191); ("DPE_PROCESSING", -192);
   ("DPE_EARLY_HINTS", -193); ("DPE_RESOK", -200); ("DPE_CREATED", -201);
   ("DPE_ACCEPTED", -202); ("DPE_NON_AUTHORITATIVE", -203); ("DPE_NO_CONTENT", -204);
   ("DPE_RESET_CONTENT", -205); ("DPE_PARTIAL_CONTENT", -206); ("DPE_MULTI_STATUS", -207);
   ("DPE_ALREADY_REPORTED", -208); ("DPE_IM_USED", -226); ("DPE_MULTIPLE_CHOICES", -300);
   ("DPE_MOVED_PERMANENTLY", -301); ("DPE_FOUND", -302); ("DPE_SEE_OTHER", -303);
   ("DPE_NOT_MODIFIED", -304); ("DPE_USE_PROXY", -305); ("DPE_TEMPORARY_REDIRECT", -307);
   ("DPE_PERMANENT_REDIRECT", -308); ("DPE_BAD_REQUEST", -400); ("DPE_UNAUTHORIZED", -401);
   ("DPE_PAYMENT_REQUIRED", -402); ("DPE_FORBIDDEN", -403); ("DPE_NOT_FOUND", -404);
   ("DPE_METHOD_NOT_ALLOWED", -405); ("DPE_NOT_ACCEPTABLE", -406); ("DPE_PROXY_AUTH_REQUIRED", -407);
   ("DPE_REQUEST_TIMEOUT", -408); ("DPE_CONFLICT", -409); ("DPE_GONE", -410);
   ("DPE_LENGTH_REQUIRED", -411); ("DPE_PRECONDITION_FAILED", -412); ("DPE_POST_TOO_LARGE", -413);
   ("DPE_URI_TOO_LONG", -414); ("DPE_UNSUPPORTED_MEDIA", -415); ("DPE_RANGE_INVALID", -416);
   ("DPE_EXPECTATION_FAILED", -417); ("DPE_TEAPOT", -418); ("DPE_UNPROCESSABLE", -422);
   ("DPE_TOO_EARLY", -425); ("DPE_UPGRADE_REQUIRED", -426); ("DPE_PRECONDITION_REQ", -428);
   ("DPE_TOO_MANY_REQUESTS", -429); ("DPE_HEADER_TOO_LARGE", -431); ("DPE_LEGAL_UNAVAILABLE", -451);
   ("DPE_INTERNAL_ERROR", -500); ("DPE_NOT_IMPLEMENTED", -501); ("DPE_BAD_GATEWAY", -502);
   ("DPE_SERVICE_UNAVAILABLE", -503); ("DPE_GATEWAY_TIMEOUT", -504); ("DPE_HTTP_NOT_SUPPORTED", -505);
   ("DPE_VARIANT_NEGOTIATES", -506); ("DPE_INSUFFICIENT_STORAGE", -507); ("DPE_LOOP_DETECTED", -508);
   ("DPE_NOT_EXTENDED", -510); ("DPE_NETWORK_AUTH_REQ", -511)].

(** The constants the components use by name. *)
Definition DPE_OK : Z := 0.
Definition DPE_PERM : Z := -1.
Definition DPE_NOENT : Z := -2.
Definition DPE_AGAIN : Z := -11.
Definition DPE_NOMEM : Z := -12.
Definition DPE_BUSY : Z := -16.
Definition DPE_EXIST : Z := -17.
Definition DPE_INVAL : Z := -22.
Definition DPE_NODATA : Z := -61.
Definition DPE_TIME : Z := -62.
Definition DPE_BADFD : Z := -77.
Definition DPE_CONNRESET : Z := -104.
Definition DPE_INPROGRESS : Z := -115.
Definition DPE_WAIT : Z := -11.
Definition DPE_REPEAT : Z := -151.
Definition DPE_UNINIT : Z := -152.
Definition DPE_EOF : Z := -156.
Definition DPE_BEINITED : Z := -159.
Definition DPE_UNSUPPORT : Z := -175.
Definition DPE_CONTINUE : Z := -190.
Definition DPE_INTERNAL_ERROR : Z := -500.

Definition dpret_isok (err : Z) : bool := 0 <=? err.
Definition dpret_iserr (err : Z) : bool := err <? 0.
Definition dpret_isok_eof (err : Z) : bool := (0 <=? err) || (err =? DPE_EOF).

(** ** Messages *)

(** The initialised entries of the 600-slot table [_errmsgs]. *)
Definition _errmsgs : list (Z * string) :=
  [(150, "Unknown Error");
   (151, "Repeat Operation");
   (152, "Not initialized");
   (153, "Open Failed");
   (154, "File or source closed");
   (155, "Set Attribute Failed");
   (156, "End of data or file");
   (157, "Not exists");
   (158, "Has been initialized");
   (159, "Initialization due to Invalid parameter");
   (160, "The parameter type mismatch");
   (166, "Missing parameter");
   (167, "Prepareing or bind parameter error");
   (168, "Need authentication");
   (169, "Not open source");
   (170, "Invalid command");
   (171, "Already authenticated");
   (172, "Invalid data type");
   (173, "Listen no events");
   (174, "Authentication error");
   (175, "Not support");
   (176, "No source");
   (177, "Object or source deleted");
   (178, "Not enough data or buffer space");
   (179, "Partially OK");
   (180, "Ignore the operation");
   (190, "Continue");
   (191, "Switching Protocols");
   (192, "Processing");
   (193, "Early Hints");
   (200, "OK");
   (201, "Created");
   (202, "Accepted");
   (203, "Non-Authoritative Information");
   (204, "No Content");
   (205, "Reset Content");
   (206, "Partial Content");
   (207, "Multi-Status");
   (208, "Already Reported");
   (226, "IM Used");
   (300, "Multiple Choices");
   (301, "Moved Permanently");
   (302, "Found");
   (303, "See Other");
   (304, "Not Modified");
   (305, "Use Proxy");
   (307, "Temporary Redirect");
   (308, "Permanent Redirect");
   (400, "Bad Request");
   (401, "Unauthorized");
   (402, "Payment Required");
   (403, "Forbidden");
   (404, "Not Found");
   (405, "Method Not Allowed");
   (406, "Not Acceptable");
   (407, "Proxy Authentication Required");
   (408, "Request Timeout");
   (409, "Conflict");
   (410, "Gone");
   (411, "Length Required");
   (412, "Precondition Failed");
   (413, "Payload Too Large");
   (414, "URI Too Long");
   (415, "Unsupported Media Type");
   (416, "Range Not Satisfiable");
   (417, "Expectation Failed");
   (418, "I'm a teapot");
   (422, "Unprocessable Entity");
   (425, "Too Early");
   (426, "Upgrade Required");
   (428, "Precondition Required");
   (429, "Too Many Requests");
   (431, "Request Header Fields Too Large");
   (451, "Unavailable For Legal Reasons");
   (500, "Internal Server Error");
   (501, "Not Implemented");
   (502, "Bad Gateway");
   (503, "Service Unavailable");
   (504, "Gateway Timeout");
   (505, "HTTP Version Not Supported");
   (506, "Variant Also Negotiates");
   (507, "Insufficient Storage");
   (508, "Loop Detected");
   (510, "Not Extended");
   (511, "Network Authentication Required")].

Fixpoint errmsg_at (tab : list (Z * string)) (i : Z) : option string :=
  match tab with
  | [] => None
  | (k, m) :: tab => if k =? i then Some m else errmsg_at tab i
  end.

Section Messages.
(** libc's message for an errno value. *)
Context (strerror : Z -> string).

(** [NULL] is [None]; slot 150 is the fallback text. *)
Definition dperr_detail (err : Z) : option string :=
  let msg :=
    if ((-150 <? err) && (err <=? 0)) || (0 <? err) then Some (strerror (Z.abs err))
    else if (-600 <? err) && (err <=? -150) then errmsg_at _errmsgs (Z.abs err)
    else None in
  match msg with
  | Some m => Some m
  | None => errmsg_at _errmsgs 150
  end.

Definition dperr_http_detail (http_status : Z) : option string :=
  let http_status := Z.abs http_status in
  let http_status :=
    if (100 <=? http_status) && (http_status <? 110) then http_status + 90 else http_status in
  dperr_detail (- http_status).

(** ** Properties *)

Definition documented_range (c : string * Z) (lo hi : Z) : bool := (lo <? c.2) && (c.2 <=? hi).

Definition has_own_message (c : string * Z) : bool :=
  match errmsg_at _errmsgs (- c.2) with
  | Some m => (c.2 =? -150) || negb (bool_decide (m = "Unknown Error"%string))
  | None => false
  end.

Lemma dperr_detail_listed (c : Z) (m : string) :
  -600 < c <= -150 -> errmsg_at _errmsgs (- c) = Some m -> dperr_detail c = Some m.
Proof.
  intros Hr Hm. unfold dperr_detail.
  destruct (Z.ltb_spec (-150) c); [lia|]. destruct (Z.ltb_spec 0 c); [lia|].
  destruct (Z.ltb_spec (-600) c); [|lia]. destruct (Z.leb_spec c (-150)); [|lia].
  rewrite Z.abs_neq by lia. cbn [andb orb]. by rewrite Hm.
Qed.

Lemma dpe_ranges_ok :
  forallb (fun c => documented_range c (-150) 0) dpe_errno_codes = true /\
  forallb (fun c => documented_range c (-190) (-150)) dpe_app_codes = true /\
  forallb (fun c => documented_range c (-600) (-190)) dpe_http_codes = true /\
  forallb has_own_message (dpe_app_codes ++ dpe_http_codes) = true.
Proof. vm_compute. auto. Qed.

(** Every code of dpapp and every HTTP code the header declares has a message
    of its own: [dperr_detail] answers it, and not the fallback text (which is
    the message of [DPE_UNKNOWN] alone). *)
Theorem dperr_detail_covers (name : string) (c : Z) :
  (name, c) ∈ dpe_app_codes ++ dpe_http_codes ->
  exists m, errmsg_at _errmsgs (- c) = Some m /\ dperr_detail c = Some m /\
    (c <> -150 -> m <> "Unknown Error"%string).
Proof.
  intros Hin. destruct dpe_ranges_ok as (_ & Ha & Hh & Hm).
  rewrite forallb_forall in Ha, Hh, Hm. apply list_elem_of_In in Hin.
  assert (-600 < c <= -150) as Hr.
  { rewrite in_app_iff in Hin. destruct Hin as [H|H];
      [apply Ha in H | apply Hh in H]; unfold documented_range in H; simpl in H; lia. }
  specialize (Hm _ Hin). unfold has_own_message in Hm. cbn [snd] in Hm.
  destruct (errmsg_at _errmsgs (- c)) as [m|] eqn:Em; [|done].
  exists m. split_and!; [done | by apply dperr_detail_listed |].
  intros Hc ->. destruct (Z.eqb_spec c (-150)); [done|]. by rewrite bool_decide_true in Hm.
Qed.

(** Outside the errno range and without a table entry the answer is the
    fallback text: [dperr_detail] never answers [NULL]. *)
Theorem dperr_detail_total (c : Z) :
  dperr_detail c =
    if (-150 <? c) then Some (strerror (Z.abs c))
    else match errmsg_at _errmsgs (- c) with
         | Some m => if -600 <? c then Some m else Some "Unknown Error"%string
         | None => Some "Unknown Error"%string
         end.
Proof.
  unfold dperr_detail. destruct (Z.ltb_spec (-150) c).
  - destruct (Z.leb_spec c 0); [done|]. destruct (Z.ltb_spec 0 c); [done|lia].
  - destruct (Z.ltb_spec 0 c); [lia|]. destruct (Z.leb_spec c (-150)); [|lia].
    cbn [andb orb]. rewrite Z.abs_neq by lia.
    destruct (Z.ltb_spec (-600) c); cbn [andb].
    + by destruct (errmsg_at _errmsgs (- c)).
    + by destruct (errmsg_at _errmsgs (- c)).
Qed.
End Messages.

Lemma dperr_detail_covers_witness :
  ("DPE_EOF"%string, -156) ∈ dpe_app_codes ++ dpe_http_codes /\
  exists m, dperr_detail (fun _ => "errno"%string) (-156) = Some m.
Proof.
  assert (("DPE_EOF"%string, -156) ∈ dpe_app_codes ++ dpe_http_codes) as H.
  { apply (bool_decide_unpack _). vm_compute. exact I. }
  split; [exact H|].
  destruct (dperr_detail_covers (fun _ => "errno"%string) _ _ H) as (m & _ & Hm & _).
  exists m. exact Hm.
Defined.
