(* ===== verification/Dpbuf.v ===== *)
(** * Growable byte buffers: data model and operations ([lib/dpapp/dpbuf.c])

    A [dpbuf] is four cursors over a reference-counted [dpbuf_data], which
    owns (or borrows) one block of bytes.  The store keeps the structs, the
    data headers and the blocks apart, so that views sharing a header, a
    borrowed payload and freed memory are all visible.  An access outside a
    block, through [NULL] or through a freed object is undefined behaviour
    ([None] of the monad [ST]).  The properties are in [DpbufFacts]. *)

From S2P Require Import Prelude Dpret.

Definition DPBUF_MAX_SIZE : Z := 0x4fffffff.
Definition DPBUF_S_SIZE : Z := 1024.

Definition DPBUF_CONSTDATA : Z := Z.shiftl 1 1.
Definition DPBUF_NORECYCLE : Z := Z.shiftl 1 2.
Definition DPBUF_FLAGMASK : Z := 0xF.
Definition DPBUF_INIT_R : Z := Z.shiftl 1 8.
Definition DPBUF_INIT_W : Z := Z.shiftl 1 9.
Definition DPBUF_DUP_DATA : Z := Z.shiftl 1 10.
Definition DPBUF_INIT_CR : Z := Z.lor DPBUF_INIT_R DPBUF_CONSTDATA.
Definition DPBUF_INIT_CW : Z := Z.lor DPBUF_INIT_W DPBUF_CONSTDATA.

Definition _iclamp (v l h : Z) : Z :=
  let t := if v <? l then l else v in
  if t <? h then t else h.

Definition _imin (a b : Z) : Z := if a <? b then a else b.

(** ** Data *)

Record dpbuf_data := BufData {
  d_data : ptr;
  d_maxs : Z;
  d_flag : Z;
  d_refc : Z;
}.

Record dpbuf := Buf {
  b_utype : Z; (* 8 bits *)
  b_uflag : Z; (* 24 bits *)
  b_flag : Z;
  b_rbeg : Z;
  b_rend : Z;
  b_wbeg : Z;
  b_size : Z;
  b_data : option loc;
}.

Definition zero_buf : dpbuf := Buf 0 0 0 0 0 0 0 None.

(** The cursors of [b] replaced. *)
Definition with_cur (b : dpbuf) (rbeg rend wbeg size : Z) : dpbuf :=
  Buf (b_utype b) (b_uflag b) (b_flag b) rbeg rend wbeg size (b_data b).
Definition with_rbeg (b : dpbuf) (v : Z) : dpbuf := with_cur b v (b_rend b) (b_wbeg b) (b_size b).
Definition with_rend (b : dpbuf) (v : Z) : dpbuf := with_cur b (b_rbeg b) v (b_wbeg b) (b_size b).
Definition with_wbeg (b : dpbuf) (v : Z) : dpbuf := with_cur b (b_rbeg b) (b_rend b) v (b_size b).
Definition with_size (b : dpbuf) (v : Z) : dpbuf := with_cur b (b_rbeg b) (b_rend b) (b_wbeg b) v.
Definition with_flag (b : dpbuf) (v : Z) : dpbuf :=
  Buf (b_utype b) (b_uflag b) v (b_rbeg b) (b_rend b) (b_wbeg b) (b_size b) (b_data b).
Definition with_usr (b : dpbuf) (ut uf : Z) : dpbuf :=
  Buf ut uf (b_flag b) (b_rbeg b) (b_rend b) (b_wbeg b) (b_size b) (b_data b).
Definition with_data (b : dpbuf) (d : option loc) : dpbuf :=
  Buf (b_utype b) (b_uflag b) (b_flag b) (b_rbeg b) (b_rend b) (b_wbeg b) (b_size b) d.

(** The memory the buffers live in.  [st_oom] lists the answers of the next
    allocations (all succeed once it is empty); [st_fresh] is what fresh bytes
    hold. *)
Record bstore := BStore {
  st_bufs : gmap loc dpbuf;
  st_datas : gmap loc dpbuf_data;
  st_blks : gmap loc (list Z);
  st_next : loc;
  st_oom : list bool;
  st_fresh : nat -> Z;
}.

Definition set_bufs (f : gmap loc dpbuf -> gmap loc dpbuf) (s : bstore) : bstore :=
  BStore (f (st_bufs s)) (st_datas s) (st_blks s) (st_next s) (st_oom s) (st_fresh s).
Definition set_datas (f : gmap loc dpbuf_data -> gmap loc dpbuf_data) (s : bstore) : bstore :=
  BStore (st_bufs s) (f (st_datas s)) (st_blks s) (st_next s) (st_oom s) (st_fresh s).
Definition set_blks (f : gmap loc (list Z) -> gmap loc (list Z)) (s : bstore) : bstore :=
  BStore (st_bufs s) (st_datas s) (f (st_blks s)) (st_next s) (st_oom s) (st_fresh s).

(** ** Memory primitives *)

Definition get_buf (p : loc) : ST bstore dpbuf :=
  fun s => match st_bufs s !! p with Some b => Some (b, s) | None => None end.
Definition put_buf (p : loc) (b : dpbuf) : ST bstore unit :=
  fun s => match st_bufs s !! p with
           | Some _ => Some (tt, set_bufs <[p := b]> s)
           | None => None
           end.
Definition get_data (p : option loc) : ST bstore dpbuf_data :=
  fun s => match p ≫= fun p => st_datas s !! p with Some d => Some (d, s) | None => None end.
Definition put_data (p : option loc) (d : dpbuf_data) : ST bstore unit :=
  fun s => match p with
           | Some p => match st_datas s !! p with
                       | Some _ => Some (tt, set_datas <[p := d]> s)
                       | None => None
                       end
           | None => None
           end.

Definition in_block (p : ptr) (n : Z) (l : list Z) : bool :=
  (0 <=? p_off p) && (0 <=? n) && (p_off p + n <=? zlen l).

Definition load_bytes (p : ptr) (n : Z) : ST bstore (list Z) :=
  fun s => match st_blks s !! p_blk p with
           | Some l => if in_block p n l then Some (slice (p_off p) n l, s) else None
           | None => None
           end.
Definition store_bytes (p : ptr) (bs : list Z) : ST bstore unit :=
  fun s => match st_blks s !! p_blk p with
           | Some l => if in_block p (zlen bs) l
                       then Some (tt, set_blks <[p_blk p := splice (p_off p) bs l]> s)
                       else None
           | None => None
           end.

Definition memmove (dst src : ptr) (n : Z) : ST bstore unit :=
  bs ← load_bytes src n; store_bytes dst bs.
(** [memcpy] of overlapping ranges is undefined. *)
Definition memcpy (dst src : ptr) (n : Z) : ST bstore unit :=
  if bool_decide (p_blk dst = p_blk src) && (Z.abs (p_off dst - p_off src) <? n)
  then ub else memmove dst src n.
Definition memset (dst : ptr) (v n : Z) : ST bstore unit :=
  if n <? 0 then ub else store_bytes dst (replicate (Z.to_nat n) (to_u8 v)).

(** The next allocator answer for a request of [n] bytes ([n] taken as a
    [size_t]): requests beyond [PTRDIFF_MAX] always fail. *)
Definition malloc_ok (n : Z) : ST bstore bool :=
  fun s => if PTRDIFF_MAX <? to_u64 n then Some (false, s) else
    match st_oom s with
    | [] => Some (true, s)
    | ok :: oom => Some (ok, BStore (st_bufs s) (st_datas s) (st_blks s) (st_next s) oom (st_fresh s))
    end.
Definition fresh_loc : ST bstore loc :=
  fun s => Some (st_next s, BStore (st_bufs s) (st_datas s) (st_blks s) (Pos.succ (st_next s))
                                   (st_oom s) (st_fresh s)).
Definition fresh_bytes (s : bstore) (from n : Z) : list Z :=
  map (st_fresh s) (seq (Z.to_nat from) (Z.to_nat n)).

(** [malloc] of a byte block, of a [dpbuf_data] and of a [dpbuf]. *)
Definition malloc_blk (n : Z) : ST bstore (option ptr) :=
  ok ← malloc_ok n;
  if ok : bool then
    p ← fresh_loc;
    modify (fun s => set_blks <[p := fresh_bytes s 0 (to_u64 n)]> s);;
    mret (Some (Ptr p 0))
  else mret None.
Definition malloc_data : ST bstore (option loc) :=
  ok ← malloc_ok 24;
  if ok : bool then
    p ← fresh_loc;
    modify (set_datas <[p := BufData (Ptr 1 0) 0 0 0]>);;
    mret (Some p)
  else mret None.
Definition malloc_buf : ST bstore (option loc) :=
  ok ← malloc_ok 32;
  if ok : bool then
    p ← fresh_loc;
    modify (set_bufs <[p := zero_buf]>);;
    mret (Some p)
  else mret None.
Definition free_blk (p : ptr) : ST bstore unit :=
  fun s => match st_blks s !! p_blk p with
           | Some _ => if p_off p =? 0 then Some (tt, set_blks (delete (p_blk p)) s) else None
           | None => None
           end.
Definition free_data (p : loc) : ST bstore unit :=
  fun s => match st_datas s !! p with
           | Some _ => Some (tt, set_datas (delete p) s)
           | None => None
           end.
Definition free_buf (p : loc) : ST bstore unit :=
  fun s => match st_bufs s !! p with
           | Some _ => Some (tt, set_bufs (delete p) s)
           | None => None
           end.
(** [realloc]: the block moves; its bytes are kept up to the new size. *)
Definition realloc_blk (p : ptr) (n : Z) : ST bstore (option ptr) :=
  ok ← malloc_ok n;
  if ok : bool then
    old ← (fun s => match st_blks s !! p_blk p with
                    | Some l => if p_off p =? 0 then Some (l, s) else None
                    | None => None
                    end);
    q ← fresh_loc;
    modify (fun s => set_blks (fun m =>
      <[q := ztake (to_u64 n) (old ++ fresh_bytes s (zlen old) (to_u64 n - zlen old))]>
        (delete (p_blk p) m)) s);;
    mret (Some (Ptr q 0))
  else mret None.

(** Length of the C string at the start of the bytes [l] readable from a
    pointer; running off the end is undefined. *)
Definition c_strlen (l : list Z) : option Z := index_of (fun c => c =? 0) l.
Definition strnlen (l : list Z) : Z := default (zlen l) (c_strlen l).

Definition is_prefix (pat l : list Z) : bool := bool_decide (take (length pat) l = pat).

(** Offset of the first occurrence of [pat] in [hay]. *)
Fixpoint memmem (hay pat : list Z) : option Z :=
  if is_prefix pat hay then Some 0
  else match hay with
       | [] => None
       | _ :: hay => Z.succ <$> memmem hay pat
       end.

(** Sign of the first difference. *)
Fixpoint memcmp (l k : list Z) : Z :=
  match l, k with
  | x :: l, y :: k => if x <? y then -1 else if y <? x then 1 else memcmp l k
  | _, _ => 0
  end.

(** ** The shared data header *)

Definition _dpbuf_data_new (size : Z) : ST bstore (option loc) :=
  if (size <? 0) || (INT_MAX <=? size) then mret None else
  self ← malloc_data;
  match self with
  | None => mret None
  | Some self =>
      data ← malloc_blk (size + 1);
      match data with
      | None => free_data self;; mret None
      | Some data =>
          store_bytes data [0];;
          store_bytes (ptr_add data size) [0];;
          put_data (Some self) (BufData data size 0 1);;
          mret (Some self)
      end
  end.

(** [strlen] of the C string at [p]. *)
Definition strlen_at (p : ptr) : ST bstore Z :=
  fun s => match st_blks s !! p_blk p with
           | Some l => if in_block p 0 l
                       then (fun n => (n, s)) <$> c_strlen (zdrop (p_off p) l) else None
           | None => None
           end.

Definition _dpbuf_data_new_d (data : option ptr) (size mode : Z) : ST bstore (option loc) :=
  match data with
  | None => mret None
  | Some data =>
      self ← malloc_data;
      match self with
      | None => mret None
      | Some self =>
          size ← (if size <? 0 then strlen_at data else mret size);
          if has_flag mode DPBUF_DUP_DATA then
            n ← lift_opt (int_val (size + 1));
            dup ← malloc_blk n;
            match dup with
            | None => free_data self;; mret None
            | Some dup =>
                memcpy dup data size;;
                store_bytes (ptr_add dup size) [0];;
                put_data (Some self) (BufData dup size 0 1);;
                mret (Some self)
            end
          else
            put_data (Some self) (BufData data size (Z.land mode DPBUF_FLAGMASK) 1);;
            mret (Some self)
      end
  end.

Definition _dpbuf_data_del (self : option loc) : ST bstore unit :=
  d ← get_data self;
  put_data self (BufData (d_data d) (d_maxs d) (d_flag d) (d_refc d - 1));;
  if d_refc d =? 1 then
    (if negb (has_flag (d_flag d) DPBUF_CONSTDATA) then free_blk (d_data d) else mret tt);;
    match self with Some p => free_data p | None => ub end
  else mret tt.

Definition _dpbuf_data_ref (self : option loc) : ST bstore unit :=
  d ← get_data self;
  put_data self (BufData (d_data d) (d_maxs d) (d_flag d) (d_refc d + 1)).

(** The bits below the top one are smeared over 15 places only, so the result
    is a power of two for values up to [2^16].  When the smeared bits are all the
    bits of an [int] the last increment overflows. *)
Definition _pow_min_value (value : Z) : option Z :=
  if value =? 0 then Some 1 else
  value ← int_val (value - 1);
  let value := Z.lor value (Z.shiftr value 1) in
  let value := Z.lor value (Z.shiftr value 2) in
  let value := Z.lor value (Z.shiftr value 4) in
  let value := Z.lor value (Z.shiftr value 8) in
  int_val (value + 1).

Definition _dpbuf_data_resize (self : option loc) (size : Z) : ST bstore bool :=
  d ← get_data self;
  if size <? d_maxs d then
    store_bytes (ptr_add (d_data d) size) [0];; mret true
  else if has_flag (d_flag d) DPBUF_CONSTDATA then mret false
  else if (size <? 0) || (INT_MAX <=? size) then mret false
  else
    newsz ← lift_opt (_pow_min_value (size + 1));
    if DPBUF_MAX_SIZE <? newsz then mret false else
    tmp ← realloc_blk (d_data d) newsz;
    match tmp with
    | None => mret false
    | Some tmp =>
        put_data self (BufData tmp newsz (d_flag d) (d_refc d));;
        store_bytes (ptr_add tmp size) [0];;
        mret true
    end.

(** ** Initialisation in place

    [self] is the address of the caller's struct. *)

Definition dpbuf_init (self : option loc) (size : Z) : ST bstore bool :=
  match self with
  | None => mret false
  | Some self =>
      if size <? 0 then mret false else
      put_buf self zero_buf;;
      data ← _dpbuf_data_new size;
      put_buf self (with_data zero_buf data);;
      match data with
      | None => mret false
      | Some _ => put_buf self (with_size (with_data zero_buf data) size);; mret true
      end
  end.

Definition dpbuf_init_d (self : option loc) (data : option ptr) (size mode : Z) : ST bstore bool :=
  match self with
  | None => mret false
  | Some self =>
      put_buf self zero_buf;;
      dat ← _dpbuf_data_new_d data size mode;
      put_buf self (with_data zero_buf dat);;
      match dat with
      | None => mret false
      | Some _ =>
          d ← get_data dat;
          let n := d_maxs d in
          let b := with_size (with_data zero_buf dat) n in
          let b := if has_flag mode DPBUF_INIT_R then with_wbeg (with_rend b n) n else b in
          put_buf self b;; mret true
      end
  end.

(** The [printf] family: [fmt] is [None] for a [NULL] format and otherwise the
    text the format expands to, [None] when [vsnprintf] reports an error. *)
Definition dpbuf_init_v (self : option loc) (fmt : option (option (list Z))) : ST bstore bool :=
  match self, fmt with
  | Some p, Some text =>
      match text with
      | None => mret false
      | Some text =>
          let rsz := zlen text in
          ok ← dpbuf_init self rsz;
          if negb ok then mret false else
          b ← get_buf p;
          d ← get_data (b_data b);
          store_bytes (d_data d) (text ++ [0]);;
          put_buf p (with_wbeg (with_rend b (b_size b)) (b_size b));;
          mret true
      end
  | _, _ => mret false
  end.

Definition dpbuf_init_f (self : option loc) (fmt : option (option (list Z))) : ST bstore bool :=
  match self, fmt with
  | Some _, Some _ => dpbuf_init_v self fmt
  | _, _ => mret false
  end.

Definition dpbuf_cpusr (self dst : option loc) : ST bstore unit :=
  match self, dst with
  | Some self, Some dst =>
      b ← get_buf self;
      c ← get_buf dst;
      put_buf dst (with_usr c (b_utype b) (b_uflag b))
  | _, _ => mret tt
  end.

Definition dpbuf_init_r (self other : option loc) : ST bstore bool :=
  match self with
  | None => mret false
  | Some p =>
      match other with
      | None => dpbuf_init self 0
      | Some o =>
          b ← get_buf o;
          match b_data b with
          | None => dpbuf_init self 0
          | Some _ =>
              put_buf p b;;
              _dpbuf_data_ref (b_data b);;
              put_buf p (with_size (with_wbeg b (b_rend b)) (b_rend b));;
              dpbuf_cpusr other self;;
              mret true
          end
      end
  end.

(** ** Windows *)

Definition dpbuf_size (self : dpbuf) : Z := b_size self.
Definition dpbuf_crsize (self : dpbuf) : Z := b_rend self - b_rbeg self.
Definition dpbuf_cwsize (self : dpbuf) : Z := b_size self - b_wbeg self.
Definition dpbuf_cesize (self : dpbuf) : Z := b_wbeg self - b_rend self.
Definition dpbuf_cempty (self : dpbuf) : bool := dpbuf_crsize self =? 0.

Definition dpbuf_data_ (self : dpbuf) : ST bstore ptr :=
  d ← get_data (b_data self); mret (d_data d).
Definition dpbuf_crdata (self : dpbuf) : ST bstore ptr :=
  d ← get_data (b_data self); mret (ptr_add (d_data d) (b_rbeg self)).
Definition dpbuf_cwdata (self : dpbuf) : ST bstore ptr :=
  d ← get_data (b_data self); mret (ptr_add (d_data d) (b_wbeg self)).
Definition dpbuf_cedata (self : dpbuf) : ST bstore ptr :=
  d ← get_data (b_data self); mret (ptr_add (d_data d) (b_rend self)).

Definition dpbuf_refc (self : dpbuf) : ST bstore Z :=
  d ← get_data (b_data self); mret (d_refc d).

(** ** Tags and flags *)

Definition dpbuf_utype (self : dpbuf) : Z := b_utype self.
Definition dpbuf_set_utype (self : dpbuf) (utype : Z) : dpbuf :=
  with_usr self (Z.land utype 0xFF) (b_uflag self).
Definition dpbuf_uflag (self : dpbuf) (uflag : Z) : Z := Z.land (b_uflag self) uflag.
Definition dpbuf_rmv_uflag (self : dpbuf) (uflag : Z) : dpbuf :=
  with_usr self (b_utype self) (Z.land (Z.land (b_uflag self) (Z.lnot uflag)) 0xFFFFFF).
Definition dpbuf_add_uflag (self : dpbuf) (uflag : Z) : dpbuf :=
  with_usr self (b_utype self) (Z.land (Z.lor (b_uflag self) uflag) 0xFFFFFF).
Definition dpbuf_set_recycle (self : dpbuf) (b : bool) : dpbuf :=
  let f := b_flag self in
  with_flag self (to_u32 (if b then Z.land f (Z.lnot DPBUF_NORECYCLE) else Z.lor f DPBUF_NORECYCLE)).

Definition DUP_R : Z := Z.lor DPBUF_DUP_DATA DPBUF_INIT_R.

(** Both copy a window of [other] into a buffer of its own. *)
Definition dpbuf_from_r (self other : option loc) : ST bstore bool :=
  match self with
  | None => mret false
  | Some p =>
      match other with
      | None => dpbuf_init self 0
      | Some o =>
          b ← get_buf o;
          if dpbuf_crsize b =? 0 then dpbuf_init self 0 else
          src ← dpbuf_crdata b;
          ok ← dpbuf_init_d self (Some src) (dpbuf_crsize b) DUP_R;
          (if ok : bool then dpbuf_cpusr other self else mret tt);;
          mret ok
      end
  end.

Definition dpbuf_from_e (self other : option loc) : ST bstore bool :=
  match self with
  | None => mret false
  | Some p =>
      match other with
      | None => dpbuf_init self 0
      | Some o =>
          b ← get_buf o;
          if dpbuf_cesize b =? 0 then dpbuf_init self 0 else
          src ← dpbuf_cedata b;
          ok ← dpbuf_init_d self (Some src) (dpbuf_cesize b) DUP_R;
          (if ok : bool then dpbuf_cpusr other self else mret tt);;
          mret ok
      end
  end.

(** ** Allocation, views and destruction *)

(** The shared tail of the [dpbuf_new] family: a struct whose initialisation
    failed is freed again. *)
Definition keep_or_free (self : option loc) (ok : bool) : ST bstore (option loc) :=
  if ok then mret self else
  match self with
  | Some p => free_buf p;; mret None
  | None => mret None
  end.

Definition dpbuf_new (size : Z) : ST bstore (option loc) :=
  self ← malloc_buf;
  ok ← dpbuf_init self size;
  keep_or_free self ok.

Definition dpbuf_new_d (data : option ptr) (size mode : Z) : ST bstore (option loc) :=
  self ← malloc_buf;
  ok ← dpbuf_init_d self data size mode;
  keep_or_free self ok.

Definition dpbuf_new_v (fmt : option (option (list Z))) : ST bstore (option loc) :=
  match fmt with
  | None | Some None => mret None
  | Some (Some text) =>
      self ← dpbuf_new (zlen text);
      match self with
      | None => mret None
      | Some p =>
          b ← get_buf p;
          d ← get_data (b_data b);
          store_bytes (d_data d) (text ++ [0]);;
          put_buf p (with_wbeg (with_rend b (b_size b)) (b_size b));;
          mret self
      end
  end.

Definition dpbuf_new_f (fmt : option (option (list Z))) : ST bstore (option loc) := dpbuf_new_v fmt.

Definition dpbuf_new_r (self : option loc) : ST bstore (option loc) :=
  match self with
  | None => dpbuf_new 0
  | Some p =>
      b ← get_buf p;
      match b_data b with
      | None => dpbuf_new 0
      | Some _ =>
          view ← malloc_buf;
          match view with
          | None => mret None
          | Some v =>
              put_buf v b;;
              _dpbuf_data_ref (b_data b);;
              put_buf v (with_size (with_wbeg b (b_rend b)) (b_rend b));;
              dpbuf_cpusr self view;;
              mret view
          end
      end
  end.

Definition dpbuf_dup_r (self : option loc) : ST bstore (option loc) :=
  match self with
  | None => dpbuf_new 0
  | Some p =>
      b ← get_buf p;
      if dpbuf_crsize b =? 0 then dpbuf_new 0 else
      src ← dpbuf_crdata b;
      new_buf ← dpbuf_new_d (Some src) (dpbuf_crsize b) DUP_R;
      dpbuf_cpusr self new_buf;;
      mret new_buf
  end.

Definition dpbuf_dup_e (self : option loc) : ST bstore (option loc) :=
  match self with
  | None => dpbuf_new 0
  | Some p =>
      b ← get_buf p;
      if dpbuf_cesize b =? 0 then dpbuf_new 0 else
      src ← dpbuf_cedata b;
      new_buf ← dpbuf_new_d (Some src) (dpbuf_cesize b) DUP_R;
      dpbuf_cpusr self new_buf;;
      mret new_buf
  end.

Definition dpbuf_del (self : option loc) : ST bstore unit :=
  match self with
  | None => mret tt
  | Some p =>
      b ← get_buf p;
      _dpbuf_data_del (b_data b);;
      free_buf p
  end.

Definition dpbuf_fini (self : option loc) : ST bstore unit :=
  match self with
  | None => ub
  | Some p =>
      b ← get_buf p;
      (match b_data b with Some _ => _dpbuf_data_del (b_data b) | None => mret tt end);;
      put_buf p zero_buf
  end.

(** ** Capacity *)

(** A struct passed by value stands for a pointer that is not [NULL]. *)
Definition _dpbuf_resize (self : dpbuf) (size : Z) : ST bstore (bool * dpbuf) :=
  if size <=? 0 then mret (false, self) else
  r ← _dpbuf_data_resize (b_data self) size;
  mret (r, if r : bool then with_size self size else self).

Definition _dpbuf_recycle_data (self : dpbuf) : ST bstore dpbuf :=
  let rbeg := b_rbeg self in
  if rbeg =? b_wbeg self then
    let self := with_cur self 0 0 0 (b_size self - b_wbeg self) in
    d ← get_data (b_data self);
    store_bytes (ptr_add (d_data d) (b_size self)) [0];;
    mret self
  else if DPBUF_S_SIZE <? rbeg then
    d ← get_data (b_data self);
    if Z.quot (d_maxs d) rbeg <? 4 then
      memmove (d_data d) (ptr_add (d_data d) rbeg) (b_wbeg self - rbeg);;
      let self := with_cur self 0 (b_rend self - rbeg) (b_wbeg self - rbeg) (b_size self - rbeg) in
      store_bytes (ptr_add (d_data d) (b_size self)) [0];;
      mret self
    else mret self
  else mret self.

Definition dpbuf_resizew (self : dpbuf) (s : Z) : ST bstore (bool * dpbuf) :=
  if 0 <=? s then
    self ← (if negb (has_flag (b_flag self) DPBUF_NORECYCLE)
            then _dpbuf_recycle_data self else mret self);
    n ← lift_opt (int_val (b_wbeg self + s));
    _dpbuf_resize self n
  else mret (false, self).

Definition _dpbuf_wcheck (self : dpbuf) (len : Z) : ST bstore (bool * dpbuf) :=
  let l := b_size self in
  if l - b_wbeg self <? len then dpbuf_resizew self len else mret (true, self).

Definition dpbuf_recycle (self : option dpbuf) (force : bool) : ST bstore (option dpbuf) :=
  match self with
  | None => mret None
  | Some self =>
      if force || negb (has_flag (b_flag self) DPBUF_NORECYCLE) then
        self ← _dpbuf_recycle_data self;
        '(_, self) ← _dpbuf_resize self 0;
        mret (Some self)
      else mret (Some self)
  end.

Definition dpbuf_reset (self : dpbuf) (mode : Z) : dpbuf :=
  if has_flag mode DPBUF_INIT_R then with_cur self 0 (b_size self) (b_size self) (b_size self)
  else if has_flag mode DPBUF_INIT_W then with_cur self 0 0 0 (b_size self)
  else with_cur self 0 0 0 0.

(** ** Comparing and scanning the readable window *)

(** [strlen] of bytes the caller passes: reading past them is undefined. *)
Definition len_or_strlen (len : Z) (sub : list Z) : ST bstore Z :=
  if len <? 0 then lift_opt (c_strlen sub) else mret len.
(** The first [len] of the bytes the caller passes. *)
Definition first_bytes (len : Z) (sub : list Z) : ST bstore (list Z) :=
  if (0 <=? len) && (len <=? zlen sub) then mret (ztake len sub) else ub.

Definition dpbuf_cequalc (self : dpbuf) (sub : list Z) (len : Z) : ST bstore bool :=
  len ← len_or_strlen len sub;
  let s := dpbuf_crsize self in
  if (len =? 0) || (s <? len) then mret false else
  p ← dpbuf_crdata self;
  d ← load_bytes p len;
  sub ← first_bytes len sub;
  mret (memcmp d sub =? 0).

Definition dpbuf_ccmp (self other : option loc) : ST bstore Z :=
  if bool_decide (self = other) then mret 0 else
  match self, other with
  | None, _ => mret (-1)
  | _, None => mret 1
  | Some p, Some q =>
      b ← get_buf p;
      c ← get_buf q;
      let l1 := dpbuf_crsize b in
      let l2 := dpbuf_crsize c in
      if negb (l1 =? l2) then mret (l1 - l2)
      else if 0 <? l1 then
        x ← (r ← dpbuf_crdata b; load_bytes r l1);
        y ← (r ← dpbuf_crdata c; load_bytes r l1);
        mret (memcmp x y)
      else mret 0
  end.

(** Negative results: [-EINVAL], [-ENODATA], [-EPERM]. *)
Definition dpbuf_cfind (self : option dpbuf) (match_ : option (list Z)) (len left : Z)
  : ST bstore Z :=
  match match_, self with
  | Some match_, Some self =>
      len ← len_or_strlen len match_;
      let rsz := dpbuf_crsize self in
      if (len =? 0) || (rsz <? len) then mret DPE_NODATA else
      d ← dpbuf_crdata self;
      hay ← load_bytes (ptr_add d left) (rsz - left);
      pat ← first_bytes len match_;
      match memmem hay pat with
      | None => mret DPE_PERM
      | Some i => mret (left + i)
      end
  | _, _ => mret DPE_INVAL
  end.

Definition dpbuf_cstrlen (self : dpbuf) : ST bstore Z :=
  p ← dpbuf_crdata self;
  d ← load_bytes p (dpbuf_crsize self);
  mret (strnlen d).

Definition is_ws (c : Z) : bool := (c =? 32) || (c =? 13) || (c =? 10).

(** Index of the first byte that is not white space. *)
Definition skip_ws (d : list Z) : Z := default (zlen d) (index_of (fun c => negb (is_ws c)) d).

Definition dpbuf_cbegwith (self : dpbuf) (sub : option (list Z)) (len : Z) (skip_begws : bool)
  : ST bstore bool :=
  let s := dpbuf_crsize self in
  match sub with
  | None => mret false
  | Some sub =>
      if s =? 0 then mret false else
      len ← len_or_strlen len sub;
      if s <? len then mret false else
      d ← dpbuf_crdata self;
      n ← (if skip_begws then bs ← load_bytes d s; mret (skip_ws bs) else mret 0);
      if skip_begws && (s - n <? len) then mret false else
      x ← load_bytes (ptr_add d n) len;
      sub ← first_bytes len sub;
      mret (memcmp sub x =? 0)
  end.

(** ** Cursor seeks

    The result is the displacement and the new struct.  A sum that leaves [int]
    is undefined. *)

Definition SEEK_SET : Z := 0.
Definition SEEK_CUR : Z := 1.
Definition SEEK_END : Z := 2.

Definition dpbuf_rseek (self : dpbuf) (offset seek : Z) : ST bstore (Z * dpbuf) :=
  let i := b_rbeg self in
  self ←
    (if seek =? SEEK_SET then
      t ← lift_opt (int_val (0 + offset)); mret (with_rbeg self (_iclamp t 0 (b_rend self)))
     else if seek =? SEEK_CUR then
      t ← lift_opt (int_val (b_rbeg self + offset)); mret (with_rbeg self (_iclamp t 0 (b_rend self)))
     else if seek =? SEEK_END then
      t ← lift_opt (int_val (b_rend self + offset)); mret (with_rbeg self (_iclamp t 0 (b_rend self)))
     else mret self);
  mret (b_rbeg self - i, self).

Definition dpbuf_wseek (self : dpbuf) (offset seek : Z) : ST bstore (Z * dpbuf) :=
  let i := b_wbeg self in
  self ←
    (if seek =? SEEK_SET then
      t ← lift_opt (int_val (b_rend self + offset)); mret (with_wbeg self (_iclamp t (b_rend self) (b_size self)))
     else if seek =? SEEK_CUR then
      t ← lift_opt (int_val (b_wbeg self + offset)); mret (with_wbeg self (_iclamp t (b_rend self) (b_size self)))
     else if seek =? SEEK_END then
      t ← lift_opt (int_val (b_size self + offset)); mret (with_wbeg self (_iclamp t (b_rend self) (b_size self)))
     else mret self);
  mret (b_wbeg self - i, self).

Definition dpbuf_eseek (self : dpbuf) (offset seek : Z) : ST bstore (Z * dpbuf) :=
  let i := b_rend self in
  self ←
    (if seek =? SEEK_SET then
      t ← lift_opt (int_val (b_rbeg self + offset)); mret (with_rend self (_iclamp t (b_rbeg self) (b_wbeg self)))
     else if seek =? SEEK_CUR then
      t ← lift_opt (int_val (b_rend self + offset)); mret (with_rend self (_iclamp t (b_rbeg self) (b_wbeg self)))
     else if seek =? SEEK_END then
      t ← lift_opt (int_val (b_wbeg self + offset)); mret (with_rend self (_iclamp t (b_rbeg self) (b_wbeg self)))
     else mret self);
  mret (b_rend self - i, self).

(** ** Writing *)

(** Runs an operation on the struct at [p] and stores it back. *)
Definition on_buf {A} (p : loc) (f : dpbuf -> ST bstore (A * dpbuf)) : ST bstore A :=
  b ← get_buf p;
  '(a, b) ← f b;
  put_buf p b;;
  mret a.

(** [self] and [buf] are addresses: they may be the same struct, and their
    headers may be shared. *)
Definition dpbuf_wbuf (self buf : loc) (len : Z) : ST bstore Z :=
  b ← get_buf buf;
  let alen := dpbuf_crsize b in
  let len := if len <=? 0 then alen else _imin alen len in
  ok ← on_buf self (fun b => _dpbuf_wcheck b len);
  if negb ok then mret DPE_NOMEM else
  dst ← (b ← get_buf self; dpbuf_cwdata b);
  src ← (b ← get_buf buf; dpbuf_crdata b);
  memcpy dst src len;;
  b ← get_buf self;
  put_buf self (with_wbeg b (b_wbeg b + len));;
  mret len.

Definition dpbuf_wbuf_r (self buf : loc) (len : Z) : ST bstore Z :=
  b ← get_buf buf;
  let alen := dpbuf_crsize b in
  let len := if len <=? 0 then alen else _imin alen len in
  ok ← on_buf self (fun b => _dpbuf_wcheck b len);
  if negb ok then mret DPE_NOMEM else
  dst ← (b ← get_buf self; dpbuf_cwdata b);
  src ← (b ← get_buf buf; dpbuf_crdata b);
  memcpy dst src len;;
  b ← get_buf self;
  put_buf self (with_wbeg b (b_wbeg b + len));;
  b ← get_buf buf;
  put_buf buf (with_rbeg b (b_rbeg b + len));;
  mret len.

Definition dpbuf_wfill (self : dpbuf) (len v : Z) : ST bstore (Z * dpbuf) :=
  '(ok, self) ← _dpbuf_wcheck self len;
  if negb ok then mret (DPE_NOMEM, self) else
  dst ← dpbuf_cwdata self;
  memset dst v len;;
  mret (len, with_wbeg self (b_wbeg self + len)).

Definition dpbuf_wdata (self : dpbuf) (data : option ptr) (len : Z) : ST bstore (Z * dpbuf) :=
  match data with
  | None => mret (DPE_INVAL, self)
  | Some data =>
      if len =? 0 then mret (DPE_INVAL, self) else
      '(ok, self) ← _dpbuf_wcheck self len;
      if negb ok then mret (DPE_NOMEM, self) else
      dst ← dpbuf_cwdata self;
      memcpy dst data len;;
      mret (len, with_wbeg self (b_wbeg self + len))
  end.

Definition dpbuf_wstrv (self : option dpbuf) (fmt : option (option (list Z)))
  : ST bstore (Z * option dpbuf) :=
  match self, fmt with
  | Some b, Some text =>
      let rsz := match text with Some t => zlen t | None => -1 end in
      if rsz <=? 0 then mret (0, self) else
      n ← lift_opt (int_val (rsz + 1));
      '(ok, b) ← _dpbuf_wcheck b n;
      if negb ok then mret (DPE_NOMEM, Some b) else
      dst ← dpbuf_cwdata b;
      store_bytes dst (default [] text ++ [0]);;
      mret (rsz, Some (with_wbeg b (b_wbeg b + rsz)))
  | _, _ => mret (DPE_INVAL, self)
  end.

Definition dpbuf_wstrf (self : option dpbuf) (fmt : option (option (list Z)))
  : ST bstore (Z * option dpbuf) := dpbuf_wstrv self fmt.

(** ** Reading *)

Definition dpbuf_rws (self : dpbuf) : ST bstore (Z * dpbuf) :=
  let self := with_rbeg self (b_rend self) in
  p ← dpbuf_cedata self;
  d ← load_bytes p (dpbuf_cesize self);
  let n := skip_ws d in
  mret (n, with_rend self (b_rend self + n)).

Definition dpbuf_rdata (self : dpbuf) (len : Z) : Z * dpbuf :=
  let self := with_rbeg self (b_rend self) in
  let slen := dpbuf_cesize self in
  let len := if len <? 0 then slen else len in
  let len := _imin len slen in
  (len, with_rend self (b_rend self + len)).

Definition dpbuf_rmust (self : dpbuf) (len : Z) : Z * dpbuf :=
  let self := with_rbeg self (b_rend self) in
  let slen := dpbuf_cesize self in
  if (len <? 0) || (slen <? len) then (DPE_NODATA, with_rend self (b_rbeg self))
  else (len, with_rend self (b_rend self + len)).

Definition dpbuf_runtil (self : dpbuf) (until : option (list Z)) (until_sz : Z)
  : ST bstore (Z * dpbuf) :=
  let self := with_rbeg self (b_rend self) in
  let self := with_rend self (b_wbeg self) in
  idx ← dpbuf_cfind (Some self) until until_sz 0;
  if idx <? 0 then mret (DPE_NODATA, with_rend self (b_rbeg self)) else
  let len := idx + until_sz in
  mret (len, with_rend self (b_rbeg self + len)).

Definition dpbuf_rcstr (self : dpbuf) : ST bstore (Z * dpbuf) :=
  let self := with_rbeg self (b_rend self) in
  let el := b_wbeg self - b_rend self in
  p ← dpbuf_cedata self;
  ed ← load_bytes p el;
  let len := strnlen ed in
  let len := if (0 <? len) && (len <? el) then len + 1 else len in
  mret (len, with_rend self (b_rend self + len)).

Definition dpbuf_rall (self : dpbuf) : Z * dpbuf :=
  let self := with_rbeg self (b_rend self) in
  let self := with_rend self (b_wbeg self) in
  (b_rend self - b_rbeg self, self).

Definition dpbuf_readto (self det : loc) (size : Z) : ST bstore Z :=
  b ← get_buf self;
  let b := with_rbeg b (b_rend b) in
  put_buf self b;;
  let sz := dpbuf_cesize b in
  if sz =? 0 then mret DPE_NODATA else
  put_buf self (with_rend b (b_wbeg b));;
  wsz ← dpbuf_wbuf det self size;
  d ← get_buf det;
  put_buf det (with_rend d (b_wbeg d));;
  b ← get_buf self;
  let b := with_rend b (b_wbeg b - (sz - wsz)) in
  put_buf self (with_rbeg b (b_rend b));;
  mret wsz.
