(* ===== verification/DpbufFacts.v ===== *)
(** * Growable byte buffers: invariants and properties

    A buffer that owns its storage is described by [own]; its contents are the
    readable window [rd] and the slack window [sl].  Every operation is shown
    to be free of undefined behaviour, to keep [own], and to act on the two
    windows as a byte queue does. *)

From S2P Require Import Prelude Dpret Dpbuf.

Create HintDb dpbuf.

(** ** Reasoning about the memory primitives *)

Section Primitives.
Implicit Types (s : bstore).

Lemma wp_get_data s q d Q :
  st_datas s !! q = Some d -> Q d s -> wp (get_data (Some q)) s Q.
Proof. intros H. unfold wp, get_data. simpl. by rewrite H. Qed.

Lemma wp_put_data s q d d' Q :
  st_datas s !! q = Some d' -> Q tt (set_datas <[q := d]> s) -> wp (put_data (Some q) d) s Q.
Proof. intros H. unfold wp, put_data. simpl. by rewrite H. Qed.

Lemma wp_get_buf s (p : loc) b Q : st_bufs s !! p = Some b -> Q b s -> wp (get_buf p) s Q.
Proof. intros H. unfold wp, get_buf. by rewrite H. Qed.

Lemma wp_put_buf s (p : loc) b b' Q :
  st_bufs s !! p = Some b' -> Q tt (set_bufs <[p := b]> s) -> wp (put_buf p b) s Q.
Proof. intros H. unfold wp, put_buf. by rewrite H. Qed.

Lemma in_block_true (p : ptr) n (l : list Z) :
  0 <= p_off p -> 0 <= n -> p_off p + n <= zlen l -> in_block p n l = true.
Proof. intros. unfold in_block. lia. Qed.

Lemma wp_load_bytes s p n l Q :
  st_blks s !! p_blk p = Some l -> 0 <= p_off p -> 0 <= n -> p_off p + n <= zlen l ->
  Q (slice (p_off p) n l) s -> wp (load_bytes p n) s Q.
Proof. intros H ???. unfold wp, load_bytes. rewrite H, in_block_true by done. done. Qed.

Lemma wp_store_bytes s p bs l Q :
  st_blks s !! p_blk p = Some l -> 0 <= p_off p -> p_off p + zlen bs <= zlen l ->
  Q tt (set_blks <[p_blk p := splice (p_off p) bs l]> s) -> wp (store_bytes p bs) s Q.
Proof.
  intros H ??. unfold wp, store_bytes. pose proof (zlen_nonneg bs).
  rewrite H, in_block_true by done. done.
Qed.

(** The allocator answers one way or the other; memory is unchanged. *)
Lemma wp_malloc_ok s n Q :
  (forall ok oom, Q ok (BStore (st_bufs s) (st_datas s) (st_blks s) (st_next s) oom (st_fresh s))) ->
  wp (malloc_ok n) s Q.
Proof.
  intros H. unfold wp, malloc_ok. destruct s as [bufs datas blks next oom fresh]; simpl in *.
  destruct (_ <? _); [apply H|]. destruct oom; apply H.
Qed.

(** An allocator with no refusal left grants. *)
Lemma wp_malloc_granted s n Q :
  0 <= n <= PTRDIFF_MAX ->
  (forall ok oom, (st_oom s = [] -> ok = true /\ oom = []) ->
     Q ok (BStore (st_bufs s) (st_datas s) (st_blks s) (st_next s) oom (st_fresh s))) ->
  wp (malloc_ok n) s Q.
Proof.
  intros Hn H. unfold wp, malloc_ok. destruct s as [bufs datas blks next oom fresh]; simpl in *.
  unfold to_u64, PTRDIFF_MAX in *. rewrite Z.mod_small by lia.
  destruct (Z.ltb_spec 9223372036854775807 n); [lia|]. destruct oom; by apply H.
Qed.
End Primitives.

(** ** The invariant of a buffer that owns its storage *)

Definition rd (b : dpbuf) (bs : list Z) : list Z := slice (b_rbeg b) (dpbuf_crsize b) bs.
Definition sl (b : dpbuf) (bs : list Z) : list Z := slice (b_rend b) (dpbuf_cesize b) bs.

Definition cursors_ok (b : dpbuf) : Prop :=
  0 <= b_rbeg b <= b_rend b /\ b_rend b <= b_wbeg b <= b_size b.

(** A live header [q] that owns its block [bs]. *)
Record hdr (s : bstore) (q : loc) (d : dpbuf_data) (bs : list Z) : Prop := {
  hdr_get : st_datas s !! q = Some d;
  hdr_blk : st_blks s !! p_blk (d_data d) = Some bs;
  hdr_off : p_off (d_data d) = 0;
  hdr_flag : has_flag (d_flag d) DPBUF_CONSTDATA = false;
  hdr_maxs : 0 <= d_maxs d <= zlen bs;
  hdr_len : zlen bs <= d_maxs d + 1;
  hdr_max : zlen bs <= INT_MAX;
  hdr_fresh : forall l, is_Some (st_blks s !! l) -> (l < st_next s)%positive;
}.

(** A struct whose cursors are in order over a header that owns its block;
    one byte past the capacity belongs to the block. *)
Record own (s : bstore) (b : dpbuf) (q : loc) (d : dpbuf_data) (bs : list Z) : Prop := {
  own_data : b_data b = Some q;
  own_hdr : hdr s q d bs;
  own_cur : cursors_ok b;
  own_maxs : b_size b <= d_maxs d;
  own_room : b_size b < zlen bs;
}.

(** What an operation on the header [q] leaves alone: every struct, every
    other header and every block that existed and is not the header's. *)
Definition blk_of (s : bstore) (q : loc) : option loc := p_blk ∘ d_data <$> st_datas s !! q.
Record touches (q : loc) (s s' : bstore) : Prop := {
  tch_bufs : st_bufs s' = st_bufs s;
  tch_next : (st_next s <= st_next s')%positive;
  tch_datas : forall q', q' <> q -> st_datas s' !! q' = st_datas s !! q';
  tch_blks : forall l, (l < st_next s)%positive -> blk_of s q <> Some l ->
    st_blks s' !! l = st_blks s !! l;
  tch_blk : blk_of s' q = blk_of s q \/ exists l, blk_of s' q = Some l /\ (st_next s <= l)%positive;
  tch_refc : d_refc <$> st_datas s' !! q = d_refc <$> st_datas s !! q;
  tch_oom : st_oom s = [] -> st_oom s' = []; (* the allocator keeps granting *)
}.

Lemma touches_refl q s : touches q s s.
Proof. split; auto; lia. Qed.

Lemma touches_trans q s1 s2 s3 : touches q s1 s2 -> touches q s2 s3 -> touches q s1 s3.
Proof.
  intros [A1 A2 A3 A4 A5 A6 A7] [B1 B2 B3 B4 B5 B6 B7]. split.
  - congruence.
  - lia.
  - intros. rewrite B3, A3; auto.
  - intros l Hl Hne. rewrite B4; [auto | lia |].
    destruct A5 as [->|(k & -> & Hk)]; [done|]. intros [= ->]. lia.
  - destruct B5 as [->|(k & -> & Hk)]; [done|]. right. exists k. split; [done|lia].
  - congruence.
  - auto.
Qed.

#[export] Hint Resolve touches_refl touches_trans : dpbuf.

(** ** The header's operations *)

(** Below a gigabyte no sum of cursors and lengths leaves [int], and the new
    capacity holds the request; beyond it [_pow_min_value] can overflow. *)
Definition GROW_SAFE : Z := 2 ^ 30.

Lemma pow_min_value_bound (v : Z) :
  0 < v <= GROW_SAFE -> exists r, _pow_min_value v = Some r /\ v <= r <= GROW_SAFE.
Proof.
  unfold _pow_min_value, GROW_SAFE. intros Hv. destruct (Z.eqb_spec v 0); [lia|].
  rewrite int_val_id by (unfold is_i32, INT_MAX, INT_MIN; lia). cbn [mbind option_bind]. cbv zeta.
  pose proof (smear_bound (v - 1) 1 30) as H1. set (v1 := Z.lor (v - 1) _) in *.
  pose proof (smear_bound v1 2 30) as H2. set (v2 := Z.lor v1 _) in *.
  pose proof (smear_bound v2 4 30) as H3. set (v3 := Z.lor v2 _) in *.
  pose proof (smear_bound v3 8 30) as H4. set (v4 := Z.lor v3 _) in *.
  clearbody v1 v2 v3 v4. change (2 ^ 30) with 1073741824 in *.
  exists (v4 + 1). rewrite int_val_id by (unfold is_i32, INT_MAX, INT_MIN; lia). split; [done|lia].
Qed.

Definition with_oom (s : bstore) (oom : list bool) : bstore :=
  BStore (st_bufs s) (st_datas s) (st_blks s) (st_next s) oom (st_fresh s).

Lemma hdr_oom s q d bs oom : hdr s q d bs -> hdr (with_oom s oom) q d bs.
Proof. intros []. by split. Qed.

Lemma touches_oom q s oom : (st_oom s = [] -> oom = []) -> touches q s (with_oom s oom).
Proof. intros. split; auto; simpl; lia. Qed.

Lemma wp_hdr_store s q d bs i xs :
  hdr s q d bs -> 0 <= i -> i + zlen xs <= zlen bs ->
  wp (store_bytes (ptr_add (d_data d) i) xs) s
     (fun _ s' => hdr s' q d (splice i xs bs) /\ touches q s s').
Proof.
  intros [Hg Hb Ho Hf Hm Hl Hx Hfr] Hi Hlen. eapply wp_store_bytes; simpl; rewrite ?Ho; eauto; [lia..|].
  split.
  - split; simpl; rewrite ?zlen_splice by lia; auto.
    + by rewrite lookup_insert_eq.
    + intros l. rewrite lookup_insert. case_decide; subst; eauto.
  - split; simpl; auto; [lia|]. intros l _ Hne. unfold blk_of in Hne. rewrite Hg in Hne.
    rewrite lookup_insert_ne; [done|]. intros <-. by simpl in Hne.
Qed.

Lemma wp_hdr_load s q d bs i n Q :
  hdr s q d bs -> 0 <= i -> 0 <= n -> i + n <= zlen bs ->
  Q (slice i n bs) s -> wp (load_bytes (ptr_add (d_data d) i) n) s Q.
Proof.
  intros [Hg Hb Ho Hf Hm Hl Hx Hfr] ????. eapply wp_load_bytes; simpl; rewrite ?Ho; eauto; lia.
Qed.

(** [realloc] of the owned block: refused, or the block moves. *)
Lemma wp_hdr_realloc s q d bs n Q :
  hdr s q d bs -> 0 < n <= INT_MAX ->
  (forall oom, st_oom s <> [] -> Q None (with_oom s oom)) ->
  (forall oom l, (st_oom s = [] -> oom = []) -> st_blks s !! l = None -> l = st_next s ->
     Q (Some (Ptr l 0))
       (BStore (st_bufs s) (st_datas s)
          (<[l := ztake n (bs ++ fresh_bytes s (zlen bs) (n - zlen bs))]>
             (delete (p_blk (d_data d)) (st_blks s)))
          (Pos.succ (st_next s)) oom (st_fresh s))) ->
  wp (realloc_blk (d_data d) n) s Q.
Proof.
  intros [Hg Hb Ho Hf Hm Hl Hx Hfr] Hn Hno Hyes. unfold realloc_blk. apply wp_bind.
  apply wp_malloc_granted; [unfold INT_MAX, PTRDIFF_MAX in *; lia|]. intros ok oom Hoom.
  destruct ok; [|apply wp_ret, Hno; intros E; by destruct (Hoom E)].
  apply wp_bind. unfold wp at 1. cbn. rewrite Hb, Ho. cbn.
  assert (to_u64 n = n) as ->.
  { unfold to_u64, INT_MAX in *. apply Z.mod_small. lia. }
  apply Hyes; [intros E; by destruct (Hoom E) | | done].
  destruct (st_blks s !! st_next s) eqn:E; [|done].
  specialize (Hfr (st_next s) (ltac:(eauto))). lia.
Qed.

Lemma zlen_fresh_bytes s from n : 0 <= n -> zlen (fresh_bytes s from n) = n.
Proof. intros. unfold zlen, fresh_bytes. rewrite length_map, length_seq. lia. Qed.

(** Growing a header: it always ends, keeps the bytes below the request, and
    either makes room for index [size] or leaves the header as it was. *)
Lemma wp_data_resize s q d bs size :
  hdr s q d bs -> 0 < size < GROW_SAFE ->
  wp (_dpbuf_data_resize (Some q) size) s (fun ok s' => exists d' bs',
    hdr s' q d' bs' /\ touches q s s' /\ (st_oom s = [] -> ok = true) /\
    (forall n, n <= size -> n <= zlen bs -> ztake n bs' = ztake n bs) /\
    zlen bs <= zlen bs' /\
    if ok : bool then size <= d_maxs d' /\ size < zlen bs' else d' = d /\ bs' = bs).
Proof.
  intros Hh Hsz. assert (Hh' := Hh). destruct Hh' as [Hg Hb Ho Hf Hm Hl Hx Hfr].
  assert (Hno : forall oom, st_oom s <> [] -> exists d' bs', hdr (with_oom s oom) q d' bs' /\
    touches q s (with_oom s oom) /\ (st_oom s = [] -> false = true) /\ (forall n, n <= size -> n <= zlen bs -> ztake n bs' = ztake n bs) /\
    zlen bs <= zlen bs' /\ d' = d /\ bs' = bs).
  { intros oom Hne. exists d, bs. split_and!; auto using hdr_oom; [apply touches_oom; by intros ?|lia]. }
  unfold _dpbuf_data_resize. apply wp_bind. eapply wp_get_data; [done|].
  destruct (Z.ltb_spec size (d_maxs d)).
  { wp_apply wp_hdr_store; [done|lia|rewrite zlen_one; lia|].
    intros _ s1 [H1 H2]. apply wp_ret. eexists _, _. split_and!; [done..| | | |].
    - intros. apply ztake_splice_before; rewrite ?zlen_one; lia.
    - rewrite zlen_splice; rewrite ?zlen_one; lia.
    - lia.
    - rewrite zlen_splice; rewrite ?zlen_one; lia. }
  rewrite Hf. unfold GROW_SAFE in Hsz. replace (_ || _) with false by (unfold INT_MAX; lia).
  destruct (pow_min_value_bound (size + 1)) as (newsz & -> & Hp); [unfold GROW_SAFE; lia|].
  apply wp_bind, wp_ret. unfold GROW_SAFE, DPBUF_MAX_SIZE in *.
  destruct (Z.ltb_spec 0x4fffffff newsz); [lia|].
  apply wp_bind. eapply wp_hdr_realloc; [done | unfold INT_MAX; lia | intros; by apply wp_ret, Hno |].
  intros oom l Hoom Hl0 ->. assert (Hz := zlen_fresh_bytes s (zlen bs) (newsz - zlen bs)).
  pose (bs' := ztake newsz (bs ++ fresh_bytes s (zlen bs) (newsz - zlen bs))).
  assert (Hlen : zlen bs' = newsz) by (subst bs'; rewrite zlen_ztake, zlen_app; lia).
  fold bs'. apply wp_bind. eapply wp_put_data; [by simpl|]. apply wp_bind.
  eapply wp_store_bytes; simpl; [by rewrite lookup_insert_eq | lia | rewrite zlen_one; lia |].
  apply wp_ret. exists (BufData (Ptr (st_next s) 0) newsz (d_flag d) (d_refc d)), (splice size [0] bs').
  assert (Hlen' : zlen (splice size [0] bs') = newsz) by (rewrite zlen_splice; rewrite ?zlen_one; lia).
  split_and!; [| |done| |lia|simpl; lia|lia].
  - split; simpl; rewrite ?Hlen', ?lookup_insert_eq; auto; [lia|lia|unfold INT_MAX; lia|].
    intros k Hk. destruct (decide (k = st_next s)); [lia|].
    rewrite !lookup_insert_ne in Hk by done. rewrite lookup_delete in Hk. case_decide.
    + by destruct Hk.
    + specialize (Hfr k Hk). lia.
  - split; simpl; auto; [lia| | | |].
    + intros. by rewrite lookup_insert_ne.
    + intros k Hk Hne. unfold blk_of in Hne. rewrite Hg in Hne.
      rewrite !lookup_insert_ne by lia. apply lookup_delete_ne. intros <-. by simpl in Hne.
    + right. unfold blk_of. simpl. rewrite lookup_insert_eq. eexists. split; [done|simpl; lia].
    + by rewrite lookup_insert_eq, Hg.
  - intros n Hn1 Hn2. rewrite ztake_splice_before by (rewrite ?zlen_one; lia).
    subst bs'. rewrite ztake_ztake, ztake_app. rewrite Z.min_l by lia.
    rewrite (ztake_nonpos (n - zlen bs)) by lia. by rewrite app_nil_r.
Qed.

(** ** Windows *)

(** The bytes not yet consumed: the readable window followed by the slack. *)
Definition live (b : dpbuf) (bs : list Z) : list Z := slice (b_rbeg b) (b_wbeg b - b_rbeg b) bs.

(** Same contents in both windows, same user tags. *)
Record same_view (b : dpbuf) (bs : list Z) (b' : dpbuf) (bs' : list Z) : Prop := {
  sv_rd : rd b' bs' = rd b bs;
  sv_sl : sl b' bs' = sl b bs;
  sv_cr : dpbuf_crsize b' = dpbuf_crsize b;
  sv_ce : dpbuf_cesize b' = dpbuf_cesize b;
  sv_utype : b_utype b' = b_utype b;
  sv_uflag : b_uflag b' = b_uflag b;
  sv_flag : b_flag b' = b_flag b;
}.

Lemma same_view_refl b bs : same_view b bs b bs.
Proof. by split. Qed.

Lemma same_view_trans b1 bs1 b2 bs2 b3 bs3 :
  same_view b1 bs1 b2 bs2 -> same_view b2 bs2 b3 bs3 -> same_view b1 bs1 b3 bs3.
Proof. intros [] []. split; congruence. Qed.

#[export] Hint Resolve same_view_refl same_view_trans : dpbuf.

(** Two structs over two blocks whose windows have equal sizes and whose live
    bytes are equal have the same windows. *)
Lemma same_view_live b bs b' bs' :
  cursors_ok b -> cursors_ok b' ->
  dpbuf_crsize b' = dpbuf_crsize b -> dpbuf_cesize b' = dpbuf_cesize b ->
  b_utype b' = b_utype b -> b_uflag b' = b_uflag b -> b_flag b' = b_flag b ->
  live b' bs' = live b bs -> same_view b bs b' bs'.
Proof.
  unfold cursors_ok, dpbuf_crsize, dpbuf_cesize, live. intros Hc Hc' Hr He ??? Hl.
  assert (Hsub : forall o n, 0 <= o -> 0 <= n -> o + n <= b_wbeg b - b_rbeg b ->
    slice (b_rbeg b' + o) n bs' = slice (b_rbeg b + o) n bs).
  { intros o n ???. rewrite <-(slice_slice _ (b_wbeg b' - b_rbeg b') _ _ bs') by lia.
    rewrite <-(slice_slice _ (b_wbeg b - b_rbeg b) _ _ bs) by lia. by rewrite Hl. }
  split; unfold rd, sl, dpbuf_crsize, dpbuf_cesize; auto.
  - specialize (Hsub 0 (b_rend b - b_rbeg b)). rewrite !Z.add_0_r in Hsub. rewrite Hr. apply Hsub; lia.
  - specialize (Hsub (b_rend b - b_rbeg b) (b_wbeg b - b_rend b)). rewrite He.
    replace (b_rend b') with (b_rbeg b' + (b_rend b - b_rbeg b)) by lia.
    replace (b_rend b) with (b_rbeg b + (b_rend b - b_rbeg b)) at 3 by lia. apply Hsub; lia.
Qed.

(** Blocks that agree below the write cursor show the same windows. *)
Lemma same_view_prefix b bs bs' :
  cursors_ok b -> ztake (b_wbeg b) bs' = ztake (b_wbeg b) bs -> same_view b bs b bs'.
Proof.
  intros Hc Ht. apply same_view_live; auto. unfold live. unfold cursors_ok in Hc.
  rewrite <-(slice_ztake _ _ (b_wbeg b) bs') by lia.
  rewrite <-(slice_ztake _ _ (b_wbeg b) bs) by lia. by rewrite Ht.
Qed.

Lemma zlen_rd b bs : cursors_ok b -> b_size b <= zlen bs -> zlen (rd b bs) = dpbuf_crsize b.
Proof. unfold cursors_ok, rd, dpbuf_crsize. intros. apply zlen_slice; lia. Qed.

Lemma zlen_sl b bs : cursors_ok b -> b_size b <= zlen bs -> zlen (sl b bs) = dpbuf_cesize b.
Proof. unfold cursors_ok, sl, dpbuf_cesize. intros. apply zlen_slice; lia. Qed.

(** ** Compaction and growth *)

Lemma wp_recycle_data s b q d bs :
  own s b q d bs ->
  wp (_dpbuf_recycle_data b) s (fun b' s' => exists bs',
    own s' b' q d bs' /\ touches q s s' /\ same_view b bs b' bs' /\
    b_size b' - b_wbeg b' = b_size b - b_wbeg b /\ b_wbeg b' <= b_wbeg b).
Proof.
  intros [Hd Hh Hc Hm Hr]. unfold cursors_ok in Hc. assert (Hg := hdr_get _ _ _ _ Hh).
  assert (Hmx := hdr_maxs _ _ _ _ Hh).
  unfold _dpbuf_recycle_data. rewrite Hd. destruct (Z.eqb_spec (b_rbeg b) (b_wbeg b)) as [E|E].
  - cbn. rewrite Hd. apply wp_bind. eapply wp_get_data; [done|].
    wp_apply wp_hdr_store; [done|lia|rewrite zlen_one; lia|].
    intros _ s1 [H1 H2]. apply wp_ret. eexists. split_and!; [|done| |cbn; lia|cbn; lia].
    + split; cbn; eauto; [unfold cursors_ok; cbn; lia|lia|].
      rewrite zlen_splice; rewrite ?zlen_one; lia.
    + split; cbn; auto; unfold rd, sl, dpbuf_crsize, dpbuf_cesize; cbn; try lia.
      * by replace (b_rend b - b_rbeg b) with 0 by lia.
      * by replace (b_wbeg b - b_rend b) with 0 by lia.
  - destruct (Z.ltb_spec DPBUF_S_SIZE (b_rbeg b)) as [Hs|]; [|apply wp_ret].
    2: { exists bs. split_and!; auto with dpbuf; [by split|lia]. }
    unfold DPBUF_S_SIZE in Hs. apply wp_bind. eapply wp_get_data; [done|].
    destruct (_ <? 4); [|apply wp_ret; exists bs; split_and!; auto with dpbuf; [by split|lia]].
    apply wp_bind. unfold memmove. apply wp_bind. eapply wp_hdr_load; [done|lia..|].
    set (xs := slice (b_rbeg b) (b_wbeg b - b_rbeg b) bs).
    assert (Hxs : zlen xs = b_wbeg b - b_rbeg b) by (apply zlen_slice; lia).
    assert (Hl2 : zlen (splice 0 xs bs) = zlen bs) by (apply zlen_splice; lia).
    replace (d_data d) with (ptr_add (d_data d) 0)
      by (destruct (d_data d); unfold ptr_add; cbn; f_equal; lia).
    eapply wp_mono; [eapply wp_hdr_store; [done|lia|lia]|]. intros _ s1 [H1 H2].
    replace (ptr_add (d_data d) 0) with (d_data d)
      by (destruct (d_data d); unfold ptr_add; cbn; f_equal; lia).
    wp_apply wp_hdr_store; [done|cbn; lia|rewrite zlen_one; cbn; lia|].
    intros _ s2 [H3 H4]. apply wp_ret. eexists. split_and!; [| eauto with dpbuf | |cbn; lia|cbn; lia].
    + split; cbn; eauto; [unfold cursors_ok; cbn; lia|lia|].
      rewrite zlen_splice; rewrite ?zlen_one; cbn; lia.
    + apply same_view_live; unfold cursors_ok, dpbuf_crsize, dpbuf_cesize, live; cbn; auto; try lia.
      fold xs. rewrite slice_splice_before by (rewrite ?zlen_one; lia).
      rewrite <-Hxs, Z.sub_0_r. replace (b_wbeg b - b_rbeg b - 0) with (zlen xs) by lia.
      apply slice_splice_eq; lia.
Qed.

Lemma wp_resize s b q d bs size :
  own s b q d bs -> b_wbeg b <= size < GROW_SAFE ->
  wp (_dpbuf_resize b size) s (fun r s' => exists d' bs',
    own s' r.2 q d' bs' /\ touches q s s' /\ same_view b bs r.2 bs' /\
    b_wbeg r.2 = b_wbeg b /\ (r.1 = true -> b_size r.2 = size) /\
    (st_oom s = [] -> 0 < size -> r.1 = true)).
Proof.
  intros [Hd Hh Hc Hm Hr] Hw. unfold cursors_ok in Hc. unfold _dpbuf_resize.
  destruct (Z.leb_spec size 0).
  { apply wp_ret. exists d, bs. split_and!; auto with dpbuf; [by split|done|lia]. }
  rewrite Hd. wp_apply wp_data_resize; [done|lia|].
  intros ok s1 (d' & bs' & H1 & H2 & Hgrant & H3 & H4 & H5). apply wp_ret. exists d', bs'.
  assert (same_view b bs b bs') as Hv.
  { apply same_view_prefix; [done|]. apply H3; [lia|]. pose proof (hdr_maxs _ _ _ _ Hh). lia. }
  destruct ok; cbn.
  - split_and!; auto.
    + destruct H5. split; auto; unfold cursors_ok; cbn; lia.
    + by destruct Hv.
  - destruct H5 as [-> ->]. split_and!; auto; [by split|done].
Qed.

(** A request of [n] bytes either makes exactly [n] bytes writable after the
    write cursor or fails, which it does only when the allocator refuses (or
    nothing is asked for); both windows keep their contents. *)
Lemma wp_resizew s b q d bs n :
  own s b q d bs -> 0 <= n -> b_wbeg b + n < GROW_SAFE ->
  wp (dpbuf_resizew b n) s (fun r s' => exists d' bs',
    own s' r.2 q d' bs' /\ touches q s s' /\ same_view b bs r.2 bs' /\
    b_wbeg r.2 <= b_wbeg b /\ (r.1 = true -> dpbuf_cwsize r.2 = n) /\
    (st_oom s = [] -> 0 < n -> r.1 = true)).
Proof.
  intros Ho Hn Hsafe. unfold dpbuf_resizew. destruct (Z.leb_spec 0 n); [|lia].
  assert (Hrec : wp (if negb (has_flag (b_flag b) DPBUF_NORECYCLE)
                     then _dpbuf_recycle_data b else mret b) s (fun b' s' => exists bs',
    own s' b' q d bs' /\ touches q s s' /\ same_view b bs b' bs' /\ b_wbeg b' <= b_wbeg b)).
  { destruct (negb _).
    - eapply wp_mono; [by eapply wp_recycle_data|]. intros b' s' (bs' & ? & ? & ? & ? & ?). eauto 6.
    - apply wp_ret. exists bs. split_and!; eauto with dpbuf. lia. }
  apply wp_bind. eapply wp_mono; [exact Hrec|]. intros b1 s1 (bs1 & H1 & H2 & H3 & Hw1).
  assert (Hc := own_cur _ _ _ _ _ H1). unfold cursors_ok in Hc.
  assert (Hsz := own_maxs _ _ _ _ _ H1). assert (Hmx := hdr_maxs _ _ _ _ (own_hdr _ _ _ _ _ H1)).
  unfold GROW_SAFE in Hsafe. rewrite int_val_id by (unfold is_i32, INT_MIN, INT_MAX; lia). apply wp_bind, wp_ret.
  eapply wp_mono; [eapply wp_resize; [exact H1 | unfold GROW_SAFE; lia] |].
  intros [ok b2] s2 (d2 & bs2 & K1 & K2 & K3 & K4 & K5 & K6). cbn in *. exists d2, bs2.
  split_and!; eauto with dpbuf; [lia| |].
  - intros ->. specialize (K5 eq_refl). unfold dpbuf_cwsize. lia.
  - intros Hg ?. apply K6; [by eapply tch_oom|lia].
Qed.

Lemma wp_wcheck s b q d bs n :
  own s b q d bs -> 0 <= n -> b_wbeg b + n < GROW_SAFE ->
  wp (_dpbuf_wcheck b n) s (fun r s' => exists d' bs',
    own s' r.2 q d' bs' /\ touches q s s' /\ same_view b bs r.2 bs' /\
    b_wbeg r.2 <= b_wbeg b /\ (r.1 = true -> n <= dpbuf_cwsize r.2) /\ (st_oom s = [] -> r.1 = true)).
Proof.
  intros Ho Hn Hs. pose proof (own_cur _ _ _ _ _ Ho) as Hc. unfold cursors_ok in Hc.
  unfold _dpbuf_wcheck. cbv zeta. destruct (Z.ltb_spec (b_size b - b_wbeg b) n).
  - eapply wp_mono; [by eapply wp_resizew|]. intros [ok b'] s' (d' & bs' & ? & ? & ? & ? & Hok & Hgr).
    exists d', bs'. split_and!; auto; [intros E; specialize (Hok E); lia|]. intros ?. apply Hgr; [done|lia].
  - apply wp_ret. exists d, bs. cbn. split_and!; auto with dpbuf; lia.
Qed.

(** ** Scanning *)

Definition occurs_at (pat hay : list Z) (i : Z) : Prop := slice i (zlen pat) hay = pat.

Lemma is_prefix_occurs pat l : is_prefix pat l = true <-> occurs_at pat l 0.
Proof.
  unfold is_prefix, occurs_at, slice, ztake. rewrite bool_decide_eq_true, zdrop_0.
  unfold zlen. by rewrite Nat2Z.id.
Qed.

Lemma occurs_at_cons pat x l i : 0 <= i -> occurs_at pat (x :: l) (1 + i) <-> occurs_at pat l i.
Proof.
  intros. unfold occurs_at, slice, zdrop. by replace (Z.to_nat (1 + i)) with (S (Z.to_nat i)) by lia.
Qed.

(** [memmem] answers the first occurrence, and [None] when there is none. *)
Lemma memmem_Some hay pat i :
  memmem hay pat = Some i ->
  0 <= i /\ occurs_at pat hay i /\ forall j, 0 <= j < i -> ~ occurs_at pat hay j.
Proof.
  revert i. induction hay as [|x hay IH]; intros i; cbn [memmem];
    destruct (is_prefix pat _) eqn:E; try done.
  - intros [= <-]. apply is_prefix_occurs in E. split_and!; [lia|done|lia].
  - intros [= <-]. apply is_prefix_occurs in E. split_and!; [lia|done|lia].
  - destruct (memmem hay pat) as [k|] eqn:Ek; [|done]. intros [= <-].
    destruct (IH k eq_refl) as (H1 & H2 & H3). replace (Z.succ k) with (1 + k) by lia.
    split_and!; [lia | by apply occurs_at_cons |].
    intros j Hj. destruct (Z.eq_dec j 0) as [->|].
    + intros Ho. apply is_prefix_occurs in Ho. congruence.
    + replace j with (1 + (j - 1)) by lia. rewrite occurs_at_cons by lia. apply H3. lia.
Qed.

Lemma memmem_None hay pat j : memmem hay pat = None -> 0 <= j -> ~ occurs_at pat hay j.
Proof.
  revert j. induction hay as [|x hay IH]; intros j; cbn [memmem];
    destruct (is_prefix pat _) eqn:E; try done.
  - intros _ Hj Ho. unfold occurs_at, slice, zdrop, ztake in Ho. rewrite drop_nil, take_nil in Ho.
    subst pat. done.
  - intros Hm Hj. destruct (memmem hay pat) eqn:Em; [done|].
    destruct (Z.eq_dec j 0) as [->|].
    + intros Ho. apply is_prefix_occurs in Ho. congruence.
    + replace j with (1 + (j - 1)) by lia. rewrite occurs_at_cons by lia. apply IH; [done|lia].
Qed.

Lemma memmem_bound hay pat i :
  0 < zlen pat -> memmem hay pat = Some i -> i + zlen pat <= zlen hay.
Proof.
  intros Hp H. apply memmem_Some in H as (H1 & H2 & _). unfold occurs_at in H2.
  assert (zlen (slice i (zlen pat) hay) = zlen pat) as Hl by (by rewrite H2).
  unfold slice in Hl. rewrite zlen_ztake, zlen_zdrop in Hl. lia.
Qed.

(** ** Reading advances over the slack *)

(** Consume the readable window and make the next [n] slack bytes readable. *)
Definition advance (b : dpbuf) (n : Z) : dpbuf := with_cur b (b_rend b) (b_rend b + n) (b_wbeg b) (b_size b).

Lemma own_cursors s b b' q d bs :
  own s b q d bs -> cursors_ok b' -> b_data b' = b_data b -> b_size b' = b_size b -> own s b' q d bs.
Proof. intros [H1 H2 H3 H4 H5] ???. split; auto; [congruence|lia|lia]. Qed.

Lemma own_advance s b q d bs n : own s b q d bs -> 0 <= n <= dpbuf_cesize b -> own s (advance b n) q d bs.
Proof.
  intros Ho Hn. eapply own_cursors; [done| |done..]. destruct (own_cur _ _ _ _ _ Ho).
  unfold cursors_ok, dpbuf_cesize in *. cbn. lia.
Qed.

Lemma windows_advance s b q d bs n :
  own s b q d bs -> 0 <= n <= dpbuf_cesize b ->
  rd (advance b n) bs = ztake n (sl b bs) /\ sl (advance b n) bs = zdrop n (sl b bs).
Proof.
  intros Ho Hn. destruct (own_cur _ _ _ _ _ Ho). unfold rd, sl, dpbuf_crsize, dpbuf_cesize in *. cbn.
  replace (b_rend b + n - b_rend b) with n by lia. split.
  - slice_ext.
  - unfold slice. rewrite zdrop_ztake, zdrop_zdrop by lia. f_equal. lia.
Qed.

Lemma zlen_sl_own s b q d bs : own s b q d bs -> zlen (sl b bs) = dpbuf_cesize b.
Proof. intros []. apply zlen_sl; [done|]. lia. Qed.

Lemma index_of_default_bound P (l : list Z) : 0 <= default (zlen l) (index_of P l) <= zlen l.
Proof.
  destruct (index_of P l) eqn:E; cbn; [apply index_of_Some in E; lia|]. pose proof (zlen_nonneg l). lia.
Qed.

(** The reads that only look at the cursors. *)
Lemma rdata_advance b len :
  cursors_ok b ->
  exists n, dpbuf_rdata b len = (n, advance b n) /\ 0 <= n <= dpbuf_cesize b /\
    n = (if len <? 0 then dpbuf_cesize b else Z.min len (dpbuf_cesize b)).
Proof.
  unfold cursors_ok, dpbuf_rdata, dpbuf_cesize, _imin. cbn. intros Hc.
  destruct (Z.ltb_spec len 0).
  - destruct (Z.ltb_spec (b_wbeg b - b_rend b) (b_wbeg b - b_rend b)); [lia|].
    eexists. split; [done|]. lia.
  - destruct (Z.ltb_spec len (b_wbeg b - b_rend b)); eexists; (split; [done|]); lia.
Qed.

Lemma rmust_advance b len :
  dpbuf_rmust b len =
    if (len <? 0) || (dpbuf_cesize b <? len) then (DPE_NODATA, advance b 0) else (len, advance b len).
Proof.
  unfold dpbuf_rmust, dpbuf_cesize, advance. cbn. destruct (_ || _); [|done].
  by rewrite Z.add_0_r.
Qed.

Lemma rall_advance b : dpbuf_rall b = (dpbuf_cesize b, advance b (dpbuf_cesize b)).
Proof.
  unfold dpbuf_rall, dpbuf_cesize, advance. cbn. f_equal. unfold with_rend, with_rbeg, with_cur. cbn.
  f_equal. lia.
Qed.

(** The scanning reads load the slack and advance. *)
Lemma wp_load_slack s b q d bs Q :
  own s b q d bs -> Q (sl b bs) s ->
  wp (p ← dpbuf_cedata (with_rbeg b (b_rend b)); load_bytes p (dpbuf_cesize b)) s Q.
Proof.
  intros Ho HQ. assert (Hl := zlen_sl_own _ _ _ _ _ Ho). destruct Ho as [Hd Hh Hc Hm Hr].
  unfold cursors_ok, dpbuf_cesize in *. unfold dpbuf_cedata. cbn. rewrite Hd.
  apply wp_bind, wp_bind. eapply wp_get_data; [eapply hdr_get; done|]. apply wp_ret.
  pose proof (hdr_maxs _ _ _ _ Hh). eapply wp_hdr_load; [done|lia..|done].
Qed.

Lemma wp_rws s b q d bs :
  own s b q d bs ->
  wp (dpbuf_rws b) s (fun r s' => s' = s /\ r = (skip_ws (sl b bs), advance b (skip_ws (sl b bs)))).
Proof.
  intros Ho. unfold dpbuf_rws.
  assert (H := wp_load_slack s b q d bs (fun l s' => s' = s /\ l = sl b bs) Ho (conj eq_refl eq_refl)).
  unfold wp, mbind, ST_bind in *. cbn in *. destruct (dpbuf_cedata _ s) as [[p s1]|]; [|done].
  destruct (load_bytes p _ s1) as [[l s2]|]; [|done]. by destruct H as [-> ->].
Qed.

Lemma wp_rcstr s b q d bs :
  own s b q d bs ->
  wp (dpbuf_rcstr b) s (fun r s' => s' = s /\ exists n, r = (n, advance b n) /\
    n = match c_strlen (sl b bs) with
        | Some k => if 0 <? k then k + 1 else 0
        | None => dpbuf_cesize b
        end).
Proof.
  intros Ho. unfold dpbuf_rcstr. assert (Hl := zlen_sl_own _ _ _ _ _ Ho).
  assert (H := wp_load_slack s b q d bs (fun l s' => s' = s /\ l = sl b bs) Ho (conj eq_refl eq_refl)).
  unfold wp, mbind, ST_bind in *. cbn in *. destruct (dpbuf_cedata _ s) as [[p s1]|]; [|done].
  unfold dpbuf_cesize in H, Hl. destruct (load_bytes p _ s1) as [[l s2]|]; [|done]. destruct H as [-> ->].
  split; [done|]. eexists. split; [done|]. unfold strnlen, dpbuf_cesize.
  destruct (c_strlen (sl b bs)) as [k|] eqn:E; cbn.
  - apply index_of_Some in E. destruct (Z.ltb_spec 0 k); cbn; [|lia].
    destruct (Z.ltb_spec k (b_wbeg b - b_rend b)); lia.
  - rewrite Hl. destruct (Z.ltb_spec (b_wbeg b - b_rend b) (b_wbeg b - b_rend b)); [lia|].
    by rewrite andb_false_r.
Qed.

(** [dpbuf_cfind] from index 0 of the readable window. *)
Lemma wp_cfind s b q d bs pat left :
  own s b q d bs -> 0 < zlen pat -> 0 <= left <= dpbuf_crsize b ->
  wp (dpbuf_cfind (Some b) (Some pat) (zlen pat) left) s (fun r s' => s' = s /\
    r = (if dpbuf_crsize b <? zlen pat then DPE_NODATA
         else match memmem (zdrop left (rd b bs)) pat with
              | None => DPE_PERM
              | Some i => left + i
              end)).
Proof.
  intros Ho Hp Hleft. unfold dpbuf_cfind, len_or_strlen. apply wp_bind.
  destruct (Z.ltb_spec (zlen pat) 0); [lia|]. apply wp_ret.
  destruct (Z.eqb_spec (zlen pat) 0); [lia|]. cbn [orb].
  destruct (_ <? _) eqn:E; [by apply wp_ret|].
  destruct Ho as [Hd Hh Hc Hm Hr]. unfold cursors_ok, dpbuf_crsize, rd in *.
  apply wp_bind. unfold dpbuf_crdata. rewrite Hd. apply wp_bind.
  eapply wp_get_data; [eapply hdr_get; done|]. apply wp_ret. apply wp_bind.
  pose proof (hdr_maxs _ _ _ _ Hh).
  replace (ptr_add (ptr_add (d_data d) (b_rbeg b)) left) with (ptr_add (d_data d) (b_rbeg b + left))
    by (unfold ptr_add; cbn; f_equal; lia).
  eapply wp_hdr_load; [done|lia..|]. apply wp_bind. unfold first_bytes.
  rewrite ztake_all by lia.
  replace ((0 <=? zlen pat) && (zlen pat <=? zlen pat)) with true by lia. apply wp_ret.
  assert (slice (b_rbeg b + left) (b_rend b - b_rbeg b - left) bs
          = zdrop left (slice (b_rbeg b) (b_rend b - b_rbeg b) bs)) as ->.
  { unfold slice. rewrite zdrop_ztake, zdrop_zdrop by lia. done. }
  by destruct (memmem _ pat).
Qed.

(** ** Writing appends to the slack *)

(** Storing [xs] at the write cursor and moving it. *)
Lemma wp_append s b q d bs xs :
  own s b q d bs -> zlen xs <= dpbuf_cwsize b ->
  wp (dst ← dpbuf_cwdata b; store_bytes dst xs) s (fun _ s' => exists bs',
    own s' (with_wbeg b (b_wbeg b + zlen xs)) q d bs' /\ touches q s s' /\
    rd (with_wbeg b (b_wbeg b + zlen xs)) bs' = rd b bs /\
    sl (with_wbeg b (b_wbeg b + zlen xs)) bs' = sl b bs ++ xs).
Proof.
  intros [Hd Hh Hc Hm Hr] Hlen. unfold cursors_ok, dpbuf_cwsize in *. pose proof (hdr_maxs _ _ _ _ Hh).
  pose proof (zlen_nonneg xs).
  unfold dpbuf_cwdata. rewrite Hd. apply wp_bind, wp_bind.
  eapply wp_get_data; [eapply hdr_get; done|]. apply wp_ret.
  eapply wp_mono; [eapply wp_hdr_store; [done|lia..]|]. intros _ s' [H1 H2].
  assert (Hl : zlen (splice (b_wbeg b) xs bs) = zlen bs) by (apply zlen_splice; lia).
  exists (splice (b_wbeg b) xs bs). split_and!; auto.
  - split; cbn; auto; [|lia]. unfold cursors_ok. cbn. lia.
  - unfold rd, dpbuf_crsize. cbn. apply slice_splice_before; lia.
  - unfold sl, dpbuf_cesize. cbn.
    replace (b_wbeg b + zlen xs - b_rend b) with ((b_wbeg b - b_rend b) + zlen xs) by lia.
    rewrite slice_split by lia. f_equal; [apply slice_splice_before; lia|].
    replace (b_rend b + (b_wbeg b - b_rend b)) with (b_wbeg b) by lia. apply slice_splice_eq; lia.
Qed.

(** The outcome of a write of [xs] (returning [r] on success). *)
Definition wrote (s : bstore) (b : dpbuf) (q : loc) (bs xs : list Z) (r : Z)
    (res : Z * dpbuf) (s' : bstore) : Prop :=
  exists d' bs', own s' res.2 q d' bs' /\ touches q s s' /\ rd res.2 bs' = rd b bs /\
    b_wbeg res.2 <= b_wbeg b + zlen xs /\
    (res.1 = r /\ sl res.2 bs' = sl b bs ++ xs
     \/ res.1 = DPE_NOMEM /\ st_oom s <> [] /\ sl res.2 bs' = sl b bs).

(** A block outside the header survives the operations on the header. *)
Lemma touches_block q s s' d bs l k :
  touches q s s' -> hdr s q d bs -> st_blks s !! l = Some k -> l <> p_blk (d_data d) ->
  st_blks s' !! l = Some k.
Proof.
  intros Ht Hh Hk Hne. rewrite (tch_blks _ _ _ Ht); [done| |].
  - apply (hdr_fresh _ _ _ _ Hh). eauto.
  - unfold blk_of. rewrite (hdr_get _ _ _ _ Hh). cbn. congruence.
Qed.

Lemma touches_new_block q s s' d bs d' bs' l k :
  touches q s s' -> hdr s q d bs -> hdr s' q d' bs' ->
  st_blks s !! l = Some k -> l <> p_blk (d_data d) -> l <> p_blk (d_data d').
Proof.
  intros Ht Hh Hh' Hk Hne ->. destruct (tch_blk _ _ _ Ht) as [E|(k' & E & Hlt)];
    unfold blk_of in E; rewrite (hdr_get _ _ _ _ Hh') in E; cbn in E.
  - rewrite (hdr_get _ _ _ _ Hh) in E. cbn in E. congruence.
  - injection E as E. pose proof (hdr_fresh _ _ _ _ Hh (p_blk (d_data d')) (ltac:(eauto))). lia.
Qed.

Lemma wp_wdata s b q d bs src k len :
  own s b q d bs -> st_blks s !! p_blk src = Some k -> p_blk src <> p_blk (d_data d) ->
  0 <= p_off src -> 0 < len -> p_off src + len <= zlen k -> b_wbeg b + len < GROW_SAFE ->
  wp (dpbuf_wdata b (Some src) len) s (wrote s b q bs (slice (p_off src) len k) len).
Proof.
  intros Ho Hk Hne Hoff Hlen Hin Hs. unfold dpbuf_wdata.
  destruct (Z.eqb_spec len 0); [lia|]. apply wp_bind.
  eapply wp_mono; [eapply (wp_wcheck _ _ _ _ _ len); [done|lia|lia]|].
  intros [ok b1] s1 (d1 & bs1 & H1 & H2 & H3 & Hw1 & H4 & Hgr). cbn in *.
  destruct ok; cbn [negb].
  2: { apply wp_ret. exists d1, bs1. cbn. split_and!; auto; [apply H3|pose proof (zlen_nonneg (slice (p_off src) len k)); lia|].
       right. split_and!; [done|by intros ?%Hgr|apply H3]. }
  specialize (H4 eq_refl).
  assert (Hk1 : st_blks s1 !! p_blk src = Some k) by (eapply touches_block; eauto; apply Ho).
  assert (Hne1 : p_blk src <> p_blk (d_data d1)).
  { eapply touches_new_block; eauto; [apply Ho|apply H1]. }
  set (xs := slice (p_off src) len k). assert (Hxs : zlen xs = len) by (apply zlen_slice; lia).
  assert (Happ := wp_append _ _ _ _ _ xs H1 ltac:(lia)).
  unfold wp, mbind, ST_bind in Happ |- *.
  destruct (dpbuf_cwdata b1 s1) as [[dst s2]|] eqn:Edst; [|done].
  assert (s2 = s1 /\ p_blk dst = p_blk (d_data d1)) as [-> Hb].
  { unfold dpbuf_cwdata, mbind, ST_bind, get_data in Edst. rewrite (own_data _ _ _ _ _ H1) in Edst.
    cbn in Edst. rewrite (hdr_get _ _ _ _ (own_hdr _ _ _ _ _ H1)) in Edst. by injection Edst as <- <-. }
  unfold memcpy. rewrite bool_decide_false by congruence. cbn [andb].
  unfold memmove, mbind, ST_bind, load_bytes. rewrite Hk1, in_block_true by lia. fold xs.
  destruct (store_bytes dst xs s1) as [[u s3]|]; [|done].
  destruct Happ as (bs' & K1 & K2 & K3 & K4). rewrite Hxs in *. cbn. exists d1, bs'. cbn.
  split_and!; eauto with dpbuf; [rewrite K3; apply H3|lia|]. left. split; [done|].
  rewrite K4. f_equal. apply H3.
Qed.

Lemma wp_wfill s b q d bs len v :
  own s b q d bs -> 0 <= len -> b_wbeg b + len < GROW_SAFE ->
  wp (dpbuf_wfill b len v) s (wrote s b q bs (replicate (Z.to_nat len) (to_u8 v)) len).
Proof.
  intros Ho Hlen Hs. unfold dpbuf_wfill. apply wp_bind.
  eapply wp_mono; [eapply (wp_wcheck _ _ _ _ _ len); [done|lia|lia]|].
  intros [ok b1] s1 (d1 & bs1 & H1 & H2 & H3 & Hw1 & H4 & Hgr). cbn in *.
  destruct ok; cbn [negb].
  2: { apply wp_ret. exists d1, bs1. cbn. rewrite zlen_replicate by lia. split_and!; auto; [apply H3|lia|].
       right. split_and!; [done|by intros ?%Hgr|apply H3]. }
  specialize (H4 eq_refl). set (xs := replicate _ _).
  assert (Hxs : zlen xs = len) by (unfold xs; rewrite zlen_replicate; lia).
  assert (Happ := wp_append _ _ _ _ _ xs H1 ltac:(lia)).
  unfold wp, mbind, ST_bind in Happ |- *.
  destruct (dpbuf_cwdata b1 s1) as [[dst s2]|] eqn:Edst; [|done].
  unfold memset. destruct (Z.ltb_spec len 0); [lia|]. fold xs.
  destruct (store_bytes dst xs s2) as [[u s3]|]; [|done].
  destruct Happ as (bs' & K1 & K2 & K3 & K4). rewrite Hxs in *. cbn. exists d1, bs'. cbn.
  split_and!; eauto with dpbuf; [rewrite K3; apply H3|lia|]. left. split; [done|].
  rewrite K4. f_equal. apply H3.
Qed.

Lemma wp_runtil s b q d bs pat :
  own s b q d bs -> 0 < zlen pat ->
  wp (dpbuf_runtil b (Some pat) (zlen pat)) s (fun r s' => s' = s /\
    r = match memmem (sl b bs) pat with
        | Some i => (i + zlen pat, advance b (i + zlen pat))
        | None => (DPE_NODATA, advance b 0)
        end).
Proof.
  intros Ho Hp. assert (Hl := zlen_sl_own _ _ _ _ _ Ho). unfold dpbuf_runtil.
  set (b1 := with_rend (with_rbeg b (b_rend b)) (b_wbeg (with_rbeg b (b_rend b)))). assert (Hc := own_cur _ _ _ _ _ Ho). unfold cursors_ok, dpbuf_cesize in *.
  assert (Ho1 : own s b1 q d bs).
  { eapply own_cursors; [done| |done..]. unfold cursors_ok. cbn. lia. }
  assert (Hrd : rd b1 bs = sl b bs) by reflexivity.
  assert (Hcr : dpbuf_crsize b1 = b_wbeg b - b_rend b) by reflexivity.
  apply wp_bind. eapply wp_mono; [eapply (wp_cfind _ _ _ _ _ pat 0); [done|done|lia]|].
  intros r s' [-> ->]. rewrite zdrop_0, Hrd, Hcr.
  destruct (Z.ltb_spec (b_wbeg b - b_rend b) (zlen pat)) as [Hs|Hs].
  - destruct (memmem (sl b bs) pat) as [i|] eqn:Em.
    { pose proof (memmem_bound _ _ _ Hp Em). apply memmem_Some in Em. lia. }
    cbn. apply wp_ret. split; [done|]. unfold advance. cbn. by rewrite Z.add_0_r.
  - destruct (memmem (sl b bs) pat) as [i|] eqn:Em.
    + apply memmem_Some in Em as (Hi & _). destruct (Z.ltb_spec (0 + i) 0); [lia|].
      apply wp_ret. split; [done|]. by rewrite Z.add_0_l.
    + cbn. apply wp_ret. split; [done|]. unfold advance. cbn. by rewrite Z.add_0_r.
Qed.

(** ** The byte queue a buffer implements *)

(** One call on the buffer; a write names the source bytes [xs] at [src]. *)
Inductive bop :=
  | OWrite (src : ptr) (xs : list Z)
  | OFill (len v : Z)
  | ORdata (len : Z)
  | ORmust (len : Z)
  | ORall
  | ORws
  | ORcstr
  | ORuntil (pat : list Z).

Definition run_bop (o : bop) (b : dpbuf) : ST bstore (Z * dpbuf) :=
  match o with
  | OWrite src xs => dpbuf_wdata b (Some src) (zlen xs)
  | OFill len v => dpbuf_wfill b len v
  | ORdata len => mret (dpbuf_rdata b len)
  | ORmust len => mret (dpbuf_rmust b len)
  | ORall => mret (dpbuf_rall b)
  | ORws => dpbuf_rws b
  | ORcstr => dpbuf_rcstr b
  | ORuntil pat => dpbuf_runtil b (Some pat) (zlen pat)
  end.

Fixpoint run_bops (os : list bop) (b : dpbuf) : ST bstore (list Z * dpbuf) :=
  match os with
  | [] => mret ([], b)
  | o :: os =>
      '(r, b) ← run_bop o b;
      '(rs, b) ← run_bops os b;
      mret (r :: rs, b)
  end.

(** The queue: the window last read, and the bytes written and not yet read. *)
Definition queue : Type := list Z * list Z.

(** How many queued bytes a read takes, and what it returns. *)
Definition take_of (o : bop) (pending : list Z) : Z * Z :=
  match o with
  | OWrite _ _ | OFill _ _ => (0, 0)
  | ORdata len =>
      let n := if len <? 0 then zlen pending else Z.min len (zlen pending) in (n, n)
  | ORmust len => if (len <? 0) || (zlen pending <? len) then (0, DPE_NODATA) else (len, len)
  | ORall => (zlen pending, zlen pending)
  | ORws => (skip_ws pending, skip_ws pending)
  | ORcstr =>
      let n := match c_strlen pending with
               | Some k => if 0 <? k then k + 1 else 0
               | None => zlen pending
               end in (n, n)
  | ORuntil pat =>
      match memmem pending pat with
      | Some i => (i + zlen pat, i + zlen pat)
      | None => (0, DPE_NODATA)
      end
  end.

(** Writes append, or fail for want of memory unless the allocator [grants]
    everything; reads take from the front. *)
Definition queue_step (grants : Prop) (o : bop) (q : queue) (r : Z) (q' : queue) : Prop :=
  match o with
  | OWrite _ xs =>
      r = zlen xs /\ q' = (q.1, q.2 ++ xs) \/ r = DPE_NOMEM /\ ~ grants /\ q' = q
  | OFill len v =>
      r = len /\ q' = (q.1, q.2 ++ replicate (Z.to_nat len) (to_u8 v)) \/ r = DPE_NOMEM /\ ~ grants /\ q' = q
  | _ => let '(n, ret) := take_of o q.2 in r = ret /\ q' = (ztake n q.2, zdrop n q.2)
  end.

Inductive queue_run (grants : Prop) : list bop -> queue -> list Z -> queue -> Prop :=
  | qrun_nil q : queue_run grants [] q [] q
  | qrun_cons o os q r q1 rs q2 :
      queue_step grants o q r q1 -> queue_run grants os q1 rs q2 -> queue_run grants (o :: os) q (r :: rs) q2.

Lemma queue_step_weaken (g g' : Prop) o q r q' : (g' -> g) -> queue_step g o q r q' -> queue_step g' o q r q'.
Proof. intros Hg. destruct o; cbn; tauto. Qed.

Lemma queue_run_weaken (g g' : Prop) os q rs q' : (g' -> g) -> queue_run g os q rs q' -> queue_run g' os q rs q'.
Proof. intros Hg. induction 1; econstructor; eauto using queue_step_weaken. Qed.

(** The bytes that a call, and a sequence of calls, may add. *)
Definition adds (o : bop) : Z := match o with OWrite _ xs => zlen xs | OFill len _ => len | _ => 0 end.
Fixpoint written (os : list bop) : Z := match os with [] => 0 | o :: os => adds o + written os end.

(** The calls' preconditions: a write's source lies outside the buffer's own
    block and holds [xs]; lengths are not negative; patterns are not empty. *)
Definition bop_ok (s : bstore) (d : dpbuf_data) (o : bop) : Prop :=
  match o with
  | OWrite src xs => exists k, st_blks s !! p_blk src = Some k /\ p_blk src <> p_blk (d_data d) /\
      0 <= p_off src /\ 0 < zlen xs /\ p_off src + zlen xs <= zlen k /\
      xs = slice (p_off src) (zlen xs) k
  | OFill len _ => 0 <= len
  | ORuntil pat => 0 < zlen pat
  | _ => True
  end.

Lemma bop_ok_touches q s s' d bs d' bs' o :
  touches q s s' -> hdr s q d bs -> hdr s' q d' bs' -> bop_ok s d o -> bop_ok s' d' o.
Proof.
  intros Ht Hh Hh'. destruct o; cbn; auto. intros (k & Hk & Hne & Hr). exists k.
  split; [by eapply touches_block|]. split; [by eapply touches_new_block|done].
Qed.

Lemma adds_nonneg s d o : bop_ok s d o -> 0 <= adds o.
Proof. destruct o; cbn; try lia. intros (k & _ & _ & _ & ? & _). lia. Qed.

Lemma written_nonneg s d os : Forall (bop_ok s d) os -> 0 <= written os.
Proof. induction 1 as [|o os Ho _ IH]; cbn; [lia|]. pose proof (adds_nonneg _ _ _ Ho). lia. Qed.

Lemma wp_run_bop s b q d bs o :
  own s b q d bs -> bop_ok s d o -> b_wbeg b + adds o < GROW_SAFE ->
  wp (run_bop o b) s (fun res s' => exists d' bs', own s' res.2 q d' bs' /\ touches q s s' /\
    b_wbeg res.2 <= b_wbeg b + adds o /\
    queue_step (st_oom s = []) o (rd b bs, sl b bs) res.1 (rd res.2 bs', sl res.2 bs')).
Proof.
  intros Ho Hok Hsafe. assert (Hl := zlen_sl_own _ _ _ _ _ Ho).
  assert (Hc := own_cur _ _ _ _ _ Ho).
  assert (Hread : forall n (r : Z) s', s' = s -> 0 <= n <= zlen (sl b bs) ->
    exists d' bs', own s' (advance b n) q d' bs' /\ touches q s s' /\ b_wbeg (advance b n) <= b_wbeg b + 0 /\ r = r /\
      (rd (advance b n) bs', sl (advance b n) bs') = (ztake n (sl b bs), zdrop n (sl b bs))).
  { intros n r s' -> Hn. rewrite Hl in Hn. exists d, bs.
    destruct (windows_advance _ _ _ _ _ _ Ho Hn) as [-> ->].
    split_and!; auto using own_advance with dpbuf. cbn. lia. }
  destruct o as [src xs|len v|len|len| | | |pat]; cbn [run_bop adds] in *.
  - destruct Hok as (k & Hk & Hne & Hoff & Hx & Hin & Heq).
    eapply wp_mono; [eapply wp_wdata; eauto|].
    intros [r b'] s' (d' & bs' & H1 & H2 & H3 & Hw & H4). exists d', bs'. cbn in *.
    rewrite <-Heq in *. split_and!; auto.
    destruct H4 as [[-> H4]|(-> & ? & H4)]; [left|right]; by rewrite H3, H4.
  - cbn in Hok. eapply wp_mono; [by eapply wp_wfill|].
    intros [r b'] s' (d' & bs' & H1 & H2 & H3 & Hw & H4). exists d', bs'. cbn in *.
    rewrite zlen_replicate in Hw by lia. split_and!; auto.
    destruct H4 as [[-> H4]|(-> & ? & H4)]; [left|right]; by rewrite H3, H4.
  - apply wp_ret. destruct (rdata_advance b len Hc) as (n & -> & Hn & ->). rewrite <-Hl in *.
    by apply Hread.
  - apply wp_ret. rewrite rmust_advance. cbn [queue_step take_of]. rewrite <-Hl. cbn [snd].
    pose proof (zlen_nonneg (sl b bs)). destruct (_ || _) eqn:E; apply Hread; auto; lia.
  - apply wp_ret. rewrite rall_advance. rewrite <-Hl. pose proof (zlen_nonneg (sl b bs)).
    apply Hread; auto; cbn [snd]; lia.
  - eapply wp_mono; [by eapply wp_rws|]. intros res s' [-> ->]. apply Hread; auto.
    unfold skip_ws. apply index_of_default_bound.
  - eapply wp_mono; [by eapply wp_rcstr|]. intros res s' [-> (n & -> & ->)]. rewrite <-Hl.
    pose proof (zlen_nonneg (sl b bs)). apply Hread; [done|].
    destruct (c_strlen _) eqn:E; cbn [snd]; [|lia]. apply index_of_Some in E.
    destruct (Z.ltb_spec 0 z); cbn [snd] in *; lia.
  - eapply wp_mono; [by eapply wp_runtil|]. intros res s' [-> ->].
    cbn [queue_step take_of snd]. cbn in Hok. pose proof (zlen_nonneg (sl b bs)).
    destruct (memmem _ _) eqn:E; apply Hread; auto; [|lia].
    pose proof (memmem_bound _ _ _ Hok E). apply memmem_Some in E. lia.
Qed.

(** C4. A buffer that owns its storage is a byte queue: every sequence of
    writes and reads, as long as the write cursor and the bytes written stay below
    a gigabyte (beyond it [int] sums can overflow), runs without undefined
    behaviour, keeps the buffer's invariant across compaction and reallocation, and
    returns what the queue returns.  A write fails, changing nothing, only when the
    allocator refuses. *)
Theorem dpbuf_refines_queue s b q d bs os :
  own s b q d bs -> Forall (bop_ok s d) os -> b_wbeg b + written os < GROW_SAFE ->
  wp (run_bops os b) s (fun res s' => exists d' bs', own s' res.2 q d' bs' /\
    touches q s s' /\ queue_run (st_oom s = []) os (rd b bs, sl b bs) res.1 (rd res.2 bs', sl res.2 bs')).
Proof.
  revert s b d bs. induction os as [|o os IH]; intros s b d bs Ho Hok Hsafe; cbn [run_bops].
  { apply wp_ret. exists d, bs. split_and!; auto with dpbuf. constructor. }
  apply Forall_cons in Hok as [Hok1 Hok2]. cbn in Hsafe. pose proof (written_nonneg _ _ _ Hok2). apply wp_bind.
  eapply wp_mono; [eapply wp_run_bop; [done|done|lia]|]. intros [r b1] s1 (d1 & bs1 & H1 & H2 & Hw & H3). cbn in *.
  apply wp_bind. eapply wp_mono; [eapply IH; [exact H1| |lia]|].
  { eapply Forall_impl; [exact Hok2|]. intros o' Ho'.
    eapply bop_ok_touches; [exact H2 | apply Ho | apply H1 | exact Ho']. }
  intros [rs b2] s2 (d2 & bs2 & K1 & K2 & K3). apply wp_ret. exists d2, bs2. cbn in *.
  split_and!; eauto with dpbuf. econstructor; [exact H3|].
  eapply queue_run_weaken; [|exact K3]. apply (tch_oom _ _ _ H2).
Qed.

(** A buffer of eight bytes with [abc;d] written and nothing read. *)
Definition ex_bytes : list Z := [97; 98; 99; 59; 100; 0; 0; 0; 0].
Definition ex_data : dpbuf_data := BufData (Ptr 1 0) 8 0 1.
Definition ex_store : bstore :=
  BStore ∅ {[2%positive := ex_data]} {[1%positive := ex_bytes; 3%positive := [120; 121; 122]]} 4 [] (fun _ => 0).
Definition ex_buf : dpbuf := Buf 0 0 0 0 0 5 8 (Some 2%positive).

Lemma ex_own : own ex_store ex_buf 2 ex_data ex_bytes.
Proof.
  split; try done.
  split; try done; cbn.
  intros l Hl. destruct (decide (l = 1%positive)) as [->|]; [done|].
  destruct (decide (l = 3%positive)) as [->|]; [done|].
  rewrite lookup_insert_ne, lookup_singleton_ne in Hl by done. by destruct Hl.
Qed.

Definition ex_ops : list bop :=
  [ORuntil [59]; OWrite (Ptr 3 0) [120; 121; 122]; OFill 2 10; ORmust 6; ORall].

Lemma dpbuf_refines_queue_witness :
  wp (run_bops ex_ops ex_buf) ex_store (fun res s' => exists d' bs',
    own s' res.2 2 d' bs' /\ touches 2 ex_store s' /\
    queue_run ([] = @nil bool) ex_ops (rd ex_buf ex_bytes, sl ex_buf ex_bytes) res.1 (rd res.2 bs', sl res.2 bs')).
Proof.
  apply (dpbuf_refines_queue ex_store ex_buf 2 ex_data ex_bytes ex_ops ex_own); [|done].
  repeat constructor; try done.
  exists [120; 121; 122]. cbn. split_and!; done.
Defined.

(** The same calls, evaluated: a window, a growing write, a fill, a short
    read that takes everything, an empty tail. *)
Example ex_ops_run :
  (fun res => res.1.1) <$> run_bops ex_ops ex_buf ex_store = Some [4; 3; 2; 6; 0].
Proof. vm_compute. reflexivity. Qed.
