(* ===== verification/DpbufLife.v ===== *)
(** * Byte buffers: reference counts, seeks and borrowed storage

    [heap_ok] is the invariant of a heap of buffers: each header counts the
    structs that point to it and owns a block of its own.  Creating buffers
    and views and deleting them, in any order, keeps it. *)

From S2P Require Import Prelude Dpret Dpbuf DpbufFacts.

(** ** Counting references *)

Definition points_to (q : loc) (pb : loc * dpbuf) : Prop := b_data pb.2 = Some q.

#[export] Instance points_to_dec q pb : Decision (points_to q pb) := decide (_ = _).

Definition refs (q : loc) (m : gmap loc dpbuf) : Z := Z.of_nat (size (filter (points_to q) m)).

Lemma refs_insert_new q m p b :
  m !! p = None -> refs q (<[p := b]> m) = refs q m + (if decide (b_data b = Some q) then 1 else 0).
Proof.
  intros Hp. unfold refs. case_decide as Hd.
  - rewrite map_filter_insert_True by done. rewrite map_size_insert_None; [lia|].
    apply map_lookup_filter_None. by left.
  - rewrite map_filter_insert_False by done. rewrite delete_id by done. lia.
Qed.

Lemma refs_delete q m p b :
  m !! p = Some b -> refs q (delete p m) = refs q m - (if decide (b_data b = Some q) then 1 else 0).
Proof.
  intros Hp. rewrite <-(insert_delete_id m p b) at 2 by done.
  rewrite refs_insert_new by apply lookup_delete_eq. lia.
Qed.

Lemma refs_update q m p b b' :
  m !! p = Some b -> refs q (<[p := b']> m) = refs q m
    - (if decide (b_data b = Some q) then 1 else 0) + (if decide (b_data b' = Some q) then 1 else 0).
Proof.
  intros Hp. rewrite <-insert_delete_eq, refs_insert_new by apply lookup_delete_eq.
  by rewrite (refs_delete _ _ _ _ Hp).
Qed.

Lemma refs_pos q m p b : m !! p = Some b -> b_data b = Some q -> 0 < refs q m.
Proof.
  intros Hp Hb. assert (H := refs_delete q m p b Hp). rewrite decide_True in H by done.
  unfold refs in *. lia.
Qed.

Lemma refs_none q m : (forall p b, m !! p = Some b -> b_data b <> Some q) -> refs q m = 0.
Proof.
  intros H. unfold refs. replace (filter (points_to q) m) with (∅ : gmap loc dpbuf); [done|].
  symmetry. apply map_empty. intros p. apply map_lookup_filter_None. right. intros b Hp. apply (H p b Hp).
Qed.

(** ** The invariant *)

(** [ext] are the blocks that belong to someone else. *)
Record heap_ok (ext : gset loc) (s : bstore) : Prop := {
  hp_buf : forall p b, st_bufs s !! p = Some b ->
    (p < st_next s)%positive /\ cursors_ok b /\
    exists q d bs, b_data b = Some q /\ st_datas s !! q = Some d /\
      st_blks s !! p_blk (d_data d) = Some bs /\ b_size b <= d_maxs d /\ b_size b < zlen bs;
  hp_data : forall q d, st_datas s !! q = Some d ->
    (q < st_next s)%positive /\ 0 < d_refc d /\ d_refc d = refs q (st_bufs s) /\
    p_off (d_data d) = 0 /\ has_flag (d_flag d) DPBUF_CONSTDATA = false /\
    (p_blk (d_data d) ∉ ext) /\ is_Some (st_blks s !! p_blk (d_data d));
  hp_inj : forall q q' d d', st_datas s !! q = Some d -> st_datas s !! q' = Some d' ->
    p_blk (d_data d) = p_blk (d_data d') -> q = q';
  hp_blk : forall l, is_Some (st_blks s !! l) -> (l < st_next s)%positive /\
    (l ∈ ext \/ exists q d, st_datas s !! q = Some d /\ p_blk (d_data d) = l);
}.

(** The operations that create and destroy structs. *)
Inductive lop :=
  | LNew (size : Z)
  | LView (p : loc)
  | LDel (p : loc).

Definition run_lop (o : lop) : ST bstore (option loc) :=
  match o with
  | LNew size => dpbuf_new size
  | LView p => dpbuf_new_r (Some p)
  | LDel p => dpbuf_del (Some p);; mret None
  end.

Definition lop_live (s : bstore) (o : lop) : Prop :=
  match o with
  | LNew _ => True
  | LView p | LDel p => is_Some (st_bufs s !! p)
  end.

(** ** Allocation *)

(** The same memory, later. *)
Record same_mem (s s' : bstore) : Prop := {
  sm_bufs : st_bufs s' = st_bufs s;
  sm_datas : st_datas s' = st_datas s;
  sm_blks : st_blks s' = st_blks s;
  sm_next : (st_next s <= st_next s')%positive;
}.

Lemma heap_ok_same_mem ext s s' : same_mem s s' -> heap_ok ext s -> heap_ok ext s'.
Proof.
  intros [Hb Hd Hl Hn] [H1 H2 H3 H4]. split; rewrite ?Hb, ?Hd, ?Hl; auto.
  - intros p b Hp. destruct (H1 _ _ Hp) as (? & ?). split; [lia|done].
  - intros q d Hq. destruct (H2 _ _ Hq) as (? & ?). split; [lia|done].
  - intros l Hk. destruct (H4 _ Hk). split; [lia|done].
Qed.

(** Everything allocated lies below the next address. *)
Record fresh_ok (s : bstore) : Prop := {
  fo_bufs : forall p, is_Some (st_bufs s !! p) -> (p < st_next s)%positive;
  fo_datas : forall q, is_Some (st_datas s !! q) -> (q < st_next s)%positive;
  fo_blks : forall l, is_Some (st_blks s !! l) -> (l < st_next s)%positive;
}.

Lemma heap_ok_fresh ext s : heap_ok ext s -> fresh_ok s.
Proof.
  intros H. split.
  - intros p [b Hb]. by apply (hp_buf _ _ H) in Hb as [? _].
  - intros q [d Hd]. by apply (hp_data _ _ H) in Hd as [? _].
  - intros l Hl. by apply (hp_blk _ _ H) in Hl as [? _].
Qed.

Lemma next_not_in {A} (m : gmap loc A) (n p : loc) :
  (forall k, is_Some (m !! k) -> (k < n)%positive) -> (n <= p)%positive -> m !! p = None.
Proof. intros H Hp. destruct (m !! p) eqn:E; [|done]. specialize (H p (ltac:(eauto))). lia. Qed.

Lemma wp_free_data s q d (Q : unit -> bstore -> Prop) :
  st_datas s !! q = Some d -> Q tt (set_datas (delete q) s) -> wp (free_data q) s Q.
Proof. intros H HQ. unfold wp, free_data. by rewrite H. Qed.

Lemma wp_free_buf s (p : loc) b (Q : unit -> bstore -> Prop) :
  st_bufs s !! p = Some b -> Q tt (set_bufs (delete p) s) -> wp (free_buf p) s Q.
Proof. intros H HQ. unfold wp, free_buf. by rewrite H. Qed.

Lemma wp_free_blk s p bs (Q : unit -> bstore -> Prop) :
  st_blks s !! p_blk p = Some bs -> p_off p = 0 -> Q tt (set_blks (delete (p_blk p)) s) ->
  wp (free_blk p) s Q.
Proof. intros H Ho HQ. unfold wp, free_blk. by rewrite H, Ho. Qed.

Lemma wp_fresh_loc s (Q : loc -> bstore -> Prop) :
  Q (st_next s) (BStore (st_bufs s) (st_datas s) (st_blks s) (Pos.succ (st_next s))
                        (st_oom s) (st_fresh s)) -> wp fresh_loc s Q.
Proof. done. Qed.

(** A successful allocation of a header with its block. *)
Lemma wp_data_new s size :
  fresh_ok s ->
  wp (_dpbuf_data_new size) s (fun r s' => match r with
    | None => same_mem s s'
    | Some q => exists l bs, 0 <= size /\ (st_next s <= q)%positive /\ (q < l)%positive /\
        (l < st_next s')%positive /\ zlen bs = size + 1 /\ st_bufs s' = st_bufs s /\
        st_datas s' = <[q := BufData (Ptr l 0) size 0 1]> (st_datas s) /\
        st_blks s' = <[l := bs]> (st_blks s)
    end).
Proof.
  intros H. unfold _dpbuf_data_new. destruct (_ || _) eqn:E; [apply wp_ret; by split|].
  apply orb_false_iff in E as [E1%Z.ltb_ge E2%Z.leb_gt]. unfold INT_MAX in E2.
  apply wp_bind. unfold malloc_data. apply wp_bind, wp_malloc_ok. intros ok oom.
  destruct ok; [|apply wp_ret; split; cbn; auto; lia].
  apply wp_bind, wp_fresh_loc. apply wp_bind, wp_modify, wp_ret. cbn. set (q := st_next s).
  assert (Hq := next_not_in _ _ q (fo_datas _ H) ltac:(lia)).
  unfold malloc_blk. apply wp_bind, wp_bind, wp_malloc_ok. intros ok oom'. cbn. destruct ok.
  2: { apply wp_ret, wp_bind. eapply wp_free_data; [cbn; apply lookup_insert_eq|]. apply wp_ret.
       split; cbn; auto; [by rewrite delete_insert_id|lia]. }
  apply wp_bind, wp_fresh_loc. apply wp_bind, wp_modify, wp_ret. cbn. set (l := Pos.succ q).
  assert (Hl := next_not_in _ _ l (fo_blks _ H) ltac:(lia)).
  assert (to_u64 (size + 1) = size + 1) as -> by (apply Z.mod_small; lia).
  set (fb := fresh_bytes _ _ _).
  assert (zlen fb = size + 1) as Hfb by (apply zlen_fresh_bytes; lia).
  assert (zlen (splice 0 [0] fb) = size + 1) as Hfb' by (rewrite zlen_splice; rewrite ?zlen_one; lia).
  apply wp_bind. eapply wp_store_bytes; cbn; [apply lookup_insert_eq|lia|rewrite zlen_one; lia|].
  apply wp_bind. eapply wp_store_bytes; cbn; [apply lookup_insert_eq|lia|rewrite zlen_one; lia|].
  apply wp_bind. eapply wp_put_data; cbn; [apply lookup_insert_eq|].
  rewrite !insert_insert_eq. exists l, (splice size [0] (splice 0 [0] fb)).
  assert (zlen (splice size [0] (splice 0 [0] fb)) = size + 1)
    by (rewrite zlen_splice; rewrite ?zlen_one; lia).
  split_and!; auto; lia.
Qed.

Lemma wp_new s size :
  fresh_ok s ->
  wp (dpbuf_new size) s (fun r s' => match r with
    | None => same_mem s s'
    | Some p => exists q l bs, 0 <= size /\ p = st_next s /\ (p < q)%positive /\ (q < l)%positive /\
        (l < st_next s')%positive /\ zlen bs = size + 1 /\
        st_bufs s' = <[p := with_size (with_data zero_buf (Some q)) size]> (st_bufs s) /\
        st_datas s' = <[q := BufData (Ptr l 0) size 0 1]> (st_datas s) /\
        st_blks s' = <[l := bs]> (st_blks s)
    end).
Proof.
  intros H. unfold dpbuf_new, malloc_buf. apply wp_bind, wp_bind, wp_malloc_ok. intros ok oom.
  destruct ok; [|apply wp_ret, wp_bind, wp_ret, wp_ret; split; cbn; auto; lia].
  apply wp_bind, wp_fresh_loc. apply wp_bind, wp_modify, wp_ret, wp_bind. cbn. set (p := st_next s).
  assert (Hp := next_not_in _ _ p (fo_bufs _ H) ltac:(lia)).
  unfold dpbuf_init. destruct (Z.ltb_spec size 0).
  { apply wp_ret, wp_bind. eapply wp_free_buf; [cbn; apply lookup_insert_eq|]. apply wp_ret.
    split; cbn; auto; [by rewrite delete_insert_id|lia]. }
  apply wp_bind. eapply wp_put_buf; [cbn; apply lookup_insert_eq|]. cbn.
  set (s1 := set_bufs _ _).
  assert (Hf : fresh_ok s1).
  { destruct H as [H1 H2 H3]. split; cbn; intros k Hk.
    - rewrite insert_insert_eq in Hk. apply lookup_insert_is_Some in Hk as [<-|[_ Hk%H1]]; lia.
    - apply H2 in Hk. lia.
    - apply H3 in Hk. lia. }
  apply wp_bind. eapply wp_mono; [by apply wp_data_new|]. cbv beta.
  intros [q|] s2.
  - intros (l & bs & H1 & H2 & H3 & H4 & H5 & H6 & H7 & H8). cbn in *.
    apply wp_bind. eapply wp_put_buf; [rewrite H6; cbn; apply lookup_insert_eq|].
    apply wp_bind. eapply wp_put_buf; [cbn; apply lookup_insert_eq|]. cbn.
    rewrite H6, !insert_insert_eq. exists q, l, bs. split_and!; auto; lia.
  - intros [H1 H2 H3 H4]. cbn in *.
    apply wp_bind. eapply wp_put_buf; [rewrite H1; cbn; apply lookup_insert_eq|].
    apply wp_ret. cbn. apply wp_bind. eapply wp_free_buf; [cbn; apply lookup_insert_eq|]. cbn.
    split; cbn; auto; [|lia]. rewrite H1, !insert_insert_eq. by apply delete_insert_id.
Qed.

Lemma wp_new_r s p b q d :
  fresh_ok s -> st_bufs s !! p = Some b -> b_data b = Some q -> st_datas s !! q = Some d ->
  wp (dpbuf_new_r (Some p)) s (fun r s' => match r with
    | None => same_mem s s'
    | Some v => v = st_next s /\ st_next s' = Pos.succ v /\
        st_bufs s' = <[v := with_size (with_wbeg b (b_rend b)) (b_rend b)]> (st_bufs s) /\
        st_datas s' = <[q := BufData (d_data d) (d_maxs d) (d_flag d) (d_refc d + 1)]> (st_datas s) /\
        st_blks s' = st_blks s
    end).
Proof.
  intros H Hb Hd Hq. unfold dpbuf_new_r. apply wp_bind. eapply wp_get_buf; [done|]. rewrite Hd.
  unfold malloc_buf. apply wp_bind, wp_bind, wp_malloc_ok. intros ok oom.
  destruct ok; [|apply wp_ret, wp_ret; split; cbn; auto; lia].
  apply wp_bind, wp_fresh_loc. apply wp_bind, wp_modify, wp_ret, wp_bind. cbn. set (v := st_next s).
  assert (Hv := next_not_in _ _ v (fo_bufs _ H) ltac:(lia)).
  assert (v <> p) by (intros ->; congruence).
  eapply wp_put_buf; [cbn; apply lookup_insert_eq|]. apply wp_bind.
  unfold _dpbuf_data_ref. apply wp_bind. eapply wp_get_data; [cbn; done|].
  eapply wp_put_data; [cbn; done|]. apply wp_bind.
  eapply wp_put_buf; [cbn; apply lookup_insert_eq|]. apply wp_bind. unfold dpbuf_cpusr.
  apply wp_bind. eapply wp_get_buf; [cbn; by rewrite !lookup_insert_ne|].
  apply wp_bind. eapply wp_get_buf; [cbn; apply lookup_insert_eq|].
  eapply wp_put_buf; [cbn; apply lookup_insert_eq|]. cbn. rewrite !insert_insert_eq.
  by split_and!.
Qed.

Lemma heap_ok_new ext s s' p q l bs size :
  heap_ok ext s -> (forall l, l ∈ ext -> (l < st_next s)%positive) -> 0 <= size ->
  p = st_next s -> (p < q)%positive -> (q < l)%positive -> (l < st_next s')%positive ->
  zlen bs = size + 1 ->
  st_bufs s' = <[p := with_size (with_data zero_buf (Some q)) size]> (st_bufs s) ->
  st_datas s' = <[q := BufData (Ptr l 0) size 0 1]> (st_datas s) ->
  st_blks s' = <[l := bs]> (st_blks s) -> heap_ok ext s'.
Proof.
  intros H Hext Hs -> Hpq Hql Hl Hbs Eb Ed El. assert (Hf := heap_ok_fresh _ _ H).
  assert (Hp := next_not_in _ _ (st_next s) (fo_bufs _ Hf) ltac:(lia)).
  assert (Hq := next_not_in _ _ q (fo_datas _ Hf) ltac:(lia)).
  assert (Hl' := next_not_in _ _ l (fo_blks _ Hf) ltac:(lia)).
  assert (Hne : forall q' d, st_datas s !! q' = Some d -> p_blk (d_data d) <> l).
  { intros q' d Hd <-. destruct (hp_data _ _ H _ _ Hd) as (_&_&_&_&_&_&[? E]). congruence. }
  split; rewrite ?Eb, ?Ed, ?El.
  - intros p' b [[<- <-]|[Hne' Hb]]%lookup_insert_Some.
    + split; [lia|]. split; [unfold cursors_ok; cbn; lia|].
      exists q, (BufData (Ptr l 0) size 0 1), bs. cbn. rewrite !lookup_insert_eq.
      split_and!; try done; lia.
    + destruct (hp_buf _ _ H _ _ Hb) as (? & ? & q' & d & bs' & A & B & C & D).
      split; [lia|]. split; [done|]. exists q', d, bs'.
      assert (q <> q') by congruence. assert (l <> p_blk (d_data d)) by (intros E; by apply (Hne _ _ B)).
      by rewrite !lookup_insert_ne.
  - intros q' d [[<- <-]|[Hne' Hb]]%lookup_insert_Some; cbn; rewrite refs_insert_new by done; cbn.
    + rewrite decide_True by done. rewrite lookup_insert_eq.
      rewrite refs_none.
      2: { intros p' b Hb Ho. destruct (hp_buf _ _ H _ _ Hb) as (? & ? & q' & d & ? & A & B & _).
           congruence. }
      split_and!; try done; [lia|]. intros Hin%Hext. lia.
    + rewrite decide_False by congruence.
      destruct (hp_data _ _ H _ _ Hb) as (A & B & C & D & E & F & G).
      rewrite lookup_insert_ne by (intros ->; by apply (Hne _ _ Hb)). split_and!; auto; lia.
  - intros q1 q2 d1 d2 [[<- <-]|[N1 E1]]%lookup_insert_Some [[<- <-]|[N2 E2]]%lookup_insert_Some E;
      cbn in E; try done.
    + by destruct (Hne _ _ E2).
    + by destruct (Hne _ _ E1).
    + eapply (hp_inj _ _ H); eauto.
  - intros l' [<-|[N Hk]]%lookup_insert_is_Some.
    + split; [done|]. right. eexists q, _. rewrite lookup_insert_eq. done.
    + destruct (hp_blk _ _ H _ Hk) as [? [?|(q' & d & Hd & <-)]]; (split; [lia|]); [by left|].
      right. exists q', d. rewrite lookup_insert_ne by congruence. done.
Qed.

Lemma heap_ok_view ext s s' p b q d v :
  heap_ok ext s -> st_bufs s !! p = Some b -> b_data b = Some q -> st_datas s !! q = Some d ->
  v = st_next s -> st_next s' = Pos.succ v ->
  st_bufs s' = <[v := with_size (with_wbeg b (b_rend b)) (b_rend b)]> (st_bufs s) ->
  st_datas s' = <[q := BufData (d_data d) (d_maxs d) (d_flag d) (d_refc d + 1)]> (st_datas s) ->
  st_blks s' = st_blks s -> heap_ok ext s'.
Proof.
  intros H Hb Hbd Hd -> Hn Eb Ed El. assert (Hf := heap_ok_fresh _ _ H).
  assert (Hv := next_not_in _ _ (st_next s) (fo_bufs _ Hf) ltac:(lia)).
  set (d' := BufData _ _ _ _) in *.
  assert (Hold : forall q1 d1, st_datas s' !! q1 = Some d1 ->
    exists d0, st_datas s !! q1 = Some d0 /\ d_data d1 = d_data d0 /\ d_maxs d1 = d_maxs d0 /\
      d_flag d1 = d_flag d0 /\ d_refc d1 = d_refc d0 + (if decide (Some q = Some q1) then 1 else 0)).
  { intros q1 d1. rewrite Ed. intros [[<- <-]|[N E]]%lookup_insert_Some.
    - exists d. rewrite decide_True by done. by split_and!.
    - exists d1. rewrite decide_False by congruence. split_and!; auto. lia. }
  assert (Hnew : forall q1 d0, st_datas s !! q1 = Some d0 ->
    exists d1, st_datas s' !! q1 = Some d1 /\ d_data d1 = d_data d0 /\ d_maxs d1 = d_maxs d0).
  { intros q1 d0 E. rewrite Ed. destruct (decide (q = q1)) as [<-|].
    - rewrite lookup_insert_eq. exists d'. split; [done|]. by simplify_eq.
    - rewrite lookup_insert_ne by done. eauto. }
  split; rewrite ?El.
  - intros p' b'. rewrite Eb, Hn. intros [[<- <-]|[Hne' Hb']]%lookup_insert_Some.
    + destruct (hp_buf _ _ H _ _ Hb) as (A & B & q' & d0 & bs' & C & D & E & F & G).
      split; [lia|]. unfold cursors_ok in *. split; [cbn; lia|].
      destruct (Hnew _ _ D) as (d1 & K1 & K2 & K3). exists q', d1, bs'. rewrite K2, K3.
      split_and!; try done; cbn; lia.
    + destruct (hp_buf _ _ H _ _ Hb') as (A & B & q' & d0 & bs' & C & D & E & F & G).
      split; [lia|]. split; [done|]. destruct (Hnew _ _ D) as (d1 & K1 & K2 & K3).
      exists q', d1, bs'. rewrite K2, K3. split_and!; try done; lia.
  - intros q1 d1 (d0 & A & B & C & D & E)%Hold. rewrite Eb, refs_insert_new by done.
    destruct (hp_data _ _ H _ _ A) as (F1 & F2 & F3 & F4 & F5 & F6 & F7). rewrite B, D.
    unfold with_size, with_wbeg, with_cur; cbn [b_data]. rewrite Hbd, E.
    split_and!; auto; try lia. destruct (decide _); lia.
  - intros q1 q2 d1 d2 (e1 & A1 & B1 & _)%Hold (e2 & A2 & B2 & _)%Hold. rewrite B1, B2.
    by apply (hp_inj _ _ H).
  - intros l Hl. destruct (hp_blk _ _ H _ Hl) as [? [?|(q' & d0 & Hd0 & <-)]]; (split; [lia|]); [by left|].
    right. destruct (Hnew _ _ Hd0) as (d1 & ? & K & _). exists q', d1. by rewrite K.
Qed.

(** Deleting a struct: the header loses a reference and goes with the last. *)
Lemma wp_del ext s p b :
  heap_ok ext s -> st_bufs s !! p = Some b ->
  wp (dpbuf_del (Some p)) s (fun _ s' => exists q d, b_data b = Some q /\ st_datas s !! q = Some d /\
    st_next s' = st_next s /\ st_bufs s' = delete p (st_bufs s) /\
    if decide (d_refc d = 1)
    then st_datas s' = delete q (st_datas s) /\ st_blks s' = delete (p_blk (d_data d)) (st_blks s)
    else st_datas s' = <[q := BufData (d_data d) (d_maxs d) (d_flag d) (d_refc d - 1)]> (st_datas s) /\
         st_blks s' = st_blks s).
Proof.
  intros H Hb. destruct (hp_buf _ _ H _ _ Hb) as (_ & _ & q & d & bs & Hq & Hd & Hbs & _).
  destruct (hp_data _ _ H _ _ Hd) as (_ & _ & _ & Ho & Hc & _).
  unfold dpbuf_del. apply wp_bind. eapply wp_get_buf; [done|]. rewrite Hq.
  apply wp_bind. unfold _dpbuf_data_del. apply wp_bind. eapply wp_get_data; [done|].
  apply wp_bind. eapply wp_put_data; [done|]. destruct (Z.eqb_spec (d_refc d) 1) as [E|E].
  - rewrite Hc. cbn [negb]. apply wp_bind. eapply wp_free_blk; [done..|].
    eapply wp_free_data; [cbn; apply lookup_insert_eq|]. eapply wp_free_buf; [done|]. cbn.
    exists q, d. rewrite decide_True by done. split_and!; try done. by rewrite delete_insert_eq.
  - apply wp_ret. eapply wp_free_buf; [done|]. cbn. exists q, d. rewrite decide_False by done. done.
Qed.

Lemma heap_ok_del ext s s' p b q d :
  heap_ok ext s -> st_bufs s !! p = Some b -> b_data b = Some q -> st_datas s !! q = Some d ->
  st_next s' = st_next s -> st_bufs s' = delete p (st_bufs s) ->
  (if decide (d_refc d = 1)
   then st_datas s' = delete q (st_datas s) /\ st_blks s' = delete (p_blk (d_data d)) (st_blks s)
   else st_datas s' = <[q := BufData (d_data d) (d_maxs d) (d_flag d) (d_refc d - 1)]> (st_datas s) /\
        st_blks s' = st_blks s) -> heap_ok ext s'.
Proof.
  intros H Hb Hbd Hd Hn Eb Hcase. assert (Hr := refs_delete q _ _ _ Hb). rewrite decide_True in Hr by done.
  destruct (hp_data _ _ H _ _ Hd) as (_ & Hpos & Href & _).
  case_decide as Hone; destruct Hcase as [Ed El].
  - (* the last reference: nobody else points to the header *)
    assert (Hno : forall p' b', p' <> p -> st_bufs s !! p' = Some b' -> b_data b' <> Some q).
    { intros p' b' Hne Hb' Hq'.
      assert (0 < refs q (delete p (st_bufs s))); [|lia].
      eapply refs_pos; [|done]. by rewrite lookup_delete_ne. }
    split; rewrite ?Eb, ?Ed, ?El, ?Hn.
    + intros p' b' [Hne Hb']%lookup_delete_Some.
      destruct (hp_buf _ _ H _ _ Hb') as (A & B & q' & d0 & bs' & C & D & E & F & G).
      split; [done|]. split; [done|]. assert (q' <> q) by (intros ->; by eapply (Hno p')).
      exists q', d0, bs'. rewrite !lookup_delete_ne; auto.
      intros Ebk. by eapply (hp_inj _ _ H _ _ _ _ Hd D) in Ebk.
    + intros q' d0 [Hne Hd0]%lookup_delete_Some. rewrite (refs_delete _ _ _ _ Hb), decide_False by congruence.
      destruct (hp_data _ _ H _ _ Hd0) as (F1 & F2 & F3 & F4 & F5 & F6 & F7).
      split_and!; auto; [lia|]. rewrite lookup_delete_ne; [done|].
      intros Ebk. by eapply (hp_inj _ _ H _ _ _ _ Hd Hd0) in Ebk.
    + intros q1 q2 d1 d2 [_ E1]%lookup_delete_Some [_ E2]%lookup_delete_Some. by apply (hp_inj _ _ H).
    + intros l [Hne Hl]%lookup_delete_is_Some. destruct (hp_blk _ _ H _ Hl) as [? [?|(q' & d0 & Hd0 & <-)]];
        (split; [done|]); [by left|]. right. exists q', d0. split; [|done].
      apply lookup_delete_Some. split; [|done]. intros ->. simplify_eq.
  - assert (Hnew : forall q1 d0, st_datas s !! q1 = Some d0 ->
      exists d1, st_datas s' !! q1 = Some d1 /\ d_data d1 = d_data d0 /\ d_maxs d1 = d_maxs d0).
    { intros q1 d0 E. rewrite Ed. destruct (decide (q = q1)) as [<-|].
      - rewrite lookup_insert_eq. simplify_eq. eauto.
      - rewrite lookup_insert_ne by done. eauto. }
    split; rewrite ?El, ?Hn.
    + intros p' b'. rewrite Eb. intros [Hne Hb']%lookup_delete_Some.
      destruct (hp_buf _ _ H _ _ Hb') as (A & B & q' & d0 & bs' & C & D & E & F & G).
      split; [done|]. split; [done|]. destruct (Hnew _ _ D) as (d1 & K1 & K2 & K3).
      exists q', d1, bs'. rewrite K2, K3. done.
    + intros q' d0. rewrite Ed, Eb, (refs_delete _ _ _ _ Hb), Hbd.
      intros [[<- <-]|[Hne Hd0]]%lookup_insert_Some.
      * rewrite decide_True by done. destruct (hp_data _ _ H _ _ Hd) as (F1 & F2 & F3 & F4 & F5 & F6 & F7).
        cbn. split_and!; auto; lia.
      * rewrite decide_False by congruence.
        destruct (hp_data _ _ H _ _ Hd0) as (F1 & F2 & F3 & F4 & F5 & F6 & F7). split_and!; auto; lia.
    + intros q1 q2 d1 d2. rewrite Ed. intros [[<- <-]|[N1 E1]]%lookup_insert_Some
        [[<- <-]|[N2 E2]]%lookup_insert_Some E; cbn in E; try done; eapply (hp_inj _ _ H); eauto.
    + intros l Hl. destruct (hp_blk _ _ H _ Hl) as [? [?|(q' & d0 & Hd0 & <-)]]; (split; [done|]); [by left|].
      right. destruct (Hnew _ _ Hd0) as (d1 & ? & K & _). exists q', d1. by rewrite K.
Qed.

Lemma wp_run_lop ext s o :
  heap_ok ext s -> (forall l, l ∈ ext -> (l < st_next s)%positive) -> lop_live s o ->
  wp (run_lop o) s (fun _ s' => heap_ok ext s' /\ (st_next s <= st_next s')%positive).
Proof.
  intros H Hext Hlive. assert (Hf := heap_ok_fresh _ _ H). destruct o as [size|p|p]; cbn in *.
  - eapply wp_mono; [by apply wp_new|]. intros [p|] s'.
    + intros (q & l & bs & ? & -> & ? & ? & ? & ? & ? & ? & ?).
      split; [eapply heap_ok_new; [done|done| |reflexivity|..]; eauto | lia].
    + intros Hs. split; [by eapply heap_ok_same_mem|apply Hs].
  - destruct Hlive as [b Hb]. destruct (hp_buf _ _ H _ _ Hb) as (_ & _ & q & d & bs & Hq & Hd & _).
    eapply wp_mono; [by eapply wp_new_r|]. intros [v|] s'.
    + intros (-> & ? & ? & ? & ?). split; [eapply heap_ok_view; eauto|lia].
    + intros Hs. split; [by eapply heap_ok_same_mem|apply Hs].
  - destruct Hlive as [b Hb]. apply wp_bind. eapply wp_mono; [by eapply wp_del|].
    intros _ s' (q & d & ? & ? & ? & ? & ?). apply wp_ret. split; [eapply heap_ok_del; eauto|lia].
Qed.

(** ** Sequences of creations, views and deletions *)

(** Each operation names a live struct and has run without undefined behaviour. *)
Inductive lrun : bstore -> list lop -> bstore -> Prop :=
  | lrun_nil s : lrun s [] s
  | lrun_cons s o r s1 os s2 :
      lop_live s o -> run_lop o s = Some (r, s1) -> lrun s1 os s2 -> lrun s (o :: os) s2.

Definition empty_store : bstore := BStore ∅ ∅ ∅ 1 [] (fun _ => 0).

Lemma heap_ok_empty : heap_ok ∅ empty_store.
Proof.
  split; cbn; try done. intros l [? Hl]. done.
Qed.

Lemma lrun_heap_ok ext s os s' :
  heap_ok ext s -> (forall l, l ∈ ext -> (l < st_next s)%positive) -> lrun s os s' ->
  heap_ok ext s' /\ forall l, l ∈ ext -> (l < st_next s')%positive.
Proof.
  intros H Hext Hrun. induction Hrun as [s|s o r s1 os s2 Hl Hr Hrun IH]; [done|].
  pose proof (wp_run_lop _ _ _ H Hext Hl) as Hw. unfold wp in Hw. rewrite Hr in Hw.
  destruct Hw as [H1 Hn]. apply IH; [done|]. intros l Hin%Hext. lia.
Qed.

(** C19. No sequence of [dpbuf_new], [dpbuf_new_r] and [dpbuf_del] on live
    structs frees a block twice, uses freed memory or leaks: the next operation
    on a live struct always runs, each header's count is the number of structs
    that point to it, and when the last struct is gone so are all headers and
    every block but the ones that belong to somebody else. *)
Theorem dpbuf_lifecycle_safe ext s os s' :
  heap_ok ext s -> (forall l, l ∈ ext -> (l < st_next s)%positive) -> lrun s os s' ->
  heap_ok ext s' /\
  (forall o, lop_live s' o -> exists r s'', run_lop o s' = Some (r, s'')) /\
  (st_bufs s' = ∅ -> st_datas s' = ∅ /\ forall l, is_Some (st_blks s' !! l) -> l ∈ ext).
Proof.
  intros H Hext Hrun. destruct (lrun_heap_ok _ _ _ _ H Hext Hrun) as [H' Hext'].
  split; [done|]. split.
  - intros o Ho. pose proof (wp_run_lop _ _ _ H' Hext' Ho) as Hw.
    apply wp_run in Hw as (r & s'' & ? & _). eauto.
  - intros Hb. assert (Hd : st_datas s' = ∅).
    { apply map_empty. intros q. destruct (st_datas s' !! q) as [d|] eqn:E; [|done].
      destruct (hp_data _ _ H' _ _ E) as (_ & Hp & Hr & _). rewrite Hb in Hr.
      rewrite refs_none in Hr by done. lia. }
    split; [done|]. intros l Hl. destruct (hp_blk _ _ H' _ Hl) as [_ [?|(q & d & Hq & _)]]; [done|].
    by rewrite Hd in Hq.
Qed.

Definition life_example : list lop := [LNew 4; LView 1; LDel 1; LDel 4].

Lemma life_example_runs : exists s', lrun empty_store life_example s' /\ st_bufs s' = ∅.
Proof.
  unfold life_example. eexists. split.
  - repeat (econstructor; [cbn; eauto|vm_compute; reflexivity|]); constructor.
  - vm_compute. reflexivity.
Qed.

Lemma dpbuf_lifecycle_safe_witness :
  exists s', lrun empty_store life_example s' /\ st_datas s' = ∅.
Proof.
  destruct life_example_runs as (s' & Hr & Hb). exists s'. split; [exact Hr|].
  apply (dpbuf_lifecycle_safe ∅ empty_store life_example s' heap_ok_empty); [done|exact Hr|exact Hb].
Defined.

(** ** Seeks *)

Lemma iclamp_spec v l h : l <= h -> _iclamp v l h = Z.max l (Z.min h v).
Proof. unfold _iclamp. intros. destruct (Z.ltb_spec v l); case_match; lia. Qed.

Inductive sop := SRead | SWrite | SEnd.

Definition run_seek (o : sop) (b : dpbuf) (offset seek : Z) : ST bstore (Z * dpbuf) :=
  match o with
  | SRead => dpbuf_rseek b offset seek
  | SWrite => dpbuf_wseek b offset seek
  | SEnd => dpbuf_eseek b offset seek
  end.

Definition cursor_of (o : sop) (b : dpbuf) : Z :=
  match o with SRead => b_rbeg b | SWrite => b_wbeg b | SEnd => b_rend b end.

Definition set_cursor (o : sop) (b : dpbuf) (v : Z) : dpbuf :=
  match o with SRead => with_rbeg b v | SWrite => with_wbeg b v | SEnd => with_rend b v end.

Definition seek_base (o : sop) (b : dpbuf) (seek : Z) : Z :=
  if seek =? SEEK_SET then match o with SRead => 0 | SWrite => b_rend b | SEnd => b_rbeg b end
  else if seek =? SEEK_CUR then cursor_of o b
  else match o with SRead => b_rend b | SWrite => b_size b | SEnd => b_wbeg b end.

Definition seek_limits (o : sop) (b : dpbuf) : Z * Z :=
  match o with
  | SRead => (0, b_rend b)
  | SWrite => (b_rend b, b_size b)
  | SEnd => (b_rbeg b, b_wbeg b)
  end.

(** Where a seek puts its cursor: the target, brought within the limits. *)
Definition seek_to (o : sop) (b : dpbuf) (offset seek : Z) : Z :=
  if (0 <=? seek) && (seek <=? 2) then
    Z.max (fst (seek_limits o b)) (Z.min (snd (seek_limits o b)) (seek_base o b seek + offset))
  else cursor_of o b.

Lemma set_cursor_id o b : set_cursor o b (cursor_of o b) = b.
Proof. by destruct o, b. Qed.

Lemma seek_set o b v : cursors_ok b -> fst (seek_limits o b) <= v <= snd (seek_limits o b) ->
  cursors_ok (set_cursor o b v).
Proof. unfold cursors_ok. destruct o; cbn; lia. Qed.

(** C32. A seek is defined exactly when the base and the offset add up within
    [int] (an unknown mode adds nothing).  It then puts its cursor at the target,
    brought within the cursor's limits, returns the displacement, changes nothing
    else, and keeps the cursors in order. *)
Theorem dpbuf_seek_spec o b offset seek s :
  cursors_ok b ->
  let sum := if (0 <=? seek) && (seek <=? 2) then seek_base o b seek + offset else 0 in
  let v := seek_to o b offset seek in
  (is_i32 sum -> run_seek o b offset seek s = Some ((v - cursor_of o b, set_cursor o b v), s)) /\
  (~ is_i32 sum -> run_seek o b offset seek s = None) /\ cursors_ok (set_cursor o b v).
Proof.
  intros Hc. cbv zeta. assert (Hcc := Hc). unfold cursors_ok in Hc.
  assert (Hlim : fst (seek_limits o b) <= snd (seek_limits o b)) by (destruct o; cbn; lia).
  unfold seek_to. destruct ((0 <=? seek) && (seek <=? 2)) eqn:E.
  2: { rewrite set_cursor_id, Z.sub_diag. split_and!; [intros _|intros Hn; destruct Hn; by split|done].
       destruct o; cbn; unfold dpbuf_rseek, dpbuf_wseek, dpbuf_eseek, SEEK_SET, SEEK_CUR, SEEK_END;
         replace (seek =? 0) with false by lia; replace (seek =? 1) with false by lia;
         replace (seek =? 2) with false by lia; cbv zeta; unfold mbind, ST_bind, mret, ST_ret; by rewrite Z.sub_diag. }
  split_and!; [| |apply seek_set; [done|lia]].
  all: intros Hs; assert (Hcases : seek = 0 \/ seek = 1 \/ seek = 2) by lia;
    destruct o, Hcases as [->|[->| ->]]; cbn in *;
    unfold dpbuf_rseek, dpbuf_wseek, dpbuf_eseek, mbind, ST_bind, lift_opt; cbn;
    first [rewrite int_val_id by exact Hs | rewrite int_val_None by exact Hs]; cbn;
    rewrite ?iclamp_spec by lia; done.
Qed.

Lemma dpbuf_seek_spec_witness :
  let b := Buf 0 0 0 1 4 6 8 None in
  dpbuf_rseek b 2 SEEK_CUR empty_store = Some ((2, with_rbeg b 3), empty_store) /\
  dpbuf_rseek b INT_MAX SEEK_CUR empty_store = None.
Proof.
  assert (Hc : cursors_ok (Buf 0 0 0 1 4 6 8 None)) by (unfold cursors_ok; cbn; lia).
  split.
  - apply (dpbuf_seek_spec SRead (Buf 0 0 0 1 4 6 8 None) 2 SEEK_CUR empty_store Hc).
    unfold is_i32, INT_MIN, INT_MAX. cbn. lia.
  - apply (dpbuf_seek_spec SRead (Buf 0 0 0 1 4 6 8 None) INT_MAX SEEK_CUR empty_store Hc).
    unfold is_i32, INT_MIN, INT_MAX. cbn. lia.
Defined.
