(* ===== verification/DpbufCases.v ===== *)
(** * Byte buffers: borrowed storage, growth and failing paths

    The behaviours of [dpbuf.c] at the edges of its contract: growing a buffer
    over borrowed storage, delimiters given with a negative length, transfers
    that run out of memory, and the rounding of capacities. *)

From S2P Require Import Prelude Dpret Dpbuf DpbufFacts.

(** ** Capacities *)

(** [y] has no bit above [n], and the top [m] bits up to [n] are all ones. *)
Definition top_ones (n m y : Z) : Prop :=
  (forall i, n < i -> Z.testbit y i = false) /\
  (forall i, 0 <= i -> n - m < i <= n -> Z.testbit y i = true).

Lemma top_ones_smear n m y :
  0 <= m -> top_ones n m y -> top_ones n (2 * m) (Z.lor y (Z.shiftr y m)).
Proof.
  intros Hm [Hz Ho]. split; intros i Hi.
  - destruct (Z.lt_ge_cases i 0); [by apply Z.testbit_neg_r|].
    rewrite Z.lor_spec, Z.shiftr_spec, !Hz by lia. done.
  - intros Hr. rewrite Z.lor_spec, Z.shiftr_spec by done.
    destruct (Z.lt_ge_cases (n - m) i).
    + by rewrite Ho by lia.
    + rewrite (Ho (i + m)) by lia. apply orb_true_r.
Qed.

Lemma top_ones_all n m y : 0 <= n < m -> top_ones n m y -> y = Z.ones (n + 1).
Proof.
  intros Hn [Hz Ho]. apply Z.bits_inj'. intros i Hi. rewrite Z.testbit_ones_nonneg by lia.
  destruct (Z.ltb_spec i (n + 1)); [apply Ho; lia|apply Hz; lia].
Qed.

Lemma top_ones_log2 x : 0 < x -> top_ones (Z.log2 x) 1 x.
Proof.
  intros Hx. split; intros i Hi.
  - apply Z.bits_above_log2; lia.
  - intros Hr. replace i with (Z.log2 x) by lia. by apply Z.bit_log2.
Qed.

Lemma pow_min_value_pow2 v :
  1 < v <= 65536 -> _pow_min_value v = Some (2 ^ (Z.log2 (v - 1) + 1)).
Proof.
  intros Hv. unfold _pow_min_value. destruct (Z.eqb_spec v 0); [lia|].
  rewrite int_val_id by (unfold is_i32, INT_MIN, INT_MAX; lia). cbn [mbind option_bind]. cbv zeta.
  assert (Hl : 0 <= Z.log2 (v - 1) < 16).
  { split; [apply Z.log2_nonneg|]. apply Z.log2_lt_pow2; lia. }
  assert (H := top_ones_log2 (v - 1) ltac:(lia)).
  apply (top_ones_smear _ 1) in H; [|lia]. apply (top_ones_smear _ 2) in H; [|lia].
  apply (top_ones_smear _ 4) in H; [|lia]. apply (top_ones_smear _ 8) in H; [|lia].
  apply top_ones_all in H; [|lia]. rewrite H, Z.ones_equiv.
  assert (2 ^ (Z.log2 (v - 1) + 1) <= 2 ^ 16) by (apply Z.pow_le_mono_r; lia).
  assert (0 < 2 ^ (Z.log2 (v - 1) + 1)) by (apply Z.pow_pos_nonneg; lia).
  rewrite int_val_id by (unfold is_i32, INT_MIN, INT_MAX; lia). f_equal. lia.
Qed.

(** Up to [2^16] the capacity chosen for a request is the least power of
    two that holds it; up to [2^30] it is at least the request. *)
Theorem pow_min_value_spec v :
  0 < v <= GROW_SAFE -> exists r, _pow_min_value v = Some r /\ v <= r <= GROW_SAFE /\
    (v <= 65536 -> r < 2 * v /\ exists k, 0 <= k /\ r = 2 ^ k).
Proof.
  intros Hv. destruct (pow_min_value_bound v Hv) as (r & Hr & Hb). exists r. split_and!; [done|lia..|]. intros Hs.
  destruct (Z.eq_dec v 1) as [->|]; [injection Hr as <-; split; [done|by exists 0]|].
  rewrite pow_min_value_pow2 in Hr by lia. injection Hr as <-. pose proof (Z.log2_nonneg (v - 1)).
  split; [|eexists; split; [|reflexivity]; lia].
  pose proof (Z.log2_spec (v - 1) ltac:(lia)).
  rewrite Z.pow_add_r, Z.pow_succ_r in * by lia. lia.
Qed.

(** The increment overflows when the smeared bits are all ones. *)
Example pow_min_value_overflows : _pow_min_value INT_MAX = None.
Proof. reflexivity. Qed.

(** Asking for more than fits after the write cursor is undefined. *)
Example resizew_overflows :
  dpbuf_resizew (with_cur ex_buf 2 4 5 8) INT_MAX ex_store = None.
Proof. vm_compute. reflexivity. Qed.

(** ** Borrowed storage *)

(** A header over the caller's block [l] of [n] bytes, as [dpbuf_init_d] with
    [DPBUF_INIT_CW] makes it. *)
Definition const_header (l : loc) (n refc : Z) : dpbuf_data := BufData (Ptr l 0) n DPBUF_CONSTDATA refc.

(** A request that does not fit a buffer over borrowed storage, made while
    the buffer is empty, writes a terminator one byte behind the caller's block
    before the growth is refused: the call has no defined behaviour. *)
Theorem dpbuf_const_grow_overflow s b q l bs refc len :
  st_datas s !! q = Some (const_header l (zlen bs) refc) -> st_blks s !! l = Some bs ->
  b_data b = Some q -> b_size b = zlen bs -> b_rbeg b = 0 -> b_wbeg b = 0 ->
  has_flag (b_flag b) DPBUF_NORECYCLE = false -> zlen bs < len ->
  _dpbuf_wcheck b len s = None.
Proof.
  intros Hq Hl Hd Hs Hr Hw Hf Hlen. pose proof (zlen_nonneg bs).
  unfold _dpbuf_wcheck. cbv zeta. rewrite Hs, Hw, Z.sub_0_r. destruct (Z.ltb_spec (zlen bs) len); [|lia].
  unfold dpbuf_resizew. destruct (Z.leb_spec 0 len); [|lia]. rewrite Hf. cbn [negb].
  unfold _dpbuf_recycle_data. rewrite Hr, Hw, Z.eqb_refl. cbn. unfold mbind, ST_bind. cbn.
  unfold get_data. rewrite Hd. cbn. rewrite Hq. cbn. unfold store_bytes. cbn. rewrite Hl.
  unfold in_block. cbn. rewrite Hs, zlen_one, Z.sub_0_r.
  replace (0 + zlen bs + 1 <=? zlen bs) with false by lia. by rewrite andb_false_r.
Qed.

Definition const_store : bstore :=
  BStore ∅ {[2%positive := const_header 1 2 1]} {[1%positive := [7; 8]]} 3 [] (fun _ => 0).
Definition const_buf : dpbuf := Buf 0 0 0 0 0 0 2 (Some 2%positive).

Lemma dpbuf_const_grow_overflow_witness : _dpbuf_wcheck const_buf 3 const_store = None.
Proof.
  apply (dpbuf_const_grow_overflow const_store const_buf 2 1 [7; 8] 1 3); try reflexivity.
Defined.

(** ** Delimiters given with a negative length *)

Lemma c_strlen_app pat rest : 0 ∉ pat -> c_strlen (pat ++ 0 :: rest) = Some (zlen pat).
Proof.
  unfold c_strlen. induction pat as [|x pat IH]; intros Hn; cbn; [done|].
  apply not_elem_of_cons in Hn as [Hx Hn]. destruct (Z.eqb_spec x 0); [congruence|].
  rewrite IH by done. cbn. rewrite zlen_cons. f_equal. lia.
Qed.

(** [dpbuf_runtil] with a negative length measures the delimiter to find
    it, but not to size the window: what becomes readable ends [until_sz]
    bytes off the delimiter's start instead of after it, and a delimiter at the
    front moves the read end in front of the read cursor. *)
Theorem dpbuf_runtil_negative s b q d bs pat rest n i :
  own s b q d bs -> 0 < zlen pat -> 0 ∉ pat -> n < 0 ->
  memmem (sl b bs) pat = Some i ->
  dpbuf_runtil b (Some (pat ++ 0 :: rest)) n s = Some ((i + n, advance b (i + n)), s) /\
  (i + n < 0 -> ~ cursors_ok (advance b (i + n))).
Proof.
  intros Ho Hp Hz Hn Hi. split.
  2: { intros ? Hc. unfold cursors_ok in Hc. cbn in Hc. lia. }
  assert (Hr := wp_runtil _ _ _ _ _ _ Ho Hp). unfold wp in Hr.
  assert (Hcf : forall b', dpbuf_cfind (Some b') (Some (pat ++ 0 :: rest)) n 0 =
                dpbuf_cfind (Some b') (Some pat) (zlen pat) 0).
  { intros b'. unfold dpbuf_cfind, len_or_strlen. destruct (Z.ltb_spec n 0); [|lia].
    destruct (Z.ltb_spec (zlen pat) 0); [lia|]. rewrite c_strlen_app by done. cbn.
    unfold mbind, ST_bind. cbn. unfold first_bytes.
    rewrite zlen_app, zlen_cons, ztake_app, ztake_all, Z.sub_diag, ztake_0, app_nil_r by lia.
    pose proof (zlen_nonneg rest). pose proof (zlen_nonneg pat).
    replace (zlen pat <=? zlen pat + (1 + zlen rest)) with true by lia.
    rewrite Z.leb_refl. replace (0 <=? zlen pat) with true by lia. done. }
  unfold dpbuf_runtil, mbind, ST_bind in *. cbn zeta in *. rewrite Hcf. rewrite Hi in Hr.
  assert (0 <= i) as Hi0 by (by destruct (memmem_Some _ _ _ Hi)).
  destruct (dpbuf_cfind _ _ _ _ s) as [[idx s1]|]; [|done].
  destruct (Z.ltb_spec idx 0); cbn in Hr.
  - destruct Hr as [-> [=]]. lia.
  - destruct Hr as [-> [= E _]]. replace idx with i by lia. reflexivity.
Qed.

Lemma dpbuf_runtil_negative_witness :
  dpbuf_runtil ex_buf (Some ([97] ++ 0 :: [])) (-1) ex_store =
    Some ((-1, advance ex_buf (-1)), ex_store) /\ ~ cursors_ok (advance ex_buf (-1)).
Proof.
  destruct (dpbuf_runtil_negative ex_store ex_buf 2 ex_data ex_bytes [97] [] (-1) 0 ex_own)
    as [H1 H2]; [done| |done|vm_compute; reflexivity|].
  { rewrite list_elem_of_singleton. done. }
  split; [exact H1|]. apply H2. done.
Defined.

(** ** Transfers that run out of memory *)

Definition oom_store : bstore :=
  BStore {[5%positive := Buf 0 0 0 0 0 5 8 (Some 2%positive); 6%positive := Buf 0 0 0 0 0 0 0 (Some 4%positive)]}
         {[2%positive := ex_data; 4%positive := BufData (Ptr 3 0) 0 0 1]}
         {[1%positive := ex_bytes; 3%positive := [0]]} 7 [false] (fun _ => 0).

(** When the destination of [dpbuf_readto] cannot grow, the error code is
    subtracted from the bytes left as if it were a count: the source's cursors
    end up negative, although nothing was moved. *)
Example dpbuf_readto_nomem :
  exists s', dpbuf_readto 5 6 0 oom_store = Some (DPE_NOMEM, s') /\
    st_bufs s' !! 5%positive = Some (Buf 0 0 0 (-12) (-12) 5 8 (Some 2%positive)).
Proof. eexists. split; vm_compute; reflexivity. Qed.
