(* ===== verification/Deque.v ===== *)
(** * The intrusive deque of elements ([lib/dpapp/os/linux/dpevp_epoll.c])

    Every element carries one pair of links, [prev] and [next], shared by all
    the queues of the event loops; a queue is a pair of end pointers.  The
    operations are modelled on the links themselves; [links] relates them to
    the list of elements in order, and [deques_refine_lists] shows that a pool
    of queues behaves as a map of lists. *)

From S2P Require Import Prelude.

(** ** Data and operations *)

Record dqlinks := Links { l_prev : option loc; l_next : option loc }.

Definition unlinked : dqlinks := Links None None.

(** The links of the elements. *)
Abbreviation dqheap := (gmap loc dqlinks) (only parsing).

Record dpele_deque := Deque { dq_head : option loc; dq_tail : option loc }.

Definition get_links (p : loc) : ST dqheap dqlinks :=
  fun h => match h !! p with Some n => Some (n, h) | None => None end.
Definition put_links (p : loc) (n : dqlinks) : ST dqheap unit :=
  fun h => match h !! p with Some _ => Some (tt, <[p := n]> h) | None => None end.
Definition set_prev (p : loc) (v : option loc) : ST dqheap unit :=
  n ← get_links p; put_links p (Links v (l_next n)).
Definition set_next (p : loc) (v : option loc) : ST dqheap unit :=
  n ← get_links p; put_links p (Links (l_prev n) v).

Definition _dpele_deque_init : dpele_deque := Deque None None.

(** [del] is [dpele_del]; [fuel] bounds the length of the chain. *)
Fixpoint dq_clear_loop (fuel : nat) (del : loc -> ST dqheap unit) (ele : option loc)
  : ST dqheap unit :=
  match ele with
  | None => mret tt
  | Some temp =>
      match fuel with
      | O => ub
      | S fuel =>
          n ← get_links temp;
          del temp;;
          dq_clear_loop fuel del (l_next n)
      end
  end.
Definition _dpele_deque_clear (fuel : nat) (del : loc -> ST dqheap unit) (dq : dpele_deque)
  : ST dqheap dpele_deque :=
  dq_clear_loop fuel del (dq_head dq);; mret (Deque None None).

Definition _dpele_deque_push_back (dq : dpele_deque) (ele : loc) : ST dqheap dpele_deque :=
  n ← get_links ele;
  if bool_decide (l_prev n <> None) || bool_decide (l_next n <> None)
     || bool_decide (dq_head dq = Some ele)
  then mret dq
  else
    put_links ele (Links (dq_tail dq) None);;
    match dq_tail dq with
    | Some t => set_next t (Some ele);; mret (Deque (dq_head dq) (Some ele))
    | None => mret (Deque (Some ele) (Some ele))
    end.

Definition _dpele_deque_pop_front (dq : dpele_deque) : ST dqheap (option loc * dpele_deque) :=
  match dq_head dq with
  | None => mret (None, dq)
  | Some ele =>
      n ← get_links ele;
      dq ← match l_next n with
           | Some h => set_prev h None;; mret (Deque (Some h) (dq_tail dq))
           | None => mret (Deque None None)
           end;
      put_links ele unlinked;;
      mret (Some ele, dq)
  end.

Definition _dpele_deque_remove (dq : dpele_deque) (ele : loc) : ST dqheap (loc * dpele_deque) :=
  n ← get_links ele;
  dq ← match l_prev n with
       | Some p => set_next p (l_next n);; mret dq
       | None => mret (Deque (l_next n) (dq_tail dq))
       end;
  n ← get_links ele;
  dq ← match l_next n with
       | Some x => set_prev x (l_prev n);; mret dq
       | None => mret (Deque (dq_head dq) (l_prev n))
       end;
  put_links ele unlinked;;
  mret (ele, dq).

(** The results are the new [dst] and the new [src]. *)
Definition _dpele_deque_pushq (dst src : dpele_deque) : ST dqheap (dpele_deque * dpele_deque) :=
  match dq_head src with
  | None => mret (dst, src)
  | Some sh =>
      set_prev sh (dq_tail dst);;
      match dq_tail dst with
      | Some t =>
          set_next t (Some sh);;
          mret (Deque (dq_head dst) (dq_tail src), Deque None None)
      | None => mret (Deque (Some sh) (dq_tail src), Deque None None)
      end
  end.

Definition _dpele_deque_move (dst src : dpele_deque) : dpele_deque * dpele_deque :=
  (src, Deque None None).

(** ** The list a queue stands for *)

Definition hd_or (q : option loc) (l : list loc) : option loc :=
  match l with [] => q | x :: _ => Some x end.
Definition last_or (p : option loc) (l : list loc) : option loc :=
  match last l with None => p | Some x => Some x end.

(** [l] is linked in order between [p] and [q]. *)
Fixpoint links (h : dqheap) (p : option loc) (l : list loc) (q : option loc) : Prop :=
  match l with
  | [] => True
  | x :: l => h !! x = Some (Links p (hd_or q l)) /\ links h (Some x) l q
  end.

Record is_deque (h : dqheap) (dq : dpele_deque) (l : list loc) : Prop := {
  isdq_links : links h None l None;
  isdq_head : dq_head dq = head l;
  isdq_tail : dq_tail dq = last l;
  isdq_nodup : NoDup l;
}.

Lemma last_or_cons p x l : last_or p (x :: l) = last_or (Some x) l.
Proof. unfold last_or. destruct l; [done|]. by destruct (last (p0 :: l)) eqn:E; rewrite last_cons, E. Qed.

Lemma hd_or_app q l k : hd_or q (l ++ k) = hd_or (hd_or q k) l.
Proof. by destruct l. Qed.

Lemma links_app h p l k q :
  links h p (l ++ k) q <-> links h p l (hd_or q k) /\ links h (last_or p l) k q.
Proof.
  revert p. induction l as [|x l IH]; intros p; cbn [app links].
  - unfold last_or. cbn. tauto.
  - rewrite IH, hd_or_app, last_or_cons. tauto.
Qed.

Lemma links_frame h p l q x n : x ∉ l -> links h p l q -> links (<[x := n]> h) p l q.
Proof.
  revert p. induction l as [|y l IH]; intros p; cbn; [done|].
  rewrite not_elem_of_cons. intros [Hne Hni] [Hy Hl]. split; [by rewrite lookup_insert_ne|auto].
Qed.

Lemma links_lookup h p l q x : links h p l q -> x ∈ l -> exists n, h !! x = Some n.
Proof.
  revert p. induction l as [|y l IH]; intros p; cbn; [by intros _ ?%elem_of_nil|].
  intros [Hy Hl] [->|Hx]%elem_of_cons; eauto.
Qed.

(** The first link of a chain set from [p] to [p']. *)
Lemma links_set_first h p p' x l q :
  x ∉ l -> links h p (x :: l) q -> links (<[x := Links p' (hd_or q l)]> h) p' (x :: l) q.
Proof. intros Hx [_ Hl]. split; [by rewrite lookup_insert_eq|by apply links_frame]. Qed.

(** The last link of a chain set to [q']. *)
Lemma links_set_last h p l x q q' :
  x ∉ l -> links h p (l ++ [x]) q ->
  links (<[x := Links (last_or p l) q']> h) p (l ++ [x]) q'.
Proof.
  intros Hx [Hl [_ _]]%links_app. apply links_app. cbn in *. split; [by apply links_frame|].
  by rewrite lookup_insert_eq.
Qed.

Lemma list_snoc_cases (l : list loc) : l = [] \/ exists k x, l = k ++ [x].
Proof. induction l using rev_ind; eauto. Qed.

Lemma last_or_snoc p l x : last_or p (l ++ [x]) = Some x.
Proof. unfold last_or. by rewrite last_snoc. Qed.

Lemma wp_get_links h p n Q : h !! p = Some n -> Q n h -> wp (get_links p) h Q.
Proof. intros H. unfold wp, get_links. by rewrite H. Qed.

Lemma wp_put_links h p n n' Q : h !! p = Some n -> Q tt (<[p := n']> h) -> wp (put_links p n') h Q.
Proof. intros H. unfold wp, put_links. by rewrite H. Qed.

Lemma wp_set_prev h p n v Q :
  h !! p = Some n -> Q tt (<[p := Links v (l_next n)]> h) -> wp (set_prev p v) h Q.
Proof. intros. apply wp_bind. eapply wp_get_links; [done|]. by eapply wp_put_links. Qed.

Lemma wp_set_next h p n v Q :
  h !! p = Some n -> Q tt (<[p := Links (l_prev n) v]> h) -> wp (set_next p v) h Q.
Proof. intros. apply wp_bind. eapply wp_get_links; [done|]. by eapply wp_put_links. Qed.

(** ** One queue *)

Lemma is_deque_nil h : is_deque h (Deque None None) [].
Proof. split; first [done | apply NoDup_nil_2]. Qed.

(** Links outside [l] are left alone. *)
Definition same_outside (l : list loc) (h h' : dqheap) : Prop := forall y, y ∉ l -> h' !! y = h !! y.

Lemma is_deque_member h dq l1 x l2 :
  is_deque h dq (l1 ++ x :: l2) -> h !! x = Some (Links (last l1) (head l2)).
Proof.
  intros [Hl _ _ _]. apply links_app in Hl as [_ [Hx _]]. rewrite Hx. unfold last_or.
  by destruct (last l1), l2.
Qed.

Lemma wp_push_back_member h dq l x :
  is_deque h dq l -> x ∈ l ->
  wp (_dpele_deque_push_back dq x) h (fun dq' h' => dq' = dq /\ h' = h).
Proof.
  intros Hd (l1 & l2 & ->)%list_elem_of_split. assert (Hx := is_deque_member _ _ _ _ _ Hd).
  apply wp_bind. eapply wp_get_links; [done|]. cbn.
  assert (bool_decide (last l1 <> None) || bool_decide (head l2 <> None)
          || bool_decide (dq_head dq = Some x) = true) as ->; [|by apply wp_ret].
  destruct (list_snoc_cases l1) as [->|(k & y & ->)].
  - rewrite (isdq_head _ _ _ Hd). cbn. by rewrite !orb_true_iff, !bool_decide_eq_true; right.
  - rewrite last_snoc. by rewrite bool_decide_eq_true_2.
Qed.

Lemma wp_push_back h dq l x :
  is_deque h dq l -> x ∉ l -> h !! x = Some unlinked ->
  wp (_dpele_deque_push_back dq x) h (fun dq' h' =>
    is_deque h' dq' (l ++ [x]) /\ same_outside (l ++ [x]) h h').
Proof.
  intros [Hl Hh Ht Hn] Hx Hu. apply wp_bind. eapply wp_get_links; [done|].
  cbn [l_prev l_next unlinked].
  rewrite (bool_decide_eq_false_2 (dq_head dq = Some x)).
  2: { rewrite Hh. intros E. apply head_Some in E as [k ->]. apply Hx. left. }
  rewrite bool_decide_eq_false_2 by auto. cbn [orb]. apply wp_bind. eapply wp_put_links; [done|].
  rewrite Ht. destruct (list_snoc_cases l) as [->|(k & y & ->)].
  - cbn. apply wp_ret. split.
    + split; cbn; auto; [|apply NoDup_singleton]. by rewrite lookup_insert_eq.
    + intros z Hz. rewrite lookup_insert_ne; [done|]. set_solver.
  - rewrite last_snoc. assert (Hy : h !! y = Some (Links (last_or None k) None)).
    { apply links_app in Hl as [_ [Hy _]]. exact Hy. }
    assert (x <> y) by set_solver. apply wp_bind. eapply wp_set_next; [by rewrite lookup_insert_ne|].
    apply wp_ret. cbn. split.
    + split; cbn.
      * apply links_app. split.
        { cbn. apply (links_set_last _ None k y None (Some x)).
          - intros Hy'. apply NoDup_app in Hn as (_ & Hd & _). apply (Hd y); set_solver.
          - apply links_frame; [set_solver|done]. }
        cbn [links hd_or]. rewrite lookup_insert_ne, lookup_insert_eq by done.
        by rewrite last_or_snoc.
      * rewrite Hh. by destruct k.
      * by rewrite last_snoc.
      * apply NoDup_app. split_and!; [done| |apply NoDup_singleton].
        intros z Hz ->%list_elem_of_singleton. done.
    + intros z Hz. rewrite !lookup_insert_ne; set_solver.
Qed.

Lemma wp_pop_front_nil h dq :
  is_deque h dq [] -> wp (_dpele_deque_pop_front dq) h (fun r h' => r = (None, dq) /\ h' = h).
Proof. intros [_ Hh _ _]. unfold _dpele_deque_pop_front. rewrite Hh. by apply wp_ret. Qed.

Lemma wp_pop_front_cons h dq x l :
  is_deque h dq (x :: l) ->
  wp (_dpele_deque_pop_front dq) h (fun r h' => r.1 = Some x /\ is_deque h' r.2 l /\
    h' !! x = Some unlinked /\ same_outside (x :: l) h h').
Proof.
  intros [Hl Hh Ht Hn]. unfold _dpele_deque_pop_front. rewrite Hh. cbn [head].
  destruct Hl as [Hx Hl]. apply wp_bind. eapply wp_get_links; [done|]. cbn [l_next].
  apply NoDup_cons in Hn as [Hxl Hn]. apply wp_bind. destruct l as [|y l]; cbn [hd_or].
  - apply wp_ret. apply wp_bind. eapply wp_put_links; [done|]. apply wp_ret. cbn [fst snd]. split_and!.
    + done.
    + by split.
    + apply lookup_insert_eq.
    + intros z Hz. rewrite lookup_insert_ne; set_solver.
  - assert (Hyl : y ∉ l) by (by apply NoDup_cons in Hn as [? _]).
    assert (Hl' := links_set_first _ (Some x) None y l None Hyl Hl).
    destruct Hl as [Hy Hl]. apply wp_bind. eapply wp_set_prev; [done|]. apply wp_ret.
    assert (x <> y) by (intros ->; apply Hxl; left).
    apply wp_bind. eapply wp_put_links; [by rewrite lookup_insert_ne|]. apply wp_ret. cbn [fst snd]. split_and!.
    + done.
    + split; [|done|exact Ht|done]. apply links_frame; [exact Hxl|exact Hl'].
    + apply lookup_insert_eq.
    + clear Hl'. intros z Hz. rewrite !lookup_insert_ne; set_solver.
Qed.

Lemma wp_remove h dq l1 x l2 :
  is_deque h dq (l1 ++ x :: l2) ->
  wp (_dpele_deque_remove dq x) h (fun r h' => r.1 = x /\ is_deque h' r.2 (l1 ++ l2) /\
    h' !! x = Some unlinked /\ same_outside (l1 ++ x :: l2) h h').
Proof.
  intros Hd. assert (Hx := is_deque_member _ _ _ _ _ Hd). destruct Hd as [Hl Hh Ht Hn].
  assert (Hn' := Hn). apply NoDup_app in Hn' as (Hn1 & Hn12 & Hn2). apply NoDup_cons in Hn2 as [Hx2 Hn2].
  assert (Hx1 : x ∉ l1) by (intros Hin; apply (Hn12 x Hin); left).
  assert (Hn3 : NoDup (l1 ++ l2)) by (apply NoDup_app; split_and!; [done|set_solver|done]).
  apply links_app in Hl as [Hl1 [_ Hl2]]. cbn [hd_or] in Hl1.
  unfold _dpele_deque_remove. apply wp_bind. eapply wp_get_links; [done|]. cbn [l_prev l_next].
  (* the first half unlinks [x] from its predecessor *)
  assert (H1 : wp (match last l1 with
                   | Some p => set_next p (head l2);; mret dq
                   | None => mret (Deque (head l2) (dq_tail dq))
                   end) h (fun dq' h' => links h' None l1 (head l2) /\ links h' (Some x) l2 None /\
      dq_head dq' = head (l1 ++ l2) /\ dq_tail dq' = dq_tail dq /\
      h' !! x = Some (Links (last l1) (head l2)) /\ same_outside l1 h h')).
  { destruct (list_snoc_cases l1) as [->|(k & y & ->)]; cbn [last].
    - apply wp_ret. cbn. split_and!; auto. by intros z.
    - rewrite last_snoc in *. assert (y <> x) by set_solver. assert (y ∉ k).
      { apply NoDup_app in Hn1 as (_ & Hk & _). intros Hy. apply (Hk y Hy). left. }
      assert (Hy : h !! y = Some (Links (last_or None k) (Some x))).
      { by apply links_app in Hl1 as [_ [Hy _]]. }
      apply wp_bind. eapply wp_set_next; [done|]. apply wp_ret. cbn. split_and!.
      + by apply (links_set_last _ None k y (Some x)).
      + apply links_frame; [|done]. intros Hy2. by apply (Hn12 y); set_solver.
      + rewrite Hh. by destruct k.
      + done.
      + by rewrite lookup_insert_ne.
      + intros z Hz. rewrite lookup_insert_ne; set_solver. }
  apply wp_bind. eapply wp_mono; [exact H1|]. clear H1 Hl1 Hl2 Hx.
  intros dq1 h1 (A1 & A2 & A3 & A4 & A5 & A6). apply wp_bind. eapply wp_get_links; [done|].
  cbn [l_prev l_next].
  assert (H2 : wp (match head l2 with
                   | Some z => set_prev z (last l1);; mret dq1
                   | None => mret (Deque (dq_head dq1) (last l1))
                   end) h1 (fun dq' h' => links h' None (l1 ++ l2) None /\
      dq_head dq' = head (l1 ++ l2) /\ dq_tail dq' = last (l1 ++ l2) /\
      is_Some (h' !! x) /\ same_outside l2 h1 h')).
  { destruct l2 as [|z l2]; cbn [head].
    - apply wp_ret. cbn. rewrite app_nil_r in *. split_and!; first [done | by eauto | by intros ?].
    - assert (z <> x) by set_solver. assert (z ∉ l1) by (intros Hz; apply (Hn12 z Hz); set_solver).
      apply NoDup_cons in Hn2 as [Hzl Hn2]. assert (A2' := A2). destruct A2' as [Hz _].
      apply wp_bind. eapply wp_set_prev; [done|]. apply wp_ret. cbn [l_next]. split_and!.
      + apply links_app. cbn [hd_or]. split; [by apply links_frame|].
        replace (last_or None l1) with (last l1) by (unfold last_or; by destruct (last l1)).
        by apply (links_set_first h1 (Some x)).
      + done.
      + rewrite A4, Ht. by rewrite !last_app, !last_cons_cons || (rewrite !last_app; cbn; by destruct (last (z :: l2))).
      + rewrite lookup_insert_ne by done. eauto.
      + intros y Hy. rewrite lookup_insert_ne; set_solver. }
  apply wp_bind. eapply wp_mono; [exact H2|]. intros dq2 h2 (B1 & B2 & B3 & [n B4] & B5).
  apply wp_bind. eapply wp_put_links; [done|]. apply wp_ret. cbn [fst snd]. split_and!.
  - done.
  - split; auto. apply links_frame; [set_solver|done].
  - apply lookup_insert_eq.
  - intros y Hy. rewrite lookup_insert_ne by set_solver. rewrite B5, A6 by set_solver. done.
Qed.

Lemma wp_pushq h dst src l k :
  is_deque h dst l -> is_deque h src k -> NoDup (l ++ k) ->
  wp (_dpele_deque_pushq dst src) h (fun r h' => is_deque h' r.1 (l ++ k) /\ is_deque h' r.2 [] /\
    same_outside (l ++ k) h h').
Proof.
  intros [Hl Hh Ht Hn] [Kl Kh Kt Kn] Hlk. unfold _dpele_deque_pushq. rewrite Kh.
  apply NoDup_app in Hlk as (_ & Hdis & _).
  destruct k as [|x k]; cbn [head].
  - apply wp_ret. cbn. rewrite app_nil_r. split_and!; [by split|by split|by intros ?].
  - assert (Kl' := Kl). destruct Kl' as [Hx _]. apply NoDup_cons in Kn as [Hxk Kn].
    assert (x ∉ l) by (intros Hxl; apply (Hdis x Hxl); left).
    apply wp_bind. eapply wp_set_prev; [done|]. cbn [l_next].
    assert (Hk' := links_set_first h None (dq_tail dst) x k None Hxk Kl).
    rewrite Ht in *. destruct (list_snoc_cases l) as [->|(l' & t & ->)]; cbn [last].
    + apply wp_ret. cbn [fst snd app]. split_and!.
      * split; cbn [dq_head dq_tail]; auto. by apply NoDup_cons.
      * apply is_deque_nil.
      * intros y Hy. rewrite lookup_insert_ne; set_solver.
    + rewrite last_snoc in *. assert (t <> x) by set_solver.
      assert (t ∉ l') by (apply NoDup_app in Hn as (_ & Hd & _); intros Hy; apply (Hd t Hy); left).
      assert (Htn : h !! t = Some (Links (last_or None l') None)).
      { by apply links_app in Hl as [_ [Hy _]]. }
      apply wp_bind. eapply wp_set_next; [by rewrite lookup_insert_ne|]. apply wp_ret. cbn [fst snd l_prev].
      split_and!.
      * split; cbn [dq_head dq_tail].
        { apply links_app. split; cbn [hd_or].
          - apply (links_set_last _ None l' t None); [done|]. by apply links_frame.
          - rewrite last_or_snoc. apply links_frame; [|done]. intros Hin.
            apply (Hdis t); [set_solver|done]. }
        { rewrite Hh. by destruct l'. }
        { rewrite Kt, last_app. by destruct (last (x :: k)) eqn:E; [|apply last_None in E]. }
        { apply NoDup_app. split_and!; [done|done|by apply NoDup_cons]. }
      * apply is_deque_nil.
      * intros y Hy. rewrite !lookup_insert_ne; set_solver.
Qed.

(** ** A pool of queues over the same elements *)

Inductive dop :=
  | DPush (n : Z) (x : loc)
  | DPop (n : Z)
  | DRemove (n : Z) (x : loc)
  | DPushq (d s : Z)
  | DMove (d s : Z).

Definition run_dop (qs : gmap Z dpele_deque) (o : dop)
  : ST dqheap (option loc * gmap Z dpele_deque) :=
  match o with
  | DPush n x =>
      dq ← lift_opt (qs !! n); dq ← _dpele_deque_push_back dq x; mret (None, <[n := dq]> qs)
  | DPop n =>
      dq ← lift_opt (qs !! n); r ← _dpele_deque_pop_front dq; mret (r.1, <[n := r.2]> qs)
  | DRemove n x =>
      dq ← lift_opt (qs !! n); r ← _dpele_deque_remove dq x; mret (Some r.1, <[n := r.2]> qs)
  | DPushq d s =>
      dd ← lift_opt (qs !! d); ds ← lift_opt (qs !! s);
      r ← _dpele_deque_pushq dd ds; mret (None, <[s := r.2]> (<[d := r.1]> qs))
  | DMove d s =>
      dd ← lift_opt (qs !! d); ds ← lift_opt (qs !! s);
      let r := _dpele_deque_move dd ds in mret (None, <[s := r.2]> (<[d := r.1]> qs))
  end.

Fixpoint run_dops (qs : gmap Z dpele_deque) (os : list dop)
  : ST dqheap (list (option loc) * gmap Z dpele_deque) :=
  match os with
  | [] => mret ([], qs)
  | o :: os => r ← run_dop qs o; rs ← run_dops r.2 os; mret (r.1 :: rs.1, rs.2)
  end.

(** The lists the queues stand for, and what the operations do to them. *)
Abbreviation lists := (gmap Z (list loc)) (only parsing).

Definition abs_dop (ls : lists) (o : dop) : option (option loc * lists) :=
  match o with
  | DPush n x =>
      l ← (ls !! n); Some (None, if bool_decide (x ∈ l) then ls else <[n := l ++ [x]]> ls)
  | DPop n =>
      l ← (ls !! n);
      Some (match l with [] => (None, ls) | x :: l => (Some x, <[n := l]> ls) end)
  | DRemove n x => l ← (ls !! n); Some (Some x, <[n := filter (fun y => y <> x) l]> ls)
  | DPushq d s | DMove d s =>
      l ← (ls !! d); k ← (ls !! s); Some (None, <[s := []]> (<[d := l ++ k]> ls))
  end.

(** What the callers guarantee: an element pushed is in this queue or in none,
    one removed is in the queue, and a queue moved over is empty (the move
    drops what it held). *)
Definition dop_ok (h : dqheap) (ls : lists) (o : dop) : bool :=
  match o with
  | DPush n x =>
      bool_decide (is_Some (ls !! n)) && bool_decide (is_Some (h !! x)) &&
      bool_decide (map_Forall (fun m l => m = n \/ x ∉ l) ls)
  | DPop n => bool_decide (is_Some (ls !! n))
  | DRemove n x => match ls !! n with Some l => bool_decide (x ∈ l) | None => false end
  | DPushq d s =>
      bool_decide (d <> s) && bool_decide (is_Some (ls !! d)) && bool_decide (is_Some (ls !! s))
  | DMove d s => bool_decide (d <> s) && bool_decide (ls !! d = Some []) && bool_decide (is_Some (ls !! s))
  end.

(** Runs whose every step respects its caller's guarantee. *)
Fixpoint abs_dops (h : dqheap) (ls : lists) (os : list dop) : option (list (option loc) * lists) :=
  match os with
  | [] => Some ([], ls)
  | o :: os =>
      if dop_ok h ls o then
        r ← abs_dop ls o; rs ← abs_dops h r.2 os; Some (r.1 :: rs.1, rs.2)
      else None
  end.

Record pool_ok (h : dqheap) (qs : gmap Z dpele_deque) (ls : lists) : Prop := {
  pool_dom : forall n, is_Some (qs !! n) <-> is_Some (ls !! n);
  pool_deque : forall n dq l, qs !! n = Some dq -> ls !! n = Some l -> is_deque h dq l;
  pool_disj : forall n m l k x, ls !! n = Some l -> ls !! m = Some k -> x ∈ l -> x ∈ k -> n = m;
  pool_free : forall x n, h !! x = Some n -> (forall m l, ls !! m = Some l -> x ∉ l) -> n = unlinked;
}.

Lemma pool_get h qs ls n l : pool_ok h qs ls -> ls !! n = Some l ->
  exists dq, qs !! n = Some dq /\ is_deque h dq l.
Proof.
  intros H Hl. destruct (proj2 (pool_dom _ _ _ H n)) as [dq Hq]; [eauto|].
  exists dq. split; [done|]. by eapply (pool_deque _ _ _ H).
Qed.

(** Queues whose elements kept their links are still the same lists. *)
Lemma is_deque_outside h h' dq l k :
  is_deque h dq l -> same_outside k h h' -> (forall x, x ∈ l -> x ∉ k) -> is_deque h' dq l.
Proof.
  intros [Hl Hh Ht Hn] Hs Hd. split; auto. clear Hh Ht Hn. revert Hl. generalize (@None positive) at 1 3.
  induction l as [|x l IH]; intros p; cbn; [done|]. intros [Hx Hl]. split.
  - rewrite Hs; [done|]. apply Hd. left.
  - apply IH; [|done]. intros y Hy. apply Hd. by right.
Qed.

(** One queue changed from [l] to [l'], whose elements were free or in [l]. *)
Lemma pool_update h h' qs ls n l dq' l' k :
  pool_ok h qs ls -> ls !! n = Some l -> is_deque h' dq' l' -> same_outside k h h' ->
  (forall x, x ∈ k -> x ∈ l \/ forall m j, ls !! m = Some j -> x ∉ j) ->
  (forall x, x ∈ l' -> x ∈ k) ->
  (forall x, x ∈ l -> x ∉ l' -> h' !! x = Some unlinked) ->
  (forall x, x ∈ k -> x ∉ l' -> x ∈ l) ->
  pool_ok h' (<[n := dq']> qs) (<[n := l']> ls).
Proof.
  intros H Hl Hd Hs Hk Hlk Hfree Hkl. split.
  - intros m. pose proof (pool_dom _ _ _ H m). rewrite !lookup_insert_is_Some. tauto.
  - intros m dq j [[<- <-]|[Hne Hq]]%lookup_insert_Some Hj.
    + rewrite lookup_insert_eq in Hj. by injection Hj as <-.
    + rewrite lookup_insert_ne in Hj by done.
      eapply is_deque_outside; [by eapply (pool_deque _ _ _ H)|done|].
      intros x Hx Hxk. destruct (Hk x Hxk) as [Hxl|Hno]; [|by eapply Hno].
      apply Hne. by eapply (pool_disj _ _ _ H).
  - assert (Hx' : forall x m j, x ∈ l' -> m <> n -> ls !! m = Some j -> x ∉ j).
    { intros x m j Hx Hne Hm Hxj. destruct (Hk x (Hlk x Hx)) as [Hxl|Hno]; [|by eapply Hno].
      apply Hne. by eapply (pool_disj _ _ _ H). }
    intros m1 m2 j1 j2 x [[<- <-]|[N1 E1]]%lookup_insert_Some [[<- <-]|[N2 E2]]%lookup_insert_Some X1 X2.
    + done.
    + by destruct (Hx' x m2 j2 X1 (not_eq_sym N2) E2).
    + by destruct (Hx' x m1 j1 X2 (not_eq_sym N1) E1).
    + by eapply (pool_disj _ _ _ H m1 m2).
  - intros x nd Hn Hno. assert (Hxl' : x ∉ l') by (eapply Hno; apply lookup_insert_eq).
    destruct (decide (x ∈ l)) as [Hxl|Hxl]; [rewrite Hfree in Hn by done; by injection Hn|].
    rewrite Hs in Hn by (intros Hxk; auto). eapply (pool_free _ _ _ H); [exact Hn|].
    intros m j Hm. destruct (decide (m = n)) as [->|Hne]; [by simplify_eq|].
    apply (Hno m j). by rewrite lookup_insert_ne.
Qed.

Lemma dom_same h h' k :
  same_outside k h h' -> (forall x, x ∈ k -> is_Some (h !! x) /\ is_Some (h' !! x)) ->
  forall x, is_Some (h' !! x) <-> is_Some (h !! x).
Proof.
  intros Hs Hk x. destruct (decide (x ∈ k)) as [Hx|Hx]; [|by rewrite Hs].
  by destruct (Hk x Hx).
Qed.

Lemma is_deque_node h dq l x : is_deque h dq l -> x ∈ l -> is_Some (h !! x).
Proof. intros [Hl _ _ _] Hx. destruct (links_lookup _ _ _ _ _ Hl Hx). eauto. Qed.

Definition dop_post (r : option loc * lists) (h : dqheap) (r' : option loc * gmap Z dpele_deque)
    (h' : dqheap) : Prop :=
  r'.1 = r.1 /\ pool_ok h' r'.2 r.2 /\ forall x, is_Some (h' !! x) <-> is_Some (h !! x).

Lemma wp_run_push h qs ls n x r :
  pool_ok h qs ls -> dop_ok h ls (DPush n x) = true -> abs_dop ls (DPush n x) = Some r ->
  wp (run_dop qs (DPush n x)) h (dop_post r h).
Proof.
  intros H Hok Ha. cbn in *. apply andb_true_iff in Hok as [[_ Hx]%andb_true_iff Hall].
  apply bool_decide_eq_true in Hx, Hall. destruct (ls !! n) as [l|] eqn:El; [|done]. cbn in Ha.
  injection Ha as <-. destruct (pool_get _ _ _ _ _ H El) as (dq & Hq & Hd). rewrite Hq.
  apply wp_bind. unfold wp at 1; cbn. apply wp_bind. case_bool_decide as Hxl.
  - eapply wp_mono; [by eapply wp_push_back_member|]. intros dq' h' [-> ->]. apply wp_ret.
    split; [done|]. cbn [fst snd]. by rewrite insert_id.
  - assert (Hno : forall m j, ls !! m = Some j -> x ∉ j).
    { intros m j Hm. destruct (Hall m j Hm) as [->|]; [by simplify_eq|done]. }
    destruct Hx as [nd Hx]. assert (nd = unlinked) as -> by by eapply (pool_free _ _ _ H).
    eapply wp_mono; [by eapply wp_push_back|]. intros dq' h' [Hd' Hs]. apply wp_ret.
    split; [done|]. cbn [fst snd]. split.
    + eapply pool_update; eauto; set_solver.
    + eapply dom_same; [done|]. intros y Hy. split; [|by eapply is_deque_node].
      apply elem_of_app in Hy as [Hy| ->%list_elem_of_singleton]; [by eapply is_deque_node|eauto].
Qed.

Lemma wp_run_pop h qs ls n r :
  pool_ok h qs ls -> abs_dop ls (DPop n) = Some r -> wp (run_dop qs (DPop n)) h (dop_post r h).
Proof.
  intros H Ha. cbn in *. destruct (ls !! n) as [l|] eqn:El; [|done]. cbn in Ha. injection Ha as <-.
  destruct (pool_get _ _ _ _ _ H El) as (dq & Hq & Hd). rewrite Hq.
  apply wp_bind. unfold wp at 1; cbn. apply wp_bind. destruct l as [|x l].
  - eapply wp_mono; [by eapply wp_pop_front_nil|]. intros ? h' [-> ->]. apply wp_ret.
    split; [done|]. cbn [fst snd]. by rewrite insert_id.
  - eapply wp_mono; [by eapply wp_pop_front_cons|]. intros [o dq'] h' (-> & Hd' & Hx & Hs). apply wp_ret.
    split; [done|]. cbn [fst snd] in *. split.
    + eapply pool_update; [done|done|done|exact Hs|..].
      * by left.
      * intros y Hy. by right.
      * intros y [->|Hy]%elem_of_cons Hno; done.
      * done.
    + eapply dom_same; [done|]. intros y Hy. split; [by eapply is_deque_node|].
      apply elem_of_cons in Hy as [->|Hy]; [eauto|by eapply is_deque_node].
Qed.

Lemma wp_run_remove h qs ls n x r :
  pool_ok h qs ls -> dop_ok h ls (DRemove n x) = true -> abs_dop ls (DRemove n x) = Some r ->
  wp (run_dop qs (DRemove n x)) h (dop_post r h).
Proof.
  intros H Hok Ha. cbn in *. destruct (ls !! n) as [l|] eqn:El; [|done]. cbn in Ha.
  apply bool_decide_eq_true, list_elem_of_split in Hok as (l1 & l2 & ->).
  destruct (pool_get _ _ _ _ _ H El) as (dq & Hq & Hd). rewrite Hq.
  rewrite (filter_remove _ _ _ (isdq_nodup _ _ _ Hd)) in Ha. injection Ha as <-.
  apply wp_bind. unfold wp at 1; cbn. apply wp_bind.
  eapply wp_mono; [by eapply wp_remove|]. intros [o dq'] h' (-> & Hd' & Hx & Hs). apply wp_ret.
  cbn [fst snd] in *. assert (Hin : forall y, y ∈ l1 ++ x :: l2 -> y = x \/ y ∈ l1 ++ l2) by set_solver.
  split_and!.
  - done.
  - eapply pool_update; [done|done|done|exact Hs|..].
    + by left.
    + set_solver.
    + intros y [->|?]%Hin Hno; done.
    + done.
  - eapply dom_same; [done|]. intros y Hy. split; [by eapply is_deque_node|].
    apply Hin in Hy as [->|Hy]; [eauto|by eapply is_deque_node].
Qed.

(** [src] appended to [dst] and emptied: shared by [pushq] and [move]. *)
Lemma pool_append h h' qs ls d s l k dq' :
  pool_ok h qs ls -> d <> s -> ls !! d = Some l -> ls !! s = Some k ->
  is_deque h' dq' (l ++ k) -> same_outside (l ++ k) h h' ->
  pool_ok h' (<[s := Deque None None]> (<[d := dq']> qs)) (<[s := []]> (<[d := l ++ k]> ls)).
Proof.
  intros H Hne Hl Hk Hd Hs. split.
  - intros m. pose proof (pool_dom _ _ _ H m). rewrite !lookup_insert_is_Some. tauto.
  - intros m dq j [[<- <-]|[N Hq]]%lookup_insert_Some Hj.
    { rewrite lookup_insert_eq in Hj. injection Hj as <-. apply is_deque_nil. }
    rewrite lookup_insert_ne in Hj by done. apply lookup_insert_Some in Hq as [[<- <-]|[N2 Hq]].
    { rewrite lookup_insert_eq in Hj. by injection Hj as <-. }
    rewrite lookup_insert_ne in Hj by done. eapply is_deque_outside; [by eapply (pool_deque _ _ _ H)|done|].
    intros x Hx [Hxl|Hxk]%elem_of_app; [apply N2|apply N]; by eapply (pool_disj _ _ _ H).
  - assert (Hget : forall m j x, <[s := []]> (<[d := l ++ k]> ls) !! m = Some j -> x ∈ j ->
      exists m' j', ls !! m' = Some j' /\ x ∈ j' /\ (m' = m \/ m = d /\ m' = s) /\ m <> s).
    { intros m j x [[<- <-]|[N Hm]]%lookup_insert_Some Hx; [by apply elem_of_nil in Hx|].
      apply lookup_insert_Some in Hm as [[<- <-]|[N2 Hm]]; [|exists m, j; by split_and!; auto].
      apply elem_of_app in Hx as [Hx|Hx]; [exists d, l|exists s, k]; split_and!; auto. }
    intros m1 m2 j1 j2 x H1 H2 X1 X2.
    destruct (Hget _ _ _ H1 X1) as (a & ja & A1 & A2 & A3 & A4).
    destruct (Hget _ _ _ H2 X2) as (b & jb & B1 & B2 & B3 & B4).
    assert (a = b) as <- by by eapply (pool_disj _ _ _ H). intuition congruence.
  - intros x nd Hn Hno. assert (Hx : x ∉ l ++ k).
    { apply (Hno d). rewrite lookup_insert_ne by done. apply lookup_insert_eq. }
    rewrite Hs in Hn by done. eapply (pool_free _ _ _ H); [exact Hn|]. intros m j Hm.
    destruct (decide (m = d)) as [->|]; [set_solver|]. destruct (decide (m = s)) as [->|]; [set_solver|].
    apply (Hno m). by rewrite !lookup_insert_ne.
Qed.

Lemma wp_run_pushq h qs ls d s r :
  pool_ok h qs ls -> dop_ok h ls (DPushq d s) = true -> abs_dop ls (DPushq d s) = Some r ->
  wp (run_dop qs (DPushq d s)) h (dop_post r h).
Proof.
  intros H Hok Ha. cbn in *. apply andb_true_iff in Hok as [[Hne _]%andb_true_iff _].
  apply bool_decide_eq_true in Hne.
  destruct (ls !! d) as [l|] eqn:El; [|done]. destruct (ls !! s) as [k|] eqn:Ek; [|done]. injection Ha as <-.
  destruct (pool_get _ _ _ _ _ H El) as (dd & Hd & Hdd). destruct (pool_get _ _ _ _ _ H Ek) as (ds & Hs & Hds).
  rewrite Hd, Hs. do 2 (apply wp_bind; unfold wp at 1; cbn). apply wp_bind.
  assert (Hn : NoDup (l ++ k)).
  { apply NoDup_app. split_and!; [apply Hdd| |apply Hds]. intros x X1 X2. apply Hne.
    by eapply (pool_disj _ _ _ H). }
  eapply wp_mono; [by eapply wp_pushq|]. intros [d' s'] h' (A & B & C). apply wp_ret. cbn [fst snd] in *.
  assert (s' = Deque None None) as ->.
  { destruct s'. destruct B as [_ B1 B2 _]. cbn in *. by rewrite B1, B2. }
  split; [done|]. cbn [fst snd]. split; [by eapply pool_append|].
  eapply dom_same; [done|]. intros y Hy. split; [|exact (is_deque_node _ _ _ _ A Hy)].
  apply elem_of_app in Hy as [Hy|Hy]; [exact (is_deque_node _ _ _ _ Hdd Hy)|exact (is_deque_node _ _ _ _ Hds Hy)].
Qed.

Lemma wp_run_move h qs ls d s r :
  pool_ok h qs ls -> dop_ok h ls (DMove d s) = true -> abs_dop ls (DMove d s) = Some r ->
  wp (run_dop qs (DMove d s)) h (dop_post r h).
Proof.
  intros H Hok Ha. cbn in *. apply andb_true_iff in Hok as [[Hne El]%andb_true_iff _].
  apply bool_decide_eq_true in Hne, El. rewrite El in Ha. cbn in Ha.
  destruct (ls !! s) as [k|] eqn:Ek; [|done]. injection Ha as <-.
  destruct (pool_get _ _ _ _ _ H El) as (dd & Hd & Hdd). destruct (pool_get _ _ _ _ _ H Ek) as (ds & Hs & Hds).
  rewrite Hd, Hs. do 2 (apply wp_bind; unfold wp at 1; cbn). split; [done|]. cbn [fst snd].
  split; [|done]. eapply (pool_append _ _ _ _ _ _ [] k); eauto. by intros x Hx.
Qed.

Lemma wp_run_dop h qs ls o r :
  pool_ok h qs ls -> dop_ok h ls o = true -> abs_dop ls o = Some r ->
  wp (run_dop qs o) h (dop_post r h).
Proof.
  destruct o; [apply wp_run_push|intros H _; by apply wp_run_pop|apply wp_run_remove
              |apply wp_run_pushq|apply wp_run_move].
Qed.

Lemma dop_ok_dom h h' ls o :
  (forall x, is_Some (h' !! x) <-> is_Some (h !! x)) -> dop_ok h' ls o = dop_ok h ls o.
Proof. intros Hd. destruct o; cbn; auto. by rewrite (bool_decide_ext _ _ (Hd x)). Qed.

Lemma abs_dops_dom h h' ls os :
  (forall x, is_Some (h' !! x) <-> is_Some (h !! x)) -> abs_dops h' ls os = abs_dops h ls os.
Proof.
  intros Hd. revert ls. induction os as [|o os IH]; intros ls; cbn; [done|].
  rewrite (dop_ok_dom h h') by done. destruct (dop_ok h ls o); [|done].
  destruct (abs_dop ls o) as [r|]; [|done]. cbn. by rewrite IH.
Qed.

(** C26. A pool of queues over one pair of links per element behaves as a map
    of lists: for every sequence of operations whose callers keep their side
    (an element pushed is in this queue or in none, a queue moved over is
    empty), no link is followed through [NULL], every result is the list's
    result, and the links represent the resulting lists. *)
Theorem deques_refine_lists h qs ls os rs ls' :
  pool_ok h qs ls -> abs_dops h ls os = Some (rs, ls') ->
  wp (run_dops qs os) h (fun r h' => r.1 = rs /\ pool_ok h' r.2 ls').
Proof.
  revert h qs ls rs. induction os as [|o os IH]; intros h qs ls rs H Ha; cbn in *.
  { injection Ha as <- <-. by apply wp_ret. }
  destruct (dop_ok h ls o) eqn:Hok; [|done]. destruct (abs_dop ls o) as [r|] eqn:Er; [|done].
  cbn in Ha. destruct (abs_dops h r.2 os) as [[rs1 ls1]|] eqn:Ers; [|done]. injection Ha as <- <-.
  apply wp_bind. eapply wp_mono; [by eapply wp_run_dop|]. intros r' h' (Hr & Hp & Hdom).
  apply wp_bind. eapply wp_mono; [eapply IH; [exact Hp|by rewrite (abs_dops_dom h)]|].
  intros r2 h2 [H1 H2]. apply wp_ret. cbn. by rewrite Hr, H1.
Qed.

Definition ex_heap : gmap loc dqlinks :=
  list_to_map [(1%positive, unlinked); (2%positive, unlinked); (3%positive, unlinked)].
Definition ex_pool : gmap Z dpele_deque := list_to_map [(0, _dpele_deque_init); (1, _dpele_deque_init)].
Definition ex_lists : gmap Z (list loc) := list_to_map [(0, []); (1, [])].
Definition ex_dops : list dop :=
  [DPush 0 1; DPush 0 2; DPush 0 1; DPush 1 3; DRemove 0 1; DPushq 1 0; DMove 0 1; DPop 0].

Lemma ex_pool_ok : pool_ok ex_heap ex_pool ex_lists.
Proof.
  assert (Hq : forall n dq, ex_pool !! n = Some dq -> (n = 0 \/ n = 1) /\ dq = Deque None None).
  { intros n dq Hn. apply elem_of_list_to_map_2 in Hn.
    repeat (apply elem_of_cons in Hn as [[= -> ->]|Hn]; [auto|]). by apply elem_of_nil in Hn. }
  assert (Hl : forall n l, ex_lists !! n = Some l -> (n = 0 \/ n = 1) /\ l = []).
  { intros n l Hn. apply elem_of_list_to_map_2 in Hn.
    repeat (apply elem_of_cons in Hn as [[= -> ->]|Hn]; [auto|]). by apply elem_of_nil in Hn. }
  split.
  - intros n. split; intros [x Hx]; [apply Hq in Hx as [[->| ->] _]|apply Hl in Hx as [[->| ->] _]];
      vm_compute; eauto.
  - intros n dq l [_ ->]%Hq [_ ->]%Hl. apply is_deque_nil.
  - intros n m l k x [_ ->]%Hl _ Hx. by apply elem_of_nil in Hx.
  - intros x n Hx _. apply elem_of_list_to_map_2 in Hx.
    repeat (apply elem_of_cons in Hx as [[= -> ->]|Hx]; [done|]). by apply elem_of_nil in Hx.
Qed.

Lemma deques_refine_lists_witness :
  wp (run_dops ex_pool ex_dops) ex_heap (fun r h' =>
    r.1 = [None; None; None; None; Some 1%positive; None; None; Some 3%positive] /\
    exists ls', pool_ok h' r.2 ls' /\ ls' !! 0 = Some [2%positive]).
Proof.
  eapply wp_mono.
  - eapply (deques_refine_lists ex_heap ex_pool ex_lists ex_dops); [exact ex_pool_ok|].
    vm_compute. reflexivity.
  - intros r h' [H1 H2]. split; [exact H1|]. eexists. split; [exact H2|]. reflexivity.
Defined.

(** An element that is alone in another queue has no links: a second queue
    accepts it, and both then hold it. *)
Example push_sole_member_of_other :
  let res := run_dops ex_pool [DPush 0 1; DPush 1 1; DPop 0; DPop 1] ex_heap in
  (fun r => r.1.1) <$> res = Some [None; None; Some 1%positive; Some 1%positive].
Proof. vm_compute. reflexivity. Qed.
