(* ===== verification/Ele.v ===== *)
(** * Elements ([struct dpele]) and the event masks

    The data every event loop works on: the element with its event masks, its
    one-bit flags, timer slot, reference count, the [fd]/[toid]/[fromid]/[stat]
    union and the asynchronous operation in progress.  Static program data
    (types, operation descriptors) is named by numbers; [prev] and [next] are
    modelled in [Deque]. *)

From Stdlib Require Import SpecFloat.
From S2P Require Import Prelude Dpret.

(** ** Event masks ([dpdef.h]) *)

Definition DPEVT_NAN : Z := 0x00.
Definition DPEVT_IN : Z := 0x01.
Definition DPEVT_PRI : Z := 0x02.
Definition DPEVT_OUT : Z := 0x04.
Definition DPEVT_ERR : Z := 0x08.
Definition DPEVT_HUP : Z := 0x10.
Definition DPEVT_AIN : Z := Z.lor DPEVT_IN DPEVT_PRI.
Definition DPEVT_AERR : Z := Z.lor DPEVT_ERR DPEVT_HUP.
Definition DPEVT_AIO : Z := Z.lor (Z.lor DPEVT_IN DPEVT_OUT) DPEVT_PRI.
Definition DPEVT_ALL : Z := 0x1F.

(** The error the pending events stand for. *)
Definition DPEVT_GET_ERR (evs : Z) : Z :=
  if has_flag evs DPEVT_HUP then DPE_CONNRESET
  else if has_flag evs DPEVT_ERR then DPE_BADFD
  else DPE_OK.

(** A value stored in a 5-bit mask, and a mask with bits cleared. *)
Definition mask5 (v : Z) : Z := Z.land v DPEVT_ALL.
Definition clear_bits (v bits : Z) : Z := Z.ldiff v bits.

(** ** Types *)

Inductive dpele_type_e := DPELE_TYPE_EFD | DPELE_TYPE_USD | DPELE_TYPE_CTC | DPELE_TYPE_TMR.

#[export] Instance dpele_type_e_eq_dec : EqDecision dpele_type_e.
Proof. solve_decision. Defined.

(** Position in the enumeration, used as a bit index and an array index. *)
Definition type_index (t : dpele_type_e) : Z :=
  match t with DPELE_TYPE_EFD => 0 | DPELE_TYPE_USD => 1 | DPELE_TYPE_CTC => 2 | DPELE_TYPE_TMR => 3 end.

Definition DPAIO_TYPE_NAN : Z := -1.
Definition DPAIO_TYPE_GFD : Z := 0.
Definition DPAIO_TYPE_SKT : Z := 1.
Definition DPAIO_TYPE_SSL : Z := 2.
Definition DPAIO_TYPE_QIC : Z := 3.

(** [ty_id] names the descriptor, whose hooks are parameters of [Evp]. *)
Record dpele_type := EleType {
  ty_id : Z;
  ty_type : dpele_type_e;
  ty_size : Z;
  ty_iotype : Z;
  ty_events : Z;
}.

(** ** Call states *)

Inductive dpctc_stat_e := DPCTC_INITIAL | DPCTC_COMMIT | DPCTC_CANCEL | DPCTC_RUNNING | DPCTC_FINISH.

#[export] Instance dpctc_stat_e_eq_dec : EqDecision dpctc_stat_e.
Proof. solve_decision. Defined.

Definition stat_index (s : dpctc_stat_e) : Z :=
  match s with
  | DPCTC_INITIAL => 0 | DPCTC_COMMIT => 1 | DPCTC_CANCEL => 2 | DPCTC_RUNNING => 3 | DPCTC_FINISH => 4
  end.

(** ** Elements *)

Record dpele_tmrspec := TmrSpec { ts_expire : Z; ts_after : spec_float }.

Record dpele := Ele {
  e_type : dpele_type;
  e_able : Z;
  e_want : Z;
  e_poll : Z;
  e_timing : bool;
  e_close : bool;
  e_detach : bool;
  e_reto : bool;
  e_ret : Z;
  e_tmr : option dpele_tmrspec;
  e_refc : Z;
  e_fd : Z; (* meaningful for an EFD; see [union_fd] *)
  e_toid : Z; (* 8 bits *)
  e_fromid : Z; (* 8 bits *)
  e_stat : dpctc_stat_e;
  e_cop : Z;
  e_asc : option Z; (* the operation in progress *)
  e_scratch : option (Z * list Z); (* its size in bytes, its words *)
}.

(** The [int] the union reads as: an [fd], or the bytes of the other member. *)
Definition union_fd (e : dpele) : Z :=
  match ty_type (e_type e) with
  | DPELE_TYPE_CTC => e_toid e + 256 * e_fromid e + 65536 * stat_index (e_stat e)
  | _ => e_fd e
  end.

(** One field replaced. *)
Section Updates.
Variable e : dpele.
Definition set_able (v : Z) := Ele (e_type e) v (e_want e) (e_poll e) (e_timing e) (e_close e) (e_detach e) (e_reto e) (e_ret e) (e_tmr e) (e_refc e) (e_fd e) (e_toid e) (e_fromid e) (e_stat e) (e_cop e) (e_asc e) (e_scratch e).
Definition set_want (v : Z) := Ele (e_type e) (e_able e) v (e_poll e) (e_timing e) (e_close e) (e_detach e) (e_reto e) (e_ret e) (e_tmr e) (e_refc e) (e_fd e) (e_toid e) (e_fromid e) (e_stat e) (e_cop e) (e_asc e) (e_scratch e).
Definition set_poll (v : Z) := Ele (e_type e) (e_able e) (e_want e) v (e_timing e) (e_close e) (e_detach e) (e_reto e) (e_ret e) (e_tmr e) (e_refc e) (e_fd e) (e_toid e) (e_fromid e) (e_stat e) (e_cop e) (e_asc e) (e_scratch e).
Definition set_timing (v : bool) := Ele (e_type e) (e_able e) (e_want e) (e_poll e) v (e_close e) (e_detach e) (e_reto e) (e_ret e) (e_tmr e) (e_refc e) (e_fd e) (e_toid e) (e_fromid e) (e_stat e) (e_cop e) (e_asc e) (e_scratch e).
Definition set_close (v : bool) := Ele (e_type e) (e_able e) (e_want e) (e_poll e) (e_timing e) v (e_detach e) (e_reto e) (e_ret e) (e_tmr e) (e_refc e) (e_fd e) (e_toid e) (e_fromid e) (e_stat e) (e_cop e) (e_asc e) (e_scratch e).
Definition set_detach (v : bool) := Ele (e_type e) (e_able e) (e_want e) (e_poll e) (e_timing e) (e_close e) v (e_reto e) (e_ret e) (e_tmr e) (e_refc e) (e_fd e) (e_toid e) (e_fromid e) (e_stat e) (e_cop e) (e_asc e) (e_scratch e).
Definition set_reto (v : bool) := Ele (e_type e) (e_able e) (e_want e) (e_poll e) (e_timing e) (e_close e) (e_detach e) v (e_ret e) (e_tmr e) (e_refc e) (e_fd e) (e_toid e) (e_fromid e) (e_stat e) (e_cop e) (e_asc e) (e_scratch e).
Definition set_ret (v : Z) := Ele (e_type e) (e_able e) (e_want e) (e_poll e) (e_timing e) (e_close e) (e_detach e) (e_reto e) v (e_tmr e) (e_refc e) (e_fd e) (e_toid e) (e_fromid e) (e_stat e) (e_cop e) (e_asc e) (e_scratch e).
Definition set_tmr (v : option dpele_tmrspec) := Ele (e_type e) (e_able e) (e_want e) (e_poll e) (e_timing e) (e_close e) (e_detach e) (e_reto e) (e_ret e) v (e_refc e) (e_fd e) (e_toid e) (e_fromid e) (e_stat e) (e_cop e) (e_asc e) (e_scratch e).
Definition set_refc (v : Z) := Ele (e_type e) (e_able e) (e_want e) (e_poll e) (e_timing e) (e_close e) (e_detach e) (e_reto e) (e_ret e) (e_tmr e) v (e_fd e) (e_toid e) (e_fromid e) (e_stat e) (e_cop e) (e_asc e) (e_scratch e).
Definition set_fd (v : Z) := Ele (e_type e) (e_able e) (e_want e) (e_poll e) (e_timing e) (e_close e) (e_detach e) (e_reto e) (e_ret e) (e_tmr e) (e_refc e) v (e_toid e) (e_fromid e) (e_stat e) (e_cop e) (e_asc e) (e_scratch e).
Definition set_toid (v : Z) := Ele (e_type e) (e_able e) (e_want e) (e_poll e) (e_timing e) (e_close e) (e_detach e) (e_reto e) (e_ret e) (e_tmr e) (e_refc e) (e_fd e) (to_u8 v) (e_fromid e) (e_stat e) (e_cop e) (e_asc e) (e_scratch e).
Definition set_fromid (v : Z) := Ele (e_type e) (e_able e) (e_want e) (e_poll e) (e_timing e) (e_close e) (e_detach e) (e_reto e) (e_ret e) (e_tmr e) (e_refc e) (e_fd e) (e_toid e) (to_u8 v) (e_stat e) (e_cop e) (e_asc e) (e_scratch e).
Definition set_stat (v : dpctc_stat_e) := Ele (e_type e) (e_able e) (e_want e) (e_poll e) (e_timing e) (e_close e) (e_detach e) (e_reto e) (e_ret e) (e_tmr e) (e_refc e) (e_fd e) (e_toid e) (e_fromid e) v (e_cop e) (e_asc e) (e_scratch e).
Definition set_cop (v : Z) := Ele (e_type e) (e_able e) (e_want e) (e_poll e) (e_timing e) (e_close e) (e_detach e) (e_reto e) (e_ret e) (e_tmr e) (e_refc e) (e_fd e) (e_toid e) (e_fromid e) (e_stat e) v (e_asc e) (e_scratch e).
Definition set_asc (v : option Z) := Ele (e_type e) (e_able e) (e_want e) (e_poll e) (e_timing e) (e_close e) (e_detach e) (e_reto e) (e_ret e) (e_tmr e) (e_refc e) (e_fd e) (e_toid e) (e_fromid e) (e_stat e) (e_cop e) v (e_scratch e).
Definition set_scratch (v : option (Z * list Z)) := Ele (e_type e) (e_able e) (e_want e) (e_poll e) (e_timing e) (e_close e) (e_detach e) (e_reto e) (e_ret e) (e_tmr e) (e_refc e) (e_fd e) (e_toid e) (e_fromid e) (e_stat e) (e_cop e) (e_asc e) v.
End Updates.

Definition ele_is (e : dpele) (t : dpele_type_e) : bool := bool_decide (ty_type (e_type e) = t).
