(* ===== verification/Tmrset.v ===== *)
(** * The timer set ([dptmrset_t], [lib/dpapp/os/linux/dpevp_epoll.c])

    The timers of an event loop are an ordered tree of elements, keyed by
    expiry time and, for equal times, by address.  The tree itself (the
    generated code of [dprbt.h]) is the interface [OrdTree]: its in-order
    sequence and the laws of insertion, removal and minimum; sorted lists are
    an instance.  The key lives in the element, and [_dptmrset_upsert] changes
    it while the element may be in the tree. *)

From Stdlib Require Import SpecFloat Sorted.
From S2P Require Import Prelude Dpret Ele.

(** ** Double arithmetic *)

Definition prec : Z := 53.
Definition emax : Z := 1024.
Definition Z2SF (z : Z) : spec_float :=
  match z with
  | 0 => S754_zero false
  | _ => binary_normalize prec emax z 0 false
  end.
Definition f64_mul : spec_float -> spec_float -> spec_float := SFmul prec emax.
Definition f64_add : spec_float -> spec_float -> spec_float := SFadd prec emax.
Definition f64_ltb : spec_float -> spec_float -> bool := SFltb.

(** The integer part, towards zero; [None] for infinities and NaN. *)
Definition SF_trunc (x : spec_float) : option Z :=
  match x with
  | S754_zero _ => Some 0
  | S754_finite s m e =>
      let v := if 0 <=? e then Z.pos m * 2 ^ e else Z.pos m / 2 ^ (- e) in
      Some (if s then - v else v)
  | _ => None
  end.

(** Conversion to [int64_t]: undefined out of range. *)
Definition SF_to_i64 (x : spec_float) : option Z :=
  v ← SF_trunc x;
  if (-9223372036854775808 <=? v) && (v <=? 9223372036854775807) then Some v else None.

(** [dplog_millis() + (double)after * 1000.0], stored in an [int64_t]. *)
Definition tmr_expire (now : Z) (after : spec_float) : option Z :=
  SF_to_i64 (f64_add (Z2SF now) (f64_mul after (Z2SF 1000))).

(** ** The interface of the tree *)

Class OrdTree (T : Type) := {
  rb_init : T;
  rb_inorder : T -> list loc;
  rb_insert : (loc -> loc -> Z) -> loc -> T -> option loc * T; (* the equal element found, or [None] *)
  rb_remove : loc -> T -> T;
}.

Definition rb_sorted (cmp : loc -> loc -> Z) (l : list loc) : Prop :=
  StronglySorted (fun x y => cmp x y < 0) l.

(** [cmp] orders the elements of [l]. *)
Record cmp_on (cmp : loc -> loc -> Z) (l : list loc) : Prop := {
  cmp_anti : forall x y, x ∈ l -> y ∈ l -> cmp x y < 0 <-> 0 < cmp y x;
  cmp_trans : forall x y z, x ∈ l -> y ∈ l -> z ∈ l -> cmp x y < 0 -> cmp y z < 0 -> cmp x z < 0;
  cmp_total : forall x y, x ∈ l -> y ∈ l -> cmp x y = 0 -> x = y;
}.

Class OrdTreeLaws (T : Type) `{OrdTree T} : Prop := {
  rb_init_nil : rb_inorder (rb_init : T) = [];
  rb_insert_new cmp x (t : T) :
    cmp_on cmp (x :: rb_inorder t) -> rb_sorted cmp (rb_inorder t) -> x ∉ rb_inorder t ->
    fst (rb_insert cmp x t) = None /\
    rb_sorted cmp (rb_inorder (snd (rb_insert cmp x t))) /\
    rb_inorder (snd (rb_insert cmp x t)) ≡ₚ x :: rb_inorder t;
  rb_remove_inorder x (t : T) :
    NoDup (rb_inorder t) ->
    rb_inorder (rb_remove x t) = filter (fun y : loc => y <> x) (rb_inorder t);
}.

(** Operations that only walk the tree. *)
Section Walks.
Context {T : Type} `{OrdTree T}.

Definition rb_min (t : T) : option loc := head (rb_inorder t).

(** The elements before and after [x]. *)
Fixpoint nbrs (p : option loc) (x : loc) (l : list loc) : option loc * option loc :=
  match l with
  | [] => (None, None)
  | y :: l => if decide (y = x) then (p, head l) else nbrs (Some y) x l
  end.

Definition rb_reinsert (cmp : loc -> loc -> Z) (x : loc) (t : T) : option loc * T :=
  let '(p, n) := nbrs None x (rb_inorder t) in
  let out_of_order :=
    match p with Some p => 0 <=? cmp p x | None => false end
    || match n with Some n => 0 <=? cmp x n | None => false end in
  if out_of_order then rb_insert cmp x (rb_remove x t) else (None, t).
End Walks.

(** ** Sorted lists implement the interface *)

Fixpoint sl_insert (cmp : loc -> loc -> Z) (x : loc) (l : list loc) : option loc * list loc :=
  match l with
  | [] => (None, [x])
  | y :: l' =>
      if cmp x y <? 0 then (None, x :: l)
      else if 0 <? cmp x y then let r := sl_insert cmp x l' in (r.1, y :: r.2)
      else (Some y, l)
  end.

#[export] Instance sl_tree : OrdTree (list loc) := {
  rb_init := [];
  rb_inorder l := l;
  rb_insert := sl_insert;
  rb_remove x l := filter (fun y : loc => y <> x) l;
}.

Lemma cmp_on_sub cmp l k : (forall x, x ∈ k -> x ∈ l) -> cmp_on cmp l -> cmp_on cmp k.
Proof. intros Hs [A B C]. split; eauto. Qed.

Lemma sl_insert_perm cmp x l r : sl_insert cmp x l = (None, r) -> r ≡ₚ x :: l.
Proof.
  revert r. induction l as [|y l IH]; intros r; cbn; [by intros [= <-]|].
  destruct (_ <? 0); [by intros [= <-]|]. destruct (0 <? _); [|done].
  destruct (sl_insert cmp x l) as [o k]. cbn. intros [= -> <-]. rewrite (IH k eq_refl).
  apply Permutation_swap.
Qed.

Lemma sl_insert_new cmp x l :
  cmp_on cmp (x :: l) -> rb_sorted cmp l -> x ∉ l ->
  exists r, sl_insert cmp x l = (None, r) /\ rb_sorted cmp r.
Proof.
  induction l as [|y l IH]; intros Hc Hs Hx; cbn.
  { eexists. split; [done|]. repeat constructor. }
  apply StronglySorted_inv in Hs as [Hs Hy]. apply not_elem_of_cons in Hx as [Hxy Hx].
  destruct (Z.ltb_spec (cmp x y) 0).
  - eexists. split; [done|]. constructor; [by constructor|]. constructor; [done|].
    rewrite Forall_forall in Hy |- *. intros z Hz. apply (cmp_trans _ _ Hc x y z); try set_solver; auto.
  - destruct (Z.ltb_spec 0 (cmp x y)).
    + destruct IH as (r & Hr & Hsr); [|done|done|].
      { eapply cmp_on_sub; [|exact Hc]. set_solver. }
      rewrite Hr. cbn. eexists. split; [done|]. constructor; [done|].
      rewrite Forall_forall in Hy |- *. intros z Hz.
      apply sl_insert_perm in Hr. rewrite Hr in Hz. apply elem_of_cons in Hz as [->|Hz]; [|auto].
      apply (cmp_anti _ _ Hc); set_solver.
    + destruct Hxy. apply (cmp_total _ _ Hc); [set_solver..|lia].
Qed.

#[export] Instance sl_tree_laws : OrdTreeLaws (list loc).
Proof.
  split; [done| |done]. intros cmp x t Hc Hs Hx. cbn in *.
  destruct (sl_insert_new _ _ _ Hc Hs Hx) as (r & Hr & Hsr).
  rewrite Hr. split_and!; [done|done|]. by apply sl_insert_perm in Hr.
Qed.

(** ** The operations *)

Section Ops.
Context {T : Type} `{OrdTree T}.

(** The elements the links of the tree run through. *)
Abbreviation eles := (gmap loc dpele) (only parsing).

Definition expire_of (es : eles) (x : loc) : Z :=
  match es !! x with Some e => match e_tmr e with Some s => ts_expire s | None => 0 end | None => 0 end.

(** The key is read from the elements each time. *)
Definition _dpele_tmrspec_compare (es : eles) (o1 o2 : loc) : Z :=
  let c := expire_of es o1 - expire_of es o2 in
  if c =? 0 then Z.pos o1 - Z.pos o2 else c.

Definition dptmrset_init : T := rb_init.

Definition ele_get (x : loc) : ST eles dpele :=
  fun es => match es !! x with Some e => Some (e, es) | None => None end.
Definition ele_put (x : loc) (e : dpele) : ST eles unit :=
  fun es => match es !! x with Some _ => Some (tt, <[x := e]> es) | None => None end.

(** Every element is unlinked and the root reset; the timing flags stay. *)
Definition dptmrset_free (self : T) : T :=
  let _ := fold_left (fun t x => rb_remove x t) (rb_inorder self) self in rb_init.

(** [now] is [dplog_millis()]. *)
Definition _dptmrset_upsert (now : Z) (self : T) (ele : loc) : ST eles (Z * T) :=
  e ← ele_get ele;
  match e_tmr e with
  | None => mret (DPE_INVAL, self)
  | Some spec =>
      if f64_ltb (ts_after spec) (S754_zero false) then mret (DPE_INVAL, self) else
      x ← lift_opt (tmr_expire now (ts_after spec));
      ele_put ele (set_tmr e (Some (TmrSpec x (ts_after spec))));;
      es ← gets id;
      if e_timing e then
        mret (DPE_OK, snd (rb_reinsert (_dpele_tmrspec_compare es) ele self))
      else
        let r := rb_insert (_dpele_tmrspec_compare es) ele self in
        match fst r with
        | Some _ => mret (DPE_INTERNAL_ERROR, snd r)
        | None =>
            e ← ele_get ele;
            ele_put ele (set_timing e true);;
            mret (DPE_OK, snd r)
        end
  end.

Definition _dptmrset_remove (self : T) (ele : option loc) : ST eles T :=
  match ele with
  | None => mret self
  | Some ele =>
      e ← ele_get ele;
      if e_timing e then
        ele_put ele (set_timing e false);;
        mret (rb_remove ele self)
      else mret self
  end.

(** The element that expired, the wait in milliseconds and the tree. *)
Definition dptmrset_expire (now : Z) (self : T) : ST eles (option loc * Z * T) :=
  match rb_min self with
  | None => mret (None, -1, self)
  | Some mintmr =>
      e ← ele_get mintmr;
      spec ← lift_opt (e_tmr e);
      if now <? ts_expire spec then
        let nextms := ts_expire spec - now - 10 in
        mret (None, to_i32 (if 1 <? nextms then nextms else 1), self)
      else
        ele_put mintmr (set_timing e false);;
        mret (Some mintmr, 0, rb_remove mintmr self)
  end.

(** ** The invariant *)

(** The tree holds, in key order, exactly the elements marked as timing, and
    each of them has a timer slot. *)
Record tmrset_ok (es : eles) (t : T) : Prop := {
  tms_sorted : rb_sorted (_dpele_tmrspec_compare es) (rb_inorder t);
  tms_mem : forall x, x ∈ rb_inorder t <-> exists e, es !! x = Some e /\ e_timing e = true;
  tms_spec : forall x e, es !! x = Some e -> e_timing e = true -> is_Some (e_tmr e);
}.
End Ops.

Lemma compare_cmp_on es l : cmp_on (_dpele_tmrspec_compare es) l.
Proof.
  unfold _dpele_tmrspec_compare. split; intros.
  - destruct (Z.eqb_spec (expire_of es x - expire_of es y) 0),
      (Z.eqb_spec (expire_of es y - expire_of es x) 0); lia.
  - destruct (Z.eqb_spec (expire_of es x - expire_of es y) 0),
      (Z.eqb_spec (expire_of es y - expire_of es z) 0),
      (Z.eqb_spec (expire_of es x - expire_of es z) 0); lia.
  - destruct (Z.eqb_spec (expire_of es x - expire_of es y) 0); lia.
Qed.

Lemma compare_le es x y : _dpele_tmrspec_compare es x y < 0 -> expire_of es x <= expire_of es y.
Proof.
  unfold _dpele_tmrspec_compare. destruct (Z.eqb_spec (expire_of es x - expire_of es y) 0); lia.
Qed.

Lemma compare_irrefl es x : ~ _dpele_tmrspec_compare es x x < 0.
Proof. unfold _dpele_tmrspec_compare. rewrite Z.sub_diag. cbn. lia. Qed.

Lemma rb_sorted_NoDup es l : rb_sorted (_dpele_tmrspec_compare es) l -> NoDup l.
Proof.
  induction 1 as [|x l Hs IH Hx]; [apply NoDup_nil_2|]. apply NoDup_cons. split; [|done].
  intros Hin. rewrite Forall_forall in Hx. by eapply compare_irrefl, Hx.
Qed.

Lemma rb_sorted_ext cmp cmp' l :
  (forall x y, x ∈ l -> y ∈ l -> cmp x y = cmp' x y) -> rb_sorted cmp l -> rb_sorted cmp' l.
Proof.
  intros He. induction 1 as [|x l Hs IH Hx]; constructor.
  - apply IH. intros. apply He; by right.
  - rewrite Forall_forall in *. intros y Hy. rewrite <-He; [by apply Hx|left|by right].
Qed.

Lemma compare_ext es es' x y :
  expire_of es' x = expire_of es x -> expire_of es' y = expire_of es y ->
  _dpele_tmrspec_compare es' x y = _dpele_tmrspec_compare es x y.
Proof. unfold _dpele_tmrspec_compare. by intros -> ->. Qed.

Lemma rb_sorted_filter cmp l P `{forall x : loc, Decision (P x)} : rb_sorted cmp l -> rb_sorted cmp (filter P l).
Proof.
  induction 1 as [|x l Hs IH Hx]; [constructor|]. rewrite filter_cons. case_decide; [|done].
  constructor; [done|]. rewrite Forall_forall in *. intros y [_ Hy]%list_elem_of_filter. auto.
Qed.

Lemma wp_ele_get es x e Q : es !! x = Some e -> Q e es -> wp (ele_get x) es Q.
Proof. intros H. unfold wp, ele_get. by rewrite H. Qed.

Lemma wp_ele_put es x e e' Q : es !! x = Some e -> Q tt (<[x := e']> es) -> wp (ele_put x e') es Q.
Proof. intros H. unfold wp, ele_put. by rewrite H. Qed.

Lemma expire_of_insert es x e y :
  expire_of (<[x := e]> es) y =
    if decide (x = y) then match e_tmr e with Some s => ts_expire s | None => 0 end else expire_of es y.
Proof.
  unfold expire_of. case_decide; subst; [by rewrite lookup_insert_eq|by rewrite lookup_insert_ne].
Qed.

Lemma nbrs_app p x l1 l2 :
  x ∉ l1 -> nbrs p x (l1 ++ x :: l2) = (match last l1 with Some y => Some y | None => p end, head l2).
Proof.
  revert p. induction l1 as [|y l1 IH]; intros p Hx; cbn [app nbrs].
  - by rewrite decide_True.
  - apply not_elem_of_cons in Hx as [Hxy Hx]. rewrite decide_False by congruence.
    rewrite IH by done. f_equal. destruct l1; [done|]. rewrite last_cons_cons.
    destruct (last (p0 :: l1)) eqn:E; [done|]. by apply last_None in E.
Qed.

Lemma rb_sorted_app cmp l k :
  rb_sorted cmp (l ++ k) <->
  rb_sorted cmp l /\ rb_sorted cmp k /\ forall x y, x ∈ l -> y ∈ k -> cmp x y < 0.
Proof.
  unfold rb_sorted. induction l as [|z l IH]; cbn.
  - split; [|tauto]. intros H. split_and!; [constructor|done|]. intros x y Hx. by apply elem_of_nil in Hx.
  - split.
    + intros [Hs Hz]%StronglySorted_inv. apply IH in Hs as (A & B & C). rewrite Forall_app in Hz.
      destruct Hz as [Hz1 Hz2]. rewrite Forall_forall in Hz2. split_and!; [by constructor|done|].
      intros x y [->|Hx]%elem_of_cons Hy; auto.
    + intros ([A Hz]%StronglySorted_inv & B & C). constructor.
      * apply IH. split_and!; auto. intros x y Hx Hy. apply C; [by right|done].
      * apply Forall_app. split; [done|]. apply Forall_forall. intros y Hy. apply C; [left|done].
Qed.

Lemma rb_sorted_singleton cmp x : rb_sorted cmp [x].
Proof. repeat constructor. Qed.

Lemma rb_sorted_cons cmp x l : rb_sorted cmp (x :: l) <-> rb_sorted cmp l /\ forall y, y ∈ l -> cmp x y < 0.
Proof.
  split.
  - intros [Hs Hx]%StronglySorted_inv. by rewrite Forall_forall in Hx.
  - intros [Hs Hx]. constructor; [done|]. by rewrite Forall_forall.
Qed.

(** A sorted sequence stays sorted when the key of [x] changes but still fits
    between its neighbours. *)
Lemma rb_sorted_rekey es es' l1 x l2 :
  (forall y, y <> x -> expire_of es' y = expire_of es y) ->
  rb_sorted (_dpele_tmrspec_compare es) (l1 ++ x :: l2) ->
  (forall p, last l1 = Some p -> _dpele_tmrspec_compare es' p x < 0) ->
  (forall n, head l2 = Some n -> _dpele_tmrspec_compare es' x n < 0) ->
  rb_sorted (_dpele_tmrspec_compare es') (l1 ++ x :: l2).
Proof.
  intros Hex Hs Hp Hn. assert (Hnd := rb_sorted_NoDup _ _ Hs).
  apply NoDup_app in Hnd as (_ & Hd1 & [Hx2 _]%NoDup_cons).
  assert (Hx1 : x ∉ l1) by (intros Hx; by apply (Hd1 x Hx); left).
  assert (Hext : forall l, x ∉ l -> rb_sorted (_dpele_tmrspec_compare es) l ->
    rb_sorted (_dpele_tmrspec_compare es') l).
  { intros l Hx. apply rb_sorted_ext. intros y z Hy Hz. symmetry.
    apply compare_ext; apply Hex; congruence. }
  assert (Hc := compare_cmp_on es' (l1 ++ x :: l2)).
  apply rb_sorted_app in Hs as (A & [B1 B2]%rb_sorted_cons & C).
  assert (A' := Hext _ Hx1 A). assert (B' := Hext _ Hx2 B1).
  assert (Hl1 : forall y, y ∈ l1 -> _dpele_tmrspec_compare es' y x < 0).
  { intros y Hy. destruct (last l1) as [p|] eqn:El.
    2: { apply last_None in El as ->. by apply elem_of_nil in Hy. }
    apply last_Some in El as [k ->]. apply elem_of_app in Hy as [Hy|Hy%list_elem_of_singleton].
    - apply rb_sorted_app in A' as (_ & _ & A'). apply (cmp_trans _ _ Hc y p x); [set_solver..| |].
      + apply A'; [done|left].
      + by apply Hp.
    - subst y. by apply Hp. }
  assert (Hl2 : forall y, y ∈ l2 -> _dpele_tmrspec_compare es' x y < 0).
  { intros y Hy. destruct l2 as [|n l2]; [by apply elem_of_nil in Hy|].
    apply elem_of_cons in Hy as [->|Hy]; [by apply Hn|].
    apply rb_sorted_cons in B' as [_ B']. apply (cmp_trans _ _ Hc x n y); [set_solver..| |].
    - by apply Hn.
    - by apply B'. }
  apply rb_sorted_app. split_and!; [done|by apply rb_sorted_cons|].
  intros y z Hy [->|Hz]%elem_of_cons; [by apply Hl1|].
  apply (cmp_trans _ _ Hc y x z); [set_solver..|by apply Hl1|by apply Hl2].
Qed.

Section Facts.
#[local] Set Default Proof Using "Type*".
Context {T : Type} `{OrdTreeLaws T}.

(** What an operation that changes [x] alone leaves alone. *)
Definition only (x : loc) (es es' : gmap loc dpele) : Prop := forall y, y <> x -> es' !! y = es !! y.

Lemma only_expire x es es' y : only x es es' -> y <> x -> expire_of es' y = expire_of es y.
Proof. intros Ho Hy. unfold expire_of. by rewrite Ho. Qed.

Lemma only_sorted x es es' l :
  only x es es' -> x ∉ l -> rb_sorted (_dpele_tmrspec_compare es) l ->
  rb_sorted (_dpele_tmrspec_compare es') l.
Proof.
  intros Ho Hx. apply rb_sorted_ext. intros y z Hy Hz. symmetry.
  apply compare_ext; apply (only_expire x); congruence || done.
Qed.

Lemma only_insert x es e : only x es (<[x := e]> es).
Proof. intros y Hy. by rewrite lookup_insert_ne. Qed.

(** Reinserting an element of the tree whose key changed. *)
Lemma reinsert_ok es es' x (t : T) :
  only x es es' -> x ∈ rb_inorder t -> rb_sorted (_dpele_tmrspec_compare es) (rb_inorder t) ->
  rb_sorted (_dpele_tmrspec_compare es') (rb_inorder (snd (rb_reinsert (_dpele_tmrspec_compare es') x t))) /\
  rb_inorder (snd (rb_reinsert (_dpele_tmrspec_compare es') x t)) ≡ₚ rb_inorder t.
Proof.
  intros Ho Hin Hs. assert (Hnd := rb_sorted_NoDup _ _ Hs).
  apply list_elem_of_split in Hin as (l1 & l2 & El). rewrite El in Hs, Hnd.
  assert (Hnd' := Hnd). apply NoDup_app in Hnd' as (_ & Hd1 & [Hx2 _]%NoDup_cons).
  assert (Hx1 : x ∉ l1) by (intros Hx; by apply (Hd1 x Hx); left).
  unfold rb_reinsert. rewrite El, nbrs_app by done.
  destruct (_ || _) eqn:E.
  - assert (Hr : rb_inorder (rb_remove x t) = l1 ++ l2).
    { rewrite rb_remove_inorder by (by rewrite El). rewrite El. by apply filter_remove. }
    destruct (rb_insert_new (_dpele_tmrspec_compare es') x (rb_remove x t)) as (_ & A & B).
    + apply compare_cmp_on.
    + rewrite Hr. eapply only_sorted; [done|set_solver|].
      apply rb_sorted_app in Hs as (S1 & [S2 _]%rb_sorted_cons & S3). apply rb_sorted_app.
      split_and!; auto. intros y z Hy Hz. apply S3; [done|by right].
    + rewrite Hr. set_solver.
    + split; [done|]. rewrite B, Hr. by apply Permutation_middle.
  - cbn. rewrite El. split; [|done].
    apply orb_false_iff in E as [E1 E2].
    eapply rb_sorted_rekey; [|exact Hs| |].
    + intros y Hy. by eapply only_expire.
    + intros p Hp. rewrite Hp in E1. by apply Z.leb_gt in E1.
    + intros n Hn. rewrite Hn in E2. by apply Z.leb_gt in E2.
Qed.

(** The remaining clauses of the invariant after an operation on [x]. *)
Lemma tmrset_ok_intro es es' x (t t' : T) :
  tmrset_ok es t -> only x es es' ->
  rb_sorted (_dpele_tmrspec_compare es') (rb_inorder t') ->
  (forall y, y <> x -> y ∈ rb_inorder t' <-> y ∈ rb_inorder t) ->
  (x ∈ rb_inorder t' <-> exists e, es' !! x = Some e /\ e_timing e = true) ->
  (forall e, es' !! x = Some e -> e_timing e = true -> is_Some (e_tmr e)) ->
  tmrset_ok es' t'.
Proof.
  intros [A B C] Ho Hs Hin Hx Hspec. split; [done| |].
  - intros y. destruct (decide (y = x)) as [->|Hy]; [done|]. by rewrite Hin, B, Ho.
  - intros y e. destruct (decide (y = x)) as [->|Hy]; [apply Hspec|]. rewrite Ho by done. apply C.
Qed.

(** The outcome of [_dptmrset_upsert]: refused without a timeout, otherwise the
    element is timing and expires at the time computed from [now]. *)
Definition upserted (now : Z) (es : gmap loc dpele) (t : T) (x : loc) (e : dpele)
    (r : Z * T) (es' : gmap loc dpele) : Prop :=
  tmrset_ok es' r.2 /\ only x es es' /\
  match e_tmr e with
  | Some spec =>
      if f64_ltb (ts_after spec) (S754_zero false) then r = (DPE_INVAL, t) /\ es' = es
      else exists v, tmr_expire now (ts_after spec) = Some v /\ r.1 = DPE_OK /\
        es' !! x = Some (set_timing (set_tmr e (Some (TmrSpec v (ts_after spec)))) true)
  | None => r = (DPE_INVAL, t) /\ es' = es
  end.

Lemma wp_upsert now es (t : T) x e :
  tmrset_ok es t -> es !! x = Some e ->
  (forall s, e_tmr e = Some s -> f64_ltb (ts_after s) (S754_zero false) = false ->
     is_Some (tmr_expire now (ts_after s))) ->
  wp (_dptmrset_upsert now t x) es (upserted now es t x e).
Proof.
  intros Hok He Hrange. unfold _dptmrset_upsert, upserted. apply wp_bind. eapply wp_ele_get; [done|].
  destruct (e_tmr e) as [s|] eqn:Es; [|by apply wp_ret].
  destruct (f64_ltb _ _) eqn:Eneg; [by apply wp_ret|].
  destruct (Hrange s eq_refl Eneg) as [v Hv]. rewrite Hv. apply wp_bind. unfold wp at 1; cbn.
  apply wp_bind. eapply wp_ele_put; [done|]. apply wp_bind. unfold wp at 1; cbn.
  set (e1 := set_tmr e _). set (es1 := <[x := e1]> es).
  assert (Hx1 : es1 !! x = Some e1) by apply lookup_insert_eq.
  assert (Ho : only x es es1) by apply only_insert.
  destruct (e_timing e) eqn:Et.
  - assert (Hin : x ∈ rb_inorder t) by (apply (tms_mem _ _ Hok); eauto).
    destruct (reinsert_ok es es1 x t Ho Hin (tms_sorted _ _ Hok)) as [A B].
    assert (e1 = set_timing e1 true) as He1 by (unfold e1; destruct e; cbn in *; by subst).
    apply wp_ret. cbn [fst snd]. split_and!; [|done|].
    + eapply tmrset_ok_intro; [done..| | |].
      * intros y _. by rewrite B.
      * rewrite B. split; [intros _|done]. exists e1. split; [done|exact Et].
      * intros e' Hx' _. rewrite Hx1 in Hx'. injection Hx' as <-. by exists (TmrSpec v (ts_after s)).
    + exists v. split_and!; [done|done|]. rewrite Hx1. f_equal. exact He1.
  - assert (Hni : x ∉ rb_inorder t).
    { intros (e' & He' & Ht)%(tms_mem _ _ Hok). congruence. }
    destruct (rb_insert_new (_dpele_tmrspec_compare es1) x t) as (A & B & C).
    { apply compare_cmp_on. }
    { eapply only_sorted; [done|done|apply (tms_sorted _ _ Hok)]. }
    { done. }
    rewrite A. apply wp_bind. eapply wp_ele_get; [done|]. apply wp_bind. eapply wp_ele_put; [done|].
    set (es2 := <[x := set_timing e1 true]> es1).
    assert (Hx2 : es2 !! x = Some (set_timing e1 true)) by apply lookup_insert_eq.
    assert (Ho2 : only x es es2).
    { intros y Hy. unfold es2. by rewrite lookup_insert_ne, Ho. }
    apply wp_ret. cbn [fst snd]. split_and!; [|done|].
    + eapply (tmrset_ok_intro es es2); [done..| | | |].
      * eapply rb_sorted_ext; [|exact B]. intros y z Hy Hz.
        assert (Hexp : forall w, expire_of es2 w = expire_of es1 w).
        { intros w. unfold es2. rewrite expire_of_insert. case_decide; [subst|done].
          unfold expire_of. by rewrite Hx1. }
        symmetry. by apply compare_ext.
      * intros y Hy. rewrite C. set_solver.
      * rewrite C. split; [intros _|intros _; left]. eauto.
      * intros e' Hx' _. rewrite Hx2 in Hx'. injection Hx' as <-. by exists (TmrSpec v (ts_after s)).
    + exists v. by split_and!.
Qed.

(** Clearing the timing flag of [x] and taking it out of the tree. *)
Lemma tmrset_ok_remove es (t : T) x e :
  tmrset_ok es t -> es !! x = Some e -> e_timing e = true ->
  tmrset_ok (<[x := set_timing e false]> es) (rb_remove x t).
Proof.
  intros Hok He Ht. assert (Hnd := rb_sorted_NoDup _ _ (tms_sorted _ _ Hok)).
  assert (Hr : rb_inorder (rb_remove x t) = filter (fun y : loc => y <> x) (rb_inorder t))
    by by apply rb_remove_inorder.
  eapply tmrset_ok_intro; [done|apply only_insert|..].
  - rewrite Hr. eapply only_sorted; [apply only_insert| |].
    + intros [? _]%list_elem_of_filter. done.
    + apply rb_sorted_filter, (tms_sorted _ _ Hok).
  - intros y Hy. rewrite Hr, list_elem_of_filter. tauto.
  - rewrite Hr, list_elem_of_filter, lookup_insert_eq. split; [by intros [? _]|].
    intros (e' & [= <-] & ?). done.
  - intros e'. rewrite lookup_insert_eq. by intros [= <-].
Qed.

Lemma wp_tmr_remove es (t : T) x e :
  tmrset_ok es t -> es !! x = Some e ->
  wp (_dptmrset_remove t (Some x)) es (fun t' es' =>
    tmrset_ok es' t' /\ only x es es' /\ es' !! x = Some (set_timing e false)).
Proof.
  intros Hok He. unfold _dptmrset_remove. apply wp_bind. eapply wp_ele_get; [done|].
  destruct (e_timing e) eqn:Et.
  - apply wp_bind. eapply wp_ele_put; [done|]. apply wp_ret. split_and!.
    + by apply tmrset_ok_remove.
    + apply only_insert.
    + apply lookup_insert_eq.
  - apply wp_ret. split_and!; [done|by intros y|]. rewrite He. by destruct e; cbn in *; subst.
Qed.

(** The least element is due, or nothing is. *)
Lemma wp_tmr_expire now es (t : T) :
  tmrset_ok es t ->
  wp (dptmrset_expire now t) es (fun r es' => tmrset_ok es' r.2 /\
    match r.1.1 with
    | Some x => exists e, es !! x = Some e /\ e_timing e = true /\ expire_of es x <= now /\
        es' = <[x := set_timing e false]> es /\ r.1.2 = 0 /\
        (exists l, rb_inorder t = x :: l /\ rb_inorder r.2 = l) /\
        (forall y, y ∈ rb_inorder t -> expire_of es x <= expire_of es y)
    | None => es' = es /\ r.2 = t /\
        ((rb_inorder t = [] /\ r.1.2 = -1) \/
         exists x, x ∈ rb_inorder t /\ now < expire_of es x /\
           (forall y, y ∈ rb_inorder t -> expire_of es x <= expire_of es y) /\
           r.1.2 = to_i32 (Z.max 1 (expire_of es x - now - 10)))
    end).
Proof.
  intros Hok. unfold dptmrset_expire, rb_min.
  destruct (rb_inorder t) as [|x l] eqn:El; cbn [head].
  { apply wp_ret. cbn. split; [done|]. auto. }
  assert (Hin : x ∈ rb_inorder t) by (rewrite El; left).
  apply (tms_mem _ _ Hok) in Hin as (e & He & Ht). destruct (tms_spec _ _ Hok _ _ He Ht) as [s Hs].
  assert (Hex : expire_of es x = ts_expire s) by (unfold expire_of; by rewrite He, Hs).
  assert (Hsort := tms_sorted _ _ Hok). rewrite El in Hsort. assert (Hsort' := Hsort).
  apply rb_sorted_cons in Hsort' as [_ Hmin].
  assert (Hle : forall y, y ∈ x :: l -> expire_of es x <= expire_of es y).
  { intros y [->|Hy]%elem_of_cons; [done|]. by apply compare_le, Hmin. }
  apply wp_bind. eapply wp_ele_get; [done|]. rewrite Hs. apply wp_bind. unfold wp at 1; cbn.
  destruct (Z.ltb_spec now (ts_expire s)).
  - apply wp_ret. cbn. split; [done|]. split_and!; [done|done|]. right. exists x.
    split_and!; [left|lia|done|]. rewrite Hex. f_equal.
    destruct (Z.ltb_spec 1 (ts_expire s - now - 10)); lia.
  - apply wp_bind. eapply wp_ele_put; [done|]. apply wp_ret. cbn [fst snd].
    split; [by apply tmrset_ok_remove|]. exists e. split_and!; [done|done|lia|done|done| |done].
    + exists l. split; [done|]. rewrite rb_remove_inorder by (rewrite El; by eapply rb_sorted_NoDup).
      rewrite El. apply (filter_remove [] l x). by eapply rb_sorted_NoDup.
Qed.
End Facts.

(** ** Properties *)

Section Properties.
#[local] Set Default Proof Using "Type*".
Context {T : Type} `{OrdTreeLaws T}.

(** A computation as the event loop sees it: the caller repeats
    [dptmrset_expire] while it answers an element. *)
Fixpoint expire_all (fuel : nat) (now : Z) (t : T) : ST (gmap loc dpele) (list loc * Z * T) :=
  match fuel with
  | O => ub
  | S fuel =>
      r ← dptmrset_expire now t;
      match r.1.1 with
      | None => mret ([], r.1.2, r.2)
      | Some x => r' ← expire_all fuel now r.2; mret (x :: r'.1.1, r'.1.2, r'.2)
      end
  end.

Definition due (now : Z) (es : gmap loc dpele) (x : loc) : Prop := expire_of es x <= now.
#[export] Instance due_dec now es x : Decision (due now es x) := decide (_ <= _).

Lemma wp_expire_all now es t fuel :
  tmrset_ok es t -> (length (rb_inorder t) < fuel)%nat ->
  wp (expire_all fuel now t) es (fun r es' =>
    tmrset_ok es' r.2 /\
    r.1.1 = filter (due now es) (rb_inorder t) /\
    rb_inorder r.2 = filter (fun x => ~ due now es x) (rb_inorder t) /\
    (forall x, x ∈ r.1.1 -> exists e, es !! x = Some e /\ es' !! x = Some (set_timing e false)) /\
    (forall x, x ∉ r.1.1 -> es' !! x = es !! x)).
Proof.
  remember (rb_inorder t) as l eqn:El. revert fuel es t El.
  induction l as [|x l IH]; intros fuel es t El Hok Hf; (destruct fuel as [|fuel]; [cbn in Hf; lia|]);
    cbn [expire_all]; apply wp_bind; (eapply wp_mono; [by eapply wp_tmr_expire|]);
    intros [[o w] t1] es1; cbn [fst snd]; rewrite <-El.
  - intros [Hok1 Hcase]. destruct o as [x|].
    { destruct Hcase as (? & _ & _ & _ & _ & _ & (? & ? & _) & _). done. }
    destruct Hcase as (-> & -> & _). apply wp_ret. cbn. split_and!; auto. intros x Hx. by apply elem_of_nil in Hx.
  - intros [Hok1 Hcase]. destruct o as [y|].
    + destruct Hcase as (e & He & Ht & Hdue & -> & _ & (l' & [= <- <-] & Hl') & _).
      assert (Hsame : forall z, expire_of (<[x := set_timing e false]> es) z = expire_of es z).
      { intros z. rewrite expire_of_insert. case_decide; [subst|done]. unfold expire_of. by rewrite He. }
      apply wp_bind. eapply wp_mono; [eapply IH; [done|done|cbn in Hf; lia]|].
      intros [[xs w'] t2] es2; cbn [fst snd]. intros (A & B & C & D & E). apply wp_ret. cbn [fst snd].
      assert (Hdd : forall k : list loc, filter (due now (<[x := set_timing e false]> es)) k = filter (due now es) k).
      { intros k. apply list_filter_iff. intros z. unfold due. by rewrite Hsame. }
      assert (Hnd : forall k : list loc, filter (fun z => ~ due now (<[x := set_timing e false]> es) z) k
                              = filter (fun z => ~ due now es z) k).
      { intros k. apply list_filter_iff. intros z. unfold due. by rewrite Hsame. }
      assert (Hxl : x ∉ l).
      { assert (Hnod := rb_sorted_NoDup _ _ (tms_sorted _ _ Hok)). rewrite <-El in Hnod.
        by apply NoDup_cons in Hnod as [? _]. }
      rewrite Hdd in B. rewrite Hnd in C.
      assert (Hxs : x ∉ xs) by (rewrite B; by intros [_ ?]%list_elem_of_filter).
      rewrite !filter_cons, (decide_True (P := due now es x)) by done. rewrite decide_False by tauto.
      split_and!; [done|by rewrite B|done| |].
      * intros z [->|Hz]%elem_of_cons.
        { exists e. split; [done|]. rewrite E by done. apply lookup_insert_eq. }
        destruct (D z Hz) as (e' & He' & Hz'). exists e'. split; [|done].
        rewrite lookup_insert_ne in He'; [done|]. by intros ->.
      * intros z [Hz1 Hz2]%not_elem_of_cons. rewrite E by done. by rewrite lookup_insert_ne.
    + destruct Hcase as (-> & -> & [[? _]|(y & Hy & Hlt & Hmin & _)]); [done|]. apply wp_ret. cbn [fst snd].
      assert (Hnone : forall z, z ∈ x :: l -> ~ due now es z).
      { intros z Hz. unfold due. specialize (Hmin z Hz). lia. }
      split_and!; [done| | |by intros z Hz%elem_of_nil|done].
      * symmetry. by apply filter_none.
      * rewrite <-El. symmetry. by apply filter_all.
Qed.
(** Taking timers while one is due yields exactly the due ones, in order of
    expiry, clears their timing flags and leaves the rest in the set; it ends
    after one look per due timer and one more. *)
Theorem dptmrset_expire_all now es t fuel :
  tmrset_ok es t -> (length (rb_inorder t) < fuel)%nat ->
  wp (expire_all fuel now t) es (fun r es' =>
    tmrset_ok es' r.2 /\ rb_sorted (_dpele_tmrspec_compare es) r.1.1 /\
    (forall x, x ∈ r.1.1 <-> x ∈ rb_inorder t /\ expire_of es x <= now) /\
    (forall x, x ∈ rb_inorder r.2 <-> x ∈ rb_inorder t /\ now < expire_of es x) /\
    (forall x, x ∈ r.1.1 -> exists e, es !! x = Some e /\ es' !! x = Some (set_timing e false)) /\
    (forall x, x ∉ r.1.1 -> es' !! x = es !! x)).
Proof.
  intros Hok Hf. eapply wp_mono; [by apply wp_expire_all|].
  intros [[xs w] t'] es'; cbn [fst snd]. intros (A & B & C & D & E). split_and!; [done| | | |done|done].
  - rewrite B. apply rb_sorted_filter, (tms_sorted _ _ Hok).
  - intros x. rewrite B, list_elem_of_filter. unfold due. tauto.
  - intros x. rewrite C, list_elem_of_filter. unfold due. rewrite Z.nle_gt. tauto.
Qed.

(** Any sequence of operations. *)
Inductive top := TUpsert (now : Z) (x : loc) | TRemove (x : loc) | TExpire (now : Z).

Definition run_top (o : top) (t : T) : ST (gmap loc dpele) T :=
  match o with
  | TUpsert now x => r ← _dptmrset_upsert now t x; mret r.2
  | TRemove x => _dptmrset_remove t (Some x)
  | TExpire now => r ← dptmrset_expire now t; mret r.2
  end.

Fixpoint run_tops (os : list top) (t : T) : ST (gmap loc dpele) T :=
  match os with
  | [] => mret t
  | o :: os => t ← run_top o t; run_tops os t
  end.

(** The timeout an element carries, which no operation changes. *)
Definition slot (es : gmap loc dpele) (x : loc) : option (option spec_float) :=
  (fun e => ts_after <$> e_tmr e) <$> es !! x.

(** The operand is a live element; a timeout to be armed gives a time in range. *)
Definition top_ok (es : gmap loc dpele) (o : top) : Prop :=
  match o with
  | TUpsert now x => exists a, slot es x = Some a /\
      forall v, a = Some v -> f64_ltb v (S754_zero false) = false -> is_Some (tmr_expire now v)
  | TRemove x => is_Some (slot es x)
  | TExpire _ => True
  end.

Lemma slot_inv es x a : slot es x = Some a -> exists e, es !! x = Some e /\ ts_after <$> e_tmr e = a.
Proof. unfold slot. destruct (es !! x) as [e|]; [|done]. intros [= <-]. eauto. Qed.

Lemma only_slot es es' x :
  only x es es' -> slot es' x = slot es x -> forall y, slot es' y = slot es y.
Proof.
  intros Ho Hx y. destruct (decide (y = x)) as [->|Hy]; [done|]. unfold slot. by rewrite Ho.
Qed.

Lemma wp_run_top es t o :
  tmrset_ok es t -> top_ok es o ->
  wp (run_top o t) es (fun t' es' => tmrset_ok es' t' /\ forall y, slot es' y = slot es y).
Proof.
  intros Hok Ho. destruct o as [now x|x|now]; cbn in *.
  - destruct Ho as (a & Ha & Hrange). apply slot_inv in Ha as (e & He & Ha).
    apply wp_bind. eapply wp_mono.
    { eapply (wp_upsert now); [done|done|]. intros s Hs Hneg. apply Hrange; [|done]. by rewrite <-Ha, Hs. }
    intros r es' (A & B & C). apply wp_ret. split; [done|]. eapply only_slot; [done|]. unfold slot.
    destruct (e_tmr e) as [s|] eqn:Es; [|by destruct C as [_ ->]].
    destruct (f64_ltb _ _); [by destruct C as [_ ->]|]. destruct C as (v & _ & _ & ->).
    rewrite He. cbn. by rewrite Es.
  - destruct Ho as [a Ha]. apply slot_inv in Ha as (e & He & Ha).
    eapply wp_mono; [by eapply wp_tmr_remove|]. intros t' es' (A & B & C). split; [done|].
    eapply only_slot; [done|]. unfold slot. rewrite C, He. done.
  - apply wp_bind. eapply wp_mono; [by eapply wp_tmr_expire|]. intros [[o w] t'] es' [A B].
    apply wp_ret. split; [done|]. cbn [fst snd] in B. destruct o as [x|].
    + destruct B as (e & He & _ & _ & -> & _). eapply only_slot; [apply only_insert|].
      unfold slot. by rewrite lookup_insert_eq, He.
    + by destruct B as [-> _].
Qed.

Lemma top_ok_slot es es' o : (forall y, slot es' y = slot es y) -> top_ok es o -> top_ok es' o.
Proof. intros Hs. destruct o; cbn; rewrite ?Hs; done. Qed.

(** C28. Whatever the order of arming, re-arming (the key changes while the
    element is linked in the tree), cancelling and expiring, the tree stays
    sorted and holds exactly the elements marked as timing. *)
Theorem tmrset_invariant es t os :
  tmrset_ok es t -> Forall (top_ok es) os ->
  wp (run_tops os t) es (fun t' es' => tmrset_ok es' t').
Proof.
  revert es t. induction os as [|o os IH]; intros es t Hok Ho; cbn.
  { by apply wp_ret. }
  apply Forall_cons in Ho as [Ho Hos]. apply wp_bind. eapply wp_mono; [by apply wp_run_top|].
  intros t' es' [A B]. apply IH; [done|]. eapply Forall_impl; [exact Hos|]. intros o'. by apply top_ok_slot.
Qed.

(** The wait computed when no timer is due never oversleeps the earliest
    timer and is at least a millisecond, as long as that timer is less than
    [2^31] ms away. *)
Theorem dptmrset_wait_bounds now es t x :
  tmrset_ok es t -> head (rb_inorder t) = Some x ->
  now < expire_of es x <= now + INT_MAX ->
  wp (dptmrset_expire now t) es (fun r es' =>
    r.1.1 = None /\ 1 <= r.1.2 /\ now + r.1.2 <= expire_of es x).
Proof.
  intros Hok Hx Hr. assert (Hin : x ∈ rb_inorder t) by (apply head_Some in Hx as [l ->]; left).
  eapply wp_mono; [by eapply wp_tmr_expire|]. intros [[o w] t'] es'; cbn [fst snd]. intros [_ Hcase].
  assert (Hle : forall y, y ∈ rb_inorder t -> expire_of es x <= expire_of es y).
  { apply head_Some in Hx as [l El]. assert (Hs := tms_sorted _ _ Hok). rewrite El in *.
    apply rb_sorted_cons in Hs as [_ Hs]. intros y [->|Hy]%elem_of_cons; [done|]. by apply compare_le, Hs. }
  destruct o as [y|].
  - destruct Hcase as (_ & _ & _ & Hd & _ & _ & (l & Hl & _) & _). specialize (Hle y).
    rewrite Hl in Hle. specialize (Hle (ltac:(left))). lia.
  - destruct Hcase as (_ & _ & [[Hn _]|(y & Hy & Hlt & Hmin & ->)]).
    { rewrite Hn in Hin. by apply elem_of_nil in Hin. }
    specialize (Hmin x Hin). specialize (Hle y Hy). unfold INT_MAX in Hr.
    rewrite to_i32_id by (unfold is_i32, INT_MIN, INT_MAX; lia). split_and!; [done|lia|lia].
Qed.

(** A timer more than [2^31] ms (and less than [2^32]) away makes the wait
    negative, as if there were no timer: the conversion to [int] drops it. *)
Theorem dptmrset_far_timer_lost now es t x :
  tmrset_ok es t -> head (rb_inorder t) = Some x ->
  INT_MAX < expire_of es x - now - 10 < 4294967296 ->
  wp (dptmrset_expire now t) es (fun r es' => r.1.1 = None /\ r.1.2 < 0).
Proof.
  intros Hok Hx Hr. assert (Hin : x ∈ rb_inorder t) by (apply head_Some in Hx as [l ->]; left).
  eapply wp_mono; [by eapply wp_tmr_expire|]. intros [[o w] t'] es'; cbn [fst snd]. intros [_ Hcase].
  apply head_Some in Hx as [l El]. assert (Hs := tms_sorted _ _ Hok). rewrite El in Hs.
  apply rb_sorted_cons in Hs as [_ Hs]. unfold INT_MAX in Hr. destruct o as [y|].
  - destruct Hcase as (_ & _ & _ & Hd & _ & _ & (l' & Hl & _) & _). rewrite El in Hl.
    injection Hl as <- _. lia.
  - destruct Hcase as (_ & _ & [[Hn _]|(y & Hy & Hlt & Hmin & ->)]).
    { rewrite Hn in Hin. by apply elem_of_nil in Hin. }
    assert (expire_of es y = expire_of es x) as ->.
    { specialize (Hmin x Hin). rewrite El in Hy. apply elem_of_cons in Hy as [->|Hy]; [done|].
      apply Hs, compare_le in Hy. lia. }
    split; [done|]. rewrite Z.max_r by lia. unfold to_i32.
    replace (expire_of es x - now - 10 + 2147483648)
      with (expire_of es x - now - 10 - 2147483648 + 1 * 4294967296) by lia.
    rewrite Z_mod_plus_full, Z.mod_small; lia.
Qed.
End Properties.

(** ** Witnesses *)

Definition tmr_type : dpele_type := EleType 1 DPELE_TYPE_TMR 0 DPAIO_TYPE_NAN 0.
Definition tmr_ele (timing : bool) (expire : Z) (after : Z) : dpele :=
  Ele tmr_type 0 0 0 timing false false false 0 (Some (TmrSpec expire (Z2SF after))) 1 0 0 0
      DPCTC_INITIAL 0 None None.

Definition ex_timers : gmap loc dpele :=
  list_to_map [(1%positive, tmr_ele true 500 2); (2%positive, tmr_ele true 300 1);
               (3%positive, tmr_ele false 0 3)].
Definition ex_tree : list loc := [2%positive; 1%positive].

Lemma ex_timers_lookup x e :
  ex_timers !! x = Some e -> (x, e) ∈ [(1%positive, tmr_ele true 500 2); (2%positive, tmr_ele true 300 1);
               (3%positive, tmr_ele false 0 3)].
Proof. apply elem_of_list_to_map_2. Qed.

Lemma ex_tmrset_ok : tmrset_ok ex_timers ex_tree.
Proof.
  split.
  - repeat constructor; vm_compute; done.
  - intros x. split.
    + intros Hx. repeat (apply elem_of_cons in Hx as [->|Hx]; [vm_compute; eauto|]). by apply elem_of_nil in Hx.
    + intros (e & He & Ht). apply ex_timers_lookup in He.
      repeat (apply elem_of_cons in He as [[= -> ->]|He];
        [first [discriminate Ht | cbn; set_solver]|]). by apply elem_of_nil in He.
  - intros x e He _. apply ex_timers_lookup in He.
    repeat (apply elem_of_cons in He as [[= -> ->]|He]; [eauto|]). by apply elem_of_nil in He.
Qed.

Lemma dptmrset_expire_all_witness :
  wp (expire_all 3 400 ex_tree) ex_timers (fun r es' =>
    tmrset_ok es' r.2 /\ forall x, x ∈ r.1.1 <-> x ∈ ex_tree /\ expire_of ex_timers x <= 400).
Proof.
  eapply wp_mono; [apply (dptmrset_expire_all 400 ex_timers ex_tree 3 ex_tmrset_ok); cbn; lia|].
  intros r es' (A & _ & B & _). split; [exact A|exact B].
Defined.

Example ex_expire_all : wp (expire_all 3 400 ex_tree) ex_timers (fun r _ => r.1.1 = [2%positive]).
Proof. vm_compute. reflexivity. Qed.

Lemma tmrset_invariant_witness :
  wp (run_tops [TUpsert 100 3; TUpsert 400 2; TRemove 1; TExpire 5000] ex_tree) ex_timers
    (fun t' es' => tmrset_ok es' t').
Proof.
  apply (tmrset_invariant ex_timers ex_tree _ ex_tmrset_ok).
  repeat constructor; try (eexists; split; [vm_compute; reflexivity|]; intros v [= <-] _; vm_compute; eauto).
  vm_compute; eauto.
Defined.

Lemma dptmrset_wait_bounds_witness :
  wp (dptmrset_expire 200 ex_tree) ex_timers (fun r es' =>
    r.1.1 = None /\ 1 <= r.1.2 /\ 200 + r.1.2 <= expire_of ex_timers 2).
Proof.
  apply (dptmrset_wait_bounds 200 ex_timers ex_tree 2 ex_tmrset_ok); [reflexivity|].
  vm_compute. intuition discriminate.
Defined.

Definition far_timers : gmap loc dpele := {[1%positive := tmr_ele true 3000000000 3000000]}.

Lemma far_timers_lookup x e : far_timers !! x = Some e -> x = 1%positive /\ e = tmr_ele true 3000000000 3000000.
Proof. unfold far_timers. by intros [<- <-]%lookup_singleton_Some. Qed.

Lemma far_tmrset_ok : tmrset_ok far_timers [1%positive].
Proof.
  split.
  - repeat constructor.
  - intros x. cbn. rewrite list_elem_of_singleton. split.
    + intros ->. by eexists.
    + by intros (e & [-> _]%far_timers_lookup & _).
  - intros x e [-> ->]%far_timers_lookup _. by eexists.
Qed.

Lemma dptmrset_far_timer_lost_witness :
  wp (dptmrset_expire 0 [1%positive]) far_timers (fun r es' => r.1.1 = None /\ r.1.2 < 0).
Proof.
  apply (dptmrset_far_timer_lost 0 far_timers [1%positive] 1 far_tmrset_ok); [reflexivity|].
  vm_compute. intuition discriminate.
Defined.
