(* ===== verification/World.v ===== *)
(** * The world of the event loops and the element operations

    One store holds every element, every loop (the master, number 0, and the
    workers) and the state of the operating system, which is a parameter
    ([Sys]).  Queues are lists of elements ([Deque] relates them to the links);
    [w_self] is the thread-local loop of the running thread.  This file models
    the element half of [lib/dpapp/os/linux/dpevp_epoll.c] (creation,
    destruction, reference counts, duplication, readiness) and
    [lib/dpapp/os/dpevp_pri.c]; the loops are in [Evp]. *)

From Stdlib Require Import SpecFloat.
From S2P Require Import Prelude Dpret Ele Tmrset.

(** ** Loops *)

(** What an epoll entry points to: an element, or the wake-up counter of a
    worker (commits are read by the master, accepts by the worker). *)
Inductive evdata := EvEle (x : loc) | EvCommit (id : Z) | EvAccept (id : Z).

#[export] Instance evdata_eq_dec : EqDecision evdata.
Proof. solve_decision. Defined.

Record dpevp := Node {
  v_id : Z;
  v_type : Z;
  v_enter : list loc;
  v_timer : list loc;
  v_waitms : Z;
  v_evs : list (evdata * Z);
  v_index : nat;
  v_pop_limit : Z;
  v_ready : list loc;
  (* the worker's half *)
  v_commit_wake : Z;
  v_accept_wake : Z;
  v_accepting : list loc;
  v_commiting : list loc;
  v_accepted : list loc;
  v_commited : list loc;
  v_request : bool; (* is_request_ctc *)
  v_respond : bool; (* is_respond_ctc *)
}.

(** The queues of a loop. *)
Inductive qname := QEnter | QReady | QAccepting | QCommiting | QAccepted | QCommited.

#[export] Instance qname_eq_dec : EqDecision qname.
Proof. solve_decision. Defined.

Definition all_queues : list qname := [QEnter; QReady; QAccepting; QCommiting; QAccepted; QCommited].

Definition q_get (q : qname) (v : dpevp) : list loc :=
  match q with
  | QEnter => v_enter v | QReady => v_ready v | QAccepting => v_accepting v
  | QCommiting => v_commiting v | QAccepted => v_accepted v | QCommited => v_commited v
  end.

Definition q_eqb (q q' : qname) : bool :=
  match q, q' with
  | QEnter, QEnter | QReady, QReady | QAccepting, QAccepting
  | QCommiting, QCommiting | QAccepted, QAccepted | QCommited, QCommited => true
  | _, _ => false
  end.
Definition pick (q q' : qname) (new old : list loc) : list loc := if q_eqb q q' then new else old.

Definition q_set (q : qname) (l : list loc) (v : dpevp) : dpevp :=
  Node (v_id v) (v_type v) (pick q QEnter l (v_enter v)) (v_timer v) (v_waitms v) (v_evs v) (v_index v)
    (v_pop_limit v) (pick q QReady l (v_ready v)) (v_commit_wake v) (v_accept_wake v)
    (pick q QAccepting l (v_accepting v)) (pick q QCommiting l (v_commiting v))
    (pick q QAccepted l (v_accepted v)) (pick q QCommited l (v_commited v)) (v_request v) (v_respond v).

Definition set_timer (t : list loc) (v : dpevp) : dpevp :=
  Node (v_id v) (v_type v) (v_enter v) t (v_waitms v) (v_evs v) (v_index v)
    (v_pop_limit v) (v_ready v) (v_commit_wake v) (v_accept_wake v)
    (v_accepting v) (v_commiting v) (v_accepted v) (v_commited v) (v_request v) (v_respond v).
Definition set_waitms (w : Z) (v : dpevp) : dpevp :=
  Node (v_id v) (v_type v) (v_enter v) (v_timer v) w (v_evs v) (v_index v)
    (v_pop_limit v) (v_ready v) (v_commit_wake v) (v_accept_wake v)
    (v_accepting v) (v_commiting v) (v_accepted v) (v_commited v) (v_request v) (v_respond v).
Definition set_evs (evs : list (evdata * Z)) (i : nat) (v : dpevp) : dpevp :=
  Node (v_id v) (v_type v) (v_enter v) (v_timer v) (v_waitms v) evs i
    (v_pop_limit v) (v_ready v) (v_commit_wake v) (v_accept_wake v)
    (v_accepting v) (v_commiting v) (v_accepted v) (v_commited v) (v_request v) (v_respond v).
Definition set_pop_limit (k : Z) (v : dpevp) : dpevp :=
  Node (v_id v) (v_type v) (v_enter v) (v_timer v) (v_waitms v) (v_evs v) (v_index v)
    k (v_ready v) (v_commit_wake v) (v_accept_wake v)
    (v_accepting v) (v_commiting v) (v_accepted v) (v_commited v) (v_request v) (v_respond v).
Definition set_wakes (c a : Z) (v : dpevp) : dpevp :=
  Node (v_id v) (v_type v) (v_enter v) (v_timer v) (v_waitms v) (v_evs v) (v_index v)
    (v_pop_limit v) (v_ready v) c a
    (v_accepting v) (v_commiting v) (v_accepted v) (v_commited v) (v_request v) (v_respond v).
Definition set_turns (rq rs : bool) (v : dpevp) : dpevp :=
  Node (v_id v) (v_type v) (v_enter v) (v_timer v) (v_waitms v) (v_evs v) (v_index v)
    (v_pop_limit v) (v_ready v) (v_commit_wake v) (v_accept_wake v)
    (v_accepting v) (v_commiting v) (v_accepted v) (v_commited v) rq rs.

Lemma q_get_set q l v : q_get q (q_set q l v) = l.
Proof. by destruct q. Qed.

Lemma q_get_set_ne q q' l v : q <> q' -> q_get q' (q_set q l v) = q_get q' v.
Proof. by destruct q, q'. Qed.

(** [_dpevp_set_t]: how many loops there are, and which serve each type. *)
Record dpevp_set := EvpSet {
  gv_count : Z;
  gv_type_count : Z;
  gv_each_ids : list (list Z);
  gv_each_count : list Z;
}.

(** ** The operating system *)

(** Answers of system calls: a result, negative [errno] included, and the new
    state of the system.  [millis] reads the clock. *)
Class Sys (E : Type) := {
  millis : E -> Z * E;
  epoll_create : E -> Z * E;
  epoll_add : Z -> Z -> evdata -> Z -> E -> Z * E; (* loop, fd, entry, events *)
  epoll_mod : Z -> Z -> evdata -> Z -> E -> Z * E;
  epoll_del : Z -> Z -> E -> Z * E;
  epoll_wait : Z -> Z -> E -> list (evdata * Z) * E; (* loop, timeout *)
  fcntl_getfl : Z -> E -> Z * E;
  fcntl_setfl : Z -> Z -> E -> Z * E;
  sys_close : Z -> E -> Z * E;
  sys_dup : Z -> E -> Z * E;
}.

Record world (E : Type) := World {
  w_eles : gmap loc dpele;
  w_next : loc;
  w_oom : list bool; (* answers of the next allocations *)
  w_race : list (option Z); (* cancellations by other threads, with their result *)
  w_nodes : gmap Z dpevp;
  w_set : dpevp_set;
  w_self : option Z;
  w_ext : E;
}.
Arguments World {E}.
Arguments w_eles {E}. Arguments w_next {E}. Arguments w_oom {E}. Arguments w_race {E}.
Arguments w_nodes {E}. Arguments w_set {E}. Arguments w_self {E}. Arguments w_ext {E}.

(** What an operation's [prep] and [post] exchange with the loop. *)
Record dpasc_out := Out { o_want : Z; o_inva : Z; o_able : Z; o_data : bool }.

(** An operation descriptor; [prep] and [post] are code of their own modules. *)
Record dpasc (E : Type) := Asc {
  a_prep : loc -> list Z -> dpasc_out -> ST (world E) (Z * dpasc_out);
  a_post : option (loc -> dpasc_out -> ST (world E) (Z * dpasc_out));
  a_types : Z;
  a_iotypes : Z;
  a_datasz : Z;
  a_flags : Z;
}.
Arguments Asc {E}.
Arguments a_prep {E}. Arguments a_post {E}. Arguments a_types {E}. Arguments a_iotypes {E}.
Arguments a_datasz {E}. Arguments a_flags {E}.

(** Static program data: the operation descriptors and the hooks of the types,
    by number. *)
Record program (E : Type) := Program {
  p_asc : Z -> option (dpasc E);
  p_init : Z -> option (loc -> list Z -> ST (world E) Z);
  p_copy : Z -> option (loc -> loc -> ST (world E) Z);
  p_fini : Z -> option (loc -> ST (world E) unit);
}.
Arguments Program {E}.
Arguments p_asc {E}. Arguments p_init {E}. Arguments p_copy {E}. Arguments p_fini {E}.

Definition O_NONBLOCK : Z := 2048.
Definition EPOLLRDHUP : Z := 0x2000.
Definition EPOLLET : Z := 0x80000000.
Definition EEXIST : Z := 17.
Definition ENOENT : Z := 2.

Section World.
Context {E : Type} `{Sys E} (P : program E).

Abbreviation M := (ST (world E)).

(** ** Access *)

Definition with_eles (f : gmap loc dpele -> gmap loc dpele) (w : world E) : world E :=
  World (f (w_eles w)) (w_next w) (w_oom w) (w_race w) (w_nodes w) (w_set w) (w_self w) (w_ext w).
Definition with_nodes (f : gmap Z dpevp -> gmap Z dpevp) (w : world E) : world E :=
  World (w_eles w) (w_next w) (w_oom w) (w_race w) (f (w_nodes w)) (w_set w) (w_self w) (w_ext w).

(** Elements: a freed element is gone, and any access to it is undefined. *)
Definition on_eles {A} (m : ST (gmap loc dpele) A) : M A :=
  fun w => match m (w_eles w) with Some (a, es) => Some (a, with_eles (fun _ => es) w) | None => None end.
Definition get_ele (x : loc) : M dpele := on_eles (ele_get x).
Definition put_ele (x : loc) (e : dpele) : M unit := on_eles (ele_put x e).
Definition upd_ele (x : loc) (f : dpele -> dpele) : M unit := e ← get_ele x; put_ele x (f e).

Definition get_node (n : Z) : M dpevp := fun w => (fun v => (v, w)) <$> w_nodes w !! n.
Definition upd_node (n : Z) (f : dpevp -> dpevp) : M unit :=
  fun w => match w_nodes w !! n with Some v => Some (tt, with_nodes <[n := f v]> w) | None => None end.

(** [_gevp]: dereferencing it on a thread without a loop is undefined. *)
Definition self_id : M Z := fun w => (fun n => (n, w)) <$> w_self w.

(** A call of the operating system. *)
Definition sys {A} (f : E -> A * E) : M A :=
  fun w => let '(a, s) := f (w_ext w) in
           Some (a, World (w_eles w) (w_next w) (w_oom w) (w_race w) (w_nodes w) (w_set w) (w_self w) s).

(** Whether the next allocation succeeds. *)
Definition alloc_ok : M bool :=
  fun w => match w_oom w with
           | [] => Some (true, w)
           | ok :: oom => Some (ok, World (w_eles w) (w_next w) oom (w_race w) (w_nodes w) (w_set w) (w_self w) (w_ext w))
           end.

Definition type_is (x : loc) (t : dpele_type_e) : M bool := e ← get_ele x; mret (ele_is e t).

(** The descriptor of the operation in progress. *)
Definition asc_of (e : dpele) : option (dpasc E) := e_asc e ≫= p_asc P.

(** ** Queues

    [nbr x l]: [x] has a neighbour in [l], so its links are not both [NULL]. *)

Definition nbr (x : loc) (l : list loc) : bool := bool_decide (x ∈ l) && (2 <=? zlen l).

Definition has_links (x : loc) (w : world E) : bool :=
  existsb (fun nv => existsb (fun q => nbr x (q_get q nv.2)) all_queues) (map_to_list (w_nodes w)).

Definition q_push (n : Z) (q : qname) (x : loc) : M unit :=
  _ ← get_ele x;
  v ← get_node n;
  linked ← gets (has_links x);
  if linked || bool_decide (head (q_get q v) = Some x) then mret tt
  else upd_node n (q_set q (q_get q v ++ [x])).

Definition q_pop (n : Z) (q : qname) : M (option loc) :=
  v ← get_node n;
  match q_get q v with
  | [] => mret None
  | x :: l => upd_node n (q_set q l);; mret (Some x)
  end.

Definition q_move (n : Z) (dst src : qname) : M unit :=
  upd_node n (fun v => q_set src [] (q_set dst (q_get src v) v)).

(** [src] of loop [m] appended to [dst] of loop [n]. *)
Definition q_pushq (n : Z) (dst : qname) (m : Z) (src : qname) : M unit :=
  vs ← get_node m;
  let l := q_get src vs in
  upd_node m (q_set src []);;
  upd_node n (fun v => q_set dst (q_get dst v ++ l) v).

(** ** Watching a descriptor *)

Definition _dpevp_unwch_efd (efd : loc) : M Z :=
  e ← get_ele efd;
  if 0 <=? e_fd e then
    n ← self_id;
    r ← sys (epoll_del n (e_fd e));
    mret (if r =? 0 then DPE_OK else if r =? - ENOENT then DPE_OK else r)
  else mret DPE_INVAL.

(** Events registered for an element: edge triggered, with the peer's hangup. *)
Definition watch_events (poll : Z) : Z := Z.lor (Z.lor EPOLLRDHUP EPOLLET) (Z.land poll DPEVT_AIO).

Definition _dpevp_watch_efd (efd : loc) : M Z :=
  e ← get_ele efd;
  let evs := watch_events (e_poll e) in
  nbf ← sys (fcntl_getfl (e_fd e));
  (if negb (nbf =? -1) && negb (has_flag nbf O_NONBLOCK)
   then _ ← sys (fcntl_setfl (e_fd e) (Z.lor nbf O_NONBLOCK)); mret tt else mret tt);;
  n ← self_id;
  r ← sys (epoll_add n (e_fd e) (EvEle efd) evs);
  if r =? 0 then mret DPE_OK
  else if r =? - EEXIST then
    r ← sys (epoll_mod n (e_fd e) (EvEle efd) evs);
    mret r
  else mret r.

(** ** Creation and destruction *)

Definition _dpctc_init (self : loc) : M unit :=
  upd_ele self (fun e =>
    set_detach (set_reto (set_ret (set_stat (set_fromid (set_toid e (-1)) (-1)) DPCTC_INITIAL) 0) false) false).

Definition _dpefd_init (self : loc) : M unit :=
  upd_ele self (fun e => set_poll (set_fd (set_close e true) (-1)) (mask5 (ty_events (e_type e)))).

(** [calloc]: every field zero. *)
Definition zero_ele (ty : dpele_type) : dpele :=
  Ele ty 0 0 0 false false false false 0 None 0 0 0 0 DPCTC_INITIAL 0 None None.

Definition _dpele_new (ty : dpele_type) : M (option loc) :=
  ok ← alloc_ok;
  if negb ok then mret None else
  ele ← (fun w => Some (w_next w, World (<[w_next w := set_refc (zero_ele ty) 1]> (w_eles w))
           (Pos.succ (w_next w)) (w_oom w) (w_race w) (w_nodes w) (w_set w) (w_self w) (w_ext w)));
  (match ty_type ty with
   | DPELE_TYPE_EFD => _dpefd_init ele
   | DPELE_TYPE_USD => mret tt
   | DPELE_TYPE_TMR => mret tt
   | DPELE_TYPE_CTC => _dpctc_init ele
   end);;
  mret (Some ele).

Definition free_ele (x : loc) : M unit :=
  _ ← get_ele x; modify (with_eles (delete x)).

Definition _dpele_del (self : loc) : M unit :=
  e ← get_ele self;
  (if ele_is e DPELE_TYPE_EFD && (0 <=? e_fd e) then
     _ ← _dpevp_unwch_efd self;
     if e_close e then
       _ ← sys (sys_close (e_fd e));
       upd_ele self (fun e => set_fd e (-1))
     else mret tt
   else mret tt);;
  (match p_fini P (ty_id (e_type e)) with Some fini => fini self | None => mret tt end);;
  free_ele self.

Definition dpele_newv (ty : option dpele_type) (args : list Z) : M (option loc) :=
  match ty with
  | None => mret None
  | Some ty =>
      ele ← _dpele_new ty;
      match ele with
      | None => mret None
      | Some x =>
          match p_init P (ty_id ty) with
          | None => mret (Some x)
          | Some init =>
              r ← init x args;
              r ← (if dpret_isok r && bool_decide (ty_type ty = DPELE_TYPE_EFD) && (0 <? ty_events ty)
                   then upd_ele x (fun e => set_fd e r);; _dpevp_watch_efd x
                   else mret r);
              if dpret_iserr r then _dpele_del x;; mret None else mret (Some x)
          end
      end
  end.

Definition dpele_new (ty : option dpele_type) (args : list Z) : M (option loc) := dpele_newv ty args.

Definition dpele_ref (self : loc) : M loc :=
  upd_ele self (fun e => set_refc e (e_refc e + 1));; mret self.

Definition dpele_refc (self : loc) : M Z := e ← get_ele self; mret (e_refc e).

Definition dpele_del (self : option loc) : M unit :=
  match self with
  | None => mret tt
  | Some x =>
      e ← get_ele x;
      put_ele x (set_refc e (e_refc e - 1));;
      if e_refc e =? 1 then
        match e_asc e with
        | Some _ => mret tt (* the loop deletes it *)
        | None => _dpele_del x
        end
      else mret tt
  end.

Definition dpele_is_doing (self : loc) : M bool :=
  e ← get_ele self; mret (bool_decide (is_Some (e_asc e))).

(** ** Scratch memory of the operation in progress *)

(** [size] bytes, in whole words. *)
Definition zero_words (size : Z) (ws : list Z) : list Z :=
  let n := (size + 7) / 8 in splice 0 (replicate (Z.to_nat n) 0) ws.
Definition fresh_words (size : Z) : list Z := replicate (Z.to_nat ((size + 7) / 8)) 0.

(** Whether the operation gets scratch memory; a block that is large enough is
    kept and cleared. *)
Definition _dpele_asc_data (ele : loc) : M bool :=
  e ← get_ele ele;
  match asc_of e with
  | None => mret false
  | Some a =>
      if a_datasz a =? 0 then mret false else
      match e_scratch e with
      | Some (cap, ws) =>
          if a_datasz a <=? cap then
            put_ele ele (set_scratch e (Some (cap, zero_words (a_datasz a) ws)));; mret true
          else
            ok ← alloc_ok;
            if negb ok then mret false else
            put_ele ele (set_scratch e (Some (a_datasz a, fresh_words (a_datasz a))));; mret true
      | None =>
          ok ← alloc_ok;
          if negb ok then mret false else
          put_ele ele (set_scratch e (Some (a_datasz a, fresh_words (a_datasz a))));; mret true
      end
  end.

Definition dpele_asc_data (ele : loc) : M bool :=
  e ← get_ele ele; mret (bool_decide (is_Some (e_scratch e))).

Definition _dpele_asc_type (ele : loc) : M (option Z) := e ← get_ele ele; mret (e_asc e).

(** ** Duplication *)

(** [free(ele)] without the element's own destructor. *)
Definition dup_fail (x : loc) : M (option loc) := free_ele x;; mret None.

Definition dpele_dup (self : loc) (unuse_ : bool) : M (option loc) :=
  e ← get_ele self;
  if ele_is e DPELE_TYPE_EFD && (e_fd e <? 0) then mret None else
  doing ← dpele_is_doing self;
  if doing : bool then mret None else
  ele ← _dpele_new (e_type e);
  match ele with
  | None => mret None
  | Some x =>
      r ← (if 0 <? ty_size (e_type e)
           then match p_copy P (ty_id (e_type e)) with
                | Some copy => copy x self
                | None => mret DPE_OK (* memcpy of the auxiliary data *)
                end
           else mret DPE_OK);
      if (0 <? ty_size (e_type e)) && dpret_iserr r then dup_fail x else
      n ← get_ele x;
      if 0 <=? union_fd n then
        e ← get_ele self;
        fd ← sys (sys_dup (union_fd e));
        upd_ele x (fun n => set_fd n fd);;
        if fd <? 0 then dup_fail x else
        upd_ele x (fun n => set_poll n (clear_bits (e_poll e) DPEVT_AIN));;
        r ← _dpevp_watch_efd x;
        if dpret_iserr r then dup_fail x else
        upd_ele self (fun e => set_poll e (clear_bits (e_poll e) DPEVT_OUT));;
        _ ← _dpevp_watch_efd self;
        e ← get_ele self;
        upd_ele x (fun n => set_able (set_want n 0) (clear_bits (e_able e) DPEVT_AIN));;
        mret (Some x)
      else mret (Some x)
  end.

(** ** Results, flags and timeouts *)

Definition dpele_ret (self : loc) : M Z := e ← get_ele self; mret (e_ret e).
Definition dpele_set_ret (self : loc) (ret : Z) : M unit := upd_ele self (fun e => set_ret e ret).

Definition dpele_set_detach (self : loc) (detach : bool) : M Z :=
  doing ← dpele_is_doing self;
  if doing : bool then mret DPE_BUSY
  else upd_ele self (fun e => set_detach e detach);; mret DPE_OK.

Definition dpele_is_detach (self : loc) : M bool := e ← get_ele self; mret (e_detach e).

Definition dpele_set_timeout (self : loc) (sec : spec_float) : M Z :=
  e ← get_ele self;
  if ele_is e DPELE_TYPE_CTC then mret DPE_INVAL else
  let ret := if f64_ltb sec (S754_zero false) then DPE_BEINITED else DPE_OK in
  match e_tmr e with
  | Some s => put_ele self (set_tmr e (Some (TmrSpec (ts_expire s) sec)));; mret ret
  | None =>
      if negb (ret =? DPE_OK) then mret ret else
      ok ← alloc_ok;
      if negb ok then mret DPE_NOMEM else
      put_ele self (set_tmr e (Some (TmrSpec 0 sec)));; mret ret
  end.

Definition dpele_timeout (self : loc) : M spec_float :=
  e ← get_ele self; mret (match e_tmr e with Some s => ts_after s | None => Z2SF (-1) end).

Definition dpele_cop (self : loc) : M Z := e ← get_ele self; mret (e_cop e).

Definition dpele_wait (self : loc) (cop : Z) : M bool :=
  doing ← dpele_is_doing self;
  e ← get_ele self;
  if doing && negb (e_detach e) then put_ele self (set_cop e cop);; mret true
  else mret false.

Definition _dpele_set_cop (self : loc) (cop : Z) : M unit := upd_ele self (fun e => set_cop e cop).

Definition dpele_type_of (self : option loc) : M (option dpele_type) :=
  match self with Some x => e ← get_ele x; mret (Some (e_type e)) | None => mret None end.

(** ** Descriptors *)

Definition _dpefd_init_uinit (args : list Z) : Z :=
  match args with fd :: _ => if fd <? 0 then DPE_INVAL else fd | [] => DPE_INVAL end.

Definition dpefd_init_type : dpele_type := EleType 0 DPELE_TYPE_EFD 0 DPAIO_TYPE_GFD DPEVT_AIO.

Definition dpefd_fd (self : loc) : M Z := e ← get_ele self; mret (union_fd e).
Definition dpefd_set_close (self : loc) (cl : bool) : M unit := upd_ele self (fun e => set_close e cl).

(** ** Readiness of a descriptor *)

(** Events the operation consumed are no longer pending. *)
Definition drop_inva (self : loc) (out : dpasc_out) : M dpasc_out :=
  if negb (o_inva out =? 0) then
    upd_ele self (fun e => set_able e (clear_bits (e_able e) (o_inva out)));;
    mret (Out (o_want out) 0 (o_able out) (o_data out))
  else mret out.

(** The loop of [_dpefd_wake]: the operation's [post] is called while an event
    it wants is pending. *)
Fixpoint efd_wake_loop (fuel : nat) (self : loc) (out : dpasc_out) (ret : Z) : M (Z * dpasc_out) :=
  e ← get_ele self;
  if Z.land (e_able e) (e_want e) =? 0 then mret (ret, out) else
  match fuel with
  | O => ub
  | S fuel =>
      a ← lift_opt (asc_of e);
      post ← lift_opt (a_post a);
      r ← post self (Out (o_want out) (o_inva out) (e_able e) (o_data out));
      out ← drop_inva self r.2;
      if r.1 =? DPE_WAIT then
        (if 0 <? o_want out then upd_ele self (fun e => set_want e (mask5 (o_want out))) else mret tt);;
        efd_wake_loop fuel self out r.1
      else
        upd_ele self (fun e => set_want e 0);; mret (r.1, out)
  end.

Definition _dpefd_wake (fuel : nat) (self : loc) (out : dpasc_out) : M (Z * dpasc_out) :=
  e ← get_ele self;
  let ret := DPEVT_GET_ERR (e_able e) in
  if dpret_iserr ret then put_ele self (set_want e 0);; mret (ret, out) else
  out ← drop_inva self out;
  upd_ele self (fun e => set_want e (mask5 (o_want out)));;
  efd_wake_loop fuel self out DPE_WAIT.

Definition _dpefd_feed (fuel : nat) (self : loc) (evs : Z) : M bool :=
  upd_ele self (fun e => set_able e (mask5 (Z.lor (e_able e) evs)));;
  doing ← dpele_is_doing self;
  e ← get_ele self;
  if (e_want e =? 0) || negb doing then mret false else
  data ← dpele_asc_data self;
  r ← _dpefd_wake fuel self (Out (e_want e) 0 (e_able e) data);
  if r.1 =? DPE_WAIT then dpele_set_ret self DPE_INPROGRESS;; mret false
  else dpele_set_ret self r.1;; mret true.

(** ** Calls between threads *)

(** The bytes of an address, least significant first. *)
Definition addr_bytes (x : loc) : list Z := map (fun i => (Z.pos x / 256 ^ i) mod 256) (seqZ 0 8).

Definition _dpctc_hash_ptr (x : loc) (range : Z) : Z :=
  fold_left (fun v b => to_u32 (v * 31 + b)) (addr_bytes x) 0 mod range.

(** A loop number, or the negated index of a loop type. *)
Definition _dpctc_resolve_toid (key : loc) (toid : Z) : M Z :=
  s ← gets w_set;
  if (0 <=? toid) && (toid <? gv_count s) then mret toid else
  if toid =? INT_MIN then ub else (* [-toid] overflows *)
  if toid <? 0 then
    if gv_type_count s <=? - toid then mret DPE_INVAL else
    cnt ← lift_opt (znth (gv_each_count s) (- toid));
    if cnt =? 0 then mret DPE_INVAL else
    let idx := _dpctc_hash_ptr key (to_u32 cnt) in
    ids ← lift_opt (znth (gv_each_ids s) (- toid));
    lift_opt (znth ids idx)
  else mret DPE_INVAL.

Definition dpctc_set_toid (self : option loc) (toid : Z) : M Z :=
  match self with
  | None => mret DPE_INVAL
  | Some x =>
      e ← get_ele x;
      if negb (ele_is e DPELE_TYPE_CTC) then mret DPE_INVAL else
      toid ← _dpctc_resolve_toid x toid;
      if dpret_iserr toid then mret toid else
      upd_ele x (fun e => set_toid e toid);; mret DPE_OK
  end.

Definition _dpctc_type_init (self : loc) (args : list Z) : M Z :=
  match args with
  | toid :: detach :: _ =>
      r ← dpctc_set_toid (Some self) toid;
      if dpret_iserr r then mret r else
      dpele_set_detach self (negb (detach =? 0))
  | _ => ub
  end.

Definition dptmr_init_type : dpele_type := EleType 1 DPELE_TYPE_TMR 0 DPAIO_TYPE_NAN 0.
Definition dpctc_init_type : dpele_type := EleType 2 DPELE_TYPE_CTC 0 DPAIO_TYPE_NAN 0.

(** Whether the call is gone or nobody waits for it. *)
Definition _dpctc_del (self : loc) : M bool :=
  e ← get_ele self;
  if e_refc e <=? 0 then _dpele_del self;; mret true
  else mret (e_detach e).

Definition dpctc_fromid (self : loc) : M Z := e ← get_ele self; mret (e_fromid e).
Definition dpctc_toid (self : loc) : M Z := e ← get_ele self; mret (e_toid e).
Definition _dpctc_stat (self : loc) : M dpctc_stat_e := e ← get_ele self; mret (e_stat e).
Definition _dpctc_set_stat (self : loc) (stat : dpctc_stat_e) : M unit :=
  upd_ele self (fun e => set_stat e stat).

(** Compare and exchange. *)
Definition _dpctc_ces_stat (self : loc) (new_stat old_stat : dpctc_stat_e) : M bool :=
  e ← get_ele self;
  if bool_decide (e_stat e = old_stat)
  then put_ele self (set_stat e new_stat);; mret true
  else mret false.

(** Between reading the state of a call and acting on it the thread that
    submitted the call may cancel it: [dpevp_end] exchanges COMMIT for CANCEL
    and stores the result. *)
Definition other_threads (self : loc) : M unit :=
  fun w => match w_race w with
           | Some r :: race =>
               let w := World (w_eles w) (w_next w) (w_oom w) race (w_nodes w) (w_set w) (w_self w) (w_ext w) in
               (e ← get_ele self;
                if bool_decide (e_stat e = DPCTC_COMMIT)
                then put_ele self (set_ret (set_stat e DPCTC_CANCEL) r) else mret tt) w
           | None :: race =>
               Some (tt, World (w_eles w) (w_next w) (w_oom w) race (w_nodes w) (w_set w) (w_self w) (w_ext w))
           | [] => Some (tt, w)
           end.

End World.
