(* ===== verification/WorldLogic.v ===== *)
(** * Reasoning about the world

    Rules of [wp] for the operations of [World] on elements, loops and queues,
    a tactic [world_step] that runs them, and what it takes for a push to link
    its element. *)

From S2P Require Import Prelude Dpret Ele Tmrset World.

Section Rules.
Context {E : Type} `{Sys E}.
Abbreviation M := (ST (world E)).

Lemma wp_get_ele x (w : world E) e (Q : dpele -> world E -> Prop) :
  w_eles w !! x = Some e -> Q e w -> wp (get_ele x) w Q.
Proof. intros Hx HQ. unfold wp, get_ele, on_eles, ele_get. rewrite Hx. cbn. by destruct w. Qed.

Lemma wp_put_ele x e (w : world E) e0 (Q : unit -> world E -> Prop) :
  w_eles w !! x = Some e0 -> Q tt (with_eles <[x := e]> w) -> wp (put_ele x e) w Q.
Proof. intros Hx HQ. unfold wp, put_ele, on_eles, ele_put. rewrite Hx. done. Qed.

Lemma wp_upd_ele x f (w : world E) e (Q : unit -> world E -> Prop) :
  w_eles w !! x = Some e -> Q tt (with_eles <[x := f e]> w) -> wp (upd_ele x f) w Q.
Proof.
  intros Hx HQ. unfold upd_ele. apply wp_bind. eapply wp_get_ele; [done|]. by eapply wp_put_ele.
Qed.

Lemma wp_get_node n (w : world E) v (Q : dpevp -> world E -> Prop) :
  w_nodes w !! n = Some v -> Q v w -> wp (get_node n) w Q.
Proof. intros Hn HQ. unfold wp, get_node. by rewrite Hn. Qed.

Lemma wp_upd_node n f (w : world E) v (Q : unit -> world E -> Prop) :
  w_nodes w !! n = Some v -> Q tt (with_nodes <[n := f v]> w) -> wp (upd_node n f) w Q.
Proof. intros Hn HQ. unfold wp, upd_node. by rewrite Hn. Qed.

Lemma wp_self_id (w : world E) n (Q : Z -> world E -> Prop) :
  w_self w = Some n -> Q n w -> wp self_id w Q.
Proof. intros Hn HQ. unfold wp, self_id. by rewrite Hn. Qed.

Lemma wp_sys {A} (f : E -> A * E) w (Q : A -> world E -> Prop) :
  Q (f (w_ext w)).1 (World (w_eles w) (w_next w) (w_oom w) (w_race w) (w_nodes w) (w_set w) (w_self w) (f (w_ext w)).2) ->
  wp (sys f) w Q.
Proof. unfold wp, sys. by destruct (f (w_ext w)). Qed.

(** ** Queues *)

(** An element that is in no queue has no neighbours. *)
Definition unqueued (x : loc) (w : world E) : Prop :=
  forall n v q, w_nodes w !! n = Some v -> x ∉ q_get q v.

Lemma unqueued_links x w : unqueued x w -> has_links x w = false.
Proof.
  intros Hu. unfold has_links. apply not_true_is_false. intros Hex.
  apply existsb_exists in Hex as [[n v] [Hin Hex]]. apply existsb_exists in Hex as [q [_ Hq]].
  apply list_elem_of_In, elem_of_map_to_list in Hin. unfold nbr in Hq.
  apply andb_true_iff in Hq as [Hq _]. apply bool_decide_eq_true in Hq. by apply (Hu n v q).
Qed.

Lemma unqueued_head x w n v q : unqueued x w -> w_nodes w !! n = Some v -> head (q_get q v) <> Some x.
Proof. intros Hu Hn Hh. apply (Hu n v q Hn). destruct (q_get q v); [done|]. cbn in Hh. simplify_eq. left. Qed.

Lemma unqueued_node x w n v v' :
  unqueued x w -> w_nodes w !! n = Some v -> (forall q, q_get q v' = q_get q v) ->
  unqueued x (with_nodes <[n := v']> w).
Proof.
  intros Hu Hn Hq m u q Hm. unfold with_nodes in Hm. cbn in Hm.
  destruct (decide (n = m)) as [<-|]; [|rewrite lookup_insert_ne in Hm by done; by apply (Hu m u q)].
  rewrite lookup_insert_eq in Hm. simplify_eq. rewrite Hq. by apply (Hu n v q).
Qed.

Lemma wp_q_push n q x w e v (Q : unit -> world E -> Prop) :
  w_eles w !! x = Some e -> w_nodes w !! n = Some v -> unqueued x w ->
  Q tt (with_nodes <[n := q_set q (q_get q v ++ [x]) v]> w) -> wp (q_push n q x) w Q.
Proof.
  intros Hx Hn Hu HQ. unfold q_push. apply wp_bind. eapply wp_get_ele; [done|].
  apply wp_bind. eapply wp_get_node; [done|]. apply wp_bind, wp_gets.
  rewrite (unqueued_links _ _ Hu), bool_decide_false by (by eapply unqueued_head).
  by eapply wp_upd_node.
Qed.

Lemma wp_q_pop n q w v (Q : option loc -> world E -> Prop) :
  w_nodes w !! n = Some v ->
  match q_get q v with
  | [] => Q None w
  | x :: l => Q (Some x) (with_nodes <[n := q_set q l v]> w)
  end -> wp (q_pop n q) w Q.
Proof.
  intros Hn HQ. unfold q_pop. apply wp_bind. eapply wp_get_node; [done|].
  destruct (q_get q v); [done|]. apply wp_bind. by eapply wp_upd_node.
Qed.

Lemma wp_q_move n dst src w v (Q : unit -> world E -> Prop) :
  w_nodes w !! n = Some v -> Q tt (with_nodes <[n := q_set src [] (q_set dst (q_get src v) v)]> w) ->
  wp (q_move n dst src) w Q.
Proof. intros. by eapply wp_upd_node. Qed.

Lemma wp_q_pushq_same n dst src w v (Q : unit -> world E -> Prop) :
  w_nodes w !! n = Some v -> dst <> src ->
  Q tt (with_nodes <[n := q_set dst (q_get dst v ++ q_get src v) (q_set src [] v)]> w) ->
  wp (q_pushq n dst n src) w Q.
Proof.
  intros Hn Hd HQ. unfold q_pushq. apply wp_bind. eapply wp_get_node; [done|].
  apply wp_bind. eapply wp_upd_node; [done|]. eapply wp_upd_node; [by apply lookup_insert_eq|].
  unfold with_nodes in *. cbn in *. by rewrite q_get_set_ne, insert_insert_eq by done.
Qed.

Lemma wp_q_pushq n dst m src w vn vm (Q : unit -> world E -> Prop) :
  w_nodes w !! n = Some vn -> w_nodes w !! m = Some vm -> n <> m ->
  Q tt (with_nodes (fun ns => <[n := q_set dst (q_get dst vn ++ q_get src vm) vn]> (<[m := q_set src [] vm]> ns)) w) ->
  wp (q_pushq n dst m src) w Q.
Proof.
  intros Hn Hm Hd HQ. unfold q_pushq. apply wp_bind. eapply wp_get_node; [done|].
  apply wp_bind. eapply wp_upd_node; [done|].
  eapply wp_upd_node; [cbn; by rewrite lookup_insert_ne|exact HQ].
Qed.

End Rules.

Lemma with_nodes_2 {E} n v v' (w : world E) :
  with_nodes <[n := v]> (with_nodes <[n := v']> w) = with_nodes <[n := v]> w.
Proof. unfold with_nodes. cbn. by rewrite insert_insert_eq. Qed.

Lemma with_eles_2 {E} x e e' (w : world E) :
  with_eles <[x := e]> (with_eles <[x := e']> w) = with_eles <[x := e]> w.
Proof. unfold with_eles. cbn. by rewrite insert_insert_eq. Qed.

(** Simplifies lookups in an updated store. *)
Ltac world_simpl :=
  cbn [w_eles w_nodes w_self w_oom w_race w_set w_ext w_next with_nodes with_eles] in *;
  cbn [q_set q_get pick q_eqb set_timer set_waitms set_evs set_pop_limit set_wakes set_turns
    v_id v_type v_enter v_timer v_waitms v_evs v_index v_pop_limit v_ready v_commit_wake v_accept_wake
    v_accepting v_commiting v_accepted v_commited v_request v_respond] in *;
  rewrite ?with_nodes_2, ?with_eles_2, ?insert_insert_eq, ?lookup_insert_eq in *.

(** Runs one operation of [World] whose element or loop is known. *)
Ltac world_step :=
  lazymatch goal with
  | |- wp (_ ≫= _) _ _ => apply wp_bind; cbv beta
  | |- wp (mret _) _ _ => apply wp_ret; cbv beta
  | |- wp (if _ then _ else _) _ _ => fail
  | |- wp (get_ele _) _ _ => eapply wp_get_ele; [solve [eauto | world_simpl; eauto]|]
  | |- wp (put_ele _ _) _ _ => eapply wp_put_ele; [solve [eauto | world_simpl; eauto]|]
  | |- wp (upd_ele _ _) _ _ => eapply wp_upd_ele; [solve [eauto | world_simpl; eauto]|]
  | |- wp (get_node _) _ _ => eapply wp_get_node; [solve [eauto | world_simpl; eauto]|]
  | |- wp (upd_node _ _) _ _ => eapply wp_upd_node; [solve [eauto | world_simpl; eauto]|]
  | |- wp self_id _ _ => eapply wp_self_id; [solve [eauto | world_simpl; eauto]|]
  | |- wp (gets _) _ _ => apply wp_gets
  | |- wp (sys _) _ _ => apply wp_sys
  | |- wp (q_move _ _ _) _ _ => eapply wp_q_move; [solve [eauto | world_simpl; eauto]|]
  | |- wp (q_pushq ?n _ ?n _) _ _ => eapply wp_q_pushq_same; [solve [eauto | world_simpl; eauto]|done|]
  end; world_simpl.

(** ** A system for examples

    A clock that advances by one at each reading, epoll calls that succeed. *)

#[export] Instance ex_sys : Sys Z := {|
  millis t := (t, t + 1);
  epoll_create t := (3, t);
  epoll_add _ _ _ _ t := (0, t);
  epoll_mod _ _ _ _ t := (0, t);
  epoll_del _ _ t := (0, t);
  epoll_wait _ _ t := ([], t);
  fcntl_getfl _ t := (0, t);
  fcntl_setfl _ _ t := (0, t);
  sys_close _ t := (0, t);
  sys_dup fd t := (fd + 1, t);
|}.

Definition ex_node (id : Z) : dpevp := Node id 0 [] [] 0 [] 0 0 [] 0 0 [] [] [] [] true true.
Definition ex_call : dpele :=
  set_asc (set_toid (set_refc (zero_ele (EleType 3 DPELE_TYPE_CTC 0 DPAIO_TYPE_NAN 0)) 1) 0) (Some 7).

(** A master, a worker whose thread runs, and one call from it to the master. *)
Definition ex_world (self : Z) (v : dpevp) : world Z :=
  World (<[5%positive := ex_call]> ∅) 9 [] [] (<[self := v]> (<[0 := ex_node 0]> ∅))
    (EvpSet 2 2 [[0]; [1]] [1; 1]) (Some self) 0.
