(* ===== verification/Evp.v ===== *)
(** * The event loops ([lib/dpapp/os/linux/dpevp_epoll.c])

    The master (loop 0) and the workers, the two queues by which each worker
    hands calls to the master and takes calls from it, the reapers, and the
    operations users call: [dpevp_pop], [dpevp_addv], [dpevp_end] and the calls
    between threads.  Every function runs on the loop it is given or on
    [_gevp].  Loops take fuel; the theorems give the fuel that is enough. *)

From S2P Require Import Prelude Dpret Ele Tmrset World.

Definition _CTC_INCR_FLAG : Z := 0x0000000000000001.
Definition _CTC_TAKE_FLAG : Z := 0x0000000100000000.
Definition _CTC_TAKE_MASK : Z := 0xffffffff00000000.
Definition _CTC_PUSH_MASK : Z := 0x00000000ffffffff.

Definition DPEVP_REAP_LIMIT : Z := 32.
Definition DPASC_FLAG_ALLOW_DOING : Z := Z.shiftl 1 1.
Definition EVS_CAPACITY : Z := 256.

Section Evp.
Context {E : Type} `{Sys E} (P : program E).

Abbreviation M := (ST (world E)).

(** ** Wake-up counters

    [write] adds to the counter, [read] takes it and leaves zero. *)

Definition write_commit (n : Z) (flag : Z) : M unit :=
  upd_node n (fun v => set_wakes (to_u64 (v_commit_wake v + flag)) (v_accept_wake v) v).
Definition write_accept (n : Z) (flag : Z) : M unit :=
  upd_node n (fun v => set_wakes (v_commit_wake v) (to_u64 (v_accept_wake v + flag)) v).
Definition read_commit (n : Z) : M Z :=
  v ← get_node n; upd_node n (set_wakes 0 (v_accept_wake v));; mret (v_commit_wake v).
Definition read_accept (n : Z) : M Z :=
  v ← get_node n; upd_node n (set_wakes (v_commit_wake v) 0);; mret (v_accept_wake v).

(** ** Handing calls over

    [self] is the worker whose queues are used, on whichever thread. *)

Definition _worker_move_accept_ctc (self : Z) : M unit :=
  q_move self QAccepted QAccepting;;
  v ← get_node self;
  match v_accepted v with
  | _ :: _ => write_accept self _CTC_INCR_FLAG
  | [] => upd_node self (set_turns (v_request v) true)
  end.

Definition _worker_move_commit_ctc (self : Z) : M unit :=
  q_move self QCommited QCommiting;;
  v ← get_node self;
  match v_commited v with
  | _ :: _ => write_commit self _CTC_INCR_FLAG
  | [] => upd_node self (set_turns true (v_respond v))
  end.

Definition _worker_push_commit_ctc (self : Z) (ctc : loc) : M unit :=
  v ← get_node self;
  if v_request v then
    upd_node self (set_turns false (v_respond v));;
    q_push self QCommited ctc;;
    write_commit self _CTC_INCR_FLAG
  else q_push self QCommiting ctc.

Definition _worker_push_accept_ctc (self : Z) (ctc : loc) : M unit :=
  v ← get_node self;
  if v_respond v then
    upd_node self (set_turns (v_request v) false);;
    q_push self QAccepted ctc;;
    write_accept self _CTC_INCR_FLAG
  else q_push self QAccepting ctc.

(** The queue is taken into [QEnter] of loop [dst]. *)
Definition _worker_take_commit_ctc (self dst : Z) : M unit :=
  q_pushq dst QEnter self QCommited;; write_accept self _CTC_TAKE_FLAG.

Definition _worker_take_accept_ctc (self dst : Z) : M unit :=
  q_pushq dst QEnter self QAccepted;; write_commit self _CTC_TAKE_FLAG.

Definition _worker_finish_ctc (self : Z) (ctc : loc) : M unit :=
  e ← get_ele ctc;
  if e_fromid e =? self then q_push self QEnter ctc else _worker_push_commit_ctc self ctc.

Definition _worker_commit_ctc (self : Z) (ctc : loc) : M unit :=
  e ← get_ele ctc;
  if e_toid e =? self then q_push self QEnter ctc else _worker_push_commit_ctc self ctc.

Definition _master_finish_ctc (self : Z) (ctc : loc) : M unit :=
  e ← get_ele ctc;
  if e_fromid e =? self then q_push self QEnter ctc else _worker_push_accept_ctc (e_fromid e) ctc.

Definition _master_commit_ctc (self : Z) (ctc : loc) : M unit :=
  e ← get_ele ctc;
  if e_toid e =? self then q_push self QEnter ctc else _worker_push_accept_ctc (e_toid e) ctc.

(** The function pointers of a loop: those of the master for loop 0. *)
Definition commit_ctc_f (self : Z) : loc -> M unit :=
  if self =? 0 then _master_commit_ctc self else _worker_commit_ctc self.
Definition finish_ctc_f (self : Z) : loc -> M unit :=
  if self =? 0 then _master_finish_ctc self else _worker_finish_ctc self.

(** ** Timers of a loop *)

Definition timer_remove (self : Z) (x : loc) : M unit :=
  v ← get_node self;
  t ← on_eles (_dptmrset_remove (v_timer v) (Some x));
  upd_node self (set_timer t).

Definition timer_upsert (self : Z) (x : loc) : M Z :=
  now ← sys millis;
  v ← get_node self;
  r ← on_eles (_dptmrset_upsert now (v_timer v) x);
  upd_node self (set_timer r.2);;
  mret r.1.

Definition timer_expire (self : Z) : M (option loc) :=
  now ← sys millis;
  v ← get_node self;
  r ← on_eles (dptmrset_expire now (v_timer v));
  upd_node self (fun v => set_waitms r.1.2 (set_timer r.2 v));;
  mret r.1.1.

(** ** Reapers *)

Definition _dpevp_reap_usd (self : Z) : M (option loc) := q_pop self QReady.

Fixpoint _dpevp_reap_tmr (fuel : nat) (self : Z) : M (option loc) :=
  match fuel with
  | O => ub
  | S fuel =>
      ele ← timer_expire self;
      match ele with
      | None => mret None
      | Some x =>
          e ← get_ele x;
          match ty_type (e_type e) with
          | DPELE_TYPE_EFD | DPELE_TYPE_USD | DPELE_TYPE_TMR =>
              dpele_set_ret x DPE_TIME;; mret (Some x)
          | DPELE_TYPE_CTC =>
              ok ← _dpctc_ces_stat x DPCTC_CANCEL DPCTC_COMMIT;
              (if ok : bool then dpele_set_ret x DPE_TIME else mret tt);;
              _dpevp_reap_tmr fuel self
          end
      end
  end.

(** The state of a call as a reaper reads it, other threads running after. *)
Definition read_stat (x : loc) : M dpctc_stat_e :=
  s ← _dpctc_stat x; other_threads x;; mret s.

(** A call the submitter cancelled, at the reaper. *)
Definition reap_cancelled (finish : loc -> M unit) (ctc : loc) : M unit :=
  gone ← _dpctc_del P ctc;
  if gone : bool then mret tt else finish ctc.

Definition run_post (ctc : loc) (post : loc -> dpasc_out -> M (Z * dpasc_out)) : M Z :=
  data ← dpele_asc_data ctc; r ← post ctc (Out 0 0 0 data); mret r.1.

Fixpoint _worker_reap_ctc (fuel : nat) (self : Z) : M (option loc) :=
  match fuel with
  | O => ub
  | S fuel =>
      ctc ← q_pop self QEnter;
      match ctc with
      | None => mret None
      | Some x =>
          let running :=
            e ← get_ele x;
            match asc_of P e ≫= a_post with
            | Some post =>
                ret ← run_post x post;
                dpele_set_ret x ret;;
                upd_ele x (fun e => set_asc e None);;
                _dpctc_set_stat x DPCTC_FINISH;;
                _worker_finish_ctc self x;;
                _worker_reap_ctc fuel self
            | None => mret (Some x)
            end in
          let cancel :=
            ok ← _dpctc_ces_stat x DPCTC_FINISH DPCTC_CANCEL;
            if ok : bool then
              reap_cancelled (_worker_finish_ctc self) x;; _worker_reap_ctc fuel self
            else running in
          stat ← read_stat x;
          match stat with
          | DPCTC_COMMIT =>
              ok ← _dpctc_ces_stat x DPCTC_RUNNING DPCTC_COMMIT;
              if ok : bool then mret (Some x) else cancel
          | DPCTC_CANCEL => cancel
          | DPCTC_RUNNING => running
          | DPCTC_INITIAL | DPCTC_FINISH =>
              timer_remove self x;;
              gone ← _dpctc_del P x;
              if gone : bool then _worker_reap_ctc fuel self else mret (Some x)
          end
      end
  end.

Fixpoint _master_reap_ctc (fuel : nat) (self : Z) : M (option loc) :=
  match fuel with
  | O => ub
  | S fuel =>
      ctc ← q_pop self QEnter;
      match ctc with
      | None => mret None
      | Some x =>
          let other :=
            e ← get_ele x;
            if e_fromid e =? 0 then
              timer_remove self x;;
              gone ← _dpctc_del P x;
              if gone : bool then _master_reap_ctc fuel self else mret (Some x)
            else _worker_push_accept_ctc (e_fromid e) x;; _master_reap_ctc fuel self in
          let cancel :=
            ok ← _dpctc_ces_stat x DPCTC_FINISH DPCTC_CANCEL;
            if ok : bool then
              reap_cancelled (_master_finish_ctc self) x;; _master_reap_ctc fuel self
            else other in
          stat ← read_stat x;
          match stat with
          | DPCTC_COMMIT =>
              ok ← _dpctc_ces_stat x DPCTC_RUNNING DPCTC_COMMIT;
              if ok : bool then
                e ← get_ele x;
                if e_toid e =? 0 then mret (Some x)
                else _worker_push_accept_ctc (e_toid e) x;; _master_reap_ctc fuel self
              else cancel
          | DPCTC_CANCEL => cancel
          | DPCTC_RUNNING | DPCTC_INITIAL | DPCTC_FINISH => other
          end
      end
  end.

Definition reap_ctc (fuel : nat) (self : Z) : M (option loc) :=
  if self =? 0 then _master_reap_ctc fuel self else _worker_reap_ctc fuel self.

(** The hangup of the peer counts as a hangup. *)
Definition epoll_events (evs : Z) : Z := if has_flag evs EPOLLRDHUP then Z.lor evs DPEVT_HUP else evs.

Definition read_wake (d : evdata) : M Z :=
  match d with EvCommit id => read_commit id | EvAccept id => read_accept id | EvEle _ => ub end.

(** A wake-up at a worker, and one at the master: the counter says whether the
    other side took the queue it was given, and whether it gave one. *)
Definition worker_wake (self : Z) (d : evdata) : M unit :=
  ctc_ev ← read_wake d;
  (if has_flag ctc_ev _CTC_TAKE_MASK then _worker_move_commit_ctc self else mret tt);;
  (if has_flag ctc_ev _CTC_PUSH_MASK then _worker_take_accept_ctc self self else mret tt).

Definition wake_id (d : evdata) : M Z :=
  match d with EvCommit id | EvAccept id => mret id | EvEle _ => ub end.

Definition master_wake (self : Z) (d : evdata) : M unit :=
  worker ← wake_id d;
  ctc_ev ← read_wake d;
  (if has_flag ctc_ev _CTC_TAKE_MASK then _worker_move_accept_ctc worker else mret tt);;
  (if has_flag ctc_ev _CTC_PUSH_MASK then _worker_take_commit_ctc worker self else mret tt).

(** The next event that completes an element; [wake] handles the counters. *)
Fixpoint reap_efd (wake : Z -> evdata -> M unit) (fuel : nat) (self : Z) : M (option loc) :=
  v ← get_node self;
  match v_evs v !! v_index v with
  | None => mret None
  | Some (d, evs) =>
      match fuel with
      | O => ub
      | S fuel =>
          upd_node self (set_evs (v_evs v) (S (v_index v)));;
          match d with
          | EvAccept _ | EvCommit _ => wake self d;; reap_efd wake fuel self
          | EvEle x =>
              done ← _dpefd_feed P fuel x (epoll_events evs);
              if done : bool then timer_remove self x;; mret (Some x)
              else reap_efd wake fuel self
          end
      end
  end.

Definition _worker_reap_efd : nat -> Z -> M (option loc) := reap_efd worker_wake.
Definition _master_reap_efd : nat -> Z -> M (option loc) := reap_efd master_wake.

(** ** Completing an element *)

Definition asc_over_end (ele : loc) : M bool :=
  e ← get_ele ele;
  if e_refc e <=? 0 then _dpele_del P ele;; mret false
  else mret (negb (e_detach e)).

Definition _dpele_asc_over (ele : loc) : M bool :=
  e ← get_ele ele;
  if ele_is e DPELE_TYPE_EFD || negb (ty_iotype (e_type e) =? DPAIO_TYPE_NAN) then
    put_ele ele (set_asc (set_want e 0) None);; asc_over_end ele
  else
    let no_post := match asc_of P e with Some a => negb (bool_decide (is_Some (a_post a))) | None => false end in
    if ele_is e DPELE_TYPE_CTC && bool_decide (e_stat e = DPCTC_RUNNING) && no_post then mret true
    else
      put_ele ele (set_asc (set_want e 0) None);;
      match asc_of P e ≫= a_post with
      | Some post => ret ← run_post ele post; dpele_set_ret ele ret
      | None => mret tt
      end;;
      asc_over_end ele.

(** [reap_funcs]: by type index; the master's and the workers' differ. *)
Definition reap_func (i : Z) (fuel : nat) (self : Z) : M (option loc) :=
  if i =? type_index DPELE_TYPE_EFD then
    if self =? 0 then _master_reap_efd fuel self else _worker_reap_efd fuel self
  else if i =? type_index DPELE_TYPE_USD then _dpevp_reap_usd self
  else if i =? type_index DPELE_TYPE_CTC then reap_ctc fuel self
  else _dpevp_reap_tmr fuel self.

(** [DPEVP_REAP_ELE]: reap until an element is to be delivered. *)
Fixpoint reap_ele (fuel : nat) (i self : Z) : M (option loc) :=
  match fuel with
  | O => ub
  | S fuel =>
      ele ← reap_func i fuel self;
      match ele with
      | None => mret None
      | Some x =>
          over ← _dpele_asc_over x;
          if over : bool then mret (Some x) else reap_ele fuel i self
      end
  end.

(** The sources after the descriptors, while the limit is not reached. *)
Fixpoint reap_others (fuel : nat) (srcs : list Z) (self : Z) : M (option loc) :=
  match srcs with
  | [] => mret None
  | i :: srcs =>
      v ← get_node self;
      if v_pop_limit v <? DPEVP_REAP_LIMIT then
        ele ← reap_ele fuel i self;
        match ele with
        | Some x => upd_node self (fun v => set_pop_limit (v_pop_limit v + 1) v);; mret (Some x)
        | None => reap_others fuel srcs self
        end
      else mret None
  end.

(** The time [epoll_wait] may block. *)
Definition poll_timeout (v : dpevp) (timeout_ms : Z) : Z :=
  if (DPEVP_REAP_LIMIT <=? v_pop_limit v) || bool_decide (v_ready v <> []) then 0
  else if (0 <=? v_waitms v) && ((timeout_ms <? 0) || (v_waitms v <? timeout_ms)) then v_waitms v
  else timeout_ms.

Definition dpevp_pop (fuel : nat) (timeout_ms : Z) : M (option loc) :=
  self ← self_id;
  ele ← reap_ele fuel (type_index DPELE_TYPE_EFD) self;
  match ele with
  | Some x => mret (Some x)
  | None =>
      ele ← reap_others fuel [1; 2; 3] self;
      match ele with
      | Some x => mret (Some x)
      | None =>
          v ← get_node self;
          let timeout_ms := poll_timeout v timeout_ms in
          upd_node self (fun v => set_evs [] 0 (set_pop_limit 0 v));;
          evs ← sys (epoll_wait self timeout_ms);
          upd_node self (set_evs evs 0);;
          mret None
      end
  end.

(** ** Loops come and go *)

(** [dpele_del] of every element of a queue. *)
Fixpoint q_clear (l : list loc) : M unit :=
  match l with
  | [] => mret tt
  | x :: l => dpele_del P (Some x);; q_clear l
  end.

Definition _dpevp_free (self : Z) : M unit :=
  v ← get_node self;
  q_clear (v_enter v);;
  upd_node self (fun v => set_timer (dptmrset_free (v_timer v)) (q_set QEnter [] v)).

(** A loop after [_dpevp_init]; its epoll set is the operating system's. *)
Definition _dpevp_init (type id : Z) : M (option dpevp) :=
  r ← sys epoll_create;
  if r <? 0 then mret None else
  ok ← alloc_ok;
  if negb ok then mret None else
  mret (Some (Node id type [] [] 0 [] 0 0 [] 0 0 [] [] [] [] false false)).

Definition add_node (id : Z) (v : dpevp) : M unit := modify (with_nodes <[id := v]>).

(** Both turns to start a hand-over belong to the producers. *)
Definition worker_new (type id : Z) : M bool :=
  ok ← alloc_ok;
  if negb ok then mret false else
  v ← _dpevp_init type id;
  match v with
  | None => mret false
  | Some v => add_node id (set_turns true true v);; mret true
  end.

Definition master_new (type id : Z) : M bool :=
  ok ← alloc_ok;
  if negb ok then mret false else
  v ← _dpevp_init 0 0;
  match v with
  | None => mret false
  | Some v => add_node id v;; mret true
  end.

Definition dpevp_new (type id : Z) : M bool :=
  if id =? 0 then master_new type id else worker_new type id.

Definition worker_del (self : Z) : M unit :=
  _dpevp_free self;;
  v ← get_node self;
  q_clear (v_accepting v);;
  q_clear (v_commiting v);;
  q_clear (v_accepted v);;
  q_clear (v_commited v);;
  modify (with_nodes (delete self)).

Definition master_del (self : Z) : M unit :=
  _dpevp_free self;; modify (with_nodes (delete self)).

Definition dpevp_del (self : Z) : M unit :=
  v ← get_node self;
  if v_id v =? 0 then master_del self else worker_del self.

Definition WAKE_EVENTS : Z := Z.lor (Z.lor DPEVT_IN EPOLLRDHUP) EPOLLET.

(** The descriptor of a counter; the numbers are the operating system's. *)
Context (wake_fd : evdata -> Z).

Definition worker_start (self : Z) : M bool :=
  r ← sys (epoll_add self (wake_fd (EvAccept self)) (EvAccept self) WAKE_EVENTS);
  mret (r =? 0).

Fixpoint master_watch (ids : list Z) (self : Z) : M bool :=
  match ids with
  | [] => mret true
  | i :: ids =>
      r ← sys (epoll_add self (wake_fd (EvCommit i)) (EvCommit i) WAKE_EVENTS);
      if r =? 0 then master_watch ids self else mret false
  end.
Definition master_start (self : Z) : M bool :=
  s ← gets w_set; master_watch (seqZ 1 (gv_count s - 1)) self.

(** The loop becomes the thread's own; [start_fun] runs on it. *)
Definition dpevp_start (self : Z) (start_fun : M unit) : M unit :=
  modify (fun w => World (w_eles w) (w_next w) (w_oom w) (w_race w) (w_nodes w) (w_set w) (Some self) (w_ext w));;
  v ← get_node self;
  _ ← (if v_id v =? 0 then master_start self else worker_start self);
  start_fun.

Definition dpevp_id : M Z :=
  s ← gets w_self;
  match s with Some n => v ← get_node n; mret (v_id v) | None => mret (-1) end.
Definition dpevp_type : M Z :=
  s ← gets w_self;
  match s with Some n => v ← get_node n; mret (v_type v) | None => mret (-1) end.

(** ** Submitting, ending and forwarding *)

(** [asc] is [None] for [NULL]. *)
Definition dpevp_addv (fuel : nat) (ele : option loc) (asc : option Z) (vargs : list Z) : M Z :=
  match ele, asc ≫= p_asc P with
  | Some x, Some a =>
      e ← get_ele x;
      if (Z.land (a_types a) (Z.shiftl 1 (type_index (ty_type (e_type e)))) =? 0)
         || (negb (a_iotypes a =? 0)
             && (Z.land (a_iotypes a) (Z.shiftl 1 (ty_iotype (e_type e) mod 32)) =? 0))
      then mret DPE_INVAL else (* a shift by [DPAIO_TYPE_NAN] takes the low five bits of the count *)
      doing ← dpele_is_doing x;
      if doing && negb (has_flag (a_flags a) DPASC_FLAG_ALLOW_DOING) then mret DPE_PERM else
      upd_ele x (fun e => set_asc e asc);;
      data ← _dpele_asc_data P x;
      e ← get_ele x;
      r ← a_prep a x vargs (Out 0 0 (e_able e) data);
      ret ← (if negb (r.1 =? DPE_CONTINUE) then mret r.1 else
             e ← get_ele x;
             match ty_type (e_type e) with
             | DPELE_TYPE_EFD => w ← _dpefd_wake P fuel x r.2; mret w.1
             | DPELE_TYPE_CTC =>
                 self ← self_id;
                 _dpctc_set_stat x DPCTC_COMMIT;;
                 upd_ele x (fun e => set_cop (set_reto (set_fromid e self) false) 0);;
                 commit_ctc_f self x;;
                 mret DPE_WAIT
             | DPELE_TYPE_USD | DPELE_TYPE_TMR => mret DPE_WAIT
             end);
      dpele_set_ret x ret;;
      self ← self_id;
      e ← get_ele x;
      if dpret_isok ret then
        q_push self QReady x;;
        mret (if e_detach e then ret else DPE_WAIT)
      else if ret =? DPE_WAIT then
        dpele_set_ret x DPE_INPROGRESS;;
        _ ← timer_upsert self x;
        mret (if e_detach e then DPE_OK else DPE_WAIT)
      else
        upd_ele x (fun e => set_asc e None);; mret ret
  | _, _ => mret DPE_INVAL
  end.

Definition dpevp_add (fuel : nat) (ele : option loc) (asc : option Z) (vargs : list Z) : M Z :=
  dpevp_addv fuel ele asc vargs.

Definition dpevp_end (ele : loc) (ret : Z) : M Z :=
  doing ← dpele_is_doing ele;
  if negb doing then mret DPE_OK else
  self ← self_id;
  e ← get_ele ele;
  if ele_is e DPELE_TYPE_CTC && negb (e_fromid e =? self) then mret DPE_PERM else
  timer_remove self ele;;
  (match ty_type (e_type e) with
   | DPELE_TYPE_EFD =>
       upd_ele ele (fun e => set_ret (set_want e DPEVT_NAN) ret);; q_push self QReady ele
   | DPELE_TYPE_USD => dpele_set_ret ele ret;; q_push self QReady ele
   | DPELE_TYPE_CTC =>
       ok ← _dpctc_ces_stat ele DPCTC_CANCEL DPCTC_COMMIT;
       if ok : bool then dpele_set_ret ele ret else mret tt
   | DPELE_TYPE_TMR => dpele_set_ret ele ret;; q_push self QReady ele
   end);;
  mret DPE_OK.

Definition dpctc_reto (self : option loc) (toid : Z) : M Z :=
  match self with
  | None => mret DPE_INVAL
  | Some x =>
      e ← get_ele x;
      if negb (ele_is e DPELE_TYPE_CTC) then mret DPE_INVAL else
      toid ← _dpctc_resolve_toid x toid;
      if dpret_iserr toid then mret toid else
      stat ← _dpctc_stat x;
      if negb (bool_decide (stat = DPCTC_RUNNING)) then mret DPE_PERM else
      upd_ele x (fun e => set_reto (set_toid e toid) true);; mret DPE_OK
  end.

(** The arguments of a call, stored in its scratch memory. *)
Definition _dpctc_submit_prep (ctc : loc) (arg : list Z) (out : dpasc_out) : M (Z * dpasc_out) :=
  e ← get_ele ctc;
  if negb (ele_is e DPELE_TYPE_CTC) then mret (DPE_INVAL, out) else
  let stat := stat_index (e_stat e) in
  if (stat_index DPCTC_INITIAL <? stat) && (stat <? stat_index DPCTC_FINISH) then mret (DPE_REPEAT, out) else
  if negb (o_data out) then mret (DPE_INVAL, out) else
  match arg, e_scratch e with
  | a0 :: a1 :: _, Some (cap, ws) =>
      put_ele ctc (set_scratch e (Some (cap, splice 0 [a0; a1] ws)));; mret (DPE_CONTINUE, out)
  | _, _ => ub
  end.

Definition dpctc_submit : dpasc E := Asc _dpctc_submit_prep None (Z.shiftl 1 (type_index DPELE_TYPE_CTC)) 0 16 0.

Definition dpevp_end_ctc_ (ctc : option loc) (err : Z) : M Z :=
  match ctc with
  | None => mret DPE_INVAL
  | Some x =>
      e ← get_ele x;
      doing ← dpele_is_doing x;
      if negb (ele_is e DPELE_TYPE_CTC) || negb doing then mret DPE_INVAL else
      self ← self_id;
      dpele_set_ret x err;;
      if e_reto e then
        upd_ele x (fun e => set_reto e false);;
        _dpctc_set_stat x DPCTC_COMMIT;;
        commit_ctc_f self x;;
        mret DPE_OK
      else
        _dpctc_set_stat x DPCTC_FINISH;;
        if e_detach e then
          n ← dpele_refc x;
          (if n <=? 0 then _dpele_del P x else mret tt);;
          mret DPE_OK
        else
          finish_ctc_f self x;; mret DPE_OK
  end.

End Evp.
