(* ===== verification/EfdFacts.v ===== *)
(** * Readiness of descriptors

    Descriptors are watched edge-triggered: the system reports an event once,
    and the element remembers it in [e_able] until an operation finds it used
    up.  An operation's [post] owes the loop a contract ([PostOk]); given it,
    the loop of [_dpefd_wake] terminates, and an operation is left waiting only
    when none of the events it waits for is pending. *)

From S2P Require Import Prelude Dpret Ele Tmrset World WorldLogic.

#[local] Set Default Proof Using "Type*".

(** ** The contract of [post]

    It is called with the pending events while one it wants is pending; it
    leaves the element's events and operation to the loop; and if it asks to
    wait it still says for what, and either gives up a pending event, or has got on
    with its work, or asks for what is not pending.  [I] is the operation's own invariant, [mu] bounds the work
    left; both are about the element less its event masks, what is wanted, the
    scratch memory and the system. *)
Definition strip (e : dpele) : dpele := set_able (set_want e 0) 0.

Class PostOk {E} `{Sys E} (post : loc -> dpasc_out -> ST (world E) (Z * dpasc_out))
    (I : loc -> dpele -> Z -> bool -> E -> Prop) (mu : loc -> E -> nat) : Prop :=
  post_ok : forall x out w e,
    w_eles w !! x = Some e -> o_able out = e_able e -> Z.land (e_able e) (e_want e) <> 0 ->
    0 < o_want out -> mask5 (o_want out) = e_want e -> I x (strip e) (o_want out) (o_data out) (w_ext w) ->
    wp (post x out) w (fun r w' => exists e',
      w_eles w' !! x = Some e' /\ e_able e' = e_able e /\ e_want e' = e_want e /\ e_asc e' = e_asc e /\
      strip e' = strip e /\
      (r.1 = DPE_WAIT -> 0 < o_want r.2 /\ I x (strip e) (o_want r.2) (o_data r.2) (w_ext w') /\
        (Z.land (e_able e) (o_inva r.2) <> 0 /\ (mu x (w_ext w') <= mu x (w_ext w))%nat
         \/ (mu x (w_ext w') < mu x (w_ext w))%nat \/ Z.land (e_able e) (mask5 (o_want r.2)) = 0))).

Lemma ldiff_sub a b : Z.ldiff a b = a - Z.land a b.
Proof.
  rewrite Z.sub_nocarry_ldiff; apply Z.bits_inj'; intros n Hn;
    rewrite ?Z.ldiff_spec, ?Z.land_spec, ?Z.bits_0; by destruct (Z.testbit a n), (Z.testbit b n).
Qed.

Lemma clear_bits_lt a b : 0 <= a -> Z.land a b <> 0 -> 0 <= clear_bits a b < a.
Proof.
  intros Ha Hab. unfold clear_bits. split; [apply Z.ldiff_nonneg; lia|].
  rewrite ldiff_sub. assert (0 <= Z.land a b) by (apply Z.land_nonneg; lia). lia.
Qed.

Lemma clear_bits_le a b : 0 <= a -> 0 <= clear_bits a b <= a.
Proof.
  intros Ha. destruct (Z.eq_dec (Z.land a b) 0) as [Hz|Hz]; [|pose proof (clear_bits_lt a b Ha Hz); lia].
  unfold clear_bits. rewrite ldiff_sub, Hz. lia.
Qed.

Lemma land_clear_bits a b c : Z.land a c = 0 -> Z.land (clear_bits a b) c = 0.
Proof.
  unfold clear_bits. intros Hac. apply Z.bits_inj'. intros n Hn. apply (f_equal (fun z => Z.testbit z n)) in Hac.
  rewrite Z.land_spec, Z.bits_0 in *. rewrite Z.ldiff_spec. by destruct (Z.testbit a n), (Z.testbit c n), (Z.testbit b n).
Qed.

Lemma mask5_range a : 0 <= mask5 a < 32.
Proof. unfold mask5, DPEVT_ALL. change 0x1F with (Z.ones 5). rewrite Z.land_ones by lia. apply Z.mod_pos_bound. lia. Qed.

(** The calls of an operation that a waking makes.  Each is made with the pending
    events [able], takes away from them exactly what it says it has used up, and
    goes on from what the call before it left; [r] is what the last one answered. *)
Inductive calls {E} (post : loc -> dpasc_out -> ST (world E) (Z * dpasc_out)) (x : loc)
  : world E -> Z -> world E -> Z -> Z -> Prop :=
  | calls_none w able : calls post x w able w able DPE_WAIT
  | calls_more w able out out' w1 w2 w' able' r :
      o_able out = able -> post x out w = Some ((DPE_WAIT, out'), w1) -> w_ext w2 = w_ext w1 ->
      calls post x w2 (clear_bits able (o_inva out')) w' able' r -> calls post x w able w' able' r
  | calls_last w able out out' r w1 :
      o_able out = able -> post x out w = Some ((r, out'), w1) -> r <> DPE_WAIT ->
      calls post x w able w1 (clear_bits able (o_inva out')) r.

Section Wake.
Context {E : Type} `{Sys E} (P : program E).
Context (asc : Z) (a : dpasc E) (post : loc -> dpasc_out -> ST (world E) (Z * dpasc_out)).
Context (Hasc : p_asc P asc = Some a) (Hpost : a_post a = Some post) I mu `{!PostOk post I mu}.

(** An element whose operation is [asc]. *)
Definition running (x : loc) (e : dpele) (w : world E) : Prop :=
  w_eles w !! x = Some e /\ e_asc e = Some asc.

(** What the loop leaves: waiting, with nothing to wait for pending, or over, after
    the calls that [able] and the result [r] say. *)
Definition woken (x : loc) (w : world E) (able r : Z) (w' : world E) : Prop :=
  exists e' w1, running x e' w' /\ calls post x w able w1 (e_able e') r /\ w_ext w' = w_ext w1 /\
    (r = DPE_WAIT -> Z.land (e_able e') (e_want e') = 0) /\ (r <> DPE_WAIT -> e_want e' = 0).

Lemma wp_drop_inva x out w e (Q : dpasc_out -> world E -> Prop) :
  w_eles w !! x = Some e ->
  Q (Out (o_want out) 0 (o_able out) (o_data out))
    (with_eles <[x := set_able e (clear_bits (e_able e) (o_inva out))]> w) ->
  wp (drop_inva x out) w Q.
Proof.
  intros Hx HQ. unfold drop_inva. destruct (Z.eqb_spec (o_inva out) 0) as [Hz|Hz]; cbn [negb].
  - apply wp_ret. rewrite Hz in HQ. unfold clear_bits in HQ. rewrite Z.ldiff_0_r in HQ.
    destruct out as [wa iv ab da], e, w; cbn in *; subst. unfold with_eles in HQ. cbn in HQ.
    by rewrite insert_id in HQ.
  - by repeat world_step.
Qed.

(** Nothing that is wanted is pending: the loop stops, whatever the fuel. *)
Lemma wake_loop_over fuel x out w e :
  running x e w -> Z.land (e_able e) (e_want e) = 0 ->
  wp (efd_wake_loop P fuel x out DPE_WAIT) w (fun r w' => woken x w (e_able e) r.1 w').
Proof.
  intros [Hx He] Hz. destruct fuel; cbn; apply wp_bind; (eapply wp_get_ele; [done|]); rewrite Hz; apply wp_ret;
    exists e, w; (split; [done|]); (split; [constructor|done]).
Qed.

(** One call before the others. *)
Lemma woken_more x w able out out' w1 w2 r w' :
  o_able out = able -> post x out w = Some ((DPE_WAIT, out'), w1) -> w_ext w2 = w_ext w1 ->
  woken x w2 (clear_bits able (o_inva out')) r w' -> woken x w able r w'.
Proof. intros Ho Hp Hw (e' & w3 & He' & Hc & Hr). exists e', w3. split; [done|]. split; [|done]. by econstructor. Qed.

Lemma efd_wake_loop_ok fuel x out ret w e :
  running x e w -> 0 < o_want out -> mask5 (o_want out) = e_want e -> I x (strip e) (o_want out) (o_data out) (w_ext w) ->
  0 <= e_able e -> e_able e + Z.of_nat (mu x (w_ext w)) <= Z.of_nat fuel -> ret = DPE_WAIT ->
  wp (efd_wake_loop P fuel x out ret) w (fun r w' => woken x w (e_able e) r.1 w').
Proof.
  revert out ret w e. induction fuel as [|fuel IH]; intros out ret w e [Hx He] How Hwant HI Hable Hfuel ->.
  all: destruct (Z.eqb_spec (Z.land (e_able e) (e_want e)) 0) as [Hz|Hz]; [by apply wake_loop_over|].
  - exfalso. apply Hz. replace (e_able e) with 0 by lia. done.
  - cbn. apply wp_bind; eapply wp_get_ele; [done|]. rewrite (proj2 (Z.eqb_neq _ _) Hz).
    unfold asc_of, lift_opt. apply wp_bind. rewrite He; cbn; rewrite Hasc. apply wp_ret.
    apply wp_bind. rewrite Hpost. apply wp_ret. apply wp_bind.
    pose proof (post_ok x (Out (o_want out) (o_inva out) (e_able e) (o_data out)) w e Hx eq_refl Hz How Hwant HI) as Hp.
    apply wp_run in Hp as ([r out'] & w' & Hcall & e' & Hx' & Ha' & Hw' & Has' & Hst & Hr). cbn [fst snd] in *.
    unfold wp at 1. rewrite Hcall. cbn [fst snd].
    apply wp_bind. eapply wp_drop_inva; [done|]. cbn [o_want]. rewrite Ha'.
    destruct (Z.eqb_spec r DPE_WAIT) as [->|Hne].
    + destruct (Hr eq_refl) as (How' & HI' & Hless). apply wp_bind.
      replace (0 <? o_want out') with true by lia. world_step.
      destruct (decide (Z.land (e_able e) (mask5 (o_want out')) = 0)) as [Hno|Hno].
      { eapply wp_mono; [eapply wake_loop_over; [split; [by apply lookup_insert_eq|cbn; congruence]|]|].
        - cbn. by apply land_clear_bits.
        - intros [r2 o2] w3 Hwk. eapply woken_more; [|exact Hcall| |exact Hwk]; done. }
      assert (Hless' : (Z.land (e_able e) (o_inva out') <> 0 /\ (mu x (w_ext w') <= mu x (w_ext w))%nat
         \/ (mu x (w_ext w') < mu x (w_ext w))%nat)) by tauto. clear Hless. rename Hless' into Hless.
      pose proof (clear_bits_le (e_able e) (o_inva out') Hable) as Hle.
      eapply wp_mono; [eapply IH; [split; [by apply lookup_insert_eq|cbn; congruence]|done|done| |cbn; lia| |done]|].
      * cbn. rewrite <-Hst in HI'. exact HI'.
      * cbn. destruct Hless as [[Hl Hm]|Hm]; [pose proof (clear_bits_lt (e_able e) (o_inva out') Hable Hl)|]; lia.
      * intros [r2 o2] w3 Hwk. eapply woken_more; [|exact Hcall| |exact Hwk]; done.
    + repeat world_step. eexists _, w'. split; [split; [by apply lookup_insert_eq|cbn; congruence]|].
      split; [|done]. cbn. eapply calls_last; [|exact Hcall|done]; done.
Qed.

Lemma _dpefd_wake_ok fuel x out w e :
  running x e w -> 0 < o_want out -> I x (strip e) (o_want out) (o_data out) (w_ext w) ->
  0 <= e_able e -> e_able e + Z.of_nat (mu x (w_ext w)) <= Z.of_nat fuel ->
  wp (_dpefd_wake P fuel x out) w (fun r w' =>
    if dpret_iserr (DPEVT_GET_ERR (e_able e)) then
      r.1 = DPEVT_GET_ERR (e_able e) /\ w' = with_eles <[x := set_want e 0]> w
    else exists w0, w_ext w0 = w_ext w /\ woken x w0 (clear_bits (e_able e) (o_inva out)) r.1 w').
Proof.
  intros [Hx He] How HI Ha Hf. unfold _dpefd_wake. world_step. world_step. cbv zeta.
  destruct (dpret_iserr (DPEVT_GET_ERR (e_able e))) eqn:Herr.
  - by repeat world_step.
  - world_step. eapply wp_drop_inva; [done|]. world_step. world_step.
    pose proof (clear_bits_le (e_able e) (o_inva out) ltac:(lia)).
    eapply wp_mono; [eapply efd_wake_loop_ok; [split; [by apply lookup_insert_eq|cbn; congruence]|done|done|done|cbn; lia|cbn; lia|done]|].
    intros r w' Hwk. eexists. split; [|exact Hwk]. done.
Qed.

End Wake.

Section Feed.
Context {E : Type} `{Sys E} (P : program E).

(** C27. For an operation that keeps the contract of the loop ([PostOk]: a call
    that asks to wait gives up a pending event, gets on with its work, or asks for
    what is not pending) the loop of [_dpefd_wake] terminates, whatever events are
    pending: a mask of events has five bits, so 31 turns more than the work left
    are enough.  It ends with the operation complete, or waiting with none of the
    events it waits for pending.  (An operation without the contract can spin for
    ever.) *)
Theorem efd_wake_terminates (asc : Z) (a : dpasc E) post I mu (Hasc : p_asc P asc = Some a)
    (Hpost : a_post a = Some post) (Hok : PostOk post I mu) (fuel : nat) (x : loc) (out : dpasc_out)
    (w : world E) (e : dpele) (Hrun : running asc x e w) (Hable : 0 <= e_able e < 32) (Hwant : 0 < o_want out)
    (HI : I x (strip e) (o_want out) (o_data out) (w_ext w)) (Hfuel : (31 + mu x (w_ext w) <= fuel)%nat) :
  wp (_dpefd_wake P fuel x out) w (fun r w' => exists e', running asc x e' w' /\
    (r.1 = DPE_WAIT -> Z.land (e_able e') (e_want e') = 0) /\ (r.1 <> DPE_WAIT -> e_want e' = 0)).
Proof.
  eapply wp_mono; [apply (_dpefd_wake_ok P asc a post Hasc Hpost I mu fuel x out w e Hrun Hwant HI); lia|].
  intros r w'. destruct Hrun as [Hx He]. destruct (dpret_iserr _) eqn:Herr.
  - intros [-> ->]. exists (set_want e 0). split; [split; [apply lookup_insert_eq|done]|]. split; [|done].
    unfold DPEVT_GET_ERR in *. repeat case_match; done.
  - intros (w0 & _ & e' & w1 & He' & _ & _ & Hr). by exists e'.
Qed.

(** C20. No readiness is lost under edge triggering, for an operation that keeps
    the contract of the loop ([PostOk]).  The pending events and those fed are what
    the operation is called with; after its calls what is pending is exactly that
    less what each call said it had used up, and either the operation is over with
    the result of its last call (or the error the events stand for), or it waits
    only for events that are not pending. *)
Theorem efd_feed_no_lost_edge (asc : Z) (a : dpasc E) post I mu (Hasc : p_asc P asc = Some a)
    (Hpost : a_post a = Some post) (Hok : PostOk post I mu) (fuel : nat) (x : loc) (evs : Z)
    (w : world E) (e : dpele) (Hrun : running asc x e w) (Hwant : 0 < e_want e)
    (HI : I x (strip e) (e_want e) (bool_decide (is_Some (e_scratch e))) (w_ext w))
    (Hfuel : (31 + mu x (w_ext w) <= fuel)%nat) :
  let pending := mask5 (Z.lor (e_able e) evs) in
  wp (_dpefd_feed P fuel x evs) w (fun done w' => exists e', running asc x e' w' /\
    if dpret_iserr (DPEVT_GET_ERR pending) then
      done = true /\ e_able e' = pending /\ e_want e' = 0 /\ e_ret e' = DPEVT_GET_ERR pending
    else exists w0 w1 r, w_ext w0 = w_ext w /\ calls post x w0 pending w1 (e_able e') r /\ w_ext w' = w_ext w1 /\
      if done then r <> DPE_WAIT /\ e_want e' = 0 /\ e_ret e' = r
      else r = DPE_WAIT /\ Z.land (e_able e') (e_want e') = 0 /\ e_ret e' = DPE_INPROGRESS).
Proof.
  destruct Hrun as [Hx He]. cbv zeta. unfold _dpefd_feed, dpele_is_doing, dpele_asc_data. repeat world_step.
  cbn [e_asc e_want set_able e_scratch]. rewrite He, (bool_decide_true (is_Some (Some asc))) by eauto. cbn [negb orb].
  destruct (Z.eqb_spec (e_want e) 0) as [|_]; [lia|]. cbn [orb]. repeat world_step.
  pose proof (mask5_range (Z.lor (e_able e) evs)).
  eapply wp_mono; [eapply (_dpefd_wake_ok P asc a post Hasc Hpost I mu);
    [split; [by apply lookup_insert_eq|by cbn]|cbn; lia|exact HI|cbn; lia|cbn; lia]|].
  intros [r o] w'. cbn [fst e_able set_able o_inva]. unfold dpele_set_ret, clear_bits. rewrite Z.ldiff_0_r. destruct (dpret_iserr _) eqn:Herr.
  - intros [-> ->]. replace (_ =? DPE_WAIT) with false
      by (unfold DPEVT_GET_ERR in *; repeat case_match; done).
    repeat world_step. eexists. split; [split; [by apply lookup_insert_eq|by cbn]|]. by cbn.
  - intros (w0 & Hw0 & e' & w1 & [Hx' He'] & Hc & Hw1 & Hw & Hd). cbn in Hw0.
    destruct (Z.eqb_spec r DPE_WAIT) as [->|Hne]; repeat world_step;
      (eexists; split; [split; [by apply lookup_insert_eq|by cbn]|]); exists w0, w1; eexists; cbn;
      (split; [done|]); (split; [exact Hc|]); by eauto.
Qed.

End Feed.

(** ** Examples

    An operation that finds nothing to read each time. *)

Definition ex_post (x : loc) (out : dpasc_out) : ST (world Z) (Z * dpasc_out) :=
  mret (DPE_WAIT, Out (o_want out) (o_able out) (o_able out) (o_data out)).
Definition ex_inv (x : loc) (e : dpele) (want : Z) (data : bool) (s : Z) : Prop := True.

#[export] Instance ex_post_ok : PostOk ex_post ex_inv (fun _ _ => 0%nat).
Proof.
  intros x out w e Hx Ho He Hw _ _. apply wp_ret. exists e. split_and!; try done. intros _. cbn. rewrite Ho.
  split; [done|]. split; [done|]. left. split; [|lia].
  intros Hz. apply He. rewrite Z.land_diag in Hz. by rewrite Hz.
Qed.

Definition ex_asc : dpasc Z := Asc (fun _ _ out => mret (DPE_CONTINUE, out)) (Some ex_post) 1 0 0 0.
Definition ex_program : program Z :=
  Program (fun n => if n =? 7 then Some ex_asc else None) (fun _ => None) (fun _ => None) (fun _ => None).

(** A descriptor with input pending that waits for input. *)
Definition ex_efd : dpele := set_asc (set_want (set_able (zero_ele dpefd_init_type) DPEVT_IN) DPEVT_IN) (Some 7).
Definition ex_efd_world : world Z := with_eles <[1%positive := ex_efd]> (ex_world 1 (ex_node 1)).

Lemma efd_wake_terminates_witness :
  wp (_dpefd_wake ex_program 31 1 (Out DPEVT_IN 0 0 false)) ex_efd_world (fun r w' =>
    exists e', running 7 1 e' w' /\
    (r.1 = DPE_WAIT -> Z.land (e_able e') (e_want e') = 0) /\ (r.1 <> DPE_WAIT -> e_want e' = 0)).
Proof.
  apply (efd_wake_terminates ex_program 7 ex_asc ex_post ex_inv (fun _ _ => 0%nat) eq_refl eq_refl ex_post_ok 31 1
    (Out DPEVT_IN 0 0 false) ex_efd_world ex_efd); [done|by vm_compute|done|done|lia].
Defined.

Lemma efd_feed_no_lost_edge_witness :
  wp (_dpefd_feed ex_program 31 1 DPEVT_IN) ex_efd_world (fun done w' => exists e', running 7 1 e' w' /\
    if dpret_iserr (DPEVT_GET_ERR DPEVT_IN) then
      done = true /\ e_able e' = DPEVT_IN /\ e_want e' = 0 /\ e_ret e' = DPEVT_GET_ERR DPEVT_IN
    else exists w0 w1 r, w_ext w0 = w_ext ex_efd_world /\ calls ex_post 1 w0 DPEVT_IN w1 (e_able e') r /\ w_ext w' = w_ext w1 /\
      if done then r <> DPE_WAIT /\ e_want e' = 0 /\ e_ret e' = r
      else r = DPE_WAIT /\ Z.land (e_able e') (e_want e') = 0 /\ e_ret e' = DPE_INPROGRESS).
Proof.
  apply (efd_feed_no_lost_edge ex_program 7 ex_asc ex_post ex_inv (fun _ _ => 0%nat) eq_refl eq_refl ex_post_ok 31 1
    DPEVT_IN ex_efd_world ex_efd); [done|done|done|lia].
Defined.
