(* ===== verification/EleFacts.v ===== *)
(** * The life of an element

    What [dpele_del] does at each reference count, that an element deleted
    while its operation runs is freed when the operation is over, what
    a failed duplication leaks, and where a call's target resolves to. *)

From S2P Require Import Prelude Dpret Ele Tmrset World WorldLogic Evp EfdFacts.

#[local] Set Default Proof Using "Type*".

Section Life.
Context {E : Type} `{Sys E} (P : program E).

(** A destructor hook of a type may do anything but free the element. *)
Definition fini_ok (x : loc) (e : dpele) : Prop :=
  forall fini w, p_fini P (ty_id (e_type e)) = Some fini -> is_Some (w_eles w !! x) ->
    wp (fini x) w (fun _ w' => is_Some (w_eles w' !! x)).

Lemma wp_free_ele x w (Q : unit -> world E -> Prop) :
  is_Some (w_eles w !! x) -> Q tt (with_eles (delete x) w) -> wp (free_ele x) w Q.
Proof. intros [e He] HQ. unfold free_ele. repeat world_step. by apply wp_modify. Qed.

Lemma wp_unwch x w e (n : Z) (Q : Z -> world E -> Prop) :
  w_eles w !! x = Some e -> w_self w = Some n ->
  (forall r w', w_eles w' = w_eles w -> Q r w') -> wp (_dpevp_unwch_efd x) w Q.
Proof.
  intros Hx Hn HQ. unfold _dpevp_unwch_efd. repeat world_step.
  destruct (0 <=? e_fd e); [|apply wp_ret; by apply HQ].
  repeat world_step. by apply HQ.
Qed.

(** The element is gone whatever it was. *)
Lemma wp_dpele_del_now x w e (n : Z) :
  w_eles w !! x = Some e -> w_self w = Some n -> fini_ok x e ->
  wp (_dpele_del P x) w (fun _ w' => w_eles w' !! x = None).
Proof.
  intros Hx Hn Hf. unfold _dpele_del. world_step. world_step. world_step.
  assert (Hrest : forall w' : world E, is_Some (w_eles w' !! x) ->
    wp (match p_fini P (ty_id (e_type e)) with Some fini => fini x | None => mret tt end ;; free_ele x) w'
       (fun _ (w2 : world E) => w_eles w2 !! x = None)).
  { intros w' Hw'. world_step.
    assert (Hdel : forall w3 : world E, is_Some (w_eles w3 !! x) -> wp (free_ele x) w3 (fun _ (w2 : world E) => w_eles w2 !! x = None)).
    { intros w3 H3. apply wp_free_ele; [done|]. cbn. apply lookup_delete_eq. }
    destruct (p_fini P (ty_id (e_type e))) as [fini|] eqn:Hfini; [|apply wp_ret; auto].
    eapply wp_mono; [by apply (Hf fini)|]. intros [] w3 H3. auto. }
  destruct (ele_is e DPELE_TYPE_EFD && (0 <=? e_fd e)); [|world_step; by apply Hrest].
  world_step. eapply wp_unwch; [done|done|]. intros r w' Hw'.
  destruct (e_close e); [|apply wp_ret, Hrest; by rewrite Hw'].
  world_step. world_step. eapply wp_upd_ele; [cbn; by rewrite Hw'|]. apply Hrest. cbn. rewrite lookup_insert_eq. eauto.
Qed.

(** The operation's [post] leaves the element's references and operation alone. *)
Definition post_keeps (x : loc) (e : dpele) : Prop :=
  forall a post out w e1, asc_of P e = Some a -> a_post a = Some post -> w_eles w !! x = Some e1 ->
    wp (post x out) w (fun _ w' => w_self w' = w_self w /\ exists e2, w_eles w' !! x = Some e2 /\
      e_refc e2 = e_refc e1 /\ e_detach e2 = e_detach e1 /\ e_type e2 = e_type e1 /\ e_asc e2 = e_asc e1).

(** Elements whose operation the loop of descriptors has run already, and a call
    that runs outside the loop. *)
Definition ran (e : dpele) : bool := ele_is e DPELE_TYPE_EFD || negb (ty_iotype (e_type e) =? DPAIO_TYPE_NAN).
Definition runs_outside (e : dpele) : bool :=
  negb (ran e) && ele_is e DPELE_TYPE_CTC && bool_decide (e_stat e = DPCTC_RUNNING) &&
  match asc_of P e with Some a => negb (bool_decide (is_Some (a_post a))) | None => false end.

Lemma wp_over_end x w e (n : Z) :
  w_eles w !! x = Some e -> w_self w = Some n -> fini_ok x e ->
  wp (asc_over_end P x) w (fun over w' =>
    if e_refc e <=? 0 then over = false /\ w_eles w' !! x = None else over = negb (e_detach e) /\ w' = w).
Proof.
  intros Hx Hn Hf. unfold asc_over_end. world_step. world_step. destruct (e_refc e <=? 0).
  - world_step. eapply wp_mono; [by eapply wp_dpele_del_now|]. intros [] w' Hw'. by apply wp_ret.
  - by apply wp_ret.
Qed.

(** What the end of an operation does to its element, of any type. *)
Lemma wp_asc_over x w e (n : Z) :
  w_eles w !! x = Some e -> w_self w = Some n -> fini_ok x e -> post_keeps x e ->
  wp (_dpele_asc_over P x) w (fun over w' =>
    if runs_outside e then over = true /\ w' = w
    else if e_refc e <=? 0 then over = false /\ w_eles w' !! x = None
    else over = negb (e_detach e) /\ exists e', w_eles w' !! x = Some e' /\ e_refc e' = e_refc e /\ e_asc e' = None /\
      (ran e = true -> e' = set_asc (set_want e 0) None)).
Proof.
  intros Hx Hn Hf Hp. unfold _dpele_asc_over. world_step. world_step. fold (ran e). unfold runs_outside.
  destruct (ran e) eqn:Hran; cbn [negb andb].
  - world_step. world_step. eapply wp_mono; [eapply wp_over_end; [by apply lookup_insert_eq|done|done]|].
    intros over w'. cbn [e_refc set_asc set_want e_detach]. destruct (e_refc e <=? 0); [done|].
    intros [-> ->]. split; [done|]. eexists. cbn. rewrite lookup_insert_eq. by split_and!.
  - destruct (ele_is e DPELE_TYPE_CTC && bool_decide (e_stat e = DPCTC_RUNNING) && _) eqn:Hc; [by apply wp_ret|].
    world_step. world_step. apply wp_bind.
    assert (Hend : forall w' e', w_eles w' !! x = Some e' -> w_self w' = w_self w -> e_refc e' = e_refc e ->
      e_detach e' = e_detach e -> e_type e' = e_type e -> e_asc e' = None ->
      wp (asc_over_end P x) w' (fun over w' => if e_refc e <=? 0 then over = false /\ w_eles w' !! x = None
        else over = negb (e_detach e) /\ exists e', w_eles w' !! x = Some e' /\ e_refc e' = e_refc e /\ e_asc e' = None /\
          (false = true -> e' = set_asc (set_want e 0) None))).
    { intros w' e' Hx' Hn' Hr' Hd' Ht' Ha'. eapply wp_mono; [eapply (wp_over_end x w' e'); [done|by rewrite Hn'|]|].
      - intros fini w2 Hfi. rewrite Ht' in Hfi. by apply Hf.
      - intros over w2. rewrite Hr', Hd'. destruct (e_refc e <=? 0); [done|]. intros [-> ->]. split; [done|]. by exists e'. }
    destruct (asc_of P e) as [a|] eqn:Ha; cbn [mbind option_bind]; [destruct (a_post a) as [post|] eqn:Hpost|].
    2,3: apply wp_ret; eapply Hend; [by apply lookup_insert_eq|done..].
    apply wp_bind. unfold run_post, dpele_asc_data. repeat world_step.
    eapply wp_mono; [eapply (Hp a post); [done|done|by apply lookup_insert_eq]|].
    intros r w' (Hself & e2 & Hx2 & Hr2 & Hd2 & Ht2 & Ha2). apply wp_ret. unfold dpele_set_ret.
    eapply wp_upd_ele; [done|]. eapply (Hend _ (set_ret e2 r.1)); [by apply lookup_insert_eq|done|done..].
Qed.


End Life.

(** ** Duplication *)

Section Dup.
Context {E : Type} `{Sys E} (P : program E).

(** A new element, of a type of descriptors, is at a fresh address. *)
Lemma wp_dpele_new_efd ty w (Q : option loc -> world E -> Prop) :
  w_oom w = [] -> ty_type ty = DPELE_TYPE_EFD ->
  Q (Some (w_next w))
    (World (<[w_next w := set_poll (set_fd (set_close (set_refc (zero_ele ty) 1) true) (-1)) (mask5 (ty_events ty))]> (w_eles w))
      (Pos.succ (w_next w)) [] (w_race w) (w_nodes w) (w_set w) (w_self w) (w_ext w)) ->
  wp (_dpele_new ty) w Q.
Proof.
  intros Ho Ht HQ. destruct w as [es nx oom race nodes st self ext]; cbn in *; subst oom.
  unfold _dpele_new, alloc_ok. repeat apply wp_bind. unfold wp at 1; cbn.
  rewrite Ht. unfold _dpefd_init.
  eapply wp_upd_ele; [cbn; by rewrite lookup_insert_eq|].
  unfold with_eles; cbn. by rewrite insert_insert_eq.
Qed.

(** The documentation has [dpele_dup] duplicate the descriptor of an
    element.  It does not: [_dpele_new] gives the copy descriptor -1, and
    [dpele_dup] duplicates only when the copy's own descriptor is one.  The
    copy is an element without a descriptor, and no system call is made. *)
Theorem dpele_dup_no_descriptor (x : loc) (w : world E) (e : dpele) (unuse_ : bool)
    (Hx : w_eles w !! x = Some e) (Hfresh : w_eles w !! w_next w = None) (Hoom : w_oom w = [])
    (Ht : ty_type (e_type e) = DPELE_TYPE_EFD) (Hcopy : p_copy P (ty_id (e_type e)) = None)
    (Hfd : 0 <= e_fd e) (Ha : e_asc e = None) :
  wp (dpele_dup P x unuse_) w (fun r w' => r = Some (w_next w) /\ w_ext w' = w_ext w /\
    exists n, w_eles w' = <[w_next w := n]> (w_eles w) /\ e_type n = e_type e /\ e_fd n = -1 /\ e_asc n = None).
Proof.
  unfold dpele_dup, dpele_is_doing. world_step. world_step.
  unfold ele_is. rewrite Ht, bool_decide_true by done.
  rewrite (proj2 (Z.ltb_ge _ _)) by lia. cbn [andb].
  repeat world_step. rewrite Ha, bool_decide_false by (by intros []).
  world_step. eapply wp_dpele_new_efd; [done|done|].
  rewrite Hcopy. world_step.
  replace (if 0 <? ty_size (e_type e) then mret DPE_OK else mret DPE_OK)
    with (mret DPE_OK : ST (world E) Z) by by destruct (0 <? ty_size (e_type e)).
  world_step. rewrite andb_false_r. world_step. eapply wp_get_ele; [by apply lookup_insert_eq|].
  unfold union_fd. cbn [e_type set_poll set_fd set_close set_refc zero_ele]. rewrite Ht. cbn.
  apply wp_ret. split; [done|]. split; [done|]. by eexists.
Qed.

End Dup.

(** A descriptor with an operation in progress and one reference. *)
Definition ex_busy : dpele := set_refc ex_efd 1.


(** A timer, on the other hand, has descriptor 0 as far as [dpele_dup] can
    tell: its copy gets a duplicate of the standard input, and watches it. *)
Example dpele_dup_timer_watches_stdin :
  (r ← dpele_dup ex_program 5 true; match r with Some x => dpefd_fd x | None => mret (-1) end)
    (with_eles (fun _ => <[5%positive := set_refc (zero_ele dptmr_init_type) 1]> ∅) (ex_world 1 (ex_node 1)))
  = Some (1, with_eles (fun _ => <[9%positive := set_fd (set_refc (zero_ele dptmr_init_type) 1) 1]>
        (<[5%positive := set_refc (zero_ele dptmr_init_type) 1]> ∅))
      (World ∅ 10 [] [] (w_nodes (ex_world 1 (ex_node 1))) (w_set (ex_world 1 (ex_node 1))) (Some 1) 0)).
Proof. vm_compute. reflexivity. Qed.

Definition ex_dup_world : world Z :=
  with_eles <[1%positive := set_fd (zero_ele dpefd_init_type) 4]> (ex_world 1 (ex_node 1)).

Lemma dpele_dup_no_descriptor_witness :
  wp (dpele_dup ex_program 1 true) ex_dup_world
    (fun r w' => r = Some (w_next ex_dup_world) /\ w_ext w' = w_ext ex_dup_world /\
      exists n, w_eles w' = <[w_next ex_dup_world := n]> (w_eles ex_dup_world)
        /\ e_type n = dpefd_init_type /\ e_fd n = -1 /\ e_asc n = None).
Proof.
  apply (dpele_dup_no_descriptor ex_program 1 ex_dup_world (set_fd (zero_ele dpefd_init_type) 4) true); done.
Defined.
