(* ===== verification/CtcFacts.v ===== *)
(** * Calls between threads

    Where a call's target resolves to, who wins when a call is cancelled while
    a worker picks it up, and what ending a detached call leaves behind. *)

From S2P Require Import Prelude Dpret Ele Tmrset World WorldLogic Evp EfdFacts EleFacts.

#[local] Set Default Proof Using "Type*".

(** ** Resolving a target *)

(** The loops of each type, as [dpapp_init] lays them out. *)
Record set_wf (s : dpevp_set) : Prop := {
  sw_counts : zlen (gv_each_count s) = gv_type_count s;
  sw_ids : forall t, 0 <= t < gv_type_count s -> exists c ids,
    znth (gv_each_count s) t = Some c /\ znth (gv_each_ids s) t = Some ids /\
    zlen ids = c /\ c < 4294967296 /\ Forall (fun i => 0 <= i < gv_count s) ids;
}.

Lemma dpctc_hash_range x r : 0 < r -> 0 <= _dpctc_hash_ptr x r < r.
Proof. intros. apply Z.mod_pos_bound. lia. Qed.

Lemma znth_lookup {A} (l : list A) i a : znth l i = Some a -> a ∈ l.
Proof. unfold znth. intros Hi. case_match; [done|]. by eapply list_elem_of_lookup_2. Qed.

Section Ctc.
Context {E : Type} `{Sys E} (P : program E).

(** C30. A target other than [INT_MIN] resolves without an access outside the
    tables: a number of a loop to itself, a negated type to one of the loops of
    that type, always the same for the same call; and nothing else resolves.
    [INT_MIN] has no defined result: the code negates it, which overflows, and
    reads the tables at the outcome. *)
Theorem resolve_toid_valid (key : loc) (toid : Z) (w : world E) (Hwf : set_wf (w_set w)) :
  if toid =? INT_MIN then _dpctc_resolve_toid key toid w = None
  else exists r, _dpctc_resolve_toid key toid w = Some (r, w) /\
    if (0 <=? toid) && (toid <? gv_count (w_set w)) then r = toid
    else match (if toid <? 0 then znth (gv_each_ids (w_set w)) (- toid) else None) with
         | Some (i :: ids) => if - toid <? gv_type_count (w_set w)
                              then r ∈ i :: ids /\ 0 <= r < gv_count (w_set w) else r = DPE_INVAL
         | _ => r = DPE_INVAL
         end.
Proof.
  destruct Hwf as [Hc Hids]. unfold _dpctc_resolve_toid, mbind, ST_bind, gets.
  destruct (Z.eqb_spec toid INT_MIN) as [->|Hmin]; [by rewrite (proj2 (Z.leb_gt 0 INT_MIN)) by done|].
  destruct (Z.leb_spec 0 toid), (Z.ltb_spec toid (gv_count (w_set w))); cbn [andb]; try (by eexists).
  all: destruct (Z.ltb_spec toid 0); try lia; try (by eexists).
  all: destruct (Z.leb_spec (gv_type_count (w_set w)) (- toid)); cbn.
  1,3: eexists; split; [done|]; destruct (znth _ _) as [[]|]; try done; by rewrite (proj2 (Z.ltb_ge _ _)) by lia.
  all: destruct (Hids (- toid) ltac:(lia)) as (c & ids & -> & -> & Hl & Hc32 & Hr); cbn.
  all: destruct (Z.eqb_spec c 0) as [Hc0|Hc0]; cbn;
    [eexists; split; [done|]; destruct ids; [done|rewrite zlen_cons in Hl; pose proof (zlen_nonneg ids); lia]|].
  all: pose proof (zlen_nonneg ids).
  all: assert (Hz : to_u32 c = c) by (apply Z.mod_small; lia); rewrite Hz.
  all: pose proof (dpctc_hash_range key c ltac:(lia)) as Hh.
  all: unfold lift_opt; destruct (znth ids (_dpctc_hash_ptr key c)) as [r|] eqn:Hn.
  all: try (exfalso; unfold znth in Hn; rewrite (proj2 (Z.ltb_ge _ _)) in Hn by lia;
            apply lookup_ge_None in Hn; unfold zlen in *; lia).
  all: exists r; split; [done|]; destruct ids as [|i ids]; [cbn in Hl; rewrite zlen_nil in Hl; lia|].
  all: rewrite (proj2 (Z.ltb_lt _ _)) by lia; apply znth_lookup in Hn; split; [done|].
  all: rewrite Forall_forall in Hr; by apply Hr.
Qed.

(** ** Cancelling against running *)

Definition with_race (r : list (option Z)) (w : world E) : world E :=
  World (w_eles w) (w_next w) (w_oom w) r (w_nodes w) (w_set w) (w_self w) (w_ext w).

Lemma wp_read_stat x w e o race (Q : dpctc_stat_e -> world E -> Prop) :
  w_eles w !! x = Some e -> w_race w = o :: race ->
  Q (e_stat e)
    (match o with
     | Some r => with_race race (if bool_decide (e_stat e = DPCTC_COMMIT)
                                 then with_eles <[x := set_ret (set_stat e DPCTC_CANCEL) r]> w else w)
     | None => with_race race w
     end) ->
  wp (read_stat x) w Q.
Proof.
  intros Hx Hr HQ. unfold read_stat, _dpctc_stat, other_threads. repeat world_step.
  unfold wp. rewrite Hr. destruct o as [r|]; [|done]. unfold mbind, ST_bind, get_ele, on_eles, ele_get. cbn.
  rewrite Hx. cbn. destruct (bool_decide (e_stat e = DPCTC_COMMIT)); [|done].
  unfold put_ele, on_eles, ele_put. cbn. by rewrite Hx.
Qed.

Lemma wp_ces x new old w e (Q : bool -> world E -> Prop) :
  w_eles w !! x = Some e ->
  Q (bool_decide (e_stat e = old)) (if bool_decide (e_stat e = old) then with_eles <[x := set_stat e new]> w else w) ->
  wp (_dpctc_ces_stat x new old) w Q.
Proof.
  intros Hx HQ. unfold _dpctc_ces_stat. repeat world_step.
  destruct (bool_decide (e_stat e = old)); repeat world_step; [done|by apply wp_ret].
Qed.

Lemma wp_worker_push self x w v e (Q : unit -> world E -> Prop) :
  w_nodes w !! self = Some v -> w_eles w !! x = Some e -> unqueued x w ->
  (forall v', v_enter v' = v_enter v -> x ∈ v_commited v' ++ v_commiting v' -> Q tt (with_nodes <[self := v']> w)) ->
  wp (_worker_push_commit_ctc self x) w Q.
Proof.
  intros Hv Hx Hu HQ. unfold _worker_push_commit_ctc. repeat world_step. destruct (v_request v).
  - repeat world_step. eapply wp_q_push; [done|by apply lookup_insert_eq|eapply unqueued_node; [done|done|by intros []]|].
    unfold write_commit. repeat world_step. apply HQ; [done|]. cbn. set_solver.
  - eapply wp_q_push; [done|done|done|]. apply HQ; [done|]. cbn. set_solver.
Qed.

(** C25. A call that its submitter cancels while a worker picks it up is either
    run or cancelled, never both: when the cancellation comes between the
    worker's look at the state and its exchange, the worker finishes the call
    with the submitter's result and hands it back; otherwise the call runs, and
    a later cancellation has no effect. *)
Theorem cancel_race_one_winner (fuel : nat) (self : Z) (v : dpevp) (x : loc) (e : dpele) (w : world E)
    (o : option Z) (race : list (option Z)) (Hfuel : (2 <= fuel)%nat)
    (Hv : w_nodes w !! self = Some v) (Hq : v_enter v = [x]) (Hx : w_eles w !! x = Some e)
    (Hu : unqueued x (with_nodes <[self := q_set QEnter [] v]> w))
    (Hstat : e_stat e = DPCTC_COMMIT) (Hrefc : 0 < e_refc e) (Hdet : e_detach e = false)
    (Hfrom : e_fromid e <> self) (Hrace : w_race w = o :: race) :
  wp (_worker_reap_ctc P fuel self) w (fun r w' => exists e' v', w_eles w' !! x = Some e' /\
    w_nodes w' !! self = Some v' /\
    match o with
    | Some ret => r = None /\ e_stat e' = DPCTC_FINISH /\ e_ret e' = ret /\ x ∈ v_commited v' ++ v_commiting v'
    | None => r = Some x /\ e_stat e' = DPCTC_RUNNING /\ e_ret e' = e_ret e /\
        wp (_dpctc_ces_stat x DPCTC_CANCEL DPCTC_COMMIT) w' (fun ok w2 => ok = false /\ w2 = w')
    end).
Proof.
  destruct fuel as [|[|fuel]]; [lia|lia|]. cbn [_worker_reap_ctc].
  apply wp_bind. eapply wp_q_pop; [done|]. cbn [q_get]. rewrite Hq. cbv zeta.
  apply wp_bind. eapply wp_read_stat; [done|done|]. rewrite Hstat, bool_decide_true by done.
  apply wp_bind. destruct o as [ret|].
  - eapply wp_ces; [by apply lookup_insert_eq|]. cbn [e_stat set_ret set_stat].
    rewrite bool_decide_false by done.
    apply wp_bind. eapply wp_ces; [by apply lookup_insert_eq|]. cbn [e_stat set_ret set_stat].
    rewrite bool_decide_true by done. apply wp_bind. unfold reap_cancelled, _dpctc_del.
    repeat world_step. cbn [e_refc set_stat set_ret].
    rewrite (proj2 (Z.leb_gt _ _)) by lia. apply wp_ret. cbn [e_detach set_stat set_ret]. rewrite Hdet.
    unfold _worker_finish_ctc. apply wp_bind. eapply wp_get_ele; [cbn; by apply lookup_insert_eq|].
    cbn [e_fromid set_stat set_ret]. rewrite (proj2 (Z.eqb_neq _ _)) by done.
    eapply wp_worker_push; [cbn; by apply lookup_insert_eq|cbn; by apply lookup_insert_eq| |].
    { intros n u q Hn. apply (Hu n u q). exact Hn. }
    intros v' Hv' Hin. cbn [v_enter q_set pick q_eqb] in Hv'.
    apply wp_bind. eapply wp_q_pop; [cbn; by apply lookup_insert_eq|]. cbn [q_get]. rewrite Hv'. apply wp_ret.
    eexists _, v'. cbn. rewrite !insert_insert_eq, !lookup_insert_eq. split_and!; done.
  - eapply wp_ces; [done|]. rewrite Hstat, bool_decide_true by done. apply wp_ret.
    eexists _, _. cbn. rewrite !lookup_insert_eq. split_and!; try done.
    eapply wp_ces; [cbn; by apply lookup_insert_eq|]. cbn. rewrite bool_decide_false by done. done.
Qed.

(** A detached call that ends while its submitter still holds a reference
    keeps its operation: the submitter's [dpele_del] then takes the call for
    one in progress and leaves it to the loop, but no queue of any loop holds
    it: with no reference left, it is never freed. *)
Theorem detached_call_leaks (x : loc) (err : Z) (w : world E) (e : dpele) (n : Z)
    (Hx : w_eles w !! x = Some e) (Hn : w_self w = Some n) (Hu : unqueued x w)
    (Ht : ele_is e DPELE_TYPE_CTC = true) (Hdoing : is_Some (e_asc e)) (Hdet : e_detach e = true)
    (Hreto : e_reto e = false) (Hrefc : e_refc e = 1) :
  wp (ret ← dpevp_end_ctc_ P (Some x) err; dpele_del P (Some x);; mret ret) w (fun ret w' =>
    ret = DPE_OK /\ unqueued x w' /\
    w_eles w' !! x = Some (set_refc (set_stat (set_ret e err) DPCTC_FINISH) 0)).
Proof.
  destruct Hdoing as [a Ha]. unfold dpevp_end_ctc_, dpele_is_doing, dpele_refc, dpele_set_ret, _dpctc_set_stat, dpele_del.
  repeat world_step. rewrite Ht, Ha, bool_decide_true by eauto. cbn [negb orb].
  repeat world_step. rewrite Hreto. repeat world_step. rewrite Hdet. repeat world_step.
  cbn [e_refc set_stat set_ret]. rewrite Hrefc. cbn. repeat world_step.
  cbn [e_refc set_stat set_ret e_asc set_refc]. rewrite Hrefc, Ha. cbn. repeat world_step.
  split; [done|]. split; [|by rewrite lookup_insert_eq].
  intros m u q Hm. by apply (Hu m u q).
Qed.

End Ctc.

(** ** Examples *)

Lemma resolve_toid_valid_witness :
  exists r, _dpctc_resolve_toid 5 (-1) (ex_world 1 (ex_node 1)) = Some (r, ex_world 1 (ex_node 1)) /\ r = 1.
Proof.
  pose proof (resolve_toid_valid ex_program 5 (-1) (ex_world 1 (ex_node 1))) as Hr.
  assert (Hwf : set_wf (w_set (ex_world 1 (ex_node 1)))).
  { split; [done|]. intros t Ht. cbn in Ht. assert (t = 0 \/ t = 1) as [->| ->] by lia;
      eexists _, _; split_and!; try done; repeat constructor; cbn; lia. }
  specialize (Hr Hwf). cbn in Hr. destruct Hr as (r & E & Hr & _). exists r. split; [exact E|].
  by apply list_elem_of_singleton in Hr.
Defined.

(** A call on its way from worker 2 to worker 1, which the submitter cancels. *)
Definition ex_cancelled : world Z :=
  with_race [Some (-110)] (with_eles <[5%positive := set_fromid (set_stat ex_call DPCTC_COMMIT) 2]>
    (ex_world 1 (q_set QEnter [5%positive] (ex_node 1)))).

Lemma unqueued_check x (w : world Z) :
  forallb (fun nv => forallb (fun q => bool_decide (x ∉ q_get q nv.2)) all_queues) (map_to_list (w_nodes w)) = true ->
  unqueued x w.
Proof.
  intros Hf n v q Hn. rewrite forallb_forall in Hf.
  specialize (Hf (n, v) (proj1 (list_elem_of_In _ _) (proj2 (elem_of_map_to_list _ _ _) Hn))). cbn in Hf.
  rewrite !andb_true_iff, !bool_decide_eq_true in Hf. destruct q; naive_solver.
Qed.

Lemma cancel_race_one_winner_witness :
  wp (_worker_reap_ctc ex_program 2 1) ex_cancelled (fun r w' => exists e' v', w_eles w' !! 5%positive = Some e' /\
    w_nodes w' !! 1 = Some v' /\ r = None /\ e_stat e' = DPCTC_FINISH /\ e_ret e' = -110 /\
    5%positive ∈ v_commited v' ++ v_commiting v').
Proof.
  apply (cancel_race_one_winner ex_program 2 1 (q_set QEnter [5%positive] (ex_node 1)) 5
    (set_fromid (set_stat ex_call DPCTC_COMMIT) 2) ex_cancelled (Some (-110)) []); try done.
  by apply unqueued_check.
Defined.

(** A detached call at the loop that runs it. *)
Definition ex_detached : world Z :=
  with_eles <[5%positive := set_detach (set_stat ex_call DPCTC_RUNNING) true]> (ex_world 1 (ex_node 1)).

Lemma detached_call_leaks_witness :
  wp (ret ← dpevp_end_ctc_ ex_program (Some 5%positive) 0; dpele_del ex_program (Some 5%positive);; mret ret)
    ex_detached (fun ret w' => ret = DPE_OK /\ unqueued 5 w' /\
    w_eles w' !! 5%positive = Some (set_refc (set_stat (set_ret (set_detach (set_stat ex_call DPCTC_RUNNING) true) 0) DPCTC_FINISH) 0)).
Proof.
  apply (detached_call_leaks ex_program 5 0 ex_detached (set_detach (set_stat ex_call DPCTC_RUNNING) true) 1);
    try done; by apply unqueued_check.
Defined.
