(* ===== verification/Dpapp.v ===== *)
(** * The process ([lib/dpapp/dpapp.c])

    Command line, layout of the loops, start and shutdown.  The program runs on
    the world of [World]: [w_set] is [_gevps] and [w_oom] answers its
    allocations.  [evps] is the table of loops ([true] for an entry that is not
    [NULL]).  Logging is in [Dplog] and left out here; strings that the parser
    duplicates are assumed to be allocated. *)

From S2P Require Import Prelude Chars Which Dplog Dpret Ele Tmrset World Evp.

#[local] Set Default Proof Using "Type*".

Definition DPAPP_TYPE_MAX : Z := 64.

Record dpapp_arg := Arg {
  ar_argv : list chars; (* what is left after parsing *)
  ar_machine_id : Z;
  ar_type_count : Z;
  ar_each_count : list Z;
  ar_cpuoff : Z;
  ar_log_level : Z;
  ar_log_tsacc : Z;
  ar_root_dir : option chars;
  ar_log_file : option chars;
  ar_bin_file : option chars;
}.

Definition dpapp_arg_init : dpapp_arg :=
  Arg [] 0 1 (replicate 64 1) 0 DPLOG_L_NOTICE DPLOG_TA_SECOND None (Some (chr "/dev/stdout")) None.

Definition dpapp_arg_free (a : dpapp_arg) : dpapp_arg := Arg [] 0 0 (replicate 64 0) 0 0 0 None None None.

Section Setters.
Context (a : dpapp_arg).
Definition with_argv v := Arg v (ar_machine_id a) (ar_type_count a) (ar_each_count a) (ar_cpuoff a) (ar_log_level a) (ar_log_tsacc a) (ar_root_dir a) (ar_log_file a) (ar_bin_file a).
Definition with_machine v := Arg (ar_argv a) v (ar_type_count a) (ar_each_count a) (ar_cpuoff a) (ar_log_level a) (ar_log_tsacc a) (ar_root_dir a) (ar_log_file a) (ar_bin_file a).
Definition with_each v := Arg (ar_argv a) (ar_machine_id a) (ar_type_count a) v (ar_cpuoff a) (ar_log_level a) (ar_log_tsacc a) (ar_root_dir a) (ar_log_file a) (ar_bin_file a).
Definition with_cpuoff v := Arg (ar_argv a) (ar_machine_id a) (ar_type_count a) (ar_each_count a) v (ar_log_level a) (ar_log_tsacc a) (ar_root_dir a) (ar_log_file a) (ar_bin_file a).
Definition with_level v := Arg (ar_argv a) (ar_machine_id a) (ar_type_count a) (ar_each_count a) (ar_cpuoff a) v (ar_log_tsacc a) (ar_root_dir a) (ar_log_file a) (ar_bin_file a).
Definition with_tsacc v := Arg (ar_argv a) (ar_machine_id a) (ar_type_count a) (ar_each_count a) (ar_cpuoff a) (ar_log_level a) v (ar_root_dir a) (ar_log_file a) (ar_bin_file a).
Definition with_root v := Arg (ar_argv a) (ar_machine_id a) (ar_type_count a) (ar_each_count a) (ar_cpuoff a) (ar_log_level a) (ar_log_tsacc a) v (ar_log_file a) (ar_bin_file a).
Definition with_log v := Arg (ar_argv a) (ar_machine_id a) (ar_type_count a) (ar_each_count a) (ar_cpuoff a) (ar_log_level a) (ar_log_tsacc a) (ar_root_dir a) v (ar_bin_file a).
Definition with_bin v := Arg (ar_argv a) (ar_machine_id a) (ar_type_count a) (ar_each_count a) (ar_cpuoff a) (ar_log_level a) (ar_log_tsacc a) (ar_root_dir a) (ar_log_file a) v.
End Setters.

(** ** The command line *)

(** [dirname] of the C library: the directory, and whether the result is the
    library's own "." rather than the buffer it was given. *)
Fixpoint strip_slashes (rev_path : chars) : chars :=
  match rev_path with c :: s => if bool_decide (c = slash) then strip_slashes s else rev_path | [] => [] end.
Fixpoint strip_name (rev_path : chars) : chars :=
  match rev_path with c :: s => if bool_decide (c = slash) then rev_path else strip_name s | [] => [] end.
Definition dirname (path : chars) : chars * bool :=
  match strip_slashes (rev path) with
  | [] => if bool_decide (path = []) then (chr ".", true) else (chr "/", false)
  | name =>
      match strip_name name with
      | [] => (chr ".", true)
      | dir => match strip_slashes dir with [] => (chr "/", false) | d => (rev d, false) end
      end
  end.

(** [argv[i][0] == '-'] *)
Definition dash (s : chars) : bool := bool_decide (head s = Some "-"%char).

Inductive parsed :=
  | PStop (args : dpapp_arg) (ret : Z) (rest : list chars)
  | PError (args : dpapp_arg) (msg : string).

Section Parse.
Context {F : Type} `{Fs F} (fs : F).

(** One option with its value; [None] is undefined behaviour. *)
Definition parse_machine (a : dpapp_arg) (v : chars) : option (dpapp_arg + string) :=
  m ← atoi v;
  Some (if (m <? 0) || (31 <? m) then inr "machine id invalid"%string else inl (with_machine a m)).

Definition parse_count (a : dpapp_arg) (opt v : chars) : option (dpapp_arg + string) :=
  n ← atoi (drop 2 opt);
  c ← atoi v;
  Some (if (n <? 1) || (63 <? n) || (255 <? c) then inr "invalid type id or count"%string
        else inl (with_each a (<[Z.to_nat n := c]> (ar_each_count a)))).

Definition parse_root (a : dpapp_arg) (v : chars) : option (dpapp_arg + string) :=
  if is_dir fs v then
    p ← absolute_path fs v;
    match p with None => None (* strdup (NULL) *) | Some p => Some (inl (with_root a (Some p))) end
  else Some (inr "root_dir not exists"%string).

Definition parse_level (a : dpapp_arg) (v : chars) : option (dpapp_arg + string) :=
  let l := dplog_namel v in
  Some (if l <? 0 then inr "log_level invalid"%string else inl (with_level a l)).

(** Either way the result of [dirname] is freed. *)
Definition parse_log (a : dpapp_arg) (v : chars) : option (dpapp_arg + string) :=
  let '(log_dir, static) := dirname v in
  if static : bool then None (* free of a string that was not allocated *)
  else Some (if is_dir fs v || negb (is_dir fs log_dir) then inr "log_file invalid"%string
             else inl (with_log a (Some v))).

Definition parse_tsacc (a : dpapp_arg) (v : chars) : option (dpapp_arg + string) :=
  ta ← atoi v;
  Some (if (ta <? 0) || (2 <? ta) then inr "log_tsacc invalid, must be 0, 1, or 2"%string
        else inl (with_tsacc a ta)).

Definition opt_is (arg : chars) (short long : string) : bool :=
  bool_decide (arg = chr short) || bool_decide (arg = chr long).

(** The option [arg] as the chain of comparisons finds it: what to do with its
    value, the message for a value that is missing or starts with a dash. *)
Definition option_of (arg : chars) :
    option ((dpapp_arg -> chars -> option (dpapp_arg + string)) * (chars -> bool) * string) :=
  if opt_is arg "-m" "--machine" then Some (parse_machine, dash, "machine id error"%string)
  else if bool_decide (take 2 arg = chr "-n") then
    Some (fun a => parse_count a arg,
          fun v => dash v && negb (bool_decide (v !! 1%nat = Some "1"%char)), "-n<t> argument error"%string)
  else if opt_is arg "-u" "--cpu_off" then
    Some (fun a v => n ← atoi v; Some (inl (with_cpuoff a n)), dash, "cpu_off error"%string)
  else if opt_is arg "-d" "--root_dir" then Some (parse_root, dash, "root_dir error"%string)
  else if opt_is arg "-l" "--log_level" then Some (parse_level, dash, "log_level error"%string)
  else if opt_is arg "-o" "--log_file" then Some (parse_log, dash, "log_file error"%string)
  else if opt_is arg "-t" "--log_tsacc" then Some (parse_tsacc, dash, "log_tsacc error"%string)
  else None.

Fixpoint parse_options (a : dpapp_arg) (argv : list chars) : option parsed :=
  match argv with
  | [] => Some (PStop a DPE_OK [])
  | arg :: rest =>
      if opt_is arg "-h" "--help" then Some (PStop a 1 argv)
      else if opt_is arg "-V" "--version" then Some (PStop a 2 argv)
      else match option_of arg with
           | None => Some (PStop a DPE_OK argv)
           | Some (set, bad, msg) =>
               match rest with
               | [] => Some (PError a msg)
               | v :: rest =>
                   if bad v then Some (PError a msg) else
                   r ← set a v;
                   match r with
                   | inl a => parse_options a rest
                   | inr msg => Some (PError a msg)
                   end
               end
           end
  end.

(** The result and the arguments; [DPE_INVAL] with a message printed. *)
Definition dpapp_arg_parse (oarg : dpapp_arg) (argv : list chars) : option (Z * dpapp_arg) :=
  match argv with
  | [] => Some (DPE_INVAL, oarg)
  | arg0 :: argv =>
      bin ← find_executable fs arg0;
      match bin with
      | None => None (* strdup (NULL) *)
      | Some bin =>
          p ← parse_options (with_bin oarg (Some bin)) argv;
          match p with
          | PError a _ => Some (DPE_INVAL, a)
          | PStop a ret rest =>
              let root := match ar_root_dir a with
                          | Some d => d
                          | None => (dirname (dirname bin).1).1
                          end in
              Some (ret, with_argv (with_root a (Some root)) rest)
          end
      end
  end.

End Parse.

(** ** Layout of the loops *)

(** [_gapp]; the layout it shares with [_gevps] is [w_set]. *)
Record app_info := Info {
  i_machine_id : Z;
  i_root_dir : option chars;
  i_bin_file : option chars;
  i_cpunum : Z;
  i_cpuoff : Z;
}.

(** The blocks that [dpapp_init] allocates: the counts, the table of numbers and
    its rows, the table of loops, that of threads, and the copies of two strings. *)
Inductive ablock := BEachCount | BEachIds | BIds (type : Z) | BEvps | BThreads | BRootDir | BBinFile.

Record appst (E : Type) := App {
  ap_world : world E;
  ap_evps : option (list bool);
  ap_threads : option (list bool); (* which threads were created *)
  ap_info : app_info;
  ap_live : list ablock; (* allocated and not freed *)
}.
Arguments App {E}. Arguments ap_world {E}. Arguments ap_evps {E}.
Arguments ap_threads {E}. Arguments ap_info {E}. Arguments ap_live {E}.

Definition no_info : app_info := Info 0 None None 0 0.
Definition no_set : dpevp_set := EvpSet 0 0 [] [].

(** What the process asks of the system besides [Sys]: the number of
    processors, and a new thread for a loop (0 or an error). *)
Class Proc (E : Type) := {
  sys_nproc : E -> Z * E;
  thread_create : Z -> E -> Z * E;
}.

Section Dpapp.
Context {E : Type} `{Sys E} `{Proc E} (P : program E) (wake_fd : evdata -> Z).

Abbreviation M := (ST (appst E)).

Definition in_world {A} (m : ST (world E) A) : M A :=
  fun s => match m (ap_world s) with
           | Some (a, w) => Some (a, App w (ap_evps s) (ap_threads s) (ap_info s) (ap_live s))
           | None => None
           end.
Definition set_layout (g : dpevp_set) : M unit :=
  in_world (modify (fun w => World (w_eles w) (w_next w) (w_oom w) (w_race w) (w_nodes w) g (w_self w) (w_ext w))).
Definition set_info (i : app_info) : M unit := modify (fun s => App (ap_world s) (ap_evps s) (ap_threads s) i (ap_live s)).
Definition set_evps (t : option (list bool)) : M unit := modify (fun s => App (ap_world s) t (ap_threads s) (ap_info s) (ap_live s)).
Definition set_threads (t : option (list bool)) : M unit := modify (fun s => App (ap_world s) (ap_evps s) t (ap_info s) (ap_live s)).
Definition set_live (f : list ablock -> list ablock) : M unit :=
  modify (fun s => App (ap_world s) (ap_evps s) (ap_threads s) (ap_info s) (f (ap_live s))).
Definition alloc (b : ablock) : M bool :=
  ok ← in_world alloc_ok;
  if ok : bool then set_live (fun l => l ++ [b]);; mret true else mret false.

(** The tables are freed and both records are zeroed; the copies of [root_dir] and
    [bin_file] are not freed, and lost. *)
Definition is_string (b : ablock) : bool := match b with BRootDir | BBinFile => true | _ => false end.
Definition dpapp_fini : M unit :=
  set_live (List.filter is_string);;
  set_evps None;; set_threads None;; set_layout no_set;; set_info no_info.

Definition fail (ret : Z) : M Z := dpapp_fini;; mret ret.

(** The sum of the first [n] counts, an [int]. *)
Fixpoint thread_sum (acc : Z) (counts : list Z) : option Z :=
  match counts with
  | [] => Some acc
  | c :: counts => if bool_decide (INT_MIN <= acc + c <= INT_MAX) then thread_sum (acc + c) counts else None
  end.

(** The numbers of the workers of each type, from [count] on; a type without
    workers has no table.  The result ends the list at the first table that is
    not allocated. *)
Fixpoint layout_types (type : Z) (counts : list Z) (count : Z) : M (option (list (list Z) * list Z * Z)) :=
  match counts with
  | [] => mret (Some ([], [], count))
  | pc :: counts =>
      if 0 <? pc then
        ok ← alloc (BIds type);
        if negb ok then mret None else
        r ← layout_types (type + 1) counts (count + pc);
        mret ((fun '(ids, cs, n) => (seqZ count pc :: ids, pc :: cs, n)) <$> r)
      else
        r ← layout_types (type + 1) counts count;
        mret ((fun '(ids, cs, n) => ([] :: ids, 0 :: cs, n)) <$> r)
  end.

(** [strdup] of an optional string. *)
Definition dup_string (b : ablock) (s : option chars) : M (option chars * bool) :=
  match s with
  | None => mret (None, true)
  | Some s => ok ← alloc b; mret (if ok : bool then (Some s, true) else (None, false))
  end.

Definition dpapp_init (args : dpapp_arg) : M Z :=
  s ← gets id;
  match ap_evps s with
  | Some _ => mret DPE_REPEAT
  | None =>
      match ar_root_dir args with
      | None => mret DPE_INVAL
      | Some root =>
          if ar_type_count args <=? 0 then mret DPE_INVAL else
          if zlen (ar_each_count args) <? ar_type_count args then ub else
          let counts := ztake (ar_type_count args) (ar_each_count args) in
          thread_count ← lift_opt (thread_sum 0 counts);
          if 255 <? thread_count then mret DPE_INVAL else
          cpunum ← in_world (sys sys_nproc);
          set_info (Info (ar_machine_id args) None None cpunum (ar_cpuoff args));;
          ok1 ← alloc BEachCount;
          ok2 ← alloc BEachIds;
          if negb (ok1 && ok2) then fail DPE_NOMEM else
          ok ← alloc (BIds 0);
          if negb ok then fail DPE_NOMEM else
          r ← layout_types 1 (drop 1 counts) 1;
          match r with
          | None => fail DPE_NOMEM
          | Some (ids, cs, count) =>
              set_layout (EvpSet count (ar_type_count args) ([0] :: ids) (1 :: cs));;
              ok ← alloc BEvps;
              if negb ok then fail DPE_NOMEM else
              set_evps (Some (replicate (Z.to_nat count) false));;
              ok ← alloc BThreads;
              if negb ok then fail DPE_NOMEM else
              set_threads (Some (replicate (Z.to_nat count) false));;
              r ← dup_string BRootDir (Some root);
              if negb r.2 then fail DPE_NOMEM else
              set_info (Info (ar_machine_id args) r.1 None cpunum (ar_cpuoff args));;
              b ← dup_string BBinFile (ar_bin_file args);
              if negb b.2 then fail DPE_NOMEM else
              set_info (Info (ar_machine_id args) r.1 b.1 cpunum (ar_cpuoff args));;
              mret DPE_OK
          end
      end
  end.

(** ** Start *)

(** The processor a thread is bound to. *)
Definition _bindcpu (id : Z) (i : app_info) : option Z :=
  let n := id + i_cpuoff i in
  if bool_decide (INT_MIN < n <= INT_MAX) && negb (i_cpunum i =? 0) then Some (Z.rem (Z.abs n) (i_cpunum i)) else None.

Definition bind_cpu (n : Z) : M unit := i ← gets ap_info; _ ← lift_opt (_bindcpu n i); mret tt.

Definition put_evp (n : Z) : M unit :=
  t ← gets ap_evps;
  evps ← lift_opt t;
  if n <? zlen evps then set_evps (Some (<[Z.to_nat n := true]> evps)) else ub.

Definition put_thread (n : Z) : M unit :=
  t ← gets ap_threads;
  thds ← lift_opt t;
  if n <? zlen thds then set_threads (Some (<[Z.to_nat n := true]> thds)) else ub.

(** The loops of type [type] and their threads; [false] when one is not made. *)
Fixpoint start_workers (type : Z) (ids : list Z) : M bool :=
  match ids with
  | [] => mret true
  | id :: ids =>
      ok ← in_world (dpevp_new type id);
      if negb ok then mret false else
      put_evp id;;
      r ← in_world (sys (thread_create id));
      if negb (r =? 0) then mret false else
      put_thread id;;
      bind_cpu id;;
      start_workers type ids
  end.

Fixpoint start_types (type : Z) (each_ids : list (list Z)) : M bool :=
  match each_ids with
  | [] => mret true
  | ids :: each_ids =>
      ok ← start_workers type ids;
      if negb ok then mret false else start_types (type + 1) each_ids
  end.

(** [dpevp_del] of every entry of the table; that of a [NULL] entry is
    undefined. *)
Fixpoint del_loops (i : Z) (evps : list bool) : M unit :=
  match evps with
  | [] => mret tt
  | false :: _ => ub
  | true :: evps => in_world (dpevp_del P i);; del_loops (i + 1) evps
  end.

Definition shutdown (ret : Z) : M Z :=
  s ← gets id;
  evps ← lift_opt (ap_evps s);
  del_loops 0 evps;;
  dpapp_fini;;
  mret ret.

(** [start_fun] runs on the master; what it and the workers' threads do is
    theirs.  [pthread_join] waits for them. *)
Definition dpapp_start (args : dpapp_arg) (start_fun : ST (world E) unit) : M Z :=
  ret ← dpapp_init args;
  if dpret_iserr ret then mret ret else
  ok ← in_world (dpevp_new 0 0);
  if negb ok then shutdown DPE_UNINIT else
  put_evp 0;;
  put_thread 0;;
  bind_cpu 0;;
  g ← in_world (gets w_set);
  ok ← start_types 1 (drop 1 (gv_each_ids g));
  if negb ok then shutdown DPE_UNINIT else
  in_world (dpevp_start wake_fd 0 start_fun);;
  shutdown ret.

End Dpapp.
