(* ===== verification/DpappFacts.v ===== *)
(** * The layout of the loops, the command line and failed starts

    [dpapp_init] makes a layout in which calls are addressed correctly
    ([CtcFacts.set_wf]), or fails, and what it does not free then; a command line is
    read back; what happens when a loop cannot be made. *)

From S2P Require Import Prelude Chars Which Dplog Dpret Ele Tmrset World WorldLogic Evp EfdFacts CtcFacts Dpapp.

#[local] Set Default Proof Using "Type*".

(** ** The layout *)

(** The layout without allocations: numbers in order of type. *)
Fixpoint layout (counts : list Z) (n : Z) : list (list Z) * list Z * Z :=
  match counts with
  | [] => ([], [], n)
  | pc :: counts =>
      if 0 <? pc then let '(ids, cs, m) := layout counts (n + pc) in (seqZ n pc :: ids, pc :: cs, m)
      else let '(ids, cs, m) := layout counts n in ([] :: ids, 0 :: cs, m)
  end.

Fixpoint positive_sum (counts : list Z) : Z :=
  match counts with [] => 0 | c :: counts => Z.max 0 c + positive_sum counts end.

Lemma positive_sum_nonneg counts : 0 <= positive_sum counts.
Proof. induction counts; cbn; lia. Qed.

Lemma layout_spec counts n ids cs m :
  layout counts n = (ids, cs, m) ->
  m = n + positive_sum counts /\ zlen cs = zlen counts /\ concat ids = seqZ n (m - n) /\
  Forall2 (fun i c => zlen i = c /\ Forall (fun k => n <= k < m) i) ids cs.
Proof.
  revert n ids cs m. induction counts as [|pc counts IH]; intros n ids cs m; cbn.
  - intros [= <- <- <-]. rewrite Z.sub_diag. split_and!; [lia|done|done|constructor].
  - pose proof (positive_sum_nonneg counts).
    destruct (Z.ltb_spec 0 pc); [destruct (layout counts (n + pc)) as [[ids' cs'] m'] eqn:Hl|
      destruct (layout counts n) as [[ids' cs'] m'] eqn:Hl]; intros [= <- <- <-];
      apply IH in Hl as (-> & Hc & Hi & Hf).
    + split_and!; [lia|by rewrite !zlen_cons, Hc| |].
      * cbn. rewrite Hi. replace (n + pc + positive_sum counts - n) with (pc + positive_sum counts) by lia.
        rewrite seqZ_app by lia. f_equal. f_equal; lia.
      * constructor.
        -- split; [unfold zlen; rewrite length_seqZ; lia|]. apply Forall_forall. intros k Hk%elem_of_seqZ. lia.
        -- eapply Forall2_impl; [exact Hf|]. intros i c [Hz Hk]. split; [done|].
           eapply Forall_impl; [exact Hk|]. intros k. cbn. lia.
    + split_and!; [lia|by rewrite !zlen_cons, Hc| |].
      * cbn. by rewrite Hi.
      * constructor; [by repeat constructor|]. eapply Forall2_impl; [exact Hf|]. intros i c [Hz Hk]. split; [done|].
        eapply Forall_impl; [exact Hk|]. intros k. cbn. lia.
Qed.

Section Init.
Context {E : Type} `{Sys E} `{Proc E}.

(** After allocations: the answers left, the blocks added. *)
Definition grown (l : list bool) (bs : list ablock) (s : appst E) : appst E :=
  let w := ap_world s in
  App (World (w_eles w) (w_next w) l (w_race w) (w_nodes w) (w_set w) (w_self w) (w_ext w))
    (ap_evps s) (ap_threads s) (ap_info s) (ap_live s ++ bs).

Lemma grown_grown l bs k cs s : grown k cs (grown l bs s) = grown k (bs ++ cs) s.
Proof. unfold grown. cbn. by rewrite app_assoc. Qed.

Lemma grown_nil s : grown (w_oom (ap_world s)) [] s = s.
Proof. unfold grown. rewrite app_nil_r. by destruct s as [[] ? ? ? ?]. Qed.

Lemma wp_alloc b s (Q : bool -> appst E -> Prop) :
  (forall l, Q true (grown l [b] s)) -> (forall l, Q false (grown l [] s)) -> wp (alloc b) s Q.
Proof.
  intros Hy Hn. unfold wp, alloc, in_world, alloc_ok, mbind, ST_bind. destruct s as [w ev th i live]. cbn.
  destruct (w_oom w) as [|[] l] eqn:Ho.
  - specialize (Hy (w_oom w)). unfold grown in Hy. cbn in Hy. by destruct w.
  - exact (Hy l).
  - specialize (Hn l). unfold grown in Hn. cbn in Hn. rewrite app_nil_r in Hn. exact Hn.
Qed.

(** The rows of the types from [type] on. *)
Fixpoint rows (type : Z) (counts : list Z) : list ablock :=
  match counts with
  | [] => []
  | c :: counts => (if 0 <? c then [BIds type] else []) ++ rows (type + 1) counts
  end.
Lemma rows_no_string type counts : List.filter is_string (rows type counts) = [].
Proof. revert type. induction counts as [|c counts IH]; intros type; cbn; [done|]. destruct (0 <? c); cbn; apply IH. Qed.

Lemma wp_layout_types type counts n s (Q : option (list (list Z) * list Z * Z) -> appst E -> Prop) :
  (forall l bs, List.filter is_string bs = [] -> Q None (grown l bs s)) ->
  (forall l, Q (Some (layout counts n)) (grown l (rows type counts) s)) ->
  wp (layout_types type counts n) s Q.
Proof.
  revert type n s Q. induction counts as [|pc counts IH]; intros type n s Q Hno Hyes; cbn; cbn in Hyes.
  - specialize (Hyes (w_oom (ap_world s))). rewrite grown_nil in Hyes. by apply wp_ret.
  - destruct (0 <? pc).
    + apply wp_bind, wp_alloc; intros l; cbn [negb]; [|apply wp_ret; by apply Hno].
      apply wp_bind, IH; [intros l' bs Hbs|intros l']; apply wp_ret; rewrite grown_grown; cbn; [by apply Hno|].
      specialize (Hyes l'). by destruct (layout counts (n + pc)) as [[ids cs] m].
    + apply wp_bind, IH; [intros l' bs Hbs|intros l']; apply wp_ret; cbn; [by apply Hno|].
      specialize (Hyes l'). by destruct (layout counts n) as [[ids cs] m].
Qed.

(** Both records are zeroed, and of what was allocated only [bs] is left. *)
Definition cleared (s : appst E) (bs : list ablock) : Prop :=
  ap_evps s = None /\ ap_threads s = None /\ w_set (ap_world s) = no_set /\ ap_info s = no_info /\ ap_live s = bs.

Lemma wp_fini s (Q : unit -> appst E -> Prop) :
  (forall s', cleared s' (List.filter is_string (ap_live s)) -> Q tt s') -> wp dpapp_fini s Q.
Proof. intros HQ. unfold wp, dpapp_fini. cbn. by apply HQ. Qed.

Lemma wp_fail r s (Q : Z -> appst E -> Prop) :
  (forall s', cleared s' (List.filter is_string (ap_live s)) -> Q r s') -> wp (fail r) s Q.
Proof. intros HQ. unfold fail. apply wp_bind, wp_fini. intros s' Hs'. by apply wp_ret, HQ. Qed.

Definition with_set (g : dpevp_set) (s : appst E) : appst E :=
  let w := ap_world s in
  App (World (w_eles w) (w_next w) (w_oom w) (w_race w) (w_nodes w) g (w_self w) (w_ext w))
    (ap_evps s) (ap_threads s) (ap_info s) (ap_live s).

Lemma wp_set_layout g s (Q : unit -> appst E -> Prop) : Q tt (with_set g s) -> wp (set_layout g) s Q.
Proof. done. Qed.

Lemma wp_nproc s (Q : Z -> appst E -> Prop) :
  (forall n x, Q n (App (World (w_eles (ap_world s)) (w_next (ap_world s)) (w_oom (ap_world s)) (w_race (ap_world s))
     (w_nodes (ap_world s)) (w_set (ap_world s)) (w_self (ap_world s)) x) (ap_evps s) (ap_threads s) (ap_info s) (ap_live s))) ->
  wp (in_world (sys sys_nproc)) s Q.
Proof. intros HQ. unfold wp, in_world, sys. destruct (sys_nproc _) as [n x] eqn:Hn. apply HQ. Qed.

Lemma wp_dup_string b o s (Q : option chars * bool -> appst E -> Prop) :
  (forall l, Q (o, true) (grown l (match o with Some _ => [b] | None => [] end) s)) ->
  (forall l, is_Some o -> Q (None, false) (grown l [] s)) -> wp (dup_string b o) s Q.
Proof.
  intros Hy Hn. destruct o as [v|]; cbn.
  - apply wp_bind, wp_alloc; intros k; apply wp_ret; [done|]. by apply Hn.
  - specialize (Hy (w_oom (ap_world s))). rewrite grown_nil in Hy. by apply wp_ret.
Qed.

(** The strings that are copied, and all the blocks of a layout. *)
Definition string_blocks (args : dpapp_arg) : list ablock :=
  BRootDir :: match ar_bin_file args with Some _ => [BBinFile] | None => [] end.
Definition blocks (args : dpapp_arg) : list ablock :=
  [BEachCount; BEachIds; BIds 0] ++ rows 1 (drop 1 (ztake (ar_type_count args) (ar_each_count args))) ++
  [BEvps; BThreads] ++ string_blocks args.

(** A layout of [args], with its blocks after those there were: there is a row of
    numbers and a count for each type, the numbers of the loops are handed out once
    each, and no loop exists yet.  With counts that are not negative the numbers fit
    the byte of a call that names its target. *)
Definition laid_out (args : dpapp_arg) (live : list ablock) (s : appst E) : Prop :=
  let g := w_set (ap_world s) in
  let counts := ztake (ar_type_count args) (ar_each_count args) in
  gv_type_count g = ar_type_count args /\ gv_count g = 1 + positive_sum (drop 1 counts) /\
  zlen (gv_each_ids g) = gv_type_count g /\ Forall2 (fun ids c => zlen ids = c) (gv_each_ids g) (gv_each_count g) /\
  concat (gv_each_ids g) = seqZ 0 (gv_count g) /\
  ap_evps s = Some (replicate (Z.to_nat (gv_count g)) false) /\
  i_root_dir (ap_info s) = ar_root_dir args /\ i_bin_file (ap_info s) = ar_bin_file args /\
  ap_live s = live ++ blocks args /\
  (Forall (fun c => 0 <= c) counts -> set_wf g /\ gv_count g <= 256).

Lemma thread_sum_total acc counts t :
  thread_sum acc counts = Some t -> Forall (fun c => 0 <= c) counts -> t = acc + positive_sum counts.
Proof.
  revert acc. induction counts as [|c counts IH]; intros acc; cbn; [intros [= <-] _; lia|].
  case_bool_decide; [|done]. intros Ht [Hc Hf]%Forall_cons. rewrite (IH _ Ht Hf). lia.
Qed.

Lemma Forall2_znth {A B} (R : A -> B -> Prop) l k i :
  Forall2 R l k -> 0 <= i < zlen l -> exists a b, znth l i = Some a /\ znth k i = Some b /\ R a b.
Proof.
  intros Hf Hi. unfold znth. rewrite (proj2 (Z.ltb_ge _ _)) by lia.
  destruct (lookup_lt_is_Some_2 l (Z.to_nat i)) as [a Ha]; [unfold zlen in *; lia|].
  destruct (Forall2_lookup_l _ _ _ _ _ Hf Ha) as (b & Hb & HR). by exists a, b.
Qed.

Lemma laid_out_rows tc counts ids cs m :
  1 <= tc -> zlen counts = tc -> layout (drop 1 counts) 1 = (ids, cs, m) ->
  m = 1 + positive_sum (drop 1 counts) /\ zlen ([0] :: ids) = tc /\
  Forall2 (fun i c => zlen i = c /\ Forall (fun k => 0 <= k < m) i) ([0] :: ids) (1 :: cs) /\
  concat ([0] :: ids) = seqZ 0 m.
Proof.
  intros Htc Hlen Hl. destruct counts as [|c0 counts]; [rewrite zlen_nil in Hlen; lia|].
  cbn [drop] in *. rewrite drop_0 in *. rewrite zlen_cons in Hlen.
  apply layout_spec in Hl as (Hm & Hc & Hi & Hf). pose proof (positive_sum_nonneg counts).
  assert (Hf0 : Forall2 (fun i c => zlen i = c /\ Forall (fun k => 0 <= k < m) i) ([0] :: ids) (1 :: cs)).
  { constructor; [split; [done|]; constructor; [lia|constructor]|]. eapply Forall2_impl; [exact Hf|].
    intros i c [Hz Hk]. split; [done|]. eapply Forall_impl; [exact Hk|]. intros k. cbn. lia. }
  split_and!; [lia| |done|].
  - pose proof (Forall2_length _ _ _ Hf0) as Hlen2. cbn in Hlen2. rewrite zlen_cons. unfold zlen in *. lia.
  - cbn. rewrite Hi. rewrite (seqZ_cons 0) by lia. by rewrite Z.sub_1_r.
Qed.

Lemma laid_out_set tc counts ids cs m :
  1 <= tc -> zlen counts = tc -> Forall (fun c => 0 <= c) counts -> positive_sum counts <= 255 ->
  layout (drop 1 counts) 1 = (ids, cs, m) -> set_wf (EvpSet m tc ([0] :: ids) (1 :: cs)) /\ m <= 256.
Proof.
  intros Htc Hlen Hpos Hsum Hl. destruct (laid_out_rows _ _ _ _ _ Htc Hlen Hl) as (Hm & Hz & Hf0 & Hi).
  assert (Hm256 : m <= 256).
  { destruct counts as [|c0 counts]; [rewrite zlen_nil in Hlen; lia|]. cbn [drop positive_sum] in *. rewrite drop_0 in Hm.
    apply Forall_cons in Hpos as [Hc0 _]. pose proof (positive_sum_nonneg counts). lia. }
  split; [|done]. split; cbn [gv_count gv_type_count gv_each_ids gv_each_count].
  - pose proof (Forall2_length _ _ _ Hf0). unfold zlen in *. lia.
  - intros t Ht. destruct (Forall2_znth _ _ _ t Hf0) as (i & c & Hi' & Hc' & Hzi & Hk); [lia|].
    exists c, i. split_and!; try done.
    assert (Hcc : c ∈ 1 :: cs) by by eapply znth_lookup.
    enough (c <= 256) by lia. rewrite <- Hzi.
    apply znth_lookup in Hi'. assert (Hsub : zlen i <= zlen (concat ([0] :: ids))).
    { apply list_elem_of_split in Hi' as (l1 & l2 & ->). rewrite concat_app. cbn.
      rewrite !zlen_app. pose proof (zlen_nonneg (concat l1)). pose proof (zlen_nonneg (concat l2)). lia. }
    rewrite Hi in Hsub. unfold zlen in Hsub at 2. rewrite length_seqZ in Hsub. lia.
Qed.

(** Whatever [dpapp_init] leaves behind when memory is refused. *)
Definition leaves (args : dpapp_arg) (live : list ablock) (s : appst E) : Prop :=
  cleared s (List.filter is_string live) \/
  cleared s (List.filter is_string live ++ [BRootDir]) /\ is_Some (ar_bin_file args).

Lemma blocks_strings args live :
  List.filter is_string (live ++ blocks args) = List.filter is_string live ++ string_blocks args.
Proof.
  unfold blocks. rewrite !List.filter_app, rows_no_string. cbn. unfold string_blocks. by destruct (ar_bin_file args).
Qed.

(** Memory is refused before any string is copied. *)
#[local] Ltac fails :=
  match goal with Hfail : forall _ _, _ -> _ -> wp (fail _) _ _ |- _ =>
    eapply Hfail; [cbn; rewrite <- ?app_assoc; reflexivity|
      cbn; rewrite ?List.filter_app; cbn; repeat (match goal with Hn : List.filter is_string _ = [] |- _ => rewrite Hn end); done]
  end.

(** C31. The first [dpapp_init] of a process (with counts whose sum is an [int]) makes
    a layout with a row of numbers for each type, in which every number is a loop's,
    once; or it fails for want of memory, at whichever of its allocations; or it
    refuses its arguments and changes nothing.  With counts that are not negative the
    layout is the one the loops rely on ([set_wf]) and its numbers fit the target byte
    of a call; a negative count only switches its type off, but is subtracted in the
    test of the limit, so with one the numbers need not fit.  A failure frees what was
    allocated, except the copy of [root_dir] when that of [bin_file] is refused; and
    [dpapp_fini] after a success frees all but these two copies. *)
Theorem dpapp_init_layout (args : dpapp_arg) (s : appst E) (t : Z)
    (Hfirst : ap_evps s = None) (Hlen : ar_type_count args <= zlen (ar_each_count args))
    (Hsum : thread_sum 0 (ztake (ar_type_count args) (ar_each_count args)) = Some t) :
  wp (dpapp_init args) s (fun r s' =>
    (r = DPE_OK /\ laid_out args (ap_live s) s' /\
       wp dpapp_fini s' (fun _ s2 => cleared s2 (List.filter is_string (ap_live s) ++ string_blocks args))) \/
    (r = DPE_NOMEM /\ leaves args (ap_live s) s') \/
    (r = DPE_INVAL /\ s' = s /\ (ar_root_dir args = None \/ ar_type_count args <= 0 \/ 255 < t))).
Proof.
  unfold dpapp_init. apply wp_bind, wp_gets. cbn [id]. rewrite Hfirst.
  destruct (ar_root_dir args) as [root|] eqn:Hroot; [|apply wp_ret; right; right; auto].
  destruct (Z.leb_spec (ar_type_count args) 0); [apply wp_ret; right; right; auto|].
  rewrite (proj2 (Z.ltb_ge _ _)) by lia. cbv zeta. rewrite Hsum. apply wp_bind, wp_ret.
  destruct (Z.ltb_spec 255 t); [apply wp_ret; right; right; auto|].
  match goal with |- wp _ _ ?Q0 => set (Q := Q0) end.
  assert (Hfail : forall s1 bs, ap_live s1 = ap_live s ++ bs -> List.filter is_string bs = [] -> wp (fail DPE_NOMEM) s1 Q).
  { intros s1 bs E1 Hbs. apply wp_fail. intros s' Hs'. right. left. split; [done|]. left.
    by rewrite E1, List.filter_app, Hbs, app_nil_r in Hs'. }
  apply wp_bind, wp_nproc. intros np x. apply wp_bind, wp_modify. cbv beta.
  apply wp_bind, wp_alloc; intros l1; apply wp_bind, wp_alloc; intros l2; cbn [andb negb];
    [|fails..].
  apply wp_bind, wp_alloc; intros l3; cbn [negb]; [|fails].
  apply wp_bind, wp_layout_types; [intros l4 bs Hbs; fails|]. intros l4.
  pose proof (rows_no_string 1 (drop 1 (ztake (ar_type_count args) (ar_each_count args)))) as Hrows.
  destruct (layout _ 1) as [[ids cs] m] eqn:Hl. rewrite !grown_grown.
  apply wp_bind, wp_set_layout.
  apply wp_bind, wp_alloc; intros l5; cbn [negb]; [|fails].
  apply wp_bind, wp_modify. apply wp_bind, wp_alloc; intros l6; cbn [negb];
    [|fails].
  apply wp_bind, wp_modify. apply wp_bind, wp_dup_string; [intros l7|intros l7 _]; cbn [negb snd];
    [|fails].
  apply wp_bind, wp_modify. apply wp_bind, wp_dup_string; [intros l8|intros l8 Hbin]; cbn [negb snd].
  - apply wp_bind, wp_modify, wp_ret. left. split; [done|].
    destruct (laid_out_rows (ar_type_count args) (ztake (ar_type_count args) (ar_each_count args)) ids cs m) as (Hm & Hz & Hf & Hi);
      [lia|rewrite zlen_ztake; lia|done|].
    split.
    + unfold laid_out. cbn. split_and!; try done.
      * eapply Forall2_impl; [exact Hf|]. by intros i c [? _].
      * unfold blocks, string_blocks. cbn. by rewrite <- !app_assoc.
      * intros Hpos. pose proof (thread_sum_total _ _ _ Hsum Hpos).
        apply (laid_out_set (ar_type_count args) (ztake (ar_type_count args) (ar_each_count args)) ids cs m);
          [lia|rewrite zlen_ztake; lia|done|lia|done].
    + apply wp_fini. intros s2 Hs2. rewrite <- (blocks_strings args (ap_live s)). unfold blocks, string_blocks.
      cbn in Hs2 |- *. by rewrite <- !app_assoc in Hs2.
  - apply wp_fail. intros s' Hs'. right. left. split; [done|]. right.
    split; [|done]. cbn in Hs'. rewrite <- ?app_assoc, app_nil_r in Hs'. rewrite !List.filter_app in Hs'. cbn in Hs'.
    rewrite ?List.filter_app, Hrows in Hs'. exact Hs'.
Qed.

End Init.

(** ** Failed starts *)

Section Start.
Context {E : Type} `{Sys E} `{Proc E} (P : program E) (wake_fd : evdata -> Z).

Lemma del_loops_null i evps s : false ∈ evps -> del_loops P i evps s = None.
Proof.
  revert i s. induction evps as [|b evps IH]; intros i s Hin; [set_solver|].
  destruct b; [|done]. cbn. assert (Hin' : false ∈ evps) by set_solver.
  destruct (in_world (dpevp_del P i) s) as [[[] s']|] eqn:Hd; [|by apply ST_bind_None].
  erewrite ST_bind_Some by done. by apply IH.
Qed.

Lemma shutdown_null r s evps : ap_evps s = Some evps -> false ∈ evps -> shutdown P r s = None.
Proof.
  intros He Hf. unfold shutdown. erewrite ST_bind_Some by done. cbn [id]. rewrite He.
  erewrite ST_bind_Some by done. apply ST_bind_None. by apply del_loops_null.
Qed.

(** [dpapp_start] does not survive a loop that cannot be made, the master's
    or a worker's: the entries of the table that are not filled yet are [NULL],
    and the cleanup deletes every entry. *)
Theorem dpapp_start_failure_crashes (args : dpapp_arg) (start_fun : ST (world E) unit) (s s1 : appst E)
    (evps : list bool) (Hinit : dpapp_init args s = Some (DPE_OK, s1)) (He : ap_evps s1 = Some evps)
    (Hnull : evps = replicate (length evps) false) (Hsome : evps <> []) :
  (forall s2, in_world (dpevp_new 0 0) s1 = Some (false, s2) -> ap_evps s2 = ap_evps s1 ->
     dpapp_start P wake_fd args start_fun s = None) /\
  (forall s2 s3 s4 s5 g t, in_world (dpevp_new 0 0) s1 = Some (true, s2) ->
     (put_evp 0;; put_thread 0;; bind_cpu 0) s2 = Some (tt, s3) ->
     in_world (gets w_set) s3 = Some (g, s4) ->
     start_types 1 (drop 1 (gv_each_ids g)) s4 = Some (false, s5) -> ap_evps s5 = Some t -> false ∈ t ->
     dpapp_start P wake_fd args start_fun s = None).
Proof.
  split.
  - intros s2 Hn He2. unfold dpapp_start. erewrite ST_bind_Some by done. cbn [dpret_iserr Z.ltb].
    change (dpret_iserr DPE_OK) with false. cbv iota. erewrite ST_bind_Some by done. cbn [negb].
    eapply shutdown_null; [by rewrite He2|]. rewrite Hnull. destruct evps; [done|]. left.
  - intros s2 s3 s4 s5 g t Hn Hp Hg Ht He5 Hf. unfold dpapp_start. erewrite ST_bind_Some by done.
    change (dpret_iserr DPE_OK) with false. cbv iota. erewrite ST_bind_Some by done. cbn [negb].
    apply ST_bind_inv in Hp as ([] & sa & Ha & Hp). apply ST_bind_inv in Hp as ([] & sb & Hb & Hp).
    do 4 (erewrite ST_bind_Some by done). erewrite ST_bind_Some by done. cbn [negb].
    by eapply shutdown_null.
Qed.

End Start.

(** ** The command line *)

(** The digits of a number are read back. *)
Lemma nat_of_digit d : 0 <= d <= 9 -> Z.of_nat (nat_of_ascii (digit d)) = 48 + d.
Proof. intros Hd. unfold digit. rewrite Ascii.nat_ascii_embedding by lia. lia. Qed.

Lemma is_digit_digit d : 0 <= d <= 9 -> is_digit (digit d) = true.
Proof. intros Hd. unfold is_digit. rewrite nat_of_digit by done. apply andb_true_iff. lia. Qed.

Lemma atoi_digits_app acc s d :
  Forall (fun c => is_digit c = true) s -> 0 <= d <= 9 ->
  atoi_digits acc (s ++ [digit d]) = atoi_digits acc s * 10 + d.
Proof.
  intros Hs Hd. revert acc. induction s as [|c s IH]; intros acc; cbn.
  - rewrite is_digit_digit, nat_of_digit by done. lia.
  - apply Forall_cons in Hs as [Hc Hs]. rewrite Hc. by rewrite IH.
Qed.

Lemma digits_are_digits fuel n : 0 <= n -> Forall (fun c => is_digit c = true) (digits fuel n).
Proof.
  revert n. induction fuel as [|fuel IH]; intros n Hn; [constructor|]. cbn [digits].
  destruct (Z.ltb_spec n 10); [constructor; [by apply is_digit_digit; lia|constructor]|].
  apply Forall_app. split; [apply IH, Z.div_pos; lia|].
  constructor; [|constructor]. apply is_digit_digit. pose proof (Z.mod_pos_bound n 10). lia.
Qed.

Lemma atoi_digits_digits fuel n : 0 <= n < 10 ^ Z.of_nat fuel -> atoi_digits 0 (digits fuel n) = n.
Proof.
  revert n. induction fuel as [|fuel IH]; intros n Hn; [cbn in *; lia|]. cbn [digits].
  destruct (Z.ltb_spec n 10).
  - cbn [atoi_digits]. rewrite is_digit_digit, nat_of_digit by lia. lia.
  - pose proof (Z.mod_pos_bound n 10). rewrite atoi_digits_app; [|apply digits_are_digits, Z.div_pos; lia|lia].
    rewrite IH; [pose proof (Z.div_mod n 10); lia|].
    split; [apply Z.div_pos; lia|]. apply Z.div_lt_upper_bound; [lia|].
    replace (10 * 10 ^ Z.of_nat fuel) with (10 ^ Z.of_nat (S fuel)); [lia|].
    rewrite Nat2Z.inj_succ, Z.pow_succ_r by lia. done.
Qed.

Lemma digits_head fuel n : 0 <= n -> exists c s, digits (S fuel) n = c :: s /\ is_digit c = true.
Proof.
  intros Hn. pose proof (digits_are_digits (S fuel) n Hn) as Hd. destruct (digits (S fuel) n) as [|c s] eqn:He.
  - exfalso. cbn [digits] in He. destruct (n <? 10); [done|]. by destruct (digits fuel (n / 10)).
  - exists c, s. by apply Forall_cons in Hd as [? _].
Qed.

Lemma is_digit_class c : is_digit c = true -> is_space c = false /\ c <> "-"%char /\ c <> "+"%char.
Proof.
  intros Hc. unfold is_digit in Hc. apply andb_true_iff in Hc as [H1%Z.leb_le H2%Z.leb_le]. split.
  - unfold is_space. apply orb_false_iff. split; [apply Z.eqb_neq; lia|]. apply andb_false_iff. right. apply Z.leb_gt. lia.
  - split; intros ->; vm_compute in H1; by apply H1.
Qed.

Lemma atoi_fmt_d n : 0 <= n <= INT_MAX -> atoi (fmt_d n) = Some n /\ dash (fmt_d n) = false.
Proof.
  intros Hn. unfold fmt_d. rewrite (proj2 (Z.ltb_ge _ _)) by lia.
  destruct (digits_head 19 n ltac:(lia)) as (c & s & Hd & Hc). destruct (is_digit_class c Hc) as (Hs & Hm & Hp).
  assert (Hv : atoi_digits 0 (digits 20 n) = n).
  { apply atoi_digits_digits. unfold INT_MAX in Hn. change (10 ^ Z.of_nat 20) with 100000000000000000000. lia. }
  rewrite Hd in *. split; [|unfold dash; cbn; by rewrite bool_decide_false by congruence].
  unfold atoi. cbn [skip_space]. rewrite Hs.
  replace (match c :: s with "-"%char :: s => - atoi_digits 0 s | "+"%char :: s => atoi_digits 0 s | s => atoi_digits 0 s end)
    with (atoi_digits 0 (c :: s)).
  - rewrite Hv. unfold INT_MIN in *. rewrite !(proj2 (Z.leb_le _ _)) by lia. done.
  - destruct c as [[] [] [] [] [] [] [] []]; done.
Qed.

Section Parsing.
Context {F : Type} `{Fs F} (fs : F).

Lemma parse_one a opt v rest set bad msg :
  opt_is opt "-h" "--help" = false -> opt_is opt "-V" "--version" = false ->
  option_of fs opt = Some (set, bad, msg) -> bad v = false ->
  parse_options fs a (opt :: v :: rest) =
    r ← set a v; match r with inl a => parse_options fs a rest | inr m => Some (PError a m) end.
Proof. intros H1 H2 H3 H4. cbn [parse_options]. by rewrite H1, H2, H3, H4. Qed.

Lemma parse_rest a rest :
  match rest with [] => True | arg :: _ =>
    opt_is arg "-h" "--help" = false /\ opt_is arg "-V" "--version" = false /\ option_of fs arg = None end ->
  parse_options fs a rest = Some (PStop a DPE_OK rest).
Proof. destruct rest as [|arg rest]; [done|]. intros (H1 & H2 & H3). cbn. by rewrite H1, H2, H3. Qed.

(** The option of the workers of type [t]. *)
Definition count_option (t : Z) : chars := chr "-n" ++ fmt_d t.

Lemma count_option_found t v :
  0 <= t -> opt_is (count_option t) "-h" "--help" = false /\ opt_is (count_option t) "-V" "--version" = false /\
  option_of fs (count_option t) =
    Some (fun a => parse_count a (count_option t),
          fun v => dash v && negb (bool_decide (v !! 1%nat = Some "1"%char)), "-n<t> argument error"%string) /\
  (dash v = false -> dash v && negb (bool_decide (v !! 1%nat = Some "1"%char)) = false).
Proof.
  intros Ht. unfold count_option, opt_is, option_of, opt_is. cbn [chr String.list_ascii_of_string app].
  rewrite !bool_decide_false by done. cbn [orb]. rewrite bool_decide_true by done.
  split_and!; try done. by intros ->.
Qed.

(** C40. Numbers given on the command line are the numbers the process runs
    with: a machine id from 0 to 31, a count up to 255 for a type from 1 to 63, a
    processor offset and a time accuracy are read back as they were printed,
    what follows the options is left to the program, and a number out of range
    is refused. *)
Theorem dpapp_arg_parse_reads (a : dpapp_arg) (arg0 exe : chars) (m t c u ta : Z) (rest : list chars)
    (Hexe : find_executable fs arg0 = Some (Some exe)) (Hroot : is_Some (ar_root_dir a))
    (Hm : 0 <= m <= INT_MAX) (Ht : 0 <= t <= INT_MAX) (Hc : 0 <= c <= INT_MAX)
    (Hu : 0 <= u <= INT_MAX) (Hta : 0 <= ta <= INT_MAX)
    (Hrest : match rest with [] => True | arg :: _ =>
       opt_is arg "-h" "--help" = false /\ opt_is arg "-V" "--version" = false /\ option_of fs arg = None end) :
  let argv := arg0 :: chr "-m" :: fmt_d m :: count_option t :: fmt_d c :: chr "-u" :: fmt_d u ::
              chr "--log_tsacc" :: fmt_d ta :: rest in
  if (m <=? 31) && (1 <=? t) && (t <=? 63) && (c <=? 255) && (ta <=? 2) then
    exists a', dpapp_arg_parse fs a argv = Some (DPE_OK, a') /\
      ar_machine_id a' = m /\ ar_each_count a' = <[Z.to_nat t := c]> (ar_each_count a) /\
      ar_cpuoff a' = u /\ ar_log_tsacc a' = ta /\ ar_argv a' = rest /\ ar_bin_file a' = Some exe /\
      ar_type_count a' = ar_type_count a /\ ar_root_dir a' = ar_root_dir a
  else exists a', dpapp_arg_parse fs a argv = Some (DPE_INVAL, a').
Proof.
  destruct Hroot as [root Hroot]. cbv zeta. unfold dpapp_arg_parse. rewrite Hexe. cbn [mbind option_bind].
  destruct (atoi_fmt_d m Hm) as [Am Dm], (atoi_fmt_d t Ht) as [At Dt], (atoi_fmt_d c Hc) as [Ac Dc],
    (atoi_fmt_d u Hu) as [Au Du], (atoi_fmt_d ta Hta) as [Ata Dta].
  rewrite (parse_one _ (chr "-m") _ _ parse_machine dash "machine id error") by done.
  unfold parse_machine. rewrite Am. cbn [mbind option_bind]. rewrite (proj2 (Z.ltb_ge m 0)) by lia. cbn [orb].
  rewrite (Z.leb_antisym 31 m). destruct (31 <? m); cbn [negb andb]; [by eexists|].
  destruct (count_option_found t (fmt_d c) ltac:(lia)) as (N1 & N2 & N3 & N4).
  erewrite (parse_one _ (count_option t)); [|exact N1|exact N2|exact N3|by apply N4].
  unfold parse_count, count_option. cbn [chr String.list_ascii_of_string app drop]. rewrite drop_0, At.
  cbn [mbind option_bind]. rewrite Ac. cbn [mbind option_bind].
  rewrite (Z.leb_antisym t 1), (Z.leb_antisym 63 t), (Z.leb_antisym 255 c).
  destruct (t <? 1); cbn [negb andb orb]; [by eexists|].
  destruct (63 <? t); cbn [negb andb orb]; [by eexists|].
  destruct (255 <? c); cbn [negb andb orb]; [by eexists|].
  erewrite (parse_one _ (chr "-u")) by done. cbn beta. rewrite Au. cbn [mbind option_bind].
  erewrite (parse_one _ (chr "--log_tsacc")) by done.
  unfold parse_tsacc. rewrite Ata. cbn [mbind option_bind]. rewrite (proj2 (Z.ltb_ge ta 0)) by lia. cbn [orb].
  rewrite (Z.leb_antisym 2 ta). destruct (2 <? ta); cbn [negb andb]; [by eexists|].
  rewrite parse_rest by done. cbn. rewrite Hroot. by eexists.
Qed.

(** A log file without a directory, "app.log" for instance, makes
    [dpapp_arg_parse] free the constant string that [dirname] answers, wherever
    the option stands. *)
Theorem log_file_frees_constant (a : dpapp_arg) (arg0 exe v : chars) (rest : list chars)
    (Hexe : find_executable fs arg0 = Some (Some exe)) (Hv : slash ∉ v) (Hdash : dash v = false) (Hne : v <> []) :
  dpapp_arg_parse fs a (arg0 :: chr "-o" :: v :: rest) = None.
Proof.
  unfold dpapp_arg_parse. rewrite Hexe. cbn [mbind option_bind].
  erewrite (parse_one _ (chr "-o")) by done. unfold parse_log.
  assert (Hd : dirname v = (chr ".", true)); [|by rewrite Hd].
  assert (Hr : slash ∉ rev v) by (rewrite list_elem_of_In, <- in_rev, <- list_elem_of_In; done).
  unfold dirname. destruct (rev v) as [|k r] eqn:Hrev.
  - exfalso. apply Hne. rewrite <- (rev_involutive v). by rewrite Hrev.
  - cbn [strip_slashes]. rewrite bool_decide_false by set_solver.
    assert (Hs : forall l, slash ∉ l -> strip_name l = []).
    { induction l as [|x l IH]; [done|]. intros Hl. cbn. rewrite bool_decide_false by set_solver. apply IH. set_solver. }
    by rewrite Hs.
Qed.

End Parsing.

(** ** Examples *)

#[export] Instance ex_proc : Proc Z := {| sys_nproc t := (4, t); thread_create _ t := (0, t) |}.

Definition ex_args (counts : list Z) : dpapp_arg :=
  Arg [] 0 (zlen counts) counts 0 DPLOG_L_NOTICE DPLOG_TA_SECOND (Some (chr "/srv")) None None.
Definition ex_app (oom : list bool) : appst Z :=
  App (World ∅ 1 oom [] ∅ no_set None 0) None None no_info [].

Lemma dpapp_init_layout_witness :
  exists s', dpapp_init (ex_args [1; 2; 0; 3]) (ex_app []) = Some (DPE_OK, s') /\ laid_out (ex_args [1; 2; 0; 3]) [] s' /\
    gv_count (w_set (ap_world s')) <= 256.
Proof.
  destruct (wp_run _ _ _ (dpapp_init_layout (ex_args [1; 2; 0; 3]) (ex_app []) 6 eq_refl ltac:(done) eq_refl)) as (r & s' & E & Hr).
  assert (Hok : fst <$> dpapp_init (ex_args [1; 2; 0; 3]) (ex_app []) = Some DPE_OK) by (vm_compute; reflexivity).
  rewrite E in Hok. injection Hok as ->. destruct Hr as [(_ & Hl & _)|[[? _]|[? _]]]; [|done..].
  exists s'. split; [exact E|]. split; [exact Hl|].
  destruct Hl as (_ & _ & _ & _ & _ & _ & _ & _ & _ & Hfit). apply Hfit. repeat constructor; discriminate.
Defined.

(** The copy of the name of the program is refused: that of the root is lost. *)
Example init_loses_root_dir :
  (fun r => (r.1, ap_live r.2)) <$> dpapp_init (with_bin (ex_args [1; 1]) (Some (chr "/srv/app")))
    (ex_app (replicate 7 true ++ [false])) = Some (DPE_NOMEM, [BRootDir]).
Proof. vm_compute. reflexivity. Qed.

(** The limit of 255 threads is checked on a sum in which a negative count, a
    type that is switched off, cancels others: 511 loops are laid out. *)
Example negative_count_overflow :
  (fun r => (r.1, gv_count (w_set (ap_world r.2)))) <$> dpapp_init (ex_args [1; 255; 255; -300]) (ex_app [])
  = Some (DPE_OK, 511).
Proof. vm_compute. reflexivity. Qed.

(** A call for loop 256 is then sent to the master. *)
Example loop_256_is_the_master : e_toid (set_toid ex_call 256) = 0.
Proof. reflexivity. Qed.

(** No memory for the loops. *)
Definition ex_no_loops : appst Z :=
  match dpapp_init (ex_args [1; 1]) (ex_app (replicate 7 true ++ [false])) with Some (_, s) => s | None => ex_app [] end.

Lemma dpapp_start_failure_crashes_witness :
  dpapp_start ex_program (fun _ => 5) (ex_args [1; 1]) (mret tt) (ex_app (replicate 7 true ++ [false])) = None.
Proof.
  apply (proj1 (dpapp_start_failure_crashes (H0 := ex_proc) ex_program (fun _ => 5) (ex_args [1; 1]) (mret tt)
    (ex_app (replicate 7 true ++ [false])) ex_no_loops [false; false]
    ltac:(vm_compute; reflexivity) ltac:(vm_compute; reflexivity) eq_refl ltac:(done))
    (match in_world (dpevp_new 0 0) ex_no_loops with Some (_, s) => s | None => ex_app [] end));
    vm_compute; reflexivity.
Defined.

(** A file system with one program. *)
Definition one_fs : Fs unit := {|
  fs_getcwd _ := Some (chr "/srv");
  fs_access _ _ := true;
  fs_path _ := None;
  fs_stat _ _ := Some IsDir;
  fs_mkdir _ _ := (0, tt);
|}.

Lemma dpapp_arg_parse_reads_witness :
  exists a', dpapp_arg_parse (H := one_fs) tt (ex_args [1; 1; 1])
      (chr "/srv/app" :: chr "-m" :: fmt_d 7 :: count_option 2 :: fmt_d 12 :: chr "-u" :: fmt_d 3 ::
       chr "--log_tsacc" :: fmt_d 1 :: [chr "main.lua"]) = Some (DPE_OK, a') /\
    ar_machine_id a' = 7 /\ ar_each_count a' = [1; 1; 12] /\ ar_cpuoff a' = 3 /\ ar_log_tsacc a' = 1 /\
    ar_argv a' = [chr "main.lua"] /\ ar_bin_file a' = Some (chr "/srv/app") /\
    ar_type_count a' = 3 /\ ar_root_dir a' = Some (chr "/srv").
Proof.
  apply (dpapp_arg_parse_reads (H := one_fs) tt (ex_args [1; 1; 1]) (chr "/srv/app") (chr "/srv/app") 7 2 12 3 1
    [chr "main.lua"]); try (unfold INT_MAX; lia); [vm_compute; reflexivity|by eexists|by vm_compute].
Defined.

Lemma log_file_frees_constant_witness :
  dpapp_arg_parse (H := one_fs) tt dpapp_arg_init [chr "/srv/app"; chr "-o"; chr "app.log"] = None.
Proof.
  apply (log_file_frees_constant (H := one_fs) tt dpapp_arg_init (chr "/srv/app") (chr "/srv/app") (chr "app.log") []);
    [vm_compute; reflexivity| |done|done].
  cbn. rewrite !not_elem_of_cons. split_and!; try discriminate. apply not_elem_of_nil.
Defined.
