(* ===== verification/Aio.v ===== *)
(** * What the operations work on

    [prep] and [post] of an asynchronous operation ([dpasc.h]) get an element,
    an argument list and a [dpasc_out] whose [data] is the operation's scratch
    memory.  [ast] holds these with the caller's memory (buffers, [iovec] arrays,
    message headers, socket addresses) and the system, which is a parameter
    ([IoSys]).  This file has the data and the primitives; the operations are in
    [AscIo], [AscSyc] and [AscBuf], and [AscOps] shows that they keep the contract of the event loop. *)

From S2P Require Import Prelude Dpret Dpbuf Ele Tmrset World.

#[local] Set Default Proof Using "Type*".

(** ** Pointers and the caller's objects *)

(** What an address stands for; [NULL] is [None]. *)
Inductive uptr := PBytes (p : ptr) | PBuf (p : loc) | PIov (p : loc) | PMsg (p : loc) | PSock (p : loc).

Record iovec := Iovec { iov_base : ptr; iov_len : Z }.

(** [msg_iov] is the whole array or the rest of it after some entries; name and
    control data are the system's. *)
Record msghdr := Msghdr {
  msg_name : Z;
  msg_namelen : Z;
  msg_iov : option loc;
  msg_iovlen : Z;
  msg_control : Z;
  msg_controllen : Z;
  msg_flags : Z;
}.

Record dpsockaddr := Sockaddr { sa_addr : list Z; sa_real : Z }.
(** [sizeof(dpsockaddr_t.addr)]: a [struct sockaddr_storage]. *)
Definition SOCKADDR_SIZE : Z := 128.

(** ** Scratch memory *)

Record dpaio_arg := IoArg {
  io_ptr : option uptr; (* the union of [buf], [iov], [msg] and [ptr] *)
  io_len : Z;
  io_flag : Z;
  io_total : Z;
  io_fd2 : Z;
}.

(** [_dpaio_stm_t]; its head is the [dpaio_arg_t] of the operation it uses. *)
Record dpaio_stm := Stm {
  stm_io : dpaio_arg;
  stm_buf : option loc;
  stm_len : Z;
  stm_until_len : Z;
  stm_until : option uptr;
}.

Definition zero_arg : dpaio_arg := IoArg None 0 0 0 0.
Definition zero_stm : dpaio_stm := Stm zero_arg None 0 0 None.

Definition with_ptr (io : dpaio_arg) p := IoArg p (io_len io) (io_flag io) (io_total io) (io_fd2 io).
Definition with_len (io : dpaio_arg) n := IoArg (io_ptr io) n (io_flag io) (io_total io) (io_fd2 io).
Definition with_iflag (io : dpaio_arg) f := IoArg (io_ptr io) (io_len io) f (io_total io) (io_fd2 io).
Definition with_total (io : dpaio_arg) t := IoArg (io_ptr io) (io_len io) (io_flag io) t (io_fd2 io).
Definition with_io (s : dpaio_stm) io := Stm io (stm_buf s) (stm_len s) (stm_until_len s) (stm_until s).
Definition with_buf (s : dpaio_stm) b := Stm (stm_io s) b (stm_len s) (stm_until_len s) (stm_until s).
Definition with_slen (s : dpaio_stm) n := Stm (stm_io s) (stm_buf s) n (stm_until_len s) (stm_until s).
Definition with_until (s : dpaio_stm) u n := Stm (stm_io s) (stm_buf s) (stm_len s) n u.

(** [_dpsp_tee_t], and [dpsyc_arg_t]: its unions [path2]/[name],
    [mode]/[mask]/[advice] and [buf]/[ptr] are one field each. *)
Record dpsp_tee := Tee { tee_in_fd : Z; tee_len : Z; tee_flags : Z }.
Record dpsyc_arg := SycArg {
  sy_dirfd : Z;
  sy_dirfd2 : Z;
  sy_fd : Z;
  sy_flags : Z;
  sy_len : Z;
  sy_path : Z;
  sy_name : Z;
  sy_mode : Z;
  sy_ptr : Z;
}.
Definition zero_syc : dpsyc_arg := SycArg 0 0 0 0 0 0 0 0 0.

(** [out->data], by the type the operation uses it at; [SNull] is [NULL]. *)
Inductive scratch :=
  | SNull
  | SStm (s : dpaio_stm)
  | STee (t : dpsp_tee)
  | SAcc (addr : option loc)
  | SSyc (a : dpsyc_arg).

(** ** The system *)

(** The control calls: on a descriptor and on paths.  Pointers are passed
    through. *)
Inductive syscall :=
  | Fsync (fd : Z)
  | Fdatasync (fd : Z)
  | Shutdown (fd how : Z)
  | Fallocate (fd mode off len : Z)
  | PosixFadvise (fd off len advice : Z)
  | SyncFileRange (fd off nbytes flags : Z)
  | Close (fd : Z)
  | Madvise (addr len advice : Z)
  | Openat (dirfd path flags mode : Z)
  | Openat2 (dirfd path how : Z)
  | Statx (dirfd path flags mask buf : Z)
  | Unlinkat (dirfd path flags : Z)
  | Renameat2 (dirfd path dirfd2 path2 flags : Z)
  | Mkdirat (dirfd path mode : Z)
  | Symlinkat (target dirfd path : Z)
  | Linkat (dirfd path dirfd2 path2 flags : Z)
  | Getxattr (path name buf len : Z)
  | Setxattr (path name buf len flags : Z)
  | Fgetxattr (fd name buf len : Z)
  | Fsetxattr (fd name buf len flags : Z)
  | Splice (in_fd fd len flags : Z)
  | TeeCall (in_fd fd len flags : Z)
  | FcntlGetfl (fd : Z)
  | FcntlSetfl (fd flags : Z).

(** Every call answers with an [errno] ([inl]) or a result: the bytes read, the
    count of bytes taken, the value. *)
Class IoSys (S : Type) := {
  sys_read : Z -> Z -> S -> (Z + list Z) * S; (* fd, size *)
  sys_write : Z -> list Z -> S -> (Z + Z) * S;
  sys_recv : Z -> Z -> Z -> S -> (Z + list Z) * S; (* fd, size, flags *)
  sys_send : Z -> list Z -> Z -> S -> (Z + Z) * S;
  sys_readv : Z -> Z -> S -> (Z + list Z) * S;
  sys_writev : Z -> list Z -> S -> (Z + Z) * S;
  (* the bytes, and [msg_namelen], [msg_controllen], [msg_flags] as written back *)
  sys_recvmsg : Z -> Z -> msghdr -> Z -> S -> (Z + list Z * (Z * Z * Z)) * S;
  sys_sendmsg : Z -> list Z -> msghdr -> Z -> S -> (Z + Z) * S;
  sys_accept : Z -> S -> (Z + Z * list Z) * S; (* the descriptor and the peer's address *)
  sys_connect : Z -> list Z -> S -> (Z + Z) * S;
  sys_call : syscall -> S -> (Z + Z) * S;
}.

Record ast (S : Type) := Ast {
  x_data : scratch;
  x_out : dpasc_out;
  x_args : list Z;
  x_addr : gmap Z uptr; (* what the addresses the caller passes stand for *)
  x_mem : bstore;
  x_iovs : gmap loc (list iovec);
  x_msgs : gmap loc msghdr;
  x_socks : gmap loc dpsockaddr;
  x_errno : Z;
  x_sys : S;
}.
Arguments Ast {S}.
Arguments x_data {S}. Arguments x_out {S}. Arguments x_args {S}. Arguments x_addr {S}. Arguments x_mem {S}.
Arguments x_iovs {S}. Arguments x_msgs {S}. Arguments x_socks {S}. Arguments x_errno {S}. Arguments x_sys {S}.

Section Aio.
Context {Os : Type} `{IoSys Os}.

Abbreviation X := (ST (ast Os)).

(** ** One field replaced *)

Definition put_data_of (d : scratch) (x : ast Os) : ast Os :=
  Ast d (x_out x) (x_args x) (x_addr x) (x_mem x) (x_iovs x) (x_msgs x) (x_socks x) (x_errno x) (x_sys x).
Definition put_out_of (o : dpasc_out) (x : ast Os) : ast Os :=
  Ast (x_data x) o (x_args x) (x_addr x) (x_mem x) (x_iovs x) (x_msgs x) (x_socks x) (x_errno x) (x_sys x).
Definition put_args_of (l : list Z) (x : ast Os) : ast Os :=
  Ast (x_data x) (x_out x) l (x_addr x) (x_mem x) (x_iovs x) (x_msgs x) (x_socks x) (x_errno x) (x_sys x).
Definition put_mem_of (m : bstore) (x : ast Os) : ast Os :=
  Ast (x_data x) (x_out x) (x_args x) (x_addr x) m (x_iovs x) (x_msgs x) (x_socks x) (x_errno x) (x_sys x).
Definition put_msgs_of (m : gmap loc msghdr) (x : ast Os) : ast Os :=
  Ast (x_data x) (x_out x) (x_args x) (x_addr x) (x_mem x) (x_iovs x) m (x_socks x) (x_errno x) (x_sys x).
Definition put_socks_of (m : gmap loc dpsockaddr) (x : ast Os) : ast Os :=
  Ast (x_data x) (x_out x) (x_args x) (x_addr x) (x_mem x) (x_iovs x) (x_msgs x) m (x_errno x) (x_sys x).
Definition put_errno_of (e : Z) (x : ast Os) : ast Os :=
  Ast (x_data x) (x_out x) (x_args x) (x_addr x) (x_mem x) (x_iovs x) (x_msgs x) (x_socks x) e (x_sys x).
Definition put_sys_of (s : Os) (x : ast Os) : ast Os :=
  Ast (x_data x) (x_out x) (x_args x) (x_addr x) (x_mem x) (x_iovs x) (x_msgs x) (x_socks x) (x_errno x) s.

(** ** Arguments *)

(** [va_arg] of an [int] or an address; a missing argument is undefined. *)
Definition va_int : X Z :=
  fun x => match x_args x with a :: l => Some (a, put_args_of l x) | [] => None end.
(** A pointer argument is [NULL] or the address of an object. *)
Definition at_addr (a : Z) : X uptr := fun x => (fun u => (u, x)) <$> x_addr x !! a.
Definition va_ptr : X (option uptr) :=
  a ← va_int;
  if a =? 0 then mret None else u ← at_addr a; mret (Some u).

(** ** Scratch and events *)

Definition get_stm : X dpaio_stm :=
  fun x => match x_data x with SStm s => Some (s, x) | _ => None end.
Definition put_stm (s : dpaio_stm) : X unit :=
  _ ← get_stm; modify (put_data_of (SStm s)).
Definition get_arg : X dpaio_arg := s ← get_stm; mret (stm_io s).
Definition put_arg (io : dpaio_arg) : X unit := s ← get_stm; put_stm (with_io s io).

Definition get_tee : X dpsp_tee := fun x => match x_data x with STee t => Some (t, x) | _ => None end.
Definition put_tee (t : dpsp_tee) : X unit := _ ← get_tee; modify (put_data_of (STee t)).
Definition get_acc : X (option loc) := fun x => match x_data x with SAcc a => Some (a, x) | _ => None end.
Definition put_acc (a : option loc) : X unit := _ ← get_acc; modify (put_data_of (SAcc a)).
Definition get_syc : X dpsyc_arg := fun x => match x_data x with SSyc a => Some (a, x) | _ => None end.
Definition put_syc (a : dpsyc_arg) : X unit := _ ← get_syc; modify (put_data_of (SSyc a)).

Definition want_events (v : Z) : X unit :=
  modify (fun x => put_out_of (Out v (o_inva (x_out x)) (o_able (x_out x)) (o_data (x_out x))) x).
Definition inva_events (v : Z) : X unit :=
  modify (fun x => put_out_of (Out (o_want (x_out x)) v (o_able (x_out x)) (o_data (x_out x))) x).
(** [out->inva_events = out->want_events] *)
Definition inva_wanted : X unit := o ← gets x_out; inva_events (o_want o).

(** ** Memory *)

Definition on_mem {A} (m : ST bstore A) : X A :=
  fun x => match m (x_mem x) with Some (a, s) => Some (a, put_mem_of s x) | None => None end.

(** The byte pointer [p + off]. *)
Definition byte_ptr (p : option uptr) (off : Z) : option ptr :=
  match p with Some (PBytes p) => Some (ptr_add p off) | _ => None end.

Definition get_msg (p : loc) : X msghdr := fun x => (fun m => (m, x)) <$> x_msgs x !! p.
Definition put_msg (p : loc) (m : msghdr) : X unit :=
  _ ← get_msg p; modify (fun x => put_msgs_of (<[p := m]> (x_msgs x)) x).
Definition get_iovs (p : loc) : X (list iovec) := fun x => (fun v => (v, x)) <$> x_iovs x !! p.
Definition get_sock (p : loc) : X dpsockaddr := fun x => (fun a => (a, x)) <$> x_socks x !! p.
Definition put_sock (p : loc) (a : dpsockaddr) : X unit :=
  _ ← get_sock p; modify (fun x => put_socks_of (<[p := a]> (x_socks x)) x).

(** ** Calls of the system

    A failing call returns [-1] and sets [errno]. *)

Definition io_call {A} (f : Os -> (Z + A) * Os) : X (option A) :=
  fun x => let '(r, s) := f (x_sys x) in
    match r with
    | inl e => Some (None, put_errno_of e (put_sys_of s x))
    | inr a => Some (Some a, put_sys_of s x)
    end.
Definition errno : X Z := gets x_errno.

Definition call (c : syscall) : X Z :=
  r ← io_call (sys_call c); mret (default (-1) r).

(** The system writes the bytes it read where the caller asked. *)
Definition fill (dst : option ptr) (r : option (list Z)) : X Z :=
  match r with
  | None => mret (-1)
  | Some [] => mret 0
  | Some bs => p ← lift_opt dst; on_mem (store_bytes p bs);; mret (zlen bs)
  end.
(** The [n] bytes the caller hands over. *)
Definition gather (src : option ptr) (n : Z) : X (list Z) :=
  p ← lift_opt src; on_mem (load_bytes p n).

(** Bytes spread over the entries of an [iovec] array, and collected from it. *)
Fixpoint scatter (v : list iovec) (bs : list Z) : X unit :=
  match v, bs with
  | _, [] => mret tt
  | [], _ => ub
  | i :: v, _ =>
      on_mem (store_bytes (iov_base i) (ztake (iov_len i) bs));; scatter v (zdrop (iov_len i) bs)
  end.
Fixpoint collect (v : list iovec) : X (list Z) :=
  match v with
  | [] => mret []
  | i :: v =>
      bs ← on_mem (load_bytes (iov_base i) (iov_len i));
      rest ← collect v; mret (bs ++ rest)
  end.

End Aio.
