(* ===== verification/AscIo.v ===== *)
(** * Descriptor operations ([lib/dpapp/os/linux/dpasc_epoll.c])

    [read], [write], [recv], [send] and their vector and message forms, [splice],
    [tee], [accept], [connect] and the control calls of a descriptor: each has a
    [prep], which checks and stores the arguments and says which events to wait
    for, and most have a [post], called while one of them is pending.  A [post]
    calls the system until the request is complete or the descriptor is used up. *)

From S2P Require Import Prelude Dpret Dpbuf Ele Tmrset World Aio.

#[local] Set Default Proof Using "Type*".

(** An operation descriptor; [op_data] is its scratch memory, cleared. *)
Record opdesc (Os : Type) := Op {
  op_prep : dpele -> ST (ast Os) Z;
  op_post : option (dpele -> ST (ast Os) Z);
  op_types : Z;
  op_iotypes : Z;
  op_data : scratch;
  op_datasz : Z;
  op_flags : Z;
}.
Arguments Op {Os}.
Arguments op_prep {Os}. Arguments op_post {Os}. Arguments op_types {Os}. Arguments op_iotypes {Os}.
Arguments op_data {Os}. Arguments op_datasz {Os}. Arguments op_flags {Os}.

Definition type_bit (t : dpele_type_e) : Z := Z.shiftl 1 (type_index t).
Definition GFD_SKT : Z := Z.lor (Z.shiftl 1 DPAIO_TYPE_GFD) (Z.shiftl 1 DPAIO_TYPE_SKT).

Definition EINPROGRESS : Z := 115.

Section AscIo.
Context {Os : Type} `{IoSys Os}.

Abbreviation X := (ST (ast Os)).
Abbreviation opd := (opdesc Os).

Definition DPASC_GFD_FUNCTION (prep : dpele -> X Z) (post : option (dpele -> X Z)) (d : scratch) (sz fl : Z) : opd :=
  Op prep post (type_bit DPELE_TYPE_EFD) GFD_SKT d sz fl.
Definition DPASC_SKT_FUNCTION (prep : dpele -> X Z) (post : option (dpele -> X Z)) (d : scratch) (sz fl : Z) : opd :=
  Op prep post (type_bit DPELE_TYPE_EFD) (Z.shiftl 1 DPAIO_TYPE_SKT) d sz fl.
Definition DPASC_EFD_FUNCTION (prep : dpele -> X Z) (post : option (dpele -> X Z)) (d : scratch) (sz fl : Z) : opd :=
  Op prep post (type_bit DPELE_TYPE_EFD) 0 d sz fl.
Definition ARG_SIZE : Z := 24.

Definition _dpsyc_ret_fd (r : Z) : X Z := if 0 <=? r then mret r else e ← errno; mret (- e).
Definition _dpsyc_ret_ok (r : Z) : X Z := if r =? 0 then mret DPE_OK else e ← errno; mret (- e).

(** ** [iovec] arrays *)

(** The first [n] entries of an array; reading past its end is undefined. *)
Definition iov_prefix (n : Z) (v : list iovec) : X (list iovec) :=
  if (0 <=? n) && (n <=? zlen v) then mret (ztake n v) else ub.
Definition iov_array (iov : option uptr) : X (list iovec) :=
  match iov with Some (PIov p) => get_iovs p | _ => ub end.

Definition iov_sum (v : list iovec) : Z := fold_left (fun t i => to_u64 (t + iov_len i)) v 0.

Definition _dpioc_iov_total (iov : option uptr) (iovcnt : Z) : X Z :=
  match iov with
  | None => mret 0
  | Some _ =>
      if iovcnt <=? 0 then mret 0 else
      a ← iov_array iov; v ← iov_prefix iovcnt a; mret (iov_sum v)
  end.

(** The entries left after [n] bytes. *)
Fixpoint _dpioc_iov_advance (iov : list iovec) (n : Z) : list iovec :=
  match iov with
  | i :: rest =>
      if n =? 0 then iov
      else if n <? iov_len i then Iovec (ptr_add (iov_base i) n) (iov_len i - n) :: rest
      else _dpioc_iov_advance rest (n - iov_len i)
  | [] => []
  end.

(** ** One system call *)

Definition _dpaio_read (fd : Z) (io : dpaio_arg) (off : Z) : X Z :=
  r ← io_call (sys_read fd (to_u64 (io_len io - off)));
  fill (byte_ptr (io_ptr io) off) r.
Definition _dpaio_write (fd : Z) (io : dpaio_arg) (off : Z) : X Z :=
  bs ← gather (byte_ptr (io_ptr io) off) (io_len io - off);
  r ← io_call (sys_write fd bs); mret (default (-1) r).
Definition _dpaio_recv (fd : Z) (io : dpaio_arg) (off : Z) : X Z :=
  r ← io_call (sys_recv fd (to_u64 (io_len io - off)) (io_flag io));
  fill (byte_ptr (io_ptr io) off) r.
Definition _dpaio_send (fd : Z) (io : dpaio_arg) (off : Z) : X Z :=
  bs ← gather (byte_ptr (io_ptr io) off) (io_len io - off);
  r ← io_call (sys_send fd bs (io_flag io)); mret (default (-1) r).

Definition readv (fd : Z) (v : list iovec) : X Z :=
  r ← io_call (sys_readv fd (iov_sum v));
  match r with None => mret (-1) | Some bs => scatter v bs;; mret (zlen bs) end.
Definition writev (fd : Z) (v : list iovec) : X Z :=
  bs ← collect v; r ← io_call (sys_writev fd bs); mret (default (-1) r).

(** A message header and the entries left of its array; the system writes three
    fields of the header back. *)
Definition set_back (m : msghdr) (nl cl fl : Z) : msghdr :=
  Msghdr (msg_name m) nl (msg_iov m) (msg_iovlen m) (msg_control m) cl fl.
Definition set_iovlen (m : msghdr) (n : Z) : msghdr :=
  Msghdr (msg_name m) (msg_namelen m) (msg_iov m) n (msg_control m) (msg_controllen m) (msg_flags m).
Definition recvmsg (fd : Z) (m : msghdr) (v : list iovec) (flag : Z) : X (Z * msghdr) :=
  r ← io_call (sys_recvmsg fd (iov_sum v) m flag);
  match r with
  | None => mret (-1, m)
  | Some (bs, (nl, cl, fl)) => scatter v bs;; mret (zlen bs, set_back m nl cl fl)
  end.
Definition sendmsg (fd : Z) (m : msghdr) (v : list iovec) (flag : Z) : X (Z * msghdr) :=
  bs ← collect v;
  r ← io_call (sys_sendmsg fd bs m flag); mret (default (-1) r, m).

(** ** Repeating it

    Every turn of these loops but the last moves at least one byte. *)

Fixpoint buf_loop (fuel : nat) (fd : Z) (iofun : Z -> dpaio_arg -> Z -> X Z) (total : Z) : X Z :=
  match fuel with
  | O => ub
  | S fuel =>
      ioarg ← get_arg;
      res ← iofun fd ioarg total;
      if 0 <? res then
        let total := total + res in
        ioarg ← get_arg;
        if total =? io_len ioarg then mret total else buf_loop fuel fd iofun total
      else if res =? 0 then inva_wanted;; mret DPE_EOF
      else inva_wanted;; e ← errno; mret (if 0 <? total then total else - e)
  end.

Definition _dpaio_buf_post (gio : dpele) (iofun : Z -> dpaio_arg -> Z -> X Z) : X Z :=
  ioarg ← get_arg;
  buf_loop (Z.to_nat (io_len ioarg) + 1) (union_fd gio) iofun 0.

Fixpoint iov_loop (fuel : nat) (fd : Z) (iofun : Z -> list iovec -> X Z) (iov : list iovec) (total_len total : Z) : X Z :=
  match fuel with
  | O => ub
  | S fuel =>
      res ← iofun fd iov;
      if 0 <? res then
        let total := total + res in
        let iov := _dpioc_iov_advance iov res in
        if total =? total_len then mret total else iov_loop fuel fd iofun iov total_len total
      else if res =? 0 then inva_wanted;; mret DPE_EOF
      else inva_wanted;; e ← errno; mret (if 0 <? total then total else - e)
  end.

Definition _dpaio_iov_post (gio : dpele) (iofun : Z -> list iovec -> X Z) : X Z :=
  ioarg ← get_arg;
  a ← iov_array (io_ptr ioarg);
  iov ← iov_prefix (io_len ioarg) a;
  iov_loop (Z.to_nat (io_total ioarg) + 1) (union_fd gio) iofun iov (io_total ioarg) 0.

Fixpoint msg_loop (fuel : nat) (fd : Z) (iofun : Z -> msghdr -> list iovec -> Z -> X (Z * msghdr))
    (msg : msghdr) (iov : list iovec) (flag total_len total : Z) : X (Z * msghdr) :=
  match fuel with
  | O => ub
  | S fuel =>
      r ← iofun fd msg iov flag;
      let '(res, msg) := r : Z * msghdr in
      if 0 <? res then
        let total := total + res in
        let iov := _dpioc_iov_advance iov res in
        let msg := set_iovlen msg (zlen iov) in
        if total =? total_len then mret (total, msg) else msg_loop fuel fd iofun msg iov flag total_len total
      else if res =? 0 then inva_wanted;; mret (if 0 <? total then total else DPE_EOF, msg)
      else inva_wanted;; e ← errno; mret (if 0 <? total then total else - e, msg)
  end.

(** The caller's header gets the fields the system wrote. *)
Definition _dpaio_msg_post (gio : dpele) (iofun : Z -> msghdr -> list iovec -> Z -> X (Z * msghdr)) : X Z :=
  io ← get_arg;
  match io_ptr io with
  | Some (PMsg p) =>
      m ← get_msg p;
      q ← lift_opt (msg_iov m);
      a ← get_iovs q;
      iov ← iov_prefix (to_i32 (msg_iovlen m)) a;
      r ← msg_loop (Z.to_nat (io_total io) + 1) (union_fd gio) iofun m iov (io_flag io) (io_total io) 0;
      m ← get_msg p;
      put_msg p (set_back m (msg_namelen r.2) (msg_controllen r.2) (msg_flags r.2));;
      mret r.1
  | _ => ub
  end.

(** ** Bytes in one buffer *)

(** The arguments [(buf, len)] or [(buf, len, flags)]. *)
Definition buf_len_prep (events : Z) (flag : X Z) : X Z :=
  want_events events;; inva_events 0;;
  ioarg ← get_arg;
  buf ← va_ptr; len ← va_int; flag ← flag;
  put_arg (IoArg buf len flag (io_total ioarg) (io_fd2 ioarg));;
  if negb (bool_decide (is_Some buf)) || (len <=? 0) then mret DPE_INVAL else mret DPE_CONTINUE.

Definition _dpgfd_read_prep (gio : dpele) : X Z := buf_len_prep DPEVT_IN (mret 0).
Definition _dpgfd_read_post (gio : dpele) : X Z := _dpaio_buf_post gio _dpaio_read.
Definition dpgfd_read : opd :=
  DPASC_GFD_FUNCTION _dpgfd_read_prep (Some _dpgfd_read_post) (SStm zero_stm) ARG_SIZE 0.

Definition _dpgfd_write_prep (gio : dpele) : X Z := buf_len_prep DPEVT_OUT (mret 0).
Definition _dpgfd_write_post (gio : dpele) : X Z := _dpaio_buf_post gio _dpaio_write.
Definition dpgfd_write : opd :=
  DPASC_GFD_FUNCTION _dpgfd_write_prep (Some _dpgfd_write_post) (SStm zero_stm) ARG_SIZE 0.

Definition _dpskt_recv_prep (skt : dpele) : X Z := buf_len_prep DPEVT_IN va_int.
Definition _dpskt_recv_post (skt : dpele) : X Z := _dpaio_buf_post skt _dpaio_recv.
Definition dpskt_recv : opd :=
  DPASC_SKT_FUNCTION _dpskt_recv_prep (Some _dpskt_recv_post) (SStm zero_stm) ARG_SIZE 0.

Definition _dpskt_recv2_prep (skt : dpele) : X Z := buf_len_prep DPEVT_IN (mret 0).
Definition dpskt_recv2 : opd :=
  DPASC_SKT_FUNCTION _dpskt_recv2_prep (Some _dpskt_recv_post) (SStm zero_stm) ARG_SIZE 0.

Definition _dpskt_send_prep (skt : dpele) : X Z := buf_len_prep DPEVT_OUT va_int.
Definition _dpskt_send_post (skt : dpele) : X Z := _dpaio_buf_post skt _dpaio_send.
Definition dpskt_send : opd :=
  DPASC_SKT_FUNCTION _dpskt_send_prep (Some _dpskt_send_post) (SStm zero_stm) ARG_SIZE 0.

Definition _dpskt_send2_prep (skt : dpele) : X Z := buf_len_prep DPEVT_OUT (mret 0).
Definition dpskt_send2 : opd :=
  DPASC_SKT_FUNCTION _dpskt_send2_prep (Some _dpskt_send_post) (SStm zero_stm) ARG_SIZE 0.

(** ** Vectors *)

Definition iov_prep (events : Z) : X Z :=
  want_events events;; inva_events 0;;
  ioarg ← get_arg;
  iov ← va_ptr; len ← va_int;
  total ← _dpioc_iov_total iov len;
  let total := to_i32 total in
  put_arg (IoArg iov len (io_flag ioarg) total (io_fd2 ioarg));;
  if total =? 0 then mret DPE_INVAL else mret DPE_CONTINUE.

Definition _dpgfd_readv_prep (gio : dpele) : X Z := iov_prep DPEVT_IN.
Definition _dpgfd_readv_post (gio : dpele) : X Z := _dpaio_iov_post gio readv.
Definition dpgfd_readv : opd :=
  DPASC_GFD_FUNCTION _dpgfd_readv_prep (Some _dpgfd_readv_post) (SStm zero_stm) ARG_SIZE 0.

Definition _dpgfd_writev_prep (gio : dpele) : X Z := iov_prep DPEVT_OUT.
Definition _dpgfd_writev_post (gio : dpele) : X Z := _dpaio_iov_post gio writev.
Definition dpgfd_writev : opd :=
  DPASC_GFD_FUNCTION _dpgfd_writev_prep (Some _dpgfd_writev_post) (SStm zero_stm) ARG_SIZE 0.

(** ** Messages *)

Definition msg_prep (events : Z) : X Z :=
  ioarg ← get_arg;
  msg ← va_ptr; flag ← va_int;
  put_arg (IoArg msg (io_len ioarg) flag (io_total ioarg) (io_fd2 ioarg));;
  want_events events;; inva_events 0;;
  match msg with
  | None => mret DPE_INVAL
  | Some (PMsg p) =>
      m ← get_msg p;
      total ← _dpioc_iov_total (PIov <$> msg_iov m) (to_i32 (msg_iovlen m));
      let total := to_i32 total in
      put_arg (IoArg msg (io_len ioarg) flag total (io_fd2 ioarg));;
      if total =? 0 then mret DPE_INVAL else mret DPE_CONTINUE
  | Some _ => ub
  end.

Definition _dpskt_recvmsg_prep (skt : dpele) : X Z := msg_prep DPEVT_IN.
Definition _dpskt_recvmsg_post (skt : dpele) : X Z := _dpaio_msg_post skt recvmsg.
Definition dpskt_recvmsg : opd :=
  DPASC_SKT_FUNCTION _dpskt_recvmsg_prep (Some _dpskt_recvmsg_post) (SStm zero_stm) ARG_SIZE 0.

Definition _dpskt_sendmsg_prep (skt : dpele) : X Z := msg_prep DPEVT_OUT.
Definition _dpskt_sendmsg_post (skt : dpele) : X Z := _dpaio_msg_post skt sendmsg.
Definition dpskt_sendmsg : opd :=
  DPASC_SKT_FUNCTION _dpskt_sendmsg_prep (Some _dpskt_sendmsg_post) (SStm zero_stm) ARG_SIZE 0.

(** ** Accepting and connecting *)

Definition _dpskt_accept_prep (skt : dpele) : X Z :=
  addr ← va_ptr;
  a ← (match addr with None => mret None | Some (PSock p) => mret (Some p) | Some _ => ub end);
  put_acc a;;
  want_events DPEVT_IN;; inva_events 0;;
  mret DPE_CONTINUE.

Definition _dpskt_accept_post (skt : dpele) : X Z :=
  acc ← get_acc;
  r ← (match acc with
       | Some p =>
           a ← get_sock p;
           put_sock p (Sockaddr (sa_addr a) SOCKADDR_SIZE);;
           r ← io_call (sys_accept (union_fd skt));
           match r with
           | Some (fd, peer) =>
               put_sock p (Sockaddr (splice 0 (ztake SOCKADDR_SIZE peer) (sa_addr a)) (zlen peer));; mret fd
           | None => mret (-1)
           end
       | None =>
           r ← io_call (sys_accept (union_fd skt));
           mret (match r with Some (fd, _) => fd | None => -1 end)
       end);
  if 0 <=? r then mret r else inva_events DPEVT_IN;; e ← errno; mret (- e).

Definition dpskt_accept : opd :=
  DPASC_SKT_FUNCTION _dpskt_accept_prep (Some _dpskt_accept_post) (SAcc None) 8 0.

Definition _dpskt_connect_prep (skt : dpele) : X Z :=
  addr ← va_ptr;
  match addr with
  | None => mret DPE_INVAL
  | Some (PSock p) =>
      a ← get_sock p;
      r ← io_call (sys_connect (union_fd skt) (ztake (sa_real a) (sa_addr a)));
      if default (-1) r =? 0 then mret DPE_OK else
      e ← errno;
      if e =? EINPROGRESS then inva_events DPEVT_AIO;; want_events DPEVT_OUT;; mret DPE_CONTINUE
      else mret (- e)
  | Some _ => ub
  end.

Definition _dpskt_connect_post (skt : dpele) : X Z := mret DPE_OK.

Definition dpskt_connect : opd :=
  DPASC_SKT_FUNCTION _dpskt_connect_prep (Some _dpskt_connect_post) SNull 0 0.

(** ** Moving data between descriptors *)

Definition tee_prep : X Z :=
  in_fd ← va_int; len ← va_int; flags ← va_int;
  put_tee (Tee in_fd (to_i32 len) (to_i32 flags));;
  want_events DPEVT_OUT;; inva_events 0;;
  if (in_fd <? 0) || (to_i32 len <=? 0) then mret DPE_INVAL else mret DPE_CONTINUE.

Fixpoint tee_loop (fuel : nat) (fd : Z) (iofun : Z -> Z -> Z -> Z -> syscall) (total : Z) : X Z :=
  match fuel with
  | O => ub
  | S fuel =>
      io ← get_tee;
      r ← call (iofun (tee_in_fd io) fd (tee_len io - total) (tee_flags io));
      if 0 <? r then
        let total := total + r in
        if total =? tee_len io then mret total else tee_loop fuel fd iofun total
      else if r =? 0 then mret (if 0 <? total then total else DPE_OK)
      else inva_events DPEVT_OUT;; e ← errno; mret (if 0 <? total then total else - e)
  end.
Definition tee_post (fio : dpele) (iofun : Z -> Z -> Z -> Z -> syscall) : X Z :=
  io ← get_tee; tee_loop (Z.to_nat (tee_len io) + 1) (union_fd fio) iofun 0.

Definition _dpgfd_splice_prep (fio : dpele) : X Z := tee_prep.
Definition _dpgfd_splice_post (fio : dpele) : X Z := tee_post fio Splice.
Definition dpgfd_splice : opd :=
  DPASC_GFD_FUNCTION _dpgfd_splice_prep (Some _dpgfd_splice_post) (STee (Tee 0 0 0)) 12 0.

Definition _dpgfd_tee_prep (fio : dpele) : X Z := tee_prep.
Definition _dpgfd_tee_post (fio : dpele) : X Z := tee_post fio TeeCall.
Definition dpgfd_tee : opd :=
  DPASC_GFD_FUNCTION _dpgfd_tee_prep (Some _dpgfd_tee_post) (STee (Tee 0 0 0)) 12 0.

(** ** Control of a descriptor: the call is made at once *)

Definition _dpefd_fsync_prep (efd : dpele) : X Z :=
  flags ← va_int;
  r ← call (if has_flag flags 1 then Fdatasync (union_fd efd) else Fsync (union_fd efd));
  _dpsyc_ret_ok r.
Definition dpefd_fsync : opd := DPASC_EFD_FUNCTION _dpefd_fsync_prep None SNull 0 0.

Definition _dpskt_shutdown_prep (skt : dpele) : X Z :=
  how ← va_int; r ← call (Shutdown (union_fd skt) how); _dpsyc_ret_ok r.
Definition dpskt_shutdown : opd := DPASC_SKT_FUNCTION _dpskt_shutdown_prep None SNull 0 0.

Definition _dpefd_fallocate_prep (efd : dpele) : X Z :=
  mode ← va_int; offset ← va_int; len ← va_int;
  r ← call (Fallocate (union_fd efd) mode offset len); _dpsyc_ret_ok r.
Definition dpefd_fallocate : opd := DPASC_EFD_FUNCTION _dpefd_fallocate_prep None SNull 0 0.

Definition _dpefd_fadvise_prep (efd : dpele) : X Z :=
  offset ← va_int; len ← va_int; advice ← va_int;
  r ← call (PosixFadvise (union_fd efd) offset len advice); _dpsyc_ret_ok r.
Definition dpefd_fadvise : opd := DPASC_EFD_FUNCTION _dpefd_fadvise_prep None SNull 0 0.

Definition _dpefd_sync_file_range_prep (efd : dpele) : X Z :=
  offset ← va_int; nbytes ← va_int; flags ← va_int;
  r ← call (SyncFileRange (union_fd efd) offset (to_u32 nbytes) flags); _dpsyc_ret_ok r.
Definition dpefd_sync_file_range : opd := DPASC_EFD_FUNCTION _dpefd_sync_file_range_prep None SNull 0 0.

Definition _dpefd_close_prep (efd : dpele) : X Z :=
  r ← call (Close (union_fd efd)); _dpsyc_ret_ok r.
Definition dpefd_close : opd := DPASC_EFD_FUNCTION _dpefd_close_prep None SNull 0 0.

(** ** Waiting for events, and nothing else ([dpasc.c]) *)

Definition _dpefd_poll_prep (efd : dpele) : X Z :=
  evs ← va_int;
  let poll_evs := Z.lor (ty_events (e_type efd)) DPEVT_ALL in
  if Z.land evs poll_evs =? 0 then mret DPE_INVAL else
  want_events (evs mod 65536);; mret DPE_CONTINUE.

Definition _dpefd_poll_post (efd : dpele) : X Z :=
  o ← gets x_out; inva_events (o_want o);; mret (o_want o).

Definition dpefd_poll : opd := DPASC_EFD_FUNCTION _dpefd_poll_prep (Some _dpefd_poll_post) (STee (Tee 0 0 0)) 4 0.

(** ** Blocking mode ([dpefd.c]) *)

Definition dpefd_set_block (efd : dpele) (block : bool) : X Z :=
  let fd := union_fd efd in
  if fd <? 0 then mret DPE_INVAL else
  flags ← call (FcntlGetfl fd);
  if flags =? -1 then e ← errno; mret (- e) else
  let desired := if block then Z.ldiff flags O_NONBLOCK else Z.lor flags O_NONBLOCK in
  if desired =? flags then mret DPE_OK else
  r ← call (FcntlSetfl fd desired);
  if negb (r =? -1) then mret DPE_OK else e ← errno; mret (- e).

End AscIo.
