(* ===== verification/AscSyc.v ===== *)
(** * Path operations ([lib/dpapp/os/linux/dpasc_epoll.c], the [dpsyc_] part)

    An operation on a path is a call to another loop: its [prep] stores the
    arguments in the scratch memory and refuses a [NULL] path, and its [post]
    makes one system call with them.  Pointers are addresses, passed through. *)

From S2P Require Import Prelude Dpret Dpbuf Ele Tmrset World Aio AscIo.

#[local] Set Default Proof Using "Type*".

Definition NULL : Z := 0.
Definition AT_FDCWD : Z := -100.

(** One field of [dpsyc_arg_t] stored. *)
Definition set_dirfd (v : Z) (a : dpsyc_arg) : dpsyc_arg := SycArg v (sy_dirfd2 a) (sy_fd a) (sy_flags a) (sy_len a) (sy_path a) (sy_name a) (sy_mode a) (sy_ptr a).
Definition set_dirfd2 (v : Z) (a : dpsyc_arg) : dpsyc_arg := SycArg (sy_dirfd a) v (sy_fd a) (sy_flags a) (sy_len a) (sy_path a) (sy_name a) (sy_mode a) (sy_ptr a).
Definition set_sfd (v : Z) (a : dpsyc_arg) : dpsyc_arg := SycArg (sy_dirfd a) (sy_dirfd2 a) v (sy_flags a) (sy_len a) (sy_path a) (sy_name a) (sy_mode a) (sy_ptr a).
Definition set_flags (v : Z) (a : dpsyc_arg) : dpsyc_arg := SycArg (sy_dirfd a) (sy_dirfd2 a) (sy_fd a) v (sy_len a) (sy_path a) (sy_name a) (sy_mode a) (sy_ptr a).
Definition set_len (v : Z) (a : dpsyc_arg) : dpsyc_arg := SycArg (sy_dirfd a) (sy_dirfd2 a) (sy_fd a) (sy_flags a) v (sy_path a) (sy_name a) (sy_mode a) (sy_ptr a).
Definition set_path (v : Z) (a : dpsyc_arg) : dpsyc_arg := SycArg (sy_dirfd a) (sy_dirfd2 a) (sy_fd a) (sy_flags a) (sy_len a) v (sy_name a) (sy_mode a) (sy_ptr a).
Definition set_name (v : Z) (a : dpsyc_arg) : dpsyc_arg := SycArg (sy_dirfd a) (sy_dirfd2 a) (sy_fd a) (sy_flags a) (sy_len a) (sy_path a) v (sy_mode a) (sy_ptr a).
Definition set_mode (v : Z) (a : dpsyc_arg) : dpsyc_arg := SycArg (sy_dirfd a) (sy_dirfd2 a) (sy_fd a) (sy_flags a) (sy_len a) (sy_path a) (sy_name a) v (sy_ptr a).
Definition set_ptr (v : Z) (a : dpsyc_arg) : dpsyc_arg := SycArg (sy_dirfd a) (sy_dirfd2 a) (sy_fd a) (sy_flags a) (sy_len a) (sy_path a) (sy_name a) (sy_mode a) v.

Section AscSyc.
Context {Os : Type} `{IoSys Os}.

Abbreviation X := (ST (ast Os)).
Abbreviation opd := (opdesc Os).

Definition DPASC_SYC_FUNCTION (prep post : dpele -> X Z) : opd :=
  Op prep (Some post) (type_bit DPELE_TYPE_CTC) 0 (SSyc zero_syc) 56 0.

Definition upd_syc (f : dpsyc_arg -> dpsyc_arg) : X unit := a ← get_syc; put_syc (f a).

Definition _dpsyc_nop (usd : dpele) : X Z := mret DPE_OK.
Definition dpsyc_nop : opd := Op _dpsyc_nop None (type_bit DPELE_TYPE_USD) 0 SNull 0 0.

Definition _dpsyc_madvise_prep (ctc : dpele) : X Z :=
  ptr ← va_int; len ← va_int; advice ← va_int;
  upd_syc (fun a => set_mode advice (set_len (to_u64 len) (set_ptr ptr a)));;
  mret (if (ptr =? NULL) || (to_u64 len =? 0) then DPE_INVAL else DPE_CONTINUE).
Definition _dpsyc_madvise_post (ctc : dpele) : X Z :=
  a ← get_syc; r ← call (Madvise (sy_ptr a) (sy_len a) (sy_mode a)); _dpsyc_ret_ok r.
Definition dpsyc_madvise : opd := DPASC_SYC_FUNCTION _dpsyc_madvise_prep _dpsyc_madvise_post.

Definition _dpsyc_openat_prep (ctc : dpele) : X Z :=
  dirfd ← va_int; path ← va_int; flags ← va_int; mode ← va_int;
  upd_syc (fun a => set_mode (to_i32 mode) (set_flags flags (set_path path (set_dirfd dirfd a))));;
  mret (if path =? NULL then DPE_INVAL else DPE_CONTINUE).
Definition _dpsyc_openat_post (ctc : dpele) : X Z :=
  a ← get_syc; r ← call (Openat (sy_dirfd a) (sy_path a) (sy_flags a) (to_u32 (sy_mode a))); _dpsyc_ret_fd r.
Definition dpsyc_openat : opd := DPASC_SYC_FUNCTION _dpsyc_openat_prep _dpsyc_openat_post.

Definition _dpsyc_open_prep (ctc : dpele) : X Z :=
  path ← va_int; flags ← va_int; mode ← va_int;
  upd_syc (fun a => set_mode (to_i32 mode) (set_flags flags (set_path path a)));;
  mret (if path =? NULL then DPE_INVAL else DPE_CONTINUE).
Definition _dpsyc_open_post (ctc : dpele) : X Z :=
  a ← get_syc; r ← call (Openat AT_FDCWD (sy_path a) (sy_flags a) (to_u32 (sy_mode a))); _dpsyc_ret_fd r.
Definition dpsyc_open : opd := DPASC_SYC_FUNCTION _dpsyc_open_prep _dpsyc_open_post.

Definition _dpsyc_openat2_prep (ctc : dpele) : X Z :=
  dirfd ← va_int; path ← va_int; ptr ← va_int;
  upd_syc (fun a => set_ptr ptr (set_path path (set_dirfd dirfd a)));;
  mret (if (path =? NULL) || (ptr =? NULL) then DPE_INVAL else DPE_CONTINUE).
Definition _dpsyc_openat2_post (ctc : dpele) : X Z :=
  a ← get_syc; r ← call (Openat2 (sy_dirfd a) (sy_path a) (sy_ptr a)); _dpsyc_ret_fd r.
Definition dpsyc_openat2 : opd := DPASC_SYC_FUNCTION _dpsyc_openat2_prep _dpsyc_openat2_post.

Definition _dpsyc_statx_prep (ctc : dpele) : X Z :=
  dirfd ← va_int; path ← va_int; flags ← va_int; mode ← va_int; ptr ← va_int;
  upd_syc (fun a => set_ptr ptr (set_mode (to_i32 mode) (set_flags flags (set_path path (set_dirfd dirfd a)))));;
  mret (if (path =? NULL) || (ptr =? NULL) then DPE_INVAL else DPE_CONTINUE).
Definition _dpsyc_statx_post (ctc : dpele) : X Z :=
  a ← get_syc; r ← call (Statx (sy_dirfd a) (sy_path a) (sy_flags a) (to_u32 (sy_mode a)) (sy_ptr a)); _dpsyc_ret_ok r.
Definition dpsyc_statx : opd := DPASC_SYC_FUNCTION _dpsyc_statx_prep _dpsyc_statx_post.

Definition _dpsyc_unlinkat_prep (ctc : dpele) : X Z :=
  dirfd ← va_int; path ← va_int; flags ← va_int;
  upd_syc (fun a => set_flags flags (set_path path (set_dirfd dirfd a)));;
  mret (if path =? NULL then DPE_INVAL else DPE_CONTINUE).
Definition _dpsyc_unlinkat_post (ctc : dpele) : X Z :=
  a ← get_syc; r ← call (Unlinkat (sy_dirfd a) (sy_path a) (sy_flags a)); _dpsyc_ret_ok r.
Definition dpsyc_unlinkat : opd := DPASC_SYC_FUNCTION _dpsyc_unlinkat_prep _dpsyc_unlinkat_post.

Definition _dpsyc_unlink_prep (ctc : dpele) : X Z :=
  path ← va_int; flags ← va_int;
  upd_syc (fun a => set_flags flags (set_path path a));;
  mret (if path =? NULL then DPE_INVAL else DPE_CONTINUE).
Definition _dpsyc_unlink_post (ctc : dpele) : X Z :=
  a ← get_syc; r ← call (Unlinkat AT_FDCWD (sy_path a) (sy_flags a)); _dpsyc_ret_ok r.
Definition dpsyc_unlink : opd := DPASC_SYC_FUNCTION _dpsyc_unlink_prep _dpsyc_unlink_post.

Definition _dpsyc_renameat_prep (ctc : dpele) : X Z :=
  dirfd ← va_int; path ← va_int; dirfd2 ← va_int; name ← va_int; flags ← va_int;
  upd_syc (fun a => set_flags (to_i32 flags) (set_name name (set_dirfd2 dirfd2 (set_path path (set_dirfd dirfd a)))));;
  mret (if (path =? NULL) || (name =? NULL) then DPE_INVAL else DPE_CONTINUE).
Definition _dpsyc_renameat_post (ctc : dpele) : X Z :=
  a ← get_syc; r ← call (Renameat2 (sy_dirfd a) (sy_path a) (sy_dirfd2 a) (sy_name a) (to_u32 (sy_flags a))); _dpsyc_ret_ok r.
Definition dpsyc_renameat : opd := DPASC_SYC_FUNCTION _dpsyc_renameat_prep _dpsyc_renameat_post.

Definition _dpsyc_rename_prep (ctc : dpele) : X Z :=
  path ← va_int; name ← va_int;
  upd_syc (fun a => set_name name (set_path path a));;
  mret (if (path =? NULL) || (name =? NULL) then DPE_INVAL else DPE_CONTINUE).
Definition _dpsyc_rename_post (ctc : dpele) : X Z :=
  a ← get_syc; r ← call (Renameat2 AT_FDCWD (sy_path a) AT_FDCWD (sy_name a) 0); _dpsyc_ret_ok r.
Definition dpsyc_rename : opd := DPASC_SYC_FUNCTION _dpsyc_rename_prep _dpsyc_rename_post.

Definition _dpsyc_mkdirat_prep (ctc : dpele) : X Z :=
  dirfd ← va_int; path ← va_int; mode ← va_int;
  upd_syc (fun a => set_mode (to_i32 mode) (set_path path (set_dirfd dirfd a)));;
  mret (if path =? NULL then DPE_INVAL else DPE_CONTINUE).
Definition _dpsyc_mkdirat_post (ctc : dpele) : X Z :=
  a ← get_syc; r ← call (Mkdirat (sy_dirfd a) (sy_path a) (to_u32 (sy_mode a))); _dpsyc_ret_ok r.
Definition dpsyc_mkdirat : opd := DPASC_SYC_FUNCTION _dpsyc_mkdirat_prep _dpsyc_mkdirat_post.

Definition _dpsyc_mkdir_prep (ctc : dpele) : X Z :=
  path ← va_int; mode ← va_int;
  upd_syc (fun a => set_mode (to_i32 mode) (set_path path a));;
  mret (if path =? NULL then DPE_INVAL else DPE_CONTINUE).
Definition _dpsyc_mkdir_post (ctc : dpele) : X Z :=
  a ← get_syc; r ← call (Mkdirat AT_FDCWD (sy_path a) (to_u32 (sy_mode a))); _dpsyc_ret_ok r.
Definition dpsyc_mkdir : opd := DPASC_SYC_FUNCTION _dpsyc_mkdir_prep _dpsyc_mkdir_post.

Definition _dpsyc_symlinkat_prep (ctc : dpele) : X Z :=
  name ← va_int; dirfd ← va_int; path ← va_int;
  upd_syc (fun a => set_path path (set_dirfd dirfd (set_name name a)));;
  mret (if (name =? NULL) || (path =? NULL) then DPE_INVAL else DPE_CONTINUE).
Definition _dpsyc_symlinkat_post (ctc : dpele) : X Z :=
  a ← get_syc; r ← call (Symlinkat (sy_name a) (sy_dirfd a) (sy_path a)); _dpsyc_ret_ok r.
Definition dpsyc_symlinkat : opd := DPASC_SYC_FUNCTION _dpsyc_symlinkat_prep _dpsyc_symlinkat_post.

Definition _dpsyc_symlink_prep (ctc : dpele) : X Z :=
  name ← va_int; path ← va_int;
  upd_syc (fun a => set_path path (set_name name a));;
  mret (if (name =? NULL) || (path =? NULL) then DPE_INVAL else DPE_CONTINUE).
Definition _dpsyc_symlink_post (ctc : dpele) : X Z :=
  a ← get_syc; r ← call (Symlinkat (sy_name a) AT_FDCWD (sy_path a)); _dpsyc_ret_ok r.
Definition dpsyc_symlink : opd := DPASC_SYC_FUNCTION _dpsyc_symlink_prep _dpsyc_symlink_post.

Definition _dpsyc_linkat_prep (ctc : dpele) : X Z :=
  dirfd ← va_int; path ← va_int; dirfd2 ← va_int; name ← va_int; flags ← va_int;
  upd_syc (fun a => set_flags flags (set_name name (set_dirfd2 dirfd2 (set_path path (set_dirfd dirfd a)))));;
  mret (if (path =? NULL) || (name =? NULL) then DPE_INVAL else DPE_CONTINUE).
Definition _dpsyc_linkat_post (ctc : dpele) : X Z :=
  a ← get_syc; r ← call (Linkat (sy_dirfd a) (sy_path a) (sy_dirfd2 a) (sy_name a) (sy_flags a)); _dpsyc_ret_ok r.
Definition dpsyc_linkat : opd := DPASC_SYC_FUNCTION _dpsyc_linkat_prep _dpsyc_linkat_post.

Definition _dpsyc_link_prep (ctc : dpele) : X Z :=
  path ← va_int; name ← va_int; flags ← va_int;
  upd_syc (fun a => set_flags flags (set_name name (set_path path a)));;
  mret (if (path =? NULL) || (name =? NULL) then DPE_INVAL else DPE_CONTINUE).
Definition _dpsyc_link_post (ctc : dpele) : X Z :=
  a ← get_syc; r ← call (Linkat AT_FDCWD (sy_path a) AT_FDCWD (sy_name a) (sy_flags a)); _dpsyc_ret_ok r.
Definition dpsyc_link : opd := DPASC_SYC_FUNCTION _dpsyc_link_prep _dpsyc_link_post.

Definition _dpsyc_getxattr_prep (ctc : dpele) : X Z :=
  name ← va_int; ptr ← va_int; path ← va_int; len ← va_int;
  upd_syc (fun a => set_len (to_u32 len) (set_path path (set_ptr ptr (set_name name a))));;
  mret (if (name =? NULL) || (path =? NULL) then DPE_INVAL else DPE_CONTINUE).
Definition _dpsyc_getxattr_post (ctc : dpele) : X Z :=
  a ← get_syc; r ← call (Getxattr (sy_path a) (sy_name a) (sy_ptr a) (sy_len a)); _dpsyc_ret_fd r.
Definition dpsyc_getxattr : opd := DPASC_SYC_FUNCTION _dpsyc_getxattr_prep _dpsyc_getxattr_post.

Definition _dpsyc_setxattr_prep (ctc : dpele) : X Z :=
  name ← va_int; ptr ← va_int; path ← va_int; flags ← va_int; len ← va_int;
  upd_syc (fun a => set_len (to_u32 len) (set_flags flags (set_path path (set_ptr ptr (set_name name a)))));;
  mret (if (name =? NULL) || (path =? NULL) then DPE_INVAL else DPE_CONTINUE).
Definition _dpsyc_setxattr_post (ctc : dpele) : X Z :=
  a ← get_syc; r ← call (Setxattr (sy_path a) (sy_name a) (sy_ptr a) (sy_len a) (sy_flags a)); _dpsyc_ret_ok r.
Definition dpsyc_setxattr : opd := DPASC_SYC_FUNCTION _dpsyc_setxattr_prep _dpsyc_setxattr_post.

Definition _dpsyc_fgetxattr_prep (ctc : dpele) : X Z :=
  fd ← va_int; name ← va_int; ptr ← va_int; len ← va_int;
  upd_syc (fun a => set_len (to_u32 len) (set_ptr ptr (set_name name (set_sfd fd a))));;
  mret (if name =? NULL then DPE_INVAL else DPE_CONTINUE).
Definition _dpsyc_fgetxattr_post (ctc : dpele) : X Z :=
  a ← get_syc; r ← call (Fgetxattr (sy_fd a) (sy_name a) (sy_ptr a) (sy_len a)); _dpsyc_ret_fd r.
Definition dpsyc_fgetxattr : opd := DPASC_SYC_FUNCTION _dpsyc_fgetxattr_prep _dpsyc_fgetxattr_post.

Definition _dpsyc_fsetxattr_prep (ctc : dpele) : X Z :=
  fd ← va_int; name ← va_int; ptr ← va_int; flags ← va_int; len ← va_int;
  upd_syc (fun a => set_len (to_u32 len) (set_flags flags (set_ptr ptr (set_name name (set_sfd fd a)))));;
  mret (if name =? NULL then DPE_INVAL else DPE_CONTINUE).
Definition _dpsyc_fsetxattr_post (ctc : dpele) : X Z :=
  a ← get_syc; r ← call (Fsetxattr (sy_fd a) (sy_name a) (sy_ptr a) (sy_len a) (sy_flags a)); _dpsyc_ret_ok r.
Definition dpsyc_fsetxattr : opd := DPASC_SYC_FUNCTION _dpsyc_fsetxattr_prep _dpsyc_fsetxattr_post.
End AscSyc.
