(* ===== verification/AscBuf.v ===== *)
(** * Streams into and out of buffers ([lib/dpapp/dpasc.c])

    The [dpaio_] operations repeat [read] and [write] (on a plain descriptor) or
    [recv] and [send] (on a socket) over a [dpbuf] or a byte range, asking the
    loop to wait in between: [some] moves what it can, [must] and [data] move a
    given count, [until] reads up to a delimiter.  Built without TLS, as
    [DPAPP_HAS_SSL] says: the table has no operation for other descriptors. *)

From S2P Require Import Prelude Dpret Dpbuf Ele Tmrset World Aio AscIo.

#[local] Set Default Proof Using "Type*".

Definition DPAIO_BATCH_SIZE : Z := 8192.

Section AscBuf.
Context {Os : Type} `{IoSys Os}.

Abbreviation X := (ST (ast Os)).
Abbreviation opd := (opdesc Os).

(** The operation below: 0 to read, 1 to write. *)
Definition _dpaio_get_asc (ele : dpele) (idx : Z) : option opd :=
  let t := ty_iotype (e_type ele) in
  if t =? DPAIO_TYPE_GFD then Some (if idx =? 0 then dpgfd_read else dpgfd_write)
  else if t =? DPAIO_TYPE_SKT then Some (if idx =? 0 then dpskt_recv2 else dpskt_send2)
  else None.

Definition sub_prep (e : dpele) (idx : Z) : X Z :=
  sub ← lift_opt (_dpaio_get_asc e idx); op_prep sub e.
Definition sub_post (e : dpele) (idx : Z) : X Z :=
  sub ← lift_opt (_dpaio_get_asc e idx); post ← lift_opt (op_post sub); post e.

Definition DPAIO_FUNCTION (prep post : dpele -> X Z) : opd :=
  Op prep (Some post) (Z.lor (type_bit DPELE_TYPE_EFD) (type_bit DPELE_TYPE_USD))
    (Z.lor GFD_SKT (Z.lor (Z.shiftl 1 DPAIO_TYPE_SSL) (Z.shiftl 1 DPAIO_TYPE_QIC))) (SStm zero_stm) 48 0.

(** ** Steps the operations share *)

Definition upd_stm (f : dpaio_stm -> dpaio_stm) : X unit := s ← get_stm; put_stm (f s).
Definition upd_io (f : dpaio_arg -> dpaio_arg) : X unit := upd_stm (fun s => with_io s (f (stm_io s))).

(** The pointer and the length the caller gave are the buffer and the count of
    the whole operation. *)
Definition take_buf : X loc :=
  s ← get_stm;
  match io_ptr (stm_io s) with
  | Some (PBuf p) =>
      put_stm (Stm (with_total (stm_io s) 0) (Some p) (io_len (stm_io s)) (stm_until_len s) (stm_until s));;
      mret p
  | _ => ub
  end.
Definition stm_loc : X loc := s ← get_stm; lift_opt (stm_buf s).

(** A [dpbuf] operation on the buffer. *)
Definition look {A} (p : loc) (f : dpbuf -> ST bstore A) : X A := on_mem (b ← get_buf p; f b).
Definition bufop {A} (p : loc) (f : dpbuf -> ST bstore (A * dpbuf)) : X A := on_mem (on_buf p f).

(** Where the next bytes go, and how many. *)
Definition aim_write (p : loc) (n : option Z) : X unit :=
  d ← look p dpbuf_cwdata;
  c ← look p (fun b => mret (dpbuf_cwsize b));
  upd_io (fun io => with_len (with_ptr io (Some (PBytes d))) (default c n)).
Definition aim_read (p : loc) (n : option Z) : X unit :=
  d ← look p dpbuf_crdata;
  c ← look p (fun b => mret (dpbuf_crsize b));
  upd_io (fun io => with_len (with_ptr io (Some (PBytes d))) (default c n)).

(** [io.buf += n; io.len -= n] *)
Definition shift_ptr (p : option uptr) (n : Z) : option uptr :=
  match p with Some (PBytes p) => Some (PBytes (ptr_add p n)) | p => p end.
Definition io_shift (n : Z) : X unit :=
  upd_io (fun io => with_len (with_ptr io (shift_ptr (io_ptr io) n)) (io_len io - n)).

Definition want_again (e : dpele) (ev : Z) : X unit :=
  if ele_is e DPELE_TYPE_EFD then want_events ev else mret tt.

(** What is reported when the operation below stops. *)
Definition or_total (ret : Z) : X Z :=
  s ← get_stm; let t := io_total (stm_io s) in mret (if 0 <? t then t else ret).

Definition batch (n : Z) : Z := if DPAIO_BATCH_SIZE <? n then DPAIO_BATCH_SIZE else n.

(** ** Reading what there is *)

Definition _dpaio_read_some_prep (e : dpele) : X Z :=
  ret ← sub_prep e 0;
  if negb (ret =? DPE_CONTINUE) then mret ret else
  p ← take_buf;
  s ← get_stm;
  esz ← bufop p (fun b => dpbuf_eseek b 0 SEEK_END);
  if stm_len s <=? esz then mret esz else
  ok ← bufop p (fun b => dpbuf_resizew b (batch (stm_len s - esz)));
  if negb ok then mret DPE_NOMEM else
  aim_write p None;; mret ret.

Definition _dpaio_read_some_post (e : dpele) : X Z :=
  ret ← sub_post e 0;
  if ret <=? 0 then or_total ret else
  upd_io (fun io => with_total io (io_total io + ret));;
  p ← stm_loc;
  _ ← bufop p (fun b => dpbuf_wseek b ret SEEK_CUR);
  _ ← bufop p (fun b => dpbuf_eseek b 0 SEEK_END);
  s ← get_stm;
  let io := stm_io s in
  if (ret <? io_len io) || (stm_len s <=? io_total io) then mret (io_total io) else
  ok ← bufop p (fun b => dpbuf_resizew b (batch (stm_len s - io_total io)));
  if negb ok then or_total DPE_NOMEM else
  aim_write p None;; mret DPE_WAIT.

Definition dpaio_read_some : opd := DPAIO_FUNCTION _dpaio_read_some_prep _dpaio_read_some_post.

(** ** Writing at least a count *)

Definition _dpaio_write_some_prep (e : dpele) : X Z :=
  ret ← sub_prep e 1;
  if negb (ret =? DPE_CONTINUE) then mret ret else
  p ← take_buf;
  aim_read p None;; mret ret.

Definition _dpaio_write_some_post (e : dpele) : X Z :=
  ret ← sub_post e 1;
  s ← get_stm;
  if ret <=? 0 then
    mret (if stm_len s <=? io_total (stm_io s) then io_total (stm_io s) else ret)
  else
  upd_io (fun io => with_total io (io_total io + ret));;
  p ← stm_loc;
  _ ← bufop p (fun b => dpbuf_rseek b ret SEEK_CUR);
  s ← get_stm;
  if stm_len s <=? io_total (stm_io s) then mret (io_total (stm_io s)) else
  io_shift ret;; want_again e DPEVT_OUT;; mret DPE_WAIT.

Definition dpaio_write_some : opd := DPAIO_FUNCTION _dpaio_write_some_prep _dpaio_write_some_post.

(** ** Moving an exact count through a buffer *)

Definition _dpaio_read_must_prep (e : dpele) : X Z :=
  ret ← sub_prep e 0;
  if negb (ret =? DPE_CONTINUE) then mret ret else
  p ← take_buf;
  s ← get_stm;
  esz ← look p (fun b => mret (dpbuf_cesize b));
  if stm_len s <=? esz then bufop p (fun b => dpbuf_eseek b (stm_len s) SEEK_CUR) else
  let bytes := stm_len s - esz in
  ok ← bufop p (fun b => dpbuf_resizew b bytes);
  if negb ok then mret DPE_NOMEM else
  aim_write p (Some bytes);; mret ret.

Definition _dpaio_read_must_post (e : dpele) : X Z :=
  ret ← sub_post e 0;
  if ret <=? 0 then or_total ret else
  upd_io (fun io => with_total io (io_total io + ret));;
  p ← stm_loc;
  _ ← bufop p (fun b => dpbuf_wseek b ret SEEK_CUR);
  s ← get_stm;
  if io_len (stm_io s) <=? io_total (stm_io s) then mret (io_total (stm_io s)) else
  aim_write p (Some (io_len (stm_io s) - ret));;
  want_again e DPEVT_IN;; mret DPE_WAIT.

Definition dpaio_read_must : opd := DPAIO_FUNCTION _dpaio_read_must_prep _dpaio_read_must_post.

Definition _dpaio_write_must_prep (e : dpele) : X Z :=
  ret ← sub_prep e 1;
  if negb (ret =? DPE_CONTINUE) then mret ret else
  p ← take_buf;
  s ← get_stm;
  aim_read p (Some (stm_len s));; mret ret.

Definition _dpaio_write_must_post (e : dpele) : X Z :=
  ret ← sub_post e 1;
  if ret <=? 0 then or_total ret else
  upd_io (fun io => with_total io (io_total io + ret));;
  p ← stm_loc;
  _ ← bufop p (fun b => dpbuf_rseek b ret SEEK_CUR);
  s ← get_stm;
  if io_len (stm_io s) <=? io_total (stm_io s) then mret (io_total (stm_io s)) else
  io_shift ret;; want_again e DPEVT_OUT;; mret DPE_WAIT.

Definition dpaio_write_must : opd := DPAIO_FUNCTION _dpaio_write_must_prep _dpaio_write_must_post.

(** ** Reading up to a delimiter

    [io.flag] counts the bytes already searched. *)

(** The delimiter the caller points to. *)
Definition until_bytes (s : dpaio_stm) : X (list Z) := gather (byte_ptr (stm_until s) 0) (stm_until_len s).
(** [dpbuf_cfind] from [left]. *)
Definition find_from (p : loc) (left : Z) : X Z :=
  s ← get_stm;
  pat ← until_bytes s;
  look p (fun b => dpbuf_cfind (Some b) (Some pat) (stm_until_len s) left).

Definition _dpaio_read_until_prep (e : dpele) : X Z :=
  until ← va_ptr; until_len ← va_int;
  upd_stm (fun s => with_until s until until_len);;
  if negb (bool_decide (is_Some until)) || (until_len <? 1) then mret DPE_INVAL else
  ret ← sub_prep e 0;
  if negb (ret =? DPE_CONTINUE) then mret ret else
  p ← take_buf;
  esz ← look p (fun b => mret (dpbuf_cesize b));
  found ← (if 0 <? esz then
             _ ← bufop p (fun b => dpbuf_eseek b 0 SEEK_END);
             idx ← find_from p 0;
             if 0 <=? idx then
               _ ← bufop p (fun b => dpbuf_eseek b (idx + until_len) SEEK_SET);
               mret (Some (idx + until_len))
             else
               n ← look p (fun b => mret (dpbuf_crsize b));
               upd_io (fun io => with_iflag io n);; mret None
           else upd_io (fun io => with_iflag io 0);; mret None);
  match found with
  | Some r => mret r
  | None =>
      s ← get_stm;
      ok ← bufop p (fun b => dpbuf_resizew b (batch (stm_len s)));
      if negb ok then mret DPE_NOMEM else
      aim_write p None;; mret ret
  end.

Definition _dpaio_read_until_post (e : dpele) : X Z :=
  ret ← sub_post e 0;
  if ret <=? 0 then or_total ret else
  upd_io (fun io => with_total io (io_total io + ret));;
  p ← stm_loc;
  _ ← bufop p (fun b => dpbuf_wseek b ret SEEK_CUR);
  _ ← bufop p (fun b => dpbuf_eseek b 0 SEEK_END);
  s ← get_stm;
  let left := io_flag (stm_io s) - stm_until_len s + 1 in
  let left := if left <? 0 then 0 else left in
  idx ← find_from p left;
  if 0 <=? idx then
    _ ← bufop p (fun b => dpbuf_eseek b (idx + stm_until_len s) SEEK_SET);
    mret (idx + stm_until_len s)
  else
  upd_io (fun io => with_iflag io (io_total io));;
  s ← get_stm;
  let io := stm_io s in
  if stm_len s <=? io_total io then mret DPE_CONTINUE else
  ok ← bufop p (fun b => dpbuf_resizew b (batch (stm_len s - io_total io)));
  if negb ok then or_total DPE_NOMEM else
  aim_write p None;; want_again e DPEVT_IN;; mret DPE_WAIT.

Definition dpaio_read_until : opd := DPAIO_FUNCTION _dpaio_read_until_prep _dpaio_read_until_post.

(** ** Moving an exact count of bytes in place *)

Definition data_prep (e : dpele) (idx : Z) : X Z :=
  ret ← sub_prep e idx;
  if negb (ret =? DPE_CONTINUE) then mret ret else
  upd_stm (fun s => Stm (with_total (stm_io s) 0) None (io_len (stm_io s)) (stm_until_len s) (stm_until s));;
  mret ret.

Definition data_post (e : dpele) (idx ev : Z) : X Z :=
  ret ← sub_post e idx;
  if ret <=? 0 then or_total ret else
  upd_io (fun io => with_total io (io_total io + ret));;
  s ← get_stm;
  if stm_len s <=? io_total (stm_io s) then mret (io_total (stm_io s)) else
  io_shift ret;; want_again e ev;; mret DPE_WAIT.

Definition _dpaio_read_data_prep (e : dpele) : X Z := data_prep e 0.
Definition _dpaio_read_data_post (e : dpele) : X Z := data_post e 0 DPEVT_IN.
Definition dpaio_read_data : opd := DPAIO_FUNCTION _dpaio_read_data_prep _dpaio_read_data_post.

Definition _dpaio_write_data_prep (e : dpele) : X Z := data_prep e 1.
Definition _dpaio_write_data_post (e : dpele) : X Z := data_post e 1 DPEVT_OUT.
Definition dpaio_write_data : opd := DPAIO_FUNCTION _dpaio_write_data_prep _dpaio_write_data_post.

End AscBuf.
