(* ===== verification/AscFacts.v ===== *)
(** * Streams through the descriptor operations

    A descriptor is a stream each way ([Streams]): the bytes it is still to
    deliver and the bytes it has taken.  Under the documented behaviour of the
    system calls ([StreamOk]) the loop below every operation moves a piece of the
    stream, and says how it stopped. *)

From S2P Require Import Prelude Dpret Dpbuf DpbufFacts Ele Tmrset World Aio AscIo AscBuf.

#[local] Set Default Proof Using "Type*".

(** ** The system as streams *)

Class Streams (Os : Type) := {
  inflow : Os -> Z -> list Z; (* what the descriptor is still to deliver *)
  outflow : Os -> Z -> list Z; (* what it has taken *)
}.

Section Answers.
Context {Os : Type} `{Streams Os}.

(** A call that reads at most [n] bytes, and one that is offered [bs]. *)
Definition gives (fd n : Z) (s : Os) (r : (Z + list Z) * Os) : Prop :=
  match r.1 with
  | inl e => 0 < e /\ inflow r.2 fd = inflow s fd
  | inr bs => zlen bs <= n /\ inflow s fd = bs ++ inflow r.2 fd
  end.
Definition takes (fd : Z) (bs : list Z) (s : Os) (r : (Z + Z) * Os) : Prop :=
  match r.1 with
  | inl e => 0 < e /\ outflow r.2 fd = outflow s fd
  | inr k => 0 <= k <= zlen bs /\ outflow r.2 fd = outflow s fd ++ ztake k bs
  end.
End Answers.

Class StreamOk (Os : Type) `{IoSys Os, Streams Os} : Prop := {
  read_ok fd n s : 0 < n -> gives fd n s (sys_read fd n s);
  recv_ok fd n s : 0 < n -> gives fd n s (sys_recv fd n 0 s);
  write_ok fd bs s : takes fd bs s (sys_write fd bs s);
  send_ok fd bs s : takes fd bs s (sys_send fd bs 0 s);
}.

Section AscFacts.
Context {Os : Type} `{StreamOk Os}.

Abbreviation X := (ST (ast Os)).

(** ** The states a loop goes through *)

(** [x] after calls of the system: it is in state [s], [errno] is [er], the
    bytes [bs] are at [p], and the events [inv] are used up. *)
Definition moved (x : ast Os) (s : Os) (er inv : Z) (mem : bstore) : ast Os :=
  put_out_of (Out (o_want (x_out x)) inv (o_able (x_out x)) (o_data (x_out x)))
    (put_errno_of er (put_sys_of s (put_mem_of mem x))).

Definition store_at (p : ptr) (bs l : list Z) (m : bstore) : bstore :=
  set_blks <[p_blk p := splice (p_off p) bs l]> m.

(** [n] bytes at [p] lie in the block [l]. *)
Definition room (m : bstore) (p : ptr) (n : Z) (l : list Z) : Prop :=
  st_blks m !! p_blk p = Some l /\ 0 <= p_off p /\ p_off p + n <= zlen l.

Lemma ptr_add_add p a b : ptr_add (ptr_add p a) b = ptr_add p (a + b).
Proof. unfold ptr_add. cbn. f_equal. lia. Qed.

Lemma store_at_nil m p n l : room m p n l -> store_at p [] l m = m.
Proof.
  intros (Hb & _ & _). unfold store_at, set_blks. rewrite splice_nil, insert_id by done. by destruct m.
Qed.

Lemma room_store_at m p n l q bs k :
  room m p n l -> p_blk q = p_blk p -> 0 <= p_off q -> p_off q + zlen bs <= zlen l ->
  k <= n -> room (store_at q bs l m) p k (splice (p_off q) bs l).
Proof.
  intros (Hb & Ho & Hl) Hq Hq0 Hq1 Hk. unfold room, store_at. cbn. rewrite Hq, lookup_insert_eq.
  rewrite zlen_splice by lia. split_and!; [done|lia|lia].
Qed.

Lemma store_at_twice m p a b l :
  0 <= p_off p -> p_off p + zlen a + zlen b <= zlen l ->
  store_at (ptr_add p (zlen a)) b (splice (p_off p) a l) (store_at p a l m) = store_at p (a ++ b) l m.
Proof.
  intros. unfold store_at, set_blks. cbn. by rewrite insert_insert_eq, splice_splice by lia.
Qed.

Lemma moved_moved x s er inv m s' er' inv' m' :
  moved (moved x s er inv m) s' er' inv' m' = moved x s' er' inv' m'.
Proof. done. Qed.

(** ** One call *)

Lemma wp_get_stm x s (Q : dpaio_stm -> ast Os -> Prop) : x_data x = SStm s -> Q s x -> wp get_stm x Q.
Proof. intros Hd HQ. unfold wp, get_stm. by rewrite Hd. Qed.

Lemma wp_get_arg x s (Q : dpaio_arg -> ast Os -> Prop) :
  x_data x = SStm s -> Q (stm_io s) x -> wp get_arg x Q.
Proof. intros Hd HQ. unfold get_arg. apply wp_bind. eapply wp_get_stm; [done|]. by apply wp_ret. Qed.

Lemma wp_put_stm x s s' (Q : unit -> ast Os -> Prop) :
  x_data x = SStm s -> Q tt (put_data_of (SStm s') x) -> wp (put_stm s') x Q.
Proof. intros Hd HQ. unfold put_stm. apply wp_bind. eapply wp_get_stm; [done|]. by apply wp_modify. Qed.

Lemma wp_on_mem {A} (m : ST bstore A) (x : ast Os) (Q : A -> ast Os -> Prop) :
  wp m (x_mem x) (fun a s => Q a (put_mem_of s x)) -> wp (on_mem m) x Q.
Proof. unfold wp, on_mem. by destruct (m (x_mem x)) as [[a s]|]. Qed.

Lemma wp_io_call {A} (f : Os -> (Z + A) * Os) x (Q : option A -> ast Os -> Prop) :
  (forall e, (f (x_sys x)).1 = inl e -> Q None (put_errno_of e (put_sys_of (f (x_sys x)).2 x))) ->
  (forall a, (f (x_sys x)).1 = inr a -> Q (Some a) (put_sys_of (f (x_sys x)).2 x)) ->
  wp (io_call f) x Q.
Proof.
  intros Hl Hr. unfold wp, io_call. destruct (f (x_sys x)) as [[e|a] s] eqn:E; cbn in *; auto.
Qed.

Lemma wp_lift_opt {S A} (o : option A) (s : S) a (Q : A -> S -> Prop) :
  o = Some a -> Q a s -> wp (lift_opt o) s Q.
Proof. by intros ->. Qed.

Lemma wp_inva_events v x (Q : unit -> ast Os -> Prop) :
  Q tt (moved x (x_sys x) (x_errno x) v (x_mem x)) -> wp (inva_events v) x Q.
Proof. intros HQ. apply wp_modify. by destruct x as [? [] ? ? ? ? ? ? ? ?]. Qed.

Lemma wp_inva_wanted x (Q : unit -> ast Os -> Prop) :
  Q tt (moved x (x_sys x) (x_errno x) (o_want (x_out x)) (x_mem x)) -> wp inva_wanted x Q.
Proof. intros HQ. unfold inva_wanted. apply wp_bind, wp_gets. by apply wp_inva_events. Qed.

(** ** Repeating a call

    [J k x]: the state [x] is reached once [k] bytes have been moved. *)
Section Loop.
Context (fd : Z) (iofun : Z -> dpaio_arg -> Z -> X Z) (s : dpaio_stm) (J : Z -> ast Os -> Prop).
Abbreviation len := (io_len (stm_io s)).
Context (J_data : forall k x, J k x -> x_data x = SStm s)
        (J_inva : forall k x v, J k x -> J k (moved x (x_sys x) (x_errno x) v (x_mem x))).

(** What one call does. *)
Definition call_at (k : Z) : Prop :=
  forall x, J k x -> wp (iofun fd (stm_io s) k) x (fun r x' =>
    o_want (x_out x') = o_want (x_out x) /\
    (0 <= r <= len - k /\ J (k + r) x' \/ r = -1 /\ 0 < x_errno x' /\ J k x')).
Definition call_step : Prop := forall k, 0 <= k < len -> call_at k.

(** How a loop ends: complete, or with the descriptor used up. *)
Definition stopped (want : Z) (r : Z) (x' : ast Os) : Prop :=
  exists k, 0 <= k <= len /\ J k x' /\ o_want (x_out x') = want /\
    (r = k /\ 0 < k /\ (k = len \/ o_inva (x_out x') = want)
     \/ r = DPE_EOF /\ o_inva (x_out x') = want
     \/ r < 0 /\ k = 0 /\ o_inva (x_out x') = want /\ r = - x_errno x').

Lemma wp_buf_loop fuel k x :
  call_step -> J k x -> call_at k -> 0 <= k <= len -> len - k < Z.of_nat fuel ->
  wp (buf_loop fuel fd iofun k) x (stopped (o_want (x_out x))).
Proof.
  intros Hstep. revert k x. induction fuel as [|fuel IH]; intros k x HJ Hat Hk Hf; [lia|].
  cbn [buf_loop]. apply wp_bind. eapply wp_get_arg; [by eapply J_data|].
  apply wp_bind. eapply wp_mono; [by apply Hat|]. intros r x1 [Hw Hr].
  destruct (Z.ltb_spec 0 r).
  - destruct Hr as [[Hr HJ']|[-> _]]; [|lia]. cbv zeta. apply wp_bind.
    eapply wp_get_arg; [by eapply J_data|]. destruct (Z.eqb_spec (k + r) len) as [He|He].
    + apply wp_ret. exists (k + r). split_and!; [lia|lia|done|done|left; split_and!; auto; lia].
    + eapply wp_mono; [apply IH; [done|apply Hstep; lia|lia|lia]|]. by rewrite Hw.
  - destruct (Z.eqb_spec r 0) as [->|Hne].
    + destruct Hr as [[_ HJ']|[? _]]; [|lia]. apply wp_bind, wp_inva_wanted, wp_ret.
      exists (k + 0). split_and!; [lia|lia|by apply J_inva|done|]. right. left. by rewrite <-Hw.
    + destruct Hr as [[? _]|(-> & He & HJ')]; [lia|]. apply wp_bind, wp_inva_wanted.
      apply wp_bind, wp_gets, wp_ret. exists k. split_and!; [lia|lia|by apply J_inva|done|].
      cbn. destruct (Z.ltb_spec 0 k); [left; auto|right; right]. split_and!; [lia|lia|done|done].
Qed.

Lemma wp_buf_post gio x :
  union_fd gio = fd -> call_step -> (len = 0 -> call_at 0) -> J 0 x -> 0 <= len ->
  wp (_dpaio_buf_post gio iofun) x (stopped (o_want (x_out x))).
Proof.
  intros Hfd Hstep Hz HJ Hl. unfold _dpaio_buf_post. apply wp_bind.
  eapply wp_get_arg; [by eapply J_data|]. rewrite Hfd.
  assert (call_at 0) by (destruct (Z.eq_dec len 0); [auto|apply Hstep; lia]).
  eapply wp_buf_loop; [done|done|done|lia|lia].
Qed.

End Loop.

(** ** Reading *)

Section Reading.
Context (fd : Z) (x0 : ast Os) (s : dpaio_stm) (p : ptr) (l : list Z).
Abbreviation len := (io_len (stm_io s)).
Context (Hdata : x_data x0 = SStm s) (Hptr : io_ptr (stm_io s) = Some (PBytes p))
  (Hlen : len <= INT_MAX) (Hroom : room (x_mem x0) p len l).

(** [k] bytes of the stream have been stored at [p]. *)
Definition has_read (k : Z) (x : ast Os) : Prop :=
  exists bs s' er inv, x = moved x0 s' er inv (store_at p bs l (x_mem x0)) /\
    inflow (x_sys x0) fd = bs ++ inflow s' fd /\ zlen bs = k.

Lemma has_read_data k x : has_read k x -> x_data x = SStm s.
Proof. by intros (bs & s' & er & inv & -> & _). Qed.

Lemma has_read_inva k x v : has_read k x -> has_read k (moved x (x_sys x) (x_errno x) v (x_mem x)).
Proof. intros (bs & s' & er & inv & -> & ?). by exists bs, s', er, v. Qed.

Lemma has_read_0 : has_read 0 x0.
Proof.
  exists [], (x_sys x0), (x_errno x0), (o_inva (x_out x0)).
  split_and!; [|done|done]. unfold moved. rewrite (store_at_nil _ _ len) by done.
  by destruct x0 as [? [] ? ? ? ? ? ? ? ?].
Qed.

Lemma reads_step (f : Z -> Z -> Os -> (Z + list Z) * Os) :
  (forall n s, 0 < n -> gives fd n s (f fd n s)) ->
  call_step fd (fun fd io off =>
    r ← io_call (f fd (to_u64 (io_len io - off))); fill (byte_ptr (io_ptr io) off) r) s has_read.
Proof.
  intros Hf k Hk x (bs & s1 & er & inv & -> & Hin & Hbs). destruct Hroom as (Hb & Hp0 & Hl).
  unfold INT_MAX in *. replace (to_u64 (len - k)) with (len - k)
    by (unfold to_u64; rewrite Z.mod_small; lia).
  specialize (Hf (len - k) s1 ltac:(lia)). unfold gives in Hf. apply wp_bind. apply wp_io_call; cbn.
  - intros e He. rewrite He in Hf. destruct Hf as [He0 Hf]. apply wp_ret. split; [done|]. right.
    split_and!; [done|done|]. exists bs, (f fd (len - k) s1).2, e, inv. split_and!; [done|by rewrite Hf|done].
  - intros cs Hcs. rewrite Hcs in Hf. destruct Hf as [Hn Hf]. destruct cs as [|c cs].
    + apply wp_ret. split; [done|]. left. rewrite zlen_nil in Hn. split; [lia|]. rewrite Z.add_0_r.
      exists bs, (f fd (len - k) s1).2, er, inv. split_and!; [done|by rewrite Hin, Hf|done].
    + unfold fill. set (d := c :: cs) in *. apply wp_bind.
      eapply wp_lift_opt; [rewrite Hptr; done|]. apply wp_bind, wp_on_mem.
      pose proof (zlen_nonneg bs). eapply wp_store_bytes; cbn.
      * unfold store_at. cbn. by rewrite lookup_insert_eq.
      * lia.
      * rewrite zlen_splice by lia. lia.
      * apply wp_ret. split; [done|]. left. split; [pose proof (zlen_nonneg d); lia|].
        exists (bs ++ d), (f fd (len - k) s1).2, er, inv. split_and!.
        -- unfold moved. cbn. rewrite <-(store_at_twice (x_mem x0) p bs d l) by lia.
           unfold store_at. cbn. by rewrite Hbs.
        -- by rewrite Hin, Hf, app_assoc.
        -- rewrite zlen_app. lia.
Qed.

End Reading.

(** ** Writing *)

Section Writing.
Context (fd : Z) (x0 : ast Os) (s : dpaio_stm) (p : ptr) (l : list Z).
Abbreviation len := (io_len (stm_io s)).
Context (Hdata : x_data x0 = SStm s) (Hptr : io_ptr (stm_io s) = Some (PBytes p))
  (Hroom : room (x_mem x0) p len l).

(** The first [k] bytes at [p] have been taken. *)
Definition has_written (k : Z) (x : ast Os) : Prop :=
  exists s' er inv, x = moved x0 s' er inv (x_mem x0) /\
    outflow s' fd = outflow (x_sys x0) fd ++ slice (p_off p) k l.

Lemma has_written_data k x : has_written k x -> x_data x = SStm s.
Proof. by intros (s' & er & inv & -> & _). Qed.

Lemma has_written_inva k x v : has_written k x -> has_written k (moved x (x_sys x) (x_errno x) v (x_mem x)).
Proof. intros (s' & er & inv & -> & ?). by exists s', er, v. Qed.

Lemma has_written_0 : has_written 0 x0.
Proof.
  exists (x_sys x0), (x_errno x0), (o_inva (x_out x0)). rewrite slice_0_n, app_nil_r.
  split; [|done]. by destruct x0 as [? [] ? ? ? ? ? ? ? ?].
Qed.

Lemma writes_at (f : Z -> list Z -> Os -> (Z + Z) * Os) k :
  (forall bs s, takes fd bs s (f fd bs s)) -> 0 <= k <= len ->
  call_at fd (fun fd io off =>
    bs ← gather (byte_ptr (io_ptr io) off) (io_len io - off);
    r ← io_call (f fd bs); mret (default (-1) r)) s has_written k.
Proof.
  intros Hf Hk x (s1 & er & inv & -> & Hout). destruct Hroom as (Hb & Hp0 & Hl).
  apply wp_bind. unfold gather. apply wp_bind. eapply wp_lift_opt; [rewrite Hptr; done|].
  apply wp_on_mem. eapply wp_load_bytes; cbn; [done|lia..|].
  set (bs := slice (p_off p + k) (len - k) l). specialize (Hf bs s1). unfold takes in Hf.
  assert (Hbs : zlen bs = len - k) by (apply zlen_slice; lia).
  apply wp_bind. apply wp_io_call; cbn.
  - intros e He. rewrite He in Hf. destruct Hf as [He0 Hf]. apply wp_ret. split; [done|]. right. cbn.
    split_and!; [done|done|]. exists (f fd bs s1).2, e, inv. by rewrite Hf.
  - intros c Hc. rewrite Hc in Hf. destruct Hf as [Hn Hf]. apply wp_ret. split; [done|]. left. cbn.
    split; [lia|]. exists (f fd bs s1).2, er, inv. split; [done|].
    rewrite Hf, Hout, <-app_assoc, slice_split by lia. do 2 f_equal.
    unfold bs, slice. rewrite ztake_ztake. f_equal. lia.
Qed.

End Writing.

(** ** The operation below *)

(** A plain descriptor or a socket, for which the operation below uses no
    flags. *)
Definition plain (e : dpele) (flag : Z) : Prop :=
  ty_iotype (e_type e) = DPAIO_TYPE_GFD \/ ty_iotype (e_type e) = DPAIO_TYPE_SKT /\ flag = 0.

Lemma wp_sub_read e x s p l :
  x_data x = SStm s -> plain e (io_flag (stm_io s)) -> io_ptr (stm_io s) = Some (PBytes p) ->
  0 < io_len (stm_io s) <= INT_MAX -> room (x_mem x) p (io_len (stm_io s)) l ->
  wp (sub_post e 0) x (stopped s (has_read (union_fd e) x p l) (o_want (x_out x))).
Proof.
  intros Hd He Hp [Hl0 Hlen] Hroom. unfold sub_post, _dpaio_get_asc. destruct He as [->|[-> Hflag]];
    [change (wp (_dpaio_buf_post e _dpaio_read) x (stopped s (has_read (union_fd e) x p l) (o_want (x_out x))))
    |change (wp (_dpaio_buf_post e _dpaio_recv) x (stopped s (has_read (union_fd e) x p l) (o_want (x_out x))))];
    (eapply wp_buf_post; [by eapply has_read_data|by eapply has_read_inva|done| |lia|by eapply has_read_0|lia]).
  - eapply reads_step; [done..|]. apply read_ok.
  - intros k Hk x1 HJ. unfold _dpaio_recv. rewrite Hflag.
    eapply (reads_step _ _ _ _ _ Hd Hp Hlen Hroom (fun fd n => sys_recv fd n 0)); [|done|done].
    intros. by apply recv_ok.
Qed.

(** Nothing to write is a call all the same. *)
Lemma wp_sub_write e x s p l :
  x_data x = SStm s -> plain e (io_flag (stm_io s)) -> io_ptr (stm_io s) = Some (PBytes p) ->
  0 <= io_len (stm_io s) -> room (x_mem x) p (io_len (stm_io s)) l ->
  wp (sub_post e 1) x (stopped s (has_written (union_fd e) x p l) (o_want (x_out x))).
Proof.
  intros Hd He Hp Hlen Hroom. unfold sub_post, _dpaio_get_asc. destruct He as [->|[-> Hflag]];
    [change (wp (_dpaio_buf_post e _dpaio_write) x (stopped s (has_written (union_fd e) x p l) (o_want (x_out x))))
    |change (wp (_dpaio_buf_post e _dpaio_send) x (stopped s (has_written (union_fd e) x p l) (o_want (x_out x))))].
  - assert (Hat : forall k, 0 <= k <= io_len (stm_io s) ->
      call_at (union_fd e) _dpaio_write s (has_written (union_fd e) x p l) k)
      by (intros k Hk; eapply writes_at; [done..|apply write_ok|done]).
    eapply wp_buf_post; [by eapply has_written_data|by eapply has_written_inva|done|
      intros k Hk; apply Hat; lia|intros _; apply Hat; lia|by eapply has_written_0|done].
  - assert (Hat : forall k, 0 <= k <= io_len (stm_io s) ->
      call_at (union_fd e) _dpaio_send s (has_written (union_fd e) x p l) k).
    { intros k Hk x1 HJ. unfold _dpaio_send. rewrite Hflag.
      eapply (writes_at _ _ _ _ _ Hd Hp Hroom (fun fd bs => sys_send fd bs 0)); [|done|done].
      intros. by apply send_ok. }
    eapply wp_buf_post; [by eapply has_written_data|by eapply has_written_inva|done|
      intros k Hk; apply Hat; lia|intros _; apply Hat; lia|by eapply has_written_0|done].
Qed.

End AscFacts.

(** ** Examples

    A descriptor whose input arrives in pieces, with nothing to read after each
    (an empty piece: nothing to read once more), and which takes at most the given
    counts. *)

Record script := Script { rx : list (list Z); tx : list Z; caps : list Z }.
Definition EAGAIN : Z := 11.

Definition script_read (fd n : Z) (s : script) : (Z + list Z) * script :=
  match rx s with
  | [] => (inr [], s)
  | [] :: cs => (inl EAGAIN, Script cs (tx s) (caps s))
  | c :: cs => (inr (ztake n c), Script (zdrop n c :: cs) (tx s) (caps s))
  end.
Definition script_write (fd : Z) (bs : list Z) (s : script) : (Z + Z) * script :=
  match caps s with
  | [] => (inr (zlen bs), Script (rx s) (tx s ++ bs) [])
  | c :: cs =>
      if c <=? 0 then (inl EAGAIN, Script (rx s) (tx s) cs)
      else (inr (_imin c (zlen bs)), Script (rx s) (tx s ++ ztake (_imin c (zlen bs)) bs) cs)
  end.

(** With the given ways to read, to receive and to answer control calls. *)
Definition script_with (rd : Z -> Z -> script -> (Z + list Z) * script)
    (rv : Z -> Z -> Z -> script -> (Z + list Z) * script) (cl : syscall -> Z) : IoSys script := {|
  sys_read := rd;
  sys_write := script_write;
  sys_recv := rv;
  sys_send fd bs _ := script_write fd bs;
  sys_readv := rd;
  sys_writev := script_write;
  sys_recvmsg fd n m _ s := (inl EAGAIN, s);
  sys_sendmsg fd bs m _ s := (inl EAGAIN, s);
  sys_accept fd s := (inl EAGAIN, s);
  sys_connect fd a s := (inl EINPROGRESS, s);
  sys_call c s := (inr (cl c), s);
|}.

#[export] Instance script_sys : IoSys script :=
  script_with script_read (fun fd n _ => script_read fd n) (fun _ => 0).

#[export] Instance script_streams : Streams script := {|
  inflow s _ := concat (rx s);
  outflow s _ := tx s;
|}.

#[export] Instance script_ok : StreamOk script.
Proof.
  assert (Hr : forall fd n s, 0 < n -> gives fd n s (script_read fd n s)).
  { intros fd n [[|[|c cs] rx] tx caps] Hn; unfold gives; cbn; split; try done.
    - rewrite zlen_nil. lia.
    - rewrite zlen_ztake. pose proof (zlen_nonneg (c :: cs)). lia.
    - by rewrite app_assoc, ztake_zdrop. }
  assert (Hw : forall fd bs s, takes fd bs s (script_write fd bs s)).
  { intros fd bs [rx tx [|c caps]]; unfold takes, script_write; cbn; pose proof (zlen_nonneg bs).
    - by rewrite ztake_all by lia.
    - unfold _imin. destruct (Z.leb_spec c 0); cbn; [done|].
      destruct (Z.ltb_spec c (zlen bs)); (split; [lia|done]). }
  by split.
Qed.

(** Buffer number 1 is at address 4096, an empty block of 16 bytes. *)
Definition ex_mem : bstore :=
  BStore ∅ ∅ {[ 1%positive := replicate 16 0 ]} 4 [] (fun _ => 0).
Definition ex_ast (s : script) : ast script :=
  Ast SNull (Out 0 0 0 true) [] {[ 4096 := PBytes (Ptr 1 0) ]} ex_mem ∅ ∅ ∅ 0 s.
(** A plain descriptor and a socket. *)
Definition ex_gfd : dpele := set_fd (zero_ele dpefd_init_type) 3.
Definition ex_skt : dpele := set_fd (zero_ele (EleType 5 DPELE_TYPE_EFD 0 DPAIO_TYPE_SKT DPEVT_AIO)) 3.
