(* ===== verification/AscRun.v ===== *)
(** * Whole operations on a stream

    An operation is started, and its [post] is called again whenever its
    descriptor may be ready, until it has a result.  Meanwhile the system goes on;
    it changes neither what the descriptor is still to deliver nor what it has
    taken. *)

From S2P Require Import Prelude Dpret Dpbuf DpbufFacts Ele Tmrset World Aio AscIo AscBuf AscFacts.

#[local] Set Default Proof Using "Type*".

Section Run.
Context {Os : Type} `{IoSys Os}.
Abbreviation X := (ST (ast Os)).

(** [envs] is what the system does between the calls; when it runs out the
    operation is still waiting. *)
Fixpoint drive (post : X Z) (envs : list (Os -> Os)) : X Z :=
  r ← post;
  if negb (r =? DPE_WAIT) then mret r else
  match envs with
  | [] => mret r
  | f :: envs => modify (fun x => put_sys_of (f (x_sys x)) x);; inva_events 0;; drive post envs
  end.

Definition run_op (op : opdesc Os) (e : dpele) (args : list Z) (envs : list (Os -> Os)) : X Z :=
  modify (put_args_of args);;
  modify (put_data_of (op_data op));;
  r ← op_prep op e;
  if negb (r =? DPE_CONTINUE) then mret r else
  match op_post op with Some post => drive (post e) envs | None => mret r end.
End Run.

(** The system leaves the descriptor's streams alone. *)
Definition quiet {Os} `{Streams Os} (fd : Z) (f : Os -> Os) : Prop :=
  forall s, inflow (f s) fd = inflow s fd /\ outflow (f s) fd = outflow s fd.

Section RunFacts.
Context {Os : Type} `{StreamOk Os}.
Abbreviation X := (ST (ast Os)).

(** What a [post] keeps while it waits, and what it has done when it is over. *)
Definition keeps (post : X Z) (I : ast Os -> Prop) (Q : Z -> ast Os -> Prop) : Prop :=
  forall x, I x -> wp post x (fun r x' => r = DPE_WAIT /\ I x' \/ r <> DPE_WAIT /\ Q r x').

Lemma wp_drive (post : X Z) (I : ast Os -> Prop) (Q : Z -> ast Os -> Prop) fd envs x :
  keeps post I Q ->
  (forall f x, quiet fd f -> I x -> I (put_sys_of (f (x_sys x)) x)) ->
  (forall x, I x -> I (moved x (x_sys x) (x_errno x) 0 (x_mem x))) ->
  Forall (quiet fd) envs -> I x ->
  wp (drive post envs) x (fun r x' => r = DPE_WAIT /\ I x' \/ r <> DPE_WAIT /\ Q r x').
Proof.
  intros Hpost Hsys Hinva Henvs. revert x. induction Henvs as [|f envs Hf _ IH]; intros x HI.
  all: cbn; apply wp_bind; eapply wp_mono; [by apply Hpost|]; intros r x1 [[-> HI1]|[Hr HQ]].
  - apply wp_ret. auto.
  - replace (r =? DPE_WAIT) with false by lia. apply wp_ret. auto.
  - apply wp_bind, wp_modify. apply wp_bind, wp_inva_events. apply IH.
    apply (Hinva (put_sys_of (f (x_sys x1)) x1)). auto.
  - replace (r =? DPE_WAIT) with false by lia. apply wp_ret. auto.
Qed.

Lemma wp_upd_stm x s f (Q : unit -> ast Os -> Prop) :
  x_data x = SStm s -> Q tt (put_data_of (SStm (f s)) x) -> wp (upd_stm f) x Q.
Proof. intros Hd HQ. unfold upd_stm. apply wp_bind. eapply wp_get_stm; [done|]. by eapply wp_put_stm. Qed.

Lemma wp_upd_io x s f (Q : unit -> ast Os -> Prop) :
  x_data x = SStm s -> Q tt (put_data_of (SStm (with_io s (f (stm_io s)))) x) -> wp (upd_io f) x Q.
Proof. intros Hd HQ. unfold upd_io. by eapply wp_upd_stm. Qed.

Lemma wp_or_total x s r (Q : Z -> ast Os -> Prop) :
  x_data x = SStm s -> Q (if 0 <? io_total (stm_io s) then io_total (stm_io s) else r) x ->
  wp (or_total r) x Q.
Proof. intros Hd HQ. unfold or_total. apply wp_bind. eapply wp_get_stm; [done|]. by apply wp_ret. Qed.

Lemma wp_want_again e v x (Q : unit -> ast Os -> Prop) :
  (forall w, w = v \/ w = o_want (x_out x) ->
     Q tt (put_out_of (Out w (o_inva (x_out x)) (o_able (x_out x)) (o_data (x_out x))) x)) ->
  wp (want_again e v) x Q.
Proof.
  intros HQ. unfold want_again. destruct (ele_is _ _); [apply wp_modify; by apply HQ; left|].
  apply wp_ret. specialize (HQ _ (or_intror eq_refl)). by destruct x as [? [] ? ? ? ? ? ? ? ?].
Qed.

(** ** The arguments of a read or a write *)

Lemma wp_va_int x a args (Q : Z -> ast Os -> Prop) :
  x_args x = a :: args -> Q a (put_args_of args x) -> wp va_int x Q.
Proof. intros Ha HQ. unfold wp, va_int. by rewrite Ha. Qed.

Lemma wp_va_ptr x a u args (Q : option uptr -> ast Os -> Prop) :
  x_args x = a :: args -> a <> 0 -> x_addr x !! a = Some u -> Q (Some u) (put_args_of args x) ->
  wp va_ptr x Q.
Proof.
  intros Ha Ha0 Hu HQ. unfold va_ptr. apply wp_bind. eapply wp_va_int; [done|].
  replace (a =? 0) with false by lia. apply wp_bind. unfold wp, at_addr. cbn. by rewrite Hu.
Qed.

Lemma wp_buf_len_prep ev x s a u n args (Q : Z -> ast Os -> Prop) :
  x_data x = SStm s -> x_args x = a :: n :: args -> a <> 0 -> x_addr x !! a = Some u -> 0 < n ->
  Q DPE_CONTINUE (put_data_of (SStm (with_io s (IoArg (Some u) n 0 (io_total (stm_io s)) (io_fd2 (stm_io s)))))
    (put_args_of args (put_out_of (Out ev 0 (o_able (x_out x)) (o_data (x_out x))) x))) ->
  wp (buf_len_prep ev (mret 0)) x Q.
Proof.
  intros Hd Ha Ha0 Hu Hn HQ. unfold buf_len_prep, want_events, inva_events.
  apply wp_bind, wp_modify, wp_bind, wp_modify. apply wp_bind. eapply wp_get_arg; [done|].
  apply wp_bind. eapply wp_va_ptr; [done|done|done|]. apply wp_bind. eapply wp_va_int; [done|].
  apply wp_bind, wp_ret. apply wp_bind. unfold put_arg. apply wp_bind. eapply wp_get_stm; [done|].
  eapply wp_put_stm; [done|]. replace (n <=? 0) with false by lia. cbn. apply wp_ret.
  by destruct x as [? [] ? ? ? ? ? ? ? ?].
Qed.

Lemma wp_sub_prep idx ev e x s a u n args (Q : Z -> ast Os -> Prop) :
  plain e 0 -> idx = 0 /\ ev = DPEVT_IN \/ idx = 1 /\ ev = DPEVT_OUT ->
  x_data x = SStm s -> x_args x = a :: n :: args -> a <> 0 -> x_addr x !! a = Some u -> 0 < n ->
  Q DPE_CONTINUE (put_data_of (SStm (with_io s (IoArg (Some u) n 0 (io_total (stm_io s)) (io_fd2 (stm_io s)))))
    (put_args_of args (put_out_of (Out ev 0 (o_able (x_out x)) (o_data (x_out x))) x))) ->
  wp (sub_prep e idx) x Q.
Proof.
  intros He Hi Hd Ha Ha0 Hu Hn HQ. unfold sub_prep, _dpaio_get_asc.
  assert (Hp : wp (buf_len_prep ev (mret 0)) x Q) by by eapply wp_buf_len_prep.
  destruct He as [->|[-> _]], Hi as [[-> ->]|[-> ->]]; exact Hp.
Qed.

(** ** An exact count of bytes read in place *)

Section ReadData.
Context (e : dpele) (x0 : ast Os) (p : ptr) (l : list Z) (len : Z).
Context (He : plain e 0) (Hlen : len <= INT_MAX) (Hroom : room (x_mem x0) p len l).
Abbreviation fd := (union_fd e).

(** [bs] has been read: it is at [p], and nothing else of the block changed. *)
Definition got (bs : list Z) (x : ast Os) : Prop :=
  x_mem x = store_at p bs l (x_mem x0) /\ inflow (x_sys x0) fd = bs ++ inflow (x_sys x) fd.

Definition reading (k : Z) (x : ast Os) : Prop :=
  exists bs, got bs x /\ zlen bs = k /\ k < len /\ 0 < o_want (x_out x) /\ exists f2 ul u,
    x_data x = SStm (Stm (IoArg (Some (PBytes (ptr_add p k))) (len - k) 0 k f2) None len ul u).

(** Over: [r] bytes are reported.  More may have been read, and are then at [p]
    too, only when the stream ended. *)
Definition read_result (r : Z) (x : ast Os) : Prop :=
  exists bs, got bs x /\ zlen bs <= len /\ (0 <= r -> r <= zlen bs) /\
    (r = len -> zlen bs = len) /\ (r < 0 \/ 0 < r).

Lemma read_data_step k x :
  reading k x -> wp (_dpaio_read_data_post e) x (fun r x' =>
    r = DPE_WAIT /\ (exists k', k <= k' /\ reading k' x' /\ (k' = k -> o_inva (x_out x') = o_want (x_out x)))
    \/ r <> DPE_WAIT /\ read_result r x').
Proof.
  intros (bs & [Hm Hin] & Hbs & Hk & Hwant & f2 & ul & u & Hd). destruct Hroom as (Hb & Hp0 & Hl).
  pose proof (zlen_nonneg bs). assert (Hr2 : room (x_mem x) (ptr_add p k) (len - k) (splice (p_off p) bs l)).
  { rewrite Hm. unfold room, store_at. cbn. rewrite lookup_insert_eq, zlen_splice by lia. split_and!; [done|lia..]. }
  unfold _dpaio_read_data_post, data_post. apply wp_bind. eapply wp_mono.
  { eapply wp_sub_read; [done| |done| |done]; [destruct He as [|[]]; [by left|by right]|cbn; lia]. }
  intros r x1 (k2 & Hk2 & (cs & s1 & er & inv & -> & Hin2 & Hcs) & Hw & Hout). cbn [stm_io io_len] in *.
  assert (Hgot : got (bs ++ cs) (moved x s1 er inv (store_at (ptr_add p k) cs (splice (p_off p) bs l) (x_mem x)))).
  { split; cbn; [|by rewrite Hin, Hin2, app_assoc].
    rewrite Hm, <-Hbs. apply store_at_twice; lia. }
  assert (Hz : zlen (bs ++ cs) = k + k2) by (rewrite zlen_app; lia). clear Hm Hin Hin2.
  destruct Hout as [(-> & Hr & Hfull)|Hstop].
  - replace (k2 <=? 0) with false by lia. apply wp_bind. eapply wp_upd_io; [done|].
    apply wp_bind. eapply wp_get_stm; [done|]. cbn.
    destruct (Z.leb_spec len (k + k2)) as [Hge|Hlt].
    + apply wp_ret. right. split; [unfold DPE_WAIT; lia|]. exists (bs ++ cs). split; [exact Hgot|].
      split_and!; lia.
    + apply wp_bind. eapply wp_upd_io; [done|]. apply wp_bind, wp_want_again. intros w Hww. apply wp_ret.
      left. split; [done|]. exists (k + k2). split; [lia|]. split; [|lia].
      exists (bs ++ cs). split; [exact Hgot|]. split_and!; [done|done| |].
      * cbn in *. destruct Hww as [->| ->]; [done|]. lia.
      * exists f2, ul, u. cbn. by rewrite ptr_add_add, Z.sub_add_distr.
  - assert (Hr : r <= 0) by (destruct Hstop as [[-> _]|[? _]]; [done|lia]).
    replace (r <=? 0) with true by lia. eapply wp_or_total; [done|]. cbn.
    destruct (Z.ltb_spec 0 k) as [Hk0|Hk0].
    + right. split; [unfold DPE_WAIT; lia|]. exists (bs ++ cs). split; [exact Hgot|]. split_and!; lia.
    + destruct (Z.eq_dec r DPE_WAIT) as [->|Hne].
      * left. split; [done|]. destruct Hstop as [[? _]|(_ & -> & Hinv & _)]; [done|]. exists k. split; [lia|].
        split; [|by intros _]. exists (bs ++ cs). split; [exact Hgot|]. cbn in *. split_and!; [lia|done|lia|].
        exists f2, ul, u. done.
      * right. split; [done|]. exists (bs ++ cs). split; [exact Hgot|].
        assert (r <> 0) by (destruct Hstop as [[-> _]|[? _]]; [done|lia]). split_and!; lia.
Qed.

Lemma read_data_keeps :
  keeps (_dpaio_read_data_post e) (fun x => exists k, reading k x) read_result.
Proof.
  intros x [k Hk]. eapply wp_mono; [by apply read_data_step|]. cbv beta.
  intros r x' [(-> & k' & _ & Hk' & _)|[Hr Hres]]; [left; eauto|by right].
Qed.

End ReadData.

(** C14. [dpaio_read_data] is defined whatever the system answers and however
    often the descriptor turns out not to be ready; a positive result is at most
    the length asked for, that many bytes from the front of the stream are at
    the start of the caller's buffer, and the rest of its block is untouched.  A
    full result is exactly the front of the stream. *)
Theorem dpaio_read_data_stream e x p l a len args envs
    (He : plain e 0) (Ha : a <> 0) (Hp : x_addr x !! a = Some (PBytes p)) (Hlen : 0 < len <= INT_MAX)
    (Hroom : room (x_mem x) p len l) (Henvs : Forall (quiet (union_fd e)) envs) :
  wp (run_op dpaio_read_data e (a :: len :: args) envs) x (fun r x' =>
    exists bs, inflow (x_sys x) (union_fd e) = bs ++ inflow (x_sys x') (union_fd e) /\
      x_mem x' = store_at p bs l (x_mem x) /\ zlen bs <= len /\
      (0 <= r -> 0 < r <= zlen bs) /\ (r = len -> zlen bs = len)).
Proof.
  unfold run_op. apply wp_bind, wp_modify, wp_bind, wp_modify. cbn [op_prep op_data op_post dpaio_read_data DPAIO_FUNCTION].
  apply wp_bind. unfold _dpaio_read_data_prep, data_prep. apply wp_bind.
  eapply (wp_sub_prep 0 DPEVT_IN); [done|by left|done|done|done|done|lia|]. cbn.
  apply wp_bind. eapply wp_upd_stm; [done|]. apply wp_ret. cbn.
  set (x1 := put_data_of _ _). assert (Hm1 : x_mem x1 = x_mem x) by done.
  eapply wp_mono; [eapply (wp_drive _ (fun y => exists k, reading e x1 p l len k y) _ (union_fd e))|].
  - apply read_data_keeps; [done|lia|by rewrite Hm1].
  - intros f y Hf [k (bs & [Hm Hin] & Hbs & Hk)]. exists k, bs. split; [|done]. split; [done|].
    cbn. by rewrite (proj1 (Hf _)).
  - intros y [k (bs & Hg & Hbs & Hk)]. exists k, bs. by destruct y as [? [] ? ? ? ? ? ? ? ?].
  - done.
  - exists 0, []. split; [split; [cbn; symmetry; by eapply store_at_nil|done]|].
    split_and!; [done|lia|done|]. exists 0, 0, None. cbn. rewrite Z.sub_0_r.
    by replace (ptr_add p 0) with p by (destruct p; unfold ptr_add; cbn; f_equal; lia).
  - cbv beta. intros r y [[-> [k (bs & [Hm Hin] & Hbs & Hk & _)]]|[_ (bs & [Hm Hin] & Hbs & Hr & Hf & Hs)]];
      exists bs; (split; [exact Hin|]); (split; [exact Hm|]); unfold DPE_WAIT in *; split_and!; lia.
Qed.

End RunFacts.

(** The six bytes come in two pieces, with a wait between them. *)
Definition ex_pieces : ast script := ex_ast (Script [[1; 2]; [3; 4; 5; 6; 7]] [] []).

Lemma dpaio_read_data_stream_witness :
  wp (run_op dpaio_read_data ex_gfd [4096; 6] [(fun s => s)]) ex_pieces (fun r x' =>
    exists bs, inflow (x_sys ex_pieces) (union_fd ex_gfd) = bs ++ inflow (x_sys x') (union_fd ex_gfd) /\
      x_mem x' = store_at (Ptr 1 0) bs (replicate 16 0) (x_mem ex_pieces) /\ zlen bs <= 6 /\
      (0 <= r -> 0 < r <= zlen bs) /\ (r = 6 -> zlen bs = 6)).
Proof.
  eapply (dpaio_read_data_stream ex_gfd ex_pieces (Ptr 1 0) (replicate 16 0) 4096 6 []);
    [by left|done|done|unfold INT_MAX; lia|split_and!; cbn; done|repeat constructor].
Defined.

Example read_data_whole : fst <$> run_op dpaio_read_data ex_gfd [4096; 6] [(fun s => s)] ex_pieces = Some 6.
Proof. vm_compute. reflexivity. Qed.

(** Called once more with nothing to read, it reports the two bytes it has as if
    they were the result. *)
Example read_data_spurious : fst <$> run_op dpaio_read_data ex_gfd [4096; 6] [(fun s => s); (fun s => s)]
  (ex_ast (Script [[1; 2]; []; [3; 4; 5; 6; 7]] [] [])) = Some 2.
Proof. vm_compute. reflexivity. Qed.

(** The bytes read before the end of the stream are not counted: [read] asked for
    six takes the two there are, and reports the end. *)
Definition eof_sys : IoSys script :=
  script_with (fun fd n s => (inr (ztake n (concat (rx s))), Script [zdrop n (concat (rx s))] (tx s) (caps s)))
    (fun fd n _ => script_read fd n) (fun _ => 0).

Example read_eof_loses :
  (fun r => (r.1, inflow (x_sys r.2) 3)) <$>
    run_op (@dpgfd_read script eof_sys) ex_gfd [4096; 6] [] (ex_ast (Script [[1; 2]] [] [])) = Some (DPE_EOF, []).
Proof. vm_compute. reflexivity. Qed.
