(* ===== verification/AscWrite.v ===== *)
(** * Writing a buffer to a stream

    [dpaio_write_some] sends the readable window of a [dpbuf]: a positive result
    says exactly which bytes the descriptor took, and they have left the window. *)

From S2P Require Import Prelude Dpret Dpbuf DpbufFacts Ele Tmrset World Aio AscIo AscBuf AscFacts AscRun.

#[local] Set Default Proof Using "Type*".

(** ** Buffers seen from an operation *)

Lemma hdr_set_bufs f s q d bs : hdr s q d bs -> hdr (set_bufs f s) q d bs.
Proof. intros []. by split. Qed.

Lemma own_set_bufs f s b q d bs : own s b q d bs -> own (set_bufs f s) b q d bs.
Proof. intros []. split; auto using hdr_set_bufs. Qed.

#[export] Hint Resolve hdr_set_bufs own_set_bufs : dpbuf.

(** The struct at [pb] is [b], which owns its storage. *)
Record buf_at (m : bstore) (pb : loc) (b : dpbuf) (q : loc) (d : dpbuf_data) (bs : list Z) : Prop := {
  ba_buf : st_bufs m !! pb = Some b;
  ba_own : own m b q d bs;
}.

Section Bufs.
Context {Os : Type} `{StreamOk Os}.

Lemma wp_look {A} (x : ast Os) pb b (f : dpbuf -> ST bstore A) (Q : A -> ast Os -> Prop) :
  st_bufs (x_mem x) !! pb = Some b -> wp (f b) (x_mem x) (fun a m => Q a (put_mem_of m x)) ->
  wp (look pb f) x Q.
Proof. intros Hb HQ. unfold look. apply wp_on_mem. apply wp_bind. by eapply wp_get_buf. Qed.

Lemma wp_bufop {A} (x : ast Os) pb b (f : dpbuf -> ST bstore (A * dpbuf)) (Q : A -> ast Os -> Prop) :
  st_bufs (x_mem x) !! pb = Some b ->
  wp (f b) (x_mem x) (fun r m => st_bufs m = st_bufs (x_mem x) /\ Q r.1 (put_mem_of (set_bufs <[pb := r.2]> m) x)) ->
  wp (bufop pb f) x Q.
Proof.
  intros Hb HQ. unfold bufop, on_buf. apply wp_on_mem. apply wp_bind. eapply wp_get_buf; [done|].
  apply wp_bind. eapply wp_mono; [exact HQ|]. intros [a b'] m [Hm HQ']. cbn in *.
  apply wp_bind. eapply wp_put_buf; [by rewrite Hm|]. by apply wp_ret.
Qed.

(** An operation on the cursors alone. *)
Lemma wp_bufop_cur {A} (x : ast Os) pb b (f : dpbuf -> ST bstore (A * dpbuf)) a b' (Q : A -> ast Os -> Prop) :
  st_bufs (x_mem x) !! pb = Some b -> f b (x_mem x) = Some ((a, b'), x_mem x) ->
  Q a (put_mem_of (set_bufs <[pb := b']> (x_mem x)) x) -> wp (bufop pb f) x Q.
Proof. intros Hb Hf HQ. eapply wp_bufop; [done|]. unfold wp. by rewrite Hf. Qed.

Lemma wp_cur_data s b q d bs i (Q : ptr -> bstore -> Prop) :
  own s b q d bs -> Q (ptr_add (d_data d) i) s ->
  wp (d ← get_data (b_data b); mret (ptr_add (d_data d) i)) s Q.
Proof.
  intros Ho HQ. rewrite (own_data _ _ _ _ _ Ho). apply wp_bind.
  eapply wp_get_data; [eapply hdr_get, own_hdr; done|]. by apply wp_ret.
Qed.
End Bufs.

Lemma own_bounds s b q d bs : own s b q d bs ->
  0 <= b_rbeg b <= b_rend b /\ b_rend b <= b_wbeg b <= b_size b /\ b_size b < zlen bs <= INT_MAX.
Proof.
  intros [Hd Hh Hc Hm Hr]. unfold cursors_ok in Hc. pose proof (hdr_max _ _ _ _ Hh). lia.
Qed.

(** Consuming [k] bytes of the readable window. *)
Definition consumed (b : dpbuf) (k : Z) : dpbuf := with_rbeg b (b_rbeg b + k).

Lemma own_consumed s b q d bs k : own s b q d bs -> 0 <= k <= dpbuf_crsize b -> own s (consumed b k) q d bs.
Proof.
  intros [Hd Hh Hc Hm Hr] Hk. unfold cursors_ok, dpbuf_crsize in *. split; cbn; auto. unfold cursors_ok. cbn. lia.
Qed.

Lemma rd_consumed b bs k : 0 <= b_rbeg b -> 0 <= k -> rd (consumed b k) bs = zdrop k (rd b bs).
Proof.
  intros. unfold rd, dpbuf_crsize, slice. cbn. rewrite zdrop_ztake, zdrop_zdrop by lia. f_equal. lia.
Qed.

Lemma rseek_consumed s b q d bs k r m :
  own s b q d bs -> 0 <= k -> 0 <= r -> k + r <= dpbuf_crsize b ->
  dpbuf_rseek (consumed b k) r SEEK_CUR m = Some ((r, consumed b (k + r)), m).
Proof.
  intros Ho ???. pose proof (own_bounds _ _ _ _ _ Ho). unfold dpbuf_crsize, INT_MAX in *.
  unfold dpbuf_rseek, consumed, mbind, ST_bind, lift_opt. cbn. unfold with_rbeg, with_cur. cbn.
  rewrite int_val_id by (unfold is_i32, INT_MIN, INT_MAX; lia). unfold mret, ST_ret. cbn.
  assert (_iclamp (b_rbeg b + k + r) 0 (b_rend b) = b_rbeg b + (k + r)) as ->
    by (unfold _iclamp; repeat case_match; lia).
  do 3 f_equal. lia.
Qed.

Section WriteSome.
Context {Os : Type} `{StreamOk Os}.
Context (e : dpele) (x0 : ast Os) (pb : loc) (b : dpbuf) (q : loc) (d : dpbuf_data) (bs : list Z) (min : Z).
Context (He : plain e 0) (Hb : buf_at (x_mem x0) pb b q d bs).
Abbreviation fd := (union_fd e).

(** [n] bytes of the window have been taken, and [k] of them have left it. *)
Definition sent (n k : Z) (x : ast Os) : Prop :=
  x_mem x = set_bufs <[pb := consumed b k]> (x_mem x0) /\ 0 <= k <= n /\ n <= dpbuf_crsize b /\
  outflow (x_sys x) fd = outflow (x_sys x0) fd ++ ztake n (rd b bs).

Definition writing (k : Z) (x : ast Os) : Prop :=
  sent k k x /\ k < min /\ 0 < o_want (x_out x) /\ exists f2 ul u,
    x_data x = SStm (Stm (IoArg (Some (PBytes (ptr_add (d_data d) (b_rbeg b + k)))) (dpbuf_crsize b - k) 0 k f2)
      (Some pb) min ul u).

Definition write_result (r : Z) (x : ast Os) : Prop :=
  exists n k, sent n k x /\ (0 <= r -> r = n /\ r = k /\ min <= r).

Lemma write_some_step k x :
  writing k x -> wp (_dpaio_write_some_post e) x (fun r x' =>
    r = DPE_WAIT /\ (exists k', k <= k' /\ writing k' x' /\ (k' = k -> o_inva (x_out x') = o_want (x_out x)))
    \/ r <> DPE_WAIT /\ write_result r x').
Proof.
  intros ((Hm & Hk & Hkn & Hout) & Hmin & Hwant & f2 & ul & u & Hd). destruct Hb as [Hbuf Hown].
  pose proof (own_bounds _ _ _ _ _ Hown). assert (Hh := own_hdr _ _ _ _ _ Hown).
  unfold _dpaio_write_some_post. apply wp_bind. eapply wp_mono.
  { eapply (wp_sub_write e x _ (ptr_add (d_data d) (b_rbeg b + k)) bs); [done| |done| |].
    - destruct He as [|[]]; [by left|by right].
    - cbn. lia.
    - rewrite Hm. unfold room. cbn. rewrite (hdr_off _ _ _ _ Hh). unfold dpbuf_crsize in *.
      split_and!; [by apply (hdr_blk _ _ _ _ Hh)|lia|lia]. }
  intros r x1 (k2 & Hk2 & (s1 & er & inv & -> & Hout2) & Hw & Hstop). cbn [stm_io io_len] in *.
  assert (Hsent : outflow s1 fd = outflow (x_sys x0) fd ++ ztake (k + k2) (rd b bs)).
  { rewrite Hout2, Hout, <-app_assoc. f_equal. cbn. rewrite (hdr_off _ _ _ _ Hh), Z.add_0_l.
    unfold rd, slice, dpbuf_crsize in *. rewrite !ztake_ztake, !Z.min_l by lia.
    rewrite <-(ztake_zdrop k (ztake (k + k2) (zdrop (b_rbeg b) bs))).
    rewrite ztake_ztake, Z.min_l, zdrop_ztake, zdrop_zdrop by lia. do 2 f_equal. lia. }
  apply wp_bind. eapply wp_get_stm; [done|]. cbn.
  destruct Hstop as [(-> & Hr & Hfull)|Hstop].
  - replace (k2 <=? 0) with false by lia. apply wp_bind. eapply wp_upd_io; [done|].
    apply wp_bind. unfold stm_loc. apply wp_bind. eapply wp_get_stm; [done|]. eapply wp_lift_opt; [done|].
    apply wp_bind. eapply wp_bufop_cur;
      [cbn; rewrite Hm; cbn; apply lookup_insert_eq|by apply (rseek_consumed _ _ _ _ _ _ _ _ Hown); lia|].
    apply wp_bind. eapply wp_get_stm; [done|]. cbn.
    set (x2 := put_mem_of _ _).
    assert (Hx2 : sent (k + k2) (k + k2) x2).
    { split_and!; [|lia|lia|lia|done]. cbn. rewrite Hm. unfold set_bufs. cbn. by rewrite insert_insert_eq. }
    destruct (Z.leb_spec min (k + k2)).
    + apply wp_ret. right. split; [unfold DPE_WAIT; lia|]. exists (k + k2), (k + k2). split; [exact Hx2|lia].
    + apply wp_bind. eapply wp_upd_io; [done|]. apply wp_bind, wp_want_again. intros w Hww. apply wp_ret.
      left. split; [done|]. exists (k + k2). split; [lia|]. split; [|lia]. split; [exact Hx2|].
      split_and!; [lia|cbn in *; destruct Hww as [->| ->]; [done|lia]|]. exists f2, ul, u. cbn.
      by rewrite ptr_add_add, Z.add_assoc, Z.sub_add_distr.
  - assert (Hr : r < 0) by (destruct Hstop as [[-> _]|[? _]]; [done|lia]).
    replace (r <=? 0) with true by lia. replace (min <=? k) with false by lia. apply wp_ret.
    destruct (Z.eq_dec r DPE_WAIT) as [->|Hne].
    + left. split; [done|]. destruct Hstop as [[? _]|(_ & -> & Hinv & _)]; [done|]. rewrite Z.add_0_r in Hsent.
      exists k. split; [lia|]. split; [|by intros _]. split; [split_and!; [done|lia|lia|lia|done]|].
      split_and!; [lia|cbn in *; lia|]. by exists f2, ul, u.
    + right. split; [done|]. exists (k + k2), k. split; [split_and!; [done|lia|lia|lia|done]|lia].
Qed.

Lemma write_some_keeps :
  keeps (_dpaio_write_some_post e) (fun x => exists k, writing k x) write_result.
Proof.
  intros x [k Hk]. eapply wp_mono; [by apply write_some_step|]. cbv beta.
  intros r x' [(-> & k' & _ & Hk' & _)|[Hr Hres]]; [left; eauto|by right].
Qed.

End WriteSome.

Section WriteSomeOp.
Context {Os : Type} `{StreamOk Os}.

(** C17. [dpaio_write_some] is defined whatever the system answers; a positive
    result [r] is at least the minimum asked for, and exactly the first [r] bytes
    of the buffer's window have been sent and have left the window.  In every case
    a prefix of the window was sent, and no byte leaves the window unsent. *)
Theorem dpaio_write_some_stream e x pb b q d bs a min args envs
    (He : plain e 0) (Ha : a <> 0) (Hp : x_addr x !! a = Some (PBuf pb)) (Hmin : 0 < min)
    (Hb : buf_at (x_mem x) pb b q d bs) (Henvs : Forall (quiet (union_fd e)) envs) :
  wp (run_op dpaio_write_some e (a :: min :: args) envs) x (fun r x' =>
    exists n k, x_mem x' = set_bufs <[pb := consumed b k]> (x_mem x) /\
      rd (consumed b k) bs = zdrop k (rd b bs) /\ 0 <= k <= n /\ n <= dpbuf_crsize b /\
      outflow (x_sys x') (union_fd e) = outflow (x_sys x) (union_fd e) ++ ztake n (rd b bs) /\
      (0 <= r -> r = n /\ r = k /\ min <= r)).
Proof.
  pose proof (own_bounds _ _ _ _ _ (ba_own _ _ _ _ _ _ Hb)). unfold run_op.
  apply wp_bind, wp_modify, wp_bind, wp_modify. cbn [op_prep op_data op_post dpaio_write_some DPAIO_FUNCTION].
  apply wp_bind. unfold _dpaio_write_some_prep. apply wp_bind.
  eapply (wp_sub_prep 1 DPEVT_OUT); [done|by right|done|done|done|done|lia|]. cbn.
  apply wp_bind. unfold take_buf. apply wp_bind. eapply wp_get_stm; [done|]. cbn.
  apply wp_bind. eapply wp_put_stm; [done|]. apply wp_ret.
  apply wp_bind. unfold aim_read. apply wp_bind. destruct Hb as [Hbuf Hown].
  eapply wp_look; [done|]. eapply wp_cur_data; [done|]. apply wp_bind.
  eapply wp_look; [done|]. apply wp_ret. eapply wp_upd_io; [done|]. apply wp_ret. cbn.
  set (x1 := put_data_of _ _).
  eapply wp_mono; [eapply (wp_drive _ (fun y => exists k, writing e x1 pb b d bs min k y) _ (union_fd e))|].
  - eapply write_some_keeps; [done|by split].
  - intros f y Hf [k ((Hm & Hk & Hn & Hout) & Hw)]. exists k. split; [|done].
    split_and!; [done|lia|lia|lia|]. cbn. by rewrite (proj2 (Hf _)).
  - intros y [k Hk]. exists k. by destruct y as [? [] ? ? ? ? ? ? ? ?].
  - done.
  - exists 0. split; [split_and!; [|lia|lia|unfold dpbuf_crsize; lia|by rewrite ztake_0, app_nil_r]|].
    + cbn. unfold consumed, set_bufs. cbn. rewrite Z.add_0_r. unfold with_rbeg, with_cur.
      rewrite insert_id; [by destruct (x_mem x)|]. rewrite Hbuf. by destruct b.
    + split_and!; [lia|done|]. exists 0, 0, None. cbn. by rewrite Z.add_0_r, Z.sub_0_r.
  - cbv beta. intros r y [[-> [k ((Hm & Hk & Hn & Hout) & _)]]|[_ (n & k & (Hm & Hk & Hn & Hout) & Hr)]].
    + exists k, k. split_and!; [done|by apply rd_consumed; lia|lia|lia|lia|done|by intros [] ].
    + exists n, k. split_and!; [done|by apply rd_consumed; lia|lia|lia|lia|done|done].
Qed.

End WriteSomeOp.

(** ** Examples

    A buffer whose window holds the five bytes of [ex_store], at address 4096. *)

Definition ex_full : dpbuf := with_cur ex_buf 0 5 5 8.
Definition ex_buf_mem (b : dpbuf) : bstore := set_bufs <[5%positive := b]> ex_store.
Definition ex_buf_ast (b : dpbuf) (s : script) : ast script :=
  Ast SNull (Out 0 0 0 true) [] {[ 4096 := PBuf 5; 8192 := PBytes (Ptr 3 0) ]} (ex_buf_mem b) ∅ ∅ ∅ 0 s.

Lemma ex_full_at : buf_at (ex_buf_mem ex_full) 5 ex_full 2 ex_data ex_bytes.
Proof.
  split; [done|]. apply own_set_bufs. eapply own_cursors; [apply ex_own|done|done|done].
Qed.

(** Two bytes are taken, then nothing for a while, then the rest. *)
Lemma dpaio_write_some_stream_witness :
  let x := ex_buf_ast ex_full (Script [] [] [2; 0; 9]) in
  wp (run_op dpaio_write_some ex_skt [4096; 4] [(fun s => s)]) x (fun r x' =>
    exists n k, x_mem x' = set_bufs <[5%positive := consumed ex_full k]> (x_mem x) /\
      rd (consumed ex_full k) ex_bytes = zdrop k (rd ex_full ex_bytes) /\ 0 <= k <= n /\ n <= dpbuf_crsize ex_full /\
      outflow (x_sys x') (union_fd ex_skt) = outflow (x_sys x) (union_fd ex_skt) ++ ztake n (rd ex_full ex_bytes) /\
      (0 <= r -> r = n /\ r = k /\ 4 <= r)).
Proof.
  intros x. eapply (dpaio_write_some_stream ex_skt x 5 ex_full 2 ex_data ex_bytes 4096 4 []);
    [by right|done|done|done|exact ex_full_at|repeat constructor].
Defined.

Example write_some_all :
  (fun rx => (rx.1, tx (x_sys rx.2))) <$>
    run_op dpaio_write_some ex_skt [4096; 4] [(fun s => s)] (ex_buf_ast ex_full (Script [] [] [2; 0; 9]))
  = Some (5, [97; 98; 99; 59; 100]).
Proof. vm_compute. reflexivity. Qed.

(** [dpaio_write_must] asked for more than the window holds sends the bytes
    behind it. *)
Example write_must_overreads :
  (fun rx => (rx.1, tx (x_sys rx.2))) <$>
    run_op dpaio_write_must ex_skt [4096; 7] [] (ex_buf_ast (with_cur ex_buf 0 2 5 8) (Script [] [] []))
  = Some (7, [97; 98; 99; 59; 100; 0; 0]).
Proof. vm_compute. reflexivity. Qed.

(** [dpaio_read_must] compares what it has read with what is left to read: ten
    bytes asked for, four and two arrived, and it is over. *)
Example read_must_short :
  fst <$> run_op dpaio_read_must ex_gfd [4096; 10] [(fun s => s); (fun s => s)]
    (ex_buf_ast (with_cur ex_buf 0 0 0 8) (Script [[1; 2; 3; 4]; [5; 6]; [7; 8; 9; 10]] [] [])) = Some 6.
Proof. vm_compute. reflexivity. Qed.

(** [dpaio_write_must] does the same: of five bytes it reports four. *)
Example write_must_short :
  (fun r => (r.1, tx (x_sys r.2))) <$> run_op dpaio_write_must ex_gfd [4096; 5] [(fun s => s); (fun s => s)]
    (ex_buf_ast ex_full (Script [] [] [2; 0; 2; 0; 9])) = Some (4, [97; 98; 99; 59]).
Proof. vm_compute. reflexivity. Qed.
