(* ===== verification/AscUntil.v ===== *)
(** * Reading a stream up to a delimiter

    [dpaio_read_until] on a plain descriptor appends what it reads to a [dpbuf]
    and searches the window for the delimiter, going back far enough to find one
    that straddles two pieces. *)

From S2P Require Import Prelude Dpret Dpbuf DpbufFacts Ele Tmrset World Aio AscIo AscBuf AscFacts AscRun AscWrite.

#[local] Set Default Proof Using "Type*".

(** ** Where a delimiter occurs *)

(** [pat] occurs at no index whose occurrence ends by [n]. *)
Definition clear_upto (pat hay : list Z) (n : Z) : Prop :=
  forall j, 0 <= j -> j + zlen pat <= n -> ~ occurs_at pat hay j.

(** [i] is the first index at which [pat] occurs. *)
Definition first_at (pat hay : list Z) (i : Z) : Prop :=
  0 <= i /\ i + zlen pat <= zlen hay /\ occurs_at pat hay i /\ forall j, 0 <= j < i -> ~ occurs_at pat hay j.

Lemma occurs_at_bound pat hay i : 0 < zlen pat -> 0 <= i -> occurs_at pat hay i -> i + zlen pat <= zlen hay.
Proof.
  intros Hp Hi Ho. unfold occurs_at in Ho. pose proof (zlen_nonneg hay).
  assert (Hz : zlen (slice i (zlen pat) hay) = zlen pat) by by rewrite Ho.
  unfold slice in Hz. rewrite zlen_ztake, zlen_zdrop in Hz. lia.
Qed.

Lemma occurs_at_app pat hay k j :
  0 <= j -> j + zlen pat <= zlen hay -> occurs_at pat (hay ++ k) j -> occurs_at pat hay j.
Proof. intros Hj Hb. unfold occurs_at. by rewrite slice_app_l by lia. Qed.

Lemma occurs_at_zdrop pat hay l j : 0 <= l -> 0 <= j -> occurs_at pat (zdrop l hay) j <-> occurs_at pat hay (l + j).
Proof. intros. unfold occurs_at, slice. by rewrite zdrop_zdrop. Qed.

Lemma clear_upto_app pat hay k n :
  n <= zlen hay -> clear_upto pat hay n -> clear_upto pat (hay ++ k) n.
Proof. intros Hn Hc j Hj Hb Ho. apply (Hc j Hj Hb). eapply occurs_at_app; [done|lia|done]. Qed.

(** Searching from [left], when nothing ends before it. *)
Lemma search_found pat hay left i :
  0 < zlen pat -> 0 <= left -> clear_upto pat hay (left + zlen pat - 1) ->
  memmem (zdrop left hay) pat = Some i -> first_at pat hay (left + i).
Proof.
  intros Hp Hl Hc Hm. apply memmem_Some in Hm as (Hi & Ho & Hmin).
  apply occurs_at_zdrop in Ho; [|done|done]. split_and!; [lia|by apply occurs_at_bound; [|lia|]|done|].
  intros j Hj. destruct (Z.lt_ge_cases j left); [apply Hc; lia|].
  intros Hoj. apply (Hmin (j - left)); [lia|]. apply occurs_at_zdrop; [done|lia|].
  by replace (left + (j - left)) with j by lia.
Qed.

Lemma search_none pat hay left n :
  0 < zlen pat -> 0 <= left -> clear_upto pat hay (left + zlen pat - 1) ->
  memmem (zdrop left hay) pat = None -> clear_upto pat hay n.
Proof.
  intros Hp Hl Hc Hm j Hj _ Ho. destruct (Z.lt_ge_cases j left); [by apply (Hc j); [|lia|]|].
  apply (memmem_None _ _ (j - left)) in Hm; [|lia]. apply Hm, occurs_at_zdrop; [done|lia|].
  by replace (left + (j - left)) with j by lia.
Qed.

Lemma clear_upto_short pat hay n : zlen hay < zlen pat -> clear_upto pat hay n.
Proof.
  intros Hs j Hj _ Ho. assert (0 < zlen pat) by (pose proof (zlen_nonneg hay); lia).
  pose proof (occurs_at_bound pat hay j ltac:(done) Hj Ho). lia.
Qed.

(** ** Reading into the free part of a buffer *)

(** The cursors after [n] more bytes are written and committed. *)
Definition grown (b : dpbuf) (n : Z) : dpbuf := with_wbeg b (b_wbeg b + n).
Definition committed (b : dpbuf) : dpbuf := with_rend b (b_wbeg b).
Definition cut (b : dpbuf) (n : Z) : dpbuf := with_rend b (b_rbeg b + n).

Section Cursors.
Context (s : bstore) (b : dpbuf) (q : loc) (d : dpbuf_data) (bs : list Z) (Ho : own s b q d bs).

Lemma wseek_grown n m : 0 <= n <= dpbuf_cwsize b -> dpbuf_wseek b n SEEK_CUR m = Some ((n, grown b n), m).
Proof.
  intros. pose proof (own_bounds _ _ _ _ _ Ho). unfold dpbuf_cwsize, INT_MAX in *.
  unfold dpbuf_wseek, grown, mbind, ST_bind, lift_opt. cbn. unfold with_wbeg.
  rewrite int_val_id by (unfold is_i32, INT_MIN, INT_MAX; lia). unfold mret, ST_ret. cbn.
  assert (_iclamp (b_wbeg b + n) (b_rend b) (b_size b) = b_wbeg b + n) as ->
    by (unfold _iclamp; repeat case_match; lia).
  do 3 f_equal. lia.
Qed.

Lemma eseek_committed m : dpbuf_eseek b 0 SEEK_END m = Some ((dpbuf_cesize b, committed b), m).
Proof.
  pose proof (own_bounds _ _ _ _ _ Ho). unfold INT_MAX in *.
  unfold dpbuf_eseek, committed, dpbuf_cesize, mbind, ST_bind, lift_opt. cbn. unfold with_rend. rewrite Z.add_0_r.
  rewrite int_val_id by (unfold is_i32, INT_MIN, INT_MAX; lia). unfold mret, ST_ret. cbn.
  assert (_iclamp (b_wbeg b) (b_rbeg b) (b_wbeg b) = b_wbeg b) as -> by (unfold _iclamp; repeat case_match; lia).
  done.
Qed.

Lemma eseek_cut n m : 0 <= n <= dpbuf_crsize b + dpbuf_cesize b ->
  dpbuf_eseek b n SEEK_SET m = Some ((b_rbeg b + n - b_rend b, cut b n), m).
Proof.
  intros. pose proof (own_bounds _ _ _ _ _ Ho). unfold dpbuf_crsize, dpbuf_cesize, INT_MAX in *.
  unfold dpbuf_eseek, cut, mbind, ST_bind, lift_opt. cbn. unfold with_rend.
  rewrite int_val_id by (unfold is_i32, INT_MIN, INT_MAX; lia). unfold mret, ST_ret. cbn.
  assert (_iclamp (b_rbeg b + n) (b_rbeg b) (b_wbeg b) = b_rbeg b + n) as ->
    by (unfold _iclamp; repeat case_match; lia).
  done.
Qed.

Lemma own_committed : own s (committed b) q d bs.
Proof. pose proof (own_bounds _ _ _ _ _ Ho). eapply own_cursors; [done| |done..]. unfold cursors_ok. cbn. lia. Qed.

Lemma own_cut n : 0 <= n <= dpbuf_crsize b + dpbuf_cesize b -> own s (cut b n) q d bs.
Proof.
  intros. pose proof (own_bounds _ _ _ _ _ Ho). unfold dpbuf_crsize, dpbuf_cesize in *.
  eapply own_cursors; [done| |done..]. unfold cursors_ok. cbn. lia.
Qed.

(** Committing moves the slack into the window; cutting keeps a prefix. *)
Lemma rd_committed : rd (committed b) bs = rd b bs ++ sl b bs.
Proof.
  pose proof (own_bounds _ _ _ _ _ Ho). unfold rd, sl, dpbuf_crsize, dpbuf_cesize. cbn.
  replace (b_wbeg b - b_rbeg b) with ((b_rend b - b_rbeg b) + (b_wbeg b - b_rend b)) by lia.
  rewrite slice_split by lia. do 2 f_equal. lia.
Qed.

Lemma sl_committed : sl (committed b) bs = [].
Proof. unfold sl, dpbuf_cesize. cbn. by rewrite Z.sub_diag, slice_0_n. Qed.

Lemma rd_cut n : 0 <= n <= dpbuf_crsize b -> rd (cut b n) bs = ztake n (rd b bs).
Proof.
  intros. unfold rd, dpbuf_crsize, slice in *. cbn. rewrite ztake_ztake. f_equal. lia.
Qed.

Lemma rd_sl_cut n : 0 <= n <= dpbuf_crsize b -> rd (cut b n) bs ++ sl (cut b n) bs = rd b bs ++ sl b bs.
Proof.
  intros. pose proof (own_bounds _ _ _ _ _ Ho). unfold rd, sl, dpbuf_crsize, dpbuf_cesize in *. cbn.
  replace (b_rbeg b + n - b_rbeg b) with n by lia.
  assert (Hs : forall i, b_rbeg b <= i <= b_wbeg b ->
    slice (b_rbeg b) (i - b_rbeg b) bs ++ slice i (b_wbeg b - i) bs = slice (b_rbeg b) (b_wbeg b - b_rbeg b) bs).
  { intros i Hi. replace (b_wbeg b - b_rbeg b) with ((i - b_rbeg b) + (b_wbeg b - i)) by lia.
    rewrite (slice_split (b_rbeg b)) by lia. do 2 f_equal. lia. }
  rewrite (Hs (b_rend b)) by lia. rewrite <-(Hs (b_rbeg b + n)) by lia. do 2 f_equal. lia.
Qed.

(** The system stores [cs] in the free part. *)
Lemma own_filled cs : zlen cs <= dpbuf_cwsize b ->
  let m := store_at (ptr_add (d_data d) (b_wbeg b)) cs bs s in
  let bs' := splice (b_wbeg b) cs bs in
  own m b q d bs' /\ rd b bs' = rd b bs /\ sl b bs' = sl b bs /\
  own m (grown b (zlen cs)) q d bs' /\ rd (grown b (zlen cs)) bs' = rd b bs /\
  sl (grown b (zlen cs)) bs' = sl b bs ++ cs /\ touches q s m.
Proof.
  intros Hcs. pose proof (own_bounds _ _ _ _ _ Ho) as Hb. pose proof (zlen_nonneg cs). unfold dpbuf_cwsize in *.
  assert (Hm := wp_hdr_store s q d bs (b_wbeg b) cs (own_hdr _ _ _ _ _ Ho) ltac:(lia) ltac:(lia)).
  assert (Hrun : store_bytes (ptr_add (d_data d) (b_wbeg b)) cs s = Some (tt, store_at (ptr_add (d_data d) (b_wbeg b)) cs bs s)).
  { unfold store_bytes, store_at. cbn. destruct (own_hdr _ _ _ _ _ Ho) as [_ -> Hoff _ _ _ _ _].
    rewrite in_block_true; cbn; [done|lia..]. }
  unfold wp in Hm. rewrite Hrun in Hm.
  destruct Hm as [Hh Ht]. cbv zeta. destruct Ho as [Hd0 Hh0 Hc Hmx Hr]. unfold cursors_ok in Hc.
  assert (Hz : zlen (splice (b_wbeg b) cs bs) = zlen bs) by (apply zlen_splice; lia).
  split_and!; try done.
  - split; try done; lia.
  - unfold rd, dpbuf_crsize. apply slice_splice_before; lia.
  - unfold sl, dpbuf_cesize. apply slice_splice_before; lia.
  - split; try done; cbn; [unfold cursors_ok; cbn; lia|lia].
  - unfold rd, dpbuf_crsize. cbn. apply slice_splice_before; lia.
  - unfold sl, dpbuf_cesize. cbn.
    replace (b_wbeg b + zlen cs - b_rend b) with ((b_wbeg b - b_rend b) + zlen cs) by lia.
    rewrite slice_split by lia. f_equal; [apply slice_splice_before; lia|].
    replace (b_rend b + (b_wbeg b - b_rend b)) with (b_wbeg b) by lia. apply slice_splice_eq; lia.
Qed.
End Cursors.

Section Until.
Context {Os : Type} `{StreamOk Os}.
Context (m0 : bstore) (pb q : loc) (u : ptr) (lu pat : list Z).
Context (Hpat : slice (p_off u) (zlen pat) lu = pat) (Hu : 0 <= p_off u) (Hul : p_off u + zlen pat <= zlen lu)
  (Hp : 0 < zlen pat).

(** The buffer [b], and the delimiter outside its storage; an allocator that
    granted everything in [m0] still does. *)
Record held (m : bstore) (b : dpbuf) (d : dpbuf_data) (bs : list Z) : Prop := {
  held_at : buf_at m pb b q d bs;
  held_pat : st_blks m !! p_blk u = Some lu;
  held_apart : p_blk u <> p_blk (d_data d);
  held_oom : st_oom m0 = [] -> st_oom m = [];
}.

Lemma held_cur m b d bs b' : held m b d bs -> own m b' q d bs -> held (set_bufs <[pb := b']> m) b' d bs.
Proof.
  intros [[Hb Ho] Hq Ha Hg] Ho'. split; [split|done|done|done].
  - cbn. apply lookup_insert_eq.
  - by apply own_set_bufs.
Qed.

Lemma wp_cur (x : ast Os) b d bs {A} (f : dpbuf -> ST bstore (A * dpbuf)) a b' (Q : A -> ast Os -> Prop) :
  held (x_mem x) b d bs -> f b (x_mem x) = Some ((a, b'), x_mem x) -> own (x_mem x) b' q d bs ->
  (forall m, held m b' d bs -> m = set_bufs <[pb := b']> (x_mem x) -> Q a (put_mem_of m x)) ->
  wp (bufop pb f) x Q.
Proof.
  intros Hh Hf Ho HQ. eapply wp_bufop_cur; [apply Hh|done|]. apply HQ; [by eapply held_cur|done].
Qed.

(** The search answers the first occurrence from [left]. *)
Lemma wp_find_from (x : ast Os) s b d bs left :
  x_data x = SStm s -> stm_until s = Some (PBytes u) -> stm_until_len s = zlen pat -> held (x_mem x) b d bs ->
  0 <= left <= dpbuf_crsize b -> clear_upto pat (rd b bs) (left + zlen pat - 1) ->
  wp (find_from pb left) x (fun r x' => x' = x /\
    (0 <= r /\ first_at pat (rd b bs) r \/ r < 0 /\ forall n, clear_upto pat (rd b bs) n)).
Proof.
  intros Hd Hun Hul' [[Hb Ho] Hq Ha _] Hleft Hclear. pose proof (own_bounds _ _ _ _ _ Ho).
  unfold find_from. apply wp_bind. eapply wp_get_stm; [done|]. apply wp_bind. unfold until_bytes, gather.
  apply wp_bind. rewrite Hun, Hul'. eapply wp_lift_opt; [done|]. apply wp_on_mem.
  eapply wp_load_bytes; cbn; rewrite ?Z.add_0_r; [done|lia|lia|lia|]. rewrite Hpat.
  eapply wp_look; [done|]. cbn. eapply wp_mono; [by eapply wp_cfind|]. cbn. intros r m [-> ->].
  split; [by destruct x|]. pose proof (zlen_rd b bs (own_cur _ _ _ _ _ Ho) ltac:(lia)).
  destruct (Z.ltb_spec (dpbuf_crsize b) (zlen pat)).
  - right. split; [done|]. intros n. apply clear_upto_short. lia.
  - destruct (memmem _ pat) as [i|] eqn:Hm.
    + left. pose proof (search_found pat _ left i Hp ltac:(lia) Hclear Hm) as Hf. split; [by destruct Hf|done].
    + right. split; [done|]. intros n. eapply search_none; [done| |done|done]. lia.
Qed.

(** Making room keeps the windows and the delimiter, and fails only when the
    allocator refuses. *)
Lemma wp_make_room (x : ast Os) b d bs n :
  held (x_mem x) b d bs -> 0 < n -> b_wbeg b + n < GROW_SAFE ->
  wp (bufop pb (fun b => dpbuf_resizew b n)) x (fun ok x' => exists m' b' d' bs',
    x' = put_mem_of m' x /\ held m' b' d' bs' /\ rd b' bs' = rd b bs /\ sl b' bs' = sl b bs /\
    dpbuf_cesize b' = dpbuf_cesize b /\ dpbuf_crsize b' = dpbuf_crsize b /\ b_wbeg b' <= b_wbeg b /\
    if ok : bool then dpbuf_cwsize b' = n else st_oom m0 <> []).
Proof.
  intros [[Hb Ho] Hq Ha Hg] Hn Hs. eapply wp_bufop; [done|]. eapply wp_mono; [eapply wp_resizew; [done|lia|done]|].
  intros [ok b'] m (d' & bs' & Ho' & Ht & Hv & Hle & Hw & Hgr). cbn in *. split; [by apply (tch_bufs _ _ _ Ht)|].
  exists (set_bufs <[pb := b']> m), b', d', bs'. split; [done|].
  pose proof (own_hdr _ _ _ _ _ Ho) as Hh. pose proof (own_hdr _ _ _ _ _ Ho') as Hh'. destruct Hv.
  split_and!; try done.
  - split; [split|..].
    + cbn. apply lookup_insert_eq.
    + by apply own_set_bufs.
    + cbn. by eapply touches_block.
    + by eapply touches_new_block.
    + intros E. cbn. by apply (tch_oom _ _ _ Ht), Hg.
  - destruct ok; [by apply Hw|]. intros E. by specialize (Hgr (Hg E) Hn).
Qed.

Lemma wp_aim_write (x : ast Os) s b d bs (Q : unit -> ast Os -> Prop) :
  x_data x = SStm s -> held (x_mem x) b d bs ->
  Q tt (put_data_of (SStm (with_io s (with_len (with_ptr (stm_io s) (Some (PBytes (ptr_add (d_data d) (b_wbeg b)))))
    (dpbuf_cwsize b)))) x) -> wp (aim_write pb None) x Q.
Proof.
  intros Hd [[Hb Ho] _ _ _] HQ. unfold aim_write. apply wp_bind. eapply wp_look; [done|].
  eapply wp_cur_data; [done|]. apply wp_bind. eapply wp_look; [done|]. apply wp_ret. cbn.
  eapply wp_upd_io; [done|]. by destruct x.
Qed.

(** ** The operation *)

Section Op.
Context (e : dpele) (in0 : list Z) (W0 : list Z) (wb0 max : Z).
Context (He : ty_iotype (e_type e) = DPAIO_TYPE_GFD) (Hmax : wb0 + max < GROW_SAFE).
Abbreviation fd := (union_fd e).

(** Waiting: [got] has been appended to the window; [flag] bytes of it have been
    searched, all of them once anything has been read. *)
Definition scanning (got : list Z) (x : ast Os) : Prop :=
  exists b d bs flag, held (x_mem x) b d bs /\ dpbuf_cesize b = 0 /\ rd b bs = W0 ++ got /\
    in0 = got ++ inflow (x_sys x) fd /\ zlen got < max /\ 0 < o_want (x_out x) /\
    0 <= flag <= zlen (W0 ++ got) /\ clear_upto pat (W0 ++ got) flag /\
    (0 < zlen got -> forall n, clear_upto pat (W0 ++ got) n) /\
    0 < dpbuf_cwsize b <= max - zlen got /\ b_wbeg b <= wb0 + zlen got /\
    exists f2, x_data x = SStm (Stm (IoArg (Some (PBytes (ptr_add (d_data d) (b_wbeg b)))) (dpbuf_cwsize b)
      flag (zlen got) f2) (Some pb) max (zlen pat) (Some (PBytes u))).

(** How it is over.  [got] has been read into the buffer; [lost] was read and is
    not there. *)
Definition until_outcome (r : Z) (x : ast Os) (got lost : list Z) (window : list Z) : Prop :=
  (* the end of the first delimiter, where the window is cut *)
  lost = [] /\ first_at pat (W0 ++ got) (r - zlen pat) /\ window = ztake r (W0 ++ got)
  (* the limit, and no delimiter *)
  \/ r = DPE_CONTINUE /\ lost = [] /\ max <= zlen got /\ (forall n, clear_upto pat (W0 ++ got) n)
  (* fewer bytes and no delimiter: the descriptor is used up, or no memory *)
  \/ 0 < r < max /\ r = zlen got /\ (forall n, clear_upto pat (W0 ++ got) n) /\
    (0 < o_inva (x_out x) \/ lost = [] /\ st_oom m0 <> [])
  (* nothing: the stream ended, no memory, an error of the system *)
  \/ r = DPE_EOF /\ got = [] /\ 0 < o_inva (x_out x)
  \/ r = DPE_NOMEM /\ got = [] /\ lost = [] /\ st_oom m0 <> []
  \/ r = - x_errno x /\ r <> DPE_WAIT /\ got = [] /\ lost = [] /\ 0 < o_inva (x_out x)
  (* still waiting for more *)
  \/ r = DPE_WAIT /\ lost = [] /\ zlen got < max /\ (0 < zlen got -> forall n, clear_upto pat (W0 ++ got) n).

Definition until_result (r : Z) (x : ast Os) : Prop :=
  exists got lost b d bs, held (x_mem x) b d bs /\ in0 = got ++ lost ++ inflow (x_sys x) fd /\
    rd b bs ++ sl b bs = W0 ++ got /\ until_outcome r x got lost (rd b bs).

(** After [ret] bytes arrived: search, then stop or make room for more. *)
Definition until_tail (p : loc) : ST (ast Os) Z :=
  s ← get_stm;
  let left := io_flag (stm_io s) - stm_until_len s + 1 in
  let left := if left <? 0 then 0 else left in
  idx ← find_from p left;
  if 0 <=? idx then
    _ ← bufop p (fun b => dpbuf_eseek b (idx + stm_until_len s) SEEK_SET);
    mret (idx + stm_until_len s)
  else
  upd_io (fun io => with_iflag io (io_total io));;
  s ← get_stm;
  let io := stm_io s in
  if stm_len s <=? io_total io then mret DPE_CONTINUE else
  ok ← bufop p (fun b => dpbuf_resizew b (batch (stm_len s - io_total io)));
  if negb ok then or_total DPE_NOMEM else
  aim_write p None;; want_again e DPEVT_IN;; mret DPE_WAIT.

Lemma batch_range n : 0 < n -> 0 < batch n <= n.
Proof. unfold batch, DPAIO_BATCH_SIZE. intros. case_match; lia. Qed.

Lemma until_tail_ok x b d bs got flag n0 f2 p0 :
  held (x_mem x) b d bs -> sl b bs = [] -> dpbuf_cesize b = 0 -> rd b bs = W0 ++ got ->
  b_wbeg b <= wb0 + zlen got -> in0 = got ++ inflow (x_sys x) fd -> 0 < zlen got -> 0 < o_want (x_out x) ->
  0 <= flag <= zlen (W0 ++ got) -> clear_upto pat (W0 ++ got) flag ->
  x_data x = SStm (Stm (IoArg p0 n0 flag (zlen got) f2) (Some pb) max (zlen pat) (Some (PBytes u))) ->
  wp (until_tail pb) x (fun r x' => r = DPE_WAIT /\ scanning got x' \/ r <> DPE_WAIT /\ until_result r x').
Proof.
  intros Hh Hsl Hce Hrd Hwb Hin Hg Hwant Hflag Hclear Hd. pose proof (held_at _ _ _ _ Hh) as [Hb Ho].
  pose proof (own_bounds _ _ _ _ _ Ho) as Hbd.
  assert (Hlen : zlen (W0 ++ got) = dpbuf_crsize b) by (rewrite <-Hrd; apply zlen_rd; [by eapply own_cur|lia]).
  unfold until_tail. apply wp_bind. eapply wp_get_stm; [done|]. cbn.
  set (left := if flag - zlen pat + 1 <? 0 then 0 else flag - zlen pat + 1).
  assert (Hleft : 0 <= left <= dpbuf_crsize b /\ left + zlen pat - 1 <= Z.max flag (zlen pat - 1))
    by (unfold left; case_match; lia).
  apply wp_bind. eapply wp_mono; [eapply wp_find_from; [done|done|done|done|lia|]|].
  { rewrite Hrd. intros j Hj Hjb. apply Hclear; [done|lia]. }
  cbn. intros r x1 [-> [[Hr Hf]|[Hr Hnone]]]; rewrite Hrd in *.
  - replace (0 <=? r) with true by lia. destruct Hf as (_ & Hrb & Hocc & Hfirst).
    assert (Hr2 : 0 <= r + zlen pat <= dpbuf_crsize b) by lia.
    apply wp_bind. eapply wp_cur; [done|by apply (eseek_cut _ _ _ _ _ Ho); lia|eapply own_cut; [done|lia]|].
    intros m Hm _. apply wp_ret. right.
    split; [unfold DPE_WAIT; lia|]. exists got, [], (cut b (r + zlen pat)), d, bs. split_and!; [done|done| |left].
    + rewrite (rd_sl_cut _ _ _ _ _ Ho) by lia. by rewrite Hsl, app_nil_r.
    + rewrite (rd_cut _ _ _ _ _ Ho), Hrd by lia. split_and!; [done| |done].
      replace (r + zlen pat - zlen pat) with r by lia. by split_and!.
  - replace (0 <=? r) with false by lia. apply wp_bind. eapply wp_upd_io; [done|].
    apply wp_bind. eapply wp_get_stm; [done|]. cbn. destruct (Z.leb_spec max (zlen got)).
    + apply wp_ret. right. split; [done|]. exists got, [], b, d, bs. split_and!; [done|done|by rewrite Hsl, app_nil_r|].
      right. left. by split_and!.
    + pose proof (batch_range (max - zlen got) ltac:(lia)). apply wp_bind.
      eapply wp_mono; [eapply wp_make_room; [done|lia|lia]|].
      intros ok x2 (m' & b' & d' & bs' & -> & Hh' & Hrd' & Hsl' & Hce' & Hcr' & Hwb' & Hcw).
      destruct ok; cbn [negb].
      * apply wp_bind. eapply wp_aim_write; [done|done|]. apply wp_bind, wp_want_again. intros w Hww.
        apply wp_ret. left. split; [done|]. exists b', d', bs', (zlen got). rewrite zlen_app. pose proof (zlen_nonneg W0).
        split_and!; [done|congruence|congruence|done|lia| |lia|lia|done|done|lia|lia|lia|].
        -- cbn in *. destruct Hww as [->| ->]; [done|lia].
        -- by exists f2.
      * eapply wp_or_total; [done|]. cbn. replace (0 <? zlen got) with true by lia. right.
        split; [unfold DPE_WAIT; lia|]. exists got, [], b', d', bs'.
        split_and!; [done|done|by rewrite Hrd', Hsl', Hrd, Hsl, app_nil_r|].
        right. right. left. split_and!; [lia|lia|lia|done|by right].
Qed.

Lemma until_step got x :
  scanning got x -> wp (_dpaio_read_until_post e) x (fun r x' =>
    r = DPE_WAIT /\ (exists got', zlen got <= zlen got' /\ scanning got' x' /\
      (zlen got' = zlen got -> o_inva (x_out x') = o_want (x_out x)))
    \/ r <> DPE_WAIT /\ until_result r x').
Proof.
  intros (b & d & bs & flag & Hh & Hce & Hrd & Hin & Hg & Hwant & Hflag & Hclear & Hnone & Hcw & Hwb & f2 & Hd).
  pose proof (held_at _ _ _ _ Hh) as [Hb Ho]. pose proof (own_bounds _ _ _ _ _ Ho) as Hbd.
  pose proof (own_hdr _ _ _ _ _ Ho) as Hhd.
  unfold _dpaio_read_until_post. apply wp_bind. eapply wp_mono.
  { eapply (wp_sub_read e x _ (ptr_add (d_data d) (b_wbeg b)) bs); [done|by left|done|cbn|].
    - unfold dpbuf_cwsize in *. unfold INT_MAX in *. lia.
    - unfold room. cbn. rewrite (hdr_off _ _ _ _ Hhd). unfold dpbuf_cwsize in *.
      split_and!; [apply (hdr_blk _ _ _ _ Hhd)|lia|lia]. }
  intros r x1 (k & Hk & (cs & s1 & er & inv & -> & Hin2 & Hcs) & Hw & Hstop). cbn [stm_io io_len] in *.
  subst k. destruct (own_filled _ _ _ _ _ Ho cs ltac:(lia)) as (Ho1 & Hrd1 & Hsl1 & Ho2 & Hrd2 & Hsl2 & Ht).
  set (m1 := store_at _ _ _ _) in *. set (bs1 := splice _ _ _) in *.
  assert (Hsl0 : sl b bs = []) by (unfold sl; by rewrite Hce, slice_0_n).
  assert (Hh1 : held m1 b d bs1).
  { destruct Hh as [_ Hq Ha Hgr]. split; [by split|by eapply touches_block|done|]. intros E. by apply (tch_oom _ _ _ Ht), Hgr. }
  assert (Hin1 : in0 = (got ++ cs) ++ inflow s1 fd) by (rewrite Hin, Hin2; apply app_assoc).
  assert (Hz : zlen (got ++ cs) = zlen got + zlen cs) by apply zlen_app. pose proof (zlen_nonneg got).
  destruct Hstop as [(-> & Hr & Hfull)|Hstop].
  - replace (zlen cs <=? 0) with false by lia. apply wp_bind. eapply wp_upd_io; [done|].
    apply wp_bind. unfold stm_loc. apply wp_bind. eapply wp_get_stm; [done|]. eapply wp_lift_opt; [done|].
    apply wp_bind. eapply wp_cur; [done|by apply (wseek_grown _ _ _ _ _ Ho1); lia|done|].
    intros m2 Hh2 Hm2. pose proof (ba_own _ _ _ _ _ _ (held_at _ _ _ _ Hh2)) as Ho3.
    apply wp_bind. eapply wp_cur; [done|apply (eseek_committed _ _ _ _ _ Ho3)|by apply own_committed|].
    intros m3 Hh3 Hm3. cbn [snd] in *.
    assert (Hrd3 : rd (committed (grown b (zlen cs))) bs1 = W0 ++ got ++ cs).
    { rewrite (rd_committed _ _ _ _ _ Ho3), Hrd2, Hsl2, Hrd, Hsl0. cbn. by rewrite <-app_assoc. }
    eapply wp_mono; [eapply (until_tail_ok _ (committed (grown b (zlen cs))) d bs1 (got ++ cs) flag _ f2)|].
    + done.
    + exact (sl_committed _ _ _ _ _ Ho3).
    + unfold dpbuf_cesize. cbn. lia.
    + done.
    + cbn. lia.
    + done.
    + lia.
    + cbn in *. lia.
    + rewrite !zlen_app. rewrite zlen_app in Hflag. lia.
    + rewrite app_assoc. apply clear_upto_app; [lia|done].
    + cbn. by rewrite Hz.
    + cbn. intros r x' [[-> Hsc]|[Hne Hres]]; [left|by right]. split; [done|]. exists (got ++ cs).
      split; [lia|]. split; [done|]. lia.
  - assert (Hr : r < 0) by (destruct Hstop as [[-> _]|[? _]]; [done|lia]).
    assert (Hinva : 0 < inv) by (cbn in Hw, Hstop; destruct Hstop as [(_ & ->)|(_ & _ & -> & _)]; lia).
    replace (r <=? 0) with true by lia. eapply wp_or_total; [done|]. cbn.
    assert (Hres : forall r', until_outcome r' (moved x s1 er inv m1) got cs (rd b bs1) ->
      until_result r' (moved x s1 er inv m1)).
    { intros r' Hr'. exists got, cs, b, d, bs1. split_and!; [done|by rewrite <-app_assoc in Hin1| |done].
      by rewrite Hrd1, Hsl1, Hrd, Hsl0, app_nil_r. }
    destruct (Z.ltb_spec 0 (zlen got)) as [Hg0|Hg0].
    + right. split; [unfold DPE_WAIT; lia|]. apply Hres. right. right. left. split_and!; [lia|lia|done|by auto|by left].
    + assert (got = []) as Hgn by (destruct got; [done|rewrite zlen_cons in Hg0; pose proof (zlen_nonneg got); lia]).
      destruct (Z.eq_dec r DPE_WAIT) as [->|Hne].
      * left. split; [done|]. destruct Hstop as [[? _]|(_ & Hk0 & Hinv & _)]; [done|].
        assert (cs = []) as -> by (destruct cs; [done|rewrite zlen_cons in Hk0; pose proof (zlen_nonneg cs); lia]).
        rewrite app_nil_r in Hin1. exists got. split; [lia|]. split; [|by intros _].
        exists b, d, bs1, flag. split_and!; try done; try congruence; try (cbn in *; lia). by exists f2.
      * right. split; [done|]. apply Hres. do 3 right. destruct Hstop as [[-> _]|(_ & Hk0 & _ & Her)].
        -- by left.
        -- right. right. left. split_and!; try done.
           destruct cs; [done|rewrite zlen_cons in Hk0; pose proof (zlen_nonneg cs); lia].
Qed.

Lemma until_keeps : keeps (_dpaio_read_until_post e) (fun x => exists got, scanning got x) until_result.
Proof.
  intros x [got Hg]. eapply wp_mono; [by apply until_step|]. cbv beta.
  intros r x' [(-> & got' & _ & Hg' & _)|[Hr Hres]]; [left; eauto|by right].
Qed.

(** ** Starting it *)

Lemma wp_until_prep_search x b d bs f2 p0 n0 fl0 (Q : option Z -> ast Os -> Prop) :
  held (x_mem x) b d bs -> W0 = rd b bs ++ sl b bs -> in0 = inflow (x_sys x) fd ->
  x_data x = SStm (Stm (IoArg p0 n0 fl0 0 f2) (Some pb) max (zlen pat) (Some (PBytes u))) ->
  (forall r x', 0 <= r -> until_result r x' -> Q (Some r) x') ->
  (forall b' flag m, held m b' d bs -> dpbuf_cesize b' = 0 -> b_wbeg b' = b_wbeg b -> rd b' bs = W0 ->
     0 <= flag <= zlen W0 -> clear_upto pat W0 flag ->
     Q None (put_data_of (SStm (Stm (IoArg p0 n0 flag 0 f2) (Some pb) max (zlen pat) (Some (PBytes u)))) (put_mem_of m x))) ->
  wp (if 0 <? dpbuf_cesize b then
        _ ← bufop pb (fun b => dpbuf_eseek b 0 SEEK_END);
        idx ← find_from pb 0;
        if 0 <=? idx then
          _ ← bufop pb (fun b => dpbuf_eseek b (idx + zlen pat) SEEK_SET);
          mret (Some (idx + zlen pat))
        else
          n ← look pb (fun b => mret (dpbuf_crsize b));
          upd_io (fun io => with_iflag io n);; mret None
      else upd_io (fun io => with_iflag io 0);; mret None) x Q.
Proof.
  intros Hh HW Hin Hd Hfound Hnone. pose proof (ba_own _ _ _ _ _ _ (held_at _ _ _ _ Hh)) as Ho.
  pose proof (own_bounds _ _ _ _ _ Ho) as Hbd. pose proof (zlen_rd b bs (own_cur _ _ _ _ _ Ho) ltac:(lia)).
  destruct (Z.ltb_spec 0 (dpbuf_cesize b)) as [Hce|Hce].
  - apply wp_bind. eapply wp_cur; [done|apply (eseek_committed _ _ _ _ _ Ho)|by apply own_committed|].
    intros m Hm Hmx. cbn [snd] in *. pose proof (ba_own _ _ _ _ _ _ (held_at _ _ _ _ Hm)) as Ho2.
    pose proof (rd_committed _ _ _ _ _ Ho) as Hrd. pose proof (sl_committed _ _ _ _ _ Ho) as Hsl.
    assert (Hlen : zlen (rd (committed b) bs) = dpbuf_crsize (committed b))
      by (apply zlen_rd; [by eapply own_cur|cbn; lia]).
    apply wp_bind. eapply wp_mono; [eapply wp_find_from; [done|done|done|done| |]|].
    { unfold dpbuf_crsize. cbn. lia. }
    { intros j Hj Hj2. lia. }
    intros r x1 [-> [[Hr Hf]|[Hr Hclear]]].
    + replace (0 <=? r) with true by lia. destruct Hf as (_ & Hrb & Hocc & Hfirst).
      assert (Hce2 : dpbuf_cesize (committed b) = 0) by (unfold dpbuf_cesize; cbn; lia).
      apply wp_bind. eapply wp_cur; [done|by apply (eseek_cut _ _ _ _ _ Ho2); lia|eapply own_cut; [done|lia]|].
      intros m2 Hm2 Hmx2. apply wp_ret. apply Hfound; [lia|].
      exists [], [], (cut (committed b) (r + zlen pat)), d, bs. rewrite app_nil_r.
      split_and!; [done|done| |left].
      * rewrite (rd_sl_cut _ _ _ _ _ Ho2) by lia. by rewrite Hsl, app_nil_r, Hrd.
      * rewrite (rd_cut _ _ _ _ _ Ho2), HW, <-Hrd, app_nil_r by lia. split_and!; [done| |done].
        replace (r + zlen pat - zlen pat) with r by lia. by split_and!.
    + replace (0 <=? r) with false by lia. apply wp_bind. eapply wp_look; [apply Hm|]. apply wp_ret.
      apply wp_bind. eapply wp_upd_io; [done|]. apply wp_ret.
      assert (HW' : rd (committed b) bs = W0) by congruence. rewrite HW' in *.
      apply (Hnone (committed b) (dpbuf_crsize (committed b)) m); [done|unfold dpbuf_cesize; cbn; lia|done|done| |done].
      rewrite Hlen. unfold dpbuf_crsize. cbn. lia.
  - apply wp_bind. eapply wp_upd_io; [done|]. apply wp_ret.
    assert (Hsl : sl b bs = []) by (unfold sl, slice; by rewrite ztake_nonpos by lia).
    rewrite Hsl, app_nil_r in HW.
    assert (Hz : dpbuf_cesize b = 0) by (unfold dpbuf_cesize in *; lia).
    assert (Hc0 : clear_upto pat W0 0) by (intros j Hj Hj2; lia). pose proof (zlen_nonneg W0).
    pose proof (Hnone b 0 (x_mem x) Hh Hz eq_refl (eq_sym HW) ltac:(lia) Hc0) as HQ. by destruct x.
Qed.

End Op.

Lemma scanning_result e in0 W0 wb0 max got x :
  scanning e in0 W0 wb0 max got x -> until_result e in0 W0 max DPE_WAIT x.
Proof.
  intros (b & d & bs & flag & Hh & Hce & Hrd & Hin & Hg & _ & _ & _ & Hnone & _). exists got, [], b, d, bs.
  split_and!; [done|done| |].
  - rewrite Hrd. unfold sl. by rewrite Hce, slice_0_n, app_nil_r.
  - do 6 right. by split_and!.
Qed.

End Until.

Section UntilOp.
Context {Os : Type} `{StreamOk Os}.

End UntilOp.

(** ** Examples

    The buffer holds five bytes not yet committed; the delimiter, two bytes at
    address 8192, arrives in two pieces. *)

Lemma ex_held : held (ex_buf_mem ex_buf) 5 2 (Ptr 3 0) [120; 121; 122] (ex_buf_mem ex_buf) ex_buf ex_data ex_bytes.
Proof. split; [split|..]; try done. by apply own_set_bufs, ex_own. Qed.

Definition ex_until : ast script := ex_buf_ast ex_buf (Script [[101; 120]; [121; 102]] [] []).


(** The result of an operation with the buffer's window after it. *)
Definition with_window (run : ST (ast script) Z) : ST (ast script) (Z * list Z) :=
  r ← run;
  w ← look 5 (fun b => d ← dpbuf_crdata b; load_bytes d (dpbuf_crsize b));
  mret (r, w).

Example read_until_straddles :
  fst <$> with_window (run_op dpaio_read_until ex_gfd [8192; 2; 4096; 100] [(fun s => s)]) ex_until
  = Some (8, [97; 98; 99; 59; 100; 101; 120; 121]).
Proof. vm_compute. reflexivity. Qed.

(** On a socket the count of bytes searched is passed as the flags of [recv]:
    after two bytes it is [MSG_PEEK], and the same byte is read again and again. *)
Definition peek_sys : IoSys script :=
  script_with script_read
    (fun fd n fl s => if fl =? 2 then ((script_read fd n s).1, s) else script_read fd n s) (fun _ => 0).

Example read_until_socket_flags :
  (fun r => (r.1, rx (x_sys r.2))) <$>
    with_window (run_op (@dpaio_read_until script peek_sys) ex_skt [8192; 2; 4096; 4] [])
      (ex_buf_ast (with_cur ex_buf 0 0 2 8) (Script [[101]] [] []))
  = Some ((DPE_CONTINUE, [97; 98; 101; 101; 101; 101]), [[101]]).
Proof. vm_compute. reflexivity. Qed.
