(* ===== verification/AscTmr.v ===== *)
(** * Timer operations ([lib/dpapp/dpasc.c])

    [dptmr_timeout] and [dptmr_callback] work on a timer element in the world of
    the loops: they store two words in its scratch memory and set its delay.  A
    callback is the user's code, a parameter. *)

From Stdlib Require Import SpecFloat.
From S2P Require Import Prelude Dpret Ele Tmrset World WorldLogic Evp.

#[local] Set Default Proof Using "Type*".

(** The [double] of a 64-bit word. *)
Definition f64_of_bits (w : Z) : spec_float :=
  let s := Z.testbit w 63 in
  let e := Z.land (Z.shiftr w 52) 2047 in
  let m := Z.land w (2 ^ 52 - 1) in
  if e =? 2047 then (if m =? 0 then S754_infinity s else S754_nan)
  else if e =? 0 then match m with Z.pos p => S754_finite s p (-1074) | _ => S754_zero s end
  else S754_finite s (Z.to_pos (m + 2 ^ 52)) (e - 1075).

Section AscTmr.
Context {E : Type} `{Sys E} (run_cb : Z -> loc -> Z -> ST (world E) unit).
Abbreviation M := (ST (world E)).

(** [out->data] as two words; it is [NULL] when there is no scratch memory. *)
Definition data_words (tmr : loc) (out : dpasc_out) : M (Z * list Z) :=
  e ← get_ele tmr;
  if o_data out then lift_opt (e_scratch e) else ub.
Definition set_data_word (tmr : loc) (out : dpasc_out) (i v : Z) : M unit :=
  d ← data_words tmr out;
  upd_ele tmr (fun e => set_scratch e (Some (d.1, splice i [v] d.2))).

(** The result of [dpele_set_timeout] is ignored. *)
Definition _dptmr_timeout_prep (tmr : loc) (arg : list Z) (out : dpasc_out) : M (Z * dpasc_out) :=
  match arg with
  | sec :: a0 :: a1 :: _ =>
      set_data_word tmr out 0 a0;;
      set_data_word tmr out 1 a1;;
      _ ← dpele_set_timeout tmr (f64_of_bits sec);
      mret (DPE_CONTINUE, out)
  | _ => ub
  end.

Definition DPASC_FLAG_ALLOW_DOING : Z := Z.shiftl 1 1.

Definition dptmr_timeout : dpasc E :=
  Asc _dptmr_timeout_prep None (Z.shiftl 1 (type_index DPELE_TYPE_TMR)) 0 16 DPASC_FLAG_ALLOW_DOING.

Definition _dptmr_callback_prep (tmr : loc) (arg : list Z) (out : dpasc_out) : M (Z * dpasc_out) :=
  match arg with
  | sec :: cb :: a1 :: _ =>
      set_data_word tmr out 1 a1;;
      d ← data_words tmr out;
      old ← lift_opt (znth d.2 0);
      if (cb =? 0) && (old =? 0) then mret (DPE_INVAL, out) else
      (if negb (cb =? 0) then set_data_word tmr out 0 cb else mret tt);;
      _ ← dpele_set_timeout tmr (f64_of_bits sec);
      mret (DPE_CONTINUE, out)
  | _ => ub
  end.

Definition _dptmr_callback_post (tmr : loc) (out : dpasc_out) : M (Z * dpasc_out) :=
  d ← data_words tmr out;
  cb ← lift_opt (znth d.2 0);
  a ← lift_opt (znth d.2 1);
  run_cb cb tmr a;;
  mret (DPE_OK, out).

Definition dptmr_callback : dpasc E :=
  Asc _dptmr_callback_prep (Some _dptmr_callback_post) (Z.shiftl 1 (type_index DPELE_TYPE_TMR)) 0 16
    DPASC_FLAG_ALLOW_DOING.

End AscTmr.

(** ** Examples *)

(** A timer is given a callback, then armed again with no callback to keep it: the
    scratch memory has been cleared in between, and the request is refused. *)
Definition ex_tmr_program : program Z :=
  Program (fun n => if n =? 8 then Some (dptmr_callback (fun _ _ _ => mret tt)) else None)
    (fun _ => None) (fun _ => None) (fun _ => None).
Definition ex_tmr_world : world Z :=
  World {[ 1%positive := zero_ele dptmr_init_type ]} 2 [] [] {[ 0 := ex_node 0 ]} (EvpSet 1 1 [] []) (Some 0) 0.

(** [0.5] as a word. *)
Definition half_bits : Z := 0x3FE0000000000000.

Example callback_not_kept :
  fst <$> (a ← dpevp_addv ex_tmr_program 40 (Some 1%positive) (Some 8) [half_bits; 77; 5];
    b ← dpevp_addv ex_tmr_program 40 (Some 1%positive) (Some 8) [half_bits; 0; 5];
    mret (a, b)) ex_tmr_world = Some (DPE_WAIT, DPE_INVAL).
Proof. vm_compute. reflexivity. Qed.
