(* ===== verification/AscLoop.v ===== *)
(** * The operations in the event loop

    The state outside the loops ([env]) is what the operations work on, and their
    scratch memory, by element.  An operation descriptor becomes one of the
    program's ([asc_desc]), and a contract for its [post] ([contract]) that knows
    nothing of elements and loops is enough for the one the loop needs
    ([PostOk]). *)

From S2P Require Import Prelude Dpret Dpbuf DpbufFacts Ele Tmrset World WorldLogic Evp EfdFacts.
From S2P Require Import Aio AscIo AscBuf.

#[local] Set Default Proof Using "Type*".

Record env (Os : Type) := Env { n_scr : gmap loc scratch; n_ast : ast Os }.
Arguments Env {Os}. Arguments n_scr {Os}. Arguments n_ast {Os}.

Section Env.
Context {Os : Type}.

(** The system of the loops is the one of the operations. *)
Definition on_sys {A} (f : Os -> A * Os) (v : env Os) : A * env Os :=
  let '(a, s) := f (x_sys (n_ast v)) in (a, Env (n_scr v) (put_sys_of s (n_ast v))).

#[export] Instance env_sys `{Sys Os} : Sys (env Os) := {|
  millis := on_sys millis;
  epoll_create := on_sys epoll_create;
  epoll_add l fd d evs := on_sys (epoll_add l fd d evs);
  epoll_mod l fd d evs := on_sys (epoll_mod l fd d evs);
  epoll_del l fd := on_sys (epoll_del l fd);
  epoll_wait l t := on_sys (epoll_wait l t);
  fcntl_getfl fd := on_sys (fcntl_getfl fd);
  fcntl_setfl fd fl := on_sys (fcntl_setfl fd fl);
  sys_close fd := on_sys (sys_close fd);
  sys_dup fd := on_sys (sys_dup fd);
|}.

Abbreviation M := (ST (world (env Os))).

Definition with_ext (v : env Os) (w : world (env Os)) : world (env Os) :=
  World (w_eles w) (w_next w) (w_oom w) (w_race w) (w_nodes w) (w_set w) (w_self w) v.

(** Runs [m] with [out] and the scratch memory [d] of the element [x], and keeps
    what it leaves there; no operation replaces [out->data]. *)
Definition run_asc (x : loc) (d : scratch) (args : list Z) (out : dpasc_out) (m : ST (ast Os) Z)
  : M (Z * dpasc_out) :=
  fun w =>
    match m (put_args_of args (put_out_of out (put_data_of d (n_ast (w_ext w))))) with
    | None => None
    | Some (r, a) =>
        let o := x_out a in
        Some ((r, Out (o_want o) (o_inva o) (o_able o) (o_data out)), with_ext (Env (<[x := x_data a]> (n_scr (w_ext w))) a) w)
    end.

Definition scr_of (v : env Os) (x : loc) : scratch := default SNull (n_scr v !! x).

(** [out->data] is [NULL] when there is no scratch memory, and is cleared when an
    operation starts. *)
Definition lift_prep (op : opdesc Os) (x : loc) (args : list Z) (out : dpasc_out) : M (Z * dpasc_out) :=
  e ← get_ele x; run_asc x (if o_data out then op_data op else SNull) args out (op_prep op e).
Definition lift_post (post : dpele -> ST (ast Os) Z) (x : loc) (out : dpasc_out) : M (Z * dpasc_out) :=
  e ← get_ele x; v ← gets w_ext;
  run_asc x (if o_data out then scr_of v x else SNull) [] out (post e).

Definition asc_desc (op : opdesc Os) : dpasc (env Os) :=
  Asc (lift_prep op) (lift_post <$> op_post op) (op_types op) (op_iotypes op) (op_datasz op) (op_flags op).

(** ** The contract, for one operation

    [K] is the invariant of a waiting operation and [nu] bounds its work. *)
Definition contract (post : dpele -> ST (ast Os) Z) (K : dpele -> ast Os -> Prop) (nu : ast Os -> nat) : Prop :=
  forall e a, K (strip e) a -> 0 < o_want (x_out a) -> wp (post e) a (fun r a' =>
    r = DPE_WAIT -> K (strip e) a' /\ 0 < o_want (x_out a') /\
      (o_inva (x_out a') = o_want (x_out a) /\ (nu a' <= nu a)%nat \/ (nu a' < nu a)%nat)).

(** The loop sets the events between two calls, and no arguments. *)
Definition again (want inva able : Z) (a : ast Os) : ast Os :=
  put_args_of [] (put_out_of (Out want inva able true) a).
Definition loose (K : dpele -> ast Os -> Prop) (nu : ast Os -> nat) : Prop :=
  (forall e a inva able, K e a -> K e (again (o_want (x_out a)) inva able a)) /\
  (forall a want inva able, nu (again want inva able a) = nu a).

Definition resumed (v : env Os) (x : loc) (want : Z) : ast Os :=
  again want 0 0 (put_data_of (scr_of v x) (n_ast v)).
Definition waiting (K : dpele -> ast Os -> Prop) (x : loc) (e : dpele) (want : Z) (data : bool) (v : env Os) : Prop :=
  data = true /\ K e (resumed v x want).
Definition work (nu : ast Os -> nat) (x : loc) (v : env Os) : nat := nu (resumed v x 0).

Lemma mask_hit able want : Z.land able (mask5 want) <> 0 -> Z.land able want <> 0.
Proof.
  intros Hm Hz. apply Hm. unfold mask5. by rewrite Z.land_assoc, Hz, Z.land_0_l.
Qed.

Lemma lift_post_ok `{Sys Os} post K nu :
  contract post K nu -> loose K nu -> PostOk (lift_post post) (waiting K) (work nu).
Proof.
  intros Hc [HlK Hlnu] x [want inva able data] w e Hx Ha He Hw Hm [Hd HI]. cbn in *. subst able data.
  unfold lift_post. apply wp_bind. eapply wp_get_ele; [done|]. apply wp_bind, wp_gets. cbn [o_data].
  set (a0 := again want inva (e_able e) (put_data_of (scr_of (w_ext w) x) (n_ast (w_ext w)))).
  specialize (Hc e a0 (HlK _ _ inva (e_able e) HI) Hw). unfold wp, run_asc in *. fold a0.
  change (put_args_of [] (put_out_of (Out want inva (e_able e) true) (put_data_of (scr_of (w_ext w) x) (n_ast (w_ext w)))))
    with a0. destruct (post e a0) as [[r a']|]; [|done].
  exists e. split_and!; try done. cbn [fst snd]. intros Hr. destruct (Hc Hr) as (HK' & Hw' & Hless). split; [done|].
  assert (Hscr : forall want, resumed (Env (<[x:=x_data a']> (n_scr (w_ext w))) a') x want = again want 0 0 a').
  { intros wnt. unfold resumed, scr_of. cbn. rewrite lookup_insert_eq. by destruct a'. }
  split.
  - split; [done|]. cbn [w_ext with_ext]. rewrite Hscr. by apply HlK.
  - unfold work. cbn [w_ext with_ext]. rewrite Hscr, Hlnu. unfold resumed. rewrite Hlnu.
    unfold a0 in Hless. rewrite Hlnu in Hless. cbn in Hless.
    destruct Hless as [[Hinv Hle]|Hlt]; [left|by right; left]. split; [|done].
    cbn [o_inva]. rewrite Hinv. apply mask_hit. by rewrite Hm.
Qed.

End Env.
