(* ===== verification/AscOps.v ===== *)
(** * The stream operations in the event loop

    Each of the seven operations that move a stream through a buffer or a block
    ([dpaio_read_some] to [dpaio_write_data], [lib/dpapp/dpasc.c]) has an invariant
    that holds from its start until its result; under it, the operation keeps the
    contract of the loop ([AscLoop.contract]). *)

From S2P Require Import Prelude Dpret Dpbuf DpbufFacts Ele Tmrset World WorldLogic Evp EfdFacts.
From S2P Require Import Aio AscIo AscBuf AscFacts AscRun AscWrite AscUntil AscLoop.

#[local] Set Default Proof Using "Type*".

Section Inv.
Context {Os : Type}.

(** What is left of the count a stream operation is to move. *)
Definition left_over (a : ast Os) : nat :=
  match x_data a with SStm s => Z.to_nat (stm_len s - io_total (stm_io s)) | _ => O end.

(** An operation in progress: it has not moved all it is to move, and [R] says
    where in the memory its next piece goes or comes from. *)
Definition moves (R : dpaio_stm -> bstore -> Prop) (e : dpele) (a : ast Os) : Prop :=
  plain e 0 /\ exists s, x_data a = SStm s /\ io_flag (stm_io s) = 0 /\
    0 <= io_total (stm_io s) < stm_len s /\ R s (x_mem a).

(** In the caller's block. *)
Definition in_block_at (s : dpaio_stm) (m : bstore) : Prop :=
  exists p l, io_ptr (stm_io s) = Some (PBytes p) /\ room m p (io_len (stm_io s)) l /\
    io_len (stm_io s) = stm_len s - io_total (stm_io s) /\ stm_len s <= INT_MAX.
(** In the free part of a buffer, in its window; [C] is what more the operation
    needs. *)
Definition into_buf (C : dpaio_stm -> dpbuf -> Prop) (s : dpaio_stm) (m : bstore) : Prop :=
  exists pb q b d bs, stm_buf s = Some pb /\ buf_at m pb b q d bs /\
    io_ptr (stm_io s) = Some (PBytes (ptr_add (d_data d) (b_wbeg b))) /\
    0 < io_len (stm_io s) <= dpbuf_cwsize b /\ C s b.
Definition out_of_buf (C : dpaio_stm -> Prop) (s : dpaio_stm) (m : bstore) : Prop :=
  exists pb q b d bs, stm_buf s = Some pb /\ buf_at m pb b q d bs /\
    io_ptr (stm_io s) = Some (PBytes (ptr_add (d_data d) (b_rbeg b))) /\
    0 <= io_len (stm_io s) <= dpbuf_crsize b /\ C s.

Definition room_to_grow (s : dpaio_stm) (b : dpbuf) : Prop :=
  b_wbeg b + (stm_len s - io_total (stm_io s)) < GROW_SAFE.
Definition within_count (s : dpaio_stm) : Prop := io_len (stm_io s) <= stm_len s.

Lemma moves_loose R : loose (moves R) left_over.
Proof. split; [|done]. intros e a inva able (He & s & Hs). split; [done|]. by exists s. Qed.

End Inv.

Section Ops.
Context {Os : Type} `{Sys Os, StreamOk Os}.

(** ** One call of the operation below *)

(** It moves a piece, or stops; asked to wait, the descriptor is used up. *)
Definition serves (idx : Z) (R : dpaio_stm -> bstore -> Prop) : Prop :=
  forall e s (a : ast Os), plain e 0 -> x_data a = SStm s -> io_flag (stm_io s) = 0 ->
    0 <= io_total (stm_io s) < stm_len s -> R s (x_mem a) ->
    wp (sub_post e idx) a (fun r a' => x_data a' = SStm s /\ o_want (x_out a') = o_want (x_out a) /\
      R s (x_mem a') /\
      (0 < r <= io_len (stm_io s) \/ r < 0 /\ (r = DPE_WAIT -> o_inva (x_out a') = o_want (x_out a)))).

Lemma plain_flag e n : plain e 0 -> n = 0 -> plain e n.
Proof. by intros ? ->. Qed.

(** What a loop of calls leaves is enough for [serves]. *)
Lemma stopped_serves s J want r (a' : ast Os) (Q : Prop) :
  (forall k, 0 <= k <= io_len (stm_io s) -> J k a' -> Q) -> stopped s J want r a' ->
  Q /\ o_want (x_out a') = want /\
  (0 < r <= io_len (stm_io s) \/ r < 0 /\ (r = DPE_WAIT -> o_inva (x_out a') = want)).
Proof.
  intros HQ (k & Hk & HJ & Hw & Hr). split_and!; [by eapply HQ|done|].
  destruct Hr as [(-> & Hk0 & _)|[(-> & Hi)|(Hr & _ & Hi & _)]]; [left; lia|right..]; split; try done; try lia.
Qed.

Lemma block_reads : serves 0 in_block_at.
Proof.
  intros e s a He Hd Hf Ht (p & l & Hp & Hroom & Hn & Hmax).
  eapply wp_mono; [eapply wp_sub_read; [done|by apply plain_flag|done|lia|done]|].
  intros r a' Hst. eapply (stopped_serves _ _ _ _ _ (x_data a' = SStm s /\ in_block_at s (x_mem a'))) in Hst;
    [by destruct Hst as ([] & ? & ?)|].
  intros k Hk (bs & s' & er & inv & -> & _ & Hbs). split; [done|].
  exists p, (splice (p_off p) bs l). split_and!; [done| |done|done]. destruct Hroom as (Hb & Ho & Hl).
  eapply room_store_at; [by split_and!|done|done|lia|lia].
Qed.

Lemma block_writes : serves 1 in_block_at.
Proof.
  intros e s a He Hd Hf Ht (p & l & Hp & Hroom & Hn & Hmax).
  eapply wp_mono; [eapply wp_sub_write; [done|by apply plain_flag|done|lia|done]|].
  intros r a' Hst. eapply (stopped_serves _ _ _ _ _ (x_data a' = SStm s /\ in_block_at s (x_mem a'))) in Hst;
    [by destruct Hst as ([] & ? & ?)|].
  intros k Hk (s' & er & inv & -> & _). split; [done|]. by exists p, l.
Qed.

Lemma buf_reads C : serves 0 (into_buf C).
Proof.
  intros e s a He Hd Hf Ht (pb & q & b & d & bs & Hpb & [Hb Ho] & Hp & Hn & HC).
  pose proof (own_bounds _ _ _ _ _ Ho). pose proof (own_hdr _ _ _ _ _ Ho) as Hh. unfold dpbuf_cwsize in *.
  eapply wp_mono; [eapply (wp_sub_read e a s (ptr_add (d_data d) (b_wbeg b)) bs); [done|by apply plain_flag|done|unfold INT_MAX in *; lia|]|].
  { unfold room. cbn. rewrite (hdr_off _ _ _ _ Hh). split_and!; [apply (hdr_blk _ _ _ _ Hh)|lia|lia]. }
  intros r a' Hst. eapply (stopped_serves _ _ _ _ _ (x_data a' = SStm s /\ into_buf C s (x_mem a'))) in Hst;
    [by destruct Hst as ([] & ? & ?)|].
  intros k Hk (cs & s' & er & inv & -> & _ & Hcs). split; [done|].
  destruct (own_filled _ _ _ _ _ Ho cs) as (Ho1 & _ & _ & _ & _ & _ & Ht1); [unfold dpbuf_cwsize; lia|].
  exists pb, q, b, d, (splice (b_wbeg b) cs bs). split; [done|]. by split; [split|].
Qed.

Lemma buf_writes C : serves 1 (out_of_buf C).
Proof.
  intros e s a He Hd Hf Ht (pb & q & b & d & bs & Hpb & [Hb Ho] & Hp & Hn & HC).
  pose proof (own_bounds _ _ _ _ _ Ho). pose proof (own_hdr _ _ _ _ _ Ho) as Hh. unfold dpbuf_crsize in *.
  eapply wp_mono; [eapply (wp_sub_write e a s (ptr_add (d_data d) (b_rbeg b)) bs); [done|by apply plain_flag|done|lia|]|].
  { unfold room. cbn. rewrite (hdr_off _ _ _ _ Hh). split_and!; [apply (hdr_blk _ _ _ _ Hh)|lia|lia]. }
  intros r a' Hst. eapply (stopped_serves _ _ _ _ _ (x_data a' = SStm s /\ out_of_buf C s (x_mem a'))) in Hst;
    [by destruct Hst as ([] & ? & ?)|].
  intros k Hk (s' & er & inv & -> & _). split; [done|]. by exists pb, q, b, d, bs.
Qed.

(** ** The contract, from what follows a call *)

(** [k r] is what the operation does with the result [r] of the call below. *)
Lemma moves_contract idx R (k : dpele -> Z -> ST (ast Os) Z) :
  serves idx R ->
  (forall e s (a : ast Os) r, x_data a = SStm s -> 0 <= io_total (stm_io s) < stm_len s -> r < 0 ->
    wp (k e r) a (fun r' a' => r' = DPE_WAIT -> r = DPE_WAIT /\ a' = a)) ->
  (forall e s (a : ast Os) r, plain e 0 -> x_data a = SStm s -> io_flag (stm_io s) = 0 ->
    0 <= io_total (stm_io s) < stm_len s -> R s (x_mem a) ->
    0 < o_want (x_out a) -> 0 < r <= io_len (stm_io s) ->
    wp (k e r) a (fun r' a' => r' = DPE_WAIT -> 0 < o_want (x_out a') /\ exists s', x_data a' = SStm s' /\
      io_flag (stm_io s') = 0 /\ stm_len s' = stm_len s /\ io_total (stm_io s') = io_total (stm_io s) + r /\
      io_total (stm_io s') < stm_len s' /\ R s' (x_mem a'))) ->
  contract (fun e => r ← sub_post e idx; k e r) (moves R) left_over.
Proof.
  intros Hs Hneg Hpos e a (He & s & Hd & Hf & Ht & HR) Hw. apply wp_bind.
  eapply wp_mono; [by apply (Hs e s)|]. intros r a1 (Hd1 & Hw1 & HR1 & Hr). destruct Hr as [Hr|[Hr Hinva]].
  - eapply wp_mono; [by eapply Hpos; [..|rewrite Hw1|]|]. intros r' a2 Ha2 E.
    destruct (Ha2 E) as (Hw2 & s2 & Hd2 & Hf2 & Hl2 & Ht2 & Hlt & HR2).
    split_and!; [|done|right].
    + split; [done|]. exists s2. split_and!; [done..|lia|done|done].
    + unfold left_over. rewrite Hd, Hd2. lia.
  - eapply wp_mono; [by eapply Hneg|]. intros r' a2 Ha2 E. destruct (Ha2 E) as [Ew ->].
    split_and!; [|by rewrite Hw1|left].
    + split; [done|]. by exists s.
    + split; [by rewrite Hinva|]. unfold left_over. by rewrite Hd, Hd1.
Qed.

Lemma total_waits s (a : ast Os) r :
  x_data a = SStm s -> wp (or_total r) a (fun r' a' => r' = DPE_WAIT -> r = DPE_WAIT /\ a' = a).
Proof.
  intros Hd. eapply wp_or_total; [done|]. case_match; [|done]. unfold DPE_WAIT. lia.
Qed.

(** The operation on the caller's block waits for the rest of it. *)
Lemma data_contract idx ev : serves idx in_block_at -> 0 < ev ->
  contract (fun e => data_post e idx ev) (moves in_block_at) left_over.
Proof.
  intros Hs Hev. apply moves_contract; [done| |].
  - intros e s a r Hd _ Hr. replace (r <=? 0) with true by lia. by eapply total_waits.
  - intros e s a r He Hd Hf Ht (p & l & Hp & (Hb & Ho & Hl) & Hn & Hmax) Hw Hr.
    replace (r <=? 0) with false by lia. apply wp_bind. eapply wp_upd_io; [done|].
    apply wp_bind. eapply wp_get_stm; [done|]. cbn. destruct (Z.leb_spec (stm_len s) (io_total (stm_io s) + r)).
    + apply wp_ret. unfold DPE_WAIT. lia.
    + apply wp_bind. eapply wp_upd_io; [done|]. apply wp_bind, wp_want_again. intros w Hww. apply wp_ret.
      intros _. cbn. split; [destruct Hww as [->| ->]; [done|exact Hw]|]. eexists. split; [done|]. cbn.
      split_and!; [done|done|done|lia|]. exists (ptr_add p r), l. cbn. rewrite Hp. split_and!; [done| |lia|done].
      split_and!; cbn; [done|lia|lia].
Qed.

(** ** Reading into a buffer *)

(** The cursors after [n] bytes read. *)
Lemma wp_advance (a : ast Os) pb q b d bs n (Q : Z -> ast Os -> Prop) :
  buf_at (x_mem a) pb b q d bs -> 0 <= n <= dpbuf_cwsize b ->
  (forall m, buf_at m pb (grown b n) q d bs -> Q n (put_mem_of m a)) ->
  wp (bufop pb (fun b => dpbuf_wseek b n SEEK_CUR)) a Q.
Proof.
  intros [Hb Ho] Hn HQ. pose proof (own_bounds _ _ _ _ _ Ho). unfold dpbuf_cwsize in *.
  eapply wp_bufop_cur; [done|by apply (wseek_grown _ _ _ _ _ Ho)|]. apply HQ. split; [apply lookup_insert_eq|].
  apply own_set_bufs. eapply own_cursors; [done| |done..]. unfold cursors_ok. cbn. lia.
Qed.

Lemma wp_commit (a : ast Os) pb q b d bs (Q : Z -> ast Os -> Prop) :
  buf_at (x_mem a) pb b q d bs ->
  (forall m, buf_at m pb (committed b) q d bs -> Q (dpbuf_cesize b) (put_mem_of m a)) ->
  wp (bufop pb (fun b => dpbuf_eseek b 0 SEEK_END)) a Q.
Proof.
  intros [Hb Ho] HQ. eapply wp_bufop_cur; [done|by apply (eseek_committed _ _ _ _ _ Ho)|].
  apply HQ. split; [apply lookup_insert_eq|]. by apply own_set_bufs, own_committed.
Qed.

Lemma wp_grow (a : ast Os) pb q b d bs n :
  buf_at (x_mem a) pb b q d bs -> 0 < n -> b_wbeg b + n < GROW_SAFE ->
  wp (bufop pb (fun b => dpbuf_resizew b n)) a (fun ok a' => exists m b' d' bs', a' = put_mem_of m a /\
    buf_at m pb b' q d' bs' /\ b_wbeg b' <= b_wbeg b /\ (ok = true -> dpbuf_cwsize b' = n)).
Proof.
  intros [Hb Ho] Hn Hs. eapply wp_bufop; [done|]. eapply wp_mono; [eapply wp_resizew; [done|lia|done]|].
  intros [ok b'] m (d' & bs' & Ho' & Ht & _ & Hle & Hw & _). cbn in *. split; [by apply (tch_bufs _ _ _ Ht)|].
  exists (set_bufs <[pb := b']> m), b', d', bs'. split_and!; [done| |done|].
  - split; [apply lookup_insert_eq|by apply own_set_bufs].
  - intros ->. by apply Hw.
Qed.

Lemma wp_aim_in (a : ast Os) s pb q b d bs n (Q : unit -> ast Os -> Prop) :
  x_data a = SStm s -> buf_at (x_mem a) pb b q d bs ->
  Q tt (put_data_of (SStm (with_io s (with_len (with_ptr (stm_io s) (Some (PBytes (ptr_add (d_data d) (b_wbeg b)))))
    (default (dpbuf_cwsize b) n)))) a) -> wp (aim_write pb n) a Q.
Proof.
  intros Hd [Hb Ho] HQ. unfold aim_write. apply wp_bind. eapply wp_look; [done|].
  eapply wp_cur_data; [done|]. apply wp_bind. eapply wp_look; [done|]. apply wp_ret. cbn.
  eapply wp_upd_io; [done|]. by destruct a.
Qed.

Lemma wp_stm_loc (a : ast Os) s pb (Q : loc -> ast Os -> Prop) :
  x_data a = SStm s -> stm_buf s = Some pb -> Q pb a -> wp stm_loc a Q.
Proof.
  intros Hd Hb HQ. unfold stm_loc. apply wp_bind. eapply wp_get_stm; [done|]. by eapply wp_lift_opt.
Qed.

Lemma read_some_contract : contract _dpaio_read_some_post (moves (into_buf room_to_grow)) left_over.
Proof.
  apply (moves_contract 0); [apply buf_reads| |].
  - intros e s a r Hd _ Hr. replace (r <=? 0) with true by lia. by eapply total_waits.
  - intros e s a r He Hd Hf Ht (pb & q & b & d & bs & Hpb & Hb & Hp & Hn & HC) Hw Hr.
    replace (r <=? 0) with false by lia. apply wp_bind. eapply wp_upd_io; [done|].
    apply wp_bind. eapply wp_stm_loc; [done|done|].
    apply wp_bind. eapply wp_advance; [done|lia|]. intros m1 Hm1. apply wp_bind. eapply wp_commit; [done|].
    intros m2 Hm2. apply wp_bind. eapply wp_get_stm; [done|]. cbn.
    destruct (_ || _) eqn:E; [apply wp_ret; unfold DPE_WAIT; lia|].
    apply orb_false_iff in E as [_ E]. apply Z.leb_gt in E. unfold room_to_grow in HC.
    pose proof (batch_range (stm_len s - (io_total (stm_io s) + r)) ltac:(lia)).
    apply wp_bind. eapply wp_mono; [eapply wp_grow; [done|lia|cbn; lia]|].
    intros ok a2 (m3 & b3 & d3 & bs3 & -> & Hm3 & Hle & Hcw). cbn in Hle. destruct ok; cbn [negb].
    + apply wp_bind. eapply wp_aim_in; [done|done|]. apply wp_ret. intros _. split; [done|].
      eexists. split; [done|]. cbn. split_and!; [done|done|done|lia|].
      exists pb, q, b3, d3, bs3. split; [done|]. split; [done|]. cbn. split; [done|]. rewrite Hcw by done.
      split; [lia|]. unfold room_to_grow. cbn. lia.
    + eapply wp_or_total; [done|]. cbn. case_match; unfold DPE_WAIT, DPE_NOMEM; lia.
Qed.

Lemma read_must_contract :
  contract _dpaio_read_must_post (moves (into_buf (fun s _ => within_count s))) left_over.
Proof.
  apply (moves_contract 0); [apply buf_reads| |].
  - intros e s a r Hd _ Hr. replace (r <=? 0) with true by lia. by eapply total_waits.
  - intros e s a r He Hd Hf Ht (pb & q & b & d & bs & Hpb & Hb & Hp & Hn & HC) Hw Hr.
    replace (r <=? 0) with false by lia. apply wp_bind. eapply wp_upd_io; [done|].
    apply wp_bind. eapply wp_stm_loc; [done|done|].
    apply wp_bind. eapply wp_advance; [done|lia|]. intros m1 Hm1. apply wp_bind. eapply wp_get_stm; [done|]. cbn.
    destruct (Z.leb_spec (io_len (stm_io s)) (io_total (stm_io s) + r)); [apply wp_ret; unfold DPE_WAIT; lia|].
    apply wp_bind. eapply wp_aim_in; [done|done|]. apply wp_bind, wp_want_again. intros w Hww. apply wp_ret.
    intros _. split; [destruct Hww as [->| ->]; [done|exact Hw]|]. eexists. split; [done|]. unfold within_count in HC.
    cbn. split_and!; [done|done|done|lia|]. exists pb, q, (grown b r), d, bs. split; [done|]. split; [done|].
    split; [done|]. unfold within_count, dpbuf_cwsize in *. cbn. lia.
Qed.

(** ** Writing out of a buffer *)

Lemma wp_retire (a : ast Os) pb q b d bs n (Q : Z -> ast Os -> Prop) :
  buf_at (x_mem a) pb b q d bs -> 0 <= n <= dpbuf_crsize b ->
  (forall m, buf_at m pb (consumed b n) q d bs -> Q n (put_mem_of m a)) ->
  wp (bufop pb (fun b => dpbuf_rseek b n SEEK_CUR)) a Q.
Proof.
  intros [Hb Ho] Hn HQ.
  assert (Hc0 : consumed b 0 = b) by (unfold consumed, with_rbeg, with_cur; rewrite Z.add_0_r; by destruct b).
  eapply wp_bufop_cur; [done| |].
  - rewrite <-Hc0 at 1. by apply (rseek_consumed _ _ _ _ _ 0 n _ Ho); lia.
  - apply HQ. split; [apply lookup_insert_eq|]. by apply own_set_bufs, own_consumed.
Qed.

(** Both writes go on behind what they have sent. *)
Lemma write_goes_on (C : dpaio_stm -> Prop) e s (a : ast Os) r pb q b d bs m :
  buf_at m pb (consumed b r) q d bs -> x_data a = SStm s -> x_mem a = m ->
  stm_buf s = Some pb -> io_ptr (stm_io s) = Some (PBytes (ptr_add (d_data d) (b_rbeg b))) ->
  r <= io_len (stm_io s) <= dpbuf_crsize b -> io_flag (stm_io s) = 0 -> io_total (stm_io s) < stm_len s ->
  0 < o_want (x_out a) -> (forall s', stm_len s' = stm_len s -> io_len (stm_io s') = io_len (stm_io s) - r -> C s') ->
  wp (io_shift r;; want_again e DPEVT_OUT;; mret DPE_WAIT) a (fun _ a' => 0 < o_want (x_out a') /\
    exists s', x_data a' = SStm s' /\ io_flag (stm_io s') = 0 /\ stm_len s' = stm_len s /\
      io_total (stm_io s') = io_total (stm_io s) /\ io_total (stm_io s') < stm_len s' /\ out_of_buf C s' (x_mem a')).
Proof.
  intros Hb Hd Hm Hpb Hp Hn Hf Ht Hw HC. apply wp_bind. eapply wp_upd_io; [done|].
  apply wp_bind, wp_want_again. intros w Hww. apply wp_ret. cbn. split; [destruct Hww as [->| ->]; [done|exact Hw]|].
  eexists. split; [done|]. cbn. split_and!; [done..|]. exists pb, q, (consumed b r), d, bs. rewrite Hm. split; [done|].
  split; [done|]. cbn. rewrite Hp. cbn. rewrite ptr_add_add. split; [done|]. unfold dpbuf_crsize in *. cbn.
  split; [lia|]. by apply HC.
Qed.

Lemma write_some_contract : contract _dpaio_write_some_post (moves (out_of_buf (fun _ => True))) left_over.
Proof.
  apply (moves_contract 1); [apply buf_writes| |].
  - intros e s a r Hd Ht Hr. apply wp_bind. eapply wp_get_stm; [done|]. replace (r <=? 0) with true by lia.
    replace (stm_len s <=? _) with false by lia. by apply wp_ret.
  - intros e s a r He Hd Hf Ht (pb & q & b & d & bs & Hpb & Hb & Hp & Hn & _) Hw Hr.
    apply wp_bind. eapply wp_get_stm; [done|]. replace (r <=? 0) with false by lia.
    apply wp_bind. eapply wp_upd_io; [done|]. apply wp_bind. eapply wp_stm_loc; [done|done|].
    apply wp_bind. eapply wp_retire; [done|lia|]. intros m1 Hm1. apply wp_bind. eapply wp_get_stm; [done|]. cbn.
    destruct (Z.leb_spec (stm_len s) (io_total (stm_io s) + r)); [apply wp_ret; unfold DPE_WAIT; lia|].
    eapply wp_mono; [eapply (write_goes_on (fun _ => True)); try done; cbn; lia|]. auto.
Qed.

Lemma write_must_contract : contract _dpaio_write_must_post (moves (out_of_buf within_count)) left_over.
Proof.
  apply (moves_contract 1); [apply buf_writes| |].
  - intros e s a r Hd _ Hr. replace (r <=? 0) with true by lia. by eapply total_waits.
  - intros e s a r He Hd Hf Ht (pb & q & b & d & bs & Hpb & Hb & Hp & Hn & HC) Hw Hr.
    replace (r <=? 0) with false by lia.
    apply wp_bind. eapply wp_upd_io; [done|]. apply wp_bind. eapply wp_stm_loc; [done|done|].
    apply wp_bind. eapply wp_retire; [done|lia|]. intros m1 Hm1. apply wp_bind. eapply wp_get_stm; [done|]. cbn.
    unfold within_count in HC.
    destruct (Z.leb_spec (io_len (stm_io s)) (io_total (stm_io s) + r)); [apply wp_ret; unfold DPE_WAIT; lia|].
    eapply wp_mono; [eapply (write_goes_on within_count); try done; cbn; [lia|lia|]|].
    + unfold within_count. cbn. intros s' -> ->. lia.
    + auto.
Qed.

(** ** Reading up to a delimiter: the invariant of [AscUntil] *)

Definition searches_on (e : dpele) (a : ast Os) : Prop :=
  ty_iotype (e_type e) = DPAIO_TYPE_GFD /\ exists m0 pb q u lu pat in0 W0 wb0 max got,
    slice (p_off u) (zlen pat) lu = pat /\ 0 <= p_off u /\ p_off u + zlen pat <= zlen lu /\ 0 < zlen pat /\
    wb0 + max < GROW_SAFE /\ scanning m0 pb q u lu pat e in0 W0 wb0 max got a.

Lemma searches_contract : contract _dpaio_read_until_post searches_on left_over.
Proof.
  intros e a (He & m0 & pb & q & u & lu & pat & in0 & W0 & wb0 & max & got & Hpat & Hu & Hul & Hp & Hmax & Hg) Hw.
  eapply wp_mono; [by apply (until_step m0 pb q u lu pat Hpat Hu Hul Hp e in0 W0 wb0 max He Hmax got)|]. cbv beta.
  intros r a' [(-> & got' & Hle & Hg' & Hinv)|[Hr _]] ?; [|done].
  split; [split; [done|]; exists m0, pb, q, u, lu, pat, in0, W0, wb0, max, got'; by split_and!|].
  assert (Hn : forall g a, scanning m0 pb q u lu pat e in0 W0 wb0 max g a ->
    left_over a = Z.to_nat (max - zlen g) /\ zlen g < max /\ 0 < o_want (x_out a)).
  { intros g y (b & d & bs & fl & _ & _ & _ & _ & Hgy & Hwy & _ & _ & _ & _ & _ & f2 & Hd). unfold left_over. by rewrite Hd. }
  destruct (Hn _ _ Hg) as (-> & ? & _), (Hn _ _ Hg') as (-> & ? & ?). cbn. split; [done|].
  destruct (Z.eq_dec (zlen got') (zlen got)) as [Heq|]; [left; split; [auto|rewrite Heq; lia]|right; lia].
Qed.

Lemma searches_loose : loose searches_on left_over.
Proof.
  split; [|done].
  intros e a inva able (He & m0 & pb & q & u & lu & pat & in0 & W0 & wb0 & max & got & Hpat & Hu & Hul & Hp & Hmax & Hg).
  split; [done|]. by exists m0, pb, q, u, lu, pat, in0, W0, wb0, max, got.
Qed.

(** ** Starting an operation

    What the caller passes: a block with room for the count, or a buffer that owns
    its storage; and the delimiter, which is not in that storage. *)

Definition asks_block (e : dpele) (args : list Z) (a : ast Os) : Prop :=
  plain e 0 /\ exists ua len rest p l, args = ua :: len :: rest /\ ua <> 0 /\ x_addr a !! ua = Some (PBytes p) /\
    0 < len <= INT_MAX /\ room (x_mem a) p len l.
Definition asks_buf (C : Z -> dpbuf -> Prop) (e : dpele) (args : list Z) (a : ast Os) : Prop :=
  plain e 0 /\ exists ua len rest pb q b d bs, args = ua :: len :: rest /\ ua <> 0 /\
    x_addr a !! ua = Some (PBuf pb) /\ 0 < len /\ buf_at (x_mem a) pb b q d bs /\ C len b.
Definition grows_by (len : Z) (b : dpbuf) : Prop := b_wbeg b + len < GROW_SAFE.
Definition has_in_window (len : Z) (b : dpbuf) : Prop := len <= dpbuf_crsize b.
Definition asks_until (e : dpele) (args : list Z) (a : ast Os) : Prop :=
  ty_iotype (e_type e) = DPAIO_TYPE_GFD /\ exists ua u lu pat ba len rest pb q b d bs,
    args = ua :: zlen pat :: ba :: len :: rest /\ ua <> 0 /\ x_addr a !! ua = Some (PBytes u) /\
    slice (p_off u) (zlen pat) lu = pat /\ 0 <= p_off u /\ p_off u + zlen pat <= zlen lu /\ 0 < zlen pat /\
    ba <> 0 /\ x_addr a !! ba = Some (PBuf pb) /\ 0 < len /\ held (x_mem a) pb q u lu (x_mem a) b d bs /\
    grows_by len b.

(** Started, the operation is over, or waits and [K] holds. *)
Definition starts (prep : dpele -> ST (ast Os) Z) (asks : dpele -> list Z -> ast Os -> Prop)
    (K : dpele -> ast Os -> Prop) : Prop :=
  forall e args a, asks e args a ->
    wp (prep e) (put_args_of args (put_data_of (SStm zero_stm) a)) (fun r a' =>
      r = DPE_CONTINUE -> K (strip e) a' /\ 0 < o_want (x_out a')).

Lemma data_starts idx ev : idx = 0 /\ ev = DPEVT_IN \/ idx = 1 /\ ev = DPEVT_OUT ->
  starts (fun e => data_prep e idx) asks_block (moves in_block_at).
Proof.
  intros Hi e args a (He & ua & len & rest & p & l & -> & Hua & Hx & Hlen & Hroom).
  apply wp_bind. eapply (wp_sub_prep idx ev); [done|done|done|done|done|done|lia|]. cbn.
  apply wp_bind. eapply wp_upd_stm; [done|]. apply wp_ret. intros _. cbn.
  split; [|destruct Hi as [[_ ->]|[_ ->]]; done]. split; [done|]. eexists. split; [done|]. cbn.
  split_and!; [done|done|lia|]. exists p, l. cbn. split_and!; [done|done|lia|lia].
Qed.

(** What the operations on a buffer have in common. *)
Lemma buf_starts idx ev C prep (rest : dpele -> Z -> loc -> ST (ast Os) Z) K :
  (forall e, prep e = (ret ← sub_prep e idx; if negb (ret =? DPE_CONTINUE) then mret ret else p ← take_buf; rest e ret p)) ->
  idx = 0 /\ ev = DPEVT_IN \/ idx = 1 /\ ev = DPEVT_OUT ->
  (forall e (a : ast Os) s pb q b d bs, plain e 0 -> buf_at (x_mem a) pb b q d bs -> x_data a = SStm s ->
    stm_buf s = Some pb -> io_flag (stm_io s) = 0 -> io_total (stm_io s) = 0 -> io_len (stm_io s) = stm_len s -> 0 < stm_len s -> C (stm_len s) b ->
    0 < o_want (x_out a) ->
    wp (rest e DPE_CONTINUE pb) a (fun r a' => r = DPE_CONTINUE -> K (strip e) a' /\ 0 < o_want (x_out a'))) ->
  starts prep (asks_buf C) K.
Proof.
  intros Hprep Hi HK e args a (He & ua & len & rs & pb & q & b & d & bs & -> & Hua & Hx & Hlen & Hb & HC).
  rewrite Hprep. apply wp_bind. eapply (wp_sub_prep idx ev); [done|done|done|done|done|done|lia|]. cbn.
  apply wp_bind. unfold take_buf. apply wp_bind. eapply wp_get_stm; [done|]. cbn.
  apply wp_bind. eapply wp_put_stm; [done|]. apply wp_ret.
  eapply HK; try done. by destruct Hi as [[_ ->]|[_ ->]].
Qed.

Lemma read_some_starts : starts _dpaio_read_some_prep (asks_buf grows_by) (moves (into_buf room_to_grow)).
Proof.
  eapply (buf_starts 0 DPEVT_IN); [reflexivity|by left|]. intros e a s pb q b d bs He Hb Hd Hpb Hf Ht _ Hl HC Hw.
  pose proof (own_bounds _ _ _ _ _ (ba_own _ _ _ _ _ _ Hb)). unfold grows_by in HC.
  apply wp_bind. eapply wp_get_stm; [done|]. apply wp_bind. eapply wp_commit; [done|]. intros m1 Hm1.
  destruct (Z.leb_spec (stm_len s) (dpbuf_cesize b)); [apply wp_ret; unfold dpbuf_cesize, DPE_CONTINUE in *; lia|].
  pose proof (batch_range (stm_len s - dpbuf_cesize b) ltac:(lia)). unfold dpbuf_cesize in *.
  apply wp_bind. eapply wp_mono; [eapply wp_grow; [done|lia|cbn; lia]|].
  intros ok a2 (m2 & b2 & d2 & bs2 & -> & Hm2 & Hle & Hcw). destruct ok; cbn [negb]; [|by apply wp_ret].
  apply wp_bind. eapply wp_aim_in; [done|done|]. apply wp_ret. intros _. split; [|done]. split; [done|].
  eexists. split; [done|]. cbn in *. split_and!; [done|lia|lia|]. exists pb, q, b2, d2, bs2. split; [done|].
  split; [done|]. split; [done|]. cbn. rewrite Hcw by done. split; [lia|]. unfold room_to_grow. cbn. lia.
Qed.

Lemma read_must_starts :
  starts _dpaio_read_must_prep (asks_buf grows_by) (moves (into_buf (fun s _ => within_count s))).
Proof.
  eapply (buf_starts 0 DPEVT_IN); [reflexivity|by left|]. intros e a s pb q b d bs He Hb Hd Hpb Hf Ht _ Hl HC Hw.
  pose proof (own_bounds _ _ _ _ _ (ba_own _ _ _ _ _ _ Hb)) as Hbd. unfold grows_by in HC.
  apply wp_bind. eapply wp_get_stm; [done|]. apply wp_bind. eapply wp_look; [apply Hb|]. apply wp_ret.
  destruct (Z.leb_spec (stm_len s) (dpbuf_cesize b)) as [Hle|Hgt].
  - unfold dpbuf_cesize in Hle.
    eapply (wp_bufop_cur _ _ _ _ (stm_len s) (with_rend b (b_rend b + stm_len s))); [apply Hb| |unfold DPE_CONTINUE; lia].
    unfold dpbuf_eseek, mbind, ST_bind, lift_opt. cbn. unfold with_rend.
    rewrite int_val_id by (unfold is_i32, INT_MIN, INT_MAX in *; lia). unfold mret, ST_ret. cbn.
    assert (_iclamp (b_rend b + stm_len s) (b_rbeg b) (b_wbeg b) = b_rend b + stm_len s) as ->
      by (unfold _iclamp; repeat case_match; lia).
    do 3 f_equal. lia.
  - unfold dpbuf_cesize in *. apply wp_bind. eapply wp_mono; [eapply wp_grow; [done|lia|lia]|].
    intros ok a2 (m2 & b2 & d2 & bs2 & -> & Hm2 & Hle & Hcw). destruct ok; cbn [negb]; [|by apply wp_ret].
    apply wp_bind. eapply wp_aim_in; [done|done|]. apply wp_ret. intros _. split; [|done]. split; [done|].
    eexists. split; [done|]. cbn in *. split_and!; [done|lia|lia|]. exists pb, q, b2, d2, bs2. split; [done|].
    split; [done|]. split; [done|]. unfold within_count. cbn. rewrite Hcw by done. lia.
Qed.

(** The writes aim at the start of the window. *)
Lemma wp_aim_out (a : ast Os) s pb q b d bs n (Q : unit -> ast Os -> Prop) :
  x_data a = SStm s -> buf_at (x_mem a) pb b q d bs ->
  Q tt (put_data_of (SStm (with_io s (with_len (with_ptr (stm_io s) (Some (PBytes (ptr_add (d_data d) (b_rbeg b)))))
    (default (dpbuf_crsize b) n)))) a) -> wp (aim_read pb n) a Q.
Proof.
  intros Hd [Hb Ho] HQ. unfold aim_read. apply wp_bind. eapply wp_look; [done|].
  eapply wp_cur_data; [done|]. apply wp_bind. eapply wp_look; [done|]. apply wp_ret. cbn.
  eapply wp_upd_io; [done|]. by destruct a.
Qed.

Lemma write_some_starts :
  starts _dpaio_write_some_prep (asks_buf (fun _ _ => True)) (moves (out_of_buf (fun _ => True))).
Proof.
  eapply (buf_starts 1 DPEVT_OUT); [reflexivity|by right|]. intros e a s pb q b d bs He Hb Hd Hpb Hf Ht _ Hl _ Hw.
  pose proof (own_bounds _ _ _ _ _ (ba_own _ _ _ _ _ _ Hb)).
  apply wp_bind. eapply wp_aim_out; [done|done|]. apply wp_ret. intros _. split; [|done]. split; [done|].
  eexists. split; [done|]. cbn. split_and!; [done|lia|lia|]. exists pb, q, b, d, bs. split; [done|]. split; [done|].
  split; [done|]. cbn. unfold dpbuf_crsize. split; [lia|done].
Qed.

Lemma write_must_starts : starts _dpaio_write_must_prep (asks_buf has_in_window) (moves (out_of_buf within_count)).
Proof.
  eapply (buf_starts 1 DPEVT_OUT); [reflexivity|by right|]. intros e a s pb q b d bs He Hb Hd Hpb Hf Ht _ Hl HC Hw.
  pose proof (own_bounds _ _ _ _ _ (ba_own _ _ _ _ _ _ Hb)).
  apply wp_bind. eapply wp_get_stm; [done|]. apply wp_bind. eapply wp_aim_out; [done|done|]. apply wp_ret. intros _.
  split; [|done]. split; [done|]. eexists. split; [done|]. cbn. split_and!; [done|lia|lia|].
  exists pb, q, b, d, bs. split; [done|]. split; [done|]. split; [done|]. unfold within_count, has_in_window in *. cbn. lia.
Qed.

Lemma read_until_starts : starts _dpaio_read_until_prep asks_until searches_on.
Proof.
  intros e args x (He & ua & u & lu & pat & ba & max & rest & pb & q & b & d & bs & -> & Hua & Hux & Hpat & Hu & Hul &
    Hp & Hba & Hbx & Hmax & Hh & Hsafe).
  set (in0 := inflow (x_sys x) (union_fd e)). set (W0 := rd b bs ++ sl b bs). unfold grows_by in Hsafe.
  unfold _dpaio_read_until_prep. apply wp_bind. eapply wp_va_ptr; [done|done|done|].
  apply wp_bind. eapply wp_va_int; [done|]. apply wp_bind. eapply wp_upd_stm; [done|].
  replace (zlen pat <? 1) with false by lia. cbn [bool_decide is_Some_dec negb orb decide_rel]. apply wp_bind.
  eapply (wp_sub_prep 0 DPEVT_IN); [by left|by left|done|done|done|done|lia|]. cbn.
  apply wp_bind. unfold take_buf. apply wp_bind. eapply wp_get_stm; [done|]. cbn.
  apply wp_bind. eapply wp_put_stm; [done|]. apply wp_ret. apply wp_bind. eapply wp_look; [apply Hh|]. apply wp_ret.
  apply wp_bind. eapply (wp_until_prep_search (x_mem x) pb q u lu pat Hpat Hu Hul Hp e in0 W0 (b_wbeg b) max He Hsafe);
    [done|done|done|done| |].
  - intros r x' Hr _. apply wp_ret. unfold DPE_CONTINUE. lia.
  - intros b' flag m Hh' Hce Hwb Hrd Hflag Hclear. apply wp_bind. eapply wp_get_stm; [done|]. cbn.
    pose proof (batch_range max ltac:(lia)). apply wp_bind.
    eapply wp_mono; [eapply (wp_make_room (x_mem x) pb q u lu pat Hpat Hu Hul Hp); [done|lia|lia]|].
    intros ok x2 (m' & b2 & d2 & bs2 & -> & Hh2 & Hrd2 & Hsl2 & Hce2 & Hcr2 & Hwb2 & Hcw).
    destruct ok; cbn [negb]; [|by apply wp_ret].
    apply wp_bind. eapply (wp_aim_write (x_mem x) pb q u lu pat Hpat Hu Hul Hp); [done|done|]. apply wp_ret. cbn.
    intros _. split; [|done]. split; [done|].
    exists (x_mem x), pb, q, u, lu, pat, in0, W0, (b_wbeg b), max, []. split_and!; [done..|].
    exists b2, d2, bs2, flag. rewrite !app_nil_r. split_and!; try done; try congruence; rewrite ?zlen_nil; try lia.
    by exists 0.
Qed.

(** ** All of them *)

(** The operation [op], given what it [asks] for, is over at once or waits in [K];
    and then it keeps the contract of the loop. *)
Definition stream_op (op : opdesc Os) (asks : dpele -> list Z -> ast Os -> Prop) (K : dpele -> ast Os -> Prop) : Prop :=
  op_data op = SStm zero_stm /\ starts (op_prep op) asks K /\
  exists post, op_post op = Some post /\ PostOk (lift_post post) (waiting K) (work left_over).

Lemma stream_op_intro prep post asks K :
  starts prep asks K -> contract post K left_over -> loose K left_over ->
  stream_op (DPAIO_FUNCTION prep post) asks K.
Proof. intros Hs Hc Hl. split; [done|]. split; [done|]. exists post. split; [done|]. by apply lift_post_ok. Qed.

(** C18. The seven stream operations ([dpaio_read_some], [write_some], [read_must],
    [write_must], [read_data], [write_data], [read_until]) on a plain descriptor or
    a socket ([read_until]: a plain descriptor) keep the contract of the event loop.
    Started on a block with room, or on a buffer that owns its storage, stays below a
    gigabyte and, for [write_must], holds all that is to be written, each is over at
    once or waits in its invariant; and whatever the system answers, a later call
    that asks to wait keeps the invariant and gives up the event it was called for,
    or has moved at least one byte of what is left. *)
Theorem stream_operations_post_ok :
  stream_op dpaio_read_some (asks_buf grows_by) (moves (into_buf room_to_grow)) /\
  stream_op dpaio_write_some (asks_buf (fun _ _ => True)) (moves (out_of_buf (fun _ => True))) /\
  stream_op dpaio_read_must (asks_buf grows_by) (moves (into_buf (fun s _ => within_count s))) /\
  stream_op dpaio_write_must (asks_buf has_in_window) (moves (out_of_buf within_count)) /\
  stream_op dpaio_read_data asks_block (moves in_block_at) /\
  stream_op dpaio_write_data asks_block (moves in_block_at) /\
  stream_op dpaio_read_until asks_until searches_on.
Proof.
  split_and!; apply stream_op_intro; auto using moves_loose, searches_loose.
  - apply read_some_starts.
  - apply read_some_contract.
  - apply write_some_starts.
  - apply write_some_contract.
  - apply read_must_starts.
  - apply read_must_contract.
  - apply write_must_starts.
  - apply write_must_contract.
  - apply (data_starts 0 DPEVT_IN). by left.
  - apply (data_contract 0 DPEVT_IN); [apply block_reads|done].
  - apply (data_starts 1 DPEVT_OUT). by right.
  - apply (data_contract 1 DPEVT_OUT); [apply block_writes|done].
  - apply read_until_starts.
  - apply searches_contract.
Qed.

End Ops.

(** ** Examples

    A descriptor is given [dpaio_read_data] of six bytes, which arrive in two
    pieces: the first event is not enough, the second ends the operation. *)

#[export] Instance script_loop : Sys script := {|
  millis s := (0, s);
  epoll_create s := (0, s);
  epoll_add _ _ _ _ s := (0, s);
  epoll_mod _ _ _ _ s := (0, s);
  epoll_del _ _ s := (0, s);
  epoll_wait _ _ s := ([], s);
  fcntl_getfl _ s := (0, s);
  fcntl_setfl _ _ s := (0, s);
  sys_close _ s := (0, s);
  sys_dup _ s := (-1, s);
|}.

(** The operation as it is started, and the element with the first event. *)
Definition ex_asked : ast script := ex_ast (Script [[1; 2]; [3; 4; 5; 6; 7]] [] []).
Definition ex_started : ast script :=
  default ex_asked (snd <$> _dpaio_read_data_prep ex_gfd (put_args_of [4096; 6] (put_data_of (SStm zero_stm) ex_asked))).
Definition ex_ready : world (env script) :=
  World {[ 1%positive := set_able (set_want ex_gfd 1) 1 ]} 2 [] [] {[ 0 := ex_node 0 ]} (EvpSet 1 1 [] []) (Some 0)
    (Env {[ 1%positive := x_data ex_started ]} ex_started).

(** Two bytes come: the operation waits on, in its invariant, with four left. *)
Lemma stream_operations_post_ok_witness :
  exists out w, lift_post _dpaio_read_data_post 1 (Out 1 0 1 true) ex_ready = Some ((DPE_WAIT, out), w) /\
    work left_over 1 (w_ext ex_ready) = 6%nat /\ work left_over 1 (w_ext w) = 4%nat /\
    waiting (moves in_block_at) 1 (strip ex_gfd) (o_want out) (o_data out) (w_ext w).
Proof.
  destruct (stream_operations_post_ok (Os := script)) as (_ & _ & _ & _ & (_ & Hstart & post & Epost & Hok) & _ & _).
  injection Epost as <-.
  assert (HK : moves in_block_at (strip ex_gfd) ex_started).
  { assert (Ha : asks_block ex_gfd [4096; 6] ex_asked).
    { split; [by left|]. exists 4096, 6, [], (Ptr 1 0), (replicate 16 0). by split_and!. }
    specialize (Hstart _ _ _ Ha). unfold wp in Hstart.
    assert (Hrun : op_prep dpaio_read_data ex_gfd (put_args_of [4096; 6] (put_data_of (SStm zero_stm) ex_asked))
      = Some (DPE_CONTINUE, ex_started)) by (vm_compute; reflexivity).
    rewrite Hrun in Hstart. by apply Hstart. }
  assert (HW : waiting (moves in_block_at) 1 (strip (set_able (set_want ex_gfd 1) 1)) 1 true (w_ext ex_ready)).
  { split; [done|]. exact HK. }
  specialize (Hok 1%positive (Out 1 0 1 true) ex_ready _ eq_refl eq_refl ltac:(done) ltac:(done) eq_refl HW).
  unfold wp in Hok. destruct (lift_post _dpaio_read_data_post 1 (Out 1 0 1 true) ex_ready) as [[[r out] w]|] eqn:E; [|done].
  destruct Hok as (e' & _ & _ & _ & _ & _ & Hwait).
  assert (Hr : (fun x => (x.1.1, work left_over 1 (w_ext x.2))) <$> Some (r, out, w) = Some (DPE_WAIT, 4%nat))
    by (rewrite <-E; vm_compute; reflexivity).
  injection Hr as -> Hwork. destruct (Hwait eq_refl) as (_ & HI & _). exists out, w. by split_and!.
Defined.

Definition ex_stream_program : program (env script) :=
  Program (fun n => if n =? 9 then Some (asc_desc dpaio_read_data) else None)
    (fun _ => None) (fun _ => None) (fun _ => None).
Definition ex_stream_world : world (env script) :=
  World {[ 1%positive := ex_gfd ]} 2 [] [] {[ 0 := ex_node 0 ]} (EvpSet 1 1 [] []) (Some 0) (Env ∅ ex_asked).

Example read_data_fed :
  fst <$> (a ← dpevp_addv ex_stream_program 40 (Some 1%positive) (Some 9) [4096; 6];
    f1 ← _dpefd_feed ex_stream_program 40 1 DPEVT_IN;
    f2 ← _dpefd_feed ex_stream_program 40 1 DPEVT_IN;
    r ← dpele_ret 1;
    bs ← gets (fun w => ztake 7 (default [] (st_blks (x_mem (n_ast (w_ext w))) !! 1%positive)));
    mret (a, f1, f2, r, bs)) ex_stream_world
  = Some (DPE_WAIT, false, true, 6, [1; 2; 3; 4; 5; 6; 0]).
Proof. vm_compute. reflexivity. Qed.
