(* ===== verification/SycFacts.v ===== *)
(** * The path operations make the calls they are named after

    Each operation of [AscSyc], with the call its documentation in [dpasc.h]
    promises for the arguments given, in their order, and how the call made differs
    from it. *)

From S2P Require Import Prelude Dpret Ele Tmrset World Aio AscIo AscSyc AscFacts.

#[local] Set Default Proof Using "Type*".

Section SycFacts.
Context {Os : Type} `{IoSys Os}.
Abbreviation X := (ST (ast Os)).

(** The operation, run where it ends up: [prep] with cleared scratch memory,
    then [post]. *)
Definition run_call (op : opdesc Os) (e : dpele) (args : list Z) : X Z :=
  modify (put_args_of args);;
  modify (put_data_of (op_data op));;
  r ← op_prep op e;
  if negb (r =? DPE_CONTINUE) then mret r else
  post ← lift_opt (op_post op); post e.

(** What a call gives: a descriptor or a count, or nothing but success. *)
Inductive gives_back := Value | Success.

(** The caller's pointers must not be [NULL]. *)
Definition unless_null (ps : list Z) (c : syscall) : option syscall :=
  if existsb (fun p => p =? NULL) ps then None else Some c.

(** The documented meaning: the number of arguments, and the call made with
    them ([None]: refused). *)
Definition path_op : Type := opdesc Os * nat * (list Z -> option syscall) * gives_back.

Definition u32 (m : Z) : Z := to_u32 (to_i32 m).

Definition path_ops : list path_op := [
  (dpsyc_madvise, 3%nat, fun a => match a with [p; n; adv] =>
    if (p =? NULL) || (to_u64 n =? 0) then None else Some (Madvise p (to_u64 n) adv) | _ => None end, Success);
  (dpsyc_openat, 4%nat, fun a => match a with [d; p; f; m] => unless_null [p] (Openat d p f (u32 m)) | _ => None end, Value);
  (dpsyc_open, 3%nat, fun a => match a with [p; f; m] => unless_null [p] (Openat AT_FDCWD p f (u32 m)) | _ => None end, Value);
  (dpsyc_openat2, 3%nat, fun a => match a with [d; p; how] => unless_null [p; how] (Openat2 d p how) | _ => None end, Value);
  (dpsyc_statx, 5%nat, fun a => match a with [d; p; f; m; b] => unless_null [p; b] (Statx d p f (u32 m) b) | _ => None end, Success);
  (dpsyc_unlinkat, 3%nat, fun a => match a with [d; p; f] => unless_null [p] (Unlinkat d p f) | _ => None end, Success);
  (dpsyc_unlink, 2%nat, fun a => match a with [p; f] => unless_null [p] (Unlinkat AT_FDCWD p f) | _ => None end, Success);
  (dpsyc_renameat, 5%nat, fun a => match a with [d; p; d2; p2; f] => unless_null [p; p2] (Renameat2 d p d2 p2 (u32 f)) | _ => None end, Success);
  (dpsyc_rename, 2%nat, fun a => match a with [p; p2] => unless_null [p; p2] (Renameat2 AT_FDCWD p AT_FDCWD p2 0) | _ => None end, Success);
  (dpsyc_mkdirat, 3%nat, fun a => match a with [d; p; m] => unless_null [p] (Mkdirat d p (u32 m)) | _ => None end, Success);
  (dpsyc_mkdir, 2%nat, fun a => match a with [p; m] => unless_null [p] (Mkdirat AT_FDCWD p (u32 m)) | _ => None end, Success);
  (dpsyc_symlinkat, 3%nat, fun a => match a with [t; d; p] => unless_null [t; p] (Symlinkat t d p) | _ => None end, Success);
  (dpsyc_symlink, 2%nat, fun a => match a with [t; p] => unless_null [t; p] (Symlinkat t AT_FDCWD p) | _ => None end, Success);
  (dpsyc_linkat, 5%nat, fun a => match a with [d; p; d2; p2; f] => unless_null [p; p2] (Linkat d p d2 p2 f) | _ => None end, Success);
  (dpsyc_link, 3%nat, fun a => match a with [p; p2; f] => unless_null [p; p2] (Linkat AT_FDCWD p AT_FDCWD p2 f) | _ => None end, Success);
  (dpsyc_getxattr, 4%nat, fun a => match a with [n; b; p; l] => unless_null [n; p] (Getxattr p n b (to_u64 l)) | _ => None end, Value);
  (dpsyc_setxattr, 5%nat, fun a => match a with [n; b; p; f; l] => unless_null [n; p] (Setxattr p n b (to_u64 l) f) | _ => None end, Success);
  (dpsyc_fgetxattr, 4%nat, fun a => match a with [fd; n; b; l] => unless_null [n] (Fgetxattr fd n b (to_u64 l)) | _ => None end, Value);
  (dpsyc_fsetxattr, 5%nat, fun a => match a with [fd; n; b; f; l] => unless_null [n] (Fsetxattr fd n b (to_u64 l) f) | _ => None end, Success)
].

(** The length of an extended attribute is documented as a [size_t] and read as an
    [unsigned int]. *)
Definition made (c : syscall) : syscall :=
  match c with
  | Getxattr p n b l => Getxattr p n b (to_u32 l)
  | Setxattr p n b l f => Setxattr p n b (to_u32 l) f
  | Fgetxattr fd n b l => Fgetxattr fd n b (to_u32 l)
  | Fsetxattr fd n b l f => Fsetxattr fd n b (to_u32 l) f
  | c => c
  end.
Definition xattr_len (c : syscall) : Z :=
  match c with Getxattr _ _ _ l | Setxattr _ _ _ l _ | Fgetxattr _ _ _ l | Fsetxattr _ _ _ l _ => l | _ => 0 end.

Lemma made_documented c : 0 <= xattr_len c < 4294967296 -> made c = c.
Proof. destruct c; cbn; intros Hl; try done; unfold to_u32; by rewrite Z.mod_small. Qed.

Lemma to_u32_u64 z : to_u32 (to_u64 z) = to_u32 z.
Proof.
  unfold to_u32, to_u64. change 18446744073709551616 with (4294967296 * 4294967296).
  rewrite Z.rem_mul_r by lia. rewrite Z.mul_comm, Z.mod_add by lia. apply Z.mod_mod. lia.
Qed.

(** One call is made, and its result is the operation's; or none is. *)
Definition makes (p : path_op) : Prop :=
  let '(op, n, req, back) := p in
  forall e args x, length args = n -> wp (run_call op e args) x (fun r x' =>
    match req args with
    | None => r = DPE_INVAL /\ x_sys x' = x_sys x
    | Some c =>
        x_sys x' = (sys_call (made c) (x_sys x)).2 /\
        match (sys_call (made c) (x_sys x)).1 with
        | inl er => r = - er
        | inr v => match back with Value => 0 <= v -> r = v | Success => v = 0 -> r = DPE_OK end
        end
    end).

Lemma wp_va x a args (Q : Z -> ast Os -> Prop) : x_args x = a :: args -> Q a (put_args_of args x) -> wp va_int x Q.
Proof. intros Ha HQ. unfold wp, va_int. by rewrite Ha. Qed.

Lemma wp_upd_syc x a f (Q : unit -> ast Os -> Prop) :
  x_data x = SSyc a -> Q tt (put_data_of (SSyc (f a)) x) -> wp (upd_syc f) x Q.
Proof. intros Hd HQ. unfold wp, upd_syc, put_syc, get_syc, mbind, ST_bind. by rewrite !Hd. Qed.

Lemma wp_get_syc x a (Q : dpsyc_arg -> ast Os -> Prop) : x_data x = SSyc a -> Q a x -> wp get_syc x Q.
Proof. intros Hd HQ. unfold wp, get_syc. by rewrite Hd. Qed.

(** The call and what its result becomes. *)
Lemma wp_call_fd c x (Q : Z -> ast Os -> Prop) :
  (forall r x', x_sys x' = (sys_call c (x_sys x)).2 ->
     match (sys_call c (x_sys x)).1 with inl er => r = - er | inr v => 0 <= v -> r = v end -> Q r x') ->
  wp (r ← call c; _dpsyc_ret_fd r) x Q.
Proof.
  intros HQ. unfold wp, call, io_call, _dpsyc_ret_fd, errno, gets, mbind, ST_bind, mret, ST_ret.
  destruct (sys_call c (x_sys x)) as [[er|v] s] eqn:E; cbn in *; [by apply HQ|].
  destruct (Z.leb_spec 0 v); apply HQ; auto; intros; lia.
Qed.

Lemma wp_call_ok c x (Q : Z -> ast Os -> Prop) :
  (forall r x', x_sys x' = (sys_call c (x_sys x)).2 ->
     match (sys_call c (x_sys x)).1 with inl er => r = - er | inr v => v = 0 -> r = DPE_OK end -> Q r x') ->
  wp (r ← call c; _dpsyc_ret_ok r) x Q.
Proof.
  intros HQ. unfold wp, call, io_call, _dpsyc_ret_ok, errno, gets, mbind, ST_bind, mret, ST_ret.
  destruct (sys_call c (x_sys x)) as [[er|v] s] eqn:E; cbn in *; [by apply HQ|].
  destruct (Z.eqb_spec v 0); apply HQ; auto; intros; lia.
Qed.

Lemma wp_run_call prep post e args x (Q : Z -> ast Os -> Prop) :
  wp (prep e) (put_data_of (SSyc zero_syc) (put_args_of args x)) (fun r x' =>
    r <> DPE_CONTINUE /\ Q r x' \/ r = DPE_CONTINUE /\ wp (post e) x' Q) ->
  wp (run_call (DPASC_SYC_FUNCTION prep post) e args) x Q.
Proof.
  intros Hp. unfold run_call. apply wp_bind, wp_modify, wp_bind, wp_modify. apply wp_bind.
  eapply wp_mono; [exact Hp|]. cbn. intros r x' [[Hr HQ]|[-> HQ]]; [|exact HQ].
  replace (r =? DPE_CONTINUE) with false by lia. by apply wp_ret.
Qed.

(** Unfolds the computation of the goal, and runs the [prep] and the [post] of a
    path operation. *)
Ltac unfold_op :=
  lazymatch goal with |- wp ?m ?x ?Q => let m := eval red in m in change (wp m x Q) end.
Ltac path_op_runs :=
  intros e args x Hargs;
  repeat (destruct args as [|? args]; [discriminate Hargs|]);
  destruct args as [|? args]; [clear Hargs|discriminate Hargs];
  apply wp_run_call;
  unfold_op;
  repeat (apply wp_bind; eapply wp_va; [done|]);
  apply wp_bind; eapply wp_upd_syc; [done|]; apply wp_ret;
  unfold unless_null; cbn [existsb orb]; rewrite ?orb_false_r;
  repeat match goal with |- context [?a =? ?b] => destruct (Z.eqb_spec a b) end;
  first
    [ left; split; [done|by split]
    | right; split; [done|];
      unfold_op;
      apply wp_bind; eapply wp_get_syc; [done|];
      first [apply wp_call_fd | apply wp_call_ok]; intros ?r ?x' Hs Hv; cbn [made orb]; rewrite ?to_u32_u64; by split ].

(** C34. Every path operation makes one system call, that of its name with the
    arguments in the documented order, and reports its result or the negated error;
    given a [NULL] path it makes none and answers [DPE_INVAL].  The arguments are those
    given, except for the length of an extended attribute: documented as a [size_t], it
    is cut to 32 bits, so the call is the documented one only for lengths below
    2^32. *)
Theorem path_operations_make_their_call :
  Forall makes path_ops /\ forall c, 0 <= xattr_len c < 4294967296 -> made c = c.
Proof.
  split; [|apply made_documented]. unfold path_ops. repeat (constructor; [path_op_runs|]). constructor.
Qed.

End SycFacts.

(** ** Examples *)

(** [posix_fadvise] returns the error number and leaves [errno] alone, so what
    the operation reports is an older error, or success. *)
Definition advise_sys : IoSys script :=
  script_with script_read (fun fd n _ => script_read fd n)
    (fun c => match c with PosixFadvise _ _ _ _ => 22 | _ => 0 end).

Example fadvise_error_is_success :
  fst <$> @_dpefd_fadvise_prep script advise_sys ex_gfd (put_args_of [0; 0; 99] (ex_ast (Script [] [] [])))
  = Some DPE_OK.
Proof. vm_compute. reflexivity. Qed.

(** [dpefd_poll] reports the events that were asked for, ready or not. *)
Example poll_reports_wanted :
  let x := put_out_of (Out (Z.lor DPEVT_IN DPEVT_OUT) 0 DPEVT_OUT true) (ex_ast (Script [] [] [])) in
  fst <$> _dpefd_poll_post ex_gfd x = Some (Z.lor DPEVT_IN DPEVT_OUT).
Proof. vm_compute. reflexivity. Qed.

(** The length of an attribute of four gigabytes and one byte is read as one. *)
Definition xattr_sys : IoSys script :=
  script_with script_read (fun fd n _ => script_read fd n) (fun c => match c with Fgetxattr _ _ _ l => l | _ => 0 end).

Example xattr_length_cut :
  fst <$> run_call (@dpsyc_fgetxattr script xattr_sys) ex_gfd [3; 4096; 8192; 4294967297] (ex_ast (Script [] [] []))
  = Some 1.
Proof. vm_compute. reflexivity. Qed.
