(* ===== verification/Dpaco.v ===== *)
(** * Coroutines ([lib/dpaco/dpaco.c])

    Asymmetric coroutines with their own stacks, one environment per thread.  The
    code that runs on a coroutine is the user's: what it does is a sequence of
    [action]s.  A context switch saves where the running code stopped ([coctx]
    says in which call) and goes on elsewhere; the outcome of an action is what
    runs next, and the value it gets.  Returning into a finished coroutine is
    undefined. *)

From S2P Require Import Prelude.

#[local] Set Default Proof Using "Type*".

Inductive dpaco_status_e := DPACO_CREATED | DPACO_RUNNING | DPACO_SUSPEND | DPACO_DEAD.

#[export] Instance dpaco_status_e_eq_dec : EqDecision dpaco_status_e.
Proof. solve_decision. Defined.

(** A saved context: at the entry of the function, inside [dpaco_resume] of a
    coroutine (called by [dpaco_wrap] or not), inside [dpaco_yield] called by the
    function or by [_mainfunc] after it. *)
Inductive coctx := KNone | KStart | KResume (co : loc) (wrap : bool) | KYield | KEnd.

Record dpaco := Co {
  c_ctx : coctx;
  c_func : Z; (* 0 is [NULL] *)
  c_msg : Z;
  c_link : option loc; (* the union of [next] and [prev] *)
  c_status : dpaco_status_e;
  c_delater : bool;
  c_size : Z;
}.

Definition zero_co : dpaco := Co KNone 0 0 None DPACO_CREATED false 0.

Definition set_ctx (k : coctx) (c : dpaco) := Co k (c_func c) (c_msg c) (c_link c) (c_status c) (c_delater c) (c_size c).
Definition set_func (f : Z) (c : dpaco) := Co (c_ctx c) f (c_msg c) (c_link c) (c_status c) (c_delater c) (c_size c).
Definition set_msg (v : Z) (c : dpaco) := Co (c_ctx c) (c_func c) v (c_link c) (c_status c) (c_delater c) (c_size c).
Definition set_link (l : option loc) (c : dpaco) := Co (c_ctx c) (c_func c) (c_msg c) l (c_status c) (c_delater c) (c_size c).
Definition set_status (s : dpaco_status_e) (c : dpaco) := Co (c_ctx c) (c_func c) (c_msg c) (c_link c) s (c_delater c) (c_size c).
Definition set_delater (d : bool) (c : dpaco) := Co (c_ctx c) (c_func c) (c_msg c) (c_link c) (c_status c) d (c_size c).
Definition set_size (n : Z) (c : dpaco) := Co (c_ctx c) (c_func c) (c_msg c) (c_link c) (c_status c) (c_delater c) n.

(** The environment of the thread, and its memory. *)
Record thenv := Thenv {
  t_cos : gmap loc dpaco;
  t_next : loc;
  t_oom : list bool; (* answers of the next allocations *)
  t_comain : option loc;
  t_cocurr : option loc;
  t_recycle : option loc;
  t_recycle_count : Z;
  t_stack_size : Z;
}.

Definition DPV64_NULL : Z := 0.
Definition RECYCLE_MAX : Z := 1024.

(** What runs next: the same code, with a result; a fresh coroutine, from the
    start of its function; another coroutine's pending call, with its result. *)
Inductive outcome := Ret (v : Z) | Enter (co : loc) (func v : Z) | Back (co : loc) (v : Z).

Abbreviation C := (ST thenv).

Definition with_cos (f : gmap loc dpaco -> gmap loc dpaco) (t : thenv) : thenv :=
  Thenv (f (t_cos t)) (t_next t) (t_oom t) (t_comain t) (t_cocurr t) (t_recycle t) (t_recycle_count t) (t_stack_size t).
Definition with_curr (c : option loc) (t : thenv) : thenv :=
  Thenv (t_cos t) (t_next t) (t_oom t) (t_comain t) c (t_recycle t) (t_recycle_count t) (t_stack_size t).
Definition with_recycle (r : option loc) (n : Z) (t : thenv) : thenv :=
  Thenv (t_cos t) (t_next t) (t_oom t) (t_comain t) (t_cocurr t) r n (t_stack_size t).

Definition get_co (p : loc) : C dpaco := fun t => (fun c => (c, t)) <$> t_cos t !! p.
Definition upd_co (p : loc) (f : dpaco -> dpaco) : C unit :=
  c ← get_co p; modify (with_cos <[p := f c]>).
Definition free_co (p : loc) : C unit := _ ← get_co p; modify (with_cos (delete p)).

Definition alloc_ok : C bool :=
  fun t => match t_oom t with
           | [] => Some (true, t)
           | ok :: oom => Some (ok, Thenv (t_cos t) (t_next t) oom (t_comain t) (t_cocurr t) (t_recycle t)
                                          (t_recycle_count t) (t_stack_size t))
           end.
(** A fresh object holding [c]. *)
Definition place (c : dpaco) : C loc :=
  fun t => Some (t_next t, Thenv (<[t_next t := c]> (t_cos t)) (Pos.succ (t_next t)) (t_oom t) (t_comain t)
                                 (t_cocurr t) (t_recycle t) (t_recycle_count t) (t_stack_size t)).
Definition calloc_co : C (option loc) :=
  ok ← alloc_ok; if ok : bool then p ← place zero_co; mret (Some p) else mret None.
(** [realloc]: the object moves, or nothing happens. *)
Definition realloc_co (p : loc) : C (option loc) :=
  c ← get_co p;
  ok ← alloc_ok;
  if ok : bool then free_co p;; q ← place c; mret (Some q) else mret None.

Definition null_thenv (cos : gmap loc dpaco) (next : loc) (oom : list bool) : thenv :=
  Thenv cos next oom None None None 0 0.

(** ** The thread's environment *)

Definition dpaco_thinit (stack_size : Z) : C bool :=
  t ← gets id;
  match t_comain t with
  | Some _ => mret false
  | None =>
      mainco ← calloc_co;
      match mainco with
      | None => mret false
      | Some p =>
          upd_co p (set_status DPACO_RUNNING);;
          let sz := if 0 <? stack_size then (if stack_size <? 1024 then 1024 else stack_size) else 128 * 1024 in
          modify (fun t => Thenv (t_cos t) (t_next t) (t_oom t) (Some p) (Some p) None 0 sz);;
          mret true
      end
  end.

Fixpoint free_recycled (fuel : nat) (p : option loc) : C unit :=
  match p with
  | None => mret tt
  | Some p =>
      match fuel with
      | O => ub
      | S fuel => c ← get_co p; free_co p;; free_recycled fuel (c_link c)
      end
  end.

Definition dpaco_thfree : C unit :=
  t ← gets id;
  (match t_comain t with Some p => free_co p | None => mret tt end);;
  free_recycled (size (t_cos t) + 1) (t_recycle t);;
  modify (fun t => null_thenv (t_cos t) (t_next t) (t_oom t)).

(** ** Creating *)

Definition dpaco_create (fun_ stack_size : Z) : C (option loc) :=
  if fun_ =? 0 then mret None else
  t ← gets id;
  let stack_size := if stack_size <=? 0 then t_stack_size t else stack_size in
  co ← (match t_recycle t with
        | Some p =>
            c ← get_co p;
            modify (with_recycle (c_link c) (t_recycle_count t - 1));;
            mret (Some p)
        | None =>
            co ← calloc_co;
            match co with
            | None => mret None
            | Some p => upd_co p (set_size stack_size);; mret (Some p)
            end
        end);
  match co with
  | None => mret None
  | Some p =>
      upd_co p (fun c => set_delater false (set_link None (set_status DPACO_CREATED (set_func fun_ c))));;
      c ← get_co p;
      p ← (if negb (c_size c =? stack_size) then
             q ← realloc_co p;
             match q with
             | Some q => upd_co q (set_size stack_size);; mret q
             | None => mret p
             end
           else mret p);
      upd_co p (set_ctx KStart);; (* cocontext_init *)
      mret (Some p)
  end.

(** ** Deferred destruction *)

Definition dpaco_delater (co : option loc) : C unit :=
  match co with
  | None => mret tt
  | Some p =>
      c ← get_co p;
      match c_status c with
      | DPACO_CREATED | DPACO_DEAD =>
          t ← gets id;
          if t_recycle_count t <? RECYCLE_MAX then
            upd_co p (fun c => set_link (t_recycle t) (set_delater false (set_msg DPV64_NULL (set_func 0 c))));;
            modify (with_recycle (Some p) (t_recycle_count t + 1))
          else free_co p
      | DPACO_RUNNING | DPACO_SUSPEND => upd_co p (set_delater true)
      end
  end.

(** ** Switching *)

(** [tenv->cocurr->msg] *)
Definition curr_msg : C (loc * Z) :=
  t ← gets id; p ← lift_opt (t_cocurr t); c ← get_co p; mret (p, c_msg c).

(** After the switch back into [dpaco_resume co], and into the [dpaco_wrap] that
    called it. *)
Definition resume_tail (co : loc) (wrap : bool) : C outcome :=
  c ← get_co co;
  (if bool_decide (c_status c = DPACO_DEAD) && c_delater c then dpaco_delater (Some co) else mret tt);;
  pv ← curr_msg;
  (if wrap then dpaco_delater (Some co) else mret tt);;
  mret (Back pv.1 pv.2).

(** [cocontext_swap]: [from] stops at [k], and [to] goes on where it stopped. *)
Definition cocontext_swap (from : loc) (k : coctx) (to : loc) : C outcome :=
  upd_co from (set_ctx k);;
  c ← get_co to;
  match c_ctx c with
  | KNone => ub
  | KStart => mret (Enter to (c_func c) (c_msg c))
  | KResume co wrap => resume_tail co wrap
  | KYield => pv ← curr_msg; mret (Back pv.1 pv.2)
  | KEnd => ub (* [_mainfunc] returns: it has no caller *)
  end.

Definition dpaco_resume_ (co : option loc) (val : Z) (wrap : bool) : C outcome :=
  match co with
  | None => mret (Ret DPV64_NULL)
  | Some p =>
      t ← gets id;
      c ← get_co p;
      match c_status c with
      | DPACO_CREATED | DPACO_SUSPEND =>
          upd_co p (fun c => set_status DPACO_RUNNING (set_msg val (set_link (t_cocurr t) c)));;
          curr ← lift_opt (t_cocurr t);
          upd_co curr (set_status DPACO_SUSPEND);;
          modify (with_curr (Some p));;
          cocontext_swap curr (KResume p wrap) p
      | DPACO_RUNNING | DPACO_DEAD => mret (Ret DPV64_NULL)
      end
  end.
Definition dpaco_resume (co : option loc) (val : Z) : C outcome := dpaco_resume_ co val false.

Definition dpaco_yield (val : Z) : C outcome :=
  t ← gets id;
  curr ← lift_opt (t_cocurr t);
  c ← get_co curr;
  match c_link c with
  | None => mret (Ret DPV64_NULL)
  | Some prev =>
      (if bool_decide (c_status c = DPACO_DEAD) then mret tt else upd_co curr (set_status DPACO_SUSPEND));;
      upd_co prev (fun c => set_msg val (set_status DPACO_RUNNING c));;
      modify (with_curr (Some prev));;
      cocontext_swap curr (if bool_decide (c_status c = DPACO_DEAD) then KEnd else KYield) prev
  end.

(** The end of [_mainfunc], when the function of the running coroutine returns
    [res]: a yield that comes back has nowhere to return to. *)
Definition _mainfunc_end (res : Z) : C outcome :=
  t ← gets id;
  curr ← lift_opt (t_cocurr t);
  upd_co curr (set_status DPACO_DEAD);;
  r ← dpaco_yield res;
  match r with Ret _ => ub | r => mret r end.

Definition dpaco_status (co : loc) : C dpaco_status_e := c ← get_co co; mret (c_status c).
Definition dpaco_running : C (option loc) := t ← gets id; mret (t_cocurr t).

(** Creation, then the call of [dpaco_resume]; [dpaco_delater] comes when it
    returns. *)
Definition dpaco_wrap (fun_ val stack_size : Z) : C outcome :=
  co ← dpaco_create fun_ stack_size;
  match co with
  | Some p => dpaco_resume_ (Some p) val true
  | None => mret (Ret DPV64_NULL)
  end.

(** ** What the running code can do *)

Inductive action :=
  | ACreate (fun_ stack_size : Z)
  | AResume (co : loc) (val : Z)
  | AYield (val : Z)
  | AReturn (res : Z)
  | ADelater (co : loc)
  | AWrap (fun_ val stack_size : Z).

Definition act (a : action) : C outcome :=
  match a with
  | ACreate f n => co ← dpaco_create f n; mret (Ret (match co with Some p => Z.pos p | None => 0 end))
  | AResume co v => dpaco_resume (Some co) v
  | AYield v => dpaco_yield v
  | AReturn v => _mainfunc_end v
  | ADelater co => dpaco_delater (Some co);; mret (Ret 0)
  | AWrap f v n => dpaco_wrap f v n
  end.

Fixpoint acts (l : list action) : C (list outcome) :=
  match l with
  | [] => mret []
  | a :: l => o ← act a; os ← acts l; mret (o :: os)
  end.
