(* ===== verification/DpacoFacts.v ===== *)
(** * Coroutines keep a stack discipline

    The coroutines that wait for one they resumed form a stack, from the running
    one to the main one; finished coroutines are kept on a list for reuse.  As
    long as the code resumes no coroutine of the stack and gives none up twice,
    control and values go where they should. *)

From S2P Require Import Prelude Dpaco.

#[local] Set Default Proof Using "Type*".

(** ** Running the primitives *)

Lemma wp_get_co p t c (Q : dpaco -> thenv -> Prop) : t_cos t !! p = Some c -> Q c t -> wp (get_co p) t Q.
Proof. intros Hc HQ. unfold wp, get_co. by rewrite Hc. Qed.

Lemma wp_upd_co p f t c (Q : unit -> thenv -> Prop) :
  t_cos t !! p = Some c -> Q tt (with_cos <[p := f c]> t) -> wp (upd_co p f) t Q.
Proof. intros Hc HQ. unfold upd_co. apply wp_bind. eapply wp_get_co; [done|]. by apply wp_modify. Qed.

Lemma wp_free_co p t c (Q : unit -> thenv -> Prop) :
  t_cos t !! p = Some c -> Q tt (with_cos (delete p) t) -> wp (free_co p) t Q.
Proof. intros Hc HQ. unfold free_co. apply wp_bind. eapply wp_get_co; [done|]. by apply wp_modify. Qed.

Lemma wp_alloc_ok t (Q : bool -> thenv -> Prop) :
  (forall ok oom, Q ok (Thenv (t_cos t) (t_next t) oom (t_comain t) (t_cocurr t) (t_recycle t)
                              (t_recycle_count t) (t_stack_size t))) -> wp alloc_ok t Q.
Proof. intros HQ. unfold wp, alloc_ok. destruct t as [? ? [|ok oom] ? ? ? ? ?]; apply HQ. Qed.

Lemma wp_curr_msg t p c (Q : loc * Z -> thenv -> Prop) :
  t_cocurr t = Some p -> t_cos t !! p = Some c -> Q (p, c_msg c) t -> wp curr_msg t Q.
Proof.
  intros Hp Hc HQ. unfold curr_msg. apply wp_bind, wp_gets. unfold id. rewrite Hp. apply wp_bind, wp_ret.
  apply wp_bind. eapply wp_get_co; [done|]. by apply wp_ret.
Qed.

(** ** Well-formed environments *)

(** [st] is a chain of coroutines each resumed by the next; [above] is the one the
    first of them resumed, if it is not running. *)
Fixpoint chain (cos : gmap loc dpaco) (above : option loc) (st : list loc) : Prop :=
  match st with
  | [] => True
  | p :: st => (exists c, cos !! p = Some c /\ c_link c = head st /\
      match above with
      | None => c_status c = DPACO_RUNNING
      | Some q => c_status c = DPACO_SUSPEND /\ c_ctx c = KResume q false
      end) /\ chain cos (Some p) st
  end.

(** A coroutine that is not on the stack: where it would go on. *)
Definition idle (c : dpaco) : Prop :=
  match c_status c with
  | DPACO_CREATED => c_ctx c = KStart
  | DPACO_SUSPEND => c_ctx c = KYield
  | DPACO_DEAD => True
  | DPACO_RUNNING => False
  end.

(** [fl] is the list kept for reuse. *)
Fixpoint recycled (cos : gmap loc dpaco) (fl : list loc) : Prop :=
  match fl with
  | [] => True
  | p :: fl => (exists c, cos !! p = Some c /\ c_link c = head fl /\
      (c_status c = DPACO_CREATED \/ c_status c = DPACO_DEAD) /\ idle c) /\ recycled cos fl
  end.

Record wf (st fl : list loc) (t : thenv) : Prop := {
  wf_curr : t_cocurr t = head st;
  wf_some : st <> [];
  wf_nodup : NoDup (st ++ fl);
  wf_chain : chain (t_cos t) None st;
  wf_recycle : t_recycle t = head fl;
  wf_recycled : recycled (t_cos t) fl;
  wf_count : t_recycle_count t = zlen fl;
  wf_max : zlen fl <= RECYCLE_MAX;
  wf_idle : forall p c, t_cos t !! p = Some c -> p ∉ st -> p ∉ fl -> idle c;
  wf_fresh : forall p, is_Some (t_cos t !! p) -> (p < t_next t)%positive;
}.

(** Objects outside the chain and the list do not matter to them. *)
Lemma chain_other cos cos' above st :
  (forall p, p ∈ st -> cos' !! p = cos !! p) -> chain cos above st -> chain cos' above st.
Proof.
  revert above. induction st as [|p st IH]; intros above Heq; [done|]. cbn.
  intros [(c & Hc & Hl) Hr]. split; [exists c; split; [rewrite Heq; [done|left]|done]|].
  apply IH; [intros q Hq; apply Heq; by right|done].
Qed.

Lemma recycled_other cos cos' fl :
  (forall p, p ∈ fl -> cos' !! p = cos !! p) -> recycled cos fl -> recycled cos' fl.
Proof.
  induction fl as [|p fl IH]; intros Heq; [done|]. cbn.
  intros [(c & Hc & Hl) Hr]. split; [exists c; split; [rewrite Heq; [done|left]|done]|].
  apply IH; [intros q Hq; apply Heq; by right|done].
Qed.

Lemma chain_lookup cos above st p : chain cos above st -> p ∈ st -> exists c, cos !! p = Some c.
Proof.
  revert above. induction st as [|q st IH]; intros above; cbn; [by intros _ ?%not_elem_of_nil|].
  intros [(c & Hc & _) Hr] [->|Hp]%elem_of_cons; [eauto|by eapply IH].
Qed.

Lemma recycled_lookup cos fl p : recycled cos fl -> p ∈ fl -> exists c, cos !! p = Some c.
Proof.
  induction fl as [|q fl IH]; cbn; [by intros _ ?%not_elem_of_nil|].
  intros [(c & Hc & _) Hr] [->|Hp]%elem_of_cons; [eauto|by apply IH].
Qed.

(** ** Pushing and popping *)

Lemma wf_push cur r fl t t' co c' ccur' :
  wf (cur :: r) fl t -> is_Some (t_cos t !! co) -> co ∉ cur :: r -> co ∉ fl ->
  c_link c' = Some cur -> c_status c' = DPACO_RUNNING ->
  c_link ccur' = head r -> c_status ccur' = DPACO_SUSPEND -> c_ctx ccur' = KResume co false ->
  t_cos t' = <[cur := ccur']> (<[co := c']> (t_cos t)) ->
  t_cocurr t' = Some co -> t_recycle t' = t_recycle t -> t_recycle_count t' = t_recycle_count t ->
  t_next t' = t_next t -> wf (co :: cur :: r) fl t'.
Proof.
  intros Hw Hco Hst Hfl Hl Hs Hl2 Hs2 Hk2 Hcos Hcur Hrec Hcnt Hnext.
  destruct Hw as [Wcur Wsome Wnd Wch Wrec Wfl Wcnt Wmax Widle Wfresh].
  apply not_elem_of_cons in Hst as [Hne Hr]. cbn in Wnd. apply NoDup_cons in Wnd as [Wnc Wnd].
  assert (Hcurfl : cur ∉ fl) by (intros ?; apply Wnc, elem_of_app; by right).
  assert (Hcurr : cur ∉ r) by (intros ?; apply Wnc, elem_of_app; by left).
  destruct Wch as [(cc & Hcc & Hlc & Hsc) Wch]. split; rewrite ?Hcos, ?Hcur, ?Hrec, ?Hcnt, ?Hnext; try done.
  - apply NoDup_cons. split; [|by apply NoDup_cons].
    intros [->|[?|?]%elem_of_app]%elem_of_cons; done.
  - cbn. split; [|split].
    + exists c'. rewrite lookup_insert_ne, lookup_insert_eq by done. done.
    + exists ccur'. rewrite lookup_insert_eq. done.
    + eapply chain_other; [|done]. intros p Hp. rewrite !lookup_insert_ne by (by intros ->). done.
  - eapply recycled_other; [|done]. intros p Hp. rewrite !lookup_insert_ne by (by intros ->). done.
  - intros p c Hp Hp1 Hp2. apply not_elem_of_cons in Hp1 as [Hp1 Hp3].
    apply not_elem_of_cons in Hp3 as [Hp3 Hp4]. rewrite !lookup_insert_ne in Hp by done.
    apply (Widle p c Hp); [|done]. by apply not_elem_of_cons.
  - intros p Hp. rewrite !lookup_insert in Hp. repeat case_decide; subst; apply Wfresh; eauto.
Qed.

(** The running coroutine stops, and the one that resumed it goes on. *)
Lemma wf_pop cur q r fl t t' c' cq' :
  wf (cur :: q :: r) fl t -> idle c' ->
  c_link cq' = head r -> c_status cq' = DPACO_RUNNING ->
  t_cos t' = <[cur := c']> (<[q := cq']> (t_cos t)) ->
  t_cocurr t' = Some q -> t_recycle t' = t_recycle t -> t_recycle_count t' = t_recycle_count t ->
  t_next t' = t_next t -> wf (q :: r) fl t'.
Proof.
  intros Hw Hidle Hl Hs Hcos Hcur Hrec Hcnt Hnext.
  destruct Hw as [Wcur Wsome Wnd Wch Wrec Wfl Wcnt Wmax Widle Wfresh].
  cbn in Wnd. apply NoDup_cons in Wnd as [Wnc Wnd]. apply NoDup_cons in Wnd as [Wnq Wnd].
  assert (Hne : cur <> q) by (intros ->; apply Wnc; left).
  destruct Wch as [(cc & Hcc & Hlc & Hsc) [(cq & Hcq & Hlq & Hsq) Wch]].
  split; rewrite ?Hcos, ?Hcur, ?Hrec, ?Hcnt, ?Hnext; try done.
  - by apply NoDup_cons.
  - cbn. split; [exists cq'; by rewrite lookup_insert_ne, lookup_insert_eq by done|].
    eapply chain_other; [|done]. intros p Hp.
    rewrite !lookup_insert_ne; [done|intros ->; apply Wnq, elem_of_app; by left|].
    intros ->. apply Wnc. right. apply elem_of_app. by left.
  - eapply recycled_other; [|done]. intros p Hp.
    rewrite !lookup_insert_ne; [done|intros ->; apply Wnq, elem_of_app; by right|].
    intros ->. apply Wnc. right. apply elem_of_app. by right.
  - intros p c Hp Hp1 Hp2. destruct (decide (p = cur)) as [->|Hpc].
    + rewrite lookup_insert_eq in Hp. by injection Hp as <-.
    + apply not_elem_of_cons in Hp1 as [Hp1 Hp3]. rewrite !lookup_insert_ne in Hp by done.
      apply (Widle p c Hp); [|done]. apply not_elem_of_cons. split; [done|]. by apply not_elem_of_cons.
  - intros p Hp. rewrite !lookup_insert in Hp. repeat case_decide; subst; apply Wfresh; eauto.
Qed.

Lemma resume_ok st fl t co c v :
  wf st fl t -> t_cos t !! co = Some c -> co ∉ tail st -> co ∉ fl ->
  wp (dpaco_resume (Some co) v) t (fun o t' =>
    match c_status c with
    | DPACO_CREATED => o = Enter co (c_func c) v /\ wf (co :: st) fl t'
    | DPACO_SUSPEND => o = Back co v /\ wf (co :: st) fl t'
    | _ => o = Ret DPV64_NULL /\ t' = t
    end).
Proof.
  intros Hw Hco Htl Hfl. assert (Hw' := Hw). destruct st as [|cur r]; [by destruct Hw'|].
  destruct Hw' as [Wcur _ _ [(cc & Hcc & Hlc & Hsc) Wch] _ _ _ _ Widle _]. cbn in *.
  unfold dpaco_resume, dpaco_resume_. apply wp_bind, wp_gets. unfold id. apply wp_bind.
  eapply wp_get_co; [done|]. destruct (c_status c) eqn:Hst; try (by apply wp_ret).
  all: assert (Hne : co <> cur) by (intros ->; congruence).
  all: assert (Hnst : co ∉ cur :: r) by (by apply not_elem_of_cons).
  all: specialize (Widle co c Hco Hnst Hfl); unfold idle in Widle; rewrite Hst in Widle.
  all: apply wp_bind; eapply wp_upd_co; [done|]; apply wp_bind; rewrite Wcur; apply wp_ret.
  all: apply wp_bind; eapply wp_upd_co; [cbn; by rewrite lookup_insert_ne|].
  all: apply wp_bind, wp_modify; unfold cocontext_swap; apply wp_bind.
  all: eapply wp_upd_co; [cbn; by rewrite lookup_insert_eq|].
  all: match goal with |- wp _ ?t1 _ => assert (Hw1 : wf (co :: cur :: r) fl t1) by
    (apply (wf_push cur r fl t t1 co (set_status DPACO_RUNNING (set_msg v (set_link (Some cur) c)))
       (set_ctx (KResume co false) (set_status DPACO_SUSPEND cc))); eauto; cbn; apply insert_insert_eq) end.
  all: apply wp_bind; eapply wp_get_co; [cbn; by rewrite !lookup_insert_ne, lookup_insert_eq by done|];
    cbn [c_ctx set_status set_msg set_link]; rewrite Widle.
  - apply wp_ret. by split.
  - apply wp_bind. eapply wp_curr_msg; [done|cbn; by rewrite !lookup_insert_ne, lookup_insert_eq by done|].
    apply wp_ret. by split.
Qed.

(** ** Yielding and finishing *)

(** The switch to the coroutine below, the running one having stopped in state
    [c1] at [k]; [rest] is what the resumer does before it goes on. *)
Lemma switch_back cur q r fl t c1 k v (Q : outcome -> thenv -> Prop) :
  wf (cur :: q :: r) fl t -> idle (set_ctx k c1) -> c_link c1 = Some q ->
  (forall t1, wf (q :: r) fl t1 -> t_cos t1 !! cur = Some (set_ctx k c1) ->
     (exists cq, t_cos t1 !! q = Some cq /\ c_msg cq = v) -> wp (resume_tail cur false) t1 Q) ->
  wp (upd_co q (fun c => set_msg v (set_status DPACO_RUNNING c));;
      modify (with_curr (Some q));; cocontext_swap cur k q) (with_cos <[cur := c1]> t) Q.
Proof.
  intros Hw Hidle Hl HQ. assert (Hw' := Hw).
  destruct Hw' as [Wcur _ Wnd [(cc & Hcc & Hlc & Hsc) [(cq & Hcq & Hlq & Hsq & Hkq) Wch]] _ _ _ _ _ _].
  assert (Hne : cur <> q) by (intros ->; cbn in Wnd; apply NoDup_cons in Wnd as [Wnd _]; apply Wnd; left).
  apply wp_bind. eapply wp_upd_co; [cbn; by rewrite lookup_insert_ne|].
  apply wp_bind, wp_modify. unfold cocontext_swap. apply wp_bind.
  eapply wp_upd_co; [cbn; rewrite lookup_insert_ne by done; by rewrite lookup_insert_eq|].
  match goal with |- wp _ ?t1 _ => assert (Hw1 : wf (q :: r) fl t1) by
    (apply (wf_pop cur q r fl t t1 (set_ctx k c1) (set_msg v (set_status DPACO_RUNNING cq))); eauto;
     cbn; rewrite (insert_insert_ne _ q cur) by done; apply insert_insert_eq) end.
  apply wp_bind. eapply wp_get_co; [cbn; by rewrite lookup_insert_ne, lookup_insert_eq by done|].
  cbn [c_ctx set_msg set_status]. rewrite Hkq. apply HQ; [done| |].
  - cbn. apply lookup_insert_eq.
  - eexists. split; [cbn; by rewrite lookup_insert_ne, lookup_insert_eq by done|done].
Qed.

Lemma yield_ok st fl t v :
  wf st fl t -> wp (dpaco_yield v) t (fun o t' =>
    match st with
    | _ :: q :: r => o = Back q v /\ wf (q :: r) fl t'
    | _ => o = Ret DPV64_NULL /\ t' = t
    end).
Proof.
  intros Hw. assert (Hw' := Hw). destruct st as [|cur [|q r]]; [by destruct Hw'|..];
    destruct Hw' as [Wcur _ Wnd [(cc & Hcc & Hlc & Hsc) Wch] _ _ _ _ _ _]; cbn in *;
    unfold dpaco_yield; apply wp_bind, wp_gets; unfold id; rewrite Wcur; apply wp_bind, wp_ret;
    apply wp_bind; (eapply wp_get_co; [done|]); rewrite Hlc; cbn.
  - by apply wp_ret.
  - rewrite Hsc. rewrite bool_decide_false by done. apply wp_bind. eapply wp_upd_co; [done|].
    eapply (switch_back cur q r fl t (set_status DPACO_SUSPEND cc) KYield); [done|done|done|].
    intros t1 Hw1 Hc1 (cq & Hcq & Hm). unfold resume_tail. apply wp_bind. eapply wp_get_co; [done|].
    cbn [c_status set_ctx set_status]. rewrite bool_decide_false by done. apply wp_bind, wp_ret.
    apply wp_bind. eapply wp_curr_msg; [by apply (wf_curr _ _ _ Hw1)|done|].
    apply wp_bind, wp_ret, wp_ret. cbn. by rewrite Hm.
Qed.

(** Giving up an idle coroutine that is finished or was never started. *)
Lemma wf_keep st fl t p c :
  wf st fl t -> t_cos t !! p = Some c -> p ∉ st -> p ∉ fl ->
  c_status c = DPACO_CREATED \/ c_status c = DPACO_DEAD ->
  wp (dpaco_delater (Some p)) t (fun _ t' => exists fl', wf st fl' t' /\ (fl' = fl \/ fl' = p :: fl) /\
    forall q, q <> p -> t_cos t' !! q = t_cos t !! q).
Proof.
  intros Hw Hp Hst Hfl Hs. assert (Hw' := Hw). destruct Hw' as [Wcur Wsome Wnd Wch Wrec Wfl Wcnt Wmax Widle Wfresh].
  unfold dpaco_delater. apply wp_bind. eapply wp_get_co; [done|].
  assert (Hgo : wp (t ← gets id;
          if t_recycle_count t <? RECYCLE_MAX then
            upd_co p (fun c => set_link (t_recycle t) (set_delater false (set_msg DPV64_NULL (set_func 0 c))));;
            modify (with_recycle (Some p) (t_recycle_count t + 1))
          else free_co p) t (fun _ t' => exists fl', wf st fl' t' /\ (fl' = fl \/ fl' = p :: fl) /\
    forall q, q <> p -> t_cos t' !! q = t_cos t !! q)).
  2: { by destruct Hs as [-> | ->]. }
  apply wp_bind, wp_gets. unfold id. rewrite Wcnt. destruct (Z.ltb_spec (zlen fl) RECYCLE_MAX).
  - apply wp_bind. eapply wp_upd_co; [done|]. apply wp_modify. exists (p :: fl).
    split; [|split; [by right|intros q Hq; cbn; by rewrite lookup_insert_ne]].
    split; cbn; try done.
    + rewrite NoDup_app in *. destruct Wnd as (Hn1 & Hn2 & Hn3). split_and!; [done| |by apply NoDup_cons].
      intros q Hq [->|Hq2]%elem_of_cons; [done|by apply (Hn2 q)].
    + eapply chain_other; [|done]. intros q Hq. by rewrite lookup_insert_ne by (by intros ->).
    + split; [eexists; rewrite lookup_insert_eq; split_and!;
        [done|done|by destruct Hs as [Hs|Hs]; [left|right]|exact (Widle p c Hp Hst Hfl)]|].
      eapply recycled_other; [|done]. intros q Hq. by rewrite lookup_insert_ne by (by intros ->).
    + rewrite zlen_cons. lia.
    + rewrite zlen_cons. lia.
    + intros q cq Hq Hq1 Hq2. apply not_elem_of_cons in Hq2 as [Hq2 Hq3].
      rewrite lookup_insert_ne in Hq by done. by apply (Widle q).
    + intros q Hq. rewrite lookup_insert in Hq. case_decide; subst; apply Wfresh; eauto.
  - eapply wp_free_co; [done|]. exists fl. split; [|split; [by left|intros q Hq; cbn; by rewrite lookup_delete_ne]].
    split; cbn; try done.
    + eapply chain_other; [|done]. intros q Hq. by rewrite lookup_delete_ne by (by intros ->).
    + eapply recycled_other; [|done]. intros q Hq. by rewrite lookup_delete_ne by (by intros ->).
    + intros q cq Hq Hq1 Hq2. apply lookup_delete_Some in Hq as [_ Hq]. by apply (Widle q).
    + intros q Hq. rewrite lookup_delete in Hq. case_decide; subst; [by destruct Hq|]. by apply Wfresh.
Qed.

Lemma mainfunc_end_ok cur q r fl t v :
  wf (cur :: q :: r) fl t -> wp (_mainfunc_end v) t (fun o t' =>
    o = Back q v /\ exists fl', wf (q :: r) fl' t').
Proof.
  intros Hw. assert (Hw' := Hw).
  destruct Hw' as [Wcur _ Wnd [(cc & Hcc & Hlc & Hsc) Wch] _ _ _ _ _ _]; cbn in *.
  assert (Hcur : cur ∉ q :: r /\ cur ∉ fl) by (apply NoDup_cons in Wnd as [Wnd _]; by apply (not_elem_of_app (q :: r))).
  unfold _mainfunc_end. apply wp_bind, wp_gets. unfold id. rewrite Wcur. apply wp_bind, wp_ret.
  apply wp_bind. eapply wp_upd_co; [done|]. apply wp_bind.
  assert (Hy : wp (dpaco_yield v) (with_cos <[cur := set_status DPACO_DEAD cc]> t) (fun o t' =>
    o = Back q v /\ exists fl', wf (q :: r) fl' t')).
  2: { eapply wp_mono; [exact Hy|]. cbv beta. intros o t' [-> Ho]. by apply wp_ret. }
  unfold dpaco_yield. apply wp_bind, wp_gets. unfold id. cbn [t_cocurr with_cos]. rewrite Wcur. apply wp_bind, wp_ret.
  apply wp_bind. eapply wp_get_co; [cbn; by rewrite lookup_insert_eq|]. cbn [c_link set_status c_status]. rewrite Hlc. cbn [head].
  rewrite bool_decide_true by done. apply wp_bind, wp_ret.
  eapply (switch_back cur q r fl t (set_status DPACO_DEAD cc) KEnd); [done|done|done|].
  intros t1 Hw1 Hc1 (cq & Hcq & Hm). unfold resume_tail. apply wp_bind. eapply wp_get_co; [done|].
  cbn [c_status c_delater set_ctx set_status]. rewrite bool_decide_true by done. cbn [andb].
  apply wp_bind. assert (Hd : wp (if c_delater cc then dpaco_delater (Some cur) else mret tt) t1 (fun _ t' =>
    exists fl', wf (q :: r) fl' t' /\ t_cos t' !! q = Some cq)).
  { destruct (c_delater cc); [|apply wp_ret; by exists fl].
    eapply wp_mono; [eapply (wf_keep _ _ _ _ _ Hw1 Hc1); [apply Hcur|apply Hcur|by right]|]. cbv beta.
    intros _ t2 (fl' & Hw2 & _ & Hsame). exists fl'. split; [done|]. rewrite Hsame; [done|].
    intros <-. destruct Hcur as [Hcur _]. apply Hcur. left. }
  eapply wp_mono; [exact Hd|]. cbv beta. intros _ t2 (fl' & Hw2 & Hcq2). apply wp_bind.
  eapply wp_curr_msg; [by apply (wf_curr _ _ _ Hw2)|done|]. apply wp_bind, wp_ret, wp_ret. cbn. rewrite Hm. eauto.
Qed.

(** ** Creating and giving up *)

Lemma chain_same cos cos' above st :
  (forall p c, p ∈ st -> cos !! p = Some c -> exists c', cos' !! p = Some c' /\
     c_link c' = c_link c /\ c_status c' = c_status c /\ c_ctx c' = c_ctx c) ->
  chain cos above st -> chain cos' above st.
Proof.
  revert above. induction st as [|p st IH]; intros above Heq; [done|]. cbn.
  intros [(c & Hc & Hl & Hs) Hr]. destruct (Heq p c ltac:(left) Hc) as (c' & Hc' & E1 & E2 & E3). split.
  - exists c'. rewrite E1, E2, E3. by split_and!.
  - apply IH; [|done]. intros q cq Hq. apply Heq. by right.
Qed.

(** An object outside the stack and the list gets an idle value. *)
Lemma wf_put_idle st fl t t' p c :
  wf st fl t -> p ∉ st -> p ∉ fl -> idle c -> (p < t_next t')%positive -> (t_next t <= t_next t')%positive ->
  t_cos t' = <[p := c]> (t_cos t) -> t_cocurr t' = t_cocurr t -> t_recycle t' = t_recycle t ->
  t_recycle_count t' = t_recycle_count t -> wf st fl t'.
Proof.
  intros [Wcur Wsome Wnd Wch Wrec Wfl Wcnt Wmax Widle Wfresh] Hst Hfl Hi Hp Hn Hcos Hcur Hrec Hcnt.
  split; rewrite ?Hcos, ?Hcur, ?Hrec, ?Hcnt; try done.
  - eapply chain_other; [|done]. intros q Hq. by rewrite lookup_insert_ne by (by intros ->).
  - eapply recycled_other; [|done]. intros q Hq. by rewrite lookup_insert_ne by (by intros ->).
  - intros q cq Hq. destruct (decide (q = p)) as [->|Hne].
    + rewrite lookup_insert_eq in Hq. by injection Hq as <-.
    + rewrite lookup_insert_ne in Hq by done. by apply Widle.
  - intros q Hq. rewrite lookup_insert in Hq. case_decide; subst; [done|].
    specialize (Wfresh q Hq). lia.
Qed.

Lemma wf_delete st fl t t' p :
  wf st fl t -> p ∉ st -> p ∉ fl -> t_cos t' = delete p (t_cos t) -> t_next t' = t_next t ->
  t_cocurr t' = t_cocurr t -> t_recycle t' = t_recycle t -> t_recycle_count t' = t_recycle_count t -> wf st fl t'.
Proof.
  intros [Wcur Wsome Wnd Wch Wrec Wfl Wcnt Wmax Widle Wfresh] Hst Hfl Hcos Hn Hcur Hrec Hcnt.
  split; rewrite ?Hcos, ?Hcur, ?Hrec, ?Hcnt, ?Hn; try done.
  - eapply chain_other; [|done]. intros q Hq. by rewrite lookup_delete_ne by (by intros ->).
  - eapply recycled_other; [|done]. intros q Hq. by rewrite lookup_delete_ne by (by intros ->).
  - intros q cq Hq. apply lookup_delete_Some in Hq as [_ Hq]. by apply Widle.
  - intros q Hq. rewrite lookup_delete in Hq. case_decide; subst; [by destruct Hq|]. by apply Wfresh.
Qed.

Lemma delater_ok st fl t p c :
  wf st fl t -> t_cos t !! p = Some c -> p ∉ fl ->
  wp (dpaco_delater (Some p)) t (fun _ t' => exists fl', wf st fl' t').
Proof.
  intros Hw Hp Hfl. assert (Hw' := Hw). destruct Hw' as [Wcur Wsome Wnd Wch Wrec Wfl Wcnt Wmax Widle Wfresh].
  destruct (decide (c_status c = DPACO_CREATED \/ c_status c = DPACO_DEAD)) as [Hs|Hs].
  - assert (Hst : p ∉ st).
    { intros Hst. assert (Hrun : forall above st, chain (t_cos t) above st -> p ∈ st ->
        c_status c = DPACO_RUNNING \/ c_status c = DPACO_SUSPEND).
      { intros above st'. revert above. induction st' as [|q st' IH]; intros above; [by intros _ ?%not_elem_of_nil|].
        intros [(c2 & Hc2 & _ & Hcs) Hr] [->|Hin]%elem_of_cons; [|by eapply IH].
        simplify_eq. destruct above; [right; by destruct Hcs|by left]. }
      destruct (Hrun _ _ Wch Hst), Hs; congruence. }
    eapply wp_mono; [by eapply (wf_keep st fl t p c)|]. cbv beta. intros _ t' (fl' & Hw' & _). eauto.
  - unfold dpaco_delater. apply wp_bind. eapply wp_get_co; [done|].
    assert (Hgo : wp (upd_co p (set_delater true)) t (fun _ t' => exists fl', wf st fl' t')).
    2: { destruct (c_status c) eqn:E; try exact Hgo; exfalso; apply Hs; auto. }
    eapply wp_upd_co; [done|]. exists fl. split; cbn; try done.
    + eapply chain_same; [|done]. intros q cq Hq Hcq. destruct (decide (q = p)) as [->|Hne].
      * simplify_eq. eexists. rewrite lookup_insert_eq. done.
      * exists cq. by rewrite lookup_insert_ne.
    + eapply recycled_other; [|done]. intros q Hq. by rewrite lookup_insert_ne by (by intros ->).
    + intros q cq Hq H1 H2. destruct (decide (q = p)) as [->|Hne].
      * rewrite lookup_insert_eq in Hq. injection Hq as <-. exact (Widle p c Hp H1 H2).
      * rewrite lookup_insert_ne in Hq by done. by apply (Widle q).
    + intros q Hq. rewrite lookup_insert in Hq. case_decide; subst; apply Wfresh; eauto.
Qed.

(** What [dpaco_create] promises of the coroutine it gives. *)
Definition created (st fl : list loc) (f : Z) (r : option loc) (t' : thenv) : Prop :=
  exists q c', r = Some q /\ wf st fl t' /\ t_cos t' !! q = Some c' /\ c_status c' = DPACO_CREATED /\
    c_func c' = f /\ q ∉ st /\ q ∉ fl.

(** The end of [dpaco_create], from the object it has taken or allocated. *)
Lemma make_ok st fl t p c f n :
  wf st fl (with_cos (delete p) t) -> t_cos t !! p = Some c -> (p < t_next t)%positive -> p ∉ st -> p ∉ fl ->
  wp (upd_co p (fun c => set_delater false (set_link None (set_status DPACO_CREATED (set_func f c))));;
      c ← get_co p;
      p ← (if negb (c_size c =? n) then
             q ← realloc_co p;
             match q with Some q => upd_co q (set_size n);; mret q | None => mret p end
           else mret p);
      upd_co p (set_ctx KStart);; mret (Some p)) t (created st fl f).
Proof.
  intros Hw Hp Hlt Hst Hfl. assert (Hw' := Hw). destruct Hw' as [_ _ _ Wch _ Wfl _ _ _ Wfresh].
  set (g := fun c => set_delater false (set_link None (set_status DPACO_CREATED (set_func f c)))).
  assert (Hin : forall oom, let t1 := Thenv (<[p := g c]> (t_cos t)) (t_next t) oom (t_comain t) (t_cocurr t) (t_recycle t) (t_recycle_count t) (t_stack_size t) in
    wp (upd_co p (set_ctx KStart);; mret (Some p)) t1 (created st fl f)).
  { intros oom t1. apply wp_bind. eapply wp_upd_co; [cbn; apply lookup_insert_eq|]. apply wp_ret.
    eexists p, _. split; [done|]. split.
    - eapply (wf_put_idle st fl (with_cos (delete p) t) _ p (set_ctx KStart (g c))); try done; cbn; try lia.
      by rewrite insert_insert_eq, insert_delete_eq.
    - cbn. rewrite lookup_insert_eq. done. }
  apply wp_bind. eapply wp_upd_co; [done|]. fold (g c). apply wp_bind. eapply wp_get_co; [cbn; apply lookup_insert_eq|].
  apply wp_bind. destruct (negb _); [|apply wp_ret; exact (Hin (t_oom t))].
  unfold realloc_co. apply wp_bind, wp_bind. eapply wp_get_co; [cbn; apply lookup_insert_eq|].
  apply wp_bind. apply wp_alloc_ok. intros [] oom; [|apply wp_ret, wp_ret; exact (Hin oom)].
  apply wp_bind. eapply wp_free_co; [cbn; apply lookup_insert_eq|]. apply wp_bind.
  unfold wp at 1, place. apply wp_ret. apply wp_bind. cbn [t_next t_cos with_cos t_oom t_comain t_cocurr t_recycle t_recycle_count t_stack_size].
  eapply wp_upd_co; [cbn; apply lookup_insert_eq|]. apply wp_ret. apply wp_bind.
  eapply wp_upd_co; [cbn; apply lookup_insert_eq|]. apply wp_ret. eexists (t_next t), _. split; [done|].
  assert (Hq : t_next t ∉ st /\ t_next t ∉ fl).
  { split; intros Hin'; [destruct (chain_lookup _ _ _ _ Wch Hin') as [c' Hc']|destruct (recycled_lookup _ _ _ Wfl Hin') as [c' Hc']];
      specialize (Wfresh (t_next t) (mk_is_Some _ _ Hc')); cbn in Wfresh; lia. }
  destruct Hq as [Hq1 Hq2]. split; [|cbn; rewrite lookup_insert_eq; by split_and!].
  eapply (wf_put_idle st fl (with_cos (delete p) t) _ (t_next t) (set_ctx KStart (set_size n (g c))));
    try done; cbn; try lia. by rewrite !insert_insert_eq, delete_insert_eq.
Qed.

Lemma delete_ok st fl t p : wf st fl t -> p ∉ st -> p ∉ fl -> wf st fl (with_cos (delete p) t).
Proof. intros Hw Hst Hfl. by eapply (wf_delete st fl t _ p). Qed.

(** Taking the head of the list. *)
Lemma wf_take st p fl t c :
  wf st (p :: fl) t -> t_cos t !! p = Some c ->
  wf st fl (with_recycle (c_link c) (t_recycle_count t - 1) t) /\ p ∉ st /\ p ∉ fl.
Proof.
  intros [Wcur Wsome Wnd Wch Wrec Wfl Wcnt Wmax Widle Wfresh] Hp.
  apply NoDup_app in Wnd as (Hn1 & Hn2 & [Hn3 Hn4]%NoDup_cons).
  destruct Wfl as [(c' & Hc' & Hl & Hs & Hi) Wfl]. simplify_eq. rewrite zlen_cons in *.
  assert (Hst : p ∉ st) by (intros Hst; apply (Hn2 p Hst); left).
  split; [|done]. split; cbn; try done; try lia.
  - apply NoDup_app. split_and!; [done| |done]. intros q Hq1 Hq2. apply (Hn2 q Hq1). by right.
  - intros q cq Hq H1 H2. destruct (decide (q = p)) as [->|Hne]; [by simplify_eq|].
    apply (Widle q cq Hq H1). by apply not_elem_of_cons.
Qed.

Lemma create_ok st fl t f n :
  wf st fl t -> f <> 0 -> wp (dpaco_create f n) t (fun r t' =>
    created st (tail fl) f r t' \/ (fl = [] /\ r = None /\ wf st fl t')).
Proof.
  intros Hw Hf. assert (Hw' := Hw). destruct Hw' as [_ _ _ Wch Wrec Wfl _ _ _ Wfresh].
  unfold dpaco_create. rewrite (proj2 (Z.eqb_neq f 0) Hf). apply wp_bind, wp_gets. unfold id.
  cbv zeta. set (m := if n <=? 0 then t_stack_size t else n). rewrite Wrec. apply wp_bind.
  destruct fl as [|p fl]; cbn [head tail].
  - unfold calloc_co. apply wp_bind, wp_bind. apply wp_alloc_ok. intros [] oom; [|apply wp_ret, wp_ret, wp_ret].
    + apply wp_bind. unfold wp at 1, place. apply wp_ret, wp_bind.
      eapply wp_upd_co; [cbn; apply lookup_insert_eq|]. apply wp_ret.
      assert (Hq : t_cos t !! t_next t = None).
      { destruct (t_cos t !! t_next t) eqn:E; [|done]. specialize (Wfresh (t_next t) ltac:(eauto)). lia. }
      eapply wp_mono; [eapply (make_ok st [])|by left]; cbn [t_cos with_cos t_next].
      * destruct Hw as [Wcur Wsome Wnd _ _ _ Wcnt Wmax Widle _]. split; cbn; try done.
        -- by rewrite !delete_insert_eq, delete_id.
        -- intros q cq. rewrite !delete_insert_eq, delete_id by done. apply Widle.
        -- intros q. rewrite !delete_insert_eq, delete_id by done. intros Hs. specialize (Wfresh q Hs). lia.
      * apply lookup_insert_eq.
      * lia.
      * intros Hin. destruct (chain_lookup _ _ _ _ Wch Hin) as [c' Hc']. congruence.
      * apply not_elem_of_nil.
    + right. split_and!; [done|done|]. by destruct Hw; split.
  - destruct (recycled_lookup _ _ p Wfl ltac:(left)) as [c Hc].
    destruct (wf_take st p fl t c Hw Hc) as (Hw1 & Hst & Hfl).
    apply wp_bind. eapply wp_get_co; [done|]. apply wp_bind, wp_modify, wp_ret.
    eapply wp_mono; [eapply (make_ok st fl _ p c f m)|by left]; [by apply delete_ok|done| |done|done].
    apply Wfresh. eauto.
Qed.

Lemma thinit_ok t n :
  t_cos t = ∅ -> t_comain t = None -> t_oom t = [] ->
  wp (dpaco_thinit n) t (fun r t' => r = true /\ wf [t_next t] [] t').
Proof.
  destruct t as [cos nx oom ? cur ? ? ?]. cbn. intros -> -> ->. unfold dpaco_thinit. apply wp_bind, wp_gets.
  apply wp_bind. unfold calloc_co. apply wp_bind. unfold wp at 1, alloc_ok. cbn. apply wp_bind. unfold wp at 1, place.
  apply wp_ret. apply wp_bind. eapply wp_upd_co; [apply lookup_insert_eq|]. apply wp_bind, wp_modify, wp_ret.
  split; [done|]. split; cbn; try done.
  - apply NoDup_singleton.
  - split; [|done]. eexists. by rewrite lookup_insert_eq.
  - intros p c Hp Hst. rewrite insert_insert_eq in Hp. apply lookup_insert_Some in Hp as [[<- _]|[_ Hp]]; [|done].
    exfalso. apply Hst. left.
  - intros p [c Hp]. rewrite insert_insert_eq in Hp. apply lookup_insert_Some in Hp as [[<- _]|[_ Hp]]; [lia|done].
Qed.

(** ** The discipline *)

(** What the running code may do: it resumes and gives up coroutines it still
    has, and resumes none that waits for another. *)
Definition allowed (st fl : list loc) (t : thenv) (a : action) : Prop :=
  match a with
  | ACreate _ _ | AYield _ => True
  | AResume co _ => is_Some (t_cos t !! co) /\ co ∉ tail st /\ co ∉ fl
  | AReturn _ => (2 <= length st)%nat
  | ADelater co => is_Some (t_cos t !! co) /\ co ∉ fl
  | AWrap _ _ _ => False
  end.

(** The stack machine: where control goes, with which value, and the stack. *)
Definition stack_step (st : list loc) (t : thenv) (a : action) (o : outcome) (st' : list loc) : Prop :=
  match a, st with
  | ACreate f _, _ => st' = st /\ (o = Ret 0 \/ exists p, o = Ret (Z.pos p) /\ p ∉ st /\ f <> 0)
  | AResume co v, _ =>
      match t_cos t !! co with
      | Some c => match c_status c with
                  | DPACO_CREATED => o = Enter co (c_func c) v /\ st' = co :: st
                  | DPACO_SUSPEND => o = Back co v /\ st' = co :: st
                  | _ => o = Ret DPV64_NULL /\ st' = st
                  end
      | None => False
      end
  | (AYield v | AReturn v), _ :: q :: r => o = Back q v /\ st' = q :: r
  | AYield _, _ => o = Ret DPV64_NULL /\ st' = st
  | ADelater _, _ => o = Ret 0 /\ st' = st
  | AReturn _, _ | AWrap _ _ _, _ => False
  end.

(** C7. Coroutines refine a stack machine.  In a well-formed environment, whose
    waiting coroutines form a stack under the running one, every permitted
    action is defined and does what the stack says: resuming enters a new
    coroutine's function, or the yield where a suspended one waits, with the
    value passed, and pushes it; yielding and returning pop the stack and hand
    the value to the resumer; a coroutine that runs or is finished cannot be
    resumed, and the main one cannot yield; creating (from the list of coroutines
    kept for reuse, by allocation, with a stack of another size, or failing for
    lack of memory) gives a coroutine that is not in use.  The environment stays
    well-formed, with at most 1024 coroutines kept. *)
Theorem coroutines_keep_a_stack st fl t a :
  wf st fl t -> allowed st fl t a ->
  wp (act a) t (fun o t' => exists st' fl', stack_step st t a o st' /\ wf st' fl' t').
Proof.
  intros Hw Ha. destruct a as [f n|co v|v|v|co|f v n]; cbn [allowed act] in *; [..|done].
  - apply wp_bind. destruct (decide (f = 0)) as [->|Hf].
    { apply wp_ret, wp_ret. exists st, fl. split; [split; [done|by left]|done]. }
    eapply wp_mono; [by apply (create_ok st fl t f n)|]. cbv beta.
    intros r t' [(q & c & -> & Hw' & _ & _ & _ & Hq & _)|(_ & -> & Hw')]; apply wp_ret.
    + exists st, (tail fl). split; [|done]. split; [done|]. right. by exists q.
    + exists st, fl. split; [|done]. split; [done|by left].
  - destruct Ha as ([c Hc] & Hst & Hfl). eapply wp_mono; [by eapply (resume_ok st fl t co c v)|]. cbv beta.
    intros o t'. cbn [stack_step]. rewrite Hc. destruct (c_status c) eqn:Hs.
    + intros [-> Hw']. by exists (co :: st), fl.
    + intros [-> ->]. by exists st, fl.
    + intros [-> Hw']. by exists (co :: st), fl.
    + intros [-> ->]. by exists st, fl.
  - eapply wp_mono; [by apply (yield_ok st fl t v)|]. cbv beta. intros o t'.
    destruct st as [|cur [|q r]]; intros [-> Hw']; [subst t'; by eexists [], fl|subst t'; by exists [cur], fl|by exists (q :: r), fl].
  - destruct st as [|cur [|q r]]; cbn in Ha; [lia..|].
    eapply wp_mono; [by apply (mainfunc_end_ok cur q r fl t v)|]. cbv beta.
    intros o t' (-> & fl' & Hw'). by exists (q :: r), fl'.
  - destruct Ha as ([c Hc] & Hfl). apply wp_bind. eapply wp_mono; [by eapply (delater_ok st fl t co c)|]. cbv beta.
    intros _ t' (fl' & Hw'). apply wp_ret. by exists st, fl'.
Qed.

(** A thread with a main coroutine, that creates another one and runs it. *)
Definition fresh_thread : thenv := null_thenv ∅ 1%positive [].
Definition started : thenv := default fresh_thread (snd <$> (dpaco_thinit 0;; act (ACreate 7 0)) fresh_thread).
Lemma started_wf : wf [1%positive] [] started.
Proof.
  split; vm_compute; try done.
  - apply NoDup_singleton.
  - split; [eexists; split; [done|by split]|done].
  - intros p c Hp Hst _. destruct p as [[p|p|]|[p|p|]|]; try done.
    + by injection Hp as <-.
    + exfalso. apply Hst. left.
  - intros p [c Hp]. by destruct p as [[p|p|]|[p|p|]|].
Qed.
Lemma coroutines_keep_a_stack_witness :
  wp (act (AResume 2 11)) started (fun o t' =>
    exists st' fl', stack_step [1%positive] started (AResume 2 11) o st' /\ wf st' fl' t').
Proof.
  apply (coroutines_keep_a_stack [1%positive] [] started (AResume 2 11) started_wf).
  split; [vm_compute; by eexists|split; apply not_elem_of_nil].
Defined.

(** A generator: values go in with each resume and out with each yield, and a
    finished coroutine answers nothing. *)
Example a_generator :
  fst <$> (dpaco_thinit 0;;
    acts [ACreate 7 0; AResume 2 11; AYield 21; AResume 2 12; AReturn 22; AResume 2 13]) fresh_thread
  = Some [Ret 2; Enter 2 7 11; Back 1 21; Back 2 12; Back 1 22; Ret 0].
Proof. vm_compute. reflexivity. Qed.

(** A coroutine that waits for another has status [DPACO_SUSPEND] like one that
    yielded, and [dpaco_resume] takes it: the two coroutines then resume each
    other, and the first one's end runs off the end of the second. *)
Example resume_of_a_waiting_coroutine :
  fst <$> (dpaco_thinit 0;;
    acts [ACreate 7 0; ACreate 8 0; AResume 2 11; AResume 3 12; AResume 2 13; AReturn 14; AYield 15]) fresh_thread
  = None.
Proof. vm_compute. reflexivity. Qed.

(** A wrapped coroutine that asks for its own destruction is put on the list
    twice, and two creations then give the same coroutine. *)
Example wrapped_twice_recycled :
  fst <$> (dpaco_thinit 0;;
    acts [AWrap 7 11 0; ADelater 2; AReturn 5; ACreate 8 0; ACreate 9 0]) fresh_thread
  = Some [Enter 2 7 11; Ret 0; Back 1 5; Ret 2; Ret 2].
Proof. vm_compute. reflexivity. Qed.

(** A coroutine that yields inside [dpaco_wrap] is destroyed later only. *)
Example wrapped_yields :
  fst <$> (dpaco_thinit 0;;
    acts [AWrap 7 11 0; AYield 5; AResume 2 12; AReturn 6; ACreate 8 0]) fresh_thread
  = Some [Enter 2 7 11; Back 1 5; Back 2 12; Back 1 6; Ret 2].
Proof. vm_compute. reflexivity. Qed.
