(* ===== verification/Cwcid.v ===== *)
(** * Identifiers ([lib/dpcwc/dpcwc_aux.c])

    [dpcwc_id_next] makes 64-bit identifiers of a time, a machine, a thread and a
    sequence number; [_to_base62] and [_to_uint64] write them as eleven
    characters and read them back.  The clock is a list of readings.  The call
    sleeps while the sequence number is used up, and other coroutines of the
    thread run meanwhile: [id_enter] and [id_wake] are its parts between sleeps. *)

From Stdlib Require Import Sorted.
From S2P Require Import Prelude Chars.

#[local] Set Default Proof Using "Type*".

(** ** Base 62 *)

Definition base62_chars : chars := chr "0123456789ABCDEFGHIJKLMNOPQRSTUVWXYZabcdefghijklmnopqrstuvwxyz".

(** The loop from [buffer[n - 1]] down. *)
Fixpoint base62_loop (n : nat) (value : Z) (buffer : chars) : chars :=
  match n with
  | O => buffer
  | S i =>
      if 0 <? value
      then base62_loop i (value / 62) (<[i := nth (Z.to_nat (value mod 62)) base62_chars zero]> buffer)
      else buffer
  end.

(** [None] when the buffer is too small. *)
Definition _to_base62 (value : Z) (buffer : chars) : option chars :=
  if zlen buffer <? 11 then None
  else Some (base62_loop 11 value (splice 0 (replicate 11 "0"%char) buffer)).

Fixpoint uint64_loop (v : Z) (s : chars) : Z :=
  match s with
  | [] => v
  | b :: s =>
      let c := code b in
      if (code "0" <=? c) && (c <=? code "9") then uint64_loop (to_u64 (v * 62 + (c - code "0"))) s
      else if (code "A" <=? c) && (c <=? code "Z") then uint64_loop (to_u64 (v * 62 + (10 + (c - code "A")))) s
      else if (code "a" <=? c) && (c <=? code "z") then uint64_loop (to_u64 (v * 62 + (36 + (c - code "a")))) s
      else 0
  end.

Definition _to_uint64 (b62 : option chars) : Z :=
  match b62 with
  | None => 0
  | Some s => uint64_loop 0 (ztake 11 s)
  end.

Definition dpcwc_id_2u64 (str : option chars) : Z := _to_uint64 str.
Definition dpcwc_id_2str (id : Z) (out_str : chars) : option chars := _to_base62 id out_str.

(** ** Identifiers *)

Record dpcwc_id_t := Id { i_sequence : Z; i_thread_id : Z; i_machine_id : Z; i_timestamp : Z }.

(** The bit fields, and the word they make (the first field lowest). *)
Definition id_make (sequence thread_id machine_id timestamp : Z) : dpcwc_id_t :=
  Id (sequence mod 2 ^ 10) (thread_id mod 2 ^ 8) (machine_id mod 2 ^ 5) (timestamp mod 2 ^ 41).
Definition id_word (id : dpcwc_id_t) : Z :=
  i_sequence id + 2 ^ 10 * (i_thread_id id + 2 ^ 8 * (i_machine_id id + 2 ^ 5 * i_timestamp id)).

(** The context of the thread, and the readings of the clock to come. *)
Record idst := Idst { s_sequence : Z; s_timestamp : Z; s_clock : list Z }.

Definition _baseTS : Z := 1735660800000.
Definition _max_sequence : Z := Z.shiftl 1 10 - 1.

Abbreviation I := (ST idst).

Definition dplog_millis : I Z :=
  fun s => match s_clock s with
           | [] => None
           | t :: ts => Some (t, Idst (s_sequence s) (s_timestamp s) ts)
           end.

(** What a part of the call comes to: an identifier, or a sleep. *)
Inductive id_part := Got (word : Z) | Sleep (id : dpcwc_id_t).

(** The test of the loop, and what follows the loop. *)
Definition id_loop (id : dpcwc_id_t) : I id_part :=
  s ← gets (fun s : idst => s);
  if (i_sequence id =? _max_sequence) && (i_timestamp id =? s_timestamp s) then mret (Sleep id) else
  modify (fun s => Idst (s_sequence s) (i_timestamp id) (s_clock s));;
  mret (Got (id_word id)).

Definition id_enter (machine_id thread_id : Z) : I id_part :=
  s ← gets (fun s : idst => s);
  modify (fun s => Idst (s_sequence s + 1) (s_timestamp s) (s_clock s));;
  now ← dplog_millis;
  let id := id_make (s_sequence s) thread_id machine_id (now - _baseTS) in
  (if i_sequence id =? _max_sequence then modify (fun s => Idst 0 (s_timestamp s) (s_clock s)) else mret tt);;
  id_loop id.

Definition id_wake (id : dpcwc_id_t) : I id_part :=
  now ← dplog_millis;
  id_loop (id_make (i_sequence id) (i_thread_id id) (i_machine_id id) (now - _baseTS)).

(** The call when nothing else runs while it sleeps. *)
Fixpoint id_wait (fuel : nat) (r : id_part) : I Z :=
  match r, fuel with
  | Got w, _ => mret w
  | Sleep id, S fuel => r ← id_wake id; id_wait fuel r
  | Sleep _, O => ub
  end.
Definition dpcwc_id_next_word (machine_id thread_id : Z) : I Z :=
  s ← gets (fun s : idst => s);
  r ← id_enter machine_id thread_id;
  id_wait (length (s_clock s)) r.
Definition dpcwc_id_next (machine_id thread_id : Z) (out_str : option chars) : I (Z * option chars) :=
  w ← dpcwc_id_next_word machine_id thread_id;
  match out_str with
  | None => mret (w, None)
  | Some buf => buf ← lift_opt (_to_base62 w buf); mret (w, Some buf)
  end.

(** [n] calls in a row. *)
Fixpoint id_run (machine_id thread_id : Z) (n : nat) : I (list Z) :=
  match n with
  | O => mret []
  | S n => w ← dpcwc_id_next_word machine_id thread_id; ws ← id_run machine_id thread_id n; mret (w :: ws)
  end.

(** ** Writing and reading back *)

Definition b62_char (d : Z) : ascii := nth (Z.to_nat d) base62_chars zero.

(** The [n] digits of [v], the highest first. *)
Fixpoint b62 (n : nat) (v : Z) : chars :=
  match n with O => [] | S n => b62 n (v / 62) ++ [b62_char (v mod 62)] end.

Lemma b62_char_read d v s :
  0 <= d < 62 -> uint64_loop v (b62_char d :: s) = uint64_loop (to_u64 (v * 62 + d)) s.
Proof.
  intros Hd. rewrite <- (Z2Nat.id d) by lia. assert (Hn : (Z.to_nat d < 62)%nat) by lia.
  unfold b62_char. rewrite Nat2Z.id. generalize dependent (Z.to_nat d). intros n Hn.
  do 62 (destruct n as [|n]; [reflexivity|]). lia.
Qed.

Lemma length_b62 n v : length (b62 n v) = n.
Proof. revert v. induction n as [|n IH]; intros v; cbn; [done|]. rewrite length_app, IH. cbn. lia. Qed.

Lemma b62_zero n : b62 n 0 = replicate n "0"%char.
Proof.
  induction n as [|n IH]; [done|]. cbn [b62]. rewrite Z.div_0_l, Z.mod_0_l by lia. rewrite IH.
  change (b62_char 0) with "0"%char. by rewrite <- replicate_cons_app.
Qed.

Lemma base62_loop_b62 n v r : 0 <= v -> base62_loop n v (replicate n "0"%char ++ r) = b62 n v ++ r \/ 62 ^ Z.of_nat n <= v.
Proof.
  revert v r. induction n as [|n IH]; intros v r Hv; [by left|].
  destruct (Z_lt_le_dec v (62 ^ Z.of_nat (S n))) as [Hlt|]; [left|by right]. cbn [base62_loop].
  destruct (Z.ltb_spec 0 v) as [Hpos|Hz].
  - rewrite (replicate_S_end n), <- app_assoc. cbn [app].
    rewrite insert_app_r_alt by (rewrite length_replicate; lia). rewrite length_replicate, Nat.sub_diag. cbn [insert list_insert].
    destruct (IH (v / 62) (b62_char (v mod 62) :: r)) as [Hl|Hl]; [apply Z.div_pos; lia| |].
    + unfold b62_char in *. rewrite Hl. cbn [b62]. by rewrite <- app_assoc.
    + exfalso. rewrite Nat2Z.inj_succ, Z.pow_succ_r in Hlt by lia.
      pose proof (Z.div_lt_upper_bound v 62 (62 ^ Z.of_nat n)). lia.
  - replace v with 0 by lia. by rewrite b62_zero.
Qed.

Lemma uint64_loop_b62 n v acc r :
  0 <= v < 62 ^ Z.of_nat n -> 0 <= acc -> acc * 62 ^ Z.of_nat n + v < 2 ^ 64 ->
  uint64_loop acc (b62 n v ++ r) = uint64_loop (acc * 62 ^ Z.of_nat n + v) r.
Proof.
  revert v acc r. induction n as [|n IH]; intros v acc r Hv Ha Hb.
  - cbn [b62 app]. rewrite Z.mul_1_r. f_equal. cbn in Hv. lia.
  - cbn [b62]. rewrite <- app_assoc. cbn [app].
    rewrite Nat2Z.inj_succ, Z.pow_succ_r in * by lia.
    pose proof (Z_div_mod_eq_full v 62). pose proof (Z.mod_pos_bound v 62 ltac:(lia)).
    assert (0 <= v / 62 < 62 ^ Z.of_nat n) by (split; [apply Z.div_pos; lia|apply Z.div_lt_upper_bound; lia]).
    rewrite IH by nia. rewrite b62_char_read by lia. f_equal. unfold to_u64. rewrite Z.mod_small; nia.
Qed.

(** C36. Writing an identifier as eleven characters and reading them back gives it
    again, whatever 64-bit value it is and whatever the buffer held and follows;
    writing touches the first eleven characters only (no [NUL] among them). *)
Theorem base62_roundtrip (v : Z) (buffer rest : chars) :
  0 <= v < 2 ^ 64 -> 11 <= zlen buffer ->
  exists s, dpcwc_id_2str v buffer = Some (s ++ zdrop 11 buffer) /\ zlen s = 11 /\
    dpcwc_id_2u64 (Some (s ++ rest)) = v.
Proof.
  intros Hv Hb. exists (b62 11 v). unfold dpcwc_id_2str, _to_base62, dpcwc_id_2u64, _to_uint64.
  rewrite (proj2 (Z.ltb_ge _ _) Hb).
  assert (Hlen : zlen (b62 11 v) = 11) by (unfold zlen; by rewrite length_b62). split_and!; [|done|].
  - f_equal. unfold splice. rewrite ztake_0, app_nil_l.
    replace (0 + zlen (replicate 11 "0"%char)) with 11 by reflexivity.
    destruct (base62_loop_b62 11 v (zdrop 11 buffer)) as [H|H]; [lia|exact H|].
    exfalso. cbn in H. lia.
  - rewrite ztake_app, ztake_all by lia. rewrite Hlen, Z.sub_diag, ztake_0, app_nil_r.
    rewrite <- (app_nil_r (b62 11 v)), uint64_loop_b62; [cbn [uint64_loop]; lia|cbn; lia|lia|lia].
Qed.

Lemma base62_roundtrip_witness :
  exists s, dpcwc_id_2str (2 ^ 64 - 1) (replicate 12 "x"%char) = Some (s ++ zdrop 11 (replicate 12 "x"%char)) /\ zlen s = 11 /\
    dpcwc_id_2u64 (Some (s ++ [])) = 2 ^ 64 - 1.
Proof. apply base62_roundtrip; [lia|by vm_compute]. Defined.

Example base62_max : dpcwc_id_2str (2 ^ 64 - 1) (replicate 12 "x"%char) = Some (chr "LygHa16AHYFx").
Proof. vm_compute. reflexivity. Qed.

(** ** Identifiers are unique *)

(** Readings of a clock that does not go back, from time [lo] on, in the 41 bits
    of an identifier. *)
Definition clock_ok (lo : Z) (clk : list Z) : Prop :=
  StronglySorted Z.le clk /\ Forall (fun r => _baseTS + lo <= r < _baseTS + 2 ^ 41) clk.
(** How often the clock is read at [r]. *)
Definition times (r : Z) (clk : list Z) : nat := length (filter (fun x => x = r) clk).

Lemma clock_ok_app lo pre clk : clock_ok lo (pre ++ clk) -> clock_ok lo clk.
Proof.
  intros [Hs Hf]. apply Forall_app in Hf as [_ Hf]. split; [|done]. clear Hf.
  induction pre as [|r pre IH]; [done|]. apply IH. by inversion Hs.
Qed.

Lemma clock_ok_cons lo r clk : clock_ok lo (r :: clk) -> lo <= r - _baseTS < 2 ^ 41 /\ clock_ok (r - _baseTS) clk.
Proof.
  intros [Hs Hf]. apply Forall_cons in Hf as [Hr Hf]. inversion Hs as [|? ? Hs' Hle]; subst.
  split; [lia|]. split; [done|]. rewrite Forall_forall in *. intros x Hx. specialize (Hf x Hx). specialize (Hle x Hx).
  cbn in *. lia.
Qed.

Lemma times_cons r x clk : times r (x :: clk) = ((if decide (x = r) then 1 else 0) + times r clk)%nat.
Proof. unfold times. rewrite filter_cons. by case_decide. Qed.

Lemma times_app r pre clk : times r (pre ++ clk) = (times r pre + times r clk)%nat.
Proof. unfold times. by rewrite filter_app, length_app. Qed.

Lemma wp_millis s r clk (Q : Z -> idst -> Prop) :
  s_clock s = r :: clk -> Q r (Idst (s_sequence s) (s_timestamp s) clk) -> wp dplog_millis s Q.
Proof. intros Hs HQ. unfold wp, dplog_millis. by rewrite Hs. Qed.

Lemma id_make_again q th m a b :
  id_make (i_sequence (id_make q th m a)) (i_thread_id (id_make q th m a)) (i_machine_id (id_make q th m a)) b = id_make q th m b.
Proof. unfold id_make. cbn [i_sequence i_thread_id i_machine_id]. by rewrite !Z.mod_mod by lia. Qed.

(** What a call comes to, [n] readings later. *)
Definition got_id (q th m ts : Z) (clk : list Z) (n : nat) (w : Z) (s' : idst) : Prop :=
  exists t, w = id_word (id_make q th m t) /\ 0 <= t < 2 ^ 41 /\ ts <= t /\ (q = _max_sequence -> ts < t) /\
    s_sequence s' = (if q =? _max_sequence then 0 else q + 1) /\ s_timestamp s' = t /\
    clock_ok t (s_clock s') /\ exists pre, clk = pre ++ s_clock s' /\ (length pre <= n)%nat.

Lemma id_wait_ok q th m ts s clk fuel :
  q = _max_sequence -> 0 <= ts -> s = Idst 0 ts clk -> clock_ok ts clk ->
  (times (_baseTS + ts) clk < length clk)%nat -> (length clk <= fuel)%nat ->
  wp (id_wait fuel (Sleep (id_make q th m ts))) s (got_id q th m ts clk (times (_baseTS + ts) clk + 1)).
Proof.
  intros Hq Hts -> Hclk Hn. revert fuel. remember (id_make q th m ts) as id eqn:Hid.
  assert (Hid2 : exists a, id = id_make q th m a) by eauto. clear Hid.
  revert id Hid2. induction clk as [|r clk IH]; intros id [a ->] fuel Hfuel; [cbn in Hn; lia|].
  apply clock_ok_cons in Hclk as [Hr Hclk]. destruct fuel as [|fuel]; [cbn in Hfuel; lia|]. cbn [id_wait].
  unfold id_wake. apply wp_bind, wp_bind. eapply wp_millis; [done|]. cbn [s_sequence s_timestamp].
  rewrite id_make_again. unfold id_loop. apply wp_bind, wp_gets. rewrite times_cons in *.
  cbn [i_sequence id_make i_timestamp s_timestamp]. subst q. change (_max_sequence mod 2 ^ 10) with _max_sequence. rewrite Z.eqb_refl.
  rewrite Z.mod_small by lia. cbn [andb]. destruct (Z.eqb_spec (r - _baseTS) ts) as [Heq|Hne].
  - apply wp_ret. assert (Hr2 : r = _baseTS + ts) by lia. rewrite decide_True in * by done. subst ts. cbn in Hn, Hfuel.
    eapply wp_mono; [apply IH; [done|lia|eauto|lia]|].
    intros w s' (t & Hw & Ht & Hle & Hmax & Hseq & Hsts & Hok & pre & -> & Hpre).
    exists t. split_and!; try done; try lia. exists (r :: pre). split; [done|]. cbn. lia.
  - apply wp_bind, wp_modify, wp_ret. cbn [s_sequence s_clock id_make i_timestamp].
    destruct fuel; apply wp_ret; (exists (r - _baseTS); cbn [s_sequence s_timestamp s_clock]; split_and!; try done; try lia;
      exists [r]; split; [done|cbn; lia]).
Qed.

Lemma id_next_ok th m k s q ts clk :
  0 <= q <= _max_sequence -> 0 <= ts -> s = Idst q ts clk -> clock_ok ts clk ->
  (forall r, (times r clk <= k)%nat) -> (k + 1 <= length clk)%nat ->
  wp (dpcwc_id_next_word m th) s (got_id q th m ts clk (k + 1)).
Proof.
  intros Hq Hts -> Hclk Hk Hlen. unfold dpcwc_id_next_word. apply wp_bind, wp_gets. cbn [s_clock].
  destruct clk as [|r clk]; [cbn in Hlen; lia|]. apply clock_ok_cons in Hclk as [Hr Hclk].
  unfold id_enter. apply wp_bind, wp_bind, wp_gets. apply wp_bind, wp_modify. apply wp_bind.
  eapply wp_millis; [done|]. cbn [s_sequence s_timestamp s_clock]. apply wp_bind.
  assert (Hq2 : i_sequence (id_make q th m (r - _baseTS)) = q) by (apply Z.mod_small; change _max_sequence with 1023 in Hq; lia).
  assert (Ht2 : i_timestamp (id_make q th m (r - _baseTS)) = r - _baseTS) by (apply Z.mod_small; lia).
  assert (Hdone : forall s', s_sequence s' = (if q =? _max_sequence then 0 else q + 1) -> s_clock s' = clk ->
     (q = _max_sequence -> r - _baseTS <> ts) ->
     wp (id_wait (length (r :: clk)) (Got (id_word (id_make q th m (r - _baseTS)))))
        (Idst (s_sequence s') (r - _baseTS) (s_clock s')) (got_id q th m ts (r :: clk) (k + 1))).
  { intros s' Hs' Hc' Hmax. rewrite Hs', Hc'. apply wp_ret. exists (r - _baseTS). cbn [s_sequence s_timestamp s_clock].
    split_and!; try done; try lia. exists [r]. split; [done|cbn; lia]. }
  rewrite Hq2. unfold id_loop.
  destruct (Z.eqb_spec q _max_sequence) as [Hm|Hm].
  - apply wp_modify. apply wp_bind, wp_gets. rewrite Hq2, Ht2, (proj2 (Z.eqb_eq q _max_sequence) Hm). cbn [andb s_timestamp s_clock].
    destruct (Z.eqb_spec (r - _baseTS) ts) as [Heq|Hne].
    + apply wp_ret. specialize (Hk (_baseTS + ts)). rewrite times_cons, decide_True in Hk by lia. cbn in Hlen. rewrite Heq.
      eapply wp_mono; [apply (id_wait_ok q th m ts _ clk); [done|done|done|by rewrite <- Heq|lia|cbn; lia]|].
      intros w s' (t & Hw & Ht & Hle & Hmax & Hseq & Hsts & Hok & pre & -> & Hpre).
      exists t. split_and!; try done; try lia. exists (r :: pre). split; [done|]. cbn. lia.
    + apply wp_bind, wp_modify, wp_ret. cbv beta. rewrite ?Ht2. apply (Hdone (Idst 0 ts clk)); done.
  - apply wp_ret. apply wp_bind, wp_gets. rewrite Hq2, (proj2 (Z.eqb_neq q _max_sequence) Hm). cbn [andb].
    apply wp_bind, wp_modify, wp_ret. cbv beta. rewrite ?Ht2. apply (Hdone (Idst (q + 1) ts clk)); done.
Qed.

(** The fields of an identifier. *)
Definition word_sequence (w : Z) : Z := w mod 2 ^ 10.
Definition word_thread (w : Z) : Z := (w / 2 ^ 10) mod 2 ^ 8.
Definition word_machine (w : Z) : Z := (w / 2 ^ 18) mod 2 ^ 5.
Definition word_timestamp (w : Z) : Z := w / 2 ^ 23.

Lemma id_word_fields q th m t :
  0 <= q < 2 ^ 10 -> 0 <= th < 2 ^ 8 -> 0 <= m < 2 ^ 5 -> 0 <= t < 2 ^ 41 ->
  let w := id_word (id_make q th m t) in
  word_sequence w = q /\ word_thread w = th /\ word_machine w = m /\ word_timestamp w = t /\ 0 <= w < 2 ^ 64.
Proof.
  intros Hq Hth Hm Ht. cbv zeta. unfold id_word, id_make. cbn [i_sequence i_thread_id i_machine_id i_timestamp].
  rewrite !Z.mod_small by lia. unfold word_sequence, word_thread, word_machine, word_timestamp.
  change (2 ^ 18) with (2 ^ 10 * 2 ^ 8). change (2 ^ 23) with (2 ^ 10 * 2 ^ 8 * 2 ^ 5).
  change (2 ^ 64) with (2 ^ 10 * 2 ^ 8 * 2 ^ 5 * 2 ^ 41).
  assert (H1 : (q + 2 ^ 10 * (th + 2 ^ 8 * (m + 2 ^ 5 * t))) / 2 ^ 10 = th + 2 ^ 8 * (m + 2 ^ 5 * t)).
  { symmetry. apply (Z.div_unique _ _ _ q); lia. }
  assert (H2 : (th + 2 ^ 8 * (m + 2 ^ 5 * t)) / 2 ^ 8 = m + 2 ^ 5 * t) by (symmetry; apply (Z.div_unique _ _ _ th); lia).
  assert (H3 : (m + 2 ^ 5 * t) / 2 ^ 5 = t) by (symmetry; apply (Z.div_unique _ _ _ m); lia).
  split_and!.
  - symmetry. apply (Z.mod_unique _ _ (th + 2 ^ 8 * (m + 2 ^ 5 * t))); lia.
  - rewrite H1. symmetry. apply (Z.mod_unique _ _ (m + 2 ^ 5 * t)); lia.
  - rewrite <- Z.div_div by lia. rewrite H1, H2. symmetry. apply (Z.mod_unique _ _ t); lia.
  - rewrite <- !Z.div_div by lia. by rewrite H1, H2, H3.
  - lia.
  - lia.
Qed.

(** The identifiers of a run from sequence number [q] and time [ts]. *)
Definition fresh_ids (q th m ts : Z) (ws : list Z) : Prop :=
  NoDup ws /\ Forall (fun w => 0 <= w < 2 ^ 64 /\ word_thread w = th /\ word_machine w = m /\ ts <= word_timestamp w /\
    (word_timestamp w = ts -> q <= word_sequence w < _max_sequence)) ws.

Lemma fresh_ids_cons q th m ts t ws :
  0 <= q <= _max_sequence -> 0 <= th < 2 ^ 8 -> 0 <= m < 2 ^ 5 -> 0 <= t < 2 ^ 41 -> ts <= t ->
  (q = _max_sequence -> ts < t) ->
  fresh_ids (if q =? _max_sequence then 0 else q + 1) th m t ws ->
  fresh_ids q th m ts (id_word (id_make q th m t) :: ws).
Proof.
  intros Hq Hth Hm Ht Hle Hmax [Hnd Hall].
  assert (Hq2 : 0 <= q < 2 ^ 10) by (change _max_sequence with 1023 in Hq; lia).
  destruct (id_word_fields q th m t Hq2 Hth Hm Ht) as (F1 & F2 & F3 & F4 & F5). split.
  - apply NoDup_cons. split; [|done]. intros Hin. rewrite Forall_forall in Hall. specialize (Hall _ Hin).
    destruct Hall as (_ & _ & _ & _ & Hs). specialize (Hs F4). rewrite F1 in Hs.
    destruct (Z.eqb_spec q _max_sequence); lia.
  - apply Forall_cons. split.
    + split_and!; try lia; intros; rewrite F1; destruct (Z.eq_dec q _max_sequence); lia.
    + eapply Forall_impl; [exact Hall|]. cbn. intros w (W0 & W1 & W2 & W3 & W4). split_and!; try lia.
      all: intros Heq; assert (word_timestamp w = t) as Hwt by lia; specialize (W4 Hwt).
      all: destruct (Z.eqb_spec q _max_sequence); lia.
Qed.

Lemma id_run_ok th m k n : 0 <= th < 2 ^ 8 -> 0 <= m < 2 ^ 5 -> forall q ts clk,
  0 <= q <= _max_sequence -> 0 <= ts -> clock_ok ts clk ->
  (forall r, (times r clk <= k)%nat) -> (n * (k + 1) <= length clk)%nat ->
  wp (id_run m th n) (Idst q ts clk) (fun ws _ => length ws = n /\ fresh_ids q th m ts ws).
Proof.
  intros Hth Hm. induction n as [|n IH]; intros q ts clk Hq Hts Hclk Hk Hlen; cbn [id_run].
  - apply wp_ret. split; [done|]. split; [apply NoDup_nil_2|constructor].
  - apply wp_bind. eapply wp_mono; [apply (id_next_ok th m k _ q ts clk); [done|done|done|done|done|lia]|].
    intros w0 [q' ts' clk'] (t & -> & Ht & Hle & Hmax & Hseq & Hts' & Hok & pre & -> & Hpre).
    cbn [s_sequence s_timestamp s_clock] in *. subst q' ts'. rewrite length_app in Hlen. apply wp_bind.
    eapply wp_mono; [apply (IH (if q =? _max_sequence then 0 else q + 1) t clk'); [|lia|done| |lia]|].
    + change _max_sequence with 1023 in *. destruct (Z.eqb_spec q 1023); lia.
    + intros r. specialize (Hk r). rewrite times_app in Hk. lia.
    + intros ws s2 [Hn Hws]. apply wp_ret. split; [cbn; lia|]. by apply fresh_ids_cons.
Qed.

(** C11. On one thread, whose clock does not go back and answers at most [k] times
    in the same millisecond, [n] calls of [dpcwc_id_next] in a row end, and give
    [n] different identifiers, which all carry the thread's number and the
    machine's: a call reads the clock at most [k + 1] times, and identifiers of
    different threads or machines differ in those fields. *)
Theorem ids_are_unique (th m : Z) (n k : nat) (clk : list Z) :
  0 <= th < 2 ^ 8 -> 0 <= m < 2 ^ 5 -> clock_ok 0 clk -> (forall r, (times r clk <= k)%nat) ->
  (n * (k + 1) <= length clk)%nat ->
  wp (id_run m th n) (Idst 0 0 clk) (fun ws _ => length ws = n /\ NoDup ws /\
    Forall (fun w => word_thread w = th /\ word_machine w = m) ws).
Proof.
  intros Hth Hm Hclk Hk Hlen.
  eapply wp_mono; [apply (id_run_ok th m k n Hth Hm 0 0 clk); [by vm_compute|done..]|].
  intros ws _ (Hn & Hnd & Hall). split_and!; [done|done|]. eapply Forall_impl; [exact Hall|]. cbn. tauto.
Qed.

Definition ex_clock : list Z := map (Z.add _baseTS) [0; 0; 1; 1; 2; 2; 3; 3; 4].
Lemma ids_are_unique_witness :
  wp (id_run 3 7 3) (Idst 0 0 ex_clock) (fun ws _ => length ws = 3%nat /\ NoDup ws /\
    Forall (fun w => word_thread w = 7 /\ word_machine w = 3) ws).
Proof.
  apply (ids_are_unique 7 3 3 2 ex_clock); [lia|lia| | |by vm_compute].
  - split; [vm_compute; repeat constructor; discriminate|repeat constructor; by vm_compute].
  - intros r. unfold ex_clock, _baseTS. cbn [map]. rewrite !times_cons. cbn [times filter list_filter length].
    change (times r []) with 0%nat. repeat case_decide; lia.
Defined.

(** ** Examples *)

(** After a call that used up the sequence, the next one in the same millisecond
    gives a smaller identifier. *)
Example ids_not_monotone :
  fst <$> id_run 1 0 2 (Idst 1023 5 [_baseTS + 6; _baseTS + 6])
  = Some [id_word (id_make 1023 0 1 6); id_word (id_make 0 0 1 6)] /\
  id_word (id_make 0 0 1 6) < id_word (id_make 1023 0 1 6).
Proof. vm_compute. done. Qed.

(** While a call sleeps for the next millisecond, another coroutine of the thread
    asks for an identifier: the sequence has been reset already, and it gets the
    one given first in this millisecond. *)
Example sleeping_call_duplicates :
  fst <$> (a ← dpcwc_id_next_word 1 0;
    modify (fun s => Idst 1023 (s_timestamp s) (s_clock s)) (* 1022 more calls in the same millisecond *);;
    r ← id_enter 1 0; (* sleeps *)
    b ← dpcwc_id_next_word 1 0;
    mret (match r with Sleep _ => true | _ => false end, bool_decide (a = b)))
    (Idst 0 0 [_baseTS + 7; _baseTS + 7; _baseTS + 7]) = Some (true, true).
Proof. vm_compute. reflexivity. Qed.
