(* ===== verification/Cwc.v ===== *)
(** * The coroutine runtime ([lib/dpcwc/dpcwc.c], [lib/dpcwc/dpcwc_aux.c])

    The code of a thread is an interaction tree: it acts on the state of the
    thread (its loop, its coroutines, its memory) and switches coroutines.
    [step] runs the tree of the running coroutine and keeps, for every coroutine
    that is suspended or waits for one it resumed, what it does next.  The
    functions of the modules that the runtime loads are the user's. *)

From ITree Require Import ITree.
From Stdlib Require Import SpecFloat.
From S2P Require Import Prelude Chars Dpret Ele Tmrset World Evp AscTmr Dpaco.

#[local] Set Default Proof Using "Type*".

(** One listener's settings; pointers are numbers, 0 is [NULL]. *)
Record dpcwc_server_param := ServerParam {
  sp_type : option chars;
  sp_host : Z;
  sp_port : Z;
  sp_ssl : Z;
  sp_start : Z;
  sp_start_args : Z;
}.

(** The state of a thread: its loop, its coroutines, [dpapp_ctx_t], blocks of
    words (locals whose address is taken), and the users' arrays of settings. *)
Record rts (E : Type) := Rts {
  r_world : world E;
  r_env : thenv;
  r_step_toms : Z;
  r_usrdata : Z;
  r_mem : gmap loc (list Z);
  r_params : gmap loc dpcwc_server_param;
}.
Arguments Rts {E}. Arguments r_world {E}. Arguments r_env {E}. Arguments r_step_toms {E}.
Arguments r_usrdata {E}. Arguments r_mem {E}. Arguments r_params {E}.

(** What code does: a step on the thread's state, or a call of [lib/dpaco] that
    may switch. *)
Inductive rtE (E : Type) : Type -> Type :=
  | EvDo {X} (m : ST (rts E) X) : rtE E X
  | EvCo (a : action) : rtE E Z.
Arguments EvDo {E X}. Arguments EvCo {E}.

#[export] Instance tree_ret F : MRet (itree F) := fun A a => go (RetF a).
#[export] Instance tree_bind F : MBind (itree F) := fun A B f t => ITree.bind t f.

Section Cwc.
Context {E : Type} `{Sys E} (P : program E).
(** The value of [errno] after a failed call. *)
Context (errno : E -> Z).
(** The numbers of the operation descriptors. *)
Context (dptmr_timeout dpctc_submit dpskt_connect dpskt_accept dpqic_accept : Z).
(** The element types of the sockets, and of the modules that wrap the TLS and
    QUIC libraries. *)
Context (dptcp_client_type dptcp_listen_type dptcp_server_type dpuds_client_type dpuds_listen_type dpuds_server_type
  dpssl_client_type dpssl_server_type dpqic_listen_type : dpele_type).
Context (dpssl_enable : bool) (dpqic_add_engine : Z -> ST (world E) Z).
(** Turns that are enough for the loop. *)
Context (fuel : nat).

Abbreviation T := (itree (rtE E)).
Abbreviation M := (ST (world E)).

Definition todo {A} (m : ST (rts E) A) : T A := ITree.trigger (EvDo m).
Definition coa (a : action) : T Z := ITree.trigger (EvCo a).

Definition with_world (w : world E) (s : rts E) : rts E :=
  Rts w (r_env s) (r_step_toms s) (r_usrdata s) (r_mem s) (r_params s).
Definition with_env (t : thenv) (s : rts E) : rts E :=
  Rts (r_world s) t (r_step_toms s) (r_usrdata s) (r_mem s) (r_params s).
Definition with_mem (f : gmap loc (list Z) -> gmap loc (list Z)) (s : rts E) : rts E :=
  Rts (r_world s) (r_env s) (r_step_toms s) (r_usrdata s) (f (r_mem s)) (r_params s).

Definition on_world {A} (m : M A) : ST (rts E) A :=
  fun s => (fun r => (r.1, with_world r.2 s)) <$> m (r_world s).
Definition on_env {A} (m : ST thenv A) : ST (rts E) A :=
  fun s => (fun r => (r.1, with_env r.2 s)) <$> m (r_env s).
Definition onw {A} (m : M A) : T A := todo (on_world m).

(** Locals whose address is passed on: a block while the function runs. *)
Definition new_block (ws : list Z) : T loc :=
  todo (fun s => let p := fresh (dom (r_mem s)) in Some (p, with_mem <[p := ws]> s)).
Definition free_block (p : loc) : T unit :=
  todo (fun s => match r_mem s !! p with Some _ => Some (tt, with_mem (delete p) s) | None => None end).
Definition read_block (p i : Z) : T Z :=
  todo (fun s => (fun v => (v, s)) <$> (match p with Z.pos p => r_mem s !! p ≫= fun ws => znth ws i | _ => None end)).

Definition addr (p : option loc) : Z := match p with Some p => Z.pos p | None => 0 end.
Definition ptr_of (v : Z) : option loc := match v with Z.pos p => Some p | _ => None end.
(** A pointer that is dereferenced. *)
Definition deref (v : Z) : T loc := todo (lift_opt (ptr_of v)).
Definition get_errno : T Z := todo (gets (fun s => errno (w_ext (r_world s)))).

(** [(dpv64_t){.a32.s32 = ret}] and [.a32.s32]. *)
Definition v_of_i32 (ret : Z) : Z := to_u32 ret.
Definition i32_of_v (v : Z) : Z := to_i32 v.

(** The words of the element's scratch memory, [NULL] without it. *)
Definition scratch_words (ele : loc) : M (option (list Z)) :=
  e ← get_ele ele; mret (snd <$> e_scratch e).
Definition asc_words (ele : loc) : T (option (list Z)) := onw (scratch_words ele).
Definition word_at (ws : list Z) (i : Z) : T Z := todo (lift_opt (znth ws i)).

(** ** Waiting for an element *)

Definition dpcwc_await (ele : loc) (yield_msg : Z) : T Z :=
  co ← todo (on_env dpaco_running);
  w ← onw (dpele_wait ele (addr co));
  if w : bool then v ← coa (AYield yield_msg); mret (i32_of_v v)
  else onw (dpele_ret ele).

Definition dpcwc_cease (ele : loc) (ret : Z) : T Z :=
  cop ← onw (dpele_cop ele);
  r ← onw (dpevp_end ele ret);
  match ptr_of cop with
  | Some co => if dpret_isok r then _ ← coa (AResume co (v_of_i32 ret)); mret r else mret r
  | None => mret r
  end.

Definition dpcwc_aexec (ele : loc) (asc : Z) (vargs : list Z) : T Z :=
  ret ← onw (dpevp_addv P fuel (Some ele) (Some asc) vargs);
  if ret =? DPE_WAIT then dpcwc_await ele DPV64_NULL else mret ret.

(** Negative delays are [4294967296.0f]; a [double] is its 64 bits. *)
Definition FOREVER : Z := 0x41F0000000000000.
Definition delay (sec : Z) : Z := if f64_ltb (AscTmr.f64_of_bits sec) (S754_zero false) then FOREVER else sec.

(** The result, and [*ptmr_] if it was set. *)
Definition dpcwc_timer (sec func : Z) (ptmr_ : bool) (arg : Z) : T (Z * option loc) :=
  if func =? 0 then mret (DPE_INVAL, None) else
  timer ← onw (dpele_new P (Some dptmr_init_type) []);
  match timer with
  | None => e ← get_errno; mret (e, None)
  | Some timer =>
      ret ← onw (dpevp_add P fuel (Some timer) (Some dptmr_timeout) [delay sec; func; arg]);
      if negb (ret =? DPE_WAIT) then onw (dpele_del P (Some timer));; mret (ret, None) else
      if ptmr_ then _ ← onw (dpele_ref timer); mret (DPE_OK, Some timer) else mret (DPE_OK, None)
  end.

Definition dpcwc_sleep (sec yield_msg : Z) : T Z :=
  timer ← onw (dpele_new P (Some dptmr_init_type) []);
  match timer with
  | None => get_errno
  | Some timer =>
      ret ← onw (dpevp_add P fuel (Some timer) (Some dptmr_timeout) [delay sec; DPV64_NULL; DPV64_NULL]);
      if negb (ret =? DPE_WAIT) then onw (dpele_del P (Some timer));; mret ret else
      ret ← dpcwc_await timer yield_msg;
      onw (dpele_del P (Some timer));;
      mret ret
  end.

(** ** The users' functions

    By address: coroutines, callbacks of calls and timers ([dpcwc_call_f]), and
    what a module registers for a type of threads ([dpapp_hdr_t]). *)

Record dpapp_hdr := Hdr {
  h_init : option (Z -> Z -> T Z);
  h_exit : option (Z -> T unit);
  h_step : option (Z -> T Z);
  h_init_arg1 : Z;
  h_init_arg2 : Z;
}.
Definition no_hdr : dpapp_hdr := Hdr None None None 0 0.

Context (user_co : Z -> option (Z -> T Z)) (user_call : Z -> option (loc -> Z -> T Z)).

Definition call (func : Z) (ele : loc) (arg : Z) : T Z :=
  match user_call func with Some f => f ele arg | None => todo ub end.

(** ** The loop of a thread *)

(** Addresses of the runtime's own coroutines. *)
Definition FN_RUN_CTC : Z := 1.
Definition FN_RUN_TMR : Z := 2.
Definition FN_RUN_APP : Z := 3.
Definition FN_TCP_LOOP : Z := 4.
Definition FN_UDS_LOOP : Z := 5.
Definition FN_QIC_LOOP : Z := 6.

(** The callback and its argument in the scratch memory. *)
Definition run_callback (ele : loc) : T Z :=
  data ← asc_words ele;
  data ← todo (lift_opt data);
  func ← word_at data 0;
  a ← word_at data 1;
  call func ele a.

Definition _dpcwc_run_ctc (arg : Z) : T Z :=
  ctc ← deref arg;
  err ← run_callback ctc;
  _ ← onw (dpevp_end_ctc_ P (Some ctc) err);
  mret DPV64_NULL.

Definition _dpcwc_run_tmr (arg : Z) : T Z :=
  tmr ← deref arg;
  ret ← run_callback tmr;
  onw (dpele_set_ret tmr ret);;
  onw (dpele_del P (Some tmr));;
  mret DPV64_NULL.

(** [hdr] is what the first pointer of the arguments leads to. *)
Definition _dpcwc_run_app (hdr : dpapp_hdr) (arg : Z) : T Z :=
  match h_init hdr with
  | None => todo ub
  | Some init =>
      v ← init (h_init_arg1 hdr) (h_init_arg2 hdr);
      todo (modify (fun s => Rts (r_world s) (r_env s) (r_step_toms s) v (r_mem s) (r_params s)));;
      mret DPV64_NULL
  end.

Definition set_step_toms (ms : Z) : T unit :=
  todo (modify (fun s => Rts (r_world s) (r_env s) ms (r_usrdata s) (r_mem s) (r_params s))).
Definition dpcwc_set_step_timeout (ms : Z) : T unit := set_step_toms ms.
Definition dpcwc_usrdata : T Z := todo (gets r_usrdata).

(** The waiting coroutine, if it is suspended, gets the result. *)
Definition wake (cop ret : Z) : T unit :=
  match ptr_of cop with
  | None => mret tt
  | Some co =>
      st ← todo (on_env (dpaco_status co));
      if bool_decide (st = DPACO_SUSPEND) then _ ← coa (AResume co (v_of_i32 ret)); mret tt else mret tt
  end.

Definition has_callback (data : option (list Z)) : T bool :=
  match data with None => mret false | Some ws => f ← word_at ws 0; mret (negb (f =? 0)) end.

(** A call that this thread is to run: its operation is in progress and has no
    [post]. *)
Definition runs_call (e : dpele) : bool :=
  match asc_of P e with Some a => match a_post a with None => true | Some _ => false end | None => false end.

(** The element [x], by its type. *)
Definition deliver (x : loc) (e : dpele) (co ret : Z) : T unit :=
  match ty_type (e_type e) with
  | DPELE_TYPE_EFD | DPELE_TYPE_USD => wake co ret
  | DPELE_TYPE_TMR =>
      data ← asc_words x;
      cb ← has_callback data;
      if cb : bool then _ ← coa (AWrap FN_RUN_TMR (addr (Some x)) 0); mret tt else wake co ret
  | DPELE_TYPE_CTC =>
      if runs_call e then _ ← coa (AWrap FN_RUN_CTC (addr (Some x)) 0); mret tt else wake co ret
  end.

Definition _dpcwc_thread_main_step : T bool :=
  toms ← todo (gets r_step_toms);
  ele ← onw (dpevp_pop P fuel toms);
  set_step_toms (-1);;
  match ele with
  | None => mret false
  | Some x =>
      co ← onw (dpele_cop x);
      ret ← onw (dpele_ret x);
      e ← onw (get_ele x);
      deliver x e co ret;;
      mret true
  end.

(** What the TLS and QUIC modules set up and drop for the thread. *)
Context (dpssl_thrd_init dpqic_thrd_init : M Z) (dpqic_thrd_exit dpssl_thrd_exit : M unit).

(** One turn: the loop, then the module's step, which says how long the next
    turn may block, or that the thread is over. *)
Definition main_turn (hdr : dpapp_hdr) : T (unit + Z) :=
  _ ← _dpcwc_thread_main_step;
  match h_step hdr with
  | None => mret (inl tt)
  | Some mstep =>
      u ← dpcwc_usrdata;
      ret ← mstep u;
      if 0 <=? ret then set_step_toms ret;; mret (inl tt) else mret (inr ret)
  end.

(** [stack_size] and the table by type of threads are [dpcwc_arg_t]; the value
    is the step's that ended the thread, if it started. *)
Definition _dpcwc_thread_main (stack_size : Z) (hdrs : list dpapp_hdr) : T (option Z) :=
  ok ← todo (on_env (dpaco_thinit stack_size));
  if negb ok then mret None else
  ret ← onw dpssl_thrd_init;
  if negb (ret =? DPE_OK) && negb (ret =? DPE_UNSUPPORT) then todo (on_env dpaco_thfree);; mret None else
  ret ← onw dpqic_thrd_init;
  if negb (ret =? DPE_OK) && negb (ret =? DPE_UNSUPPORT) then todo (on_env dpaco_thfree);; mret None else
  type ← onw dpevp_type;
  match znth hdrs type with
  | None => todo ub
  | Some hdr =>
      (match h_init hdr with Some _ => _ ← coa (AWrap FN_RUN_APP type 0); mret tt | None => mret tt end);;
      ret ← ITree.iter (fun _ => main_turn hdr) tt;
      (match h_exit hdr with
       | Some exit =>
           u ← dpcwc_usrdata;
           exit u;;
           todo (modify (fun s => Rts (r_world s) (r_env s) (r_step_toms s) DPV64_NULL (r_mem s) (r_params s)))
       | None => mret tt
       end);;
      onw dpqic_thrd_exit;;
      onw dpssl_thrd_exit;;
      todo (on_env dpaco_thfree);;
      mret (Some ret)
  end.

(** ** Calls to other threads ([dpcwc_aux.c]) *)

Definition new_call (toid detach : Z) : T (option loc) := onw (dpele_new P (Some dpctc_init_type) [toid; detach]).

Definition dpcwc_ctc_once (toid func ro_req : Z) : T Z :=
  ctc ← new_call toid 0;
  match ctc with
  | None => get_errno
  | Some ctc =>
      ret ← dpcwc_aexec ctc dpctc_submit [func; ro_req];
      onw (dpele_del P (Some ctc));;
      mret ret
  end.

Definition dpcwc_ctc_detach (toid func req : Z) : T Z :=
  ctc ← new_call toid 1;
  match ctc with
  | None => get_errno
  | Some ctc =>
      ret ← onw (dpevp_add P fuel (Some ctc) (Some dpctc_submit) [func; req]);
      onw (dpele_del P (Some ctc));;
      mret ret
  end.

Definition dpcwc_ctc_reto (task : option loc) (toid func arg : Z) : T Z :=
  match task with
  | None => mret DPE_INVAL
  | Some task =>
      if func =? 0 then mret DPE_INVAL else
      data ← asc_words task;
      _ ← todo (lift_opt data);
      onw (upd_ele task (fun e => set_scratch e ((fun d => (d.1, splice 0 [func; arg] d.2)) <$> e_scratch e)));;
      onw (dpctc_reto (Some task) toid)
  end.

(** The calls that wait, and the last result. *)
Fixpoint each_submit (toids : list Z) (func ro_req last_err : Z) : T (list loc * Z) :=
  match toids with
  | [] => mret ([], last_err)
  | toid :: toids =>
      ctc ← new_call toid 0;
      match ctc with
      | None => e ← get_errno; mret ([], e)
      | Some ctc =>
          last_err ← onw (dpevp_add P fuel (Some ctc) (Some dpctc_submit) [func; ro_req]);
          if last_err =? DPE_WAIT then
            r ← each_submit toids func ro_req last_err; mret (ctc :: r.1, r.2)
          else onw (dpele_del P (Some ctc));; mret ([], last_err)
      end
  end.
Fixpoint each_await (ctcs : list loc) (last_err : Z) : T Z :=
  match ctcs with
  | [] => mret last_err
  | ctc :: ctcs =>
      last_err ← dpcwc_await ctc DPV64_NULL;
      onw (dpele_del P (Some ctc));;
      each_await ctcs last_err
  end.

Definition dpcwc_ctc_each (totype func ro_req : Z) : T Z :=
  g ← onw (gets w_set);
  if totype =? INT_MIN then todo ub else (* abs *)
  let totype := Z.abs totype in
  if gv_type_count g <=? totype then mret DPE_INVAL else
  tcount ← todo (lift_opt (znth (gv_each_count g) totype));
  toids ← todo (lift_opt (znth (gv_each_ids g) totype));
  if tcount =? 0 then mret DPE_INVAL else
  ok ← onw World.alloc_ok;
  if negb ok then mret DPE_NOMEM else
  r ← each_submit (ztake tcount toids) func ro_req DPE_OK;
  each_await r.1 r.2.

(** ** Connections

    The second component is what [*client] or [*server] was set to. *)

Definition connected (cet : option loc) : T (Z * option loc) :=
  match cet with
  | None => e ← get_errno; mret (e, None)
  | Some cet =>
      ret ← dpcwc_aexec cet dpskt_connect [addr (Some cet)]; (* the auxiliary data of the element *)
      if dpret_isok ret then mret (DPE_OK, Some cet)
      else onw (dpele_del P (Some cet));; mret (ret, None)
  end.
Definition listening (lsn : option loc) : T (Z * option loc) :=
  match lsn with None => e ← get_errno; mret (e, None) | Some lsn => mret (DPE_OK, Some lsn) end.
Definition accepted (server_type : dpele_type) (listener : loc) : T (Z * option loc) :=
  ios ← new_block (replicate 17 0);
  ret ← dpcwc_aexec listener dpskt_accept [addr (Some ios)];
  if dpret_iserr ret then free_block ios;; mret (ret, None) else
  svr ← onw (dpele_new P (Some server_type) [ret; addr (Some ios)]);
  match svr with
  | None => e ← get_errno; free_block ios;; mret (e, None)
  | Some svr => free_block ios;; mret (DPE_OK, Some svr)
  end.

Definition dpcwc_tcp_client (host port : Z) : T (Z * option loc) :=
  cet ← onw (dpele_new P (Some dptcp_client_type) [host; port]); connected cet.
Definition dpcwc_tcp_listen (host port backlog : Z) : T (Z * option loc) :=
  lsn ← onw (dpele_new P (Some dptcp_listen_type) [host; port; backlog]); listening lsn.
Definition dpcwc_tcp_accept (listener : loc) : T (Z * option loc) := accepted dptcp_server_type listener.

Definition dpcwc_uds_client (path : Z) : T (Z * option loc) :=
  cet ← onw (dpele_new P (Some dpuds_client_type) [path]); connected cet.
Definition dpcwc_uds_listen (path : Z) : T (Z * option loc) :=
  lsn ← onw (dpele_new P (Some dpuds_listen_type) [path]); listening lsn.
Definition dpcwc_uds_accept (listener : loc) : T (Z * option loc) := accepted dpuds_server_type listener.

(** TLS over a connection that was made; [tcp] is [NULL] when it was not. *)
Definition dpcwc_ssl_client (host port group sni : Z) : T (Z * option loc) :=
  r ← dpcwc_tcp_client host port;
  if dpret_iserr r.1 then mret (r.1, None) else
  ssl ← onw (dpele_new P (Some dpssl_client_type) [addr r.2; group; sni]);
  match ssl with
  | None => onw (dpele_del P r.2);; e ← get_errno; mret (e, None)
  | Some ssl => mret (DPE_OK, Some ssl)
  end.
Definition dpcwc_ssl_accept (listener : loc) (group : Z) : T (Z * option loc) :=
  r ← dpcwc_tcp_accept listener;
  if dpret_iserr r.1 then mret (r.1, None) else
  ssl ← onw (dpele_new P (Some dpssl_server_type) [addr r.2; group]);
  match ssl with
  | None => onw (dpele_del P r.2);; e ← get_errno; mret (e, None)
  | Some ssl => mret (DPE_OK, Some ssl)
  end.

(** ** Servers *)

(** A new coroutine gets the address of [dpcwc_server_start_args_t] on the stack
    of the loop that accepts. *)
Definition start_task (start peer args : Z) : T unit :=
  task_args ← new_block [peer; args];
  _ ← coa (AWrap start (addr (Some task_args)) 0);
  free_block task_args.

(** The settings are read through the pointer, on every turn. *)
Definition get_param (p : Z) : T dpcwc_server_param :=
  todo (fun s => (fun v => (v, s)) <$> (match p with Z.pos p => r_params s !! p | _ => None end)).

Definition tcp_turn (listener : loc) (param : Z) : T (unit + Z) :=
  sp ← get_param param;
  r ← (if negb (sp_ssl sp =? 0) then dpcwc_ssl_accept listener (sp_ssl sp) else dpcwc_tcp_accept listener);
  if dpret_iserr r.1 then mret (inr r.1) else
  sp ← get_param param;
  start_task (sp_start sp) (addr r.2) (sp_start_args sp);;
  mret (inl tt).

Definition _tcp_accept_loop_run (v : Z) : T Z :=
  l ← read_block v 0;
  listener ← deref l;
  param ← read_block v 1;
  _ ← ITree.iter (fun _ => tcp_turn listener param) tt;
  onw (dpele_del P (Some listener));;
  mret DPV64_NULL.

Definition uds_turn (listener : loc) (start start_args : Z) : T (unit + Z) :=
  r ← dpcwc_uds_accept listener;
  if dpret_iserr r.1 then mret (inr r.1) else
  start_task start (addr r.2) start_args;;
  mret (inl tt).

Definition _uds_accept_loop_run (v : Z) : T Z :=
  l ← read_block v 0;
  listener ← deref l;
  start ← read_block v 1;
  start_args ← read_block v 2;
  _ ← ITree.iter (fun _ => uds_turn listener start start_args) tt;
  onw (dpele_del P (Some listener));;
  mret DPV64_NULL.

(** [&conn] is a block of one word. *)
Definition qic_turn (listener : loc) (start start_args : Z) : T (unit + Z) :=
  conn ← new_block [0];
  err ← dpcwc_aexec listener dpqic_accept [addr (Some conn)];
  if dpret_iserr err then free_block conn;; mret (inr err) else
  peer ← read_block (addr (Some conn)) 0;
  start_task start peer start_args;;
  free_block conn;;
  mret (inl tt).

Definition _qic_accept_loop_run (v : Z) : T Z :=
  l ← read_block v 0;
  listener ← deref l;
  start ← read_block v 1;
  start_args ← read_block v 2;
  _ ← ITree.iter (fun _ => qic_turn listener start start_args) tt;
  onw (dpele_del P (Some listener));;
  mret DPV64_NULL.

Definition SOMAXCONN : Z := 4096.

(** [argv] is a local of the function that starts the coroutine. *)
Definition start_loop (fn : Z) (argv : list Z) : T unit :=
  argv ← new_block argv;
  _ ← coa (AWrap fn (addr (Some argv)) 0);
  free_block argv.

Definition _start_tcp (p : Z) : T Z :=
  sp ← get_param p;
  if negb dpssl_enable && negb (sp_ssl sp =? 0) then mret DPE_UNSUPPORT else
  r ← dpcwc_tcp_listen (sp_host sp) (sp_port sp) SOMAXCONN;
  match r.2 with
  | Some listener =>
      if dpret_iserr r.1 then mret r.1 else
      start_loop FN_TCP_LOOP [addr (Some listener); p];; mret DPE_OK
  | None => mret r.1
  end.

Definition _start_uds (p : Z) : T Z :=
  sp ← get_param p;
  r ← dpcwc_uds_listen (sp_host sp);
  match r.2 with
  | Some listener =>
      if dpret_iserr r.1 then mret r.1 else
      start_loop FN_UDS_LOOP [addr (Some listener); sp_start sp; sp_start_args sp];; mret DPE_OK
  | None => mret r.1
  end.

Definition _start_qic (p : Z) : T Z :=
  sp ← get_param p;
  if sp_ssl sp =? 0 then mret DPE_INVAL else
  ret ← onw (dpqic_add_engine (sp_ssl sp));
  if dpret_iserr ret then mret ret else
  listener ← onw (dpele_new P (Some dpqic_listen_type) [sp_ssl sp; sp_host sp; sp_port sp]);
  match listener with
  | None => get_errno
  | Some listener => start_loop FN_QIC_LOOP [addr (Some listener); sp_start sp; sp_start_args sp];; mret DPE_OK
  end.

(** One entry: how many more were started, or the end of the table. *)
Definition server_turn (st : Z * Z) : T (Z * Z + Z) :=
  let '(p, started) := st in
  sp ← get_param p;
  match sp_type sp with
  | None => mret (inr started)
  | Some type =>
      if (sp_start sp =? 0) || (sp_host sp =? 0) then mret (inl (p + 1, started)) else
      ret ← (if bool_decide (type = chr "tcp") then _start_tcp p
             else if bool_decide (type = chr "uds") then _start_uds p
             else if bool_decide (type = chr "qic") then _start_qic p
             else mret DPE_INVAL);
      mret (inl (p + 1, if dpret_isok ret then started + 1 else started))
  end.

Definition dpcwc_server_start (params : Z) : T Z :=
  if params =? 0 then mret DPE_INVAL else ITree.iter server_turn (params, 0).

Definition dpcwc_server_start_with_task (task : loc) (arg : Z) : T Z :=
  if arg =? 0 then mret DPE_INVAL else dpcwc_server_start arg.

(** ** Running a thread *)

(** The functions by address; [hdrs] is the module's table by type of threads. *)
Definition fns (hdrs : list dpapp_hdr) (f : Z) : option (Z -> T Z) :=
  if f =? FN_RUN_CTC then Some _dpcwc_run_ctc
  else if f =? FN_RUN_TMR then Some _dpcwc_run_tmr
  else if f =? FN_RUN_APP then Some (fun type => match znth hdrs type with Some h => _dpcwc_run_app h type | None => todo ub end)
  else if f =? FN_TCP_LOOP then Some _tcp_accept_loop_run
  else if f =? FN_UDS_LOOP then Some _uds_accept_loop_run
  else if f =? FN_QIC_LOOP then Some _qic_accept_loop_run
  else user_co f.

(** The running code, the thread's state, and what the coroutines that do not run
    do next, by the value they get. *)
Record machine := Mach { m_code : T Z; m_st : rts E; m_conts : gmap loc (Z -> T Z) }.

Section Run.
(** The functions by address. *)
Context (fs : Z -> option (Z -> T Z)).

(** After a call of [lib/dpaco] by the coroutine [cur], which goes on with
    [conts]. *)
Definition go_on (o : outcome) (k : option (Z -> T Z)) (s : rts E) (conts : gmap loc (Z -> T Z)) : option machine :=
  match o with
  | Dpaco.Ret v => k ← k; Some (Mach (k v) s conts)
  | Enter co f v => body ← fs f; Some (Mach (body v) s conts)
  | Back co v => k ← conts !! co; Some (Mach (k v) s (delete co conts))
  end.

(** [None]: undefined behaviour, or the end of the thread's function. *)
Definition step (m : machine) : option machine :=
  let s := m_st m in
  match observe (m_code m) with
  | RetF v =>
      r ← on_env (act (AReturn v)) s;
      go_on r.1 None r.2 (m_conts m)
  | TauF t => Some (Mach t s (m_conts m))
  | VisF e k =>
      match e in rtE _ X return (X -> T Z) -> option machine with
      | EvDo m' => fun k => r ← m' s; Some (Mach (k r.1) r.2 (m_conts m))
      | EvCo a => fun k =>
          cur ← t_cocurr (r_env s);
          r ← on_env (act a) s;
          match r.1 with
          | Dpaco.Ret v => Some (Mach (k v) r.2 (m_conts m))
          | o => go_on o None r.2 (<[cur := k]> (m_conts m))
          end
      end k
  end.

Fixpoint run (n : nat) (m : machine) : option machine :=
  match n with O => Some m | S n => step m ≫= run n end.

End Run.
End Cwc.
