(* ===== verification/CwcFacts.v ===== *)
(** * A coroutine gets the result it waits for ([lib/dpcwc/dpcwc.c])

    [leads m Q] says that the machine [m] gets to one that satisfies [Q]; its
    rules follow the code as those of [wp] do.  A coroutine in [dpcwc_await]
    leaves the processor to the one that resumed it, and runs again, with the
    element's result, when the loop delivers the element. *)

From ITree Require Import ITree.
From S2P Require Import Prelude Chars Dpret Ele Tmrset World WorldLogic Evp EfdFacts AscTmr Dpaco DpacoFacts Cwc.

#[local] Set Default Proof Using "Type*".

(** ** Switching, with or without [dpaco_wrap] *)

Section Switch.
Context (t : thenv) (cur co : loc) (c cc : dpaco) (v : Z).
Context (Hcur : t_cocurr t = Some cur) (Hcc : t_cos t !! cur = Some cc).
Context (Hco : t_cos t !! co = Some c) (Hne : cur <> co).

Lemma resume_yielded :
  c_status c = DPACO_SUSPEND -> c_ctx c = KYield ->
  wp (dpaco_resume (Some co) v) t (fun o t' => o = Back co v /\ t_cocurr t' = Some co).
Proof using Hcur Hcc Hco Hne.
  intros Hs Hk. unfold dpaco_resume, dpaco_resume_. apply wp_bind, wp_gets, wp_bind. eapply wp_get_co; [done|].
  rewrite Hs. unfold id. apply wp_bind. eapply wp_upd_co; [done|]. rewrite Hcur. apply wp_bind, wp_ret, wp_bind.
  eapply wp_upd_co; [cbn; by rewrite lookup_insert_ne|]. apply wp_bind, wp_modify. unfold cocontext_swap.
  apply wp_bind. eapply wp_upd_co; [cbn; apply lookup_insert_eq|]. apply wp_bind.
  eapply wp_get_co; [cbn; by rewrite !lookup_insert_ne, lookup_insert_eq by done|]. cbn [c_ctx set_status set_msg set_link].
  rewrite Hk. apply wp_bind. eapply wp_curr_msg; [done|cbn; by rewrite !lookup_insert_ne, lookup_insert_eq by done|].
  by apply wp_ret.
Qed.

(** The running coroutine is [cur]; [co] waits in its [dpaco_resume]. *)
Lemma yield_back w :
  c_status cc = DPACO_RUNNING -> c_link cc = Some co -> c_ctx c = KResume cur w ->
  wp (dpaco_yield v) t (fun o t' => o = Back co v /\ t_cocurr t' = Some co /\
    exists cc', t_cos t' !! cur = Some cc' /\ c_status cc' = DPACO_SUSPEND /\ c_ctx cc' = KYield).
Proof using Hcur Hcc Hco Hne.
  intros Hs Hl Hk. unfold dpaco_yield. apply wp_bind, wp_gets. unfold id. rewrite Hcur. apply wp_bind, wp_ret, wp_bind.
  eapply wp_get_co; [done|]. rewrite Hl, Hs. rewrite bool_decide_false by done. apply wp_bind.
  eapply wp_upd_co; [done|]. apply wp_bind. eapply wp_upd_co; [cbn; by rewrite lookup_insert_ne|].
  apply wp_bind, wp_modify. unfold cocontext_swap. apply wp_bind.
  eapply wp_upd_co; [cbn; rewrite lookup_insert_ne by done; apply lookup_insert_eq|]. apply wp_bind.
  eapply wp_get_co; [cbn; by rewrite lookup_insert_ne, lookup_insert_eq by done|]. cbn [c_ctx set_status set_msg].
  rewrite Hk. unfold resume_tail. apply wp_bind. eapply wp_get_co; [cbn; apply lookup_insert_eq|].
  cbn [c_status set_ctx set_status]. rewrite bool_decide_false by done. apply wp_bind, wp_ret, wp_bind.
  eapply wp_curr_msg; [done|cbn; by rewrite lookup_insert_ne, lookup_insert_eq by done|]. apply wp_bind.
  destruct w; [|apply wp_ret, wp_ret; split_and!; [done|done|]; eexists; cbn; by rewrite lookup_insert_eq].
  unfold dpaco_delater. apply wp_bind. eapply wp_get_co; [cbn; apply lookup_insert_eq|].
  cbn [c_status set_ctx set_status]. eapply wp_upd_co; [cbn; apply lookup_insert_eq|].
  apply wp_ret. split_and!; [done|done|]. eexists. cbn. by rewrite lookup_insert_eq.
Qed.
End Switch.

(** ** Running the machine *)

Lemma wp_on_world {E A} (m : ST (world E) A) s (Q : A -> rts E -> Prop) :
  wp m (r_world s) (fun a w => Q a (with_world w s)) -> wp (on_world m) s Q.
Proof. unfold wp, on_world. by destruct (m (r_world s)) as [[]|]. Qed.
Lemma wp_on_env {E A} (m : ST thenv A) s (Q : A -> rts E -> Prop) :
  wp m (r_env s) (fun a w => Q a (with_env w s)) -> wp (on_env m) s Q.
Proof. unfold wp, on_env. by destruct (m (r_env s)) as [[]|]. Qed.

Section Facts.
Context {E : Type} (fs : Z -> option (Z -> itree (rtE E) Z)).
Abbreviation T := (itree (rtE E)).
Abbreviation conts := (gmap loc (Z -> itree (rtE E) Z)).

Definition leads (m : machine) (Q : machine -> Prop) : Prop := exists n m', run fs n m = Some m' /\ Q m'.

Lemma leads_here m (Q : machine -> Prop) : Q m -> leads m Q.
Proof. intros HQ. by exists 0%nat, m. Qed.

Lemma leads_step m m1 (Q : machine -> Prop) : step fs m = Some m1 -> leads m1 Q -> leads m Q.
Proof. intros Hs (n & m' & Hr & HQ). exists (S n), m'. cbn. by rewrite Hs. Qed.

Lemma leads_mono m (Q R : machine -> Prop) : leads m Q -> (forall m', Q m' -> R m') -> leads m R.
Proof. intros (n & m' & Hr & HQ) HR. exists n, m'. auto. Qed.

Lemma run_add n k (m : machine) : run fs (n + k) m = run fs n m ≫= run fs k.
Proof. revert m. induction n as [|n IH]; intros m; cbn; [done|]. destruct (step fs m); cbn; [apply IH|done]. Qed.

Lemma leads_trans m (Q R : machine -> Prop) : leads m Q -> (forall m', Q m' -> leads m' R) -> leads m R.
Proof.
  intros (n & m' & Hr & HQ) HR. destruct (HR m' HQ) as (k & m2 & Hr2 & H2).
  exists (n + k)%nat, m2. by rewrite run_add, Hr.
Qed.

(** The code [k a] is what [t] goes on with. *)
Lemma leads_do {X} (m : ST (rts E) X) (k : X -> T Z) t s (cs : conts) (Q : machine -> Prop) :
  observe t = VisF (EvDo m) k -> wp m s (fun a s' => leads (Mach (k a) s' cs) Q) -> leads (Mach t s cs) Q.
Proof.
  unfold wp. intros Ht Hm. destruct (m s) as [[a s']|] eqn:Em; [|done]. eapply leads_step; [|exact Hm].
  unfold step. cbn [m_code m_st m_conts]. rewrite Ht. cbn. by rewrite Em.
Qed.

Lemma leads_co a (k : Z -> T Z) t s (cs : conts) (Q : machine -> Prop) :
  observe t = VisF (EvCo a) k ->
  wp (on_env (act a)) s (fun o s' =>
    match o with
    | Ret v => leads (Mach (k v) s' cs) Q
    | Back co v => exists cur kk, t_cocurr (r_env s) = Some cur /\ <[cur := k]> cs !! co = Some kk /\
        leads (Mach (kk v) s' (delete co (<[cur := k]> cs))) Q
    | Enter co f v => exists cur body, t_cocurr (r_env s) = Some cur /\ fs f = Some body /\
        leads (Mach (body v) s' (<[cur := k]> cs)) Q
    end) -> t_cocurr (r_env s) <> None -> leads (Mach t s cs) Q.
Proof.
  unfold wp. intros Ht Hm Hcur. destruct (on_env (act a) s) as [[o s']|] eqn:Em; [|done].
  destruct o as [v|co f v|co v].
  - eapply leads_step; [|exact Hm]. unfold step. cbn [m_code m_st m_conts]. rewrite Ht.
    destruct (t_cocurr (r_env s)); [|done]. cbn. by rewrite Em.
  - destruct Hm as (cur & body & Hc & Hf & Hl). eapply leads_step; [|exact Hl].
    unfold step. cbn [m_code m_st m_conts]. rewrite Ht, Hc. cbn. rewrite Em. cbn. by rewrite Hf.
  - destruct Hm as (cur & kk & Hc & Hf & Hl). eapply leads_step; [|exact Hl].
    unfold step. cbn [m_code m_st m_conts]. rewrite Ht, Hc. cbn. rewrite Em. cbn. by rewrite Hf.
Qed.
End Facts.

(** The next thing the code does, found by computing. *)
Ltac next := lazymatch goal with |- ?t = _ => let v := eval hnf in t in transitivity v; reflexivity end.
Ltac do_this := eapply leads_do; [next|].
Ltac do_world := do_this; apply wp_on_world.
Ltac do_env := do_this; apply wp_on_env.
Ltac do_co := eapply leads_co; [next|apply wp_on_env; cbn [act]|].

Section Await.
Context {E : Type} `{Sys E} (P : program E) (fuel : nat) (fs : Z -> option (Z -> itree (rtE E) Z)).
Abbreviation T := (itree (rtE E)).
Abbreviation conts := (gmap loc (Z -> itree (rtE E) Z)).

(** [co] is suspended and goes on with [k] when it gets a result. *)
Definition waits (co : loc) (k : Z -> T Z) (t : thenv) (cs : conts) : Prop :=
  (exists c, t_cos t !! co = Some c /\ c_status c = DPACO_SUSPEND /\ c_ctx c = KYield) /\
  (exists kk, cs !! co = Some kk /\ forall v, observe (kk v) = observe (k (i32_of_v v))).

(** Delivering the element wakes the coroutine that waits for it. *)
Definition no_callback (e : dpele) : Prop :=
  match ty_type (e_type e) with
  | DPELE_TYPE_EFD | DPELE_TYPE_USD => True
  | DPELE_TYPE_TMR => match e_scratch e with None => True | Some d => znth d.2 0 = Some 0 end
  | DPELE_TYPE_CTC => runs_call P e = false
  end.
(** Delivering the element starts the runtime's coroutine [fn], which calls its
    callback. *)
Definition calls_back (e : dpele) (fn : Z) : Prop :=
  match ty_type (e_type e) with
  | DPELE_TYPE_EFD | DPELE_TYPE_USD => False
  | DPELE_TYPE_TMR => fn = FN_RUN_TMR /\ exists d f, e_scratch e = Some d /\ znth d.2 0 = Some f /\ f <> 0
  | DPELE_TYPE_CTC => fn = FN_RUN_CTC /\ runs_call P e = true
  end.
(** The next thing done is to start [fn] on the element; the loop goes on with [km]
    after it. *)
Definition starts_callback (fn : Z) (ele : loc) (km : bool -> T Z) (m : machine) : Prop :=
  exists k, observe (m_code m) = VisF (EvCo (AWrap fn (addr (Some ele)) 0)) k /\ forall v, observe (k v) = observe (km true).
(** The thread in which [ele] is in progress, and [co], which [prev] resumed, runs. *)
Definition about_to_wait (s : rts E) (cs : conts) (ele co prev : loc) (e : dpele) (kp : Z -> T Z) : Prop :=
  w_eles (r_world s) !! ele = Some e /\ is_Some (e_asc e) /\ e_detach e = false /\
  t_cocurr (r_env s) = Some co /\ co <> prev /\ cs !! prev = Some kp /\
  (exists c, t_cos (r_env s) !! co = Some c /\ c_status c = DPACO_RUNNING /\ c_link c = Some prev) /\
  (exists cp w, t_cos (r_env s) !! prev = Some cp /\ c_ctx cp = KResume co w).

Lemma wait_marks ele co (w : world E) e (Q : bool -> world E -> Prop) :
  w_eles w !! ele = Some e -> is_Some (e_asc e) -> e_detach e = false ->
  Q true (with_eles <[ele := set_cop e co]> w) -> wp (dpele_wait ele co) w Q.
Proof.
  intros He Ha Hd HQ. unfold dpele_wait, dpele_is_doing. apply wp_bind, wp_bind. eapply wp_get_ele; [done|].
  apply wp_ret, wp_bind. eapply wp_get_ele; [done|]. rewrite bool_decide_true, Hd by done. cbn [andb negb].
  apply wp_bind. eapply wp_put_ele; [done|]. by apply wp_ret.
Qed.

Lemma await_suspends s cs ele co prev e kp y k :
  about_to_wait s cs ele co prev e kp ->
  leads fs (Mach (ITree.bind (dpcwc_await ele y) k) s cs) (fun m =>
    observe (m_code m) = observe (kp y) /\ t_cocurr (r_env (m_st m)) = Some prev /\
    w_eles (r_world (m_st m)) !! ele = Some (set_cop e (Z.pos co)) /\ waits co k (r_env (m_st m)) (m_conts m)).
Proof.
  intros (He & Ha & Hd & Hcur & Hne & Hkp & (c & Hc & Hs & Hl) & (cp & w & Hcp & Hk)).
  do_env. unfold dpaco_running. apply wp_bind, wp_gets, wp_ret.
  unfold id. rewrite Hcur.
  do_world. eapply wait_marks; [done..|].
  do_co; [|cbn; congruence]. cbn [with_world with_env r_env].
  eapply wp_mono; [eapply (yield_back _ co prev); done|]. cbv beta. intros o t' (-> & Hp & Hw).
  exists co, kp. split; [done|]. split; [by rewrite lookup_insert_ne|]. apply leads_here.
  cbn [m_code m_st m_conts with_env with_world r_env r_world]. split_and!; [done|done|apply lookup_insert_eq|].
  split; [done|]. eexists. rewrite lookup_delete_ne by done. rewrite lookup_insert_eq.
  split; [done|]. intros v. reflexivity.
Qed.
(** The result is passed as the low word of a value. *)
Lemma to_i32_of_u32 z : to_i32 (to_u32 z) = to_i32 z.
Proof. unfold to_i32, to_u32. rewrite Zplus_mod_idemp_l. done. Qed.

(** What is reached when [co] gets [r] from [cur], which goes on with [km]. *)
Definition woken (co cur : loc) (r : Z) (k : Z -> T Z) (km : bool -> T Z) (w : world E) (m : machine) : Prop :=
  observe (m_code m) = observe (k r) /\ t_cocurr (r_env (m_st m)) = Some co /\ r_world (m_st m) = w /\
  exists kc, m_conts m !! cur = Some kc /\ forall v, observe (kc v) = observe (km true).

(** The loop runs in [cur], and is not [co] itself. *)
Definition loop_in (cur co : loc) (t : thenv) : Prop :=
  t_cocurr t = Some cur /\ cur <> co /\ is_Some (t_cos t !! cur).

Lemma wake_resumes t s cs co cur k km ret w :
  observe t = observe (ITree.bind (ITree.bind (wake (Z.pos co) ret) (fun _ => mret true)) km) ->
  waits co k (r_env s) cs -> loop_in cur co (r_env s) -> is_i32 ret -> r_world s = w ->
  leads fs (Mach t s cs) (woken co cur ret k km w).
Proof.
  intros Ht [(c & Hc & Hs & Hk) (kk & Hkk & Heq)] (Hcur & Hne & [cc Hcc]) Hi Hworld.
  eapply leads_do; [rewrite Ht; next|]. apply wp_on_env. unfold dpaco_status. apply wp_bind.
  eapply wp_get_co; [done|]. apply wp_ret. rewrite Hs.
  do_co; [|cbn; congruence]. cbn [with_env r_env].
  eapply wp_mono; [eapply (resume_yielded _ cur co); done|]. cbv beta. intros o t' (-> & Hco).
  exists cur, kk. split; [done|]. split; [by rewrite lookup_insert_ne|]. apply leads_here.
  split; cbn [m_code m_st m_conts with_env r_env r_world].
  { rewrite Heq. unfold i32_of_v, v_of_i32. by rewrite to_i32_of_u32, to_i32_id. }
  split_and!; [done|done|]. eexists. rewrite lookup_delete_ne by done. rewrite lookup_insert_eq.
  split; [done|]. intros v. reflexivity.
Qed.

Lemma deliver_resumes x e t s cs co cur k km ret :
  observe t = observe (ITree.bind (ITree.bind (deliver P x e (Z.pos co) ret) (fun _ => mret true)) km) ->
  waits co k (r_env s) cs -> loop_in cur co (r_env s) -> is_i32 ret ->
  w_eles (r_world s) !! x = Some e -> no_callback e ->
  leads fs (Mach t s cs) (woken co cur ret k km (r_world s)).
Proof.
  intros Ht Hw Hl Hi He. unfold no_callback, deliver in *. destruct (ty_type (e_type e)); intros Hnc.
  1, 2: by eapply wake_resumes.
  { rewrite Hnc in Ht. by eapply wake_resumes. }
  eapply leads_do; [rewrite Ht; next|]. apply wp_on_world, wp_bind. eapply wp_get_ele; [done|]. apply wp_ret.
  destruct (e_scratch e) as [d|]; [|by eapply wake_resumes; [reflexivity|..]].
  do_this. unfold wp, lift_opt. cbn [snd]. rewrite Hnc. by eapply wake_resumes; [reflexivity|..].
Qed.

Lemma deliver_calls_back x e t s cs co fn km ret :
  observe t = observe (ITree.bind (ITree.bind (deliver P x e co ret) (fun _ => mret true)) km) ->
  w_eles (r_world s) !! x = Some e -> calls_back e fn ->
  leads fs (Mach t s cs) (fun m => starts_callback fn x km m /\ m_conts m = cs /\ r_env (m_st m) = r_env s).
Proof.
  intros Ht He. unfold calls_back, deliver in *. destruct (ty_type (e_type e)); [done|done| |]; intros Hcb.
  - destruct Hcb as [-> Hrun]. rewrite Hrun in Ht. apply leads_here. split_and!; [|done|done].
    eexists. split; [cbn [m_code]; rewrite Ht; next|]. intros v. reflexivity.
  - destruct Hcb as (-> & d & f & Hd & Hf & Hf0).
    eapply leads_do; [rewrite Ht; next|]. apply wp_on_world, wp_bind. eapply wp_get_ele; [done|]. apply wp_ret.
    rewrite Hd. do_this. unfold wp, lift_opt. cbn [snd]. rewrite Hf. apply leads_here. split_and!; [|done|done].
    destruct f as [|f|f]; [done| |]; (eexists; split; [next|intros v; reflexivity]).
Qed.

Lemma delivery_deliver s cs ele km w' e' (Q : machine -> Prop) :
  dpevp_pop P fuel (r_step_toms s) (r_world s) = Some (Some ele, w') -> w_eles w' !! ele = Some e' ->
  (forall t s', observe t = observe (ITree.bind (ITree.bind (deliver P ele e' (e_cop e') (e_ret e')) (fun _ => mret true)) km) ->
     r_world s' = w' -> r_env s' = r_env s -> leads fs (Mach t s' cs) Q) ->
  leads fs (Mach (ITree.bind (_dpcwc_thread_main_step P fuel) km) s cs) Q.
Proof.
  intros Hpop He HQ.
  do_this. apply wp_gets.
  do_world. unfold wp. rewrite Hpop.
  do_this. apply wp_modify.
  do_world. unfold dpele_cop. apply wp_bind. eapply wp_get_ele; [done|]. apply wp_ret.
  do_world. unfold dpele_ret. apply wp_bind. eapply wp_get_ele; [done|]. apply wp_ret.
  do_world. eapply wp_get_ele; [done|]. apply HQ; [reflexivity|done|done].
Qed.

Lemma delivery_resumes s cs co cur ele k km w' e' :
  waits co k (r_env s) cs -> loop_in cur co (r_env s) ->
  dpevp_pop P fuel (r_step_toms s) (r_world s) = Some (Some ele, w') ->
  w_eles w' !! ele = Some e' -> e_cop e' = Z.pos co -> no_callback e' -> is_i32 (e_ret e') ->
  leads fs (Mach (ITree.bind (_dpcwc_thread_main_step P fuel) km) s cs) (woken co cur (e_ret e') k km w').
Proof.
  intros Hw Hl Hpop He Hcop Hnc Hi.
  eapply delivery_deliver; [done..|]. intros t s' Ht Hs' Henv. rewrite Hcop in Ht.
  rewrite <- Hs' in *. eapply (deliver_resumes ele e'); by rewrite ?Henv.
Qed.

Lemma delivery_calls_back s cs ele fn km w' e' :
  dpevp_pop P fuel (r_step_toms s) (r_world s) = Some (Some ele, w') -> w_eles w' !! ele = Some e' -> calls_back e' fn ->
  leads fs (Mach (ITree.bind (_dpcwc_thread_main_step P fuel) km) s cs) (fun m =>
    starts_callback fn ele km m /\ m_conts m = cs /\ r_env (m_st m) = r_env s).
Proof.
  intros Hpop He Hcb. eapply delivery_deliver; [done..|]. intros t s' Ht Hs' Henv. rewrite <- Hs' in He. rewrite <- Henv.
  by eapply deliver_calls_back.
Qed.
End Await.

(** An element whose operation is over, or that no one waits for, has its result. *)
Lemma await_finished {E} `{Sys E} fs s (cs : gmap loc (Z -> itree (rtE E) Z)) ele e y (k : Z -> itree (rtE E) Z) :
  w_eles (r_world s) !! ele = Some e -> e_asc e = None \/ e_detach e = true ->
  leads fs (Mach (ITree.bind (dpcwc_await ele y) k) s cs) (fun m =>
    observe (m_code m) = observe (k (e_ret e)) /\ m_conts m = cs /\
    r_env (m_st m) = r_env s /\ r_world (m_st m) = r_world s).
Proof.
  intros He Hd. do_env. unfold dpaco_running. apply wp_bind, wp_gets, wp_ret. unfold id.
  do_world. unfold dpele_wait, dpele_is_doing. apply wp_bind, wp_bind. eapply wp_get_ele; [done|].
  apply wp_ret, wp_bind. eapply wp_get_ele; [done|].
  assert (Hno : bool_decide (is_Some (e_asc e)) && negb (e_detach e) = false).
  { destruct Hd as [-> | ->]; [done|]. by rewrite andb_false_r. }
  rewrite Hno. apply wp_ret. do_world. unfold dpele_ret. apply wp_bind. eapply wp_get_ele; [done|]. apply wp_ret.
  by apply leads_here.
Qed.

(** ** The round trip *)

(** C13. A coroutine that awaits a pending element is suspended, and the one that
    resumed it goes on with the message of the wait.  When the loop then delivers
    the element while the coroutine still waits, what happens depends on the
    element.  A descriptor, a user's element, a timer without a callback or a call
    that this thread does not run: control passes to the coroutine, at the place of
    its wait and with the element's result, and the loop goes on when the coroutine
    lets it.  A timer with a callback, or a call that this thread runs: the callback
    is started in a coroutine of its own and the waiting coroutine is not resumed. *)
Theorem awaited_result_arrives {E} `{Sys E} (P : program E) (fuel : nat) fs s cs ele co prev e kp y
    (k : Z -> itree (rtE E) Z) :
  about_to_wait s cs ele co prev e kp ->
  leads fs (Mach (ITree.bind (dpcwc_await ele y) k) s cs) (fun m =>
    observe (m_code m) = observe (kp y) /\ t_cocurr (r_env (m_st m)) = Some prev /\
    w_eles (r_world (m_st m)) !! ele = Some (set_cop e (Z.pos co)) /\ waits co k (r_env (m_st m)) (m_conts m)) /\
  forall s' cs' cur km w' e',
    waits co k (r_env s') cs' -> loop_in cur co (r_env s') ->
    dpevp_pop P fuel (r_step_toms s') (r_world s') = Some (Some ele, w') ->
    w_eles w' !! ele = Some e' -> e_cop e' = Z.pos co -> is_i32 (e_ret e') ->
    (no_callback P e' ->
       leads fs (Mach (ITree.bind (_dpcwc_thread_main_step P fuel) km) s' cs') (woken co cur (e_ret e') k km w')) /\
    (forall fn, calls_back P e' fn ->
       leads fs (Mach (ITree.bind (_dpcwc_thread_main_step P fuel) km) s' cs') (fun m =>
         starts_callback fn ele km m /\ waits co k (r_env (m_st m)) (m_conts m))).
Proof.
  intros Ha. split; [by eapply await_suspends|]. intros s' cs' cur km w' e' Hw Hl Hpop He Hcop Hi. split.
  - intros Hnc. by apply (delivery_resumes P fuel fs) with (ele := ele).
  - intros fn Hcb. eapply leads_mono; [by eapply (delivery_calls_back P fuel fs)|]. by intros m (Hm & -> & ->).
Qed.

(** ** A thread for examples

    Coroutine 1 is the main one and resumed 2; element 5 is the user's, and in
    progress. *)

Definition ex_usd : dpele := set_asc (set_refc (zero_ele (EleType 9 DPELE_TYPE_USD 0 DPAIO_TYPE_NAN 0)) 1) (Some 8).
Definition ex_eles (l : list (loc * dpele)) (ready : list loc) : world Z :=
  World (list_to_map l) 9 [] [] (<[1 := q_set QReady ready (ex_node 1)]> (<[0 := ex_node 0]> ∅))
    (EvpSet 2 2 [[0]; [1]] [1; 1]) (Some 1) 0.
Definition ex_co (k : coctx) (st : dpaco_status_e) (l : option loc) : dpaco := Co k 10 0 l st false 1024.
Definition ex_thread (c1 c2 : dpaco) (cur : loc) : thenv :=
  Thenv (<[1%positive := c1]> (<[2%positive := c2]> ∅)) 3 [] (Some 1%positive) (Some cur) None 0 1024.
Definition ex_rts (w : world Z) (t : thenv) : rts Z := Rts w t (-1) 0 ∅ ∅.

Definition ex_waiting : rts Z :=
  ex_rts (ex_eles [(5%positive, ex_usd)] []) (ex_thread (ex_co (KResume 2 false) DPACO_SUSPEND None)
    (ex_co KStart DPACO_RUNNING (Some 1%positive)) 2).
Definition ex_done : rts Z :=
  ex_rts (ex_eles [(5%positive, set_cop (set_ret ex_usd 42) 2)] [5%positive])
    (ex_thread (ex_co KStart DPACO_RUNNING None) (ex_co KYield DPACO_SUSPEND (Some 1%positive)) 1).

Definition ret_code (v : Z) : itree (rtE Z) Z := mret v.

Lemma awaited_result_arrives_witness :
  leads (fun _ => None) (Mach (ITree.bind (dpcwc_await 5 3) ret_code) ex_waiting {[1%positive := ret_code]}) (fun m =>
    observe (m_code m) = RetF 3) /\
  leads (fun _ => None) (Mach (ITree.bind (_dpcwc_thread_main_step ex_program 9) (fun b => ret_code (if b then 1 else 0)))
    ex_done {[2%positive := fun v => ret_code (i32_of_v v)]}) (fun m => observe (m_code m) = RetF 42).
Proof.
  destruct (awaited_result_arrives ex_program 9 (fun _ => None) ex_waiting {[1%positive := ret_code]} 5 2 1 ex_usd ret_code 3
    ret_code) as [H1 H2].
  { unfold about_to_wait. split_and!; [done|by eexists|done|done|done|apply lookup_singleton_eq|by eexists|by eexists _, false]. }
  split; [eapply leads_trans; [exact H1|]; intros m (Hm & _); by apply leads_here|].
  destruct (dpevp_pop ex_program 9 (-1) (r_world ex_done)) as [[r w']|] eqn:Epop; [|by vm_compute in Epop].
  assert (Hr : r = Some 5%positive /\ exists e', w_eles w' !! 5%positive = Some e' /\ e_cop e' = 2 /\ ty_type (e_type e') = DPELE_TYPE_USD /\ e_ret e' = 42).
  { revert Epop. vm_compute. intros Epop. injection Epop as <- <-. split; [done|]. by eexists. }
  destruct Hr as (-> & e' & He & Hc & Ht & Hret).
  eapply leads_trans; [refine (proj1 (H2 ex_done _ 1%positive _ w' e' _ _ Epop He Hc _) _)|].
  - split; [by eexists|]. eexists. split; [apply lookup_singleton_eq|]. done.
  - split_and!; [done|done|by eexists].
  - by rewrite Hret.
  - unfold no_callback. by rewrite Ht.
  - intros m (Hm & _). apply leads_here. by rewrite Hm, Hret.
Defined.

(** ** Examples of what fails *)

(** Runs until the main coroutine's code is over: its result and the state. *)
Fixpoint main_end (fs : Z -> option (Z -> itree (rtE Z) Z)) (n : nat) (m : machine) : option (Z * rts Z) :=
  match observe (m_code m), t_cocurr (r_env (m_st m)), n with
  | RetF v, Some 1%positive, _ => Some (v, m_st m)
  | _, _, S n => step fs m ≫= main_end fs n
  | _, _, O => None
  end.

(** Coroutine 10 awaits the elements 5 and 6, and keeps the second result. *)
Definition ex_two_waits (_ : Z) : itree (rtE Z) Z :=
  _ ← dpcwc_await 5 0;
  r ← dpcwc_await 6 0;
  todo (modify (fun s => Rts (r_world s) (r_env s) (r_step_toms s) r (r_mem s) (r_params s)));;
  mret 0.
Definition ex_fns (f : Z) : option (Z -> itree (rtE Z) Z) := if f =? 10 then Some ex_two_waits else None.
Definition ex_fresh : rts Z :=
  ex_rts (ex_eles [(5%positive, ex_usd); (6%positive, ex_usd)] [])
    (Thenv {[1%positive := ex_co KStart DPACO_RUNNING None]} 2 [] (Some 1%positive) (Some 1%positive) None 0 1024).

(** The second result, and whether element 6 is still in progress. *)
Definition ex_see (r : Z * rts Z) : Z * bool :=
  (r_usrdata r.2, match w_eles (r_world r.2) !! 6%positive with Some e => bool_decide (is_Some (e_asc e)) | None => false end).

(** A ceased element wakes its coroutine twice: by [dpcwc_cease], and when the loop
    delivers it. *)
Example cease_wakes_twice :
  ex_see <$> main_end ex_fns 40 (Mach
    (_ ← coa (AWrap 10 0 0); _ ← dpcwc_cease 5 (-7); _ ← _dpcwc_thread_main_step ex_program 9; mret 0)
    ex_fresh ∅) = Some (-7, true).
Proof. vm_compute. reflexivity. Qed.

(** [dpcwc_cease] of an element that is not in progress resumes the coroutine that
    waited for it last, whatever that waits for now. *)
Example cease_idle_resumes :
  ex_see <$> main_end ex_fns 40 (Mach
    (_ ← coa (AWrap 10 0 0); _ ← onw (dpevp_end 5 1); _ ← _dpcwc_thread_main_step ex_program 9;
     _ ← dpcwc_cease 5 (-7); mret 0)
    ex_fresh ∅) = Some (-7, true).
Proof. vm_compute. reflexivity. Qed.

(** Listeners whose socket cannot be opened; [errno] is [EADDRINUSE]. *)
Definition ex_listen_type : dpele_type := EleType 20 DPELE_TYPE_EFD 0 DPAIO_TYPE_SKT DPEVT_IN.
Definition ex_no_socket : program Z :=
  Program (fun _ => None) (fun n => if n =? 20 then Some (fun _ _ => mret (-1)) else None) (fun _ => None) (fun _ => None).
Definition ex_params : gmap loc dpcwc_server_param :=
  {[1%positive := ServerParam (Some (chr "tcp")) 1 80 0 10 0; 2%positive := ServerParam None 0 0 0 0 0]}.
Definition ex_server_rts : rts Z := Rts (r_world ex_fresh) (r_env ex_fresh) (-1) 0 ∅ ex_params.

(** A server that failed to start counts as started. *)
Example failed_listener_started :
  fst <$> main_end ex_fns 40 (Mach
    (dpcwc_server_start ex_no_socket (fun _ => 98) ex_listen_type ex_listen_type ex_listen_type false (fun _ => mret 0) 1)
    ex_server_rts ∅) = Some 1.
Proof. vm_compute. reflexivity. Qed.

(** A timer that was ceased runs its callback all the same: the callback, 30, keeps
    its argument. *)
Definition ex_timers : program Z :=
  Program (fun n => if n =? 3 then Some (dptmr_timeout (E := Z)) else None) (fun _ => None) (fun _ => None) (fun _ => None).
Definition ex_calls (f : Z) : option (loc -> Z -> itree (rtE Z) Z) :=
  if f =? 30 then Some (fun _ a =>
    todo (modify (fun s => Rts (r_world s) (r_env s) (r_step_toms s) a (r_mem s) (r_params s)));; mret 0) else None.
Definition ex_timer_fns (f : Z) : option (Z -> itree (rtE Z) Z) :=
  if f =? FN_RUN_TMR then Some (_dpcwc_run_tmr ex_timers ex_calls) else None.
Example ceased_timer_runs :
  (fun r => r_usrdata r.2) <$> main_end ex_timer_fns 60 (Mach
    (r ← dpcwc_timer ex_timers (fun _ => 0) 3 9 0x4059000000000000 30 true 77;
     (match r.2 with Some t => dpcwc_cease t (-7) | None => mret 0 end);;
     _dpcwc_thread_main_step ex_timers 9;; mret 0)
    ex_fresh ∅) = Some 77.
Proof. vm_compute. reflexivity. Qed.
