(* ===== verification/CwcAsc.v ===== *)
(** * Operations that wait ([lib/dpcwc/dpcwc_asc.h])

    The inline wrappers of [dpcwc_aexec]: the macros that pass their arguments on,
    by the number of arguments, and the functions that fill in defaults, over the
    state of [AscLoop] ([env]), where an address leads to a buffer or to bytes. *)

From ITree Require Import ITree.
From S2P Require Import Prelude Dpret Dpbuf Ele Tmrset World WorldLogic Evp Aio AscIo AscLoop Dpaco DpacoFacts Cwc CwcFacts.

#[local] Set Default Proof Using "Type*".

Definition DPBUF_X_SIZE : Z := 65536.

Section CwcAsc.
Context {Os : Type} `{Sys Os} (P : program (env Os)) (fuel : nat).
(** The numbers of the operations. *)
Context (dpskt_accept dpskt_connect dpaio_read_some dpaio_write_some dpaio_read_must dpaio_write_must dpaio_read_until : Z).

Abbreviation T := (itree (rtE (env Os))).
Abbreviation M := (ST (world (env Os))).

(** ** The macros *)

Section Macros.
Context (ele : loc) (op p0 p1 p2 p3 p4 p5 : Z).
Definition _DPCWC_ASC0 : T Z := dpcwc_aexec P fuel ele op [].
Definition _DPCWC_ASC1 : T Z := dpcwc_aexec P fuel ele op [p0].
Definition _DPCWC_ASC2 : T Z := dpcwc_aexec P fuel ele op [p0; p1].
Definition _DPCWC_ASC3 : T Z := dpcwc_aexec P fuel ele op [p0; p1; p2].
Definition _DPCWC_ASC4 : T Z := dpcwc_aexec P fuel ele op [p0; p1; p2; p3].
Definition _DPCWC_ASC5 : T Z := dpcwc_aexec P fuel ele op [p0; p1; p2; p3; p4].
Definition _DPCWC_ASC6 : T Z := dpcwc_aexec P fuel ele op [p0; p1; p2; p3; p4; p5].
End Macros.

(** ** What the pointers lead to *)

Definition on_ast {A} (m : ST (ast Os) A) : M A :=
  fun w => (fun r => (r.1, with_ext (Env (n_scr (w_ext w)) r.2) w)) <$> m (n_ast (w_ext w)).
Definition buf_size (f : dpbuf -> Z) (buf : Z) : ST (ast Os) Z :=
  u ← at_addr buf;
  match u with PBuf p => b ← on_mem (get_buf p); mret (f b) | _ => ub end.
(** [strlen]: the bytes up to the first zero; there is one. *)
Definition strlen (s : Z) : ST (ast Os) Z :=
  u ← at_addr s;
  match u with
  | PBytes p =>
      l ← on_mem (fun m => (fun l => (l, m)) <$> st_blks m !! p_blk p);
      if p_off p <? 0 then ub else lift_opt (index_of (fun c => c =? 0) (zdrop (p_off p) l))
  | _ => ub
  end.

(** ** The functions *)

(** The address of the peer goes to a local when the caller wants none. *)
Definition dpcwc_skt_accept (ele : loc) (ad : Z) : T Z :=
  if ad =? 0 then
    stack_addr ← new_block (replicate 17 0);
    r ← dpcwc_aexec P fuel ele dpskt_accept [addr (Some stack_addr)];
    free_block stack_addr;;
    mret r
  else dpcwc_aexec P fuel ele dpskt_accept [ad].

(** [dpele_aux_data] is never [NULL]. *)
Definition dpcwc_skt_connect (ele : loc) (ad : Z) : T Z :=
  let ad := if ad =? 0 then addr (Some ele) else ad in
  if ad =? 0 then mret DPE_INVAL else dpcwc_aexec P fuel ele dpskt_connect [ad].

Definition dpcwc_aio_read_some (ele : loc) (buf max_len : Z) : T Z :=
  if buf =? 0 then mret DPE_INVAL else
  dpcwc_aexec P fuel ele dpaio_read_some [buf; if max_len <=? 0 then DPBUF_X_SIZE else max_len].

Definition dpcwc_aio_write_some (ele : loc) (buf min_len : Z) : T Z :=
  if buf =? 0 then mret DPE_INVAL else
  dpcwc_aexec P fuel ele dpaio_write_some [buf; if min_len <=? 0 then 1 else min_len].

Definition dpcwc_aio_read_must (ele : loc) (buf len : Z) : T Z :=
  if buf =? 0 then mret DPE_INVAL else
  len ← (if len <=? 0 then onw (on_ast (buf_size dpbuf_cwsize buf)) else mret len);
  if len <=? 0 then mret DPE_INVAL else dpcwc_aexec P fuel ele dpaio_read_must [buf; len].

Definition dpcwc_aio_write_must (ele : loc) (buf len : Z) : T Z :=
  if buf =? 0 then mret DPE_INVAL else
  len ← (if len <=? 0 then onw (on_ast (buf_size dpbuf_crsize buf)) else mret len);
  if len <=? 0 then mret len else dpcwc_aexec P fuel ele dpaio_write_must [buf; len].

Definition dpcwc_aio_read_until (ele : loc) (until until_len buf max_len : Z) : T Z :=
  if (until =? 0) || (buf =? 0) then mret DPE_INVAL else
  until_len ← (if until_len <=? 0 then n ← onw (on_ast (strlen until)); mret (to_i32 n) else mret until_len);
  if until_len <=? 0 then mret DPE_INVAL else
  dpcwc_aexec P fuel ele dpaio_read_until [until; until_len; buf; if max_len <=? 0 then DPBUF_X_SIZE else max_len].

(** ** Defaults *)

(** Without a length, the operation is to fill the room of the buffer, and a full
    buffer is refused before the operation starts. *)
Lemma read_must_fills_room fs ele buf len p b (k : Z -> T Z) s cs :
  buf <> 0 -> len <= 0 ->
  x_addr (n_ast (w_ext (r_world s))) !! buf = Some (PBuf p) ->
  st_bufs (x_mem (n_ast (w_ext (r_world s)))) !! p = Some b ->
  leads fs (Mach (ITree.bind (dpcwc_aio_read_must ele buf len) k) s cs) (fun m =>
    r_env (m_st m) = r_env s /\ x_mem (n_ast (w_ext (r_world (m_st m)))) = x_mem (n_ast (w_ext (r_world s))) /\
    observe (m_code m) =
      if 0 <? dpbuf_cwsize b then observe (ITree.bind (dpcwc_aexec P fuel ele dpaio_read_must [buf; dpbuf_cwsize b]) k)
      else observe (k DPE_INVAL)).
Proof.
  intros Hbuf Hlen Ha Hb. unfold dpcwc_aio_read_must. rewrite (proj2 (Z.eqb_neq buf 0)), (proj2 (Z.leb_le len 0)) by done.
  do_world. unfold wp, on_ast, buf_size, at_addr, on_mem, get_buf, mbind, ST_bind. rewrite Ha. cbn. rewrite Hb. cbn.
  apply leads_here. split_and!; [done|done|]. rewrite (Z.ltb_antisym (dpbuf_cwsize b) 0).
  transitivity (observe (ITree.bind (if dpbuf_cwsize b <=? 0 then mret DPE_INVAL
    else dpcwc_aexec P fuel ele dpaio_read_must [buf; dpbuf_cwsize b]) k)); [reflexivity|].
  by destruct (dpbuf_cwsize b <=? 0).
Qed.
End CwcAsc.
