(* ===== verification/Cwcmod.v ===== *)
(** * Loading a module and starting ([lib/dpcwc/dpcwc.c])

    [dpcwc_start] reads the options in front of the module's name, finds its
    file, loads it, asks its entry function for the table by type of threads, and
    runs [dpapp_start].  The dynamic loader is three oracles, and a trace of what
    was asked of it; [thread_main] is [_dpcwc_thread_main] of [Cwc]. *)

From S2P Require Import Prelude Chars Dpret Which Dplog Ele World WorldLogic EfdFacts Dpapp DpappFacts.

#[local] Set Default Proof Using "Type*".

(** ** Characters *)

Definition strstr_at (pat s : chars) : bool := bool_decide (take (length pat) s = pat).
(** The offset of the first occurrence. *)
Fixpoint strstr (pat s : chars) : option Z :=
  if strstr_at pat s then Some 0
  else match s with [] => None | _ :: s => (fun i => 1 + i) <$> strstr pat s end.

(** [basename] of the C library. *)
Fixpoint last_name (rev_path : chars) : chars :=
  match rev_path with c :: s => if bool_decide (c = slash) then [] else last_name s ++ [c] | [] => [] end.
Definition basename (path : chars) : chars :=
  match strip_slashes (rev path) with
  | [] => if bool_decide (path = []) then chr "." else chr "/"
  | name => last_name name
  end.

(** ** State *)

Inductive dl_event (D : Type) :=
  | Opened (path : chars) (handle : Z)
  | Entered (func : Z) (argv : list chars) (hdrs : list D)
  | Closed (handle : Z).
Arguments Opened {D}. Arguments Entered {D}. Arguments Closed {D}.

(** The logger, the process, [_gArg], and the trace of the loader. *)
Record boot (L E D : Type) := Boot {
  b_log : logger L;
  b_app : appst E;
  b_stack_size : Z;
  b_hdrs : list D;
  b_dl : list (dl_event D);
}.
Arguments Boot {L E D}. Arguments b_log {L E D}. Arguments b_app {L E D}.
Arguments b_stack_size {L E D}. Arguments b_hdrs {L E D}. Arguments b_dl {L E D}.

Section Start.
Context {L : Type} `{LogOs L} {E : Type} `{Sys E} `{Proc E} {F : Type} `{Fs F} {D : Type}.
Context (P : program E) (wake_fd : evdata -> Z) (fs : F) (realpath : chars -> option chars).
(** [dlopen] of a path, [dlsym] in a handle, and what the entry function leaves in
    the table it is given, with its result. *)
Context (dlopen : chars -> option Z) (dlsym : Z -> chars -> option Z) (load : Z -> list chars -> Z * list D).
(** Threads: the stack size and the table by type. *)
Context (thread_main : Z -> list D -> ST (world E) unit).

Abbreviation B := (ST (boot L E D)).

Definition on_log {A} (m : ST (logger L) A) : B A :=
  fun b => (fun r => (r.1, Boot r.2 (b_app b) (b_stack_size b) (b_hdrs b) (b_dl b))) <$> m (b_log b).
Definition on_app {A} (m : ST (appst E) A) : B A :=
  fun b => (fun r => (r.1, Boot (b_log b) r.2 (b_stack_size b) (b_hdrs b) (b_dl b))) <$> m (b_app b).
Definition set_stack_size (n : Z) : B unit :=
  modify (fun b => Boot (b_log b) (b_app b) n (b_hdrs b) (b_dl b)).
Definition set_hdrs (h : list D) : B unit :=
  modify (fun b => Boot (b_log b) (b_app b) (b_stack_size b) h (b_dl b)).
Definition dl_say (ev : dl_event D) : B unit :=
  modify (fun b => Boot (b_log b) (b_app b) (b_stack_size b) (b_hdrs b) (b_dl b ++ [ev])).

Definition dpcwc_set_default_stack_size (size : Z) : B unit := set_stack_size (if size <? 1024 then 1024 else size).

(** ** The options in front of the module

    [None] when an option is wrong; multiplying past an [int] is undefined. *)
Fixpoint module_args (argv : list chars) : B (option (list chars)) :=
  match argv with
  | arg :: rest =>
      if opt_is arg "-s" "--stack_size" then
        match rest with
        | [] => mret None
        | v :: rest =>
            if dash v then mret None else
            stack_size ← lift_opt (atoi v);
            if stack_size <=? 0 then mret None else
            if INT_MAX <? stack_size * 1024 then ub else
            set_stack_size (stack_size * 1024);; module_args rest
        end
      else mret (Some argv)
  | [] => mret (Some [])
  end.

(** ** The file and its entry function *)

(** The name ends in [.so]. *)
Definition is_module (libpath : chars) : bool :=
  negb (zlen libpath <? 3) && bool_decide (zdrop (zlen libpath - 3) libpath = chr ".so").

(** The path of the first candidate that is a file and has one. *)
Fixpoint resolve_module (libpaths : list chars) : option chars :=
  match libpaths with
  | [] => None
  | p :: libpaths => if is_file fs p then match realpath p with Some r => Some r | None => resolve_module libpaths end
                     else resolve_module libpaths
  end.
Definition module_paths (root_dir libpath : chars) : list chars :=
  [libpath; ztake (PATH_MAX - 1) (root_dir ++ chr "/app/" ++ libpath)].

(** The entry function of a file; [None] when there is no name or it is too long. *)
Definition module_sym (libpathr : chars) : option chars :=
  let bname := basename libpathr in
  ename ← strstr (chr ".so") bname;
  let skip := if bool_decide (ztake 3 bname = chr "lib") then 3 else 0 in
  let sym := chr "dpcwc__" ++ slice skip (ename - skip) bname in
  if 256 <=? zlen sym then None else Some sym.

(** ** Starting *)

Definition with_types (a : dpapp_arg) (count : Z) : dpapp_arg :=
  Arg (ar_argv a) (ar_machine_id a) count (ar_each_count a) (ar_cpuoff a) (ar_log_level a) (ar_log_tsacc a)
    (ar_root_dir a) (ar_log_file a) (ar_bin_file a).

(** [handle] is open. *)
Definition enter_module (args : dpapp_arg) (handle : Z) (sym : chars) (mod_argv : list chars) : B Z :=
  match dlsym handle sym with
  | None => dl_say (Closed handle);; mret DPE_INVAL
  | Some load_func =>
      let '(count, hdrs) := load load_func mod_argv in
      dl_say (Entered load_func mod_argv hdrs);;
      if (count <=? 0) || (DPAPP_TYPE_MAX <? count) then dl_say (Closed handle);; mret DPE_INVAL else
      set_hdrs hdrs;;
      b ← gets id;
      ret ← on_app (dpapp_start P wake_fd (with_types args count) (thread_main (b_stack_size b) hdrs));
      dl_say (Closed handle);;
      mret ret
  end.

Definition load_module (args : dpapp_arg) (root_dir : chars) (mod_argv : list chars) : B Z :=
  match mod_argv with
  | [] => mret DPE_INVAL
  | libpath :: _ =>
      if negb (is_module libpath) then mret DPE_INVAL else
      match resolve_module (module_paths root_dir libpath) with
      | None => mret DPE_INVAL
      | Some libpathr =>
          match module_sym libpathr with
          | None => mret DPE_INVAL
          | Some sym =>
              match dlopen libpathr with
              | None => mret DPE_INVAL
              | Some handle => dl_say (Opened libpathr handle);; enter_module args handle sym mod_argv
              end
          end
      end
  end.

Definition dpcwc_start (args : dpapp_arg) : B Z :=
  match ar_argv args, ar_root_dir args with
  | [], _ | _, None => mret DPE_INVAL
  | argv, Some root_dir =>
      _ ← on_log (dplog_init (ar_log_file args) (ar_log_level args) (ar_log_tsacc args));
      mod_argv ← module_args argv;
      match mod_argv with
      | None => mret DPE_INVAL
      | Some mod_argv => load_module args root_dir mod_argv
      end
  end.
End Start.

(** ** One module is loaded, and unloaded *)

Section Facts.
Context {L : Type} `{LogOs L} {E : Type} `{Sys E} `{Proc E} {F : Type} `{Fs F} {D : Type}.
Context (P : program E) (wake_fd : evdata -> Z) (fs : F) (realpath : chars -> option chars).
Context (dlopen : chars -> option Z) (dlsym : Z -> chars -> option Z) (load : Z -> list chars -> Z * list D).
Context (thread_main : Z -> list D -> ST (world E) unit).

Abbreviation boots := (boot L E D).

Lemma wp_on_log {A} (m : ST (logger L) A) (b : boots) (Q : A -> boots -> Prop) :
  wp m (b_log b) (fun a l => Q a (Boot l (b_app b) (b_stack_size b) (b_hdrs b) (b_dl b))) -> wp (on_log m) b Q.
Proof using Type. unfold wp, on_log. by destruct (m (b_log b)) as [[]|]. Qed.
Lemma wp_on_app {A} (m : ST (appst E) A) (b : boots) (Q : A -> boots -> Prop) :
  wp m (b_app b) (fun a s => Q a (Boot (b_log b) s (b_stack_size b) (b_hdrs b) (b_dl b))) -> wp (on_app m) b Q.
Proof using Type. unfold wp, on_app. by destruct (m (b_app b)) as [[]|]. Qed.

Lemma dplog_init_defined file l ta (s : logger L) : wp (dplog_init file l ta) s (fun _ _ => True).
Proof using Type.
  unfold dplog_init, dplog_setlevel, dplog_settsacc. apply wp_bind, wp_modify, wp_bind, wp_modify, wp_bind.
  unfold wp at 1, ext. cbn [l_ext]. destruct (lg_open _ _ _) as [fd x]. destruct (0 <=? fd); [|by apply wp_ret].
  apply wp_bind, wp_gets, wp_bind. unfold id. cbn [l_fd]. destruct (0 <=? l_fd s).
  - unfold wp at 1. apply wp_bind, wp_modify. by apply wp_ret.
  - apply wp_ret, wp_bind, wp_modify. by apply wp_ret.
Qed.

(** What the options leave alone. *)
Definition same_run (b b' : boots) : Prop := b_app b' = b_app b /\ b_dl b' = b_dl b.

Lemma module_args_ok argv (b : boots) :
  module_args argv b <> None ->
  wp (module_args argv) b (fun r b' => same_run b b' /\ forall l, r = Some l -> exists pre, argv = pre ++ l).
Proof using Type.
  intros Hdef. assert (Hrec : forall n argv (b : boots), (length argv <= n)%nat -> module_args argv b <> None ->
    wp (module_args argv) b (fun r b' => same_run b b' /\ forall l, r = Some l -> exists pre, argv = pre ++ l)).
  2: by apply (Hrec (length argv)).
  clear argv b Hdef. induction n as [|n IH]; intros [|arg rest] b Hlen Hdef; cbn in Hlen; try lia.
  1, 2: apply wp_ret; (split; [done|]); intros l [= <-]; by exists [].
  cbn [module_args] in *. destruct (opt_is arg "-s" "--stack_size").
  2: { apply wp_ret. split; [done|]. intros l [= <-]. by exists []. }
  destruct rest as [|v rest]; [by apply wp_ret|]. destruct (dash v); [by apply wp_ret|].
  destruct (atoi v) as [n0|]; [|done]. cbv [mbind ST_bind lift_opt] in Hdef. cbn in Hdef. apply wp_bind, (wp_ret n0).
  destruct (n0 <=? 0); [by apply wp_ret|]. destruct (INT_MAX <? n0 * 1024); [by destruct Hdef|].
  apply wp_bind, wp_modify. cbn in Hlen. eapply wp_mono; [apply IH; [lia|exact Hdef]|]. cbv beta.
  intros r b' [Hs Hl]. split; [exact Hs|]. intros l ->. destruct (Hl l eq_refl) as [pre ->]. by exists (arg :: v :: pre).
Qed.
(** What became of the module: which file and symbol, what the loader was asked,
    and what was run. *)
Definition module_run (args : dpapp_arg) (b : boots) (r : Z) (b' : boots) : Prop :=
  exists root pre libpath rest p sym h mid,
    ar_root_dir args = Some root /\ ar_argv args = pre ++ libpath :: rest /\ is_module libpath = true /\
    resolve_module fs realpath (module_paths root libpath) = Some p /\ module_sym p = Some sym /\ dlopen p = Some h /\
    b_dl b' = b_dl b ++ Opened p h :: mid ++ [Closed h] /\
    match dlsym h sym with
    | None => mid = [] /\ r = DPE_INVAL /\ b_app b' = b_app b
    | Some f =>
        let l := load f (libpath :: rest) in
        mid = [Entered f (libpath :: rest) l.2] /\
        if (1 <=? l.1) && (l.1 <=? DPAPP_TYPE_MAX)
        then dpapp_start P wake_fd (with_types args l.1) (thread_main (b_stack_size b') l.2) (b_app b) = Some (r, b_app b')
             /\ b_hdrs b' = l.2
        else r = DPE_INVAL /\ b_app b' = b_app b
    end.

Definition start_defined (args : dpapp_arg) (s : appst E) : Prop := forall f argv sz,
  dpapp_start P wake_fd (with_types args (load f argv).1) (thread_main sz (load f argv).2) s <> None.

Lemma dl_say_ok ev (b : boots) (Q : unit -> boots -> Prop) :
  Q tt (Boot (b_log b) (b_app b) (b_stack_size b) (b_hdrs b) (b_dl b ++ [ev])) -> wp (dl_say ev) b Q.
Proof using Type. intros. by apply wp_modify. Qed.

Lemma load_module_ok args root pre argv (b : boots) :
  ar_root_dir args = Some root -> ar_argv args = pre ++ argv -> start_defined args (b_app b) ->
  wp (load_module P wake_fd fs realpath dlopen dlsym load thread_main args root argv) b (fun r b' =>
    r = DPE_INVAL /\ same_run b b' \/ module_run args b r b').
Proof.
  intros Hroot Hargv Hdef. unfold load_module. destruct argv as [|libpath rest]; [apply wp_ret; by left|].
  destruct (is_module libpath) eqn:Hm; [|apply wp_ret; by left]. cbn [negb].
  destruct (resolve_module _ _ _) as [p|] eqn:Hp; [|apply wp_ret; by left].
  destruct (module_sym p) as [sym|] eqn:Hs; [|apply wp_ret; by left].
  destruct (dlopen p) as [h|] eqn:Hh; [|apply wp_ret; by left].
  apply wp_bind, dl_say_ok. unfold enter_module. destruct (dlsym h sym) as [f|] eqn:Hf.
  - destruct (load f (libpath :: rest)) as [count hdrs] eqn:Hl. apply wp_bind, dl_say_ok.
    assert (Hmod : forall r s (b' : boots), b_app b' = s -> b_dl b' = b_dl b ++ [Opened p h; Entered f (libpath :: rest) hdrs; Closed h] ->
      (if (1 <=? count) && (count <=? DPAPP_TYPE_MAX)
       then dpapp_start P wake_fd (with_types args count) (thread_main (b_stack_size b') hdrs) (b_app b) = Some (r, s) /\ b_hdrs b' = hdrs
       else r = DPE_INVAL /\ s = b_app b) -> module_run args b r b').
    { intros r s b' <- Hd Hr. exists root, pre, libpath, rest, p, sym, h, [Entered f (libpath :: rest) hdrs].
      rewrite Hf, Hl. by split_and!. }
    destruct (Z.leb_spec count 0); cbn [orb].
    { apply wp_bind, dl_say_ok, wp_ret. right. eapply Hmod; [done|cbn [b_dl]; by rewrite <- !app_assoc|].
      by rewrite (proj2 (Z.leb_gt 1 count)) by lia. }
    destruct (Z.ltb_spec DPAPP_TYPE_MAX count).
    { apply wp_bind, dl_say_ok, wp_ret. right. eapply Hmod; [done|cbn [b_dl]; by rewrite <- !app_assoc|].
      by rewrite (proj2 (Z.leb_gt count DPAPP_TYPE_MAX)), andb_false_r by lia. }
    apply wp_bind, wp_modify, wp_bind, wp_gets, wp_bind, wp_on_app. cbn. unfold id. specialize (Hdef f (libpath :: rest) (b_stack_size b)).
    rewrite Hl in Hdef. unfold wp at 1. cbn [fst snd] in Hdef.
    destruct (dpapp_start _ _ _ _ _) as [[r s]|] eqn:Hst; [|done]. apply wp_bind, dl_say_ok, wp_ret. right.
    eapply Hmod; [done|cbn [b_dl]; by rewrite <- !app_assoc|].
    rewrite (proj2 (Z.leb_le 1 count)), (proj2 (Z.leb_le count DPAPP_TYPE_MAX)) by lia. by split.
  - apply wp_bind, dl_say_ok, wp_ret. right. exists root, pre, libpath, rest, p, sym, h, []. rewrite Hf. split_and!; try done.
    cbn. by rewrite <- app_assoc.
Qed.
(** C38. [dpcwc_start] either refuses, with [DPE_INVAL], having opened nothing and
    started nothing; or it opens exactly one file, the first candidate for the
    name after the options, looks up the symbol named after that file, and closes
    it exactly once, last, whatever the module does.  Loops are started only for
    a table of 1 to 64 types, with that number of types and the table, and the
    result is then theirs. *)
Theorem dpcwc_start_runs_one_module args (b : boots) :
  (forall b : boots, module_args (ar_argv args) b <> None) -> start_defined args (b_app b) ->
  wp (dpcwc_start P wake_fd fs realpath dlopen dlsym load thread_main args) b (fun r b' =>
    r = DPE_INVAL /\ same_run b b' \/ module_run args b r b').
Proof.
  intros Hopts Hdef. unfold dpcwc_start. destruct (ar_argv args) as [|a0 argv] eqn:Ea; [apply wp_ret; by left|].
  destruct (ar_root_dir args) as [root|] eqn:Er; [|apply wp_ret; by left].
  apply wp_bind, wp_on_log. eapply wp_mono; [apply dplog_init_defined|]. cbv beta. intros _ lg _.
  apply wp_bind. eapply wp_mono; [apply module_args_ok, Hopts|]. cbv beta.
  intros [l|] b' [[Ha Hd] Hl]; cbn in Ha, Hd; [|apply wp_ret; by left].
  destruct (Hl l eq_refl) as [pre Hpre]. rewrite <- Ea in Hpre.
  eapply wp_mono; [eapply (load_module_ok args root pre l b'); [done..|by rewrite Ha]|]. cbv beta.
  unfold same_run, module_run. intros r b'' Hr. by rewrite Ha, Hd in Hr.
Qed.
End Facts.

(** ** Examples *)

Example sym_of_library : module_sym (chr "/opt/dp/app/libchat.so") = Some (chr "dpcwc__chat").
Proof. reflexivity. Qed.
(** The name ends at the first ".so", also inside a word. *)
Example sym_of_dotted : module_sym (chr "/opt/dp/my.solver.so") = Some (chr "dpcwc__my").
Proof. reflexivity. Qed.

Inductive ex_files := ExFiles.
#[local] Instance ex_fs : Fs ex_files := {|
  fs_getcwd _ := Some (chr "/"); fs_access _ _ := true; fs_path _ := None;
  fs_stat _ p := if bool_decide (p = chr "/srv/app/libchat.so") then Some IsReg else None;
  fs_mkdir _ f := (0, f);
|}.
#[local] Instance ex_logos : LogOs Z := {|
  lg_now t := ((t, 0), t); lg_open _ _ t := (4, t); lg_close _ t := t; lg_write _ _ t := t;
|}.

Definition ex_boot : boot Z Z Z := Boot (Logger 2 (-1) 1 0 None 0) (ex_app []) 65536 [] [].
Definition ex_start_args (argv : list chars) : dpapp_arg :=
  Arg argv 0 1 (replicate 64 1) 0 DPLOG_L_NOTICE DPLOG_TA_SECOND (Some (chr "/srv")) None None.
Definition ex_start (count : Z) (argv : list chars) : ST (boot Z Z Z) Z :=
  dpcwc_start (H1 := ex_proc) ex_program (fun _ => 5) ExFiles Some (fun _ => Some 6) (fun _ _ => Some 7) (fun _ _ => (count, [8]))
    (fun _ _ => mret tt) (ex_start_args argv).
Definition ex_argv : list chars := [chr "-s"; chr "128"; chr "libchat.so"; chr "x"].

Lemma dpcwc_start_runs_one_module_witness :
  wp (ex_start 1 ex_argv) ex_boot (fun r b' => r = DPE_INVAL /\ same_run ex_boot b' \/
    module_run (H1 := ex_proc) ex_program (fun _ => 5) ExFiles Some (fun _ => Some 6) (fun _ _ => Some 7) (fun _ _ => (1, [8]))
      (fun _ _ => mret tt) (ex_start_args ex_argv) ex_boot r b').
Proof.
  apply (dpcwc_start_runs_one_module (H1 := ex_proc)); [by intros b; cbn|]. intros f argv sz. by vm_compute.
Defined.

(** It runs; and a module that declares no type is unloaded. *)
Example module_runs : (fun r => (r.1, b_dl r.2, b_stack_size r.2)) <$> ex_start 1 ex_argv ex_boot =
  Some (DPE_OK, [Opened (chr "/srv/app/libchat.so") 6; Entered 7 [chr "libchat.so"; chr "x"] [8]; Closed 6], 131072).
Proof. vm_compute. reflexivity. Qed.
Example module_refused : (fun r => (r.1, b_dl r.2)) <$> ex_start 0 ex_argv ex_boot =
  Some (DPE_INVAL, [Opened (chr "/srv/app/libchat.so") 6; Entered 7 [chr "libchat.so"; chr "x"] [8]; Closed 6]).
Proof. vm_compute. reflexivity. Qed.
