(* ===== verification/Dpssl.v ===== *)
(** * TLS ([lib/dpapp/dpssl.c], built with [DPAPP_HAS_SSL])

    Groups hold the protocol versions, the ALPN names and the certificates of
    clients or servers; an element of type [dpssl_client] or [dpssl_server] is a
    session over the descriptor of another element, and its operations call
    OpenSSL.  OpenSSL is the class [Ssl]; a trace keeps the contexts and
    sessions that it gave out and took back. *)

From S2P Require Import Prelude Chars Dpret Dpbuf Ele Tmrset World.

#[local] Set Default Proof Using "Type*".

(** ** OpenSSL

    Contexts and sessions are numbers; a session operation answers with its result
    or with what [SSL_get_error] says of it. *)
Class Ssl (E : Type) := {
  SSL_CTX_new : bool -> E -> option Z * E; (* DTLS or TLS *)
  SSL_CTX_set_min_proto_version : Z -> Z -> E -> E;
  SSL_CTX_set_max_proto_version : Z -> Z -> E -> E;
  SSL_CTX_get_min_proto_version : Z -> E -> Z;
  SSL_CTX_get_max_proto_version : Z -> E -> Z;
  SSL_CTX_set_default_verify_paths : Z -> E -> bool * E;
  SSL_CTX_use_certificate_file : Z -> chars -> E -> Z * E;
  SSL_CTX_use_PrivateKey_file : Z -> chars -> E -> Z * E;
  SSL_CTX_check_private_key : Z -> E -> Z * E;
  SSL_CTX_free : Z -> E -> E;
  SSL_new : Z -> E -> option Z * E;
  SSL_free : Z -> E -> E;
  BIO_new_socket : Z -> E -> option Z * E;
  SSL_set_bio : Z -> Z -> E -> E;
  SSL_set_connect_state : Z -> E -> E;
  SSL_set_accept_state : Z -> E -> E;
  SSL_set_tlsext_host_name : Z -> chars -> E -> E;
  SSL_set_alpn_protos : Z -> list Z -> E -> E;
  SSL_set_SSL_CTX : Z -> Z -> E -> E;
  SSL_select_next_proto : list Z -> list Z -> option (list Z); (* the peer's, ours *)
  SSL_is_init_finished : Z -> E -> bool;
  SSL_do_handshake : Z -> E -> (unit + Z) * E;
  SSL_shutdown : Z -> E -> (unit + Z) * E; (* [inl] when both sides are closed *)
  SSL_read : Z -> Z -> E -> (list Z + Z) * E;
  SSL_write : Z -> list Z -> E -> (Z + Z) * E;
  unexpected_eof : E -> bool; (* the reason of the last error *)
  ssl_errno : E -> Z;
}.

Definition DPE_NAMETOOLONG : Z := -36.
Definition DPE_NOTEXISTS : Z := -157.
Definition SSL_ERROR_SSL : Z := 1.
Definition SSL_ERROR_WANT_READ : Z := 2.
Definition SSL_ERROR_WANT_WRITE : Z := 3.
Definition SSL_ERROR_SYSCALL : Z := 5.
Definition SSL3_VERSION_MAJOR : Z := 3.
Definition DTLS1_VERSION_MAJOR : Z := 0xFE.
Definition TLS1_3_VERSION : Z := 0x0304.
Definition SSL_TLSEXT_ERR_OK : Z := 0.
Definition SSL_TLSEXT_ERR_ALERT_FATAL : Z := 2.

Definition DPROLE_CLIENT : Z := 1.
Definition DPROLE_SERVER : Z := 2.
Definition DPROLE_UNSURE : Z := 3.

Inductive sslev :=
  | CtxNew (ctx : Z)
  | CtxFree (ctx : Z)
  | CtxAlpn (ctx : Z) (grp : loc) (* the argument of the callback *)
  | CtxSni (ctx : Z) (grp : loc)
  | SsnNew (ctx ssn : Z)
  | SsnFree (ssn : Z).

(** ** Data *)

Record dpssl_ctx := Sctx { sc_sni : option chars; sc_ctx : Z }.

(** The lists by their contents; [alpns_wire] is the [dpbuf] at the group's own
    address. *)
Record dpssl_group := Group {
  g_role : Z;
  g_min : Z;
  g_max : Z;
  g_name : chars;
  g_alpns : list chars;
  g_dirty : bool;
  g_ctxs : list dpssl_ctx;
  g_default : option Z;
}.

(** The aux data of a session element. *)
Record dpssl_ssn_udata := Udata { u_efd : option loc; u_ssn : option Z; u_role : Z }.

(** What an address that the caller passes leads to. *)
Inductive uaddr := AStr (s : chars) | AMem (p : ptr).

(** The thread's groups, newest first, and memory. *)
Record tls (E : Type) := Tls {
  s_groups : gmap loc dpssl_group;
  s_mgr : list loc;
  s_mem : bstore;
  s_udata : gmap loc dpssl_ssn_udata;
  s_addr : gmap Z uaddr;
  s_log : list sslev;
  s_ext : E;
}.
Arguments Tls {E}. Arguments s_groups {E}. Arguments s_mgr {E}. Arguments s_mem {E}.
Arguments s_udata {E}. Arguments s_addr {E}. Arguments s_log {E}. Arguments s_ext {E}.

Definition with_alpns (l : list chars) (d : bool) (g : dpssl_group) : dpssl_group :=
  Group (g_role g) (g_min g) (g_max g) (g_name g) l d (g_ctxs g) (g_default g).
Definition with_ctxs (l : list dpssl_ctx) (g : dpssl_group) : dpssl_group :=
  Group (g_role g) (g_min g) (g_max g) (g_name g) (g_alpns g) (g_dirty g) l (g_default g).
Definition with_default (c : option Z) (g : dpssl_group) : dpssl_group :=
  Group (g_role g) (g_min g) (g_max g) (g_name g) (g_alpns g) (g_dirty g) (g_ctxs g) c.

Definition _DPSSL_DEFAULT_SNI : chars := chr "@default.sni.dpssl".

Section Dpssl.
Context {E : Type} `{Ssl E}.

Abbreviation D := (ST (tls E)).

Definition with_groups (f : gmap loc dpssl_group -> gmap loc dpssl_group) (s : tls E) : tls E :=
  Tls (f (s_groups s)) (s_mgr s) (s_mem s) (s_udata s) (s_addr s) (s_log s) (s_ext s).
Definition with_mgr (l : list loc) (s : tls E) : tls E :=
  Tls (s_groups s) l (s_mem s) (s_udata s) (s_addr s) (s_log s) (s_ext s).
Definition with_mem (m : bstore) (s : tls E) : tls E :=
  Tls (s_groups s) (s_mgr s) m (s_udata s) (s_addr s) (s_log s) (s_ext s).
Definition with_udata (f : gmap loc dpssl_ssn_udata -> gmap loc dpssl_ssn_udata) (s : tls E) : tls E :=
  Tls (s_groups s) (s_mgr s) (s_mem s) (f (s_udata s)) (s_addr s) (s_log s) (s_ext s).
Definition with_lib (l : list sslev) (x : E) (s : tls E) : tls E :=
  Tls (s_groups s) (s_mgr s) (s_mem s) (s_udata s) (s_addr s) l x.

Definition get_grp (p : loc) : D dpssl_group := fun s => (fun g => (g, s)) <$> s_groups s !! p.
Definition put_grp (p : loc) (g : dpssl_group) : D unit := _ ← get_grp p; modify (with_groups <[p := g]>).
Definition upd_grp (p : loc) (f : dpssl_group -> dpssl_group) : D unit := g ← get_grp p; put_grp p (f g).
Definition on_mem {A} (m : ST bstore A) : D A := fun s => (fun r => (r.1, with_mem r.2 s)) <$> m (s_mem s).

(** Calls of OpenSSL. *)
Definition lib {A} (f : E -> A * E) : D A :=
  fun s => let '(a, x) := f (s_ext s) in Some (a, with_lib (s_log s) x s).
Definition lib_do (f : E -> E) : D unit := lib (fun x => (tt, f x)).
Definition note (ev : sslev) : D unit := modify (fun s => with_lib (s_log s ++ [ev]) (s_ext s) s).

Definition ctx_new (dtls : bool) : D (option Z) :=
  r ← lib (SSL_CTX_new dtls);
  match r with Some c => note (CtxNew c);; mret (Some c) | None => mret None end.
Definition ctx_free (c : Z) : D unit := note (CtxFree c);; lib_do (SSL_CTX_free c).
Definition ssn_new (c : Z) : D (option Z) :=
  r ← lib (SSL_new c);
  match r with Some ssn => note (SsnNew c ssn);; mret (Some ssn) | None => mret None end.
(** [SSL_free(NULL)] does nothing. *)
Definition ssn_free (ssn : option Z) : D unit :=
  match ssn with Some ssn => note (SsnFree ssn);; lib_do (SSL_free ssn) | None => mret tt end.

(** ** Finding *)

Definition name_ok (group : option chars) : option chars :=
  match group with
  | None => None
  | Some n => if bool_decide (n = []) || (31 <? zlen n) then None else Some n
  end.

(** The first group of the list with the name. *)
Fixpoint find_named (l : list loc) (n : chars) : D (option loc) :=
  match l with
  | [] => mret None
  | p :: l => g ← get_grp p; if bool_decide (g_name g = n) then mret (Some p) else find_named l n
  end.
Definition _dpssl_group_find (group : option chars) : D (Z * option loc) :=
  match name_ok group with
  | None => mret (DPE_INVAL, None)
  | Some n =>
      l ← gets s_mgr;
      r ← find_named l n;
      mret (match r with Some p => (DPE_OK, Some p) | None => (DPE_NOTEXISTS, None) end)
  end.
(** A group, or the code. *)
Definition find_group (group : option chars) : D (Z + loc) :=
  r ← _dpssl_group_find group;
  mret (match r.2 with Some p => inr p | None => inl r.1 end).

(** ** ALPN *)

Definition _dpssl_alpn_at (g : dpssl_group) (idx : Z) : option chars :=
  if idx <? 0 then None else znth (g_alpns g) idx.
Definition _dpssl_alpn_contains (g : dpssl_group) (sub_alpn : option chars) : bool :=
  match sub_alpn with
  | None => false
  | Some n => if bool_decide (n = []) then false else bool_decide (n ∈ g_alpns g)
  end.

Definition bytes_of (s : chars) : list Z := map code s.

(** Bytes at an address of their own, appended to the buffer of [p]. *)
Definition wire_write (p : loc) (bs : list Z) : D Z := on_mem (
  k ← fresh_loc;
  modify (set_blks <[k := bs]>);;
  n ← on_buf p (fun b => dpbuf_wdata b (Some (Ptr k 0)) (zlen bs));
  free_blk (Ptr k 0);;
  mret n).

Fixpoint wire_loop (p : loc) (alpns : list chars) : D Z :=
  match alpns with
  | [] => mret DPE_OK
  | a :: alpns =>
      let n := zlen a in
      if 255 <? n then mret DPE_NAMETOOLONG else
      r ← wire_write p [n];
      if negb (r =? 1) then mret DPE_NOMEM else
      r ← wire_write p (bytes_of a);
      if negb (r =? n) then mret DPE_NOMEM else wire_loop p alpns
  end.

Definition _dpssl_alpns_wire_sync (p : loc) : D Z :=
  g ← get_grp p;
  if negb (g_dirty g) then mret DPE_OK else
  on_mem (on_buf p (fun b => mret (tt, dpbuf_reset b DPBUF_INIT_W)));;
  r ← wire_loop p (g_alpns g);
  if negb (r =? DPE_OK) then mret r else
  _ ← on_mem (on_buf p (fun b => dpbuf_eseek b 0 SEEK_END));
  upd_grp p (fun g => with_alpns (g_alpns g) false g);;
  mret DPE_OK.

(** The bytes of the buffer's readable part. *)
Definition wire_bytes (p : loc) : D (list Z) := on_mem (
  b ← get_buf p; d ← dpbuf_crdata b; load_bytes d (dpbuf_crsize b)).

Definition _dpssl_add_alpn (p : loc) (sub_alpn : option chars) : D Z :=
  match sub_alpn with
  | None => mret DPE_INVAL
  | Some a =>
      if bool_decide (a = []) then mret DPE_INVAL else
      g ← get_grp p;
      if _dpssl_alpn_contains g (Some a) then mret DPE_OK else
      if 255 <? zlen a then mret DPE_NAMETOOLONG else
      ok ← on_mem (malloc_ok (8 + zlen a + 1));
      if negb ok then mret DPE_NOMEM else
      put_grp p (with_alpns (g_alpns g ++ [a]) true g);;
      mret DPE_OK
  end.

Definition _dpssl_alpns_free (p : loc) : D unit := upd_grp p (fun g => with_alpns [] (g_dirty g) g).

(** The callback of a server: what is chosen of the names the peer offers. *)
Definition _dpssl_alpn_select (inp : list Z) (grp : loc) : D (Z * option (list Z)) :=
  _ ← _dpssl_alpns_wire_sync grp;
  w ← wire_bytes grp;
  match SSL_select_next_proto inp w with
  | Some out => mret (SSL_TLSEXT_ERR_OK, Some out)
  | None => mret (SSL_TLSEXT_ERR_ALERT_FATAL, None)
  end.

Definition dpssl_add_alpn (group alpn : option chars) : D Z :=
  match alpn with
  | None => mret DPE_INVAL
  | Some _ => r ← find_group group; match r with inl e => mret e | inr p => _dpssl_add_alpn p alpn end
  end.

Definition dpssl_has_alpn (group alpn : option chars) : D Z :=
  match alpn with
  | None => mret DPE_INVAL
  | Some a =>
      if bool_decide (a = []) then mret DPE_INVAL else
      r ← find_group group;
      match r with
      | inl e => mret e
      | inr p => g ← get_grp p; mret (if _dpssl_alpn_contains g alpn then DPE_OK else DPE_NOTEXISTS)
      end
  end.

Definition dpssl_has_version (group : option chars) (min_version max_version : Z) : D Z :=
  r ← find_group group;
  match r with
  | inl e => mret e
  | inr p =>
      g ← get_grp p;
      if negb (min_version =? 0) && ((min_version <? g_min g) || (g_max g <? min_version)) then mret DPE_NOTEXISTS else
      if negb (max_version =? 0) && ((g_max g <? max_version) || (max_version <? g_min g)) then mret DPE_NOTEXISTS else
      mret DPE_OK
  end.

Definition dpssl_get_alpn (group : option chars) (idx : Z) : D (option chars) :=
  if idx <? 0 then mret None else
  r ← find_group group;
  match r with inl _ => mret None | inr p => g ← get_grp p; mret (_dpssl_alpn_at g idx) end.

(** ** Groups and certificates *)

Definition _dpssl_group_add (group : option chars) (role min_version max_version : Z) : D (Z * option loc) :=
  match name_ok group with
  | None => mret (DPE_INVAL, None)
  | Some n =>
      if negb (role =? DPROLE_CLIENT) && negb (role =? DPROLE_SERVER) then mret (DPE_INVAL, None) else
      ok ← on_mem (malloc_ok 136);
      if negb ok then mret (DPE_NOMEM, None) else
      p ← on_mem (p ← fresh_loc; modify (set_bufs <[p := zero_buf]>);; mret p);
      modify (with_groups <[p := Group role min_version max_version n [] false [] None]>);;
      ok ← on_mem (dpbuf_init (Some p) DPBUF_S_SIZE);
      if negb ok then
        modify (with_groups (delete p));; on_mem (modify (set_bufs (delete p)));; mret (DPE_NOMEM, None)
      else
        l ← gets s_mgr;
        modify (with_mgr (p :: l));;
        mret (DPE_OK, Some p)
  end.

Definition sni_is (n : chars) (c : dpssl_ctx) : bool :=
  match sc_sni c with Some s => bool_decide (s = n) | None => false end.

(** The first context for the name, if it can be looked for. *)
Definition _dpssl_ctx_find (grp : loc) (sni : option chars) : D (Z * option dpssl_ctx) :=
  match sni with
  | None => mret (DPE_INVAL, None)
  | Some n =>
      if bool_decide (n = []) then mret (DPE_INVAL, None) else
      g ← get_grp grp;
      mret (match List.find (sni_is n) (g_ctxs g) with
            | Some c => (DPE_OK, Some c)
            | None => (DPE_NOTEXISTS, None)
            end)
  end.

(** [strdup] may fail: the entry then has no name. *)
Definition _dpssl_ctx_add (grp : loc) (sni : option chars) (ori_ctx : Z) : D Z :=
  match sni with
  | None => mret DPE_INVAL
  | Some n =>
      if bool_decide (n = []) then mret DPE_INVAL else
      ok ← on_mem (malloc_ok 24);
      if negb ok then mret DPE_NOMEM else
      dup ← on_mem (malloc_ok (zlen n + 1));
      upd_grp grp (fun g => with_ctxs (Sctx (if dup : bool then Some n else None) ori_ctx :: g_ctxs g) g);;
      mret DPE_OK
  end.

Definition _dpssl_ctx_free (c : dpssl_ctx) : D unit := ctx_free (sc_ctx c).

Fixpoint free_ctxs (grp : loc) (l : list dpssl_ctx) : D unit :=
  match l with
  | [] => mret tt
  | c :: l => upd_grp grp (with_ctxs l);; _dpssl_ctx_free c;; free_ctxs grp l
  end.
Definition _dpssl_group_del_all_ctx (grp : loc) : D unit := g ← get_grp grp; free_ctxs grp (g_ctxs g).

Definition _dpssl_group_free (grp : loc) : D unit :=
  _dpssl_group_del_all_ctx grp;;
  g ← get_grp grp;
  (match g_default g with Some c => ctx_free c;; upd_grp grp (with_default None) | None => mret tt end);;
  _dpssl_alpns_free grp;;
  on_mem (dpbuf_fini (Some grp));;
  modify (with_groups (delete grp));;
  on_mem (modify (set_bufs (delete grp))).

(** The first group of the list with the name, and the list without it. *)
Fixpoint unlink_named (l : list loc) (n : chars) : D (option (loc * list loc)) :=
  match l with
  | [] => mret None
  | p :: l =>
      g ← get_grp p;
      if bool_decide (g_name g = n) then mret (Some (p, l)) else
      r ← unlink_named l n;
      mret ((fun q => (q.1, p :: q.2)) <$> r)
  end.
Definition _dpssl_group_unlink (group : option chars) : D (Z + loc) :=
  match name_ok group with
  | None => mret (inl DPE_INVAL)
  | Some n =>
      l ← gets s_mgr;
      r ← unlink_named l n;
      match r with
      | Some (p, l) => modify (with_mgr l);; mret (inr p)
      | None => mret (inl DPE_NOTEXISTS)
      end
  end.

Fixpoint unlink_sni (l : list dpssl_ctx) (n : chars) : option (dpssl_ctx * list dpssl_ctx) :=
  match l with
  | [] => None
  | c :: l => if sni_is n c then Some (c, l) else (fun r => (r.1, c :: r.2)) <$> unlink_sni l n
  end.
Definition _dpssl_ctx_unlink (grp : loc) (sni : option chars) : D (Z + dpssl_ctx) :=
  match sni with
  | None => mret (inl DPE_INVAL)
  | Some n =>
      if bool_decide (n = []) then mret (inl DPE_INVAL) else
      g ← get_grp grp;
      match unlink_sni (g_ctxs g) n with
      | Some (c, l) => put_grp grp (with_ctxs l g);; mret (inr c)
      | None => mret (inl DPE_NOTEXISTS)
      end
  end.

(** The callback of a server: the certificate for the name the client asks for. *)
Definition _dpssl_sni_select (ssl : Z) (name : option chars) (grp : loc) : D Z :=
  let named := match name with Some n => negb (bool_decide (n = [])) | None => false end in
  r ← _dpssl_ctx_find grp (if named then name else Some _DPSSL_DEFAULT_SNI);
  c ← (match r.2 with
       | Some c => mret (Some c)
       | None => if named then r ← _dpssl_ctx_find grp (Some _DPSSL_DEFAULT_SNI); mret r.2 else mret None
       end);
  match c with
  | None => mret SSL_TLSEXT_ERR_ALERT_FATAL
  | Some c => lib_do (SSL_set_SSL_CTX ssl (sc_ctx c));; mret SSL_TLSEXT_ERR_OK
  end.

Definition _dpssl_use_crt_key (c : Z) (crt key : option chars) : D Z :=
  match crt, key with
  | Some crt, Some key =>
      r ← lib (SSL_CTX_use_certificate_file c crt);
      if r <=? 0 then mret DPE_INTERNAL_ERROR else
      r ← lib (SSL_CTX_use_PrivateKey_file c key);
      if r <=? 0 then mret DPE_INTERNAL_ERROR else
      r ← lib (SSL_CTX_check_private_key c);
      if negb (r =? 1) then mret DPE_INTERNAL_ERROR else mret DPE_OK
  | _, _ => mret DPE_INVAL
  end.

Definition _dpssl_new_ori_ctx (min_version max_version : Z) : D (Z + Z) :=
  let major := Z.shiftr min_version 8 in
  let dtls := negb (major =? SSL3_VERSION_MAJOR) && (major =? DTLS1_VERSION_MAJOR) in
  let known := (major =? SSL3_VERSION_MAJOR) || dtls in
  let min_version := if known then min_version else TLS1_3_VERSION in
  let max_version := if known then max_version else TLS1_3_VERSION in
  c ← ctx_new dtls;
  match c with
  | None => mret (inl DPE_INTERNAL_ERROR)
  | Some c =>
      (if negb (min_version =? 0) then lib_do (SSL_CTX_set_min_proto_version c min_version) else mret tt);;
      (if negb (max_version =? 0) then lib_do (SSL_CTX_set_max_proto_version c max_version) else mret tt);;
      ok ← lib (SSL_CTX_set_default_verify_paths c);
      if negb ok then ctx_free c;; mret (inl DPE_INTERNAL_ERROR) else mret (inr c)
  end.

Definition dpssl_add (group : option chars) (role min_version max_version : Z) : D Z :=
  r ← _dpssl_group_find group;
  if r.1 =? DPE_OK then mret DPE_OK else
  if negb (r.1 =? DPE_NOTEXISTS) then mret r.1 else
  c ← _dpssl_new_ori_ctx min_version max_version;
  match c with
  | inl e => mret e
  | inr c =>
      minv ← gets (fun s => SSL_CTX_get_min_proto_version c (s_ext s));
      maxv ← gets (fun s => SSL_CTX_get_max_proto_version c (s_ext s));
      r ← _dpssl_group_add group role minv maxv;
      match r.2 with
      | None => ctx_free c;; mret r.1
      | Some p =>
          (if role =? DPROLE_SERVER then note (CtxAlpn c p);; note (CtxSni c p) else mret tt);;
          upd_grp p (with_default (Some c));;
          mret DPE_OK
      end
  end.

Definition dpssl_del (group : option chars) : D Z :=
  r ← _dpssl_group_unlink group;
  match r with inl e => mret e | inr p => _dpssl_group_free p;; mret DPE_OK end.

Definition dpssl_role (group : option chars) : D Z :=
  r ← find_group group;
  match r with inl _ => mret DPROLE_UNSURE | inr p => g ← get_grp p; mret (g_role g) end.

(** An empty name stands for the default certificate. *)
Definition sni_slot (n : chars) : chars := if bool_decide (n = []) then _DPSSL_DEFAULT_SNI else n.

Definition dpssl_del_ctx (group name : option chars) : D Z :=
  match name with
  | None => mret DPE_INVAL
  | Some n =>
      r ← find_group group;
      match r with
      | inl e => mret e
      | inr p =>
          r ← _dpssl_ctx_unlink p (Some (sni_slot n));
          match r with inl e => mret e | inr c => _dpssl_ctx_free c;; mret DPE_OK end
      end
  end.

Definition dpssl_del_all_ctx (group : option chars) : D unit :=
  r ← find_group group;
  match r with inl _ => mret tt | inr p => _dpssl_group_del_all_ctx p end.

Definition dpssl_add_ctx (group sni crt key : option chars) : D Z :=
  match sni with
  | None => mret DPE_INVAL
  | Some n =>
      let n := sni_slot n in
      r ← find_group group;
      match r with
      | inl e => mret e
      | inr p =>
          g ← get_grp p;
          if negb (g_role g =? DPROLE_SERVER) then mret DPE_PERM else
          r ← _dpssl_ctx_find p (Some n);
          match r.2 with
          | Some _ => mret DPE_OK
          | None =>
              c ← _dpssl_new_ori_ctx (g_min g) (g_max g);
              match c with
              | inl e => mret e
              | inr c =>
                  r ← _dpssl_use_crt_key c crt key;
                  if negb (r =? DPE_OK) then ctx_free c;; mret r else
                  note (CtxAlpn c p);;
                  r ← _dpssl_ctx_add p (Some n) c;
                  if negb (r =? DPE_OK) then ctx_free c;; mret r else mret DPE_OK
              end
          end
      end
  end.

Definition dpssl_get_ctx (group sni : option chars) : D (option Z) :=
  r ← find_group group;
  match r with
  | inl _ => mret None
  | inr p =>
      match sni with
      | None => g ← get_grp p; mret (g_default g)
      | Some n =>
          r ← _dpssl_ctx_find p (Some (sni_slot n));
          match r.2 with
          | Some c => mret (Some (sc_ctx c))
          | None =>
              if bool_decide (n = []) then mret None else
              r ← _dpssl_ctx_find p (Some _DPSSL_DEFAULT_SNI); mret (sc_ctx <$> r.2)
          end
      end
  end.

Fixpoint free_groups (l : list loc) : D unit :=
  match l with
  | [] => mret tt
  | p :: l => modify (with_mgr l);; _dpssl_group_free p;; free_groups l
  end.
Definition dpssl_thrd_init : D Z := mret DPE_OK.
Definition dpssl_thrd_exit : D unit := l ← gets s_mgr; free_groups l.

End Dpssl.
