(* ===== verification/DpsslIo.v ===== *)
(** * TLS sessions and their operations ([lib/dpapp/dpssl.c])

    The elements of type [dpssl_client] and [dpssl_server], and the operations
    [dpssl_handshake], [dpssl_shutdown], [dpssl_recv] and [dpssl_send], in the world
    of the loops over the state of [Dpssl]. *)

From S2P Require Import Prelude Chars Dpret Dpbuf Ele Tmrset World Evp AscTmr Dpssl.

#[local] Set Default Proof Using "Type*".

Section Io.
Context {E : Type} `{Ssl E} `{Sys E}.

Definition on_ext {A} (f : E -> A * E) (s : tls E) : A * tls E :=
  let '(a, x) := f (s_ext s) in (a, with_lib (s_log s) x s).

(** The system of the loops is that of OpenSSL's state. *)
#[export] Instance tls_sys : Sys (tls E) := {|
  millis := on_ext millis;
  epoll_create := on_ext epoll_create;
  epoll_add l fd d evs := on_ext (epoll_add l fd d evs);
  epoll_mod l fd d evs := on_ext (epoll_mod l fd d evs);
  epoll_del l fd := on_ext (epoll_del l fd);
  epoll_wait l t := on_ext (epoll_wait l t);
  fcntl_getfl fd := on_ext (fcntl_getfl fd);
  fcntl_setfl fd fl := on_ext (fcntl_setfl fd fl);
  sys_close fd := on_ext (sys_close fd);
  sys_dup fd := on_ext (sys_dup fd);
|}.

Abbreviation D := (ST (tls E)).
Abbreviation M := (ST (world (tls E))).

Definition with_tls (s : tls E) (w : world (tls E)) : world (tls E) :=
  World (w_eles w) (w_next w) (w_oom w) (w_race w) (w_nodes w) (w_set w) (w_self w) s.
Definition on_ssl {A} (m : D A) : M A := fun w => (fun r => (r.1, with_tls r.2 w)) <$> m (w_ext w).

(** A string argument. *)
Definition cstr (a : Z) : D (option chars) :=
  if a =? 0 then mret None else
  fun s => match s_addr s !! a with Some (AStr n) => Some (Some n, s) | _ => None end.
Definition ele_at (a : Z) : option loc := match a with Z.pos p => Some p | _ => None end.

(** ** The elements

    The program that the deletion of the descriptor's element refers to is the one
    below: no session is made over a session. *)
Context (P : program (tls E)).

(** What both kinds do first: the descriptor's element and the group, whose role is
    [role]. *)
Definition check_args (args : list Z) (role : Z) : M (Z + loc * loc) :=
  match args with
  | efd :: group :: _ =>
      match ele_at efd with
      | None => mret (inl DPE_INVAL)
      | Some efd =>
          g ← on_ssl (cstr group);
          if bool_decide (default [] g = []) then mret (inl DPE_INVAL) else
          doing ← dpele_is_doing efd;
          if doing : bool then mret (inl DPE_PERM) else
          r ← on_ssl (find_group g);
          match r with
          | inl e => mret (inl e)
          | inr p =>
              g ← on_ssl (get_grp p);
              if negb (g_role g =? role) then mret (inl DPE_INVAL) else mret (inr (efd, p))
          end
      end
  | _ => ub
  end.

(** A session over a descriptor. *)
Definition open_ssn (fd : Z) (grp : loc) : D (Z + Z) :=
  g ← get_grp grp;
  ssn ← (match g_default g with Some c => ssn_new c | None => mret None end);
  match ssn with
  | None => mret (inl DPE_INTERNAL_ERROR)
  | Some ssn =>
      bio ← lib (BIO_new_socket fd);
      match bio with
      | None => ssn_free (Some ssn);; mret (inl DPE_INTERNAL_ERROR)
      | Some bio => lib_do (SSL_set_bio ssn bio);; mret (inr ssn)
      end
  end.

Definition set_udata (x : loc) (u : dpssl_ssn_udata) : D unit := modify (with_udata <[x := u]>).

Definition _dpssl_client_uinit (x : loc) (args : list Z) : M Z :=
  r ← check_args args DPROLE_CLIENT;
  match r with
  | inl e => mret e
  | inr (efd, grp) =>
      fd ← dpefd_fd efd;
      r ← on_ssl (open_ssn fd grp);
      match r with
      | inl e => mret e
      | inr ssn =>
          on_ssl (set_udata x (Udata (Some efd) (Some ssn) DPROLE_CLIENT));;
          on_ssl (lib_do (SSL_set_connect_state ssn));;
          sni ← on_ssl (a ← lift_opt (znth args 2); cstr a);
          (match sni with
           | Some (c :: n) => on_ssl (lib_do (SSL_set_tlsext_host_name ssn (c :: n)))
           | _ => mret tt
           end);;
          g ← on_ssl (get_grp grp);
          (match g_alpns g with
           | [] => mret tt
           | _ => on_ssl (_ ← _dpssl_alpns_wire_sync grp; w ← wire_bytes grp; lib_do (SSL_set_alpn_protos ssn w))
           end);;
          dpefd_set_close efd false;;
          mret fd
      end
  end.

Definition _dpssl_server_uinit (x : loc) (args : list Z) : M Z :=
  r ← check_args args DPROLE_SERVER;
  match r with
  | inl e => mret e
  | inr (efd, grp) =>
      fd ← dpefd_fd efd;
      r ← on_ssl (open_ssn fd grp);
      match r with
      | inl e => mret e
      | inr ssn =>
          on_ssl (set_udata x (Udata (Some efd) (Some ssn) DPROLE_SERVER));;
          on_ssl (lib_do (SSL_set_accept_state ssn));;
          dpefd_set_close efd false;;
          mret fd
      end
  end.

(** The aux data is zero until an init function sets it; it goes with the element. *)
Definition _dpssl_ssn_ufini (x : loc) : M unit :=
  u ← on_ssl (gets (fun s => default (Udata None None 0) (s_udata s !! x)));
  on_ssl (ssn_free (u_ssn u));;
  dpele_del P (u_efd u);;
  on_ssl (modify (with_udata (delete x))).

(** ** Results of the library *)

(** The session of the element. *)
Definition ssn_of (x : loc) : D Z :=
  fun s => match s_udata s !! x with Some (Udata _ (Some ssn) _) => Some (ssn, s) | _ => None end.

Definition err_or_internal : D Z :=
  e ← gets (fun s => ssl_errno (s_ext s)); mret (if 0 <? e then - e else DPE_INTERNAL_ERROR).

Definition out_events (want inva : Z) (out : dpasc_out) : dpasc_out := Out want inva (o_able out) (o_data out).

Definition _dpssl_prep_err (ssl_err : Z) (out : dpasc_out) : D (Z * dpasc_out) :=
  if ssl_err =? SSL_ERROR_SSL then
    eof ← gets (fun s => unexpected_eof (s_ext s));
    if eof : bool then mret (DPE_EOF, out) else e ← err_or_internal; mret (e, out)
  else if ssl_err =? SSL_ERROR_WANT_READ then mret (DPE_CONTINUE, out_events DPEVT_IN 0 out)
  else if ssl_err =? SSL_ERROR_WANT_WRITE then mret (DPE_CONTINUE, out_events DPEVT_OUT 0 out)
  else if ssl_err =? SSL_ERROR_SYSCALL then mret (DPE_EOF, out)
  else mret (DPE_CONNRESET, out).

Definition _dpssl_post_err (ssl_err : Z) (out : dpasc_out) : D (Z * dpasc_out) :=
  if ssl_err =? SSL_ERROR_SSL then
    eof ← gets (fun s => unexpected_eof (s_ext s));
    if eof : bool then mret (DPE_EOF, out) else e ← err_or_internal; mret (e, out)
  else if ssl_err =? SSL_ERROR_WANT_READ then mret (DPE_WAIT, out_events DPEVT_IN DPEVT_IN out)
  else if ssl_err =? SSL_ERROR_WANT_WRITE then mret (DPE_WAIT, out_events DPEVT_OUT DPEVT_OUT out)
  else if ssl_err =? SSL_ERROR_SYSCALL then mret (DPE_EOF, out)
  else mret (DPE_CONNRESET, out).

(** ** Handshake and shutdown *)

Definition prep_res (r : unit + Z) (out : dpasc_out) : D (Z * dpasc_out) :=
  match r with inl _ => mret (DPE_OK, out_events DPEVT_NAN 0 out) | inr err => _dpssl_prep_err err out end.
Definition post_res (r : unit + Z) (out : dpasc_out) : D (Z * dpasc_out) :=
  match r with inl _ => mret (DPE_OK, out) | inr err => _dpssl_post_err err out end.

Definition _dpssl_handshake_prep (x : loc) (arg : list Z) (out : dpasc_out) : M (Z * dpasc_out) := on_ssl (
  ssn ← ssn_of x;
  fin ← gets (fun s => SSL_is_init_finished ssn (s_ext s));
  if fin : bool then mret (DPE_OK, out_events DPEVT_NAN 0 out) else
  r ← lib (SSL_do_handshake ssn); prep_res r out).
Definition _dpssl_handshake_post (x : loc) (out : dpasc_out) : M (Z * dpasc_out) := on_ssl (
  ssn ← ssn_of x; r ← lib (SSL_do_handshake ssn); post_res r out).

Definition _dpssl_shutdown_prep (x : loc) (arg : list Z) (out : dpasc_out) : M (Z * dpasc_out) := on_ssl (
  ssn ← ssn_of x; r ← lib (SSL_shutdown ssn); prep_res r out).
Definition _dpssl_shutdown_post (x : loc) (out : dpasc_out) : M (Z * dpasc_out) := on_ssl (
  ssn ← ssn_of x; r ← lib (SSL_shutdown ssn); post_res r out).

(** ** Data *)

(** The buffer and the length, kept in the scratch memory. *)
Definition io_prep (ev : Z) (x : loc) (arg : list Z) (out : dpasc_out) : M (Z * dpasc_out) :=
  match arg with
  | buf :: len :: _ =>
      set_data_word x out 0 buf;;
      set_data_word x out 1 len;;
      let out := out_events ev 0 out in
      mret (if (buf =? 0) || (len <=? 0) then DPE_INVAL else DPE_CONTINUE, out)
  | _ => ub
  end.
Definition io_arg (x : loc) (out : dpasc_out) : M (Z * Z) :=
  d ← data_words x out;
  buf ← lift_opt (znth d.2 0);
  len ← lift_opt (znth d.2 1);
  mret (buf, len).
(** The memory the address leads to. *)
Definition mem_at (a : Z) : D ptr :=
  fun s => match s_addr s !! a with Some (AMem p) => Some (p, s) | _ => None end.

(** What is reported when the library stops. *)
Definition stopped (total err : Z) (out : dpasc_out) : D (Z * dpasc_out) :=
  r ← _dpssl_post_err err out;
  mret (if 0 <? total then total else r.1, r.2).

(** Every call moves at least a byte: [len] turns are enough. *)
Fixpoint recv_loop (fuel : nat) (ssn : Z) (p : ptr) (len total : Z) (out : dpasc_out) : D (Z * dpasc_out) :=
  match fuel with
  | O => ub
  | S fuel =>
      r ← lib (SSL_read ssn (len - total));
      match r with
      | inl bs =>
          on_mem (store_bytes (ptr_add p total) bs);;
          let total := total + zlen bs in
          if total =? len then mret (total, out) else recv_loop fuel ssn p len total out
      | inr err => stopped total err out
      end
  end.
Fixpoint send_loop (fuel : nat) (ssn : Z) (p : ptr) (len total : Z) (out : dpasc_out) : D (Z * dpasc_out) :=
  match fuel with
  | O => ub
  | S fuel =>
      bs ← on_mem (load_bytes (ptr_add p total) (len - total));
      r ← lib (SSL_write ssn bs);
      match r with
      | inl n =>
          let total := total + n in
          if total =? len then mret (total, out) else send_loop fuel ssn p len total out
      | inr err => stopped total err out
      end
  end.

Definition _dpssl_recv_prep := io_prep DPEVT_IN.
Definition _dpssl_recv_post (x : loc) (out : dpasc_out) : M (Z * dpasc_out) :=
  io ← io_arg x out;
  on_ssl (ssn ← ssn_of x; p ← mem_at io.1; recv_loop (S (Z.to_nat io.2)) ssn p io.2 0 out).

Definition _dpssl_send_prep := io_prep DPEVT_OUT.
Definition _dpssl_send_post (x : loc) (out : dpasc_out) : M (Z * dpasc_out) :=
  io ← io_arg x out;
  on_ssl (ssn ← ssn_of x; p ← mem_at io.1; send_loop (S (Z.to_nat io.2)) ssn p io.2 0 out).

Definition DPASC_SSL_FUNCTION (prep : loc -> list Z -> dpasc_out -> M (Z * dpasc_out))
    (post : loc -> dpasc_out -> M (Z * dpasc_out)) (sz fl : Z) : dpasc (tls E) :=
  Asc prep (Some post) (Z.shiftl 1 (type_index DPELE_TYPE_EFD)) (Z.shiftl 1 DPAIO_TYPE_SSL) sz fl.

Definition dpssl_handshake := DPASC_SSL_FUNCTION _dpssl_handshake_prep _dpssl_handshake_post 0 0.
Definition dpssl_shutdown := DPASC_SSL_FUNCTION _dpssl_shutdown_prep _dpssl_shutdown_post 0 0.
Definition dpssl_recv := DPASC_SSL_FUNCTION _dpssl_recv_prep _dpssl_recv_post 24 0.
Definition dpssl_send := DPASC_SSL_FUNCTION _dpssl_send_prep _dpssl_send_post 24 0.

Definition dpssl_client_type : dpele_type := EleType 30 DPELE_TYPE_EFD 24 DPAIO_TYPE_SSL DPEVT_AIO.
Definition dpssl_server_type : dpele_type := EleType 31 DPELE_TYPE_EFD 24 DPAIO_TYPE_SSL DPEVT_AIO.

(** The program with the two types. *)
Definition with_ssl : program (tls E) :=
  Program (p_asc P)
    (fun n => if n =? ty_id dpssl_client_type then Some _dpssl_client_uinit
              else if n =? ty_id dpssl_server_type then Some _dpssl_server_uinit else p_init P n)
    (p_copy P)
    (fun n => if (n =? ty_id dpssl_client_type) || (n =? ty_id dpssl_server_type) then Some _dpssl_ssn_ufini else p_fini P n).
End Io.
