(* ===== verification/DpsslFacts.v ===== *)
(** * TLS operations and the contract of the loop

    The operations of [DpsslIo] wait for what OpenSSL asks for, which is what the
    loop needs ([PostOk]), unless a failure of the protocol is taken for a wait
    because [errno] is stale; receiving and sending move the bytes that OpenSSL gives
    and takes, in order. *)

From S2P Require Import Prelude Chars Dpret Dpbuf DpbufFacts Ele Tmrset World WorldLogic Evp EfdFacts AscTmr Dpssl DpsslIo.

#[local] Set Default Proof Using "Type*".

(** A call that succeeds moves at least a byte, and no more than it was given. *)
Class SslOk (E : Type) `{Ssl E} : Prop := {
  ssl_read_ok : forall ssn n x bs x', SSL_read ssn n x = (inl bs, x') -> 1 <= zlen bs <= n;
  ssl_write_ok : forall ssn bs x n x', SSL_write ssn bs x = (inl n, x') -> 1 <= n <= zlen bs;
}.

(** A call failed and left the library's state [x]. *)
Definition failed {E} `{Ssl E} (x : E) : Prop :=
  (exists ssn y, SSL_do_handshake ssn y = (inr SSL_ERROR_SSL, x)) \/
  (exists ssn y, SSL_shutdown ssn y = (inr SSL_ERROR_SSL, x)) \/
  (exists ssn n y, SSL_read ssn n y = (inr SSL_ERROR_SSL, x)) \/
  (exists ssn bs y, SSL_write ssn bs y = (inr SSL_ERROR_SSL, x)).
(** After a failure [errno] holds the [EAGAIN] of an earlier call of the system;
    its negation is [DPE_WAIT]. *)
Definition stale {E} `{Ssl E} (x : E) : Prop := failed x /\ unexpected_eof x = false /\ ssl_errno x = - DPE_WAIT.

Section Io.
Context {E : Type} `{SslOk E} `{Sys E}.

(** ** Errors *)

Definition post_code (err : Z) (x : E) : Z :=
  if err =? SSL_ERROR_SSL then
    if unexpected_eof x then DPE_EOF else if 0 <? ssl_errno x then - ssl_errno x else DPE_INTERNAL_ERROR
  else if (err =? SSL_ERROR_WANT_READ) || (err =? SSL_ERROR_WANT_WRITE) then DPE_WAIT
  else if err =? SSL_ERROR_SYSCALL then DPE_EOF else DPE_CONNRESET.
Definition wanted (err : Z) : option Z :=
  if err =? SSL_ERROR_WANT_READ then Some DPEVT_IN else if err =? SSL_ERROR_WANT_WRITE then Some DPEVT_OUT else None.
Definition post_out (err : Z) (out : dpasc_out) : dpasc_out :=
  match wanted err with Some ev => out_events ev ev out | None => out end.

Lemma wp_lib {A} (f : E -> A * E) (s : tls E) (Q : A -> tls E -> Prop) :
  Q (f (s_ext s)).1 (with_lib (s_log s) (f (s_ext s)).2 s) -> wp (lib f) s Q.
Proof. unfold wp, lib. by destruct (f (s_ext s)). Qed.
Lemma wp_tls_mem {A} (m : ST bstore A) (s : tls E) (Q : A -> tls E -> Prop) :
  wp m (s_mem s) (fun a b => Q a (with_mem b s)) -> wp (on_mem m) s Q.
Proof. unfold wp, on_mem. by destruct (m (s_mem s)) as [[]|]. Qed.
Lemma wp_on_ssl {A} (m : ST (tls E) A) w (Q : A -> world (tls E) -> Prop) :
  wp m (w_ext w) (fun a s => Q a (with_tls s w)) -> wp (on_ssl m) w Q.
Proof. unfold wp, on_ssl. by destruct (m (w_ext w)) as [[]|]. Qed.

Lemma wp_post_err err out (s : tls E) (Q : Z * dpasc_out -> tls E -> Prop) :
  Q (post_code err (s_ext s), post_out err out) s -> wp (_dpssl_post_err err out) s Q.
Proof.
  unfold _dpssl_post_err, post_code, post_out, wanted, err_or_internal. intros HQ.
  destruct (Z.eqb_spec err SSL_ERROR_SSL) as [->|].
  - apply wp_bind, wp_gets. cbn in HQ. destruct (unexpected_eof (s_ext s)); [by apply wp_ret|].
    apply wp_bind, wp_bind, wp_gets, wp_ret. by apply wp_ret.
  - destruct (err =? SSL_ERROR_WANT_READ); [by apply wp_ret|]. cbn [orb] in HQ.
    destruct (err =? SSL_ERROR_WANT_WRITE); [by apply wp_ret|]. destruct (err =? SSL_ERROR_SYSCALL); by apply wp_ret.
Qed.

(** ** The sequences of calls, apart from memory *)

(** Reading [n] bytes: what comes, what stops it early, and the state after. *)
Fixpoint ssl_reads (fuel : nat) (ssn n : Z) (x : E) : list Z * option Z * E :=
  match fuel with
  | O => ([], None, x)
  | S fuel =>
      match SSL_read ssn n x with
      | (inl bs, x) =>
          if zlen bs =? n then (bs, None, x) else
          let '(cs, stop, x) := ssl_reads fuel ssn (n - zlen bs) x in (bs ++ cs, stop, x)
      | (inr err, x) => ([], Some err, x)
      end
  end.
(** Writing [bs]: how many are taken. *)
Fixpoint ssl_writes (fuel : nat) (ssn : Z) (bs : list Z) (x : E) : Z * option Z * E :=
  match fuel with
  | O => (0, None, x)
  | S fuel =>
      match SSL_write ssn bs x with
      | (inl n, x) =>
          if n =? zlen bs then (n, None, x) else
          let '(k, stop, x) := ssl_writes fuel ssn (zdrop n bs) x in (n + k, stop, x)
      | (inr err, x) => (0, Some err, x)
      end
  end.

(** The result after [total] bytes. *)
Definition io_result (total : Z) (stop : option Z) (x : E) (out : dpasc_out) : Z * dpasc_out :=
  match stop with
  | None => (total, out)
  | Some err => (if 0 <? total then total else post_code err x, post_out err out)
  end.

(** [len] bytes at [p] in the block [l]. *)
Definition room (s : tls E) (p : ptr) (len : Z) (l : list Z) : Prop :=
  st_blks (s_mem s) !! p_blk p = Some l /\ 0 <= p_off p /\ p_off p + len <= zlen l.
Definition put_blk (p : ptr) (l : list Z) (s : tls E) : tls E := with_mem (set_blks <[p_blk p := l]> (s_mem s)) s.

Lemma room_put p len l l' s : room s p len l -> zlen l' = zlen l -> room (put_blk p l' s) p len l'.
Proof. intros (Hb & Ho & Hl) Hz. split; [apply lookup_insert_eq|]. lia. Qed.

(** The memory and the library's state after the calls. *)
Definition moved (p : ptr) (l : list Z) (x : E) (s : tls E) : tls E := with_lib (s_log s) x (put_blk p l s).

Lemma moved_twice p l l' x x' s : moved p l' x' (moved p l x s) = moved p l' x' s.
Proof. unfold moved, put_blk, with_mem, with_lib, set_blks. cbn. by rewrite insert_insert_eq. Qed.
Lemma moved_same p l x s : st_blks (s_mem s) !! p_blk p = Some l -> moved p l x s = with_lib (s_log s) x s.
Proof. intros Hl. destruct s as [? ? [] ? ? ? ?]. unfold moved, put_blk, with_mem, with_lib, set_blks. cbn in *. by rewrite insert_id. Qed.

Lemma stopped_ok total err out s :
  wp (stopped total err out) s (fun r s' => s' = s /\ r = io_result total (Some err) (s_ext s) out).
Proof. unfold stopped. apply wp_bind, wp_post_err. by apply wp_ret. Qed.

Lemma recv_loop_ok fuel ssn p len total out s l :
  room s p len l -> 0 <= total < len -> len - total < Z.of_nat fuel ->
  wp (recv_loop fuel ssn p len total out) s (fun r s' => exists bs stop x,
    ssl_reads fuel ssn (len - total) (s_ext s) = (bs, stop, x) /\ zlen bs <= len - total /\
    (stop = None -> total + zlen bs = len) /\
    s' = moved p (splice (p_off p + total) bs l) x s /\ r = io_result (total + zlen bs) stop x out).
Proof.
  revert total s l. induction fuel as [|fuel IH]; intros total s l Hroom Htot Hfuel; [lia|].
  assert (Hr := Hroom). destruct Hr as (Hb & Ho & Hl). cbn [recv_loop ssl_reads]. apply wp_bind, wp_lib.
  destruct (SSL_read ssn (len - total) (s_ext s)) as [[bs|err] x1] eqn:Hread; cbn [fst snd].
  2: { eapply wp_mono; [apply stopped_ok|]. cbv beta. intros r s' [-> ->]. exists [], (Some err), x1.
       rewrite zlen_nil, Z.add_0_r, splice_nil, (moved_same _ l) by done. split_and!; try done. lia. }
  pose proof (ssl_read_ok _ _ _ _ _ Hread) as Hbs.
  apply wp_bind, wp_tls_mem. eapply wp_store_bytes; [exact Hb|cbn; lia|cbn; lia|].
  set (l1 := splice (p_off p + total) bs l). assert (Hl1 : zlen l1 = zlen l) by (apply zlen_splice; lia).
  change (with_mem _ _) with (moved p l1 x1 s). destruct (Z.eqb_spec (zlen bs) (len - total)).
  - replace (total + zlen bs =? len) with true by lia. apply wp_ret. exists bs, None, x1. split_and!; try done; try lia.
  - replace (total + zlen bs =? len) with false by lia.
    eapply wp_mono; [apply (IH (total + zlen bs) (moved p l1 x1 s) l1); [by apply room_put with (l := l)|lia|lia]|]. cbv beta.
    intros r s' (cs & stop & x & Hcs & Hlen & Hstop & -> & ->). cbn [s_ext moved with_lib] in Hcs.
    replace (len - zlen bs - total) with (len - total - zlen bs) in * by lia.
    exists (bs ++ cs), stop, x. replace (len - total - zlen bs) with (len - (total + zlen bs)) by lia. rewrite Hcs.
    rewrite zlen_app, moved_twice. unfold l1. rewrite (Z.add_assoc (p_off p)), splice_splice, (Z.add_assoc total) by lia.
    split_and!; try done; lia.
Qed.

Lemma zdrop_slice off n k (l : list Z) : 0 <= k <= n -> 0 <= off -> zdrop k (slice off n l) = slice (off + k) (n - k) l.
Proof.
  intros. unfold slice, ztake, zdrop. rewrite skipn_firstn_comm, drop_drop. f_equal; [lia|]. f_equal. lia.
Qed.

Lemma send_loop_ok fuel ssn p len total out s l :
  room s p len l -> 0 <= total < len -> len - total < Z.of_nat fuel ->
  wp (send_loop fuel ssn p len total out) s (fun r s' => exists n stop x,
    ssl_writes fuel ssn (slice (p_off p + total) (len - total) l) (s_ext s) = (n, stop, x) /\ 0 <= n <= len - total /\
    (stop = None -> total + n = len) /\ s' = with_lib (s_log s) x s /\ r = io_result (total + n) stop x out).
Proof.
  revert total s. induction fuel as [|fuel IH]; intros total s Hroom Htot Hfuel; [lia|].
  assert (Hr := Hroom). destruct Hr as (Hb & Ho & Hl). cbn [send_loop ssl_writes].
  assert (Hz : zlen (slice (p_off p + total) (len - total) l) = len - total) by (apply zlen_slice; lia).
  apply wp_bind, wp_tls_mem. eapply wp_load_bytes; [exact Hb|cbn; lia|lia|cbn; lia|]. cbn [ptr_add p_off].
  apply wp_bind, wp_lib. change (with_mem (s_mem s) s) with (with_lib (s_log s) (s_ext s) s). cbn [s_ext s_log with_lib].
  set (bs := slice (p_off p + total) (len - total) l) in *.
  destruct (SSL_write ssn bs (s_ext s)) as [[n|err] x1] eqn:Hwrite; cbn [fst snd].
  2: { eapply wp_mono; [apply stopped_ok|]. cbv beta. intros r s' [-> ->]. exists 0, (Some err), x1.
       rewrite Z.add_0_r. split_and!; try done; lia. }
  pose proof (ssl_write_ok _ _ _ _ _ Hwrite) as Hn. rewrite Hz in *.
  change (with_lib (s_log s) x1 (with_lib (s_log s) (s_ext s) s)) with (with_lib (s_log s) x1 s).
  destruct (Z.eqb_spec n (len - total)).
  - replace (total + n =? len) with true by lia. apply wp_ret. exists n, None, x1. split_and!; try done; lia.
  - replace (total + n =? len) with false by lia.
    eapply wp_mono; [apply (IH (total + n) (with_lib (s_log s) x1 s)); [done|lia|lia]|]. cbv beta.
    intros r s' (k & stop & x & Hk & Hlen & Hstop & -> & ->). cbn [s_ext with_lib] in Hk.
    exists (n + k), stop, x. unfold bs. rewrite zdrop_slice by lia.
    replace (p_off p + total + n) with (p_off p + (total + n)) by lia.
    replace (len - total - n) with (len - (total + n)) by lia. rewrite Hk, Z.add_assoc. split_and!; try done; lia.
Qed.

(** ** The contract *)

(** Where an error comes from. *)
Definition err_ok (err : Z) (x : E) : Prop := err = SSL_ERROR_SSL -> failed x.

Lemma ssl_reads_stop fuel ssn n x bs err x' : ssl_reads fuel ssn n x = (bs, Some err, x') -> err_ok err x'.
Proof.
  revert n x bs. induction fuel as [|fuel IH]; intros n x bs; cbn; [done|].
  destruct (SSL_read ssn n x) as [[cs|e] y] eqn:Hr; [|intros [= <- <- <-] ->; right; right; left; eauto].
  destruct (_ =? _); [done|]. destruct (ssl_reads fuel ssn (n - zlen cs) y) as [[? ?] ?] eqn:Hs.
  intros [= _ -> ->]. by eapply IH.
Qed.
Lemma ssl_writes_stop fuel ssn bs x n err x' : ssl_writes fuel ssn bs x = (n, Some err, x') -> err_ok err x'.
Proof.
  revert bs x n. induction fuel as [|fuel IH]; intros bs x n; cbn; [done|].
  destruct (SSL_write ssn bs x) as [[k|e] y] eqn:Hr; [|intros [= <- <- <-] ->; do 3 right; eauto].
  destruct (_ =? _); [done|]. destruct (ssl_writes fuel ssn (zdrop k bs) y) as [[? ?] ?] eqn:Hs.
  intros [= _ -> ->]. by eapply IH.
Qed.

Definition ssn_at (x : loc) (s : tls E) : Prop := exists u ssn r, s_udata s !! x = Some (Udata u (Some ssn) r).
(** The arguments in the scratch memory, and the memory they lead to. *)
Definition io_inv (x : loc) (e : dpele) (want : Z) (data : bool) (s : tls E) : Prop :=
  data = true /\ ssn_at x s /\ exists cap ws buf len p l, e_scratch e = Some (cap, ws) /\ znth ws 0 = Some buf /\
    znth ws 1 = Some len /\ 0 < len /\ s_addr s !! buf = Some (AMem p) /\ room s p len l.
Definition ssn_inv (x : loc) (e : dpele) (want : Z) (data : bool) (s : tls E) : Prop := ssn_at x s.

(** What a call that asks to wait has done: it waits for the event OpenSSL asks for
    and gives it up; or it failed, with a stale [errno], and changed nothing. *)
Definition waits_as_asked (x : E) (out : dpasc_out) (r : Z * dpasc_out) : Prop :=
  r.1 = DPE_WAIT ->
    (exists ev, (ev = DPEVT_IN \/ ev = DPEVT_OUT) /\ r.2 = out_events ev ev out) \/ r.2 = out /\ stale x.

Lemma post_waits err x out : err_ok err x -> waits_as_asked x out (post_code err x, post_out err out).
Proof.
  intros Hx. unfold waits_as_asked, post_code, post_out, wanted. cbn [fst snd].
  destruct (Z.eqb_spec err SSL_ERROR_SSL) as [->|].
  { destruct (unexpected_eof x) eqn:Heof; [done|]. destruct (Z.ltb_spec 0 (ssl_errno x)); [|done].
    intros Hr. right. split; [done|]. split_and!; [by apply Hx|done|lia]. }
  destruct (err =? SSL_ERROR_WANT_READ); [intros _; left; eauto|]. cbn [orb].
  destruct (err =? SSL_ERROR_WANT_WRITE); [intros _; left; eauto|]. by destruct (err =? SSL_ERROR_SYSCALL).
Qed.

Lemma io_result_waits total stop x out :
  0 <= total -> (stop = None -> 0 < total) -> (forall err, stop = Some err -> err_ok err x) ->
  waits_as_asked x out (io_result total stop x out).
Proof.
  intros Ht Hs He. destruct stop as [err|]; cbn.
  - destruct (Z.ltb_spec 0 total); [|by apply post_waits, He]. unfold waits_as_asked, DPE_WAIT. cbn. lia.
  - specialize (Hs eq_refl). unfold waits_as_asked, DPE_WAIT. cbn. lia.
Qed.

(** A [post] that leaves the elements alone, keeps its invariant and waits as asked. *)
Definition tls_post (post : loc -> dpasc_out -> ST (world (tls E)) (Z * dpasc_out))
    (I : loc -> dpele -> Z -> bool -> tls E -> Prop) : Prop :=
  forall x out w e, w_eles w !! x = Some e -> I x (strip e) (o_want out) (o_data out) (w_ext w) ->
    wp (post x out) w (fun r w' => w_eles w' = w_eles w /\ waits_as_asked (s_ext (w_ext w')) out r /\
      (r.1 = DPE_WAIT -> I x (strip e) (o_want r.2) (o_data r.2) (w_ext w'))).

Lemma tls_post_ok post I : tls_post post I -> (forall x : E, ~ stale x) -> PostOk post I (fun _ _ => 0%nat).
Proof using Type.
  intros Hp Hns x out w e Hx _ _ _ _ HI. eapply wp_mono; [by apply (Hp x out w e)|]. cbv beta.
  intros r w' (He & Hf & Hi). exists e. rewrite He. split_and!; [done..|]. intros Hr.
  specialize (Hi Hr). destruct (Hf Hr) as [(ev & Hev & Hout)|[_ Hst]]; [|by destruct (Hns _ Hst)].
  rewrite Hout in *. cbn [o_want o_inva out_events] in *.
  assert (Hm : 0 < ev /\ mask5 ev = ev) by (by destruct Hev as [-> | ->]). destruct Hm as [Hpos ->]. split_and!; [done..|].
  destruct (decide (Z.land (e_able e) ev = 0)); [by right; right|left; split; [done|lia]].
Qed.

Lemma wp_ssn_of x s (Q : Z -> tls E -> Prop) :
  ssn_at x s -> (forall ssn, Q ssn s) -> wp (ssn_of x) s Q.
Proof using Type. intros (u & ssn & r & Hu) HQ. unfold wp, ssn_of. by rewrite Hu. Qed.

Lemma call_post_ok (f : Z -> E -> (unit + Z) * E) :
  (forall ssn x err x', f ssn x = (inr err, x') -> err_ok err x') ->
  tls_post (fun x out => on_ssl (ssn ← ssn_of x; r ← lib (f ssn); post_res r out)) ssn_inv.
Proof.
  intros Hf x out w e Hx HI. apply wp_on_ssl, wp_bind. apply wp_ssn_of; [done|]. intros ssn.
  apply wp_bind, wp_lib. destruct (f ssn (s_ext (w_ext w))) as [[u|err] x'] eqn:Hc; cbn [fst snd post_res].
  - apply wp_ret. done.
  - apply wp_post_err. cbn [s_ext with_lib]. split_and!; [done|by eapply post_waits, Hf|]. by intros _.
Qed.

Lemma wp_io_arg x out w e cap ws buf len (Q : Z * Z -> world (tls E) -> Prop) :
  w_eles w !! x = Some e -> o_data out = true -> e_scratch e = Some (cap, ws) -> znth ws 0 = Some buf ->
  znth ws 1 = Some len -> Q (buf, len) w -> wp (io_arg x out) w Q.
Proof using Type.
  intros Hx Hd Hs Hb0 Hb1 HQ. unfold io_arg, data_words. apply wp_bind, wp_bind. eapply wp_get_ele; [done|].
  rewrite Hd, Hs. apply wp_ret. cbn [snd]. rewrite Hb0, Hb1. apply wp_bind, (wp_ret buf), wp_bind, (wp_ret len). by apply wp_ret.
Qed.

(** Receiving and sending, the moves apart: [post] leaves the session, the addresses
    and the room, and ends in an [io_result]. *)
Lemma io_post_ok (go : Z -> ptr -> Z -> dpasc_out -> ST (tls E) (Z * dpasc_out)) :
  (forall ssn p len out s l, room s p len l -> 0 < len ->
     wp (go ssn p len out) s (fun r s' => exists total stop x l', r = io_result total stop x out /\ 0 <= total /\
       (stop = None -> 0 < total) /\ (forall err, stop = Some err -> err_ok err x) /\ s_ext s' = x /\
       s_udata s' = s_udata s /\ s_addr s' = s_addr s /\ room s' p len l')) ->
  tls_post (fun x out => io ← io_arg x out; on_ssl (ssn ← ssn_of x; p ← mem_at io.1; go ssn p io.2 out))
    io_inv.
Proof.
  intros Hgo x out w e Hx (Hd & Hssn & cap & ws & buf & len & p & l & Hs & Hb0 & Hb1 & Hlen & Ha & Hr).
  apply wp_bind. eapply wp_io_arg; [exact Hx|exact Hd|exact Hs|exact Hb0|exact Hb1|]. cbn [fst snd].
  apply wp_on_ssl, wp_bind. apply wp_ssn_of; [done|]. intros ssn. apply wp_bind.
  unfold wp at 1, mem_at. rewrite Ha. eapply wp_mono; [by apply (Hgo ssn p len out _ l)|]. cbv beta.
  intros r s' (total & stop & y & l' & -> & Ht & Hst & Hno & Hy & Hu & Had & Hr'). split; [done|].
  split; [cbn [w_ext with_tls]; rewrite Hy; by apply io_result_waits|]. intros _. cbn [w_ext with_tls]. split.
  - destruct stop as [err|]; [|done]. cbn. unfold post_out. by destruct (wanted err).
  - split; [unfold ssn_at; by rewrite Hu|]. exists cap, ws, buf, len, p, l'. by rewrite Had.
Qed.

End Io.

(** ** A library that answers

    [x] bytes are there to be read; below 0 the protocol fails, and [errno] is what
    the last call of the system left. *)
Definition ex_ssl (errno : Z) : Ssl Z := {|
  SSL_CTX_new _ x := (Some 7, x);
  SSL_CTX_set_min_proto_version _ _ x := x;
  SSL_CTX_set_max_proto_version _ _ x := x;
  SSL_CTX_get_min_proto_version _ _ := 0x0303;
  SSL_CTX_get_max_proto_version _ _ := 0x0304;
  SSL_CTX_set_default_verify_paths _ x := (true, x);
  SSL_CTX_use_certificate_file _ _ x := (1, x);
  SSL_CTX_use_PrivateKey_file _ _ x := (1, x);
  SSL_CTX_check_private_key _ x := (1, x);
  SSL_CTX_free _ x := x;
  SSL_new _ x := (Some 8, x);
  SSL_free _ x := x;
  BIO_new_socket _ x := (Some 9, x);
  SSL_set_bio _ _ x := x;
  SSL_set_connect_state _ x := x;
  SSL_set_accept_state _ x := x;
  SSL_set_tlsext_host_name _ _ x := x;
  SSL_set_alpn_protos _ _ x := x;
  SSL_set_SSL_CTX _ _ x := x;
  SSL_select_next_proto inp _ := Some inp;
  SSL_is_init_finished _ _ := true;
  SSL_do_handshake _ x := (inr (if x <? 0 then SSL_ERROR_SSL else SSL_ERROR_WANT_WRITE), x);
  SSL_shutdown _ x := (inr (if x <? 0 then SSL_ERROR_SSL else SSL_ERROR_WANT_WRITE), x);
  SSL_read _ n x :=
    if (0 <? x) && (0 <? n) then (inl [x mod 256], x - 1)
    else (inr (if x <? 0 then SSL_ERROR_SSL else SSL_ERROR_WANT_READ), x);
  SSL_write _ bs x :=
    if (0 <? x) && (0 <? zlen bs) then (inl 1, x - 1)
    else (inr (if x <? 0 then SSL_ERROR_SSL else SSL_ERROR_WANT_WRITE), x);
  unexpected_eof _ := false;
  ssl_errno _ := errno;
|}.

Lemma ex_ssl_ok errno : SslOk Z (H := ex_ssl errno).
Proof.
  split; cbn.
  - intros _ n x bs x'. destruct (Z.ltb_spec 0 x), (Z.ltb_spec 0 n); cbn; try done. intros [= <- <-]. unfold zlen. cbn [length]. lia.
  - intros _ bs x n x'. destruct (Z.ltb_spec 0 x), (Z.ltb_spec 0 (zlen bs)); cbn; try done. intros [= <- <-]. lia.
Qed.

