(* ===== verification/DpsslCases.v ===== *)
(** * TLS: cases

    What [dpssl.c] does where the error code, the owner of a callback's argument or
    the owner of a descriptor matters. *)

From S2P Require Import Prelude Chars Dpret Dpbuf Ele Tmrset World WorldLogic Evp EfdFacts Dpssl DpsslIo DpsslFacts.

Section Cases.
#[local] Instance stale_ssl : Ssl Z := ex_ssl 11.

(** Two groups' worth of memory, no group yet. *)
Definition ex_mem : bstore := BStore ∅ ∅ ∅ 100 [] (fun _ => 0).
Definition ex_tls (x : Z) : tls Z := Tls ∅ [] ex_mem ∅ ∅ [] x.

(** ** A stale [errno] *)

Definition tls_asc : Z := 7.
Definition tls_program : program (tls Z) :=
  with_ssl (Program (fun n => if n =? tls_asc then Some dpssl_handshake else None) (fun _ => None) (fun _ => None) (fun _ => None)).
(** A session [1] over the descriptor [2], in the middle of a handshake. *)
Definition ex_ssn : dpele := set_asc (set_want (set_able (zero_ele dpssl_client_type) DPEVT_IN) DPEVT_IN) (Some tls_asc).
Definition ex_tls_world (x : Z) : world (tls Z) :=
  World (<[1%positive := ex_ssn]> ∅) 9 [] [] (<[1 := ex_node 1]> (<[0 := ex_node 0]> ∅)) (EvpSet 2 2 [[0]; [1]] [1; 1]) (Some 1)
    (with_udata <[1%positive := Udata (Some 2%positive) (Some 8) DPROLE_CLIENT]> (ex_tls x)).

(** When the protocol fails and [errno] still holds the [EAGAIN] of an earlier read,
    [_dpssl_post_err] returns its negation, which is [DPE_WAIT], with no event given
    up: a thousand turns of the loop of [_dpefd_wake] do not end it. *)
Example stale_errno_waits :
  (fun r => r.1.1) <$> _dpssl_handshake_post 1 (Out DPEVT_IN 0 DPEVT_IN false) (ex_tls_world (-1)) = Some DPE_WAIT /\
  _dpefd_wake tls_program 1000 1 (Out DPEVT_IN 0 DPEVT_IN false) (ex_tls_world (-1)) = None.
Proof. split; vm_compute; reflexivity. Qed.

(** ** A group deleted under its contexts *)

(** The session taken from the group's context outlives it; the callback that the
    library then calls for that session gets the freed group. *)
Definition deleted_group : ST (tls Z) (Z * Z * option Z) :=
  a ← dpssl_add (Some (chr "srv")) DPROLE_SERVER 0x0303 0x0304;
  ssn ← ssn_new 7;
  b ← dpssl_del (Some (chr "srv"));
  mret (a, b, ssn).
Example dpssl_del_leaves_callback :
  exists s, deleted_group (ex_tls 0) = Some ((DPE_OK, DPE_OK, Some 8), s) /\
    s_log s = [CtxNew 7; CtxAlpn 7 100; CtxSni 7 100; SsnNew 7 8; CtxFree 7] /\
    _dpssl_alpn_select [2; 104; 50] 100 s = None /\ _dpssl_sni_select 8 None 100 s = None.
Proof. eexists. split; [vm_compute; reflexivity|]. split_and!; vm_compute; reflexivity. Qed.

(** ** A range of versions *)

(** The bounds are tested one by one: a range that holds the group's is refused. *)
Definition wide_range : ST (tls Z) Z :=
  _ ← dpssl_add (Some (chr "c")) DPROLE_CLIENT 0x0303 0x0304;
  dpssl_has_version (Some (chr "c")) 0x0301 0x0304.
Example dpssl_has_version_wider : fst <$> wide_range (ex_tls 0) = Some DPE_NOTEXISTS.
Proof. vm_compute. reflexivity. Qed.

(** ** The same group again *)

(** The role of a group that exists is not looked at. *)
Definition other_role : ST (tls Z) (Z * Z) :=
  _ ← dpssl_add (Some (chr "c")) DPROLE_CLIENT 0x0303 0x0304;
  r ← dpssl_add (Some (chr "c")) DPROLE_SERVER 0x0303 0x0304;
  role ← dpssl_role (Some (chr "c"));
  mret (r, role).
Example dpssl_add_keeps_role : fst <$> other_role (ex_tls 0) = Some (DPE_OK, DPROLE_CLIENT).
Proof. vm_compute. reflexivity. Qed.

(** ** A session that cannot be watched *)

(** A system on which a descriptor cannot be watched. *)
#[local] Instance full_sys : Sys Z := {|
  millis t := (t, t);
  epoll_create t := (3, t);
  epoll_add _ _ _ _ t := (-28, t);
  epoll_mod _ _ _ _ t := (-28, t);
  epoll_del _ _ t := (0, t);
  epoll_wait _ _ t := ([], t);
  fcntl_getfl _ t := (0, t);
  fcntl_setfl _ _ t := (0, t);
  sys_close _ t := (0, t);
  sys_dup fd t := (fd + 1, t);
|}.

(** The caller keeps the descriptor's element when [dpele_new] gives no session; by
    then the session's [fini] has deleted it. *)
Definition watch_fails : ST (world (tls Z)) (option loc) :=
  _ ← on_ssl (dpssl_add (Some (chr "c")) DPROLE_CLIENT 0x0303 0x0304);
  on_ssl (modify (fun s => Tls (s_groups s) (s_mgr s) (s_mem s) (s_udata s) (<[50 := AStr (chr "c")]> (s_addr s)) (s_log s) (s_ext s)));;
  dpele_new tls_program (Some dpssl_client_type) [2; 50; 0].
Definition ex_tcp_world : world (tls Z) :=
  World (<[2%positive := set_fd (set_refc (zero_ele dpefd_init_type) 1) 6]> ∅) 9 [] []
    (<[1 := ex_node 1]> (<[0 := ex_node 0]> ∅)) (EvpSet 2 2 [[0]; [1]] [1; 1]) (Some 1) (ex_tls 0).
Example failed_watch_deletes_descriptor :
  exists w, watch_fails ex_tcp_world = Some (None, w) /\ w_eles w !! 2%positive = None /\ s_log (w_ext w) = [CtxNew 7; SsnNew 7 8; SsnFree 8].
Proof. eexists. split; [vm_compute; reflexivity|]. split; vm_compute; reflexivity. Qed.
End Cases.
