(* ===== verification/Hdrset.v ===== *)
(** * HTTP/3 header sets ([lib/dpapp/dpqic.c])

    A header set is an array of [lsxpack_header], each with a buffer of its own that
    holds the name and the value as C strings; the slots past [headers.count] keep
    the buffers of removed headers.  The functions of [lsxpack_header.h] are the
    class [Lsxpack].  An array is the list of its elements; names and values passed
    in are their bytes. *)

From S2P Require Import Prelude Dpret Dpbuf.

#[local] Set Default Proof Using "Type*".

(** ** Data *)

(** The members that the code uses. *)
Record lsxpack_header := Lsx {
  buf : option ptr;
  name_offset : Z;
  name_len : Z;
  val_offset : Z;
  val_len : Z;
}.
Definition zero_header : lsxpack_header := Lsx None 0 0 0 0.
Definition with_buf (h : lsxpack_header) (p : option ptr) : lsxpack_header :=
  Lsx p (name_offset h) (name_len h) (val_offset h) (val_len h).
Definition with_value (h : lsxpack_header) (off len : Z) : lsxpack_header :=
  Lsx (buf h) (name_offset h) (name_len h) off len.

Class Lsxpack := {
  lsxpack_header_set_offset2 : lsxpack_header -> ptr -> Z -> Z -> Z -> Z -> lsxpack_header;
  lsxpack_header_prepare_decode : lsxpack_header -> ptr -> Z -> Z -> lsxpack_header;
  lsxpack_header_get_name : lsxpack_header -> option ptr;
  lsxpack_header_get_value : lsxpack_header -> option ptr;
}.

(** [real_count] elements, or none at [NULL]. *)
Record dpqic_hdrset := Hset { headers : list lsxpack_header; count : Z; real_count : Z }.

Record qmem := Qmem { q_mem : bstore; q_sets : gmap loc dpqic_hdrset; q_errno : Z }.

Section Hdrset.
Context `{Lsxpack}.

Abbreviation HM := (ST qmem).

Definition with_sets (f : gmap loc dpqic_hdrset -> gmap loc dpqic_hdrset) (s : qmem) : qmem :=
  Qmem (q_mem s) (f (q_sets s)) (q_errno s).
Definition with_qmem (m : bstore) (s : qmem) : qmem := Qmem m (q_sets s) (q_errno s).

Definition mem {A} (m : ST bstore A) : HM A := fun s => (fun r => (r.1, with_qmem r.2 s)) <$> m (q_mem s).
Definition get_set (p : loc) : HM dpqic_hdrset := fun s => (fun h => (h, s)) <$> q_sets s !! p.
Definition put_set (p : loc) (h : dpqic_hdrset) : HM unit := _ ← get_set p; modify (with_sets <[p := h]>).
Definition set_errno (e : Z) : HM unit := modify (fun s => Qmem (q_mem s) (q_sets s) e).

(** [realloc] of what may be [NULL]. *)
Definition realloc_opt (p : option ptr) (n : Z) : ST bstore (option ptr) :=
  match p with Some p => realloc_blk p n | None => malloc_blk n end.

(** The C string at an address. *)
Definition cstr_at (p : ptr) : ST bstore (list Z) := n ← strlen_at p; load_bytes p n.

Definition to_lower (c : Z) : Z := if (65 <=? c) && (c <=? 90) then c + 32 else c.
(** [strcasecmp(a, b) == 0] *)
Definition same_name (a b : list Z) : bool := bool_decide (map to_lower a = map to_lower b).

Definition set_count (h : dpqic_hdrset) (n : Z) : dpqic_hdrset := Hset (headers h) n (real_count h).
Definition set_header (h : dpqic_hdrset) (i : Z) (x : lsxpack_header) : dpqic_hdrset :=
  Hset (<[Z.to_nat i := x]> (headers h)) (count h) (real_count h).
(** [headers.headers[i]]; past the array is undefined. *)
Definition header_at (h : dpqic_hdrset) (i : Z) : HM lsxpack_header := lift_opt (znth (headers h) i).

(** ** Looking *)

(** The first of [n] headers from [i] with the name; a header without a name is
    passed over, or compared, which is undefined. *)
Fixpoint find_header (n : nat) (skip : bool) (h : dpqic_hdrset) (i : Z) (name : list Z) : HM (option Z) :=
  match n with
  | O => mret None
  | S n =>
      x ← header_at h i;
      match lsxpack_header_get_name x with
      | Some p =>
          s ← mem (cstr_at p);
          if same_name s name then mret (Some i) else find_header n skip h (i + 1) name
      | None => if skip then find_header n skip h (i + 1) name else ub
      end
  end.

Definition dpqic_hdrset_get (hdrset : option loc) (name : option (list Z)) : HM (option ptr) :=
  match hdrset, name with
  | Some p, Some ((_ :: _) as name) =>
      h ← get_set p;
      i ← find_header (Z.to_nat (count h)) true h 0 name;
      match i with
      | Some i => x ← header_at h i; mret (lsxpack_header_get_value x)
      | None => mret None
      end
  | _, _ => mret None
  end.

Definition dpqic_hdrset_count (hdrset : option loc) : HM Z :=
  match hdrset with None => mret DPE_INVAL | Some p => h ← get_set p; mret (count h) end.

(** The value and the name. *)
Definition dpqic_hdrset_at (hdrset : option loc) (index : Z) : HM (option (option ptr * option ptr)) :=
  match hdrset with
  | None => mret None
  | Some p =>
      h ← get_set p;
      if (index <? 0) || (count h <=? index) then mret None else
      x ← header_at h index;
      mret (Some (lsxpack_header_get_value x, lsxpack_header_get_name x))
  end.

(** ** Making and changing *)

(** [sizeof(struct lsxpack_header)], for the allocator. *)
Definition LSX_SIZE : Z := 48.

Definition dpqic_hdrset_new (pre_size : Z) : HM (option loc) :=
  let pre_size := if pre_size <=? 0 then 2 else pre_size in
  ok ← mem (malloc_ok 24);
  if negb ok then set_errno DPE_NOMEM;; mret None else
  ok ← mem (malloc_ok (pre_size * LSX_SIZE));
  if negb ok then set_errno DPE_NOMEM;; mret None else
  p ← mem fresh_loc;
  modify (with_sets <[p := Hset (replicate (Z.to_nat pre_size) zero_header) 0 pre_size]>);;
  mret (Some p).

(** Two more slots, if the allocator has them. *)
Definition grow_headers (p : loc) : HM bool :=
  h ← get_set p;
  if real_count h <=? count h then
    let n := real_count h + 2 in
    ok ← mem (malloc_ok (LSX_SIZE * n));
    if negb ok then mret false else
    put_set p (Hset (headers h ++ replicate 2 zero_header) (count h) n);;
    mret true
  else mret true.

(** The index of the slot at [count], its buffer ready for the lengths. *)
Definition dpqic_hdrset_add (p : loc) (nlen vlen : Z) : HM (option Z) :=
  ok ← grow_headers p;
  if negb ok then mret None else
  h ← get_set p;
  x ← header_at h (count h);
  b ← mem (realloc_opt (buf x) (nlen + vlen + 2));
  match b with
  | None => mret None
  | Some b =>
      mem (memset b 0 (nlen + vlen + 2));;
      put_set p (set_header h (count h) (lsxpack_header_set_offset2 x b 0 nlen (nlen + 1) vlen));;
      mret (Some (count h))
  end.

(** A new value for the header [i]. *)
Definition reset_value (p : loc) (i : Z) (value : list Z) : HM Z :=
  h ← get_set p;
  x ← header_at h i;
  let vlen := to_i32 (zlen value) in
  let nlen := name_len x in
  b ← mem (realloc_opt (buf x) (vlen + nlen + 2));
  match b with
  | None => mret DPE_NOMEM
  | Some b =>
      mem (store_bytes (ptr_add b (nlen + 1)) value);;
      mem (store_bytes (ptr_add b nlen) [0]);;
      mem (store_bytes (ptr_add b (nlen + 1 + vlen)) [0]);;
      put_set p (set_header h i (lsxpack_header_set_offset2 x b 0 nlen (nlen + 1) vlen));;
      mret DPE_OK
  end.

(** The header [i] goes: the last one takes its place. *)
Definition drop_header (p : loc) (i : Z) : HM Z :=
  h ← get_set p;
  let last := count h - 1 in
  h ← (if i <? last then
         x ← header_at h i; y ← header_at h last;
         mret (set_header (set_header h i y) last x)
       else mret h);
  put_set p (set_count h (count h - 1));;
  mret DPE_OK.

Definition dpqic_hdrset_set (hdrset : option loc) (name value : option (list Z)) : HM Z :=
  match hdrset, name with
  | Some p, Some ((_ :: _) as name) =>
      h ← get_set p;
      i ← find_header (Z.to_nat (count h)) false h 0 name;
      match i, value with
      | Some i, Some value => reset_value p i value
      | Some i, None => drop_header p i
      | None, None => mret DPE_OK
      | None, Some value =>
          x ← dpqic_hdrset_add p (to_i32 (zlen name)) (to_i32 (zlen value));
          match x with
          | None => mret DPE_NOMEM
          | Some i =>
              h ← get_set p;
              put_set p (set_count h (count h + 1));;
              x ← header_at h i;
              b ← lift_opt (buf x);
              mem (store_bytes (ptr_add b (name_offset x)) name);;
              mem (store_bytes (ptr_add b (val_offset x)) value);;
              mret DPE_OK
          end
      end
  | _, _ => mret DPE_INVAL
  end.

Fixpoint free_bufs (l : list lsxpack_header) : HM unit :=
  match l with
  | [] => mret tt
  | x :: l => (match buf x with Some b => mem (free_blk b) | None => mret tt end);; free_bufs l
  end.
Definition dpqic_hdrset_del (hdrset : option loc) : HM unit :=
  match hdrset with
  | None => mret tt
  | Some p => h ← get_set p; free_bufs (headers h);; modify (with_sets (delete p))
  end.

(** ** Decoding

    lsquic asks for room, fills it and hands the header back. *)

Definition _dpqic_cb_hsi_create : HM (option loc) :=
  ok ← mem (malloc_ok 24);
  if negb ok then mret None else
  p ← mem fresh_loc; modify (with_sets <[p := Hset [] 0 0]>);; mret (Some p).

(** [hdr] is the slot that an earlier call gave. *)
Definition _dpqic_cb_hsi_predec (p : loc) (hdr : option Z) (space : Z) : HM (option Z) :=
  match hdr with
  | Some i =>
      h ← get_set p;
      x ← header_at h i;
      b ← mem (realloc_opt (buf x) (space + 2));
      match b with
      | None => mret None
      | Some b =>
          put_set p (set_header h i (with_value (with_buf x (Some b)) (val_offset x) (space + 2)));;
          mret (Some i)
      end
  | None =>
      r ← dpqic_hdrset_add p 0 (to_i32 space);
      match r with
      | None => mret None
      | Some i =>
          h ← get_set p;
          x ← header_at h i;
          b ← lift_opt (buf x);
          put_set p (set_header h i (lsxpack_header_prepare_decode x b 0 (space + 2)));;
          mret (Some i)
      end
  end.

(** Moves the bytes from [from] down to [last] up by one. *)
Fixpoint shift_up (n : nat) (b : ptr) (from : Z) : ST bstore unit :=
  match n with
  | O => mret tt
  | S n => bs ← load_bytes (ptr_add b from) 1; store_bytes (ptr_add b (from + 1)) bs;; shift_up n b (from - 1)
  end.

Definition _dpqic_cb_hsi_append (p : loc) (hdr : option Z) : HM Z :=
  match hdr with
  | None => mret 0
  | Some i =>
      h ← get_set p;
      x ← header_at h i;
      b ← lift_opt (buf x);
      mem (store_bytes (ptr_add b (val_offset x + val_len x)) [0]);;
      x ← (if val_offset x =? name_offset x + name_len x then
             mem (shift_up (Z.to_nat (val_len x + 1)) b (val_offset x + val_len x));;
             mret (with_value x (val_offset x + 1) (val_len x))
           else mret x);
      mem (store_bytes (ptr_add b (name_offset x + name_len x)) [0]);;
      put_set p (set_count (set_header h i x) (count h + 1));;
      mret 0
  end.

Definition _dpqic_cb_hsi_delete (p : option loc) : HM unit := dpqic_hdrset_del p.
End Hdrset.
