(* ===== verification/HdrsetFacts.v ===== *)
(** * Header sets refine lists of headers

    A header set behaves as a list of names and values: setting a name that is
    there changes its value in place, a new one goes to the end, removing puts the
    last one in its place, and names are compared without case.  Whatever the
    allocator answers, nothing is undefined, every header owns its buffer, and
    deleting the set leaves the memory as it was before it was made. *)

From S2P Require Import Prelude Dpret Dpbuf DpbufFacts DpbufLife DpbufCases Hdrset.

#[local] Set Default Proof Using "Type*".

(** What [lsxpack_header.h] says of its functions, for lengths of 16 bits. *)
Class LsxpackOk `{Lsxpack} : Prop := {
  set_offset2_ok : forall h p no nl vo vl, 0 <= no <= 65535 -> 0 <= nl <= 65535 -> 0 <= vo <= 65536 -> 0 <= vl <= 65535 ->
    lsxpack_header_set_offset2 h p no nl vo vl = Lsx (Some p) no nl vo vl;
  prepare_decode_ok : forall h p off n, exists nl vo vl, lsxpack_header_prepare_decode h p off n = Lsx (Some p) off nl vo vl;
  get_name_ok : forall h p, buf h = Some p -> 0 < name_len h -> lsxpack_header_get_name h = Some (ptr_add p (name_offset h));
  get_value_ok : forall h p, buf h = Some p -> 0 < val_offset h -> lsxpack_header_get_value h = Some (ptr_add p (val_offset h));
}.

(** ** The abstract list *)

Abbreviation header := (list Z * list Z)%type (only parsing).

Definition named (name : list Z) (nv : header) : Prop := map to_lower nv.1 = map to_lower name.
#[export] Instance named_dec name nv : Decision (named name nv) := decide (_ = _).
(** The first header with the name. *)
Definition find_named (l : list header) (name : list Z) : option (nat * header) := list_find (named name) l.
(** Without the element [i], the last one in its place. *)
Definition swap_remove (i : nat) (l : list header) : list header :=
  match last l with Some z => take (length l - 1) (<[i := z]> l) | None => l end.

Inductive hop :=
  | HSet (name : list Z) (value : option (list Z))
  | HGet (name : list Z)
  | HCount
  | HAt (index : Z)
  | HDecode (name value : list Z) (space : Z).
Inductive hres := RCode (r : Z) | RText (t : option (list Z)) | RPair (t : option header).

(** A decoded name and value that do not leave the two bytes their ends need. *)
Definition overfull (o : hop) : Prop :=
  match o with HDecode n v space => space < zlen n + zlen v | _ => False end.
#[export] Instance overfull_dec o : Decision (overfull o).
Proof. destruct o; cbn; apply _. Defined.

(** What each operation does to the list; only the allocator decides between two
    outcomes. *)
Definition hop_step (o : hop) (l : list header) (r : hres) (l' : list header) : Prop :=
  match o with
  | HSet n (Some v) =>
      r = RCode DPE_OK /\ l' = match find_named l n with Some (i, nv) => <[i := (nv.1, v)]> l | None => l ++ [(n, v)] end \/
      r = RCode DPE_NOMEM /\ l' = l
  | HSet n None => r = RCode DPE_OK /\ l' = match find_named l n with Some (i, _) => swap_remove i l | None => l end
  | HGet n => r = RText ((fun f => f.2.2) <$> find_named l n) /\ l' = l
  | HCount => r = RCode (zlen l) /\ l' = l
  | HAt i => r = RPair (znth l i) /\ l' = l
  | HDecode n v space => zlen n + zlen v <= space /\ r = RCode 0 /\ l' = l ++ [(n, v)] \/ r = RCode (-1) /\ l' = l
  end.

Definition text_ok (t : list Z) : Prop := 0 ∉ t /\ zlen t <= 65535.
Definition header_ok (nv : header) : Prop := nv.1 <> [] /\ text_ok nv.1 /\ text_ok nv.2.
(** What the caller and the decoder owe: C strings of at most 65535 bytes, names
    that are not empty, and a decoder that stays in the [space + 2] bytes it is
    told of. *)
Definition hop_ok (o : hop) : Prop :=
  match o with
  | HSet n v => header_ok (n, default [] v)
  | HGet n => n <> []
  | HCount | HAt _ => True
  | HDecode n v space => header_ok (n, v) /\ zlen n + zlen v <= space + 2 /\ 0 <= space <= 65535
  end.

Inductive hops_run : list header -> list hop -> list hres -> list header -> Prop :=
  | hrun_nil l : hops_run l [] [] l
  | hrun_cons l o r l1 os rs l2 :
      hop_step o l r l1 -> hops_run l1 os rs l2 -> hops_run l (o :: os) (r :: rs) l2.

(** ** The calls *)

Section Runs.
Context `{Lsxpack}.

(** A decoder that wrote the name and the value side by side. *)
Definition decoded (p : loc) (i : Z) (n v : list Z) : ST qmem unit :=
  h ← get_set p;
  x ← header_at h i;
  b ← lift_opt (buf x);
  mem (store_bytes (ptr_add b (name_offset x)) (n ++ v));;
  put_set p (set_header h i (Lsx (buf x) (name_offset x) (zlen n) (name_offset x + zlen n) (zlen v))).

Definition run_hop (p : loc) (o : hop) : ST qmem hres :=
  match o with
  | HSet n v => r ← dpqic_hdrset_set (Some p) (Some n) v; mret (RCode r)
  | HGet n =>
      q ← dpqic_hdrset_get (Some p) (Some n);
      match q with None => mret (RText None) | Some q => t ← mem (cstr_at q); mret (RText (Some t)) end
  | HCount => r ← dpqic_hdrset_count (Some p); mret (RCode r)
  | HAt i =>
      q ← dpqic_hdrset_at (Some p) i;
      match q with
      | Some (Some v, Some n) => v ← mem (cstr_at v); n ← mem (cstr_at n); mret (RPair (Some (n, v)))
      | Some _ => ub
      | None => mret (RPair None)
      end
  | HDecode n v space =>
      i ← _dpqic_cb_hsi_predec p None space;
      match i with
      | Some i => decoded p i n v;; r ← _dpqic_cb_hsi_append p (Some i); mret (RCode r)
      | None => mret (RCode (-1))
      end
  end.

Fixpoint run_hops (p : loc) (os : list hop) : ST qmem (list hres) :=
  match os with
  | [] => mret []
  | o :: os => r ← run_hop p o; rs ← run_hops p os; mret (r :: rs)
  end.
End Runs.

(** ** Bytes *)

Lemma ztake_len_app {A} (l k : list A) : ztake (zlen l) (l ++ k) = l.
Proof. unfold ztake, zlen. apply take_app_length'. lia. Qed.
Lemma zdrop_len_app {A} (l k : list A) : zdrop (zlen l) (l ++ k) = k.
Proof. unfold zdrop, zlen. apply drop_app_length'. lia. Qed.

Lemma splice_mid {A} off (b l1 l2 l3 : list A) :
  zlen l1 = off -> zlen b = zlen l2 -> splice off b (l1 ++ l2 ++ l3) = l1 ++ b ++ l3.
Proof.
  intros <- Hb. unfold splice. rewrite ztake_len_app, Hb, <- zlen_app. by rewrite (app_assoc l1 l2 l3), zdrop_len_app.
Qed.

Lemma slice_mid {A} off n (l1 l2 l3 : list A) : zlen l1 = off -> zlen l2 = n -> slice off n (l1 ++ l2 ++ l3) = l2.
Proof. intros <- <-. unfold slice. by rewrite zdrop_len_app, ztake_len_app. Qed.

Lemma split_at_len {A} (l : list A) n : 0 <= n <= zlen l -> exists l1 l2, l = l1 ++ l2 /\ zlen l1 = n.
Proof. intros Hn. exists (ztake n l), (zdrop n l). rewrite zlen_ztake, ztake_zdrop. split; [done|lia]. Qed.

Lemma zlen_1_inv {A} (l : list A) : zlen l = 1 -> exists x, l = [x].
Proof. unfold zlen. destruct l as [|x []]; cbn; intros; try lia. by exists x. Qed.

(** [m] is undefined only when [P]; what it leaves satisfies [Q]. *)
Definition wp_or {S A} (P : Prop) (m : ST S A) (s : S) (Q : A -> S -> Prop) : Prop :=
  match m s with Some (a, s') => Q a s' | None => P end.

Lemma wp_or_bind {S A B} P (m : ST S A) (f : A -> ST S B) s Q :
  wp_or P m s (fun a s' => wp_or P (f a) s' Q) -> wp_or P (m ≫= f) s Q.
Proof. unfold wp_or, mbind, ST_bind. by destruct (m s) as [[a s']|]. Qed.

Lemma wp_or_wp {S A} P (m : ST S A) s (Q : A -> S -> Prop) : wp m s Q -> wp_or P m s Q.
Proof. unfold wp_or, wp. by destruct (m s) as [[a s']|]. Qed.

Lemma wp_or_mono {S A} (P P' : Prop) (m : ST S A) s (Q Q' : A -> S -> Prop) :
  wp_or P m s Q -> (P -> P') -> (forall a s', Q a s' -> Q' a s') -> wp_or P' m s Q'.
Proof. unfold wp_or. destruct (m s) as [[a s']|]; auto. Qed.

Lemma wp_or_mem {A} P (f : ST bstore A) s (Q : A -> qmem -> Prop) :
  wp_or P f (q_mem s) (fun a m => Q a (with_qmem m s)) -> wp_or P (mem f) s Q.
Proof. unfold wp_or, mem. by destruct (f (q_mem s)) as [[a m]|]. Qed.

(** A store that does not fit its block. *)
Lemma wp_or_store_out m k off b l (Q : unit -> bstore -> Prop) :
  st_blks m !! k = Some l -> zlen l < off + zlen b -> wp_or True (store_bytes (Ptr k off) b) m Q.
Proof.
  intros Hk Hl. unfold wp_or, store_bytes, in_block. cbn. rewrite Hk.
  replace (off + zlen b <=? zlen l) with false by lia. by rewrite andb_false_r.
Qed.

(** [m] with the block [k] holding [bs]. *)
Definition put_blk (k : loc) (bs : list Z) (m : bstore) : bstore := set_blks <[k := bs]> m.
Lemma put_blk_blk k bs bs' m : put_blk k bs' (put_blk k bs m) = put_blk k bs' m.
Proof. unfold put_blk, set_blks. cbn. by rewrite insert_insert_eq. Qed.
Lemma put_blk_get k bs m : st_blks (put_blk k bs m) !! k = Some bs.
Proof. apply lookup_insert_eq. Qed.

Lemma wp_store_mid m k off b l1 l2 l3 (Q : unit -> bstore -> Prop) :
  st_blks m !! k = Some (l1 ++ l2 ++ l3) -> zlen l1 = off -> zlen b = zlen l2 ->
  Q tt (put_blk k (l1 ++ b ++ l3) m) -> wp (store_bytes (Ptr k off) b) m Q.
Proof.
  intros Hk Ho Hb HQ. pose proof (zlen_nonneg l1). pose proof (zlen_nonneg l3).
  eapply wp_store_bytes; [exact Hk|cbn; lia|cbn; rewrite !zlen_app; lia|]. cbn. by rewrite splice_mid.
Qed.

Lemma wp_cstr_at m k off t l1 l3 :
  st_blks m !! k = Some (l1 ++ t ++ 0 :: l3) -> zlen l1 = off -> 0 ∉ t ->
  wp (cstr_at (Ptr k off)) m (fun r m' => m' = m /\ r = t).
Proof.
  intros Hk <- Ht. pose proof (zlen_nonneg l1). pose proof (zlen_nonneg t). pose proof (zlen_nonneg l3).
  unfold cstr_at. apply wp_bind. unfold wp at 1, strlen_at. cbn [p_blk p_off]. rewrite Hk.
  rewrite in_block_true by (cbn; rewrite ?zlen_app, ?zlen_cons; lia).
  rewrite zdrop_len_app, c_strlen_app by done. cbn [fmap option_fmap option_map].
  eapply wp_load_bytes; [exact Hk|cbn; lia|lia|cbn; rewrite ?zlen_app, ?zlen_cons; lia|]. cbn.
  split; [done|]. change (0 :: l3) with ([0] ++ l3). by apply slice_mid.
Qed.

(** ** The buffers of an array

    Every slot that has a buffer owns its block; the others are those of [B]. *)

Record pool (B : gmap loc (list Z)) (m : bstore) (hd : list lsxpack_header) : Prop := {
  pl_own : forall i x b, hd !! i = Some x -> buf x = Some b -> p_off b = 0 /\ is_Some (st_blks m !! p_blk b) /\ B !! p_blk b = None;
  pl_inj : forall i j x y b c, hd !! i = Some x -> hd !! j = Some y -> buf x = Some b -> buf y = Some c ->
    p_blk b = p_blk c -> i = j;
  pl_frame : forall k, (forall i x b, hd !! i = Some x -> buf x = Some b -> p_blk b <> k) -> st_blks m !! k = B !! k;
  pl_fresh : forall k, is_Some (st_blks m !! k) -> (k < st_next m)%positive;
}.

(** The header holds the name and the value as C strings, one after the other. *)
Definition hdr_is (m : bstore) (x : lsxpack_header) (nv : header) : Prop :=
  exists k rest, x = Lsx (Some (Ptr k 0)) 0 (zlen nv.1) (zlen nv.1 + 1) (zlen nv.2) /\
    st_blks m !! k = Some (nv.1 ++ 0 :: nv.2 ++ 0 :: rest) /\ header_ok nv.

Record filled (B : gmap loc (list Z)) (m : bstore) (hd : list lsxpack_header) (l : list header) : Prop := {
  fl_pool : pool B m hd;
  fl_headers : forall j nv, l !! j = Some nv -> exists x, hd !! j = Some x /\ hdr_is m x nv;
}.

(** The same blocks. *)
Definition same_blks (m m' : bstore) : Prop := st_blks m' = st_blks m /\ st_next m' = st_next m.
(** The buffer of [x] moved to a new block with [bs]. *)
Definition moved_to (m : bstore) (x : lsxpack_header) (bs : list Z) (m' : bstore) : Prop :=
  st_blks m' = <[st_next m := bs]> (match buf x with Some b => delete (p_blk b) (st_blks m) | None => st_blks m end) /\
  st_next m' = Pos.succ (st_next m).

Lemma pool_next B m hd : pool B m hd -> st_blks m !! st_next m = None /\ B !! st_next m = None.
Proof.
  intros H. assert (Hn : st_blks m !! st_next m = None).
  { destruct (st_blks m !! st_next m) eqn:E; [|done]. specialize (pl_fresh _ _ _ H _ (mk_is_Some _ _ E)). lia. }
  split; [done|]. rewrite <- Hn. symmetry. apply (pl_frame _ _ _ H). intros i x b Hi Hb E.
  destruct (pl_own _ _ _ H _ _ _ Hi Hb) as (_ & [? Hs] & _). rewrite E in Hs. congruence.
Qed.

Lemma moved_other m x bs m' k :
  moved_to m x bs m' -> k <> st_next m -> p_blk <$> buf x <> Some k -> st_blks m' !! k = st_blks m !! k.
Proof.
  intros [-> _] Hk Hx. rewrite lookup_insert_ne by done. destruct (buf x) as [b|]; [|done].
  apply lookup_delete_ne. cbn in Hx. congruence.
Qed.

Lemma hdr_is_other m m' x nv : hdr_is m x nv ->
  (forall b, buf x = Some b -> st_blks m' !! p_blk b = st_blks m !! p_blk b) -> hdr_is m' x nv.
Proof. intros (k & rest & -> & Hk & Hok) Hb. exists k, rest. split_and!; [done| |done]. specialize (Hb (Ptr k 0) eq_refl). cbn in Hb. by rewrite Hb. Qed.

Lemma filled_bufs B m hd hd' l :
  filled B m hd l -> buf <$> hd' = buf <$> hd -> (forall j nv, l !! j = Some nv -> hd' !! j = hd !! j) -> filled B m hd' l.
Proof.
  intros [Hp Hh] Hbuf Hsame.
  assert (Hback : forall i x b, hd' !! i = Some x -> buf x = Some b -> exists x', hd !! i = Some x' /\ buf x' = Some b).
  { intros i x b Hi Hb. assert (E : (buf <$> hd) !! i = Some (Some b)) by (by rewrite <- Hbuf, list_lookup_fmap, Hi; cbn; rewrite Hb).
    rewrite list_lookup_fmap in E. destruct (hd !! i) as [x'|]; [|done]. exists x'. cbn in E. split; [done|congruence]. }
  assert (Hto : forall i x b, hd !! i = Some x -> buf x = Some b -> exists x', hd' !! i = Some x' /\ buf x' = Some b).
  { intros i x b Hi Hb. assert (E : (buf <$> hd') !! i = Some (Some b)) by (by rewrite Hbuf, list_lookup_fmap, Hi; cbn; rewrite Hb).
    rewrite list_lookup_fmap in E. destruct (hd' !! i) as [x'|]; [|done]. exists x'. cbn in E. split; [done|congruence]. }
  split.
  - split.
    + intros i x b Hi Hb. destruct (Hback _ _ _ Hi Hb) as (x' & ? & ?). by eapply (pl_own _ _ _ Hp).
    + intros i j x y b c Hi Hj Hb Hc. destruct (Hback _ _ _ Hi Hb) as (x' & ? & ?), (Hback _ _ _ Hj Hc) as (y' & ? & ?).
      by eapply (pl_inj _ _ _ Hp).
    + intros k Hk. apply (pl_frame _ _ _ Hp). intros i x b Hi Hb. destruct (Hto _ _ _ Hi Hb) as (x' & ? & ?). by eapply Hk.
    + apply (pl_fresh _ _ _ Hp).
  - intros j nv Hj. rewrite (Hsame _ _ Hj). by apply Hh.
Qed.

Lemma filled_same B m m' hd l : filled B m hd l -> same_blks m m' -> filled B m' hd l.
Proof.
  intros [[Ho Hi Hf Hn] Hh] [Hb Hx]. split; [split|]; rewrite ?Hb, ?Hx; try done.
  intros j nv Hj. destruct (Hh _ _ Hj) as (x & Hd & Hx'). exists x. split; [done|]. eapply hdr_is_other; [done|]. by rewrite Hb.
Qed.

(** A slot gets a new block. *)
Lemma filled_moved B m hd l i x y bs m' l' :
  filled B m hd l -> hd !! i = Some x -> moved_to m x bs m' -> buf y = Some (Ptr (st_next m) 0) ->
  (forall nv, l' !! i = Some nv -> hdr_is m' y nv) -> (forall j, j <> i -> l' !! j = l !! j) ->
  filled B m' (<[i := y]> hd) l'.
Proof.
  intros [Hp Hh] Hi Hm Hy Hnew Hold. destruct (pool_next _ _ _ Hp) as [Hn0 HB0]. destruct Hm as [Hblks Hnext].
  assert (Hlen := lookup_lt_Some _ _ _ Hi).
  assert (Hsep : forall j z b, j <> i -> hd !! j = Some z -> buf z = Some b ->
    p_blk b <> st_next m /\ p_blk <$> buf x <> Some (p_blk b)).
  { intros j z b Hne Hj Hb. split.
    - intros E. destruct (pl_own _ _ _ Hp _ _ _ Hj Hb) as (_ & [? Hs] & _). rewrite E in Hs. congruence.
    - destruct (buf x) as [c|] eqn:Hx; [|done]. cbn. intros [= E]. apply Hne. by eapply (pl_inj _ _ _ Hp). }
  assert (Hlook : forall j z, (<[i := y]> hd) !! j = Some z -> j = i /\ z = y \/ j <> i /\ hd !! j = Some z).
  { intros j z. destruct (decide (j = i)) as [->|]; [rewrite list_lookup_insert_eq by done; intros [= <-]; by left|].
    rewrite list_lookup_insert_ne by done. by right. }
  split; [split|].
  - intros j z b [[-> ->]|[Hne Hj]]%Hlook Hb.
    + rewrite Hy in Hb. injection Hb as <-. cbn. rewrite Hblks, lookup_insert_eq. by split_and!.
    + destruct (Hsep _ _ _ Hne Hj Hb). destruct (pl_own _ _ _ Hp _ _ _ Hj Hb) as (? & ? & ?).
      by rewrite (moved_other m x bs) by done.
  - intros j1 j2 z1 z2 b c [[-> ->]|[Hne1 Hj1]]%Hlook [[-> ->]|[Hne2 Hj2]]%Hlook Hb Hc E; [done| | |by eapply (pl_inj _ _ _ Hp)].
    + rewrite Hy in Hb. injection Hb as <-. destruct (Hsep _ _ _ Hne2 Hj2 Hc). by cbn in E.
    + rewrite Hy in Hc. injection Hc as <-. destruct (Hsep _ _ _ Hne1 Hj1 Hb). by cbn in E.
  - intros k Hk. assert (k <> st_next m) by (intros ->; apply (Hk i y (Ptr (st_next m) 0)); [by apply list_lookup_insert_eq|done|done]).
    rewrite Hblks, lookup_insert_ne by done.
    assert (Hrest : forall j z b, j <> i -> hd !! j = Some z -> buf z = Some b -> p_blk b <> k).
    { intros j z b Hne Hj. apply (Hk j). by rewrite list_lookup_insert_ne. }
    destruct (buf x) as [b|] eqn:Hx.
    + destruct (decide (p_blk b = k)) as [<-|]; [rewrite lookup_delete_eq; by destruct (pl_own _ _ _ Hp _ _ _ Hi Hx) as (_ & _ & ->)|].
      rewrite lookup_delete_ne by done. apply (pl_frame _ _ _ Hp). intros j z c Hj Hc.
      destruct (decide (j = i)) as [->|]; [congruence|by eapply Hrest].
    + apply (pl_frame _ _ _ Hp). intros j z c Hj Hc. destruct (decide (j = i)) as [->|]; [congruence|by eapply Hrest].
  - intros k. rewrite Hblks, Hnext. destruct (decide (k = st_next m)) as [->|]; [lia|]. rewrite lookup_insert_ne by done.
    intros Hk. enough (is_Some (st_blks m !! k)) by (specialize (pl_fresh _ _ _ Hp k H); lia).
    destruct (buf x); [|done]. destruct Hk as [? [_ ?]%lookup_delete_Some]. eauto.
  - intros j nv Hj. destruct (decide (j = i)) as [->|Hne].
    + exists y. split; [by apply list_lookup_insert_eq|by apply Hnew].
    + rewrite Hold in Hj by done. destruct (Hh _ _ Hj) as (z & Hz & Hzn). exists z. rewrite list_lookup_insert_ne by done.
      split; [done|]. eapply hdr_is_other; [done|]. intros b Hb. destruct (Hsep _ _ _ Hne Hz Hb). by apply (moved_other m x bs).
Qed.

(** The block of a slot gets other bytes. *)
Lemma filled_put B m hd l i x y k bs l' :
  filled B m hd l -> hd !! i = Some x -> buf x = Some (Ptr k 0) -> buf y = Some (Ptr k 0) ->
  (forall nv, l' !! i = Some nv -> hdr_is (put_blk k bs m) y nv) -> (forall j, j <> i -> l' !! j = l !! j) ->
  filled B (put_blk k bs m) (<[i := y]> hd) l'.
Proof.
  intros [Hp Hh] Hi Hx Hy Hnew Hold. destruct (pl_own _ _ _ Hp _ _ _ Hi Hx) as (_ & Hk & HB). cbn in Hk, HB.
  assert (Hlen := lookup_lt_Some _ _ _ Hi).
  assert (Hpool : pool B (put_blk k bs m) hd).
  { split.
    - intros j z b Hj Hb. destruct (pl_own _ _ _ Hp _ _ _ Hj Hb) as (? & ? & ?). split_and!; [done| |done]. cbn.
      rewrite lookup_insert_is_Some. destruct (decide (k = p_blk b)); [by left|by right].
    - apply (pl_inj _ _ _ Hp).
    - intros k' Hk'. cbn. rewrite lookup_insert_ne by (by apply (Hk' i x (Ptr k 0))). by apply (pl_frame _ _ _ Hp).
    - intros k'. cbn. rewrite lookup_insert_is_Some. intros [->|[_ ?]]; by apply (pl_fresh _ _ _ Hp). }
  assert (Hbufs : buf <$> <[i := y]> hd = buf <$> hd).
  { rewrite list_fmap_insert. apply list_insert_id. rewrite list_lookup_fmap, Hi. cbn. congruence. }
  split; [exact (fl_pool _ _ _ _ (filled_bufs B _ hd _ [] (Build_filled _ _ _ [] Hpool ltac:(done)) Hbufs ltac:(done)))|].
  intros j nv Hj. destruct (decide (j = i)) as [->|Hne].
  - exists y. split; [by apply list_lookup_insert_eq|by apply Hnew].
  - rewrite Hold in Hj by done. destruct (Hh _ _ Hj) as (z & Hz & Hzn). exists z. rewrite list_lookup_insert_ne by done.
    split; [done|]. eapply hdr_is_other; [done|]. intros b Hb. apply lookup_insert_ne.
    intros ->. apply Hne. by eapply (pl_inj _ _ _ Hp _ _ _ _ b (Ptr (p_blk b) 0)).
Qed.

(** New slots without a buffer. *)
Lemma filled_grow B m hd l n : filled B m hd l -> filled B m (hd ++ replicate n zero_header) l.
Proof.
  intros [Hp Hh].
  assert (Hold : forall i x b, (hd ++ replicate n zero_header) !! i = Some x -> buf x = Some b -> hd !! i = Some x).
  { intros i x b [Hi|[_ Hi]]%lookup_app_Some Hb; [done|]. apply lookup_replicate in Hi as [-> _]. done. }
  split; [split|].
  - intros i x b Hi Hb. eapply (pl_own _ _ _ Hp); [by eapply Hold|done].
  - intros i j x y b c Hi Hj Hb Hc. by eapply (pl_inj _ _ _ Hp); [by eapply Hold..| |].
  - intros k Hk. apply (pl_frame _ _ _ Hp). intros i x b Hi. apply (Hk i). by apply lookup_app_l_Some.
  - apply (pl_fresh _ _ _ Hp).
  - intros j nv Hj. destruct (Hh _ _ Hj) as (x & ? & ?). exists x. split; [by apply lookup_app_l_Some|done].
Qed.

(** Two slots change places. *)
Lemma filled_swap B m hd l l' i j x y :
  filled B m hd l -> hd !! i = Some x -> hd !! j = Some y -> i <> j ->
  (forall k, k <> i -> k <> j -> l' !! k = l !! k \/ l' !! k = None) ->
  (l' !! i = l !! j \/ l' !! i = None) -> l' !! j = None ->
  filled B m (<[j := x]> (<[i := y]> hd)) l'.
Proof.
  intros [Hp Hh] Hi Hj Hij Hl' Hli Hlj. pose (f k := if decide (k = j) then i else if decide (k = i) then j else k).
  assert (Hlook : forall k, (<[j := x]> (<[i := y]> hd)) !! k = hd !! f k).
  { intros k. unfold f. pose proof (lookup_lt_Some _ _ _ Hi). pose proof (lookup_lt_Some _ _ _ Hj).
    destruct (decide (k = j)) as [->|]; [rewrite list_lookup_insert_eq by (by rewrite length_insert); done|].
    rewrite list_lookup_insert_ne by done. destruct (decide (k = i)) as [->|]; [by rewrite list_lookup_insert_eq|].
    by rewrite list_lookup_insert_ne. }
  assert (Hinj : forall a b, f a = f b -> a = b) by (unfold f; intros a b; repeat case_decide; congruence).
  assert (Hf : forall k, f (f k) = k) by (unfold f; intros k; repeat case_decide; congruence).
  split; [split|].
  - intros k z b. rewrite Hlook. apply (pl_own _ _ _ Hp).
  - intros a b z1 z2 b1 b2. rewrite !Hlook. intros Ha Hb Hz1 Hz2 E. apply Hinj. by eapply (pl_inj _ _ _ Hp).
  - intros k Hk. apply (pl_frame _ _ _ Hp). intros a z b Ha. apply (Hk (f a)). by rewrite Hlook, Hf.
  - apply (pl_fresh _ _ _ Hp).
  - intros k nv Hk. rewrite Hlook. unfold f. destruct (decide (k = j)) as [->|]; [congruence|].
    destruct (decide (k = i)) as [->|]; [destruct Hli as [E|E]|destruct (Hl' k) as [E|E]; [done..| |]]; rewrite E in Hk; [by apply Hh|done|by apply Hh|done].
Qed.

(** Freeing the buffers, one slot after the other. *)
Lemma pool_nil B m : pool B m [] -> st_blks m = B.
Proof. intros H. apply map_eq. intros k. by apply (pl_frame _ _ _ H). Qed.

Lemma pool_tail B m m' x hd :
  pool B m (x :: hd) -> st_next m' = st_next m ->
  st_blks m' = match buf x with Some b => delete (p_blk b) (st_blks m) | None => st_blks m end -> pool B m' hd.
Proof.
  intros Hp Hn Hb.
  assert (Hne : forall i y b c, hd !! i = Some y -> buf y = Some b -> buf x = Some c -> p_blk c <> p_blk b).
  { intros i y b c Hi Hyb Hxc E. by pose proof (pl_inj _ _ _ Hp 0 (S i) x y c b eq_refl Hi Hxc Hyb E). }
  assert (Hsub : forall k, is_Some (st_blks m' !! k) -> is_Some (st_blks m !! k)).
  { intros k. rewrite Hb. destruct (buf x); [|done]. intros [? [_ ?]%lookup_delete_Some]. eauto. }
  split.
  - intros i y b Hi Hy. destruct (pl_own _ _ _ Hp (S i) y b Hi Hy) as (? & ? & ?). split_and!; [done| |done].
    rewrite Hb. destruct (buf x) as [c|] eqn:Hx; [|done]. rewrite lookup_delete_ne; [done|by eapply Hne].
  - intros i j y z b c Hi Hj Hy Hz E. by pose proof (pl_inj _ _ _ Hp (S i) (S j) y z b c Hi Hj Hy Hz E) as [= ->].
  - intros k Hk. rewrite Hb. destruct (buf x) as [c|] eqn:Hx.
    + destruct (decide (p_blk c = k)) as [<-|].
      * rewrite lookup_delete_eq. by destruct (pl_own _ _ _ Hp 0 x c eq_refl Hx) as (_ & _ & ->).
      * rewrite lookup_delete_ne by done. apply (pl_frame _ _ _ Hp). intros [|i] y b Hi Hy; [cbn in Hi; congruence|by eapply Hk].
    + apply (pl_frame _ _ _ Hp). intros [|i] y b Hi Hy; [cbn in Hi; congruence|by eapply Hk].
  - intros k Hk%Hsub. rewrite Hn. by apply (pl_fresh _ _ _ Hp).
Qed.

(** ** The operations *)

Section Facts.
Context `{LsxpackOk}.

Lemma wp_mem {A} (m : ST bstore A) s (Q : A -> qmem -> Prop) :
  wp m (q_mem s) (fun a m' => Q a (with_qmem m' s)) -> wp (mem m) s Q.
Proof using Type. unfold wp, mem. by destruct (m (q_mem s)) as [[]|]. Qed.
Lemma wp_get_set p h s (Q : dpqic_hdrset -> qmem -> Prop) : q_sets s !! p = Some h -> Q h s -> wp (get_set p) s Q.
Proof using Type. intros Hp. unfold wp, get_set. by rewrite Hp. Qed.
Lemma wp_put_set p h h' s (Q : unit -> qmem -> Prop) :
  q_sets s !! p = Some h -> Q tt (with_sets <[p := h']> s) -> wp (put_set p h') s Q.
Proof using Type. intros Hp HQ. unfold put_set. apply wp_bind. by eapply wp_get_set; [done|]. Qed.
Lemma wp_header_at h i x s (Q : lsxpack_header -> qmem -> Prop) :
  0 <= i -> headers h !! Z.to_nat i = Some x -> Q x s -> wp (header_at h i) s Q.
Proof using Type. intros Hi Hx HQ. unfold wp, header_at, lift_opt, znth. replace (i <? 0) with false by lia. by rewrite Hx. Qed.

Lemma wp_realloc_opt m x n (Q : option ptr -> bstore -> Prop) :
  (forall a, buf x = Some a -> p_off a = 0 /\ is_Some (st_blks m !! p_blk a)) -> 0 < n <= INT_MAX ->
  (forall m', same_blks m m' -> Q None m') ->
  (forall m' bs, moved_to m x bs m' -> zlen bs = n ->
     (forall a old, buf x = Some a -> st_blks m !! p_blk a = Some old -> exists fr, bs = ztake n (old ++ fr)) ->
     Q (Some (Ptr (st_next m) 0)) m') -> wp (realloc_opt (buf x) n) m Q.
Proof using Type.
  intros Hx Hn Hno Hyes. assert (Hu : to_u64 n = n) by (unfold to_u64, INT_MAX in *; apply Z.mod_small; lia).
  unfold realloc_opt. destruct (buf x) as [a|] eqn:Ha; cycle 1.
  - unfold malloc_blk. apply wp_bind, wp_malloc_ok. intros ok oom. destruct ok; [|by apply wp_ret, Hno].
    apply wp_bind, wp_fresh_loc, wp_bind, wp_modify, wp_ret. cbn. eapply Hyes; [| |done].
    + split; cbn; [by rewrite Ha|done].
    + rewrite zlen_fresh_bytes; lia.
  - destruct (Hx _ eq_refl) as [Ho [old Hold]]. unfold realloc_blk. apply wp_bind, wp_malloc_ok. intros ok oom.
    destruct ok; [|by apply wp_ret, Hno]. apply wp_bind. unfold wp at 1. cbn. rewrite Hold, Ho. cbn.
    apply wp_bind. unfold wp, fresh_loc, modify. cbn. eapply Hyes.
    + split; cbn; [by rewrite Ha|done].
    + rewrite zlen_ztake, zlen_app, Hu. pose proof (zlen_nonneg old).
      destruct (Z.leb_spec (zlen old) n); [rewrite zlen_fresh_bytes; lia|].
      pose proof (zlen_nonneg (fresh_bytes m (zlen old) (n - zlen old))). unfold fresh_bytes in *. unfold zlen in *. lia.
    + intros a' old' [= <-]. rewrite Hold. intros [= <-]. rewrite Hu. eauto.
Qed.

Definition hset_at (B : gmap loc (list Z)) (s : qmem) (p : loc) (l : list header) : Prop :=
  exists h, q_sets s !! p = Some h /\ count h = zlen l /\ zlen (headers h) = real_count h /\ count h <= real_count h /\
    filled B (q_mem s) (headers h) l.

Lemma filled_slot B m hd l i x : filled B m hd l -> hd !! i = Some x ->
  forall a, buf x = Some a -> p_off a = 0 /\ is_Some (st_blks m !! p_blk a).
Proof using Type. intros Hf Hi a Ha. by destruct (pl_own _ _ _ (fl_pool _ _ _ _ Hf) _ _ _ Hi Ha) as (? & ? & _). Qed.

(** The two strings of a header. *)
Lemma hdr_strings m x nv : hdr_is m x nv -> exists p q,
  lsxpack_header_get_name x = Some p /\ lsxpack_header_get_value x = Some q /\
  wp (cstr_at p) m (fun r m' => m' = m /\ r = nv.1) /\ wp (cstr_at q) m (fun r m' => m' = m /\ r = nv.2).
Proof.
  intros (k & rest & -> & Hk & Hne & [Hn _] & [Hv _]).
  assert (Hlen : 0 < zlen nv.1) by (destruct nv.1; [done|rewrite zlen_cons; pose proof (zlen_nonneg l); lia]).
  do 2 eexists. split_and!.
  - apply get_name_ok; [done|cbn; lia].
  - apply get_value_ok; [done|cbn; lia].
  - eapply (wp_cstr_at m k 0 nv.1 [] (nv.2 ++ 0 :: rest)); [exact Hk|done|done].
  - eapply (wp_cstr_at m k _ nv.2 (nv.1 ++ [0]) rest); [|rewrite zlen_app, zlen_one; cbn; lia|done]. by rewrite <- app_assoc.
Qed.

Lemma wp_read_str s (p : ptr) t (Q : list Z -> qmem -> Prop) :
  wp (cstr_at p) (q_mem s) (fun r m' => m' = q_mem s /\ r = t) -> Q t s -> wp (mem (cstr_at p)) s Q.
Proof using Type.
  intros Hr HQ. apply wp_mem. eapply wp_mono; [exact Hr|]. cbv beta. intros r m' [-> ->]. by destruct s.
Qed.

Lemma find_header_ok skip h s l2 l1 name (Q : option Z -> qmem -> Prop) :
  (forall j nv, (l1 ++ l2) !! j = Some nv -> exists x, headers h !! j = Some x /\ hdr_is (q_mem s) x nv) ->
  Q ((fun f => zlen l1 + Z.of_nat f.1) <$> find_named l2 name) s ->
  wp (find_header (length l2) skip h (zlen l1) name) s Q.
Proof.
  revert l1 Q. induction l2 as [|nv l2 IH]; intros l1 Q Hl HQ; [by apply wp_ret|]. cbn [length find_header].
  destruct (Hl (length l1) nv) as (x & Hx & Hnv); [by rewrite lookup_app_r, Nat.sub_diag|].
  destruct (hdr_strings _ _ _ Hnv) as (p & q & Hname & _ & Hp & _).
  apply wp_bind. eapply wp_header_at; [apply zlen_nonneg|by unfold zlen; rewrite Nat2Z.id|]. rewrite Hname.
  apply wp_bind. eapply wp_read_str; [exact Hp|]. unfold same_name. unfold find_named in *. cbn in HQ.
  unfold named in HQ at 1. case_bool_decide as Hs.
  - rewrite decide_True in HQ by done. cbn in HQ. apply wp_ret. by rewrite Z.add_0_r in HQ.
  - rewrite decide_False in HQ by done. rewrite <- zlen_one with (x := nv), <- zlen_app. apply IH; [by rewrite <- app_assoc|].
    rewrite zlen_app, zlen_one. destruct (list_find _ l2) as [[]|]; cbn in *; [|done].
    match goal with HQ : Q (Some ?a) s |- Q (Some ?b) s => by replace b with a by lia end.
Qed.

Lemma find_first h s l name skip (Q : option Z -> qmem -> Prop) B :
  filled B (q_mem s) (headers h) l -> count h = zlen l -> Q ((fun f => Z.of_nat f.1) <$> find_named l name) s ->
  wp (find_header (Z.to_nat (count h)) skip h 0 name) s Q.
Proof.
  intros Hf -> HQ. unfold zlen. rewrite Nat2Z.id. apply (find_header_ok skip h s l []); [apply (fl_headers _ _ _ _ Hf)|].
  by destruct (find_named l name) as [[]|].
Qed.

(** The other sets stay. *)
Definition only_set (p : loc) (s s' : qmem) : Prop := delete p (q_sets s') = delete p (q_sets s).
Definition hset_post {A} (B : gmap loc (list Z)) (s : qmem) (p : loc) (P : A -> list header -> Prop) (r : A) (s' : qmem) : Prop :=
  exists l', hset_at B s' p l' /\ only_set p s s' /\ P r l'.

Lemma hset_put B p h m s l :
  count h = zlen l -> zlen (headers h) = real_count h -> count h <= real_count h -> filled B m (headers h) l ->
  hset_at B (with_sets <[p := h]> (with_qmem m s)) p l.
Proof using Type. intros. exists h. split; [apply lookup_insert_eq|done]. Qed.

Lemma text_int t : text_ok t -> to_i32 (zlen t) = zlen t.
Proof using Type. intros [_ Ht]. apply to_i32_id. pose proof (zlen_nonneg t). unfold is_i32, INT_MIN, INT_MAX. lia. Qed.

Lemma hset_slot B s p l i nv : hset_at B s p l -> l !! i = Some nv -> exists h x, q_sets s !! p = Some h /\
  count h = zlen l /\ zlen (headers h) = real_count h /\ count h <= real_count h /\ filled B (q_mem s) (headers h) l /\
  headers h !! i = Some x /\ hdr_is (q_mem s) x nv.
Proof using Type.
  intros (h & Hp & Hc & Hr & Hle & Hf) Hi. destruct (fl_headers _ _ _ _ Hf _ _ Hi) as (x & Hx & Hnv).
  exists h, x. by split_and!.
Qed.

(** The bytes that [reset_value] leaves. *)
Lemma wp_write_value m k n v bs (Q : unit -> bstore -> Prop) :
  st_blks m !! k = Some (n ++ bs) -> zlen bs = zlen v + 2 -> Q tt (put_blk k (n ++ 0 :: v ++ [0]) m) ->
  wp (store_bytes (Ptr k (zlen n + 1)) v;; store_bytes (Ptr k (zlen n)) [0];; store_bytes (Ptr k (zlen n + 1 + zlen v)) [0])
    m Q.
Proof using Type.
  intros Hk Hbs HQ. pose proof (zlen_nonneg v).
  destruct (split_at_len bs 1) as (a & bs' & -> & Ha); [lia|]. rewrite zlen_app in Hbs.
  destruct (split_at_len bs' (zlen v)) as (c & d & -> & Hc); [lia|]. rewrite zlen_app in Hbs.
  apply wp_bind. eapply (wp_store_mid m k _ v (n ++ a) c d); [rewrite Hk; by rewrite <- app_assoc|rewrite zlen_app; lia|done|].
  apply wp_bind. eapply (wp_store_mid _ k _ [0] n a (v ++ d)); [rewrite put_blk_get, <- app_assoc; done|done|by rewrite zlen_one|].
  rewrite put_blk_blk. eapply (wp_store_mid _ k _ [0] (n ++ [0] ++ v) d []).
  - rewrite put_blk_get, app_nil_r. by rewrite <- !app_assoc.
  - rewrite !zlen_app, zlen_one. lia.
  - rewrite zlen_one. lia.
  - rewrite put_blk_blk, app_nil_r, <- !app_assoc. exact HQ.
Qed.

Lemma wp_mem3 (a b c : ST bstore unit) s A (k : ST qmem A) (Q : A -> qmem -> Prop) :
  wp (a;; b;; c) (q_mem s) (fun _ m' => wp k (with_qmem m' s) Q) -> wp (mem a;; mem b;; mem c;; k) s Q.
Proof using Type.
  unfold wp, mem, mbind, ST_bind. cbn. destruct (a (q_mem s)) as [[? m1]|]; [|done]. cbn.
  destruct (b m1) as [[? m2]|]; [|done]. cbn. by destruct (c m2) as [[? m3]|].
Qed.

Lemma reset_value_ok B s p l i nv v :
  hset_at B s p l -> l !! i = Some nv -> text_ok v ->
  wp (reset_value p (Z.of_nat i) v) s (hset_post B s p (fun r l' =>
    r = DPE_OK /\ l' = <[i := (nv.1, v)]> l \/ r = DPE_NOMEM /\ l' = l)).
Proof.
  intros Hs Hi Hv. destruct (hset_slot _ _ _ _ _ _ Hs Hi) as (h & x & Hp & Hc & Hr & Hle & Hf & Hx & Hnv).
  destruct Hnv as (k & rest & Hxe & Hk & Hok). destruct Hok as (Hne & Hn & Hv0). assert (Hn' := Hn). destruct Hn' as [_ Hnl].
  assert (Hv' := Hv). destruct Hv' as [_ Hvl]. pose proof (zlen_nonneg nv.1). pose proof (zlen_nonneg v).
  unfold reset_value. rewrite text_int by done. apply wp_bind. eapply wp_get_set; [exact Hp|].
  apply wp_bind. eapply wp_header_at; [lia|by rewrite Nat2Z.id|]. apply wp_bind, wp_mem.
  assert (Hlen : name_len x = zlen nv.1) by (by rewrite Hxe). rewrite Hlen.
  apply wp_realloc_opt; [by eapply filled_slot|unfold INT_MAX; lia| |].
  - intros m' Hm. apply wp_ret. exists l. split_and!; [|done|by right]. exists h. cbn. split_and!; try done. by eapply filled_same.
  - intros m' bs Hm Hbs Hpre. destruct (Hpre (Ptr k 0) _ ltac:(by rewrite Hxe) Hk) as [fr Hfr].
    assert (Hbs' : exists bs', bs = nv.1 ++ bs').
    { rewrite Hfr, <- !app_assoc, ztake_app, ztake_all by lia. eauto. }
    destruct Hbs' as [bs' ->]. rewrite zlen_app in Hbs. cbn zeta. unfold ptr_add. cbn [p_blk p_off]. rewrite !Z.add_0_l.
    apply wp_mem3. destruct Hm as [Hmb Hmn].
    apply (wp_write_value _ (st_next (q_mem s)) nv.1 v bs'); [cbn; by rewrite Hmb, lookup_insert_eq|lia|].
    rewrite set_offset2_ok by lia. apply wp_bind. eapply wp_put_set; [exact Hp|]. apply wp_ret.
    exists (<[i := (nv.1, v)]> l). split_and!; [|by unfold only_set; cbn; rewrite delete_insert_eq|by left].
    apply (hset_put B p (set_header h _ _)); cbn; [by rewrite Hc; unfold zlen; rewrite length_insert|
      by rewrite <- Hr; unfold zlen; rewrite length_insert|done|]. rewrite Nat2Z.id.
    eapply (filled_moved B (q_mem s) (headers h) l i x _ (nv.1 ++ 0 :: v ++ [0])); [done..| | | |].
    + split; cbn; [by rewrite Hmb, insert_insert_eq|done].
    + done.
    + intros nv'. rewrite list_lookup_insert_eq by (by eapply lookup_lt_Some). intros [= <-].
      exists (st_next (q_mem s)), []. split_and!; [done|apply put_blk_get|]. by split_and!.
    + intros j Hj. by rewrite list_lookup_insert_ne.
Qed.

(** ** Adding *)

Definition room_at (B : gmap loc (list Z)) (s : qmem) (p : loc) (l : list header) (k : loc) (nlen vlen : Z) : Prop :=
  exists h, q_sets s !! p = Some h /\ count h = zlen l /\ zlen (headers h) = real_count h /\ count h < real_count h /\
    filled B (q_mem s) (headers h) l /\ headers h !! length l = Some (Lsx (Some (Ptr k 0)) 0 nlen (nlen + 1) vlen) /\
    st_blks (q_mem s) !! k = Some (replicate (Z.to_nat (nlen + vlen + 2)) 0).

Lemma grow_headers_ok B s p l : hset_at B s p l ->
  wp (grow_headers p) s (fun r s' => hset_at B s' p l /\ only_set p s s' /\
    (r = true -> exists h x, q_sets s' !! p = Some h /\ count h < real_count h /\ headers h !! length l = Some x)).
Proof using Type.
  intros (h & Hp & Hc & Hr & Hle & Hf). unfold grow_headers. apply wp_bind. eapply wp_get_set; [exact Hp|].
  destruct (Z.leb_spec (real_count h) (count h)) as [Hfull|Hroom].
  - apply wp_bind, wp_mem, wp_malloc_ok. intros ok oom. set (s1 := with_qmem _ s).
    assert (Hf1 : filled B (q_mem s1) (headers h) l) by (by eapply filled_same).
    destruct ok; cbn [negb].
    + apply wp_bind. eapply wp_put_set; [exact Hp|]. apply wp_ret. split_and!; [| |intros _].
      * apply (hset_put B p _ (q_mem s1) s1); cbn; [done| |lia|by apply (filled_grow _ _ _ _ 2)].
        by rewrite zlen_app, Hr.
      * unfold only_set. cbn. by rewrite delete_insert_eq.
      * eexists _, zero_header. split; [apply lookup_insert_eq|]. cbn. split; [lia|].
        rewrite lookup_app_r, <- ?length_app by (unfold zlen in *; lia).
        replace (length l - length (headers h))%nat with 0%nat by (unfold zlen in *; lia). done.
    + apply wp_ret. split_and!; [|done|done]. exists h. by split_and!.
  - apply wp_ret. split_and!; [exists h; by split_and!|done|]. intros _.
    destruct (headers h !! length l) as [x|] eqn:Hx; [by exists h, x|].
    apply lookup_ge_None in Hx. unfold zlen in *. lia.
Qed.

Lemma add_ok B s p l nlen vlen : hset_at B s p l -> 0 <= nlen <= 65535 -> 0 <= vlen <= 65535 ->
  wp (dpqic_hdrset_add p nlen vlen) s (fun r s' => only_set p s s' /\ match r with
    | None => hset_at B s' p l
    | Some i => i = zlen l /\ exists k, room_at B s' p l k nlen vlen
    end).
Proof.
  intros Hs Hn Hv. unfold dpqic_hdrset_add. apply wp_bind. eapply wp_mono; [by eapply grow_headers_ok|]. cbv beta.
  intros ok s1 ((h & Hp & Hc & Hr & Hle & Hf) & Ho & Hroom). destruct ok; cbn [negb]; cycle 1.
  { apply wp_ret. split; [done|]. exists h. by split_and!. }
  destruct (Hroom eq_refl) as (h' & x & Hp' & Hlt & Hx). assert (h' = h) as -> by congruence. clear Hp' Hroom.
  apply wp_bind. eapply wp_get_set; [exact Hp|]. rewrite Hc. apply wp_bind.
  eapply wp_header_at; [apply zlen_nonneg|unfold zlen; rewrite Nat2Z.id; exact Hx|]. apply wp_bind, wp_mem.
  apply wp_realloc_opt; [by eapply filled_slot|unfold INT_MAX; lia| |].
  - intros m' Hm. apply wp_ret. split; [done|]. exists h. cbn. split_and!; try done. by eapply filled_same.
  - intros m' bs [Hmb Hmn] Hbs _. set (k := st_next (q_mem s1)) in *. apply wp_bind, wp_mem. unfold memset.
    replace (nlen + vlen + 2 <? 0) with false by lia. change (to_u8 0) with 0.
    assert (Hz : zlen (replicate (Z.to_nat (nlen + vlen + 2)) 0) = nlen + vlen + 2) by (unfold zlen; rewrite length_replicate; lia).
    eapply (wp_store_mid _ k 0 _ [] bs []); [cbn; by rewrite Hmb, lookup_insert_eq, app_nil_r|done|lia|].
    rewrite app_nil_l, app_nil_r. set (zs := replicate _ 0) in *. rewrite set_offset2_ok by lia.
    apply wp_bind. eapply wp_put_set; [exact Hp|]. apply wp_ret.
    split; [unfold only_set in *; cbn; by rewrite delete_insert_eq|]. split; [done|]. exists k.
    eexists. split; [apply lookup_insert_eq|]. cbn. rewrite Hc. unfold zlen. rewrite Nat2Z.id, length_insert.
    pose proof (lookup_lt_Some _ _ _ Hx). unfold zlen in *. split_and!; try done; try lia.
    + eapply (filled_moved B (q_mem s1) (headers h) l (length l) x _ zs); [done..| | | |done].
      * split; cbn; [by rewrite Hmb, insert_insert_eq|done].
      * done.
      * intros nv. by rewrite lookup_ge_None_2.
    + by rewrite list_lookup_insert_eq.
    + by rewrite lookup_insert_eq.
Qed.

(** The slot becomes the last header. *)
Lemma hset_commit B s m p l k x h h' n v rest :
  q_sets s !! p = Some h' -> q_mem s = put_blk k (n ++ 0 :: v ++ 0 :: rest) m ->
  count h = zlen l -> zlen (headers h) = real_count h -> count h < real_count h ->
  filled B m (headers h) l -> headers h !! length l = Some x -> buf x = Some (Ptr k 0) ->
  headers h' = <[length l := Lsx (Some (Ptr k 0)) 0 (zlen n) (zlen n + 1) (zlen v)]> (headers h) ->
  count h' = count h + 1 -> real_count h' = real_count h -> header_ok (n, v) -> hset_at B s p (l ++ [(n, v)]).
Proof using Type.
  intros Hp Hm Hc Hr Hlt Hf Hx Hb Hh' Hc' Hr' Hok. exists h'. split; [done|]. split_and!.
  - rewrite zlen_app, zlen_one. lia.
  - rewrite Hh', Hr', <- Hr. unfold zlen. by rewrite length_insert.
  - lia.
  - rewrite Hh', Hm. eapply (filled_put B m (headers h) l (length l)); [done|exact Hx|done|done| |].
    + intros nv. rewrite lookup_app_r, Nat.sub_diag by done. intros [= <-]. exists k, rest.
      split_and!; [done|apply put_blk_get|done].
    + intros j Hj. destruct (decide (j < length l)%nat); [by rewrite lookup_app_l|].
      rewrite !lookup_ge_None_2; [done|lia|rewrite length_app; cbn; lia].
Qed.

(** ** Setting and removing *)

Lemma set_new_ok B s p l n v i :
  hset_at B s p l -> header_ok (n, v) -> i = None ->
  wp (x ← dpqic_hdrset_add p (to_i32 (zlen n)) (to_i32 (zlen v));
      match x with
      | None => mret DPE_NOMEM
      | Some i =>
          h ← get_set p;
          put_set p (set_count h (count h + 1));;
          x ← header_at h i;
          b ← lift_opt (buf x);
          mem (store_bytes (ptr_add b (name_offset x)) n);;
          mem (store_bytes (ptr_add b (val_offset x)) v);;
          mret DPE_OK
      end) s (hset_post B s p (fun r l' => r = DPE_OK /\ l' = match i : option nat with Some _ => l | None => l ++ [(n, v)] end \/ r = DPE_NOMEM /\ l' = l)).
Proof.
  intros Hs Hok ->. assert (Hok' := Hok). destruct Hok' as (_ & Hn & Hv). cbn in Hn, Hv. rewrite !text_int by done.
  pose proof (zlen_nonneg n). pose proof (zlen_nonneg v). destruct Hn as [_ Hn], Hv as [_ Hv].
  apply wp_bind. eapply wp_mono; [apply (add_ok B); [done|lia|lia]|]. cbv beta.
  intros [i|] s1 [Ho Hr]; cycle 1.
  { apply wp_ret. exists l. split_and!; [done|done|by right]. }
  destruct Hr as (-> & k & h & Hp & Hc & Hr & Hlt & Hf & Hx & Hk).
  apply wp_bind. eapply wp_get_set; [exact Hp|]. apply wp_bind. eapply wp_put_set; [exact Hp|].
  apply wp_bind. eapply wp_header_at; [apply zlen_nonneg|unfold zlen; rewrite Nat2Z.id; exact Hx|].
  apply wp_bind. apply wp_ret. apply wp_bind, wp_mem. cbn [ptr_add p_blk p_off name_offset val_offset q_mem with_sets].
  assert (Hz : replicate (Z.to_nat (zlen n + zlen v + 2)) 0 = replicate (length n) 0 ++ [0] ++ replicate (length v) 0 ++ [0]).
  { change [0] with (replicate 1 0). rewrite <- !replicate_add. f_equal. unfold zlen. lia. }
  rewrite Hz in Hk.
  eapply (wp_store_mid _ k 0 n [] _ _); [exact Hk|done|unfold zlen; by rewrite length_replicate|].
  apply wp_bind, wp_mem. cbn [q_mem with_qmem].
  eapply (wp_store_mid _ k _ v (n ++ [0]) (replicate (length v) 0) [0]).
  - rewrite put_blk_get. cbn. by rewrite <- !app_assoc.
  - rewrite zlen_app, zlen_one. cbn; lia.
  - unfold zlen. by rewrite length_replicate.
  - apply wp_ret. exists (l ++ [(n, v)]). split_and!; [|unfold only_set in *; cbn; by rewrite delete_insert_eq|by left].
    rewrite put_blk_blk. cbn [app].
    eapply (hset_commit B _ (q_mem s1) p l k _ h (set_count h (count h + 1)) n v []).
    { cbn. apply lookup_insert_eq. }
    { cbn. by rewrite <- app_assoc. }
    all: try done. cbn. symmetry. by apply list_insert_id.
Qed.

Lemma drop_header_ok B s p l i nv : hset_at B s p l -> l !! i = Some nv ->
  wp (drop_header p (Z.of_nat i)) s (hset_post B s p (fun r l' => r = DPE_OK /\ l' = swap_remove i l)).
Proof using Type.
  intros (h & Hp & Hc & Hr & Hle & Hf) Hi. assert (Hil := lookup_lt_Some _ _ _ Hi).
  set (j := (length l - 1)%nat). destruct (lookup_lt_is_Some_2 l j) as [z Hz]; [lia|].
  assert (Hsw : swap_remove i l = take j (<[i := z]> l)).
  { unfold swap_remove. rewrite last_lookup. replace (pred (length l)) with j by lia. by rewrite Hz. }
  destruct (fl_headers _ _ _ _ Hf _ _ Hi) as (x & Hx & _), (fl_headers _ _ _ _ Hf _ _ Hz) as (y & Hy & _).
  assert (Hlast : count h - 1 = Z.of_nat j) by (unfold zlen in *; lia).
  assert (Htake : forall k, take j (<[i := z]> l) !! k = if decide (k < j)%nat then (if decide (k = i) then Some z else l !! k) else None).
  { intros k. destruct (decide (k < j)%nat); [|apply lookup_take_None; lia]. rewrite lookup_take_Some_lt || rewrite lookup_take_lt by done.
    destruct (decide (k = i)) as [->|]; [by apply list_lookup_insert_eq|by apply list_lookup_insert_ne]. }
  unfold drop_header. apply wp_bind. eapply wp_get_set; [exact Hp|]. cbn zeta. rewrite Hlast. apply wp_bind.
  assert (Hend : forall hd, zlen hd = real_count h -> filled B (q_mem s) hd (take j (<[i := z]> l)) ->
    wp (put_set p (set_count (Hset hd (count h) (real_count h)) (count h - 1));; mret DPE_OK) s
      (hset_post B s p (fun r l' => r = DPE_OK /\ l' = swap_remove i l))).
  { intros hd Hhd Hfd. apply wp_bind. eapply wp_put_set; [exact Hp|]. apply wp_ret. rewrite Hsw.
    exists (take j (<[i := z]> l)). split_and!; [|unfold only_set; cbn; by rewrite delete_insert_eq|done..].
    eapply (hset_put B p _ (q_mem s) s); cbn; [|done|lia|done].
    unfold zlen. rewrite length_take, length_insert. unfold zlen in *. lia. }
  destruct (Z.ltb_spec (Z.of_nat i) (Z.of_nat j)).
  - apply wp_bind. eapply wp_header_at; [lia|by rewrite Nat2Z.id|].
    apply wp_bind. eapply wp_header_at; [lia|by rewrite Nat2Z.id|]. apply wp_ret.
    unfold set_header. cbn [headers count real_count]. rewrite !Nat2Z.id. apply Hend; [rewrite <- Hr; unfold zlen; by rewrite !length_insert|].
    eapply filled_swap; [done..|lia| | |].
    + intros k Hk1 Hk2. rewrite Htake. repeat case_decide; auto; congruence.
    + left. rewrite Htake, decide_True, decide_True by (done || lia). done.
    + rewrite Htake, decide_False by lia. done.
  - assert (i = j) as -> by lia. apply wp_ret. destruct h as [hd c r]. apply (Hend hd); [done|].
    split; [apply (fl_pool _ _ _ _ Hf)|]. intros k nv'. rewrite Htake. repeat case_decide; [lia|apply (fl_headers _ _ _ _ Hf)|done].
Qed.

Lemma find_named_Some l n i nv : find_named l n = Some (i, nv) -> l !! i = Some nv.
Proof using Type. unfold find_named. intros [? _]%list_find_Some. done. Qed.

Lemma set_ok B s p l n v : hset_at B s p l -> header_ok (n, default [] v) ->
  wp (dpqic_hdrset_set (Some p) (Some n) v) s (hset_post B s p (fun r l' => hop_step (HSet n v) l (RCode r) l')).
Proof.
  intros Hs Hok. unfold dpqic_hdrset_set. destruct n as [|c n]; [by destruct Hok|]. remember (c :: n) as name.
  destruct Hs as (h & Hp & Hc & Hr & Hle & Hf). assert (Hs : hset_at B s p l) by (exists h; by split_and!).
  apply wp_bind. eapply wp_get_set; [exact Hp|]. apply wp_bind. eapply find_first; [exact Hf|exact Hc|].
  unfold hop_step. destruct (find_named l name) as [[i nv]|] eqn:Hfind; cbn [fmap option_fmap option_map fst].
  - assert (Hi := find_named_Some _ _ _ _ Hfind). destruct v as [v|].
    + eapply wp_mono; [eapply reset_value_ok; [done|exact Hi|by destruct Hok as (_ & _ & ?)]|]. cbv beta.
      intros r s' (l' & ? & ? & [[-> ->]|[-> ->]]); eexists; (split_and!; [done|done|]); [by left|by right].
    + eapply wp_mono; [eapply drop_header_ok; [done|exact Hi]|]. cbv beta. intros r s' (l' & ? & ? & -> & ->). by eexists.
  - destruct v as [v|]; [|apply wp_ret; by exists l].
    eapply wp_mono; [by apply (set_new_ok B s p l name v None)|]. cbv beta.
    intros r s' (l' & ? & ? & [[-> ->]|[-> ->]]); eexists; (split_and!; [done|done|]); [by left|by right].
Qed.

(** ** Decoding *)

Lemma shift_up_ok k seg : forall m pre z tl (Q : unit -> bstore -> Prop),
  st_blks m !! k = Some (pre ++ seg ++ z :: tl) -> (forall y, Q tt (put_blk k (pre ++ y :: seg ++ tl) m)) ->
  wp (shift_up (length seg) (Ptr k 0) (zlen pre + zlen seg - 1)) m Q.
Proof using Type.
  induction seg as [|c seg IH] using rev_ind; intros m pre z tl Q Hk HQ.
  - apply wp_ret. specialize (HQ z). cbn in HQ, Hk. replace m with (put_blk k (pre ++ z :: tl) m) by
      (destruct m; unfold put_blk, set_blks; cbn in *; by rewrite insert_id). done.
  - rewrite length_app, Nat.add_comm, zlen_app, zlen_one. cbn [length Nat.add shift_up].
    pose proof (zlen_nonneg pre). pose proof (zlen_nonneg seg). rewrite <- !app_assoc in Hk. cbn [app] in Hk.
    apply wp_bind. eapply wp_load_bytes; [exact Hk|cbn; lia|lia|cbn; rewrite !zlen_app, !zlen_cons; pose proof (zlen_nonneg tl); lia|].
    rewrite (app_assoc pre seg (c :: z :: tl)). change (c :: z :: tl) with ([c] ++ z :: tl).
    rewrite slice_mid by (rewrite ?zlen_app, ?zlen_one; cbn; lia).
    apply wp_bind. eapply (wp_store_mid m k _ [c] (pre ++ seg ++ [c]) [z] tl); [rewrite Hk; by rewrite <- !app_assoc| |done|].
    { rewrite !zlen_app, zlen_one. cbn. lia. }
    replace (zlen pre + (zlen seg + 1) - 1 - 1) with (zlen pre + zlen seg - 1) by lia.
    apply (IH _ pre c (c :: tl)); [rewrite put_blk_get; by rewrite <- !app_assoc|]. intros y. rewrite put_blk_blk.
    specialize (HQ y). by rewrite <- app_assoc in HQ.
Qed.

Lemma decode_ok B s p l n v space : hset_at B s p l -> hop_ok (HDecode n v space) -> zlen n + zlen v <= space ->
  wp (run_hop p (HDecode n v space)) s (hset_post B s p (fun r l' => hop_step (HDecode n v space) l r l')).
Proof.
  intros Hs (Hok & _ & Hsp) Hfit. cbn [run_hop hop_step]. pose proof (zlen_nonneg n). pose proof (zlen_nonneg v).
  assert (Hi : to_i32 space = space) by (apply to_i32_id; unfold is_i32, INT_MIN, INT_MAX; lia).
  unfold _dpqic_cb_hsi_predec. rewrite Hi. apply wp_bind, wp_bind.
  eapply wp_mono; [apply (add_ok B s p l); [done|lia|lia]|]. cbv beta. intros [i|] s1 [Ho Hr]; cycle 1.
  { apply wp_ret, wp_ret. exists l. split_and!; [done|done|by right]. }
  destruct Hr as (-> & k & h & Hp & Hc & Hr & Hlt & Hf & Hx & Hk). set (x0 := Lsx _ _ _ _ _) in Hx.
  assert (Hlen := lookup_lt_Some _ _ _ Hx). assert (Hzl : Z.to_nat (zlen l) = length l) by (unfold zlen; lia).
  apply wp_bind. eapply wp_get_set; [exact Hp|].
  apply wp_bind. eapply wp_header_at; [apply zlen_nonneg|rewrite Hzl; exact Hx|]. apply wp_bind, wp_ret.
  destruct (prepare_decode_ok x0 (Ptr k 0) 0 (space + 2)) as (nl & vo & vl & ->).
  apply wp_bind. eapply wp_put_set; [exact Hp|]. apply wp_ret, wp_bind. unfold decoded. set (h1 := set_header h (zlen l) _).
  apply wp_bind. eapply wp_get_set; [apply lookup_insert_eq|].
  apply wp_bind. eapply wp_header_at; [apply zlen_nonneg|cbn; rewrite Hzl; by apply list_lookup_insert_eq|].
  apply wp_bind, wp_ret, wp_bind, wp_mem. cbn [name_offset q_mem with_sets buf ptr_add p_blk p_off].
  set (g := Z.to_nat (space - zlen n - zlen v)).
  assert (Hz : replicate (Z.to_nat (0 + space + 2)) 0 = [] ++ replicate (length (n ++ v)) 0 ++ 0 :: 0 :: replicate g 0).
  { change (0 :: 0 :: replicate g 0) with (replicate (2 + g) 0). rewrite app_nil_l, <- replicate_add. f_equal.
    rewrite length_app. unfold g. unfold zlen in *. lia. }
  rewrite Hz in Hk. eapply (wp_store_mid _ k 0 (n ++ v)); [exact Hk|done|unfold zlen; by rewrite length_replicate|].
  eapply wp_put_set; [apply lookup_insert_eq|]. unfold _dpqic_cb_hsi_append. set (h2 := set_header h1 (zlen l) _).
  apply wp_bind, wp_bind. eapply wp_get_set; [apply lookup_insert_eq|].
  apply wp_bind. eapply wp_header_at; [apply zlen_nonneg|cbn; rewrite Hzl, list_insert_insert_eq; by apply list_lookup_insert_eq|].
  apply wp_bind, wp_ret, wp_bind, wp_mem. cbn [val_offset val_len name_offset name_len q_mem with_sets with_qmem].
  eapply (wp_store_mid _ k _ [0] (n ++ v) [0] (0 :: replicate g 0)); [rewrite put_blk_get; by rewrite <- !app_assoc| |done|].
  { rewrite zlen_app. cbn. lia. }
  rewrite Z.eqb_refl. apply wp_bind, wp_bind, wp_mem. cbn [q_mem with_qmem]. rewrite put_blk_blk.
  replace (Z.to_nat (zlen v + 1)) with (length (v ++ [0])) by (rewrite length_app; unfold zlen; cbn; lia).
  replace (0 + zlen n + zlen v) with (zlen n + zlen (v ++ [0]) - 1) by (rewrite zlen_app, zlen_one; lia).
  eapply (shift_up_ok k (v ++ [0]) _ n 0 (replicate g 0)); [rewrite put_blk_get; by rewrite <- !app_assoc|]. intros y.
  apply wp_ret, wp_bind, wp_mem. cbn [q_mem with_qmem with_value name_offset name_len]. rewrite put_blk_blk.
  eapply (wp_store_mid _ k _ [0] n [y] ((v ++ [0]) ++ replicate g 0)); [by rewrite put_blk_get|cbn; lia|done|].
  rewrite put_blk_blk. apply wp_bind. eapply wp_put_set; [apply lookup_insert_eq|]. apply wp_ret, wp_ret.
  exists (l ++ [(n, v)]). split_and!; [|unfold only_set in *; cbn; by rewrite !insert_insert_eq, delete_insert_eq|left; by split_and!].
  eapply (hset_commit B _ (q_mem s1) p l k x0 h _ n v (replicate g 0)); [cbn; apply lookup_insert_eq| |try done..].
  - cbn. by rewrite <- app_assoc.
  - cbn. rewrite Hzl, !list_insert_insert_eq. done.
Qed.

(** Without room for the ends of both strings, ending the first one or moving the
    second up is undefined. *)
Lemma decode_overfull B s p l n v space : hset_at B s p l -> hop_ok (HDecode n v space) -> space < zlen n + zlen v ->
  wp_or True (run_hop p (HDecode n v space)) s (hset_post B s p (fun r l' => hop_step (HDecode n v space) l r l')).
Proof.
  intros Hs (Hok & Hsp & Hspace) Hover. cbn [run_hop hop_step]. pose proof (zlen_nonneg n). pose proof (zlen_nonneg v).
  assert (Hi : to_i32 space = space) by (apply to_i32_id; unfold is_i32, INT_MIN, INT_MAX; lia).
  unfold _dpqic_cb_hsi_predec. rewrite Hi. apply wp_or_bind, wp_or_bind, wp_or_wp.
  eapply wp_mono; [apply (add_ok B s p l); [done|lia|lia]|]. cbv beta. intros [i|] s1 [Ho Hr]; cycle 1.
  { apply wp_or_wp, wp_ret. exists l. split_and!; [done|done|by right]. }
  destruct Hr as (-> & k & h & Hp & Hc & Hr & Hlt & Hf & Hx & Hk). set (x0 := Lsx _ _ _ _ _) in Hx.
  assert (Hlen := lookup_lt_Some _ _ _ Hx). assert (Hzl : Z.to_nat (zlen l) = length l) by (unfold zlen; lia).
  apply wp_or_bind, wp_or_wp. eapply wp_get_set; [exact Hp|].
  apply wp_or_bind, wp_or_wp. eapply wp_header_at; [apply zlen_nonneg|rewrite Hzl; exact Hx|].
  apply wp_or_bind, wp_or_wp, wp_ret. destruct (prepare_decode_ok x0 (Ptr k 0) 0 (space + 2)) as (nl & vo & vl & ->).
  apply wp_or_bind, wp_or_wp. eapply wp_put_set; [exact Hp|]. apply wp_or_bind. unfold decoded.
  set (h1 := set_header h (zlen l) _). apply wp_or_bind, wp_or_wp. eapply wp_get_set; [apply lookup_insert_eq|].
  apply wp_or_bind, wp_or_wp. eapply wp_header_at; [apply zlen_nonneg|cbn; rewrite Hzl; by apply list_lookup_insert_eq|].
  apply wp_or_bind, wp_or_wp, wp_ret, wp_or_bind, wp_or_wp, wp_mem. cbn [name_offset q_mem with_sets buf ptr_add p_blk p_off].
  set (g := Z.to_nat (space + 2 - zlen n - zlen v)).
  assert (Hz : replicate (Z.to_nat (0 + space + 2)) 0 = [] ++ replicate (length (n ++ v)) 0 ++ replicate g 0).
  { rewrite app_nil_l, <- replicate_add. f_equal. rewrite length_app. unfold g. unfold zlen in *. lia. }
  rewrite Hz in Hk. eapply (wp_store_mid _ k 0 (n ++ v)); [exact Hk|done|unfold zlen; by rewrite length_replicate|].
  apply wp_or_wp. eapply wp_put_set; [apply lookup_insert_eq|]. unfold _dpqic_cb_hsi_append. set (h2 := set_header h1 (zlen l) _).
  apply wp_or_bind, wp_or_bind, wp_or_wp. eapply wp_get_set; [apply lookup_insert_eq|].
  apply wp_or_bind, wp_or_wp. eapply wp_header_at; [apply zlen_nonneg|cbn; rewrite Hzl, list_insert_insert_eq; by apply list_lookup_insert_eq|].
  apply wp_or_bind, wp_or_wp, wp_ret, wp_or_bind, wp_or_mem.
  cbn [val_offset val_len name_offset name_len q_mem with_sets with_qmem ptr_add p_blk p_off].
  assert (Hg : zlen (replicate g 0) = space + 2 - zlen n - zlen v) by (unfold zlen; rewrite length_replicate; unfold g, zlen in *; lia).
  destruct (Z.eq_dec (zlen n + zlen v) (space + 2)) as [Hfull|Hone].
  { eapply wp_or_store_out; [apply put_blk_get|]. cbn [p_off]. rewrite !zlen_app, zlen_nil, zlen_one, Hg. lia. }
  assert (Hg1 : g = 1%nat) by (unfold zlen in *; rewrite length_replicate in Hg; lia). rewrite Hg1.
  apply wp_or_wp. eapply (wp_store_mid _ k _ [0] (n ++ v) [0] []); [rewrite put_blk_get; by rewrite <- !app_assoc| |done|].
  { rewrite zlen_app. cbn. lia. }
  rewrite Z.eqb_refl. apply wp_or_bind, wp_or_bind, wp_or_mem. cbn [q_mem with_qmem]. rewrite put_blk_blk.
  replace (Z.to_nat (zlen v + 1)) with (S (length v)) by (unfold zlen; lia). cbn [shift_up].
  apply wp_or_bind, wp_or_wp. eapply wp_load_bytes; [apply put_blk_get|cbn; lia|lia|cbn; rewrite ?zlen_app, ?zlen_one, ?zlen_nil; lia|].
  apply wp_or_bind. eapply wp_or_store_out; [apply put_blk_get|]. cbn. unfold slice. rewrite zlen_ztake, zlen_zdrop, ?zlen_app, ?zlen_one, ?zlen_nil. lia.
Qed.

(** ** Reading *)

Lemma get_ok B s p l n : hset_at B s p l -> n <> [] ->
  wp (run_hop p (HGet n)) s (hset_post B s p (fun r l' => hop_step (HGet n) l r l')).
Proof.
  intros Hs Hn. cbn [run_hop hop_step]. unfold dpqic_hdrset_get. destruct n as [|c n]; [done|]. remember (c :: n) as name.
  assert (Hs' := Hs). destruct Hs' as (h & Hp & Hc & Hr & Hle & Hf).
  apply wp_bind, wp_bind. eapply wp_get_set; [exact Hp|]. apply wp_bind. eapply find_first; [exact Hf|exact Hc|].
  destruct (find_named l name) as [[i nv]|] eqn:Hfind; cbn [fmap option_fmap option_map fst snd].
  - assert (Hi := find_named_Some _ _ _ _ Hfind). destruct (fl_headers _ _ _ _ Hf _ _ Hi) as (x & Hx & Hnv).
    destruct (hdr_strings _ _ _ Hnv) as (a & b & _ & Hval & _ & Hb).
    apply wp_bind. eapply wp_header_at; [lia|by rewrite Nat2Z.id|]. apply wp_ret. rewrite Hval.
    apply wp_bind. eapply wp_read_str; [exact Hb|]. apply wp_ret. by exists l.
  - apply wp_ret, wp_ret. by exists l.
Qed.

Lemma at_ok B s p l i : hset_at B s p l ->
  wp (run_hop p (HAt i)) s (hset_post B s p (fun r l' => hop_step (HAt i) l r l')).
Proof.
  intros Hs. cbn [run_hop hop_step]. unfold dpqic_hdrset_at. assert (Hs' := Hs). destruct Hs' as (h & Hp & Hc & Hr & Hle & Hf).
  apply wp_bind, wp_bind. eapply wp_get_set; [exact Hp|]. rewrite Hc. unfold znth.
  destruct (Z.ltb_spec i 0); cbn [orb]; [apply wp_ret, wp_ret; by exists l|].
  destruct (Z.leb_spec (zlen l) i).
  - apply wp_ret, wp_ret. exists l. split_and!; try done. rewrite lookup_ge_None_2; [done|unfold zlen in *; lia].
  - destruct (lookup_lt_is_Some_2 l (Z.to_nat i)) as [nv Hi]; [unfold zlen in *; lia|].
    destruct (fl_headers _ _ _ _ Hf _ _ Hi) as (x & Hx & Hnv). destruct (hdr_strings _ _ _ Hnv) as (a & b & Hname & Hval & Ha & Hb).
    apply wp_bind. eapply wp_header_at; [lia|exact Hx|]. apply wp_ret. rewrite Hname, Hval.
    apply wp_bind. eapply wp_read_str; [exact Hb|]. apply wp_bind. eapply wp_read_str; [exact Ha|].
    apply wp_ret. exists l. rewrite Hi. by destruct nv.
Qed.

Lemma run_hop_ok B s p l o : hset_at B s p l -> hop_ok o ->
  wp_or (overfull o) (run_hop p o) s (hset_post B s p (fun r l' => hop_step o l r l')).
Proof.
  intros Hs Ho. destruct (decide (overfull o)) as [Hover|Hfit].
  { destruct o as [| | | |n v space]; try done. eapply wp_or_mono; [by apply (decode_overfull B)|done|done]. }
  apply wp_or_wp. destruct o as [n v|n| |i|n v space].
  - cbn [run_hop]. apply wp_bind. eapply wp_mono; [by eapply set_ok|]. intros r s' Hr. by apply wp_ret.
  - by apply get_ok.
  - assert (Hs' := Hs). destruct Hs' as (h & Hp & Hc & _). cbn [run_hop]. unfold dpqic_hdrset_count.
    apply wp_bind, wp_bind. eapply wp_get_set; [exact Hp|]. apply wp_ret, wp_ret. exists l. by rewrite Hc.
  - by apply at_ok.
  - apply decode_ok; [done|done|]. cbn in Hfit. lia.
Qed.

Lemma run_hops_ok B p os : forall s l, hset_at B s p l -> Forall hop_ok os ->
  wp_or (Exists overfull os) (run_hops p os) s (hset_post B s p (fun rs l' => hops_run l os rs l')).
Proof.
  induction os as [|o os IH]; intros s l Hs Hos; cbn [run_hops].
  - apply wp_or_wp, wp_ret. exists l. split_and!; [done|done|constructor].
  - inversion Hos as [|? ? Ho Hos']; subst. apply wp_or_bind. eapply wp_or_mono; [by eapply run_hop_ok|by left|]. cbv beta.
    intros r s1 (l1 & Hs1 & Ho1 & Hstep). apply wp_or_bind. eapply wp_or_mono; [by eapply IH|by right|]. cbv beta.
    intros rs s2 (l2 & Hs2 & Ho2 & Hrun). apply wp_or_wp, wp_ret. exists l2. split_and!; [done|unfold only_set in *; congruence|by econstructor].
Qed.

(** ** Deleting *)

Lemma free_bufs_ok B hd : forall s, pool B (q_mem s) hd ->
  wp (free_bufs hd) s (fun _ s' => st_blks (q_mem s') = B /\ q_sets s' = q_sets s).
Proof using Type.
  induction hd as [|x hd IH]; intros s Hp; cbn [free_bufs].
  - apply wp_ret. split; [by apply pool_nil|done].
  - apply wp_bind. destruct (buf x) as [b|] eqn:Hb.
    + destruct (pl_own _ _ _ Hp 0 x b eq_refl Hb) as (Ho & [bs Hk] & _).
      apply wp_mem. eapply wp_free_blk; [exact Hk|done|]. eapply wp_mono; [apply IH|].
      * cbn. eapply pool_tail; [exact Hp|done|]. by rewrite Hb.
      * cbv beta. by intros ? s' [? ?].
    + apply wp_ret. apply IH. eapply pool_tail; [exact Hp|done|]. by rewrite Hb.
Qed.

Lemma del_ok B s p l : hset_at B s p l ->
  wp (dpqic_hdrset_del (Some p)) s (fun _ s' => st_blks (q_mem s') = B /\ q_sets s' = delete p (q_sets s)).
Proof using Type.
  intros (h & Hp & _ & _ & _ & Hf). unfold dpqic_hdrset_del. apply wp_bind. eapply wp_get_set; [exact Hp|].
  apply wp_bind. eapply wp_mono; [apply (free_bufs_ok B), (fl_pool _ _ _ _ Hf)|]. cbv beta.
  intros _ s' [Hb Hq]. apply wp_modify. cbn. by rewrite Hq.
Qed.

Lemma new_ok s n : (forall k, is_Some (st_blks (q_mem s) !! k) -> (k < st_next (q_mem s))%positive) ->
  wp (dpqic_hdrset_new n) s (fun r s' => match r with
    | None => st_blks (q_mem s') = st_blks (q_mem s) /\ q_sets s' = q_sets s /\ q_errno s' = DPE_NOMEM
    | Some p => p = st_next (q_mem s) /\ only_set p s s' /\ hset_at (st_blks (q_mem s)) s' p []
    end).
Proof using Type.
  intros Hfresh. unfold dpqic_hdrset_new. set (size := if n <=? 0 then 2 else n).
  assert (Hsize : 0 < size) by (unfold size; destruct (Z.leb_spec n 0); lia).
  apply wp_bind, wp_mem, wp_malloc_ok. intros ok1 oom1. destruct ok1; cbn [negb]; [|by apply wp_bind, wp_modify, wp_ret].
  apply wp_bind, wp_mem, wp_malloc_ok. intros ok2 oom2. destruct ok2; cbn [negb]; [|by apply wp_bind, wp_modify, wp_ret].
  apply wp_bind, wp_mem, wp_fresh_loc, wp_bind, wp_modify, wp_ret. cbn. split; [done|].
  split; [unfold only_set; cbn; by rewrite delete_insert_eq|]. eexists. split; [apply lookup_insert_eq|]. cbn.
  split_and!; [done|unfold zlen; rewrite length_replicate; lia|lia|]. rewrite <- (app_nil_l (replicate _ _)). apply filled_grow.
  split; [split; try done|done]. intros k Hk. cbn. specialize (Hfresh k Hk). lia.
Qed.

(** A set made, used and deleted. *)
Definition life (n : Z) (os : list hop) : ST qmem (option (list hres)) :=
  p ← dpqic_hdrset_new n;
  match p with
  | None => mret None
  | Some p => rs ← run_hops p os; dpqic_hdrset_del (Some p);; mret (Some rs)
  end.

(** C1. A header set is its list of headers, whatever the allocator answers: every
    operation has its result and its effect on the list, in the order of the calls,
    decoded headers included, and when the set is deleted the memory is what it was
    before it was made.  Names are not empty, texts are C strings of at most 65535
    bytes.  The only operation that can be undefined is a decoding that fills more
    than the space asked for, of the two bytes more that the decoder is told of: the
    ends of the strings do not fit then, and unless memory is refused it is always
    undefined. *)
Theorem hdrset_refines_list s n os :
  (forall k, is_Some (st_blks (q_mem s) !! k) -> (k < st_next (q_mem s))%positive) ->
  q_sets s !! st_next (q_mem s) = None -> Forall hop_ok os ->
  match life n os s with
  | Some (r, s') => st_blks (q_mem s') = st_blks (q_mem s) /\ q_sets s' = q_sets s /\
      match r with Some rs => exists l, hops_run [] os rs l | None => q_errno s' = DPE_NOMEM end
  | None => Exists overfull os
  end.
Proof.
  intros Hfresh Hset Hos. change (match life n os s with Some (r, s') => ?Q | None => ?P end)
    with (wp_or P (life n os s) s (fun r s' => Q)).
  unfold life. apply wp_or_bind, wp_or_wp. eapply wp_mono; [by apply new_ok|]. cbv beta.
  intros [p|] s1; [|intros (? & ? & ?); by apply wp_or_wp, wp_ret]. intros (-> & Ho1 & Hs1).
  apply wp_or_bind. eapply wp_or_mono; [by eapply run_hops_ok|done|]. cbv beta. intros rs s2 (l & Hs2 & Ho2 & Hrun).
  apply wp_or_bind, wp_or_wp. eapply wp_mono; [by eapply del_ok|]. cbv beta. intros _ s3 [Hb Hq]. apply wp_or_wp, wp_ret.
  unfold only_set in *. split_and!; [done| |by exists l]. rewrite Hq, Ho2, Ho1. by apply delete_id.
Qed.
End Facts.

(** ** Examples *)

(** Functions with 16-bit lengths. *)
#[export] Instance ex_lsx : Lsxpack := {|
  lsxpack_header_set_offset2 _ p no nl vo vl := Lsx (Some p) no (nl mod 65536) vo (vl mod 65536);
  lsxpack_header_prepare_decode _ p off n := Lsx (Some p) off 0 0 n;
  lsxpack_header_get_name h := if name_len h =? 0 then None else (fun p => ptr_add p (name_offset h)) <$> buf h;
  lsxpack_header_get_value h := (fun p => ptr_add p (val_offset h)) <$> buf h;
|}.
#[export] Instance ex_lsx_ok : LsxpackOk.
Proof.
  split; cbn.
  - intros. by rewrite !Z.mod_small by lia.
  - intros. by eexists _, _, _.
  - intros h p -> Hn. destruct (Z.eqb_spec (name_len h) 0); [lia|done].
  - intros h p -> _. done.
Qed.

Definition ex_store (oom : list bool) : qmem := Qmem (BStore ∅ ∅ ∅ 1 oom (fun _ => 77)) ∅ 0.
(** [a: 1], [B: 2], a decoded [c: 3], [A: 4], no [b] any more. *)
Definition ex_hops : list hop :=
  [HSet [97] (Some [49]); HSet [66] (Some [50]); HDecode [99] [51] 2; HSet [65] (Some [52]); HSet [98] None;
   HGet [67]; HAt 1; HCount].

Lemma ex_hops_ok : Forall hop_ok ex_hops.
Proof.
  unfold ex_hops. repeat constructor; cbn; try done; rewrite ?zlen_cons, ?zlen_nil; try lia; set_solver.
Qed.

Lemma hdrset_refines_list_witness :
  exists rs s' l, life 0 ex_hops (ex_store []) = Some (Some rs, s') /\ st_blks (q_mem s') = ∅ /\ hops_run [] ex_hops rs l.
Proof.
  assert (Hr := hdrset_refines_list (ex_store []) 0 ex_hops ltac:(by intros k [? ?]) eq_refl ex_hops_ok).
  destruct (life 0 ex_hops (ex_store [])) as [[[rs|] s']|] eqn:E.
  - destruct Hr as (Hb & _ & l & Hl). exists rs, s', l. split; [reflexivity|]. split; [exact Hb|exact Hl].
  - exfalso. assert (Hn : fst <$> Some (@None (list hres), s') <> Some None) by (rewrite <- E; vm_compute; intros [=]). exact (Hn eq_refl).
  - exfalso. assert (Hn : is_Some (@None (option (list hres) * qmem))) by (rewrite <- E; vm_compute; eexists; reflexivity). destruct Hn as [? [=]].
Defined.

Example header_set_works :
  fst <$> life 0 ex_hops (ex_store []) = Some (Some [RCode DPE_OK; RCode DPE_OK; RCode 0; RCode DPE_OK; RCode DPE_OK;
    RText (Some [51]); RPair (Some ([99], [51])); RCode 2]).
Proof. vm_compute. reflexivity. Qed.

(** The decoder is told that it may use two bytes more than it asked for
    ([space + 2]), and [_dpqic_cb_hsi_append] needs them to end the strings: a name
    and value that fill the room are ended past the buffer. *)
Definition decode_full (n v : list Z) (space : Z) : ST qmem (option Z * Z) :=
  p ← _dpqic_cb_hsi_create;
  p ← lift_opt p;
  i ← _dpqic_cb_hsi_predec p None space;
  i' ← lift_opt i;
  h ← get_set p;
  x ← header_at h i';
  decoded p i' n v;;
  mret (i, val_len x).
Example decoded_header_overflows :
  fst <$> decode_full [97; 98] [49; 50] 2 (ex_store []) = Some (Some 0, 4) /\
  (decode_full [97; 98] [49; 50] 2 ≫= fun _ => _dpqic_cb_hsi_append 1 (Some 0)) (ex_store []) = None /\
  fst <$> (decode_full [97; 98] [49; 50] 4 ≫= fun _ => _dpqic_cb_hsi_append 1 (Some 0)) (ex_store []) = Some 0.
Proof. split_and!; vm_compute; reflexivity. Qed.
