(* ===== verification/Rbt.v ===== *)
(** * Rank-balanced trees ([lib/dpapp/dprbt.h])

    The functions that [RB_GENERATE] makes for a type, on nodes in memory.  A node
    has two child links and a word with its parent and two bits, one per child:
    the bit is set when the child is two ranks below.  [dir] is [_RB_L] or
    [_RB_R]; the augmentation hook is empty, as in this program, and the order is
    a parameter.  Loops take fuel. *)

From S2P Require Import Prelude.

#[local] Set Default Proof Using "Type*".

Inductive dir := DL | DR.

#[export] Instance dir_eq_dec : EqDecision dir.
Proof. solve_decision. Defined.

(** [dir ^ _RB_LR] *)
Definition opp (d : dir) : dir := match d with DL => DR | DR => DL end.

(** The two low bits of a parent word. *)
Record bits := Bits { b_l : bool; b_r : bool }.

#[export] Instance bits_eq_dec : EqDecision bits.
Proof. solve_decision. Defined.

Definition no_bits : bits := Bits false false.
Definition both_bits : bits := Bits true true.
Definition bit (d : dir) (b : bits) : bool := match d with DL => b_l b | DR => b_r b end.
Definition flip (d : dir) (b : bits) : bits :=
  match d with DL => Bits (negb (b_l b)) (b_r b) | DR => Bits (b_l b) (negb (b_r b)) end.
Definition flip_both (b : bits) : bits := Bits (negb (b_l b)) (negb (b_r b)).
(** [word & _RB_LR] *)
Definition any_bit (b : bits) : bool := b_l b || b_r b.

(** A word: a pointer with bits; [_RB_PTR] is its pointer. *)
Definition word : Type := option loc * bits.

(** [RB_ENTRY] *)
Record node := Node { n_up : word; n_l : option loc; n_r : option loc }.

Definition link (d : dir) (n : node) : option loc := match d with DL => n_l n | DR => n_r n end.
Definition with_link (d : dir) (v : option loc) (n : node) : node :=
  match d with DL => Node (n_up n) v (n_r n) | DR => Node (n_up n) (n_l n) v end.
Definition with_up (w : word) (n : node) : node := Node w (n_l n) (n_r n).

(** The nodes in memory and [RB_HEAD]. *)
Record rbst := Rbst { r_nodes : gmap loc node; r_root : option loc }.

Abbreviation R := (ST rbst).

Definition RB_INIT (s : rbst) : rbst := Rbst (r_nodes s) None.

Definition get_node (p : loc) : R node := fun s => (fun n => (n, s)) <$> r_nodes s !! p.
Definition put_node (p : loc) (n : node) : R unit :=
  fun s => match r_nodes s !! p with Some _ => Some (tt, Rbst (<[p := n]> (r_nodes s)) (r_root s)) | None => None end.
Definition upd_node (p : loc) (f : node -> node) : R unit := n ← get_node p; put_node p (f n).
Definition get_root : R (option loc) := gets r_root.
Definition set_root (v : option loc) : R unit := modify (fun s => Rbst (r_nodes s) v).

(** [_RB_LINK], [_RB_UP] *)
Definition get_link (d : dir) (p : loc) : R (option loc) := n ← get_node p; mret (link d n).
Definition set_link (d : dir) (p : loc) (v : option loc) : R unit := upd_node p (with_link d v).
Definition get_up (p : loc) : R word := n ← get_node p; mret (n_up n).
Definition set_up (p : loc) (w : word) : R unit := upd_node p (with_up w).
(** [_RB_BITSUP(p) ^= d] and such. *)
Definition upd_bits (p : loc) (f : bits -> bits) : R unit := w ← get_up p; set_up p (w.1, f w.2).
Definition RB_PARENT (p : loc) : R (option loc) := w ← get_up p; mret w.1.

Definition RB_SET_PARENT (dst src : loc) : R unit := w ← get_up dst; set_up dst (Some src, w.2).

Definition RB_SET (elm : loc) (parent : option loc) : R unit :=
  set_up elm (parent, no_bits);; set_link DL elm None;; set_link DR elm None.

Definition RB_SWAP_CHILD (par : option loc) (out : loc) (in_ : option loc) : R unit :=
  match par with
  | None => set_root in_
  | Some par =>
      l ← get_link DL par;
      if bool_decide (l = Some out) then set_link DL par in_ else set_link DR par in_
  end.

Definition RB_ROTATE (elm tmp : loc) (d : dir) : R unit :=
  v ← get_link d tmp;
  set_link (opp d) elm v;;
  (match v with Some q => RB_SET_PARENT q elm | None => mret tt end);;
  set_link d tmp (Some elm);;
  RB_SET_PARENT elm tmp.

Definition elmdir_of (parent : loc) (elm : option loc) : R dir :=
  r ← get_link DR parent; mret (if bool_decide (r = elm) then DR else DL).

(** ** Insertion *)

(** The part of an iteration of [RB_INSERT_COLOR] that rotates; [gpar] is the
    grandparent's pointer. *)
Definition insert_rotate (gpar : option loc) (parent elm : loc) (child : option loc) (elmdir : dir) : R (option loc) :=
  let sibdir := opp elmdir in
  set_up parent (gpar, no_bits);;
  ue ← get_up elm;
  c ← (if bit elmdir ue.2 then
         child ← lift_opt child;
         RB_ROTATE elm child elmdir;;
         cu ← get_up child;
         (if bit sibdir cu.2 then upd_bits parent (flip elmdir) else mret tt);;
         upd_bits elm (if bit elmdir cu.2 then flip_both else flip elmdir);;
         mret child
       else mret elm);
  RB_ROTATE parent c sibdir;;
  set_up c (gpar, no_bits);;
  RB_SWAP_CHILD gpar parent (Some c);;
  mret (Some c).

(** [child] is [NULL] at first. *)
Fixpoint RB_INSERT_COLOR (fuel : nat) (parent elm : loc) (child : option loc) : R (option loc) :=
  match fuel with
  | O => ub
  | S fuel =>
      gpar ← get_up parent;
      elmdir ← elmdir_of parent (Some elm);
      if bit elmdir gpar.2 then upd_bits parent (flip elmdir);; mret None else
      upd_bits parent (flip (opp elmdir));;
      if negb (any_bit gpar.2) then
        match gpar.1 with Some gp => RB_INSERT_COLOR fuel gp parent (Some elm) | None => mret None end
      else insert_rotate gpar.1 parent elm child elmdir
  end.

(** [pptr]: where the new node is linked. *)
Definition set_pptr (parent : option loc) (d : dir) (v : loc) : R unit :=
  match parent with None => set_root (Some v) | Some p => set_link d p (Some v) end.

Definition rb_fuel : R nat := s ← gets id; mret (S (size (r_nodes s))).

Definition RB_INSERT_FINISH (parent : option loc) (d : dir) (elm : loc) : R (option loc) :=
  RB_SET elm parent;;
  set_pptr parent d elm;;
  fuel ← rb_fuel;
  (match parent with Some p => _ ← RB_INSERT_COLOR fuel p elm None; mret tt | None => mret tt end);;
  mret None.

Section Ordered.
Context (cmp : loc -> loc -> Z).

Fixpoint insert_walk (fuel : nat) (elm : loc) (parent : option loc) (d : dir) (tmp : option loc) : R (option loc) :=
  match tmp, fuel with
  | None, _ => RB_INSERT_FINISH parent d elm
  | Some _, O => ub
  | Some p, S fuel =>
      let comp := cmp elm p in
      if comp <? 0 then t ← get_link DL p; insert_walk fuel elm (Some p) DL t
      else if 0 <? comp then t ← get_link DR p; insert_walk fuel elm (Some p) DR t
      else mret (Some p)
  end.

(** The equal element found, or [NULL] and the element is in the tree. *)
Definition RB_INSERT (elm : loc) : R (option loc) :=
  fuel ← rb_fuel; root ← get_root; insert_walk fuel elm None DL root.

Fixpoint find_walk (fuel : nat) (elm : loc) (tmp : option loc) : R (option loc) :=
  match tmp, fuel with
  | None, _ => mret None
  | Some _, O => ub
  | Some p, S fuel =>
      let comp := cmp elm p in
      if comp <? 0 then t ← get_link DL p; find_walk fuel elm t
      else if 0 <? comp then t ← get_link DR p; find_walk fuel elm t
      else mret (Some p)
  end.
Definition RB_FIND (elm : loc) : R (option loc) := fuel ← rb_fuel; root ← get_root; find_walk fuel elm root.

Fixpoint nfind_walk (fuel : nat) (elm : loc) (res tmp : option loc) : R (option loc) :=
  match tmp, fuel with
  | None, _ => mret res
  | Some _, O => ub
  | Some p, S fuel =>
      let comp := cmp elm p in
      if comp <? 0 then t ← get_link DL p; nfind_walk fuel elm (Some p) t
      else if 0 <? comp then t ← get_link DR p; nfind_walk fuel elm res t
      else mret (Some p)
  end.
Definition RB_NFIND (elm : loc) : R (option loc) := fuel ← rb_fuel; root ← get_root; nfind_walk fuel elm None root.

End Ordered.

(** ** Removal *)

Definition RB_STRICT_HST : bool := false.

(** The part of an iteration of [RB_REMOVE_COLOR] that rotates. *)
Definition remove_rotate (gpar : option loc) (parent sib : loc) (up : bits) (elmdir : dir) (elm : option loc) : R (option loc) :=
  let sibdir := opp elmdir in
  elm ← (if negb (bit sibdir up) then
           elm ← get_link elmdir sib;
           elm ← lift_opt elm;
           RB_ROTATE sib elm sibdir;;
           eu ← get_up elm;
           upd_bits parent (if bit elmdir eu.2 then flip_both else flip elmdir);;
           upd_bits sib (if bit sibdir eu.2 then flip_both else flip sibdir);;
           upd_bits elm (fun _ => both_bits);;
           mret elm
         else
           (if negb (bit elmdir up) && RB_STRICT_HST && bool_decide (elm <> None) then
              upd_bits parent (flip sibdir);; upd_bits sib flip_both
            else if negb (bit elmdir up) then
              upd_bits parent (flip elmdir);; upd_bits sib (flip sibdir)
            else upd_bits sib (flip sibdir));;
           mret sib);
  RB_ROTATE parent elm elmdir;;
  (w ← get_up elm; set_up elm (gpar, w.2));;
  RB_SWAP_CHILD gpar parent (Some elm);;
  mret (Some parent).

Fixpoint remove_loop (fuel : nat) (parent : loc) (elm : option loc) : R (option loc) :=
  match fuel with
  | O => ub
  | S fuel =>
      gpar ← get_up parent;
      elmdir ← elmdir_of parent elm;
      let again := match gpar.1 with Some gp => remove_loop fuel gp (Some parent) | None => mret None end in
      let b := flip elmdir gpar.2 in
      if bit elmdir b then set_up parent (gpar.1, b);; mret None else
      if any_bit b then set_up parent (gpar.1, flip_both b);; again else
      sib ← get_link (opp elmdir) parent;
      sib ← lift_opt sib;
      up ← get_up sib;
      let up' := flip_both up.2 in
      if negb (any_bit up') then set_up sib (up.1, up');; again
      else remove_rotate gpar.1 parent sib up' elmdir elm
  end.

Definition RB_REMOVE_COLOR (fuel : nat) (parent : loc) (elm : option loc) : R (option loc) :=
  r ← get_link DR parent;
  l ← get_link DL parent;
  if bool_decide (r = elm) && bool_decide (l = elm) then
    w ← get_up parent;
    set_up parent (w.1, no_bits);;
    match w.1 with
    | None => mret None
    | Some p => remove_loop fuel p (Some parent)
    end
  else remove_loop fuel parent elm.

(** [while (RB_LEFT(in)) in = RB_LEFT(in)], and to the right. *)
Fixpoint walk_down (fuel : nat) (d : dir) (p : loc) : R loc :=
  match fuel with
  | O => ub
  | S fuel => t ← get_link d p; match t with Some q => walk_down fuel d q | None => mret p end
  end.

Definition remove_finish (fuel : nat) (opar : option loc) (out : loc) (in_ child parent : option loc) : R loc :=
  RB_SWAP_CHILD opar out in_;;
  (match child with Some c => set_up c (parent, no_bits) | None => mret tt end);;
  (match parent with
   | None => mret tt
   | Some p =>
       _ ← RB_REMOVE_COLOR fuel p child;
       if bool_decide (parent = in_) then
         l ← get_link DL p;
         match l with None => _ ← RB_PARENT p; mret tt | Some _ => mret tt end
       else mret tt
   end);;
  mret out.

Definition RB_REMOVE (out : loc) : R loc :=
  fuel ← rb_fuel;
  child ← get_link DL out;
  in_ ← get_link DR out;
  opar ← get_up out;
  match in_, child with
  | Some rt, Some lf =>
      in_ ← walk_down fuel DL rt;
      RB_SET_PARENT lf in_;;
      set_link DL in_ (Some lf);;
      child ← get_link DR in_;
      parent ← (if negb (bool_decide (rt = in_)) then
                  RB_SET_PARENT rt in_;;
                  set_link DR in_ (Some rt);;
                  parent ← RB_PARENT in_;
                  parent ← lift_opt parent;
                  set_link DL parent child;;
                  mret parent
                else mret rt);
      set_up in_ opar;;
      remove_finish fuel opar.1 out (Some in_) child (Some parent)
  | _, _ =>
      let in_ := match in_ with None => child | Some _ => in_ end in
      remove_finish fuel opar.1 out in_ in_ opar.1
  end.

(** ** Walking *)

(** Up while [p] is the child in direction [d] of its parent. *)
Fixpoint climb (fuel : nat) (d : dir) (p : loc) : R (option loc) :=
  match fuel with
  | O => ub
  | S fuel =>
      u ← RB_PARENT p;
      match u with
      | None => mret None
      | Some q =>
          t ← get_link d q;
          if bool_decide (t = Some p) then climb fuel d q else RB_PARENT p
      end
  end.

(** [RB_NEXT] for [d] right, [RB_PREV] for [d] left. *)
Definition rb_step (d : dir) (elm : loc) : R (option loc) :=
  fuel ← rb_fuel;
  t ← get_link d elm;
  match t with
  | Some q => p ← walk_down fuel (opp d) q; mret (Some p)
  | None => climb fuel d elm
  end.
Definition RB_NEXT (elm : loc) : R (option loc) := rb_step DR elm.
Definition RB_PREV (elm : loc) : R (option loc) := rb_step DL elm.

Fixpoint minmax_walk (fuel : nat) (d : dir) (parent tmp : option loc) : R (option loc) :=
  match tmp, fuel with
  | None, _ => mret parent
  | Some _, O => ub
  | Some p, S fuel => t ← get_link d p; minmax_walk fuel d tmp t
  end.
Definition RB_MINMAX (val : Z) : R (option loc) :=
  fuel ← rb_fuel; root ← get_root; minmax_walk fuel (if val <? 0 then DL else DR) None root.

(** The end of the branch in direction [d]: its last node. *)
Fixpoint edge_walk (fuel : nat) (d : dir) (elm : loc) (d' : dir) (tmp : option loc) (new : loc) : R (option loc) :=
  match tmp, fuel with
  | None, _ => RB_INSERT_FINISH (Some elm) d' new
  | Some _, O => ub
  | Some p, S fuel => t ← get_link d p; edge_walk fuel d p d t new
  end.
Definition RB_INSERT_NEXT (elm next : loc) : R (option loc) :=
  _ ← RB_NEXT elm;
  fuel ← rb_fuel; t ← get_link DR elm; edge_walk fuel DL elm DR t next.
Definition RB_INSERT_PREV (elm prev : loc) : R (option loc) :=
  _ ← RB_PREV elm;
  fuel ← rb_fuel; t ← get_link DL elm; edge_walk fuel DR elm DL t prev.

Definition RB_REINSERT (cmp : loc -> loc -> Z) (elm : loc) : R (option loc) :=
  p ← RB_PREV elm;
  let before := match p with Some p => 0 <=? cmp p elm | None => false end in
  out ← (if before then mret true else
         n ← RB_NEXT elm; mret (match n with Some n => 0 <=? cmp elm n | None => false end));
  if out : bool then _ ← RB_REMOVE elm; RB_INSERT cmp elm else mret None.

(** The diagnostic: the rank of a subtree, or -1. *)
Fixpoint RB_RANK (fuel : nat) (elm : option loc) : R Z :=
  match elm, fuel with
  | None, _ => mret 0
  | Some _, O => ub
  | Some p, S fuel =>
      up ← get_up p;
      left ← get_link DL p;
      l ← RB_RANK fuel left;
      right ← get_link DR p;
      r ← RB_RANK fuel right;
      let left_rank := (if b_l up.2 then 2 else 1) + l in
      let right_rank := (if b_r up.2 then 2 else 1) + r in
      if negb (left_rank =? right_rank) || ((left_rank =? 2) && bool_decide (left = None) && bool_decide (right = None))
      then mret (-1) else mret left_rank
  end.

(** The elements in order, with [RB_FOREACH]. *)
Fixpoint foreach_walk (fuel : nat) (x : option loc) : R (list loc) :=
  match x, fuel with
  | None, _ => mret []
  | Some _, O => ub
  | Some p, S fuel => n ← RB_NEXT p; l ← foreach_walk fuel n; mret (p :: l)
  end.
Definition RB_FOREACH : R (list loc) := fuel ← rb_fuel; x ← RB_MINMAX (-1); foreach_walk fuel x.

(** ** Example *)

Definition blank (n : nat) : rbst :=
  Rbst (list_to_map ((fun i => (Pos.of_nat i, Node (None, no_bits) None None)) <$> seq 1 n)) None.
Definition by_number (x y : loc) : Z := Z.pos x - Z.pos y.
Fixpoint insert_all (l : list loc) : R unit :=
  match l with [] => mret tt | x :: l => _ ← RB_INSERT by_number x; insert_all l end.

Example ten_in_seven_out :
  fst <$> (insert_all [5; 3; 8; 1; 4; 7; 9; 2; 6; 10]%positive;;
    a ← RB_FOREACH; root ← get_root; r ← RB_RANK 20 root;
    _ ← RB_REMOVE 5; _ ← RB_REMOVE 1; _ ← RB_REMOVE 3; _ ← RB_REMOVE 10; _ ← RB_REMOVE 7; _ ← RB_REMOVE 8; _ ← RB_REMOVE 9;
    b ← RB_FOREACH; root ← get_root; r' ← RB_RANK 20 root;
    mret (a, r, b, r')) (blank 10)
  = Some ([1; 2; 3; 4; 5; 6; 7; 8; 9; 10]%positive, 4, [2; 4; 6]%positive, 3).
Proof. vm_compute. reflexivity. Qed.
