(* ===== verification/Heapsl.v ===== *)
(** * Separation logic on node maps

    Assertions on finite maps of nodes, closed under larger maps, form a logic of
    bunched implications, so that the proof mode of Iris works on them.  [hwp]
    runs a computation on the part of a store an assertion owns and leaves every
    other node as it is. *)

From stdpp Require Import gmap.
From iris.proofmode Require Import proofmode.
From S2P Require Import Prelude Rbt.

#[local] Set Default Proof Using "Type*".

Abbreviation heap := (gmap loc node).

Record hprop := HProp { hp_holds : heap -> Prop; hp_mono : forall h1 h2, h1 ⊆ h2 -> hp_holds h1 -> hp_holds h2 }.
#[local] Coercion hp_holds : hprop >-> Funclass.

(** ** The model *)

#[export] Instance hprop_equiv : Equiv hprop := fun P Q => forall h, P h <-> Q h.
#[export] Instance hprop_equivalence : Equivalence (≡@{hprop}).
Proof. split; repeat intro; [done|by symmetry|etrans; [apply H|apply H0]]. Qed.
Canonical Structure hpropO := discreteO hprop.

Record hp_entails (P Q : hprop) : Prop := HpEntails { hp_in : forall h, P h -> Q h }.
#[local] Coercion hp_in : hp_entails >-> Funclass.

Program Definition hp_pure (φ : Prop) : hprop := HProp (fun _ => φ) _.
Next Obligation. done. Qed.
Program Definition hp_and (P Q : hprop) : hprop := HProp (fun h => P h /\ Q h) _.
Next Obligation. intros P Q h1 h2 Hs [HP HQ]. split; by eapply hp_mono. Qed.
Program Definition hp_or (P Q : hprop) : hprop := HProp (fun h => P h \/ Q h) _.
Next Obligation. intros P Q h1 h2 Hs [HP|HQ]; [left|right]; by eapply hp_mono. Qed.
Program Definition hp_impl (P Q : hprop) : hprop := HProp (fun h => forall h', h ⊆ h' -> P h' -> Q h') _.
Next Obligation. intros P Q h1 h2 Hs HI h' Hs' HP. apply HI; [by etrans|done]. Qed.
Program Definition hp_forall (A : Type) (Φ : A -> hprop) : hprop := HProp (fun h => forall a, Φ a h) _.
Next Obligation. intros A Φ h1 h2 Hs H a. by eapply hp_mono. Qed.
Program Definition hp_exist (A : Type) (Φ : A -> hprop) : hprop := HProp (fun h => exists a, Φ a h) _.
Next Obligation. intros A Φ h1 h2 Hs [a H]. exists a. by eapply hp_mono. Qed.
Program Definition hp_sep (P Q : hprop) : hprop :=
  HProp (fun h => exists h1 h2, h1 ##ₘ h2 /\ h1 ∪ h2 ⊆ h /\ P h1 /\ Q h2) _.
Next Obligation. intros P Q h1 h2 Hs (a & b & Hd & Hu & HP & HQ). exists a, b. split_and!; [done|by etrans|done|done]. Qed.
Program Definition hp_wand (P Q : hprop) : hprop :=
  HProp (fun h => forall h', h ##ₘ h' -> P h' -> Q (h ∪ h')) _.
Next Obligation.
  intros P Q h1 h2 Hs HW h' Hd HP. eapply hp_mono; [|apply HW; [by eapply map_disjoint_weaken_l|exact HP]].
  by apply map_union_mono_r.
Qed.
Definition hp_persistently (P : hprop) : hprop := hp_pure (hp_entails (hp_pure True) P).
Definition hp_later (P : hprop) : hprop := P.

Lemma hp_entails_po : PreOrder hp_entails.
Proof. split; [by intros P; split; intros h|intros P Q S HP HQ; split; intros h H; by apply (HQ h), (HP h)]. Qed.

Lemma hp_bi_mixin :
  BiMixin hp_entails (hp_pure True) hp_pure hp_and hp_or hp_impl hp_forall hp_exist hp_sep hp_wand.
Proof.
  split.
  - apply hp_entails_po.
  - intros P Q. split; [intros H; split; split; intros h; apply H|intros [H1 H2] h; split; [apply (H1 h)|apply (H2 h)]].
  - intros n φ ψ Hφ h. apply Hφ.
  - intros n P P' HP Q Q' HQ h. by rewrite /hp_holds /= (HP h) (HQ h).
  - intros n P P' HP Q Q' HQ h. by rewrite /hp_holds /= (HP h) (HQ h).
  - intros n P P' HP Q Q' HQ h. split; intros H h' Hs Hp; apply HQ, H, HP; done.
  - intros A n Φ Ψ H h. split; intros HF a; apply H, HF.
  - intros A n Φ Ψ H h. split; intros [a HE]; exists a; by apply H.
  - intros n P P' HP Q Q' HQ h. split; intros (a & b & Hd & Hu & Hp & Hq); exists a, b; split_and!; try done; by [apply HP|apply HQ].
  - intros n P P' HP Q Q' HQ h. split; intros H h' Hd Hp; apply HQ, H, HP; done.
  - intros φ P Hφ. by split.
  - intros φ P H. split. intros h Hφ. by apply (H Hφ h).
  - by intros P Q; split; intros h [].
  - by intros P Q; split; intros h [].
  - intros P Q S H1 H2. split. intros h HP. split; [by apply (H1 h)|by apply (H2 h)].
  - split. by left.
  - split. by right.
  - intros P Q S H1 H2. split. intros h [HP|HQ]; [by apply (H1 h)|by apply (H2 h)].
  - intros P Q S H. split. intros h HP h' Hs HQ. apply (H h'). split; [by eapply hp_mono|done].
  - intros P Q S H. split. intros h [HP HQ]. by eapply (H h).
  - intros A P Φ H. split. intros h HP a. by apply (H a h).
  - intros A Φ a. split. by intros h H.
  - intros A Φ a. split. intros h H. by exists a.
  - intros A Φ Q H. split. intros h [a Ha]. by eapply (H a h).
  - intros P P' Q Q' H1 H2. split. intros h (a & b & Hd & Hu & HP & HQ). exists a, b. split_and!; [done|done|by apply (H1 a)|by apply (H2 b)].
  - intros P. split. intros h HP. exists ∅, h. split_and!; [apply map_disjoint_empty_l|by rewrite left_id_L|done|done].
  - intros P. split. intros h (a & b & Hd & Hu & _ & HP). eapply hp_mono; [|exact HP]. etrans; [by apply map_union_subseteq_r|exact Hu].
  - intros P Q. split. intros h (a & b & Hd & Hu & HP & HQ). exists b, a. split_and!; [done|by rewrite map_union_comm|done|done].
  - intros P Q S. split. intros h (ab & c & Hd & Hu & (a & b & Hd' & Hu' & HP & HQ) & HS).
    assert (Ha : a ##ₘ c) by (eapply map_disjoint_weaken_l; [exact Hd|etrans; [by apply map_union_subseteq_l|exact Hu']]).
    assert (Hb : b ##ₘ c) by (eapply map_disjoint_weaken_l; [exact Hd|etrans; [by apply map_union_subseteq_r|exact Hu']]).
    exists a, (b ∪ c). split_and!; [by apply map_disjoint_union_r_2| |done|by exists b, c].
    rewrite assoc_L. etrans; [|exact Hu]. by apply map_union_mono_r.
  - intros P Q S H. split. intros h HP h' Hd HQ. apply (H (h ∪ h')). by exists h, h'.
  - intros P Q S H. split. intros h (a & b & Hd & Hu & HP & HQ). eapply hp_mono; [exact Hu|]. by apply (H a).
Qed.

Lemma hp_persistently_mixin :
  BiPersistentlyMixin hp_entails (hp_pure True) hp_and hp_exist hp_sep hp_persistently.
Proof.
  eapply bi_persistently_mixin_discrete, hp_bi_mixin; [done| |done].
  intros A Φ H. destruct (H ∅ I) as [a Ha]. exists a. split. intros h _. eapply hp_mono; [apply map_empty_subseteq|exact Ha].
Qed.

Lemma hp_later_mixin :
  BiLaterMixin hp_entails hp_pure hp_or hp_impl hp_forall hp_exist hp_sep hp_persistently hp_later.
Proof. eapply bi_later_mixin_id; [done|apply hp_bi_mixin]. Qed.

Canonical Structure hpropI : bi := {|
  bi_ofe_mixin := ofe_mixin_of hprop;
  bi_cofe_aux := discrete_cofe hprop_equivalence;
  bi_bi_mixin := hp_bi_mixin;
  bi_bi_persistently_mixin := hp_persistently_mixin;
  bi_bi_later_mixin := hp_later_mixin;
|}.

#[export] Instance hprop_affine : BiAffine hpropI | 0.
Proof. intros P. by split. Qed.
#[export] Instance hprop_pure_forall : BiPureForall hpropI.
Proof. intros A φ. by split. Qed.

(** ** Owning nodes *)

Program Definition hp_node (p : loc) (n : node) : hprop := HProp (fun h => h !! p = Some n) _.
Next Obligation. intros p n h1 h2 Hs H. cbn in *. by eapply lookup_weaken. Qed.
Program Definition hp_size (k : nat) : hprop := HProp (fun h => (k <= size h)%nat) _.
Next Obligation. intros k h1 h2 Hs H. cbn in *. pose proof (map_subseteq_size _ _ Hs). lia. Qed.

(** [m] returns, leaves what it does not own as it was and neither makes nor
    destroys nodes. *)
Program Definition hwp {A} (m : R A) (root : option loc) (Q : A -> option loc -> hprop) : hprop :=
  HProp (fun h => forall hf, h ##ₘ hf -> exists a root' h',
    m (Rbst (h ∪ hf) root) = Some (a, Rbst (h' ∪ hf) root') /\ h' ##ₘ hf /\
    dom (h' ∪ hf) = dom (h ∪ hf) /\ Q a root' h') _.
Next Obligation.
  intros A m root Q h1 h2 Hs H hf Hd.
  assert (Hd' : h1 ##ₘ (h2 ∖ h1) ∪ hf).
  { apply map_disjoint_union_r_2; [by apply map_disjoint_difference_r1|]. by eapply map_disjoint_weaken_l. }
  destruct (H _ Hd') as (a & r & h' & Hm & Hh & Hdom & HQ).
  apply map_disjoint_union_r in Hh as [Hh1 Hh2].
  exists a, r, (h' ∪ (h2 ∖ h1)). split_and!.
  - by rewrite -{1}(map_difference_union h1 h2 Hs) -!assoc_L.
  - apply map_disjoint_union_l_2; [done|]. eapply map_disjoint_weaken_l; [exact Hd|apply map_subseteq_difference_l; done].
  - by rewrite -{2}(map_difference_union h1 h2 Hs) -!assoc_L.
  - eapply hp_mono; [|exact HQ]. apply map_union_subseteq_l.
Qed.

Notation "p ↦ n" := (hp_node p n) (at level 20, format "p  ↦  n") : bi_scope.

Lemma hp_node_ne p q n m : p ↦ n -∗ q ↦ m -∗ ⌜p <> q⌝.
Proof.
  apply bi.entails_wand, bi.wand_intro_r. split. intros h (a & b & Hd & Hu & Ha & Hb) ->. cbn in *.
  rewrite map_disjoint_spec in Hd. by eapply Hd.
Qed.

(** What is owned is counted. *)
Lemma hp_size_intro : ⊢ hp_size 0.
Proof. split. intros h _. cbn. lia. Qed.
Lemma hp_size_node p n : p ↦ n ⊢ hp_size 1.
Proof. split. intros h Hp. cbn in *. destruct (size h) eqn:E; [|lia]. apply map_size_empty_iff in E as ->. by rewrite lookup_empty in Hp. Qed.
Lemma hp_size_sep a b : hp_size a ∗ hp_size b ⊢ hp_size (a + b).
Proof.
  split. intros h (h1 & h2 & Hd & Hu & Ha & Hb). cbn in *.
  apply map_subseteq_size in Hu. rewrite map_size_disj_union in Hu; [|done]. lia.
Qed.

(** ** Rules *)

Section Rules.
Context {A B : Type}.
Implicit Types (m : R A) (f : A -> R B).

Lemma hwp_mono m root Q Q' : (forall a r, Q a r ⊢ Q' a r) -> hwp m root Q ⊢ hwp m root Q'.
Proof.
  intros H; split; intros h Hw hf Hd. destruct (Hw hf Hd) as (a & r & h' & ? & ? & ? & ?).
  exists a, r, h'. split_and!; [done|done|done|by apply (H a r)].
Qed.
Lemma hwp_ret (a : A) root Q : Q a root ⊢ hwp (mret a) root Q.
Proof. split. intros h HQ hf Hd. by exists a, root, h. Qed.
Lemma hwp_bind m f root (Q : B -> option loc -> hprop) :
  hwp m root (fun a r => hwp (f a) r Q) ⊢ hwp (m ≫= f) root Q.
Proof.
  split. intros h Hw hf Hd. destruct (Hw hf Hd) as (a & r & h' & Hm & Hd' & Hdom & HQ).
  destruct (HQ hf Hd') as (b & r' & h2 & Hf & Hd2 & Hdom2 & HQ2). exists b, r', h2.
  split_and!; [|done|by etrans|done]. by rewrite (ST_bind_Some m f _ _ _ Hm).
Qed.
Lemma hwp_lift_opt (v : A) root Q : Q v root ⊢ hwp (lift_opt (Some v)) root Q.
Proof. split. intros h HQ hf Hd. by exists v, root, h. Qed.
End Rules.

Lemma hwp_get_node p n root Q : p ↦ n ∗ (p ↦ n -∗ Q n root) ⊢ hwp (get_node p) root Q.
Proof.
  split. intros h (h1 & h2 & Hd & Hu & Hp & HQ) hf Hf. exists n, root, h. split_and!; [|done|done|].
  - unfold get_node. cbn. erewrite lookup_union_Some_l; [done|]. eapply lookup_weaken; [exact Hp|].
    etrans; [apply map_union_subseteq_l|exact Hu].
  - eapply hp_mono; [exact Hu|]. rewrite map_union_comm; [|done]. by apply HQ.
Qed.
Lemma hwp_put_node p n m root Q : p ↦ n ∗ (p ↦ m -∗ Q tt root) ⊢ hwp (put_node p m) root Q.
Proof.
  split. intros h (h1 & h2 & Hd & Hu & Hp & HQ) hf Hf. cbn in Hp.
  assert (Hh : h !! p = Some n) by (eapply lookup_weaken; [exact Hp|]; etrans; [apply map_union_subseteq_l|exact Hu]).
  exists tt, root, (<[p:=m]> h). split_and!.
  - unfold put_node. cbn. erewrite lookup_union_Some_l by done. by rewrite insert_union_l.
  - apply map_disjoint_insert_l_2; [by eapply map_disjoint_Some_l|done].
  - rewrite -insert_union_l dom_insert_L. apply elem_of_dom_2 in Hh. set_solver.
  - assert (Hd' : <[p:=m]> h1 ##ₘ h2) by (apply map_disjoint_insert_l_2; [by eapply map_disjoint_Some_l|done]).
    eapply hp_mono; [|apply (HQ (<[p:=m]> h1))]; [|done|apply lookup_insert_eq].
    rewrite map_union_comm; [|done]. rewrite -insert_union_l. by apply insert_mono.
Qed.
Lemma hwp_get_root root Q : Q root root ⊢ hwp get_root root Q.
Proof. split. intros h HQ hf Hd. by exists root, root, h. Qed.
Lemma hwp_set_root v root Q : Q tt v ⊢ hwp (set_root v) root Q.
Proof. split. intros h HQ hf Hd. by exists tt, v, h. Qed.
Lemma hwp_fuel k root Q :
  hp_size k ∧ (∀ n, ⌜k < n⌝%nat → Q n root) ⊢ hwp rb_fuel root Q.
Proof.
  split. intros h [Hk HQ] hf Hf. cbn in Hk.
  exists (S (size (h ∪ hf))), root, h. split_and!; [done|done|done|].
  apply (HQ (S (size (h ∪ hf))) h); [done|].
  pose proof (map_subseteq_size h (h ∪ hf) (map_union_subseteq_l _ _)).
  enough (k < S (size (h ∪ hf)))%nat by done. lia.
Qed.

(** From assertions to runs. *)
Lemma hwp_run {A} (m : R A) s (Q : A -> option loc -> hprop) P :
  (P ⊢ hwp m (r_root s) Q) -> hp_holds P (r_nodes s) ->
  exists a s', m s = Some (a, s') /\ dom (r_nodes s') = dom (r_nodes s) /\ Q a (r_root s') (r_nodes s').
Proof.
  destruct s as [h root]. cbn. intros H HP.
  destruct (hp_in _ _ H h HP ∅) as (a & r & h' & Hm & Hd & Hdom & HQ); [apply map_disjoint_empty_r|].
  exists a, (Rbst h' r). rewrite !right_id_L in Hm Hdom. done.
Qed.
