(* ===== verification/RbtFacts.v ===== *)
(** * Rank-balanced trees: the macros keep a balanced tree and its order

    The nodes reachable from the root form a tree: [rep] owns them, with their
    parent pointers.  A path from the root to a place is a context, a list of
    frames.  The rank of an empty tree is 0 and a child's rank is below its
    parent's by one, or by two when its bit is set ([ranked]). *)

From stdpp Require Import gmap sorting.
From iris.proofmode Require Import proofmode environments.
From S2P Require Import Prelude Rbt Tmrset Heapsl.

#[local] Set Default Proof Using "Type*".

(** ** Trees and contexts *)

Inductive tree := E | N (p : loc) (b : bits) (l r : tree).

Definition rt (t : tree) : option loc := match t with E => None | N p _ _ _ => Some p end.
Definition sub (d : dir) (t : tree) : tree :=
  match t with E => E | N _ _ l r => match d with DL => l | DR => r end end.
Fixpoint tsize (t : tree) : nat := match t with E => 0 | N _ _ l r => S (tsize l + tsize r) end.
Fixpoint inorder (t : tree) : list loc :=
  match t with E => [] | N p _ l r => inorder l ++ p :: inorder r end.

(** The place is child [d] of [p]; [s] is the other child. *)
Inductive frame := F (d : dir) (p : loc) (b : bits) (s : tree).
Definition ctx := list frame.

Definition fill (f : frame) (t : tree) : tree :=
  match f with F DL p b s => N p b t s | F DR p b s => N p b s t end.
Fixpoint plug (c : ctx) (t : tree) : tree := match c with [] => t | f :: c => plug c (fill f t) end.
Definition up (c : ctx) : option loc := match c with [] => None | F _ p _ _ :: _ => Some p end.
(** The root, when the place holds [hole]. *)
Fixpoint top (c : ctx) (hole : option loc) : option loc :=
  match c with [] => hole | F _ p _ _ :: c => top c (Some p) end.
Fixpoint lefts (c : ctx) : list loc :=
  match c with
  | [] => []
  | F DL _ _ _ :: c => lefts c
  | F DR p _ s :: c => lefts c ++ inorder s ++ [p]
  end.
Fixpoint rights (c : ctx) : list loc :=
  match c with
  | [] => []
  | F DL p _ s :: c => p :: inorder s ++ rights c
  | F DR _ _ _ :: c => rights c
  end.
Fixpoint csize (c : ctx) : nat := match c with [] => 0 | F _ _ _ s :: c => S (tsize s + csize c) end.

Lemma top_rt c t : top c (rt t) = rt (plug c t).
Proof. revert t. induction c as [|[[] p b s] c IH]; intros t; cbn; [done|..]; by rewrite -IH. Qed.
Lemma inorder_plug c t : inorder (plug c t) = lefts c ++ inorder t ++ rights c.
Proof.
  revert t. induction c as [|[[] p b s] c IH]; intros t; cbn; [by rewrite app_nil_r|..]; rewrite IH; cbn; by simplify_list_eq.
Qed.
Lemma tsize_plug c t : tsize (plug c t) = (csize c + tsize t)%nat.
Proof. revert t. induction c as [|[[] p b s] c IH]; intros t; cbn; [done|..]; rewrite IH; cbn; lia. Qed.
Lemma length_csize c : (length c <= csize c)%nat.
Proof. induction c as [|[d p b s] c IH]; cbn; lia. Qed.
Lemma plug_app c1 c2 t : plug (c1 ++ c2) t = plug c2 (plug c1 t).
Proof. revert t. induction c1; intros t; cbn; auto. Qed.
Lemma length_inorder t : length (inorder t) = tsize t.
Proof. induction t; cbn; [done|]. rewrite length_app. cbn. lia. Qed.

(** ** Ranks *)

Definition gap (b : bool) : Z := if b then 2 else 1.

Fixpoint ranked (k : Z) (t : tree) : Prop :=
  match t with
  | E => k = 0
  | N _ b l r =>
      (b_l b = true -> b_r b = true -> k <> 2) /\ ranked (k - gap (b_l b)) l /\ ranked (k - gap (b_r b)) r
  end.
Definition wavl (t : tree) : Prop := exists k, ranked k t.

(** A tree of rank [k] fits the place. *)
Fixpoint ranked_ctx (k : Z) (c : ctx) : Prop :=
  match c with
  | [] => True
  | F d _ b s :: c =>
      let n := k + gap (bit d b) in
      (b_l b = true -> b_r b = true -> n <> 2) /\ ranked (n - gap (bit (opp d) b)) s /\ ranked_ctx n c
  end.

Lemma ranked_pos k t : ranked k t -> 0 <= k /\ (k = 0 <-> t = E).
Proof.
  revert k. induction t as [|p b l IHl r IHr]; intros k; cbn; [intros ->; split; [lia|done]|].
  intros (_ & Hl & Hr). apply IHl in Hl as [Hl _]. split; [destruct (b_l b); cbn in *; lia|].
  split; [destruct (b_l b); cbn in *; lia|done].
Qed.
Fixpoint height (t : tree) : nat := match t with E => 0 | N _ _ l r => S (height l `max` height r) end.
Lemma height_tsize t : (height t <= tsize t)%nat.
Proof. induction t; cbn; lia. Qed.
(** The rank bounds the height, and a tree of rank [k] has [2^(k/2) - 1] nodes
    at least. *)
Lemma ranked_height k t : ranked k t -> Z.of_nat (height t) <= k.
Proof.
  revert k. induction t as [|p b l IHl r IHr]; intros k; cbn; [lia|]. intros (_ & Hl & Hr).
  apply IHl in Hl. apply IHr in Hr. destruct (b_l b), (b_r b); cbn in *; lia.
Qed.
Lemma ranked_tsize k t : ranked k t -> 2 ^ (k / 2) <= Z.of_nat (tsize t) + 1.
Proof.
  revert k. induction t as [|p b l IHl r IHr]; intros k; cbn [ranked tsize]; [by intros ->|].
  intros (_ & Hl & Hr). pose proof (ranked_pos _ _ Hl) as [Hl0 _]. pose proof (ranked_pos _ _ Hr) as [Hr0 _].
  apply IHl in Hl. apply IHr in Hr.
  assert (Hmono : forall g, g <= 2 -> 0 <= k - g -> 2 ^ ((k - 2) / 2) <= 2 ^ ((k - g) / 2)).
  { intros g Hg Hk. apply Z.pow_le_mono_r; [lia|]. apply Z.div_le_mono; lia. }
  assert (Hg : forall x, gap x <= 2) by (intros []; cbn; lia).
  pose proof (Hmono _ (Hg (b_l b)) Hl0) as H1. pose proof (Hmono _ (Hg (b_r b)) Hr0) as H2.
  destruct (decide (k < 2)) as [Hk|Hk].
  - replace (k / 2) with 0; [cbn; lia|]. symmetry. apply Z.div_small. destruct (b_l b); cbn in Hl0; lia.
  - replace (k / 2) with ((k - 2) / 2 + 1); [|rewrite -(Z.div_add _ 1 2) //; f_equal; lia].
    rewrite Z.pow_add_r; [|apply Z.div_pos; lia|lia]. lia.
Qed.
Lemma ranked_log k t : ranked k t -> k <= 2 * Z.log2 (Z.of_nat (tsize t) + 1) + 1.
Proof.
  intros Hk. pose proof (ranked_tsize _ _ Hk) as Hs. pose proof (ranked_pos _ _ Hk) as [Hk0 _].
  assert (Hlog : k / 2 <= Z.log2 (Z.of_nat (tsize t) + 1)) by (apply Z.log2_le_pow2; lia).
  pose proof (Z.div_mod k 2 ltac:(lia)). pose proof (Z.mod_pos_bound k 2 ltac:(lia)). lia.
Qed.

Lemma ranked_fun k k' t : ranked k t -> ranked k' t -> k = k'.
Proof.
  revert k k'. induction t as [|p b l IHl r _]; intros k k'; cbn; [lia|].
  intros (_ & H & _) (_ & H' & _). pose proof (IHl _ _ H H'). lia.
Qed.
Lemma ranked_plug k c t : ranked k t -> ranked_ctx k c -> wavl (plug c t).
Proof.
  revert k t. induction c as [|[d p b s] c IH]; intros k t Ht; cbn; [by exists k|].
  intros (Hb & Hs & Hc). eapply IH; [|exact Hc]. destruct d; cbn in *.
  - split_and!; [done| |done]. by replace (k + gap (b_l b) - gap (b_l b)) with k by lia.
  - split_and!; [done|done|]. by replace (k + gap (b_r b) - gap (b_r b)) with k by lia.
Qed.
Lemma ranked_unplug k c t : ranked k (plug c t) -> exists j, ranked j t /\ ranked_ctx j c.
Proof.
  revert k t. induction c as [|[d p b s] c IH]; intros k t; cbn; [by exists k|].
  intros H. apply IH in H as (j & Ht & Hc). destruct d; cbn in Ht; destruct Ht as (Hb & Hl & Hr).
  - exists (j - gap (b_l b)). split; [done|]. cbn.
    replace (j - gap (b_l b) + gap (b_l b)) with j by lia. done.
  - exists (j - gap (b_r b)). split; [done|]. cbn.
    replace (j - gap (b_r b) + gap (b_r b)) with j by lia. done.
Qed.

(** ** Trees in memory *)

Definition fnode (d : dir) (u : option loc) (b : bits) (hole s : option loc) : node :=
  match d with DL => Node (u, b) hole s | DR => Node (u, b) s hole end.

Fixpoint rep (u : option loc) (t : tree) : hprop :=
  match t with
  | E => emp
  | N p b l r => p ↦ Node (u, b) (rt l) (rt r) ∗ rep (Some p) l ∗ rep (Some p) r
  end%I.
Fixpoint repc (c : ctx) (hole : option loc) : hprop :=
  match c with
  | [] => emp
  | F d p b s :: c => p ↦ fnode d (up c) b hole (rt s) ∗ rep (Some p) s ∗ repc c (Some p)
  end%I.

Lemma rep_plug c t : rep None (plug c t) ⊣⊢ repc c (rt t) ∗ rep (up c) t.
Proof.
  revert t. induction c as [|[[] p b s] c IH]; intros t; cbn; [by rewrite left_id|..]; rewrite IH; cbn;
    (iSplit; [iIntros "(?&?&?&?)"|iIntros "((?&?&?)&?)"]; iFrame).
Qed.

(** ** Running the macros *)

Section Steps.
Implicit Types (Δ : envs hpropI) (Q : loc -> hprop).

Lemma tac_bind {A B} Δ (m : R A) (f : A -> R B) root (Q : B -> option loc -> hprop) :
  envs_entails Δ (hwp m root (fun a r => hwp (f a) r Q)) -> envs_entails Δ (hwp (m ≫= f) root Q).
Proof. rewrite envs_entails_unseal => ->. apply hwp_bind. Qed.
Lemma tac_ret {A} Δ (a : A) root (Q : A -> option loc -> hprop) :
  envs_entails Δ (Q a root) -> envs_entails Δ (hwp (mret a) root Q).
Proof. rewrite envs_entails_unseal => ->. apply hwp_ret. Qed.
Lemma tac_get_node Δ i p n root (Q : node -> option loc -> hprop) :
  envs_lookup i Δ = Some (false, p ↦ n)%I -> envs_entails Δ (Q n root) -> envs_entails Δ (hwp (get_node p) root Q).
Proof.
  rewrite envs_entails_unseal => Hi HQ.
  rewrite -hwp_get_node envs_lookup_split //; cbn. rewrite HQ. done.
Qed.
Lemma tac_put_node Δ Δ' i p n m root (Q : unit -> option loc -> hprop) :
  envs_lookup i Δ = Some (false, p ↦ n)%I ->
  envs_simple_replace i false (Esnoc Enil i (p ↦ m)%I) Δ = Some Δ' ->
  envs_entails Δ' (Q tt root) -> envs_entails Δ (hwp (put_node p m) root Q).
Proof.
  rewrite envs_entails_unseal => Hi Hr HQ.
  rewrite -hwp_put_node envs_simple_replace_sound //; cbn. rewrite HQ right_id. done.
Qed.
End Steps.

(** Evaluate the parts of nodes and words. *)
Tactic Notation "hsimp" :=
  cbn [link with_link with_up n_up n_l n_r fst snd bit flip flip_both any_bit b_l b_r opp orb negb andb
       no_bits both_bits rt sub fnode gap].
Tactic Notation "hsimp" "in" hyp(H) :=
  cbn [link with_link with_up n_up n_l n_r fst snd bit flip flip_both any_bit b_l b_r opp orb negb andb
       no_bits both_bits rt sub fnode gap] in H.
(** One step of the computation under [hwp]. *)
Ltac hstep1 :=
  lazymatch goal with
  | |- envs_entails _ (hwp (mbind _ _) _ _) => notypeclasses refine (tac_bind _ _ _ _ _ _)
  | |- envs_entails _ (hwp (mret _) _ _) => notypeclasses refine (tac_ret _ _ _ _ _); cbv beta
  | |- envs_entails _ (hwp (get_node _) _ _) => eapply tac_get_node; [iAssumptionCore|cbv beta]
  | |- envs_entails _ (hwp (put_node _ _) _ _) =>
      eapply tac_put_node; [iAssumptionCore|reduction.pm_reflexivity|cbv beta]
  | |- envs_entails _ (hwp (get_link _ _) _ _) => unfold get_link
  | |- envs_entails _ (hwp (set_link _ _ _) _ _) => unfold set_link
  | |- envs_entails _ (hwp (upd_node _ _) _ _) => unfold upd_node
  | |- envs_entails _ (hwp (get_up _) _ _) => unfold get_up
  | |- envs_entails _ (hwp (set_up _ _) _ _) => unfold set_up
  | |- envs_entails _ (hwp (upd_bits _ _) _ _) => unfold upd_bits
  | |- envs_entails _ (hwp (RB_PARENT _) _ _) => unfold RB_PARENT
  | |- envs_entails _ (hwp (RB_SET_PARENT _ _) _ _) => unfold RB_SET_PARENT
  | |- envs_entails _ (hwp (RB_SET _ _) _ _) => unfold RB_SET
  | |- envs_entails _ (hwp (lift_opt (Some _)) _ _) => iApply hwp_lift_opt
  | |- envs_entails _ (hwp get_root _ _) => iApply hwp_get_root
  | |- envs_entails _ (hwp (set_root _) _ _) => iApply hwp_set_root
  end.
Ltac hsteps := repeat (hstep1; hsimp).

Lemma rep_root_ne u s p n : p ↦ n -∗ rep u s -∗ ⌜rt s <> Some p⌝.
Proof.
  iIntros "Hp Hs". destruct s as [|q b l r]; [done|]. cbn [rep rt]. iDestruct "Hs" as "(Hq & _)".
  iDestruct (hp_node_ne with "Hp Hq") as %H. iPureIntro. congruence.
Qed.

Lemma hwp_set_parent u t x root Q :
  rep u t -∗ (rep (Some x) t -∗ Q tt root) -∗
  hwp (match rt t with Some q => RB_SET_PARENT q x | None => mret tt end) root Q.
Proof.
  iIntros "Ht HQ". destruct t as [|q b l r]; cbn [rep rt].
  - hsteps. by iApply "HQ".
  - iDestruct "Ht" as "(Hq & Hl & Hr)". hsteps. iApply "HQ". iFrame.
Qed.

Lemma hwp_rotate elm tmp d ne nt v root Q :
  link d nt = rt v ->
  elm ↦ ne -∗ tmp ↦ nt -∗ rep (Some tmp) v -∗
  (elm ↦ with_up (Some tmp, (n_up ne).2) (with_link (opp d) (rt v) ne) -∗
   tmp ↦ with_link d (Some elm) nt -∗ rep (Some elm) v -∗ Q tt root) -∗
  hwp (RB_ROTATE elm tmp d) root Q.
Proof.
  iIntros (Hv) "He Ht Hr HQ". unfold RB_ROTATE. hsteps. rewrite Hv.
  iApply (hwp_set_parent with "Hr"). iIntros "Hr". hsteps.
  destruct d; iApply ("HQ" with "He Ht Hr").
Qed.

(** [RB_SWAP_CHILD] at a place whose node is still there. *)
Lemma hwp_swap_child c out n in_ root Q :
  root = top c (Some out) ->
  repc c (Some out) -∗ out ↦ n -∗ (repc c in_ -∗ out ↦ n -∗ Q tt (top c in_)) -∗
  hwp (RB_SWAP_CHILD (up c) out in_) root Q.
Proof.
  iIntros (->) "Hc Ho HQ". destruct c as [|[d p b s] c]; cbn [up repc top RB_SWAP_CHILD].
  - hsteps. by iApply ("HQ" with "Hc Ho").
  - iDestruct "Hc" as "(Hp & Hs & Hc)". iDestruct (rep_root_ne with "Ho Hs") as %Hne.
    destruct d; hsteps.
    + rewrite bool_decide_eq_true_2 //. hsteps. iApply ("HQ" with "[$Hp $Hs $Hc] Ho").
    + rewrite bool_decide_eq_false_2 //. hsteps. iApply ("HQ" with "[$Hp $Hs $Hc] Ho").
Qed.

Lemma hwp_elmdir d p u b elm s root Q :
  rt s <> elm ->
  p ↦ fnode d u b elm (rt s) -∗ (p ↦ fnode d u b elm (rt s) -∗ Q d root) -∗ hwp (elmdir_of p elm) root Q.
Proof.
  iIntros (Hs) "Hp HQ". unfold elmdir_of. destruct d; hsteps.
  - rewrite bool_decide_eq_false_2 //. by iApply "HQ".
  - rewrite bool_decide_eq_true_2 //. by iApply "HQ".
Qed.

(** The nodes in memory are a balanced tree with the elements [l] in order. *)
Definition whole (l : list loc) (root : option loc) : hprop :=
  (∃ t, ⌜inorder t = l /\ wavl t /\ root = rt t⌝ ∗ rep None t)%I.

Lemma whole_intro c t k l root :
  ranked k t -> ranked_ctx k c -> root = top c (rt t) -> lefts c ++ inorder t ++ rights c = l ->
  repc c (rt t) -∗ rep (up c) t -∗ whole l root.
Proof.
  iIntros (Ht Hc -> <-) "Hc Ht". iExists (plug c t). iSplit.
  - iPureIntro. split_and!; [apply inorder_plug|by eapply ranked_plug|apply top_rt].
  - rewrite rep_plug. iFrame.
Qed.

(** ** Insertion *)

(** A tree that grew by one rank, [k + 1], at a place for rank [k]: it is a new
    leaf, or its root has one bit set and [child] is below it on the other side. *)
Definition grown (k : Z) (t : tree) (child : option loc) : Prop :=
  ranked (k + 1) t /\
  (k = 0 \/ exists d p b l r, t = N p b l r /\ bit d b = true /\ bit (opp d) b = false /\ child = rt (sub (opp d) t)).

(** Ranks of the pieces agree with those asked for. *)
Ltac rank_facts :=
  repeat match goal with
  | H : ranked ?k ?t |- _ =>
      lazymatch goal with _ : 0 <= k |- _ => fail | _ => destruct (ranked_pos k t H) end
  end.
Ltac solve_ranked :=
  hsimp; cbn [ranked ranked_ctx]; hsimp;
  repeat match goal with
  | |- _ /\ _ => split
  | H : ranked ?a ?t |- ranked ?b ?t => solve [replace b with a by lia; exact H]
  | H : ranked_ctx ?a ?c |- ranked_ctx ?b ?c => solve [replace b with a by lia; exact H]
  | |- _ -> _ => intros
  end; try done; try solve [rank_facts; lia].

(** The place [c] now has the tree [t] of rank [k]. *)
Ltac finish_at t k :=
  lazymatch goal with HL : lefts _ ++ _ = ?L |- context [repc ?c _] =>
    iApply (whole_intro c t k with "Hc"); [solve_ranked|solve_ranked|done|rewrite -HL; cbn; by simplify_list_eq|cbn [rep rt fill]; try match goal with H : rt _ = Some _ |- _ => rewrite H end; iFrame]
  end.

Ltac swap_in := iApply (hwp_swap_child with "Hc Hp"); [done|]; iIntros "Hc Hp"; hsteps; iApply "HQ".

Lemma hwp_insert_rotate c d p s b e be l r k child root Q L :
  let T := N e be l r in
  bit d b = false -> bit (opp d) b = true ->
  grown k T child -> ranked_ctx k (F d p b s :: c) -> root = top c (Some p) ->
  lefts (F d p b s :: c) ++ inorder T ++ rights (F d p b s :: c) = L ->
  p ↦ fnode d (up c) no_bits (Some e) (rt s) -∗ rep (Some p) s -∗ repc c (Some p) -∗ rep (Some p) T -∗
  (∀ v root', whole L root' -∗ Q v root') -∗
  hwp (insert_rotate (up c) p e child d) root Q.
Proof.
  cbn zeta. iIntros (Hb1 Hb2 [Hk Hg] Hc -> HL) "Hp Hs Hc He HQ".
  cbn [rep rt]. iDestruct "He" as "(He & Hl & Hr)".
  destruct b as [[] []], d; cbn in Hb1, Hb2; try done.
  all: cbn in Hc, Hk; destruct Hc as (_ & Hs & Hc).
  all: destruct Hg as [->|(d' & ? & ? & ? & ? & [= <- <- <- <-] & Hd1 & Hd2 & ->)];
    [apply ranked_pos in Hs as [Hs _]; lia|].
  all: unfold insert_rotate; cbn [fnode opp]; destruct be as [[] []], d'; cbn in Hd1, Hd2; try done; hsteps.
  all: cbn in Hk; destruct Hk as (Hkb & Hkl & Hkr).
  1,4: first [iApply (hwp_rotate with "Hp He Hl"); [done|] | iApply (hwp_rotate with "Hp He Hr"); [done|]];
    iIntros "Hp He Hi"; hsteps; swap_in.
  - finish_at (N e no_bits (N p no_bits s l) r) (k + 1).
  - finish_at (N e no_bits l (N p no_bits r s)) (k + 1).
  - destruct l as [|q [xl xr] ql qr]; [cbn in Hkl; rank_facts; lia|].
    cbn in Hkl. destruct Hkl as (Hqb & Hll & Hlr). cbn [rep]. iDestruct "Hl" as "(Hq & Hql & Hqr)". cbn [rt]. hsteps.
    iApply (hwp_rotate with "He Hq Hqr"); [done|]. iIntros "He Hq Hqr". hsteps.
    destruct xl, xr; hsteps;
      (iApply (hwp_rotate with "Hp Hq Hql"); [done|]; iIntros "Hp Hq Hql"; hsteps; swap_in).
    all: match type of Hqb with ?xl = true -> ?xr = true -> _ =>
      finish_at (N q no_bits (N p (Bits false xl) s ql) (N e (Bits xr false) qr r)) (k + 1) end.
  - destruct r as [|q [xl xr] ql qr]; [cbn in Hkr; rank_facts; lia|].
    cbn in Hkr. destruct Hkr as (Hqb & Hrl & Hrr). cbn [rep]. iDestruct "Hr" as "(Hq & Hql & Hqr)". cbn [rt]. hsteps.
    iApply (hwp_rotate with "He Hq Hql"); [done|]. iIntros "He Hq Hql". hsteps.
    destruct xl, xr; hsteps;
      (iApply (hwp_rotate with "Hp Hq Hqr"); [done|]; iIntros "Hp Hq Hqr"; hsteps; swap_in).
    all: match type of Hqb with ?xl = true -> ?xr = true -> _ =>
      finish_at (N q no_bits (N e (Bits false xl) l ql) (N p (Bits xr false) qr s)) (k + 1) end.
Qed.

Lemma reps_ne u v s t e : rt t = Some e -> rep u t -∗ rep v s -∗ ⌜rt s <> Some e⌝.
Proof.
  iIntros (He) "Ht Hs". destruct t as [|e' b l r]; [done|]. injection He as ->. cbn [rep].
  iDestruct "Ht" as "(He & _)". iApply (rep_root_ne with "He Hs").
Qed.

Lemma hwp_insert_color c : forall fuel k t e child root Q L,
  (length c <= fuel)%nat -> rt t = Some e -> grown k t child -> ranked_ctx k c -> root = top c (Some e) ->
  lefts c ++ inorder t ++ rights c = L ->
  repc c (Some e) -∗ rep (up c) t -∗ (∀ v root', whole L root' -∗ Q v root') -∗
  hwp (match up c with Some p => RB_INSERT_COLOR fuel p e child | None => mret None end) root Q.
Proof.
  induction c as [|[d p b s] c IH]; intros fuel k t e child root Q L Hf He Hg Hc Hr HL; iIntros "Hc Ht HQ".
  { cbn [up]. hsteps. iApply "HQ". rewrite -He. destruct Hg as [Hk _].
    iApply (whole_intro [] t (k + 1) with "Hc"); [done|done|by rewrite Hr -He|done|done]. }
  destruct fuel as [|fuel]; [cbn in Hf; lia|].
  cbn [up repc RB_INSERT_COLOR]. iDestruct "Hc" as "(Hp & Hs & Hc)". hsteps.
  assert (Hu : (n_up (fnode d (up c) b (Some e) (rt s))) = (up c, b)) by (by destruct d). rewrite Hu. hsimp.
  iDestruct (reps_ne with "Ht Hs") as %Hne; [exact He|].
  iApply (hwp_elmdir with "Hp"); [done|]. iIntros "Hp". destruct (bit d b) eqn:Eb.
  { destruct Hg as [Hk _], Hc as (Hb & Hs & Hc), b as [[] []], d; try done; cbn in Hb, Hs, Hc; hsteps; iApply "HQ".
    all: match type of Eb with bit ?d ?b = _ =>
      let t' := eval cbn in (fill (F d p (flip d b) s) t) in finish_at t' (k + 2) end. }
  destruct (any_bit b) eqn:Ea; hsimp.
  - destruct t as [|e' be l r]; [done|]. injection He as ->.
    destruct d, b as [[] []]; try done; hsteps;
      (iApply (hwp_insert_rotate with "[Hp] Hs Hc Ht HQ"); [done|done|exact Hg|exact Hc|done|exact HL|iExact "Hp"]).
  - destruct Hg as [Hk _]. destruct Hc as (_ & Hs & Hc).
    destruct d, b as [[] []]; try done; hsimp in Hs; hsimp in Hc; hsteps.
    + iApply (IH fuel (k + 1) (N p (Bits false true) t s) p (Some e) with "Hc [Ht Hs Hp] HQ"); [cbn in Hf; lia|done| |done|done| |].
      * split; [solve_ranked|]. right. eexists DR, _, _, _, _. by rewrite He.
      * by rewrite -HL; cbn; simplify_list_eq.
      * cbn [rep]. rewrite He. iFrame.
    + iApply (IH fuel (k + 1) (N p (Bits true false) s t) p (Some e) with "Hc [Ht Hs Hp] HQ"); [cbn in Hf; lia|done| |done|done| |].
      * split; [solve_ranked|]. right. eexists DL, _, _, _, _. by rewrite He.
      * by rewrite -HL; cbn; simplify_list_eq.
      * cbn [rep]. rewrite He. iFrame.
Qed.

Lemma rep_size u t : rep u t ⊢ hp_size (tsize t).
Proof.
  revert u. induction t as [|p b l IHl r IHr]; intros u; cbn [rep tsize].
  - iIntros "_". iApply hp_size_intro.
  - iIntros "(Hp & Hl & Hr)". iApply (hp_size_sep 1). iSplitL "Hp"; [by iApply hp_size_node|].
    iApply hp_size_sep. iSplitL "Hl"; [by iApply IHl|by iApply IHr].
Qed.
Lemma repc_size c h : repc c h ⊢ hp_size (csize c).
Proof.
  revert h. induction c as [|[d p b s] c IH]; intros h; cbn [repc csize].
  - iIntros "_". iApply hp_size_intro.
  - iIntros "(Hp & Hs & Hc)". iApply (hp_size_sep 1). iSplitL "Hp"; [by iApply hp_size_node|].
    iApply hp_size_sep. iSplitL "Hs"; [by iApply rep_size|by iApply IH].
Qed.

(** [d] is the direction of the place below its parent. *)
Definition at_dir (c : ctx) (d : dir) : Prop := match c with [] => True | F d' _ _ _ :: _ => d' = d end.

Lemma hwp_set_pptr c d p root Q :
  at_dir c d -> root = top c None ->
  repc c None -∗ (repc c (Some p) -∗ Q tt (top c (Some p))) -∗ hwp (set_pptr (up c) d p) root Q.
Proof.
  iIntros (Hd ->) "Hc HQ". destruct c as [|[d' q b s] c]; cbn [up set_pptr].
  - hsteps. by iApply "HQ".
  - cbn in Hd. subst. cbn [repc]. iDestruct "Hc" as "(Hq & Hs & Hc)".
    destruct d; hsteps; iApply "HQ"; iFrame.
Qed.

Lemma hwp_insert_finish c d n e root Q :
  ranked_ctx 0 c -> at_dir c d -> root = top c None ->
  repc c None -∗ e ↦ n -∗ (∀ root', whole (lefts c ++ e :: rights c) root' -∗ Q None root') -∗
  hwp (RB_INSERT_FINISH (up c) d e) root Q.
Proof.
  iIntros (Hc Hd Hr) "Hc He HQ". unfold RB_INSERT_FINISH. hsteps.
  iApply (hwp_set_pptr with "Hc"); [done|done|]. iIntros "Hc". hsteps.
  iApply (hwp_fuel (csize c)). iSplit; [by iApply repc_size|]. iIntros (fuel Hf). hstep1.
  destruct c as [|[d' p b s] c].
  - cbn [up]. hsteps. iApply "HQ".
    iApply (whole_intro [] (N e no_bits E E) 1 with "Hc"); [solve_ranked|done|done|done|cbn [rep]; by iFrame].
  - cbn [up]. hstep1.
    iApply (hwp_insert_color (F d' p b s :: c) fuel 0 (N e no_bits E E) e None with "Hc [He]").
    + pose proof (length_csize (F d' p b s :: c)). lia.
    + done.
    + split; [solve_ranked|by left].
    + done.
    + done.
    + done.
    + cbn [rep]. by iFrame.
    + iIntros (v root') "Hw". hsteps. by iApply "HQ".
Qed.

(** The frame of a child. *)
Definition frame_of (d : dir) (p : loc) (b : bits) (l r : tree) : frame :=
  match d with DL => F DL p b r | DR => F DR p b l end.

Lemma ranked_push d k p b l r c :
  ranked k (N p b l r) -> ranked_ctx k c ->
  ranked (k - gap (bit d b)) (sub d (N p b l r)) /\ ranked_ctx (k - gap (bit d b)) (frame_of d p b l r :: c).
Proof.
  intros (Hb & Hl & Hr) Hc. destruct d; cbn; split; try done.
  all: match goal with |- context [?a - ?g + ?g] => replace (a - g + g) with a by lia end; done.
Qed.

(** Where [elm] goes among elements in order: [None] if it is at [p]. *)
Section Insert.
Context (cmp : loc -> loc -> Z).

(** What the walk finds below a place: an equal element, or the lists before
    and after the place of [e]. *)
Fixpoint split_at (e : loc) (t : tree) : loc + list loc * list loc :=
  match t with
  | E => inr ([], [])
  | N p _ l r =>
      if cmp e p <? 0 then
        match split_at e l with inl q => inl q | inr (a, b) => inr (a, b ++ p :: inorder r) end
      else if 0 <? cmp e p then
        match split_at e r with inl q => inl q | inr (a, b) => inr (inorder l ++ p :: a, b) end
      else inl p
  end.

Lemma hwp_insert_walk t : forall c k fuel d n e root Q,
  (tsize t <= fuel)%nat -> at_dir c d -> ranked k t -> ranked_ctx k c -> root = top c (rt t) ->
  repc c (rt t) -∗ rep (up c) t -∗ e ↦ n -∗
  match split_at e t with
  | inl q => e ↦ n -∗ whole (lefts c ++ inorder t ++ rights c) root -∗ Q (Some q) root
  | inr (a, b) => ∀ root', whole (lefts c ++ a ++ e :: b ++ rights c) root' -∗ Q None root'
  end -∗
  hwp (insert_walk cmp fuel e (up c) d (rt t)) root Q.
Proof.
  induction t as [|p b l IHl r IHr]; intros c k fuel d n e root Q Hf Hd Hk Hc Hr; iIntros "Hc Ht He HQ".
  - cbn in Hk. subst. cbn [rt split_at]. destruct fuel; cbn [insert_walk];
      (iApply (hwp_insert_finish with "Hc He HQ"); done).
  - destruct fuel as [|fuel]; [cbn in Hf; lia|]. cbn in Hf. cbn [rt insert_walk split_at].
    destruct (cmp e p <? 0) eqn:E1; [|destruct (0 <? cmp e p) eqn:E2].
    + cbn [rep]. iDestruct "Ht" as "(Hp & Hl & Hr)". hsteps. destruct (ranked_push DL _ _ _ _ _ _ Hk Hc) as [Hk1 Hc1].
      iApply (IHl (F DL p b r :: c) with "[Hp Hr Hc] [Hl] He"); [lia|done|exact Hk1|exact Hc1|done|cbn [repc]; iFrame|done|].
      destruct (split_at e l) as [q|[x y]]; cbn [lefts rights inorder]; rewrite <- ?app_assoc; cbn [app]; rewrite <- ?app_assoc; cbn [app]; iExact "HQ".
    + cbn [rep]. iDestruct "Ht" as "(Hp & Hl & Hr)". hsteps. destruct (ranked_push DR _ _ _ _ _ _ Hk Hc) as [Hk1 Hc1].
      iApply (IHr (F DR p b l :: c) with "[Hp Hl Hc] [Hr] He"); [lia|done|exact Hk1|exact Hc1|done|cbn [repc]; iFrame|done|].
      destruct (split_at e r) as [q|[x y]]; cbn [lefts rights inorder]; rewrite <- ?app_assoc; cbn [app]; rewrite <- ?app_assoc; cbn [app]; iExact "HQ".
    + hsteps. iApply ("HQ" with "He"). iApply (whole_intro c (N p b l r) k with "Hc Ht"); done.
Qed.

(** [RB_INSERT] of an element that is not in the tree. *)
Lemma hwp_insert t n e root Q :
  wavl t -> root = rt t ->
  rep None t -∗ e ↦ n -∗
  match split_at e t with
  | inl q => e ↦ n -∗ whole (inorder t) root -∗ Q (Some q) root
  | inr (a, b) => ∀ root', whole (a ++ e :: b) root' -∗ Q None root'
  end -∗
  hwp (RB_INSERT cmp e) root Q.
Proof.
  iIntros ([k Hk] Hr) "Ht He HQ". unfold RB_INSERT. hstep1.
  iApply (hwp_fuel (tsize t)). iSplit; [by iApply rep_size|]. iIntros (fuel Hf). hsteps. rewrite Hr.
  iApply (hwp_insert_walk t [] k with "[] Ht He"); [lia|done|done|done|done|done|].
  cbn [lefts rights app]. destruct (split_at e t) as [q|[a b]]; by rewrite ?app_nil_r.
Qed.

(** The walk finds the place in a sorted list. *)
Lemma split_at_app e t a b : split_at e t = inr (a, b) -> inorder t = a ++ b.
Proof.
  revert a b. induction t as [|p bs l IHl r IHr]; intros a b; cbn; [by intros [= <- <-]|].
  destruct (_ <? 0); [|destruct (0 <? _); [|done]].
  - destruct (split_at e l) as [q|[x y]]; [done|]. intros [= <- <-]. rewrite (IHl _ _ eq_refl). by simplify_list_eq.
  - destruct (split_at e r) as [q|[x y]]; [done|]. intros [= <- <-]. rewrite (IHr _ _ eq_refl). by simplify_list_eq.
Qed.

Lemma sl_insert_before e p l1 l2 :
  cmp e p < 0 -> sl_insert cmp e (l1 ++ p :: l2) = ((sl_insert cmp e l1).1, (sl_insert cmp e l1).2 ++ p :: l2).
Proof.
  intros Hp. induction l1 as [|y l1 IH]; cbn; [by rewrite (proj2 (Z.ltb_lt _ _) Hp)|].
  destruct (_ <? 0); [done|]. destruct (0 <? _); [by rewrite IH|done].
Qed.
Lemma sl_insert_after e l1 l2 :
  (forall y, y ∈ l1 -> 0 < cmp e y) -> sl_insert cmp e (l1 ++ l2) = ((sl_insert cmp e l2).1, l1 ++ (sl_insert cmp e l2).2).
Proof.
  intros Hl. induction l1 as [|y l1 IH]; cbn; [by destruct (sl_insert cmp e l2)|].
  pose proof (Hl y ltac:(set_solver)) as Hy.
  rewrite (proj2 (Z.ltb_ge _ _)); [|lia]. rewrite (proj2 (Z.ltb_lt _ _) Hy). rewrite IH; [done|set_solver].
Qed.

(** The facts about the two sides of an element of a sorted list. *)
Lemma sorted_around e p l1 l2 :
  cmp_on cmp (e :: l1 ++ p :: l2) -> rb_sorted cmp (l1 ++ p :: l2) ->
  cmp_on cmp (e :: l1) /\ cmp_on cmp (e :: l2) /\ rb_sorted cmp l1 /\ rb_sorted cmp l2 /\
  (0 <= cmp e p -> forall y, y ∈ l1 -> 0 < cmp e y).
Proof.
  intros Hc Hs. unfold rb_sorted in Hs. apply StronglySorted_app in Hs as (Hbef & Hsl & Hsr).
  apply StronglySorted_inv in Hsr as [Hsr Hpr]. cbn beta in Hbef. split_and!; [| |done|done|].
  1,2: eapply cmp_on_sub; [|exact Hc]; set_solver.
  intros Hp y Hy. pose proof (Hbef y p Hy ltac:(set_solver)) as Hyp.
  apply (cmp_anti _ _ Hc); [set_solver..|]. destruct (decide (cmp e p = 0)) as [Hz|Hz].
  - apply (cmp_total _ _ Hc) in Hz; [by subst|set_solver..].
  - apply (cmp_trans _ _ Hc y p e); [set_solver..|done|]. apply (cmp_anti _ _ Hc); [set_solver..|lia].
Qed.

Lemma split_at_sorted e t :
  cmp_on cmp (e :: inorder t) -> rb_sorted cmp (inorder t) ->
  sl_insert cmp e (inorder t) = match split_at e t with inl q => (Some q, inorder t) | inr (a, b) => (None, a ++ e :: b) end.
Proof.
  induction t as [|p b l IHl r IHr]; intros Hc Hs; [done|]. cbn in Hc, Hs |- *.
  destruct (sorted_around _ _ _ _ Hc Hs) as (Hcl & Hcr & Hsl & Hsr & Hlt).
  destruct (Z.ltb_spec (cmp e p) 0) as [Hp|Hp].
  - rewrite sl_insert_before // IHl //. destruct (split_at e l) as [q|[x y]]; cbn; by simplify_list_eq.
  - rewrite sl_insert_after; [|by apply Hlt]. cbn. rewrite (proj2 (Z.ltb_ge _ _) Hp).
    destruct (Z.ltb_spec 0 (cmp e p)); [|done].
    rewrite IHr //. destruct (split_at e r) as [q|[x y]]; cbn; by simplify_list_eq.
Qed.

End Insert.
