(* ===== verification/RbtDel.v ===== *)
(** * Rank-balanced trees: removal

    [RB_REMOVE_COLOR] is given a place whose tree lost one rank; every step
    restores the ranks below the parent or moves the place up. *)

From stdpp Require Import gmap.
From iris.proofmode Require Import proofmode environments.
From S2P Require Import Prelude Rbt Tmrset Heapsl RbtFacts.

#[local] Set Default Proof Using "Type*".

Lemma hwp_remove_rotate c d p b q qb sl sr t h k root Q L :
  let s := N q qb sl sr in
  bit d b = true -> bit (opp d) b = false -> any_bit (flip_both qb) = true ->
  ranked (k - 1) t -> ranked_ctx k (F d p b s :: c) -> h = rt t -> root = top c (Some p) ->
  lefts (F d p b s :: c) ++ inorder t ++ rights (F d p b s :: c) = L ->
  p ↦ fnode d (up c) b h (Some q) -∗ rep (Some p) s -∗ repc c (Some p) -∗ rep (Some p) t -∗
  (∀ v root', whole L root' -∗ Q v root') -∗
  hwp (remove_rotate (up c) p q (flip_both qb) d h) root Q.
Proof.
  cbn zeta. iIntros (Hb1 Hb2 Hany Ht (_ & Hs & Hc) -> -> HL) "Hp Hs Hc Ht HQ".
  cbn [rep]. iDestruct "Hs" as "(Hq & Hsl & Hsr)". destruct Hs as (Hqb & Hl & Hr).
  unfold remove_rotate, RB_STRICT_HST.
  destruct d, b as [[] []], qb as [[] []]; try done; cbn in Hl, Hr, Hc; hsteps.
  1,3: iApply (hwp_rotate with "Hp Hq Hsl"); [done|]; iIntros "Hp Hq Hsl"; hsteps; swap_in.
  5,6: iApply (hwp_rotate with "Hp Hq Hsr"); [done|]; iIntros "Hp Hq Hsr"; hsteps; swap_in.
  - finish_at (N q (Bits true true) (N p no_bits t sl) sr) (k + 2).
  - finish_at (N q (Bits false true) (N p (Bits true false) t sl) sr) (k + 2).
  - destruct sl as [|e [xl xr] el er]; [cbn in Hl; rank_facts; lia|].
    destruct Hl as (Heb & Hel & Her). cbn [rep]. iDestruct "Hsl" as "(He & Hel & Her)". cbn [rt]. hsteps.
    iApply (hwp_rotate with "Hq He Her"); [done|]. iIntros "Hq He Her". hsteps.
    destruct xl, xr; hsteps;
      (iApply (hwp_rotate with "Hp He Hel"); [done|]; iIntros "Hp He Hel"; hsteps; swap_in).
    all: match type of Heb with b_l (Bits ?xl ?xr) = true -> _ =>
      hsimp in Hel; hsimp in Her; finish_at (N e both_bits (N p (Bits false xl) t el) (N q (Bits xr false) er sr)) (k + 2) end.
  - destruct sr as [|e [xl xr] el er]; [cbn in Hr; rank_facts; lia|].
    destruct Hr as (Heb & Hel & Her). cbn [rep]. iDestruct "Hsr" as "(He & Hel & Her)". cbn [rt]. hsteps.
    iApply (hwp_rotate with "Hq He Hel"); [done|]. iIntros "Hq He Hel". hsteps.
    destruct xl, xr; hsteps;
      (iApply (hwp_rotate with "Hp He Her"); [done|]; iIntros "Hp He Her"; hsteps; swap_in).
    all: match type of Heb with b_l (Bits ?xl ?xr) = true -> _ =>
      hsimp in Hel; hsimp in Her; finish_at (N e both_bits (N q (Bits false xl) sl el) (N p (Bits xr false) er t)) (k + 2) end.
  - finish_at (N q (Bits true true) sl (N p no_bits sr t)) (k + 2).
  - finish_at (N q (Bits true false) sl (N p (Bits false true) sr t)) (k + 2).
Qed.

(** The sibling of an empty place is not empty. *)
Definition sibling_ok (c : ctx) (t : tree) : Prop := match c with [] => True | F _ _ _ s :: _ => t = E -> s <> E end.

Lemma sibling_node c p b l r : sibling_ok c (N p b l r).
Proof. by destruct c as [|[]]. Qed.

(** The place moves up to the parent, now the tree [t] of rank [k - 1]. *)
Ltac go_up IH t k :=
  lazymatch goal with HL : lefts _ ++ _ = ?L |- context [repc ?c _] =>
    iApply (IH _ k t with "Hc [-HQ] HQ");
    [cbn in *; lia|solve_ranked|solve_ranked|apply sibling_node|done|done|rewrite -HL; cbn; by simplify_list_eq|cbn [rep rt]; iFrame]
  end.

Lemma hwp_remove_loop c : forall fuel k t h root Q L,
  (length c <= fuel)%nat -> ranked (k - 1) t -> ranked_ctx k c -> sibling_ok c t -> h = rt t -> root = top c h ->
  lefts c ++ inorder t ++ rights c = L ->
  repc c h -∗ rep (up c) t -∗ (∀ v root', whole L root' -∗ Q v root') -∗
  hwp (match up c with Some p => remove_loop fuel p h | None => mret None end) root Q.
Proof.
  induction c as [|[d p b s] c IH]; intros fuel k t h root Q L Hf Ht Hc Hs0 Hh Hr HL; iIntros "Hc Ht HQ".
  { cbn [up]. hsteps. iApply "HQ". rewrite Hh. iApply (whole_intro [] t (k - 1) with "Hc Ht"); [done|done|by rewrite Hr Hh|done]. }
  destruct fuel as [|fuel]; [cbn in Hf; lia|].
  cbn [up repc remove_loop]. iDestruct "Hc" as "(Hp & Hs & Hc)". hsteps.
  assert (Hu : (n_up (fnode d (up c) b h (rt s))) = (up c, b)) by (by destruct d). rewrite Hu. hsimp.
  iAssert (⌜rt s <> h⌝)%I as %Hne.
  { destruct t as [|e tb tl tr]; cbn in Hh; subst.
    - iPureIntro. cbn in Hs0. destruct s; [by destruct Hs0|done].
    - by iApply (reps_ne with "Ht Hs"). }
  assert (Hk1 : k = 1 -> s <> E).
  { intros ->. apply Hs0. by apply (ranked_pos 0 t). }
  iApply (hwp_elmdir with "Hp"); [done|]. iIntros "Hp". cbn zeta.
  destruct (bit d (flip d b)) eqn:Eb.
  { destruct Hc as (Hb & Hs & Hc), b as [[] []], d; try done; cbn in Hb, Hs, Hc; hsteps; iApply "HQ"; subst h.
    all: match type of Eb with bit ?d (flip _ ?b) = _ =>
      let t' := eval cbn in (fill (F d p (flip d b) s) t) in finish_at t' (k + 1) end.
    all: intros Hk; apply Hk1; [lia|]; apply ranked_pos in Hs as [_ Hs]; apply Hs; lia. }
  destruct (any_bit (flip d b)) eqn:Ea.
  { destruct Hc as (Hb & Hs & Hc).
    destruct d, b as [[] []]; try done; cbn in Hb, Hs, Hc; hsteps; subst h.
    - go_up IH (N p (Bits true false) t s) (k + 2).
    - go_up IH (N p (Bits false true) s t) (k + 2). }
  destruct s as [|q qb sl sr].
  { exfalso. destruct Hc as (_ & Hs & _). apply ranked_pos in Ht as [Ht _].
    destruct d, b as [[] []]; try done; cbn in Hs; lia. }
  destruct (any_bit (flip_both qb)) eqn:Eq.
  - destruct d, b as [[] []]; try done; cbn [rep rt]; iDestruct "Hs" as "(Hq & Hsl & Hsr)"; hsteps; rewrite Eq; hsimp.
    + iApply (hwp_remove_rotate c DL p _ q qb sl sr t with "Hp [$Hq $Hsl $Hsr] Hc Ht HQ"); done.
    + iApply (hwp_remove_rotate c DR p _ q qb sl sr t with "Hp [$Hq $Hsl $Hsr] Hc Ht HQ"); done.
  - destruct Hc as (Hb & (Hqb & Hl & Hrr) & Hc).
    destruct d, b as [[] []], qb as [[] []]; try done; cbn in Hb, Hqb, Hl, Hrr, Hc;
      cbn [rep rt]; iDestruct "Hs" as "(Hq & Hsl & Hsr)"; hsteps; subst h.
    + go_up IH (N p (Bits true false) t (N q no_bits sl sr)) (k + 2).
    + go_up IH (N p (Bits false true) (N q no_bits sl sr) t) (k + 2).
Qed.

Lemma hwp_remove_color fuel d p b s c k t h root Q L :
  (length (F d p b s :: c) <= fuel)%nat -> ranked (k - 1) t -> ranked_ctx k (F d p b s :: c) -> h = rt t ->
  root = top c (Some p) -> lefts (F d p b s :: c) ++ inorder t ++ rights (F d p b s :: c) = L ->
  repc (F d p b s :: c) h -∗ rep (Some p) t -∗ (∀ v root', whole L root' -∗ Q v root') -∗
  hwp (RB_REMOVE_COLOR fuel p h) root Q.
Proof.
  iIntros (Hf Ht Hc Hh Hr HL) "Hc Ht HQ". unfold RB_REMOVE_COLOR.
  destruct (decide (rt t = None /\ rt s = None)) as [[Et Es]|Hne].
  1: destruct t; [|done]; destruct s; [|done].
  - cbn in Hh, Ht. subst h. cbn [repc]. iDestruct "Hc" as "(Hp & _ & Hc)".
    destruct Hc as (Hb & Hs & Hc). replace k with 1 in * by lia.
    destruct d, b as [[] []]; cbn in Hs, Hb, Hc; try lia; hsteps;
      rewrite bool_decide_eq_true_2 //; hsimp; hsteps.
    all: iApply (hwp_remove_loop c fuel 2 (N p no_bits E E) (Some p) with "Hc [Hp] HQ");
       [cbn in Hf; lia|solve_ranked|solve_ranked|apply sibling_node|done|done
       |rewrite -HL; cbn; by simplify_list_eq|cbn [rep]; by iFrame].
  - iAssert (⌜rt s <> h⌝)%I as %Hsh.
    { destruct t as [|e eb el er]; cbn in Hh; subst h.
      - iPureIntro. intros Hs. by apply Hne.
      - cbn [repc]. iDestruct "Hc" as "(_ & Hs & _)". by iApply (reps_ne with "Ht Hs"). }
    cbn [repc]. iDestruct "Hc" as "(Hp & Hs & Hc)".
    assert (Hbd : forall r l, r = rt s \/ l = rt s -> bool_decide (r = h) && bool_decide (l = h) = false).
    { intros r l [->| ->]; [|rewrite andb_comm]; by rewrite bool_decide_eq_false_2. }
    destruct d; hsteps; (rewrite Hbd; [|by auto]).
    + iApply (hwp_remove_loop (F DL p b s :: c) fuel k t h with "[Hp Hs Hc] Ht HQ"); [done|done|done| |done|done|done|cbn [repc]; iFrame].
      cbn. intros -> ->. by apply Hne; split.
    + iApply (hwp_remove_loop (F DR p b s :: c) fuel k t h with "[Hp Hs Hc] Ht HQ"); [done|done|done| |done|done|done|cbn [repc]; iFrame].
      cbn. intros -> ->. by apply Hne; split.
Qed.

(** ** The node that is taken out *)

(** An element of the tree can be looked at. *)
Lemma rep_node u t p : p ∈ inorder t -> rep u t ⊢ ∃ n, p ↦ n ∗ (p ↦ n -∗ rep u t).
Proof.
  revert u. induction t as [|q b l IHl r IHr]; intros u; cbn [inorder rep]; [by intros ?%elem_of_nil|].
  rewrite elem_of_app elem_of_cons. iIntros ([Hp|[->|Hp]]) "(Hq & Hl & Hr)".
  - iDestruct (IHl with "Hl") as (n) "[Hp Hl]"; [done|]. iExists n. iFrame. iIntros "Hp". by iApply "Hl".
  - iExists _. iFrame. iIntros "$".
  - iDestruct (IHr with "Hr") as (n) "[Hp Hr]"; [done|]. iExists n. iFrame. iIntros "Hp". by iApply "Hr".
Qed.
Lemma whole_node L root p : p ∈ L -> whole L root ⊢ ∃ n, p ↦ n ∗ (p ↦ n -∗ whole L root).
Proof.
  iIntros (Hp) "(%t & (%Ht & %Hw & %Hr) & Ht)". subst L.
  iDestruct (rep_node with "Ht") as (n) "[Hn Ht]"; [done|]. iExists n. iFrame "Hn".
  iIntros "Hn". iExists t. iSplit; [done|]. by iApply "Ht".
Qed.

(** A tree of one node at most, below a place that wants one rank more. *)
Definition tiny (k : Z) (t : tree) : Prop := (t = E /\ k = 1) \/ exists e b, t = N e b E E /\ k = 2.

Lemma tiny_child d k p b l r : ranked k (N p b l r) -> sub d (N p b l r) = E -> tiny k (sub (opp d) (N p b l r)).
Proof.
  intros (Hb & Hl & Hr) He. destruct b as [bl br].
  assert (Hx : exists x y t, ranked 0 E /\ k = gap x /\ ranked (k - gap y) t /\ t = sub (opp d) (N p (Bits bl br) l r) /\ (x = true -> y = true -> k <> 2)).
  { destruct d; cbn in He; subst; cbn in Hl, Hr, Hb.
    - exists bl, br, r. split_and!; [done|lia|done|done|done].
    - exists br, bl, l. split_and!; [done|lia|done|done|auto]. }
  destruct Hx as (x & y & t & _ & Hk & Ht & <- & Hxy).
  pose proof (ranked_pos _ _ Ht) as [Hp Hz].
  destruct x, y; cbn in Hk, Ht, Hp, Hz; subst k; try lia.
  - right. destruct t as [|e [el er] tl tr]; [cbn in Ht; lia|]. destruct Ht as (_ & H1 & H2).
    cbn in H1, H2. apply ranked_pos in H1 as [H1 E1], H2 as [H2 E2]. exists e, (Bits el er).
    destruct el, er; cbn in *; try lia. by rewrite (proj1 E1) // (proj1 E2).
  - left. split; [|done]. apply Hz. done.
Qed.

Lemma tiny_ranked k e b : tiny k (N e b E E) -> k = 2.
Proof. intros [[? _]|(? & ? & _ & ->)]; done. Qed.

(** The frames between a place and a node [u] above them. *)
Definition upu (u : option loc) (c : ctx) : option loc := match c with [] => u | F _ p _ _ :: _ => Some p end.
Fixpoint repcu (u : option loc) (c : ctx) (hole : option loc) : hprop :=
  match c with
  | [] => emp
  | F d p b s :: c => p ↦ fnode d (upu u c) b hole (rt s) ∗ rep (Some p) s ∗ repcu u c (Some p)
  end%I.

Lemma rep_plug_u u c t : rep u (plug c t) ⊣⊢ repcu u c (rt t) ∗ rep (upu u c) t.
Proof.
  revert t. induction c as [|[[] p b s] c IH]; intros t; cbn; [by rewrite left_id|..]; rewrite IH; cbn;
    (iSplit; [iIntros "(?&?&?&?)"|iIntros "((?&?&?)&?)"]; iFrame).
Qed.
Lemma up_app c1 c2 : up (c1 ++ c2) = upu (up c2) c1.
Proof. by destruct c1 as [|[]]. Qed.
Lemma top_app c1 c2 h : top (c1 ++ c2) h = top c2 (top c1 h).
Proof. revert h. induction c1 as [|[] c1 IH]; intros h; cbn; auto. Qed.
Lemma repcu_app c1 c2 h : repcu (up c2) c1 h ∗ repc c2 (top c1 h) ⊢ repc (c1 ++ c2) h.
Proof.
  revert h. induction c1 as [|[d p b s] c1 IH]; intros h; cbn; [iIntros "[_ $]"|].
  rewrite up_app. iIntros "[($ & $ & Hc1) Hc2]". iApply IH. iFrame.
Qed.

Lemma hwp_set_base c : forall u h p x root Q,
  c <> [] -> top c h = Some p ->
  repcu u c h -∗ (repcu (Some x) c h -∗ Q tt root) -∗ hwp (RB_SET_PARENT p x) root Q.
Proof.
  induction c as [|[d q b s] c IH]; intros u h p x root Q Hne Hp; [done|]. iIntros "Hc HQ". cbn [repcu].
  iDestruct "Hc" as "(Hq & Hs & Hc)". destruct c as [|f c].
  - cbn in Hp. injection Hp as ->. destruct d; hsteps; iApply "HQ"; cbn [repcu]; iFrame.
  - iApply (IH with "Hc"); [done|exact Hp|]. iIntros "Hc". iApply "HQ". destruct f as [fd fp fb fs]. iFrame.
Qed.

Lemma hwp_remove_tail fuel c in_ k t h root Q L :
  (length c <= fuel)%nat -> ranked (k - 1) t -> ranked_ctx k c -> h = rt t -> root = top c h ->
  lefts c ++ inorder t ++ rights c = L ->
  repc c h -∗ rep (up c) t -∗ (∀ root', whole L root' -∗ Q tt root') -∗
  hwp (match up c with
       | None => mret tt
       | Some p =>
           _ ← RB_REMOVE_COLOR fuel p h;
           if bool_decide (up c = in_) then
             l ← get_link DL p;
             match l with None => _ ← RB_PARENT p; mret tt | Some _ => mret tt end
           else mret tt
       end) root Q.
Proof.
  iIntros (Hf Ht Hc Hh Hr HL) "Hc Ht HQ". destruct c as [|[d p b s] c].
  - cbn [up]. hsteps. iApply "HQ". subst h. by iApply (whole_intro [] t (k - 1) with "Hc Ht").
  - cbn [up]. hstep1. iApply (hwp_remove_color fuel d p b s c k t with "Hc Ht"); [done..|].
    iIntros (v root') "Hw". cbv beta. destruct (bool_decide _); [|hsteps; by iApply "HQ"].
    iDestruct (whole_node L root' p with "Hw") as (n) "[Hp Hw]".
    { subst L. destruct d; cbn; rewrite !elem_of_app !elem_of_cons; tauto. }
    hsteps. destruct (n_l n); hsteps; iApply "HQ"; by iApply "Hw".
Qed.

Lemma hwp_remove_finish fuel c c1 in_ out n u k t root Q L :
  (length c1 <= fuel)%nat -> tiny k t -> ranked_ctx k c1 -> root = top c (Some out) -> top c1 (rt t) = top c in_ ->
  lefts c1 ++ inorder t ++ rights c1 = L ->
  repc c (Some out) -∗ out ↦ n -∗ (repc c in_ -∗ repc c1 (rt t)) -∗ rep u t -∗
  (∀ root', whole L root' -∗ out ↦ n -∗ Q out root') -∗
  hwp (remove_finish fuel (up c) out in_ (rt t) (up c1)) root Q.
Proof.
  iIntros (Hf Ht Hc Hr Htop HL) "Hc Hout Hc1 Ht HQ". unfold remove_finish. hstep1.
  iApply (hwp_swap_child with "Hc Hout"); [done|]. iIntros "Hc Hout". iSpecialize ("Hc1" with "Hc"). rewrite -Htop. hstep1.
  iAssert (∀ root', whole L root' -∗ hwp (mret out) root' Q)%I with "[HQ Hout]" as "HQ".
  { iIntros (root') "Hw". hsteps. iApply ("HQ" with "Hw Hout"). }
  destruct Ht as [[-> ->]|(e & b & -> & ->)]; cbn [rt rep]; hsteps.
  - iApply (hwp_remove_tail fuel c1 in_ 1 E with "Hc1 Ht HQ"); done.
  - iDestruct "Ht" as "(He & _)". hsteps.
    iApply (hwp_remove_tail fuel c1 in_ 2 (N e no_bits E E) with "Hc1 [He] HQ"); try done. cbn [rep]. by iFrame.
Qed.

(** The last node in direction [d]. *)
Fixpoint edge (d : dir) (t : tree) (p : loc) : loc :=
  match t with E => p | N q _ l r => edge d (match d with DL => l | DR => r end) q end.

Lemma hwp_walk_down d t : forall fuel u p root Q,
  rt t = Some p -> (tsize t <= fuel)%nat ->
  rep u t -∗ (rep u t -∗ Q (edge d t p) root) -∗ hwp (walk_down fuel d p) root Q.
Proof.
  induction t as [|q b l IHl r IHr]; intros fuel u p root Q Hp Hf; [done|]. injection Hp as ->.
  destruct fuel as [|fuel]; [cbn in Hf; lia|]. cbn in Hf.
  cbn [rep walk_down]. iIntros "(Hp & Hl & Hr) HQ". destruct d; hsteps.
  - destruct l as [|q lb ll lr]; [cbn [rt]; hsteps; iApply "HQ"; iFrame|]. cbn [rt].
    iApply (IHl with "Hl"); [done|lia|]. iIntros "Hl". iApply "HQ". iFrame.
  - destruct r as [|q rb rl rr]; [cbn [rt]; hsteps; iApply "HQ"; iFrame|]. cbn [rt].
    iApply (IHr with "Hr"); [done|lia|]. iIntros "Hr". iApply "HQ". iFrame.
Qed.

Definition is_left (f : frame) : Prop := match f with F DL _ _ _ => True | _ => False end.

Lemma edge_split r p : r <> E -> exists cl q qb qr,
  r = plug cl (N q qb E qr) /\ edge DL r p = q /\ Forall is_left cl.
Proof.
  revert p. induction r as [|q b l IHl r _]; intros p Hr; [done|]. destruct l as [|e eb el er].
  - by exists [], q, b, r.
  - destruct (IHl q ltac:(done)) as (cl & x & xb & xr & -> & Hx & Hcl).
    exists (cl ++ [F DL q b r]), x, xb, xr. rewrite plug_app. split_and!; [done|done|].
    apply Forall_app; split; [done|by repeat constructor].
Qed.
Lemma lefts_app c1 c2 : lefts (c1 ++ c2) = lefts c2 ++ lefts c1.
Proof. induction c1 as [|[[] p b s] c1 IH]; cbn; rewrite ?IH ?app_nil_r //. by simplify_list_eq. Qed.
Lemma rights_app c1 c2 : rights (c1 ++ c2) = rights c1 ++ rights c2.
Proof. induction c1 as [|[[] p b s] c1 IH]; cbn; rewrite ?IH //. by simplify_list_eq. Qed.
Lemma lefts_left cl : Forall is_left cl -> lefts cl = [].
Proof. induction 1 as [|[[] p b s] cl H _ IH]; done. Qed.
Lemma csize_app c1 c2 : csize (c1 ++ c2) = (csize c1 + csize c2)%nat.
Proof. induction c1 as [|[] c1 IH]; cbn; [done|]. lia. Qed.

(** One child at most: it takes the place. *)
Lemma hwp_remove_one fuel c out bo l r in_ k root Q L n t :
  (csize c <= fuel)%nat -> ranked k (N out bo l r) -> ranked_ctx k c -> root = top c (Some out) ->
  (l = E /\ t = r \/ r = E /\ t = l) -> in_ = rt t -> lefts c ++ inorder t ++ rights c = L ->
  repc c (Some out) -∗ out ↦ n -∗ rep (Some out) t -∗
  (∀ root' n', whole L root' -∗ out ↦ n' -∗ Q out root') -∗
  hwp (remove_finish fuel (up c) out in_ in_ (up c)) root Q.
Proof.
  iIntros (Hf Hk Hc Hr Ht Hi HL) "Hc Hout Ht HQ". subst in_.
  assert (Htiny : tiny k t).
  { destruct Ht as [[-> ->]|[-> ->]]; [by apply (tiny_child DL k out bo E r)|by apply (tiny_child DR k out bo l E)]. }
  iApply (hwp_remove_finish fuel c c (rt t) out n (Some out) k t with "Hc Hout [] Ht [HQ]"); try done.
  - pose proof (length_csize c). lia.
  - iIntros "$".
  - iIntros (root') "Hw Ho". iApply ("HQ" with "Hw Ho").
Qed.

Lemma ranked_relabel j cl d p q b s c : ranked_ctx j (cl ++ F d p b s :: c) -> ranked_ctx j (cl ++ F d q b s :: c).
Proof.
  revert j. induction cl as [|[d' p' b' s'] cl IH]; intros j; cbn; [done|].
  intros (Hb & Hs & Hc). split_and!; [done|done|by apply IH].
Qed.

Lemma repcu_top_ne u c h p q n : c <> [] -> top c h = Some p -> q ↦ n -∗ repcu u c h -∗ ⌜p <> q⌝.
Proof.
  iIntros (Hne Hp) "Hq Hc". iInduction c as [|[d x b s] c] "IH" forall (h Hp); [done|]. cbn [repcu].
  iDestruct "Hc" as "(Hx & _ & Hc)". destruct c as [|f c].
  - cbn in Hp. injection Hp as ->. iApply (hp_node_ne with "Hx Hq").
  - by iApply ("IH" with "[//] [//] Hq Hc").
Qed.

(** The ranks around the first node [q] of the right subtree, once [q] is in the
    place of the node above. *)
Lemma ranked_splice k out bo l r c cl q qb qr :
  ranked k (N out bo l r) -> ranked_ctx k c -> r = plug cl (N q qb E qr) ->
  exists j, tiny j qr /\ ranked_ctx j (cl ++ F DR q bo l :: c).
Proof.
  intros Hk Hc ->. destruct (ranked_plug k c _ Hk Hc) as [k' Hp].
  replace (plug c (N out bo l (plug cl (N q qb E qr)))) with (plug (cl ++ F DR out bo l :: c) (N q qb E qr)) in Hp
    by (by rewrite plug_app).
  destruct (ranked_unplug _ _ _ Hp) as (j & Hj & Hcj). exists j. split.
  - by apply (tiny_child DL j q qb E qr).
  - by eapply ranked_relabel.
Qed.
Lemma splice_elements c cl q bo l qb qr L :
  Forall is_left cl -> lefts c ++ (inorder l ++ inorder (plug cl (N q qb E qr))) ++ rights c = L ->
  lefts (cl ++ F DR q bo l :: c) ++ inorder qr ++ rights (cl ++ F DR q bo l :: c) = L.
Proof.
  intros Hcl <-. rewrite lefts_app rights_app inorder_plug (lefts_left cl) //. cbn. by simplify_list_eq.
Qed.

Lemma hwp_remove c out bo l r k root Q :
  ranked k (N out bo l r) -> ranked_ctx k c -> root = top c (Some out) ->
  repc c (Some out) -∗ rep (up c) (N out bo l r) -∗
  (∀ root' n, whole (lefts c ++ (inorder l ++ inorder r) ++ rights c) root' -∗ out ↦ n -∗ Q out root') -∗
  hwp (RB_REMOVE out) root Q.
Proof.
  iIntros (Hk Hc Hr) "Hc Ht HQ". unfold RB_REMOVE. hstep1.
  iApply (hwp_fuel (csize c + tsize (N out bo l r))). iSplit.
  { iApply hp_size_sep. iSplitL "Hc"; [by iApply repc_size|by iApply rep_size]. }
  iIntros (fuel Hf). cbn [rep]. iDestruct "Ht" as "(Hout & Hl & Hr)". hsteps. cbn in Hf.
  destruct r as [|q0 qb0 rl0 rr0] eqn:Er.
  { cbn [rt]. iApply (hwp_remove_one fuel c out bo l E (rt l) k with "Hc Hout Hl"); [lia|done|done|done|by right|done|by simplify_list_eq|].
    iIntros (root' n') "Hw Ho". iApply ("HQ" with "[Hw] Ho"). by rewrite app_nil_r. }
  destruct l as [|q1 qb1 ll0 lr0] eqn:El.
  { cbn [rt]. rewrite -Er. iApply (hwp_remove_one fuel c out bo E r (Some q0) k with "Hc Hout Hr"); [lia|by subst|done|done|by left|by subst|done|].
    iIntros (root' n') "Hw Ho". iApply ("HQ" with "[Hw] Ho"). done. }
  cbn [rt]. rewrite -El -Er. hstep1.
  iApply (hwp_walk_down DL r with "Hr"); [by rewrite Er|rewrite Er; lia|]. iIntros "Hr".
  destruct (edge_split r q0) as (cl & q & qb & qr & Hrq & -> & Hcl); [by subst|].
  rewrite -El -Er in Hk, Hf. assert (Hl1 : rt l = Some q1) by (by subst l). assert (Hr0 : rt r = Some q0) by (by rewrite Er).
  clear El Er. destruct (ranked_splice k out bo l r c cl q qb qr Hk Hc Hrq) as (j & Hj & Hcj).
  subst r. iEval (rewrite rep_plug_u) in "Hr". iDestruct "Hr" as "[Hcl Hq]". cbn [rep]. iDestruct "Hq" as "(Hq & _ & Hqr)". hstep1.
  iAssert (∀ Q, rep (Some out) l -∗ (rep (Some q) l -∗ Q tt root) -∗ hwp (RB_SET_PARENT q1 q) root Q)%I as "Hset".
  { iIntros (Q') "Hl HQ". iPoseProof (hwp_set_parent with "Hl HQ") as "H". by rewrite Hl1. }
  iApply ("Hset" with "Hl"). iIntros "Hl". hsteps.
  assert (HL : exists L, lefts c ++ (inorder l ++ inorder (plug cl (N q qb E qr))) ++ rights c = L) by by eexists.
  destruct HL as [L HL]. rewrite HL. pose proof (splice_elements c cl q bo l qb qr L Hcl HL) as HL'.
  destruct cl as [|[[] p1 b1 s1] cl]; [| |by apply Forall_cons in Hcl as [[] _]].
  - cbn in Hr0. injection Hr0 as <-. rewrite bool_decide_eq_true_2 //; hsimp; hsteps.
    iApply (hwp_remove_finish fuel c (F DR q bo l :: c) (Some q) out _ (Some q) j qr with "Hc Hout [Hq Hl] Hqr [HQ]");
      [|exact Hj|exact Hcj|done|done|exact HL'| |].
    + pose proof (length_csize c). cbn. lia.
    + iIntros "Hc". cbn [repc fnode]. rewrite Hl1. iFrame.
    + iIntros (root') "Hw Ho". iApply ("HQ" with "Hw Ho").
  - rewrite -top_rt in Hr0. iDestruct (repcu_top_ne with "Hq Hcl") as %Hne; [done|exact Hr0|].
    rewrite bool_decide_eq_false_2 //; hsimp; do 2 hstep1.
    iApply (hwp_set_base with "Hcl"); [done|exact Hr0|]. iIntros "Hcl".
    cbn [repcu upu]. iDestruct "Hcl" as "(Hp1 & Hs1 & Hcl)". hsteps.
    iApply (hwp_remove_finish fuel c ((F DL p1 b1 s1 :: cl) ++ F DR q bo l :: c) (Some q) out _ (Some q) j qr with "Hc Hout [Hq Hl Hp1 Hs1 Hcl] [Hqr] [HQ]");
      [|exact Hj|exact Hcj|done|by rewrite top_app|exact HL'| | |].
    + rewrite tsize_plug in Hf. cbn in Hf. rewrite length_app. cbn.
      pose proof (length_csize c). pose proof (length_csize cl). lia.
    + iIntros "Hc". iApply repcu_app. cbn [up repcu upu repc fnode].
      replace (top (F DL p1 b1 s1 :: cl) (rt qr)) with (Some q0) by (by rewrite -Hr0). rewrite Hl1. iFrame.
    + iFrame.
    + iIntros (root') "Hw Ho". iApply ("HQ" with "Hw Ho").
Qed.
