(* ===== verification/RbtWalk.v ===== *)
(** * Rank-balanced trees: walks, and the interface of the timer set

    The walks visit the elements in order, the diagnostic accepts the tree, and
    the macros on nodes in memory implement [OrdTree]. *)

From stdpp Require Import gmap.
From iris.proofmode Require Import proofmode environments.
From S2P Require Import Prelude Rbt Tmrset Heapsl RbtFacts RbtDel.

#[local] Set Default Proof Using "Type*".

(** ** Positions *)

Lemma unzip t l1 p l2 : inorder t = l1 ++ p :: l2 ->
  exists c b l r, t = plug c (N p b l r) /\ l1 = lefts c ++ inorder l /\ l2 = inorder r ++ rights c.
Proof.
  revert l1 l2. induction t as [|q b l IHl r IHr]; intros l1 l2; cbn [inorder]; [by destruct l1|].
  intros [z [[Hl Hz]|[Hl Hz]]]%app_eq_app.
  - destruct z as [|p' z]; cbn in Hz; injection Hz as -> ->.
    + exists [], b, l, r. by rewrite Hl !app_nil_r.
    + destruct (IHl l1 z Hl) as (c & b' & l' & r' & -> & -> & ->).
      exists (c ++ [F DL q b r]), b', l', r'. rewrite plug_app lefts_app rights_app. cbn. split_and!; [done|done|by simplify_list_eq].
  - destruct z as [|q' z]; cbn in Hz; [injection Hz as <- <-; exists [], b, l, r; by rewrite Hl !app_nil_r|injection Hz as <- Hz].
    destruct (IHr z l2 Hz) as (c & b' & l' & r' & -> & -> & ->).
    exists (c ++ [F DR q b l]), b', l', r'. rewrite plug_app lefts_app rights_app. cbn. subst l1. split_and!; [done|by simplify_list_eq|by simplify_list_eq].
Qed.

(** The elements seen from [p] in direction [d], nearest first. *)
Definition beyond (d : dir) (c : ctx) (l r : tree) : list loc :=
  match d with DR => inorder r ++ rights c | DL => reverse (lefts c ++ inorder l) end.
Fixpoint next_up (d : dir) (c : ctx) : option loc :=
  match c with [] => None | F d' p _ _ :: c => if decide (d' = d) then next_up d c else Some p end.

Lemma next_up_head d c : next_up d c = head (match d with DR => rights c | DL => reverse (lefts c) end).
Proof. induction c as [|[[] p b s] c IH]; destruct d; cbn [next_up rights lefts]; try done; by rewrite ?app_assoc ?reverse_snoc. Qed.

Lemma head_app_l {A} (l1 l2 : list A) : l1 <> [] -> head (l1 ++ l2) = head l1.
Proof. by destruct l1. Qed.
Lemma inorder_nonempty t : t <> E -> inorder t <> [].
Proof. destruct t as [|p b l r]; [done|]. intros _. cbn. by destruct (inorder l). Qed.
Lemma reverse_nonempty {A} (l : list A) : l <> [] -> reverse l <> [].
Proof. intros Hl Hr. apply Hl. rewrite -(reverse_involutive l) Hr. done. Qed.

Lemma edge_head d t p : t <> E ->
  head (match d with DL => inorder t | DR => reverse (inorder t) end) = Some (edge d t p).
Proof.
  revert p. induction t as [|q b l IHl r IHr]; intros p Ht; [done|]. destruct d; cbn [inorder edge].
  - destruct l as [|x bx lx rx]; [done|]. rewrite -(IHl q) //. by apply head_app_l, inorder_nonempty.
  - rewrite reverse_app reverse_cons. destruct r as [|x bx lx rx]; [done|].
    rewrite -(IHr q) // -app_assoc. by apply head_app_l, reverse_nonempty, inorder_nonempty.
Qed.

Lemma hwp_climb d c : forall fuel u n p root (Q : option loc -> option loc -> hprop),
  (length c < fuel)%nat -> n_up n = (up c, u) ->
  repc c (Some p) -∗ p ↦ n -∗ (repc c (Some p) -∗ p ↦ n -∗ Q (next_up d c) root) -∗
  hwp (climb fuel d p) root Q.
Proof.
  induction c as [|[d' q b s] c IH]; intros fuel u n p root Q Hf Hn; (destruct fuel as [|fuel]; [cbn in Hf; lia|]);
    cbn [repc climb]; iIntros "Hc Hp HQ"; hsteps; rewrite Hn; cbn [up fst].
  - hsteps. iApply ("HQ" with "Hc Hp").
  - iDestruct "Hc" as "(Hq & Hs & Hc)". iDestruct (rep_root_ne with "Hp Hs") as %Hne. hsteps.
    destruct (decide (d' = d)) as [->|Hd].
    + rewrite bool_decide_eq_true_2; [|by destruct d].
      iApply (IH fuel b with "Hc Hq"); [cbn in Hf; lia|by destruct d|]. iIntros "Hc Hq".
      cbn [next_up]. rewrite decide_True //. iApply ("HQ" with "[$Hc $Hq $Hs] Hp").
    + rewrite bool_decide_eq_false_2; [|by destruct d, d'; cbn; congruence].
      hsteps. rewrite Hn. cbn [next_up fst]. rewrite decide_False //. iApply ("HQ" with "[$Hc $Hq $Hs] Hp").
Qed.

(** [RB_NEXT] and [RB_PREV] at a position. *)
Lemma hwp_step d c p b l r root (Q : option loc -> option loc -> hprop) :
  rep None (plug c (N p b l r)) -∗
  (rep None (plug c (N p b l r)) -∗ Q (head (beyond d c l r)) root) -∗
  hwp (rb_step d p) root Q.
Proof.
  iIntros "Ht HQ". unfold rb_step. hstep1. iApply (hwp_fuel (tsize (plug c (N p b l r)))).
  iSplit; [by iApply rep_size|]. iIntros (fuel Hf). rewrite tsize_plug in Hf. cbn in Hf. pose proof (length_csize c).
  rewrite !rep_plug. cbn [rep rt]. iDestruct "Ht" as "(Hc & Hp & Hl & Hr)".
  assert (Hh : head (beyond d c l r) =
    match rt (match d with DL => l | DR => r end) with
    | Some x => Some (edge (opp d) (match d with DL => l | DR => r end) x)
    | None => next_up d c
    end).
  { rewrite next_up_head. destruct d; cbn [beyond opp].
    - rewrite reverse_app. destruct l as [|x bx lx rx]; [done|]. cbn [rt]. rewrite -(edge_head DR _ x) //.
      by apply head_app_l, reverse_nonempty, inorder_nonempty.
    - destruct r as [|x bx lx rx]; [done|]. cbn [rt]. rewrite -(edge_head DL _ x) //. by apply head_app_l, inorder_nonempty. }
  rewrite Hh. clear Hh. destruct d; hsteps.
  - destruct (rt l) as [x|] eqn:El.
    + hstep1. iApply (hwp_walk_down DR l with "Hl"); [done|lia|]. iIntros "Hl". hsteps. iApply "HQ". iFrame.
    + iApply (hwp_climb with "Hc Hp"); [|done|]; [lia|]. iIntros "Hc Hp". iApply "HQ". iFrame.
  - destruct (rt r) as [x|] eqn:Er.
    + hstep1. iApply (hwp_walk_down DL r with "Hr"); [done|lia|]. iIntros "Hr". hsteps. iApply "HQ". iFrame.
    + iApply (hwp_climb with "Hc Hp"); [|done|]; [lia|]. iIntros "Hc Hp". iApply "HQ". iFrame.
Qed.

(** The first and the last element. *)
Lemma hwp_minmax_walk d t : forall fuel u parent root (Q : option loc -> option loc -> hprop),
  (tsize t <= fuel)%nat ->
  rep u t -∗ (rep u t -∗ Q (match rt t with Some p => Some (edge d t p) | None => parent end) root) -∗
  hwp (minmax_walk fuel d parent (rt t)) root Q.
Proof.
  induction t as [|q b l IHl r IHr]; intros fuel u parent root Q Hf.
  - iIntros "Ht HQ". cbn [rt]. destruct fuel; cbn [minmax_walk]; hsteps; by iApply "HQ".
  - destruct fuel as [|fuel]; [cbn in Hf; lia|]. cbn in Hf. cbn [rep rt minmax_walk edge].
    iIntros "(Hq & Hl & Hr) HQ". destruct d; hsteps.
    + iApply (IHl with "Hl"); [lia|]. iIntros "Hl". destruct l; iApply "HQ"; iFrame.
    + iApply (IHr with "Hr"); [lia|]. iIntros "Hr". destruct r; iApply "HQ"; iFrame.
Qed.

Lemma hwp_minmax t val root (Q : option loc -> option loc -> hprop) :
  root = rt t ->
  rep None t -∗ (rep None t -∗ Q (head (if val <? 0 then inorder t else reverse (inorder t))) root) -∗
  hwp (RB_MINMAX val) root Q.
Proof.
  iIntros (->) "Ht HQ". unfold RB_MINMAX. hstep1. iApply (hwp_fuel (tsize t)).
  iSplit; [by iApply rep_size|]. iIntros (fuel Hf). hsteps.
  iApply (hwp_minmax_walk with "Ht"); [lia|]. iIntros "Ht".
  destruct t as [|p b l r]; [by destruct (val <? 0); iApply "HQ"|]. cbn [rt].
  destruct (val <? 0).
  - rewrite -(edge_head DL _ p) //. by iApply "HQ".
  - rewrite -(edge_head DR _ p) //. by iApply "HQ".
Qed.

(** The diagnostic returns the rank. *)
Lemma hwp_rank t : forall fuel u k root (Q : Z -> option loc -> hprop),
  (tsize t <= fuel)%nat -> ranked k t ->
  rep u t -∗ (rep u t -∗ Q k root) -∗ hwp (RB_RANK fuel (rt t)) root Q.
Proof.
  induction t as [|p b l IHl r IHr]; intros fuel u k root Q Hf Hk.
  - iIntros "Ht HQ". cbn in Hk. subst k. cbn [rt]. destruct fuel; cbn [RB_RANK]; hsteps; by iApply "HQ".
  - destruct fuel as [|fuel]; [cbn in Hf; lia|]. cbn in Hf. destruct Hk as (Hb & Hl & Hr). cbn [rep rt RB_RANK].
    iIntros "(Hp & Hl & Hr) HQ". hsteps. iApply (IHl with "Hl"); [lia|exact Hl|]. iIntros "Hl". hsteps.
    iApply (IHr with "Hr"); [lia|exact Hr|]. iIntros "Hr". cbn zeta. hsimp.
    fold (gap (b_l b)) (gap (b_r b)).
    replace (gap (b_l b) + (k - gap (b_l b))) with k by lia. replace (gap (b_r b) + (k - gap (b_r b))) with k by lia.
    rewrite Z.eqb_refl. cbn [negb orb].
    assert (Hleaf : (k =? 2) && bool_decide (rt l = None) && bool_decide (rt r = None) = false).
    { destruct l; [|by rewrite andb_false_r]. destruct r; [|by rewrite andb_false_r]. cbn in Hl, Hr.
      destruct (Z.eqb_spec k 2); [|done]. subst k. destruct b as [[] []]; cbn in Hl, Hr; try lia. by destruct Hb. }
    rewrite Hleaf. hsteps. iApply "HQ". iFrame.
Qed.

(** [RB_NEXT] and [RB_PREV] are the neighbours. *)
Lemma hwp_next t l1 p l2 root (Q : option loc -> option loc -> hprop) :
  inorder t = l1 ++ p :: l2 -> rep None t -∗ (rep None t -∗ Q (head l2) root) -∗ hwp (RB_NEXT p) root Q.
Proof. intros Ht. destruct (unzip _ _ _ _ Ht) as (c & b & l & r & -> & -> & ->). apply (hwp_step DR). Qed.
Lemma hwp_prev t l1 p l2 root (Q : option loc -> option loc -> hprop) :
  inorder t = l1 ++ p :: l2 -> rep None t -∗ (rep None t -∗ Q (last l1) root) -∗ hwp (RB_PREV p) root Q.
Proof.
  intros Ht. destruct (unzip _ _ _ _ Ht) as (c & b & l & r & -> & -> & ->).
  rewrite -head_reverse. apply (hwp_step DL).
Qed.

Lemma hwp_foreach_walk t l2 : forall fuel l1 root (Q : list loc -> option loc -> hprop),
  (length l2 <= fuel)%nat -> inorder t = l1 ++ l2 ->
  rep None t -∗ (rep None t -∗ Q l2 root) -∗ hwp (foreach_walk fuel (head l2)) root Q.
Proof.
  induction l2 as [|p l2 IH]; intros fuel l1 root Q Hf Ht; iIntros "Ht HQ".
  - cbn [head]. destruct fuel; cbn [foreach_walk]; hsteps; by iApply "HQ".
  - destruct fuel as [|fuel]; [cbn in Hf; lia|]. cbn [head foreach_walk]. hstep1.
    iApply (hwp_next with "Ht"); [exact Ht|]. iIntros "Ht". hsteps.
    iApply (IH fuel (l1 ++ [p]) with "Ht"); [cbn in Hf; lia|by rewrite Ht -app_assoc|].
    iIntros "Ht". hsteps. by iApply "HQ".
Qed.

Lemma hwp_foreach t root (Q : list loc -> option loc -> hprop) :
  root = rt t -> rep None t -∗ (rep None t -∗ Q (inorder t) root) -∗ hwp RB_FOREACH root Q.
Proof.
  iIntros (->) "Ht HQ". unfold RB_FOREACH. hstep1. iApply (hwp_fuel (tsize t)).
  iSplit; [by iApply rep_size|]. iIntros (fuel Hf). hsteps.
  iApply (hwp_minmax with "Ht"); [done|]. iIntros "Ht". cbn [Z.ltb Z.compare].
  iApply (hwp_foreach_walk t (inorder t) fuel [] with "Ht"); [rewrite length_inorder; lia|done|done].
Qed.

(** ** Searching *)

Section Search.
Context (cmp : loc -> loc -> Z).

Lemma hwp_find_walk e t : forall fuel u root (Q : option loc -> option loc -> hprop),
  (height t <= fuel)%nat ->
  rep u t -∗ (rep u t -∗ Q (match split_at cmp e t with inl q => Some q | inr _ => None end) root) -∗
  hwp (find_walk cmp fuel e (rt t)) root Q.
Proof.
  induction t as [|p b l IHl r IHr]; intros fuel u root Q Hf; iIntros "Ht HQ".
  - cbn [rt]. destruct fuel; cbn [find_walk]; hsteps; by iApply "HQ".
  - destruct fuel as [|fuel]; [cbn in Hf; lia|]. cbn in Hf. cbn [rep rt find_walk split_at].
    iDestruct "Ht" as "(Hp & Hl & Hr)". destruct (cmp e p <? 0); [|destruct (0 <? cmp e p)]; hsteps.
    + iApply (IHl with "Hl"); [lia|]. iIntros "Hl". destruct (split_at cmp e l) as [q|[x y]]; iApply "HQ"; iFrame.
    + iApply (IHr with "Hr"); [lia|]. iIntros "Hr". destruct (split_at cmp e r) as [q|[x y]]; iApply "HQ"; iFrame.
    + iApply "HQ". iFrame.
Qed.

Lemma hwp_find e t root (Q : option loc -> option loc -> hprop) :
  root = rt t ->
  rep None t -∗ (rep None t -∗ Q (match split_at cmp e t with inl q => Some q | inr _ => None end) root) -∗
  hwp (RB_FIND cmp e) root Q.
Proof.
  iIntros (->) "Ht HQ". unfold RB_FIND. hstep1. iApply (hwp_fuel (tsize t)).
  iSplit; [by iApply rep_size|]. iIntros (fuel Hf). hsteps. iApply (hwp_find_walk with "Ht HQ").
  pose proof (height_tsize t). lia.
Qed.

Lemma filter_nothing {A} (P : A -> Prop) `{!forall x, Decision (P x)} l : (forall x, x ∈ l -> ~ P x) -> filter P l = [].
Proof.
  induction l as [|x l IH]; intros Hn; [done|]. rewrite filter_cons decide_False; [|apply Hn; set_solver].
  apply IH. intros y Hy. apply Hn. set_solver.
Qed.

(** The first element that is not before [e]. *)
Definition first_ge (e : loc) (l : list loc) : option loc := head (filter (fun y : loc => cmp e y <= 0) l).

Lemma hwp_nfind_walk e t : forall fuel u res root (Q : option loc -> option loc -> hprop),
  (tsize t <= fuel)%nat -> cmp_on cmp (e :: inorder t) -> rb_sorted cmp (inorder t) ->
  rep u t -∗
  (rep u t -∗ Q (match first_ge e (inorder t) with Some y => Some y | None => res end) root) -∗
  hwp (nfind_walk cmp fuel e res (rt t)) root Q.
Proof.
  induction t as [|p b l IHl r IHr]; intros fuel u res root Q Hf Hc Hs; iIntros "Ht HQ".
  - cbn [rt]. destruct fuel; cbn [nfind_walk]; hsteps; by iApply "HQ".
  - destruct fuel as [|fuel]; [cbn in Hf; lia|]. cbn in Hf, Hc, Hs. cbn [rep rt nfind_walk inorder].
    iDestruct "Ht" as "(Hp & Hl & Hr)".
    destruct (sorted_around _ _ _ _ _ Hc Hs) as (Hcl & Hcr & Hsl & Hsr & Hlt).
    unfold first_ge. rewrite filter_app filter_cons.
    assert (Hdrop : 0 <= cmp e p -> filter (fun y : loc => cmp e y <= 0) (inorder l) = []).
    { intros Hp. apply filter_nothing. intros y Hy. pose proof (Hlt Hp y Hy). lia. }
    destruct (Z.ltb_spec (cmp e p) 0) as [Hp|Hp]; [|destruct (Z.ltb_spec 0 (cmp e p)) as [Hp'|Hp']]; hsteps.
    + iApply (IHl with "Hl"); [lia|done|done|]. iIntros "Hl". unfold first_ge. rewrite decide_True; [|lia].
      destruct (filter _ (inorder l)); iApply "HQ"; iFrame.
    + iApply (IHr with "Hr"); [lia|done|done|]. iIntros "Hr". unfold first_ge. rewrite Hdrop // decide_False; [|lia].
      iApply "HQ". iFrame.
    + rewrite Hdrop // decide_True; [|lia]. iApply "HQ". iFrame.
Qed.

Lemma hwp_nfind e t root (Q : option loc -> option loc -> hprop) :
  root = rt t -> cmp_on cmp (e :: inorder t) -> rb_sorted cmp (inorder t) ->
  rep None t -∗ (rep None t -∗ Q (first_ge e (inorder t)) root) -∗ hwp (RB_NFIND cmp e) root Q.
Proof.
  iIntros (-> Hc Hs) "Ht HQ". unfold RB_NFIND. hstep1. iApply (hwp_fuel (tsize t)).
  iSplit; [by iApply rep_size|]. iIntros (fuel Hf). hsteps. iApply (hwp_nfind_walk with "Ht"); [lia|done|done|].
  iIntros "Ht". destruct (first_ge e (inorder t)) eqn:Ef; rewrite ?Ef; by iApply "HQ".
Qed.

End Search.

(** ** Insertion next to an element *)

Definition at_end (d : dir) (e : loc) (l : list loc) : list loc := match d with DL => e :: l | DR => l ++ [e] end.

Lemma hwp_edge_walk d t : forall c k fuel d' p n e root (Q : option loc -> option loc -> hprop),
  (tsize t <= fuel)%nat -> up c = Some p -> at_dir c d' -> ranked k t -> ranked_ctx k c -> root = top c (rt t) ->
  repc c (rt t) -∗ rep (Some p) t -∗ e ↦ n -∗
  (∀ root', whole (lefts c ++ at_end d e (inorder t) ++ rights c) root' -∗ Q None root') -∗
  hwp (edge_walk fuel d p d' (rt t) e) root Q.
Proof.
  induction t as [|q b l IHl r IHr]; intros c k fuel d' p n e root Q Hf Hp Hd Hk Hc Hr; iIntros "Hc Ht He HQ".
  - cbn in Hk. subst k. cbn [rt]. destruct fuel; cbn [edge_walk]; rewrite -Hp;
      (iApply (hwp_insert_finish with "Hc He"); [done..|]; iIntros (root') "Hw"; iApply "HQ"; by destruct d).
  - destruct fuel as [|fuel]; [cbn in Hf; lia|]. cbn in Hf. cbn [rt edge_walk rep].
    iDestruct "Ht" as "(Hq & Hl & Hr)". destruct (ranked_push d _ _ _ _ _ _ Hk Hc) as [Hk1 Hc1].
    rewrite -Hp. destruct d; hsteps.
    + iApply (IHl (F DL q b r :: c) with "[Hq Hr Hc] Hl He"); [lia|done|done|exact Hk1|exact Hc1|done|cbn [repc]; iFrame|].
      iIntros (root') "Hw". iApply "HQ". cbn [lefts rights at_end inorder app]. by rewrite -?app_assoc.
    + iApply (IHr (F DR q b l :: c) with "[Hq Hl Hc] Hr He"); [lia|done|done|exact Hk1|exact Hc1|done|cbn [repc]; iFrame|].
      iIntros (root') "Hw". iApply "HQ". cbn [lefts rights at_end inorder]. rewrite -?app_assoc. cbn [app]. by rewrite -?app_assoc.
Qed.

(** [RB_INSERT_NEXT] for [d] left, [RB_INSERT_PREV] for [d] right. *)
Lemma hwp_insert_next l1 p l2 e n root (Q : option loc -> option loc -> hprop) :
  whole (l1 ++ p :: l2) root -∗ e ↦ n -∗ (∀ root', whole (l1 ++ p :: e :: l2) root' -∗ Q None root') -∗
  hwp (RB_INSERT_NEXT p e) root Q.
Proof.
  iIntros "(%t & (%Ht & [%k %Hk] & %Hr) & Ht) He HQ". unfold RB_INSERT_NEXT. hstep1.
  iApply (hwp_next with "Ht"); [exact Ht|]. iIntros "Ht".
  destruct (unzip _ _ _ _ Ht) as (c & b & l & r & -> & -> & ->).
  destruct (ranked_unplug _ _ _ Hk) as (j & Hj & Hc). destruct (ranked_push DR _ _ _ _ _ _ Hj Hc) as [Hk1 Hc1]. hstep1. iApply (hwp_fuel (tsize (plug c (N p b l r)))). iSplit; [by iApply rep_size|].
  iIntros (fuel Hf). rewrite tsize_plug in Hf. cbn in Hf. rewrite rep_plug. cbn [rep rt].
  iDestruct "Ht" as "(Hc & Hp & Hl & Hr)". hsteps.
  iApply (hwp_edge_walk DL r (F DR p b l :: c) with "[Hp Hl Hc] Hr He"); [lia|done|done|exact Hk1|exact Hc1|by rewrite Hr -top_rt|cbn [repc]; iFrame|].
  iIntros (root') "Hw". iApply "HQ". cbn [lefts rights at_end]. rewrite -?app_assoc. cbn [app]. by rewrite -?app_assoc.
Qed.
Lemma hwp_insert_prev l1 p l2 e n root (Q : option loc -> option loc -> hprop) :
  whole (l1 ++ p :: l2) root -∗ e ↦ n -∗ (∀ root', whole (l1 ++ e :: p :: l2) root' -∗ Q None root') -∗
  hwp (RB_INSERT_PREV p e) root Q.
Proof.
  iIntros "(%t & (%Ht & [%k %Hk] & %Hr) & Ht) He HQ". unfold RB_INSERT_PREV. hstep1.
  iApply (hwp_prev with "Ht"); [exact Ht|]. iIntros "Ht".
  destruct (unzip _ _ _ _ Ht) as (c & b & l & r & -> & -> & ->).
  destruct (ranked_unplug _ _ _ Hk) as (j & Hj & Hc). destruct (ranked_push DL _ _ _ _ _ _ Hj Hc) as [Hk1 Hc1]. hstep1. iApply (hwp_fuel (tsize (plug c (N p b l r)))). iSplit; [by iApply rep_size|].
  iIntros (fuel Hf). rewrite tsize_plug in Hf. cbn in Hf. rewrite rep_plug. cbn [rep rt].
  iDestruct "Ht" as "(Hc & Hp & Hl & Hr)". hsteps.
  iApply (hwp_edge_walk DR l (F DL p b r :: c) with "[Hp Hr Hc] Hl He"); [lia|done|done|exact Hk1|exact Hc1|by rewrite Hr -top_rt|cbn [repc]; iFrame|].
  iIntros (root') "Hw". iApply "HQ". cbn [lefts rights at_end]. rewrite -?app_assoc. cbn [app]. by rewrite -?app_assoc.
Qed.

(** ** The operations on the elements in order *)

Lemma whole_insert cmp L e n root (Q : option loc -> option loc -> hprop) :
  cmp_on cmp (e :: L) -> rb_sorted cmp L ->
  whole L root -∗ e ↦ n -∗
  (∀ root', whole (sl_insert cmp e L).2 root' -∗ Q (sl_insert cmp e L).1 root') -∗
  hwp (RB_INSERT cmp e) root Q.
Proof.
  iIntros (Hc Hs) "(%t & (%Ht & %Hk & %Hr) & Ht) He HQ". subst L.
  iApply (hwp_insert with "Ht He"); [done|done|]. rewrite (split_at_sorted cmp e t Hc Hs).
  destruct (split_at cmp e t) as [q|[a b]]; cbn [fst snd]; [|done]. iIntros "He Hw". by iApply "HQ".
Qed.

Lemma whole_remove l1 p l2 root (Q : loc -> option loc -> hprop) :
  whole (l1 ++ p :: l2) root -∗ (∀ root' n, whole (l1 ++ l2) root' -∗ p ↦ n -∗ Q p root') -∗
  hwp (RB_REMOVE p) root Q.
Proof.
  iIntros "(%t & (%Ht & [%k %Hk] & %Hr) & Ht) HQ". destruct (unzip _ _ _ _ Ht) as (c & b & l & r & -> & -> & ->).
  destruct (ranked_unplug _ _ _ Hk) as (j & Hj & Hc). rewrite rep_plug. iDestruct "Ht" as "[Hc Ht]".
  iApply (hwp_remove with "Hc Ht"); [exact Hj|exact Hc|by rewrite Hr -top_rt|].
  iIntros (root' n) "Hw Hp". iApply ("HQ" with "[Hw] Hp"). by rewrite -?app_assoc.
Qed.

Lemma nbrs_split p q l1 l2 : q ∉ l1 -> nbrs p q (l1 ++ q :: l2) = (match last l1 with Some x => Some x | None => p end, head l2).
Proof.
  revert p. induction l1 as [|x l1 IH]; intros p Hq; cbn; [by rewrite decide_True|].
  rewrite decide_False; [|set_solver]. rewrite IH; [|set_solver]. rewrite last_cons. by destruct (last l1).
Qed.

Lemma filter_everything {A} (P : A -> Prop) `{!forall x, Decision (P x)} (l : list A) : (forall x, x ∈ l -> P x) -> filter P l = l.
Proof.
  induction l as [|x l IH]; intros Hp; [done|]. rewrite filter_cons decide_True; [|apply Hp; set_solver].
  f_equal. apply IH. intros y Hy. apply Hp. set_solver.
Qed.

Lemma whole_reinsert cmp l1 e l2 root (Q : option loc -> option loc -> hprop) :
  e ∉ l1 -> e ∉ l2 -> cmp_on cmp (e :: l1 ++ l2) -> rb_sorted cmp (l1 ++ l2) ->
  let r := rb_reinsert cmp e (l1 ++ e :: l2) in
  whole (l1 ++ e :: l2) root -∗ (∀ root', whole r.2 root' -∗ Q r.1 root') -∗
  hwp (RB_REINSERT cmp e) root Q.
Proof.
  iIntros (H1 H2 Hc Hs r) "(%t & (%Ht & %Hk & %Hr) & Ht) HQ". subst r. unfold RB_REINSERT, rb_reinsert. hstep1.
  cbn [rb_inorder rb_insert rb_remove sl_tree]. rewrite nbrs_split //.
  assert (Hf : filter (fun y : loc => y <> e) (l1 ++ e :: l2) = l1 ++ l2).
  { rewrite filter_app filter_cons decide_False; [|intros Hn; by apply Hn]. by rewrite !filter_everything; [|intros x Hx ->..]. }
  assert (Hx : forall b : bool, b = (match last l1 with Some p => 0 <=? cmp p e | None => false end
      || match head l2 with Some n => 0 <=? cmp e n | None => false end) ->
    rep None t -∗ (∀ root', whole (if b then sl_insert cmp e (l1 ++ l2) else (None, l1 ++ e :: l2)).2 root' -∗
      Q (if b then sl_insert cmp e (l1 ++ l2) else (None, l1 ++ e :: l2)).1 root') -∗
    hwp (if b then _ ← RB_REMOVE e; RB_INSERT cmp e else mret None) root Q).
  { iIntros (b _) "Ht HQ". destruct b.
    - hstep1. iAssert (whole (l1 ++ e :: l2) root) with "[Ht]" as "Hw"; [by iExists t; iFrame|].
      iApply (whole_remove with "Hw"). iIntros (root' n) "Hw He". iApply (whole_insert with "Hw He HQ"); done.
    - hsteps. iApply "HQ". by iExists t; iFrame. }
  iApply (hwp_prev with "Ht"); [exact Ht|]. iIntros "Ht". rewrite Hf.
  replace (match last l1 with Some x => Some x | None => None end) with (last l1) by (by destruct (last l1)).
  destruct (match last l1 with Some p => 0 <=? cmp p e | None => false end) eqn:Eb; hstep1.
  - hstep1. iApply (Hx true with "Ht HQ"). done.
  - hstep1. iApply (hwp_next with "Ht"); [exact Ht|]. iIntros "Ht". hstep1. iApply (Hx with "Ht HQ"). done.
Qed.
