(* ===== verification/RbtSpec.v ===== *)
(** * Rank-balanced trees implement ordered sets

    Every operation of the macros, run on nodes in memory that are a balanced
    tree, returns what it returns on the list of the elements in order and
    leaves a balanced tree.  [rbtree] is the resulting instance of the interface
    [OrdTree] of the timer set. *)

From stdpp Require Import gmap.
From iris.proofmode Require Import proofmode environments.
From S2P Require Import Prelude Rbt Tmrset Heapsl RbtFacts RbtDel RbtWalk.

#[local] Set Default Proof Using "Type*".

(** The nodes of [s] are a balanced tree with the elements [l] in order. *)
Definition tree_at (l : list loc) (s : rbst) : Prop := hp_holds (whole l (r_root s)) (r_nodes s).

Lemma tree_at_empty s : r_root s = None -> tree_at [] s.
Proof.
  intros Hr. exists E. unfold tree_at. exists ∅, (r_nodes s).
  split_and!; [apply map_disjoint_empty_l|by rewrite left_id_L| |done]. split_and!; [done|by exists 0|done].
Qed.

(** ** Nodes outside the tree *)

Lemma rep_delete t : forall u h x, hp_holds (rep u t) h -> x ∉ inorder t -> hp_holds (rep u t) (delete x h).
Proof.
  induction t as [|p b l IHl r IHr]; intros u h x; [done|]. cbn [inorder].
  intros (h1 & h2 & Hd & Hu & Hp & (h3 & h4 & Hd' & Hu' & Hl & Hr)) Hx.
  apply not_elem_of_app in Hx as [Hxl Hx]. apply not_elem_of_cons in Hx as [Hxp Hxr].
  exists (delete x h1), (delete x h2). split_and!.
  - by apply map_disjoint_delete_l, map_disjoint_delete_r.
  - rewrite -delete_union. by apply delete_mono.
  - cbn in Hp |- *. by rewrite lookup_delete_ne.
  - exists (delete x h3), (delete x h4). split_and!; [by apply map_disjoint_delete_l, map_disjoint_delete_r| |by apply IHl|by apply IHr].
    rewrite -delete_union. by apply delete_mono.
Qed.

Lemma tree_at_outside l s x n :
  tree_at l s -> r_nodes s !! x = Some n -> x ∉ l -> hp_holds (whole l (r_root s) ∗ x ↦ n)%I (r_nodes s).
Proof.
  intros [t Ht] Hn Hx. exists (delete x (r_nodes s)), {[x := n]}. split_and!.
  - apply map_disjoint_singleton_r_2, lookup_delete_eq.
  - rewrite map_union_comm; [|apply map_disjoint_singleton_r_2, lookup_delete_eq].
    rewrite -insert_union_singleton_l insert_delete_id //.
  - exists t. destruct Ht as (h1 & h2 & Hd & Hu & (Hin & Hw & Hr) & Ht).
    exists ∅, (delete x (r_nodes s)). split_and!; [apply map_disjoint_empty_l|by rewrite left_id_L|done|].
    apply rep_delete; [|by rewrite Hin]. eapply hp_mono; [|exact Ht]. etrans; [by apply map_union_subseteq_r|done].
  - apply lookup_singleton_eq.
Qed.

Lemma rep_not_in u t p n : p ↦ n -∗ rep u t -∗ ⌜p ∉ inorder t⌝.
Proof.
  iIntros "Hp Ht". destruct (decide (p ∈ inorder t)) as [Hin|Hin]; [|by iPureIntro]. iDestruct (rep_node with "Ht") as (m) "[Hq _]"; [exact Hin|].
  by iDestruct (hp_node_ne with "Hp Hq") as %?.
Qed.
Lemma reps_disjoint t u v s : rep u t -∗ rep v s -∗ ⌜forall x, x ∈ inorder t -> x ∉ inorder s⌝.
Proof.
  iIntros "Ht Hs" (x). iIntros (Hx). iDestruct (rep_node with "Ht") as (m) "[Hq _]"; [exact Hx|].
  by iDestruct (rep_not_in with "Hq Hs") as %?.
Qed.
Lemma rep_nodup u t : rep u t ⊢ ⌜NoDup (inorder t)⌝.
Proof.
  revert u. induction t as [|p b l IHl r IHr]; intros u; cbn [rep inorder]; [iIntros "_"; iPureIntro; constructor|].
  iIntros "(Hp & Hl & Hr)".
  iDestruct (rep_not_in with "Hp Hl") as %H1. iDestruct (rep_not_in with "Hp Hr") as %H2.
  iDestruct (reps_disjoint with "Hl Hr") as %H3.
  iDestruct (IHl with "Hl") as %H4. iDestruct (IHr with "Hr") as %H5. iPureIntro.
  apply NoDup_app. split_and!; [done| |by constructor].
  intros x Hx. apply not_elem_of_cons. split; [by intros ->|by apply H3].
Qed.
Lemma tree_at_nodup l s : tree_at l s -> NoDup l.
Proof.
  intros [t (h1 & h2 & Hd & Hu & (<- & Hw & Hr) & Ht)]. exact (hp_in _ _ (rep_nodup None t) _ Ht).
Qed.

(** ** Operations and their specification *)

Inductive rb_op :=
  | OpInsert (x : loc) | OpRemove (x : loc) | OpReinsert (x : loc) | OpFind (x : loc) | OpNfind (x : loc)
  | OpNext (x : loc) | OpPrev (x : loc) | OpMinmax (val : Z).

(** On nodes in memory. *)
Definition rb_exec (cmp : loc -> loc -> Z) (o : rb_op) : R (option loc) :=
  match o with
  | OpInsert x => RB_INSERT cmp x
  | OpRemove x => y ← RB_REMOVE x; mret (Some y)
  | OpReinsert x => RB_REINSERT cmp x
  | OpFind x => RB_FIND cmp x
  | OpNfind x => RB_NFIND cmp x
  | OpNext x => RB_NEXT x
  | OpPrev x => RB_PREV x
  | OpMinmax val => RB_MINMAX val
  end.

(** On the elements in order. *)
Definition list_exec (cmp : loc -> loc -> Z) (o : rb_op) (l : list loc) : option loc * list loc :=
  match o with
  | OpInsert x => sl_insert cmp x l
  | OpRemove x => (Some x, filter (fun y : loc => y <> x) l)
  | OpReinsert x => rb_reinsert cmp x l
  | OpFind x => ((sl_insert cmp x l).1, l)
  | OpNfind x => (first_ge cmp x l, l)
  | OpNext x => ((nbrs None x l).2, l)
  | OpPrev x => ((nbrs None x l).1, l)
  | OpMinmax val => (head (if val <? 0 then l else reverse l), l)
  end.

(** What a caller has to ensure: the elements are in order, up to the one whose
    key changed, and only elements of the tree are taken out or walked from. *)
Definition op_ready (cmp : loc -> loc -> Z) (o : rb_op) (l : list loc) : Prop :=
  match o with
  | OpInsert x => x ∉ l /\ cmp_on cmp (x :: l) /\ rb_sorted cmp l
  | OpRemove x | OpNext x | OpPrev x => x ∈ l
  | OpReinsert x => x ∈ l /\ cmp_on cmp l /\ rb_sorted cmp (filter (fun y : loc => y <> x) l)
  | OpFind x | OpNfind x => cmp_on cmp (x :: l) /\ rb_sorted cmp l
  | OpMinmax _ => True
  end.
(** The node that an operation brings along. *)
Definition op_node (o : rb_op) (s : rbst) : Prop := match o with OpInsert x => x ∈ dom (r_nodes s) | _ => True end.

(** From assertions to states. *)
Lemma tree_at_run {A} (m : R A) s P a (l' : list loc) :
  hp_holds P (r_nodes s) ->
  (forall Q : A -> option loc -> hprop, P -∗ (∀ root', whole l' root' -∗ Q a root') -∗ hwp m (r_root s) Q) ->
  exists s', m s = Some (a, s') /\ dom (r_nodes s') = dom (r_nodes s) /\ tree_at l' s'.
Proof.
  intros HP Hm. destruct (hwp_run m s (fun b r => ⌜b = a⌝ ∗ whole l' r)%I P) as (b & s' & Hr & Hd & (h1 & h2 & Hd' & Hu & -> & Hw)).
  - iIntros "HP". iApply (Hm with "HP"). iIntros (root') "Hw". by iFrame.
  - done.
  - exists s'. split_and!; [done|done|]. eapply hp_mono; [|exact Hw]. etrans; [by apply map_union_subseteq_r|done].
Qed.

Lemma tree_at_keep {A} (m : R A) l s a :
  tree_at l s ->
  (forall t (Q : A -> option loc -> hprop), inorder t = l -> wavl t -> r_root s = rt t ->
    rep None t -∗ (rep None t -∗ Q a (r_root s)) -∗ hwp m (r_root s) Q) ->
  exists s', m s = Some (a, s') /\ dom (r_nodes s') = dom (r_nodes s) /\ tree_at l s'.
Proof.
  intros Hs Hm. apply (tree_at_run m s (whole l (r_root s))); [done|].
  iIntros (Q) "(%t & (%Ht & %Hk & %Hr) & Ht) HQ". iApply (Hm t with "Ht"); [done..|].
  iIntros "Ht". iApply "HQ". iExists t. by iFrame.
Qed.

Lemma element_split (x : loc) l : x ∈ l -> NoDup l -> exists l1 l2,
  l = l1 ++ x :: l2 /\ x ∉ l1 /\ x ∉ l2 /\ filter (fun y : loc => y <> x) l = l1 ++ l2.
Proof.
  intros (l1 & l2 & ->)%list_elem_of_split Hn. apply NoDup_app in Hn as (_ & H1 & H2).
  apply NoDup_cons in H2 as [H2 _]. assert (Hx1 : x ∉ l1) by (intros Hx; apply (H1 x Hx); set_solver).
  exists l1, l2. split_and!; [done..|]. rewrite filter_app filter_cons decide_False; [|intros Hx; by apply Hx].
  by rewrite !filter_everything; [|intros y Hy ->..].
Qed.

Lemma rb_exec_ok cmp o l s :
  tree_at l s -> op_ready cmp o l -> op_node o s ->
  exists s', rb_exec cmp o s = Some ((list_exec cmp o l).1, s') /\ dom (r_nodes s') = dom (r_nodes s) /\
    tree_at (list_exec cmp o l).2 s'.
Proof.
  intros Hs Ho Hn. pose proof (tree_at_nodup _ _ Hs) as Hnd.
  destruct o as [x|x|x|x|x|x|x|val]; cbn in Ho, Hn |- *.
  - destruct Ho as (Hx & Hc & Hsort). apply elem_of_dom in Hn as [n Hn].
    apply (tree_at_run _ s _ _ _ (tree_at_outside _ _ _ _ Hs Hn Hx)).
    iIntros (Q) "[Hw Hx] HQ". by iApply (whole_insert with "Hw Hx HQ").
  - destruct (element_split x l Ho Hnd) as (l1 & l2 & -> & _ & _ & ->).
    apply (tree_at_run _ s _ _ _ Hs). iIntros (Q) "Hw HQ". hstep1.
    iApply (whole_remove with "Hw"). iIntros (root' n) "Hw _". hsteps. by iApply "HQ".
  - destruct Ho as (Hx & Hc & Hsort). destruct (element_split x l Hx Hnd) as (l1 & l2 & -> & H1 & H2 & Hf).
    rewrite Hf in Hsort. apply (tree_at_run _ s _ _ _ Hs). iIntros (Q) "Hw HQ".
    iApply (whole_reinsert with "Hw HQ"); [done|done|eapply cmp_on_sub; [|exact Hc]; set_solver|done].
  - destruct Ho as [Hc Hsort]. apply (tree_at_keep _ _ s _ Hs). intros t Q <- Hk Hr.
    iIntros "Ht HQ". iApply (hwp_find with "Ht"); [done|]. rewrite (split_at_sorted cmp x t Hc Hsort).
    by destruct (split_at cmp x t) as [q|[a b]].
  - destruct Ho as [Hc Hsort]. apply (tree_at_keep _ _ s _ Hs). intros t Q <- Hk Hr. by apply hwp_nfind.
  - destruct (element_split x l Ho Hnd) as (l1 & l2 & -> & H1 & H2 & _). rewrite nbrs_split //.
    apply (tree_at_keep _ _ s _ Hs). intros t Q Ht Hk Hr. by eapply hwp_next.
  - destruct (element_split x l Ho Hnd) as (l1 & l2 & -> & H1 & H2 & _). rewrite nbrs_split //. cbn.
    apply (tree_at_keep _ _ s _ Hs). intros t Q Ht Hk Hr.
    replace (match last l1 with Some y => Some y | None => None end) with (last l1) by (by destruct (last l1)).
    by eapply hwp_prev.
  - apply (tree_at_keep _ _ s _ Hs). intros t Q <- Hk Hr. by apply hwp_minmax.
Qed.

(** ** Sequences of operations *)

(** The order may change between operations, when keys change. *)
Definition rb_ops := list ((loc -> loc -> Z) * rb_op).

Fixpoint rb_run (ops : rb_ops) : R (list (option loc)) :=
  match ops with
  | [] => mret []
  | (cmp, o) :: ops => v ← rb_exec cmp o; vs ← rb_run ops; mret (v :: vs)
  end.
Fixpoint list_run (ops : rb_ops) (l : list loc) : list (option loc) * list loc :=
  match ops with
  | [] => ([], l)
  | (cmp, o) :: ops =>
      let r := list_exec cmp o l in
      let rs := list_run ops r.2 in (r.1 :: rs.1, rs.2)
  end.
Fixpoint ops_ready (ops : rb_ops) (l : list loc) : Prop :=
  match ops with
  | [] => True
  | (cmp, o) :: ops => op_ready cmp o l /\ ops_ready ops (list_exec cmp o l).2
  end.

(** C8. The red-black macros implement an ordered set.  A sequence of
    insertions, removals, reinsertions after a change of key, searches and
    steps to a neighbour, run on nodes in memory that form a balanced tree,
    reads and writes nodes of the tree and the new elements only, gives the
    results that the same operations give on the ordered list of elements, and
    leaves a balanced tree with exactly those elements in order. *)
Theorem rb_macros_refine_ordered_list ops : forall l s,
  tree_at l s -> ops_ready ops l -> Forall (fun o => op_node o.2 s) ops ->
  exists s', rb_run ops s = Some ((list_run ops l).1, s') /\ tree_at (list_run ops l).2 s'.
Proof.
  induction ops as [|[cmp o] ops IH]; intros l s Hs Hr Hn; [by exists s|].
  destruct Hr as [Ho Hr]. apply Forall_cons in Hn as [Hn Hns].
  destruct (rb_exec_ok cmp o l s Hs Ho Hn) as (s1 & Hrun & Hdom & Hs1).
  destruct (IH _ s1 Hs1 Hr) as (s2 & Hrun2 & Hs2).
  { eapply Forall_impl; [exact Hns|]. intros [cmp' o']. unfold op_node. destruct o'; cbn; by rewrite ?Hdom. }
  exists s2. split; [|exact Hs2]. cbn [rb_run].
  rewrite (ST_bind_Some _ _ _ _ _ Hrun) (ST_bind_Some _ _ _ _ _ Hrun2). done.
Qed.

Definition sample_ops : rb_ops :=
  (fun o => (by_number, o)) <$>
  [OpInsert 5; OpInsert 3; OpInsert 8; OpInsert 1; OpInsert 4; OpNext 4; OpRemove 5; OpPrev 8; OpFind 3; OpMinmax 1; OpRemove 3]%positive.

Lemma by_number_order l : cmp_on by_number l.
Proof. split; unfold by_number; intros; lia. Qed.

Lemma rb_macros_refine_ordered_list_witness :
  exists s', rb_run sample_ops (blank 10) = Some ((list_run sample_ops []).1, s') /\ tree_at (list_run sample_ops []).2 s'.
Proof.
  apply (rb_macros_refine_ordered_list sample_ops [] (blank 10)).
  - by apply tree_at_empty.
  - unfold sample_ops. cbn [ops_ready fmap list_fmap op_ready].
    repeat match goal with
    | |- True => exact I
    | |- _ /\ _ => split
    | |- cmp_on by_number _ => apply by_number_order
    | |- rb_sorted by_number ?l =>
        let l' := eval vm_compute in l in change (rb_sorted by_number l'); unfold rb_sorted; repeat constructor
    | |- ?x ∈ ?l => let l' := eval vm_compute in l in change (x ∈ l'); set_solver
    | |- ?x ∉ ?l => let l' := eval vm_compute in l in change (x ∉ l'); set_solver
    end.
  - repeat constructor; vm_compute; congruence.
Defined.

(** ** Depth *)

(** C37. A search in a tree of [n] elements visits at most
    [2 * log2 (n + 1) + 1] of them, and the diagnostic [RB_RANK] accepts the tree
    and returns a rank within that bound. *)
Theorem rb_search_is_logarithmic cmp x l s fuel :
  tree_at l s -> cmp_on cmp (x :: l) -> rb_sorted cmp l ->
  2 * Z.log2 (Z.of_nat (length l) + 1) + 1 <= Z.of_nat fuel ->
  (exists s', find_walk cmp fuel x (r_root s) s = Some ((sl_insert cmp x l).1, s') /\ tree_at l s') /\
  (exists k s', RB_RANK (length l) (r_root s) s = Some (k, s') /\ 0 <= k <= Z.of_nat fuel /\ tree_at l s').
Proof.
  intros Hs Hc Hsort Hf.
  destruct Hs as [t Ht] eqn:E. clear E. pose proof Ht as (h1 & h2 & Hd & Hu & (<- & [k Hk] & Hr) & Hrep).
  pose proof (ranked_log k t Hk) as Hlog. rewrite length_inorder in Hf |- *. split.
  - destruct (tree_at_keep (find_walk cmp fuel x (r_root s)) (inorder t) s (sl_insert cmp x (inorder t)).1) as (s' & ? & ? & ?);
      [by exists t| |by exists s'].
    intros t' Q Ht' [k' Hk'] Hr'. iIntros "Ht HQ". rewrite Hr'. iApply (hwp_find_walk with "Ht").
    + pose proof (ranked_height _ _ Hk') as Hh. pose proof (ranked_log _ _ Hk') as Hlog'.
      rewrite -length_inorder Ht' length_inorder in Hlog'. lia.
    + rewrite -Ht' in Hc, Hsort |- *. rewrite (split_at_sorted cmp x t' Hc Hsort).
      by destruct (split_at cmp x t') as [q|[a b]].
  - pose proof (ranked_pos _ _ Hk) as [Hk0 _]. destruct (tree_at_run (RB_RANK (tsize t) (r_root s)) s (rep None t) k (inorder t)) as (s' & ? & ? & ?).
    + eapply hp_mono; [|exact Hrep]. etrans; [by apply map_union_subseteq_r|done].
    + iIntros (Q) "Ht HQ". rewrite Hr. iApply (hwp_rank with "Ht"); [done|exact Hk|]. iIntros "Ht". iApply "HQ".
      iExists t. iFrame. iPureIntro. split_and!; [done|by exists k|done].
    + exists k, s'. split_and!; [done|lia|lia|done].
Qed.

Definition after_exec (cmp : loc -> loc -> Z) (o : rb_op) (s : rbst) : rbst :=
  match rb_exec cmp o s with Some (_, s') => s' | None => s end.

Lemma after_exec_at cmp o l s :
  tree_at l s -> op_ready cmp o l -> op_node o s -> tree_at (list_exec cmp o l).2 (after_exec cmp o s).
Proof. intros Hs Ho Hn. unfold after_exec. by destruct (rb_exec_ok cmp o l s Hs Ho Hn) as (s' & -> & _ & ?). Qed.

Definition two : rbst := after_exec by_number (OpInsert 5) (after_exec by_number (OpInsert 3) (blank 10)).
Lemma two_at : tree_at [3; 5]%positive two.
Proof.
  apply (after_exec_at by_number (OpInsert 5) [3]%positive).
  - apply (after_exec_at by_number (OpInsert 3) []); [by apply tree_at_empty| |vm_compute; congruence].
    split_and!; [set_solver|apply by_number_order|constructor].
  - split_and!; [set_solver|apply by_number_order|repeat constructor].
  - vm_compute. congruence.
Qed.

Lemma rb_search_is_logarithmic_witness :
  (exists s', find_walk by_number 3 5 (r_root two) two = Some (Some 5%positive, s') /\ tree_at [3; 5]%positive s') /\
  (exists k s', RB_RANK 2 (r_root two) two = Some (k, s') /\ 0 <= k <= 3 /\ tree_at [3; 5]%positive s').
Proof.
  apply (rb_search_is_logarithmic by_number 5 [3; 5]%positive two 3).
  - exact two_at.
  - apply by_number_order.
  - repeat constructor.
  - done.
Defined.

(** ** The interface *)

Record rbtree := Rbtree { rb_state : rbst; rb_ok : exists l, tree_at l rb_state }.

(** The elements, with [RB_FOREACH]. *)
Definition rb_elements (t : rbtree) : list loc :=
  match RB_FOREACH (rb_state t) with Some (l, _) => l | None => [] end.

Lemma rb_elements_at t l : tree_at l (rb_state t) -> rb_elements t = l.
Proof.
  intros Ht. unfold rb_elements. destruct (tree_at_keep RB_FOREACH l (rb_state t) l Ht) as (s' & -> & _ & _); [|done].
  intros t' Q <- Hk Hr. by apply hwp_foreach.
Qed.
Lemma rb_elements_ok t : tree_at (rb_elements t) (rb_state t).
Proof. destruct (rb_ok t) as [l Hl]. by rewrite (rb_elements_at t l Hl). Qed.

(** The element's node is in memory. *)
Definition with_node (x : loc) (s : rbst) : rbst :=
  match r_nodes s !! x with
  | Some _ => s
  | None => Rbst (<[x := Node (None, no_bits) None None]> (r_nodes s)) (r_root s)
  end.
Lemma with_node_at x l s : tree_at l s -> tree_at l (with_node x s).
Proof.
  intros Hs. unfold with_node. destruct (r_nodes s !! x) eqn:Hx; [done|].
  eapply hp_mono; [|exact Hs]. by apply insert_subseteq.
Qed.
Lemma with_node_in x s : exists n, r_nodes (with_node x s) !! x = Some n.
Proof. unfold with_node. destruct (r_nodes s !! x) eqn:Hx; [by eexists|]. cbn. eexists. apply lookup_insert_eq. Qed.

(** Running an operation on a tree. *)
Definition tree_result {A} (t : rbtree) (d : A) (r : option (A * rbst))
    (H : forall a s, r = Some (a, s) -> exists l, tree_at l s) : A * rbtree :=
  match r return (forall a s, r = Some (a, s) -> _) -> A * rbtree with
  | Some (a, s) => fun H => (a, Rbtree s (H a s eq_refl))
  | None => fun _ => (d, t)
  end H.

Lemma tree_result_at {A} t (d : A) r H a s l :
  r = Some (a, s) -> tree_at l s -> (tree_result t d r H).1 = a /\ rb_elements (tree_result t d r H).2 = l.
Proof. intros -> Hl. cbn. split; [done|]. by apply rb_elements_at. Qed.

(** An insertion keeps a tree, whatever the order. *)
Lemma rb_insert_some cmp x l s n :
  tree_at l s -> r_nodes s !! x = Some n -> x ∉ l ->
  exists a s' l', RB_INSERT cmp x s = Some (a, s') /\ tree_at l' s' /\
    (cmp_on cmp (x :: l) -> rb_sorted cmp l -> a = (sl_insert cmp x l).1 /\ l' = (sl_insert cmp x l).2).
Proof.
  intros Hs Hn Hx. pose proof (tree_at_outside _ _ _ _ Hs Hn Hx) as Hout.
  destruct (hwp_run (RB_INSERT cmp x) s (fun a r => ∃ l', whole l' r ∗
    ⌜cmp_on cmp (x :: l) -> rb_sorted cmp l -> a = (sl_insert cmp x l).1 /\ l' = (sl_insert cmp x l).2⌝)%I (whole l (r_root s) ∗ x ↦ n)%I) as
    (a & s' & Hrun & _ & l' & Hpost); [|exact Hout|].
  - iIntros "[(%t & (%Ht & %Hk & %Hr) & Ht) Hx]". iApply (hwp_insert with "Ht Hx"); [done|done|].
    assert (Hsp := split_at_sorted cmp x t). rewrite Ht in Hsp.
    destruct (split_at cmp x t) as [q|[u v]].
    + iIntros "_ Hw". rewrite Ht. iExists l. iFrame. iPureIntro. intros Hc Hsort. by rewrite Hsp.
    + iIntros (root') "Hw". iExists _. iFrame. iPureIntro. intros Hc Hsort. by rewrite Hsp.
  - destruct Hpost as (h1 & h2 & Hd & Hu & Hw & Hspec). exists a, s', l'. split_and!; [done| |done].
    eapply hp_mono; [|exact Hw]. etrans; [by apply map_union_subseteq_l|done].
Qed.

Lemma rb_insert_keeps cmp x t : x ∉ rb_elements t ->
  forall a s, RB_INSERT cmp x (with_node x (rb_state t)) = Some (a, s) -> exists l, tree_at l s.
Proof.
  intros Hx a s Hr. destruct (with_node_in x (rb_state t)) as [n Hn].
  destruct (rb_insert_some cmp x _ _ n (with_node_at x _ _ (rb_elements_ok t)) Hn Hx) as (a' & s' & l' & Hr' & Hl' & _).
  rewrite Hr in Hr'. injection Hr' as <- <-. by exists l'.
Qed.
Lemma rb_remove_keeps x t : x ∈ rb_elements t ->
  forall a s, RB_REMOVE x (rb_state t) = Some (a, s) -> exists l, tree_at l s.
Proof.
  intros Hx a s Hr.
  destruct (rb_exec_ok by_number (OpRemove x) _ _ (rb_elements_ok t) Hx I) as (s' & Hr' & _ & Hl').
  cbn in Hr'. rewrite (ST_bind_Some _ _ _ _ _ Hr) in Hr'. injection Hr' as _ <-. by eexists.
Qed.

Definition mem_init : rbtree := Rbtree (RB_INIT (Rbst ∅ None)) (ex_intro _ [] (tree_at_empty (Rbst ∅ None) eq_refl)).
Definition mem_insert (cmp : loc -> loc -> Z) (x : loc) (t : rbtree) : option loc * rbtree :=
  match decide (x ∈ rb_elements t) with
  | left _ => (Some x, t)
  | right Hx => tree_result t None (RB_INSERT cmp x (with_node x (rb_state t))) (rb_insert_keeps cmp x t Hx)
  end.
Definition mem_remove (x : loc) (t : rbtree) : rbtree :=
  match decide (x ∈ rb_elements t) with
  | left Hx => (tree_result t x (RB_REMOVE x (rb_state t)) (rb_remove_keeps x t Hx)).2
  | right _ => t
  end.

#[export] Instance rb_tree : OrdTree rbtree := {
  rb_init := mem_init;
  rb_inorder := rb_elements;
  rb_insert := mem_insert;
  rb_remove := mem_remove;
}.

(** The macros satisfy what the timer set relies on. *)
#[export] Instance rb_tree_laws : OrdTreeLaws rbtree.
Proof.
  split.
  - by apply rb_elements_at, tree_at_empty.
  - intros cmp x t Hc Hs Hx. cbn in *. unfold mem_insert. destruct (decide _) as [|Hx']; [done|].
    destruct (with_node_in x (rb_state t)) as [n Hn].
    destruct (rb_insert_some cmp x _ _ n (with_node_at x _ _ (rb_elements_ok t)) Hn Hx) as (a & s & l & Hr & Hl & Hspec).
    destruct (Hspec Hc Hs) as [-> ->].
    destruct (tree_result_at t None _ (rb_insert_keeps cmp x t Hx') _ _ _ Hr Hl) as [H1 H2]. rewrite H1 H2.
    destruct (sl_insert_new _ _ _ Hc Hs Hx) as (r & Hri & Hsr). rewrite Hri. cbn.
    split_and!; [done|done|by apply sl_insert_perm in Hri].
  - intros x t Hn. cbn in *. unfold mem_remove. destruct (decide _) as [Hx|Hx].
    + destruct (rb_exec_ok by_number (OpRemove x) _ _ (rb_elements_ok t) Hx I) as (s & Hr & _ & Hl). cbn in Hr, Hl.
      apply ST_bind_inv in Hr as (a & s' & E & Hr). injection Hr as _ ->.
      by apply (tree_result_at t x _ (rb_remove_keeps x t Hx) a s).
    + symmetry. apply filter_everything. by intros y Hy ->.
Qed.
