(* ===== verification/Kern.v ===== *)
(** * The system's descriptors

    The part of the system the descriptor factories ([lib/dpapp/os/]) work on:
    the open descriptors with what is known of each, named files, [errno], and
    the answers the next calls give.  A call that may fail takes the next answer,
    0 for success (also when none is left) or an error number. *)

From S2P Require Import Prelude Chars.

#[local] Set Default Proof Using "Type*".

(** Constants of Linux. *)
Definition AF_UNSPEC : Z := 0.
Definition AF_UNIX : Z := 1.
Definition AF_INET : Z := 2.
Definition AF_INET6 : Z := 10.
Definition SOCK_STREAM : Z := 1.
Definition SOCK_DGRAM : Z := 2.
Definition SOL_SOCKET : Z := 1.
Definition SO_REUSEPORT : Z := 15.
Definition IPPROTO_TCP : Z := 6.
Definition TCP_NODELAY : Z := 1.
Definition ENOENT : Z := 2.
Definition EBADF : Z := 9.
Definition ENOMEM : Z := 12.
Definition EEXIST : Z := 17.
Definition EINVAL : Z := 22.
Definition UINT16_MAX : Z := 65535.

(** ** State *)

(** The settings of a serial line. *)
Record termios := Termios {
  c_iflag : Z; c_oflag : Z; c_cflag : Z; c_lflag : Z; c_vmin : Z; c_vtime : Z; c_ispeed : Z; c_ospeed : Z;
}.

Inductive fdkind :=
  | FSock (domain type protocol : Z)
  | FPath (path : chars) (mode : Z)
  | FTty (path : chars) (mode : Z) (tio : termios)
  | FInotify (watches : list (chars * Z))
  | FSignal (mask : gset Z).

(** An open descriptor: the socket options set on it, the address it is bound to,
    its backlog and its peer. *)
Record kfd := Kfd {
  f_kind : fdkind;
  f_opts : gmap (Z * Z) Z;
  f_bound : option (list Z);
  f_backlog : option Z;
  f_peer : option (list Z);
}.

Definition new_kfd (k : fdkind) : kfd := Kfd k ∅ None None None.
Definition with_opt (level opt val : Z) (f : kfd) : kfd :=
  Kfd (f_kind f) (<[(level, opt) := val]> (f_opts f)) (f_bound f) (f_backlog f) (f_peer f).
Definition with_bound (a : list Z) (f : kfd) : kfd := Kfd (f_kind f) (f_opts f) (Some a) (f_backlog f) (f_peer f).
Definition with_backlog (n : Z) (f : kfd) : kfd := Kfd (f_kind f) (f_opts f) (f_bound f) (Some n) (f_peer f).
Definition with_peer (a : list Z) (f : kfd) : kfd := Kfd (f_kind f) (f_opts f) (f_bound f) (f_backlog f) (Some a).
Definition with_kind (k : fdkind) (f : kfd) : kfd := Kfd k (f_opts f) (f_bound f) (f_backlog f) (f_peer f).

Record kern := Kern {
  k_fds : gmap Z kfd;
  k_files : gmap chars Z; (* what each path names: the [S_IFMT] bits *)
  k_answers : list Z;
  k_errno : Z;
  k_sigmask : gset Z; (* signals the thread blocks *)
}.

(** The number the system gives a new descriptor. *)
Class FdAlloc := {
  new_fd : gset Z -> Z;
  new_fd_nonneg s : 0 <= new_fd s;
  new_fd_fresh s : new_fd s ∉ s;
}.

Abbreviation K := (ST kern).

Definition put_fds (f : gmap Z kfd -> gmap Z kfd) (k : kern) : kern :=
  Kern (f (k_fds k)) (k_files k) (k_answers k) (k_errno k) (k_sigmask k).
Definition put_files (f : gmap chars Z -> gmap chars Z) (k : kern) : kern :=
  Kern (k_fds k) (f (k_files k)) (k_answers k) (k_errno k) (k_sigmask k).
Definition put_errno (e : Z) (k : kern) : kern := Kern (k_fds k) (k_files k) (k_answers k) e (k_sigmask k).
Definition put_sigmask (m : gset Z) (k : kern) : kern := Kern (k_fds k) (k_files k) (k_answers k) (k_errno k) m.

Definition get_errno : K Z := k ← gets id; mret (k_errno k).
Definition fails (e : Z) : K bool := modify (put_errno e);; mret false.

(** The next answer; an error sets [errno]. *)
Definition answer : K bool :=
  fun k => match k_answers k with
           | [] => Some (true, k)
           | e :: l =>
               if 0 <? e then Some (false, Kern (k_fds k) (k_files k) l e (k_sigmask k))
               else Some (true, Kern (k_fds k) (k_files k) l (k_errno k) (k_sigmask k))
           end.

(** ** Calls *)

Section Calls.
Context `{FdAlloc}.

Definition open_new (kind : fdkind) : K Z :=
  k ← gets id;
  let fd := new_fd (dom (k_fds k)) in
  modify (put_fds <[fd := new_kfd kind]>);; mret fd.

Definition socket (domain type protocol : Z) : K Z :=
  ok ← answer; if ok : bool then open_new (FSock domain type protocol) else mret (-1).

(** A call on a descriptor that changes what is known of it. *)
Definition fd_call (fd : Z) (f : kfd -> kfd) : K bool :=
  k ← gets id;
  match k_fds k !! fd with
  | None => fails EBADF
  | Some d => ok ← answer; if ok : bool then modify (put_fds <[fd := f d]>);; mret true else mret false
  end.
Definition setsockopt (fd level opt val : Z) : K bool := fd_call fd (with_opt level opt val).
Definition bind (fd : Z) (addr : list Z) : K bool := fd_call fd (with_bound addr).
Definition listen (fd backlog : Z) : K bool := fd_call fd (with_backlog backlog).
Definition connect (fd : Z) (addr : list Z) : K bool := fd_call fd (with_peer addr).

(** The descriptor is released even when an error is reported. *)
Definition close (fd : Z) : K bool :=
  k ← gets id;
  match k_fds k !! fd with
  | None => fails EBADF
  | Some _ => modify (put_fds (delete fd));; answer
  end.

(** ** Files *)

Definition S_IFIFO : Z := 4096.
Definition S_IFCHR : Z := 8192.
Definition S_IFREG : Z := 32768.
Definition S_ISFIFO (m : Z) : bool := m =? S_IFIFO.

Definition stat (path : chars) : K (option Z) :=
  ok ← answer;
  k ← gets id;
  match k_files k !! path with
  | Some m => mret (if ok : bool then Some m else None)
  | None => (if ok then modify (put_errno ENOENT) else mret tt);; mret None
  end.

Definition mkfifo (path : chars) : K bool :=
  k ← gets id;
  match k_files k !! path with
  | Some _ => fails EEXIST
  | None => ok ← answer; if ok : bool then modify (put_files <[path := S_IFIFO]>);; mret true else mret false
  end.

Definition open (path : chars) (kind : fdkind) : K Z :=
  k ← gets id;
  match k_files k !! path with
  | None => modify (put_errno ENOENT);; mret (-1)
  | Some _ => ok ← answer; if ok : bool then open_new kind else mret (-1)
  end.

Definition unlink (path : chars) : K bool :=
  k ← gets id;
  match k_files k !! path with
  | None => fails ENOENT
  | Some _ => ok ← answer; if ok : bool then modify (put_files (delete path));; mret true else mret false
  end.

End Calls.

(** One above the largest. *)
Definition above (s : gset Z) : Z := foldr Z.max 2 (elements s) + 1.

Lemma foldr_max_ge l x : x ∈ l -> x <= foldr Z.max 2 l.
Proof. induction l as [|y l IH]; [by intros ?%not_elem_of_nil|]. intros [->|Hx]%elem_of_cons; cbn; [lia|]. specialize (IH Hx). lia. Qed.

#[export] Instance above_alloc : FdAlloc.
Proof.
  refine {| new_fd := above |}.
  - intros s. unfold above. induction (elements s); cbn; lia.
  - intros s Hs. apply elem_of_elements in Hs. apply foldr_max_ge in Hs. unfold above in *. lia.
Defined.

Definition fresh_kern (answers : list Z) : kern := Kern ∅ ∅ answers 0 ∅.
