(* ===== verification/Sockets.v ===== *)
(** * Socket factories ([lib/dpapp/os/dptcp.c], [dpuds.c], [dpudp.c], [linux/dpudp_pri.c])

    The [init] functions of the socket element types make a descriptor for the
    element and fill its data; the rest reads addresses and sets options.  Name
    resolution is the C library's, a parameter. *)

From S2P Require Import Prelude Chars Dpret Ele Kern.

#[local] Set Default Proof Using "Type*".

Record addrinfo := Addrinfo { ai_family : Z; ai_socktype : Z; ai_protocol : Z; ai_addr : list Z }.

Definition AI_PASSIVE : Z := 1.
(** What is asked of [getaddrinfo]. *)
Record gai_hints := Hints { h_family : Z; h_socktype : Z; h_flags : Z }.

Class NetLib := {
  getaddrinfo : chars -> chars -> gai_hints -> Z + list addrinfo; (* a code, or addresses *)
  getnameinfo : list Z -> option (chars * chars); (* numeric host and port *)
  getsockname : kfd -> list Z;
  getpeername : kfd -> option (list Z);
  so_error : kfd -> option Z;
  stack_junk : list Z; (* what an uninitialised local holds *)
}.

(** [dpsockaddr_t]: 128 bytes, of which [sa_real] count. *)
Record dpsockaddr := Sockaddr { sa_addr : list Z; sa_real : Z }.

Definition zero_sockaddr : dpsockaddr := Sockaddr (replicate 128 0) 0.
Definition sa_bytes (a : dpsockaddr) : list Z := ztake (sa_real a) (sa_addr a).
Definition bytes_family (bs : list Z) : Z := match bs with a :: b :: _ => a + 256 * b | _ => 0 end.
Definition sa_family (a : dpsockaddr) : Z := bytes_family (sa_addr a).

(** [memcpy(&ios->addr, bs, n)] and [ios->real = n]. *)
Definition set_sockaddr (a : dpsockaddr) (bs : list Z) : K dpsockaddr :=
  if 128 <? zlen bs then ub else mret (Sockaddr (splice 0 bs (sa_addr a)) (zlen bs)).

Definition port_ok (port : Z) : bool := negb ((port <=? 0) || (UINT16_MAX <? port)).

Section Sockets.
Context `{FdAlloc, NetLib}.

(** ** TCP *)

Definition _set_nodelay (fd : Z) : K bool := setsockopt fd IPPROTO_TCP TCP_NODELAY 1.

Fixpoint tcp_client_loop (rps : list addrinfo) (ios : dpsockaddr) : K (Z * dpsockaddr) :=
  match rps with
  | [] => mret (-1, ios)
  | rp :: rps =>
      fd ← socket (ai_family rp) (ai_socktype rp) (ai_protocol rp);
      if fd =? -1 then tcp_client_loop rps ios else
      ok ← _set_nodelay fd;
      if negb ok then _ ← close fd; tcp_client_loop rps ios else
      ios ← set_sockaddr ios (ai_addr rp);
      mret (fd, ios)
  end.

Definition _dptcp_client_vopen (ios : dpsockaddr) (host : option chars) (port : Z) : K (Z * dpsockaddr) :=
  match host with
  | Some host =>
      if port_ok port then
        match getaddrinfo host (fmt_d port) (Hints AF_UNSPEC SOCK_STREAM 0) with
        | inl r => mret (- r, ios)
        | inr result => tcp_client_loop result ios
        end
      else mret (DPE_INVAL, ios)
  | None => mret (DPE_INVAL, ios)
  end.

Definition _dptcp_server_vopen (d : dpsockaddr) (fd : Z) (addr : option dpsockaddr) : K (Z * dpsockaddr) :=
  match addr with
  | None => mret (DPE_INVAL, d)
  | Some addr => mret (fd, addr)
  end.

(** [a && b] on calls. *)
Definition and_then (a b : K bool) : K bool := ok ← a; if ok : bool then b else mret false.

Fixpoint tcp_listen_loop (backlog : Z) (rps : list addrinfo) (ios : dpsockaddr) : K (Z * dpsockaddr) :=
  match rps with
  | [] => mret (-1, ios)
  | rp :: rps =>
      fd ← socket (ai_family rp) (ai_socktype rp) (ai_protocol rp);
      if fd =? -1 then tcp_listen_loop backlog rps ios else
      ok ← setsockopt fd SOL_SOCKET SO_REUSEPORT 1;
      if negb ok then _ ← close fd; tcp_listen_loop backlog rps ios else
      ok ← and_then (_set_nodelay fd) (and_then (bind fd (ai_addr rp)) (listen fd backlog));
      if ok : bool then ios ← set_sockaddr ios (ai_addr rp); mret (fd, ios)
      else _ ← close fd; tcp_listen_loop backlog rps ios
  end.

Definition _dptcp_listen_vopen (ios : dpsockaddr) (host : option chars) (port backlog : Z) : K (Z * dpsockaddr) :=
  match host with
  | Some host =>
      if port_ok port then
        match getaddrinfo host (fmt_d port) (Hints AF_UNSPEC SOCK_STREAM AI_PASSIVE) with
        | inl r => mret (- r, ios)
        | inr result => tcp_listen_loop backlog result ios
        end
      else mret (DPE_INVAL, ios)
  | None => mret (DPE_INVAL, ios)
  end.

Definition _dptcp_ctx_copy (src : dpsockaddr) : Z * dpsockaddr := (DPE_OK, src).

Definition get_address (scheme : chars) (a : list Z) : chars :=
  if zlen a =? 0 then [] else
  match getnameinfo a with
  | Some (ip, port) => scheme ++ ip ++ chr ":" ++ port
  | None => []
  end.

Inductive sk_type := TcpClient | TcpServer | TcpListen | UdsClient | UdsServer | UdsListen | UdpClient | UdpServer | OtherType.

Definition dptcp_addr (ty : sk_type) (ios : dpsockaddr) : option chars :=
  match ty with
  | TcpListen | TcpServer | TcpClient => Some (get_address (chr "tcp://") (sa_bytes ios))
  | _ => None
  end.

Definition dptcp_peeraddr (ty : sk_type) (fd : Z) (ios : dpsockaddr) : K (option chars) :=
  match ty with
  | TcpServer =>
      k ← gets id;
      mret (Some (match k_fds k !! fd ≫= getpeername with
                  | Some a => get_address (chr "tcp://") a
                  | None => []
                  end))
  | TcpClient => mret (Some (get_address (chr "tcp://") (sa_bytes ios)))
  | _ => mret None
  end.

Definition TCP_KEEPIDLE : Z := 4.
Definition TCP_KEEPINTVL : Z := 5.
Definition TCP_KEEPCNT : Z := 6.

Definition dptcp_set_keepalive (ty : sk_type) (fd idle intvl cnt : Z) : K bool :=
  match ty with
  | TcpListen => mret false
  | _ =>
      and_then (setsockopt fd IPPROTO_TCP TCP_KEEPIDLE idle)
        (and_then (setsockopt fd IPPROTO_TCP TCP_KEEPINTVL intvl) (setsockopt fd IPPROTO_TCP TCP_KEEPCNT cnt))
  end.

Definition dptcp_errno (fd : Z) : K Z :=
  k ← gets id; mret (default (-1) (k_fds k !! fd ≫= so_error)).

(** ** Domain sockets *)

(** [struct sockaddr_un]: a family and a path of at most 107 characters, padded
    with zeros to 108. *)
Record dpuds_data := Uds { u_real : Z; u_family : Z; u_path : chars }.

Definition zero_uds : dpuds_data := Uds 0 0 [].
Definition sun_bytes (d : dpuds_data) : list Z :=
  [u_family d mod 256; u_family d / 256] ++ map code (u_path d) ++ replicate (108 - length (u_path d)) 0.
(** [SUN_LEN]: the offset of the path and its [strlen]. *)
Definition SUN_LEN (d : dpuds_data) : Z := 2 + zlen (u_path d).
Definition set_sun (d : dpuds_data) (udsfile : chars) : dpuds_data := Uds (u_real d) AF_UNIX (ztake 107 udsfile).

Definition _dpuds_client_vopen (ios : dpuds_data) (udsfile : option chars) : K (Z * dpuds_data) :=
  match udsfile with
  | None => mret (DPE_INVAL, ios)
  | Some udsfile =>
      fd ← socket AF_UNIX SOCK_STREAM 0;
      if fd <? 0 then e ← get_errno; mret (- e, ios) else
      let ios := Uds (SUN_LEN ios) (u_family ios) (u_path ios) in
      mret (fd, set_sun ios udsfile)
  end.

Definition _dpuds_server_vopen (ios : dpuds_data) (fd : Z) (d : option dpuds_data) : K (Z * dpuds_data) :=
  d ← lift_opt d; mret (fd, d).

Definition _dpuds_listen_vopen (ios : dpuds_data) (udsfile : option chars) : K (Z * dpuds_data) :=
  match udsfile with
  | None => mret (DPE_INVAL, ios)
  | Some udsfile =>
      fd ← socket AF_UNIX SOCK_STREAM 0;
      if fd <? 0 then e ← get_errno; mret (- e, ios) else
      let ios := set_sun (Uds (SUN_LEN ios) 0 []) udsfile in
      _ ← unlink udsfile;
      ok ← and_then (bind fd (ztake (u_real ios) (sun_bytes ios))) (listen fd 100);
      if negb ok then _ ← close fd; e ← get_errno; mret (- e, ios) else
      mret (fd, ios)
  end.

Definition _dpuds_ctx_copy (src : dpuds_data) : Z * dpuds_data := (DPE_OK, src).

(** ** UDP *)

Record dpudp_client := UdpC { uc_local : dpsockaddr; uc_peer : dpsockaddr }.

Fixpoint udp_client_loop (rps : list addrinfo) (peer : dpsockaddr) : K (Z * dpsockaddr) :=
  match rps with
  | [] => mret (-1, peer)
  | rp :: rps =>
      fd ← socket (ai_family rp) (ai_socktype rp) (ai_protocol rp);
      if fd =? -1 then udp_client_loop rps peer else
      peer ← set_sockaddr peer (ai_addr rp);
      mret (fd, peer)
  end.

(** The local address asked for: any address, any port.  The last eight bytes of
    [struct sockaddr_in] are not initialised. *)
Definition local_any (family : Z) : option (list Z) :=
  if family =? AF_INET then Some ([AF_INET; 0] ++ replicate 6 0 ++ ztake 8 (stack_junk ++ replicate 8 0))
  else if family =? AF_INET6 then Some ([AF_INET6; 0] ++ replicate 26 0)
  else None.

Definition dpudp_client_vopen (ucet : dpudp_client) (host : option chars) (port : Z) : K (Z * dpudp_client) :=
  match host with
  | Some host =>
      if port_ok port then
        match getaddrinfo host (fmt_d port) (Hints AF_UNSPEC SOCK_DGRAM 0) with
        | inl r => mret (- r, ucet)
        | inr result =>
            o ← udp_client_loop result (uc_peer ucet);
            let '(fd, peer) := o in
            let ucet := UdpC (uc_local ucet) peer in
            let error := (e ← get_errno; _ ← close fd; mret (- e, ucet)) in
            match local_any (sa_family peer) with
            | None => modify (put_errno DPE_INVAL);; error
            | Some sa_local =>
                ok ← bind fd sa_local;
                if negb ok then error else
                ok ← connect fd (sa_bytes peer);
                if negb ok then error else
                ok ← fd_call fd id; (* getsockname *)
                if negb ok then error else
                k ← gets id;
                d ← lift_opt (k_fds k !! fd);
                local ← set_sockaddr (uc_local ucet) (getsockname d);
                mret (fd, UdpC local peer)
            end
        end
      else mret (DPE_INVAL, ucet)
  | None => mret (DPE_INVAL, ucet)
  end.

Fixpoint udp_server_loop (rps : list addrinfo) (local : dpsockaddr) : K (Z * dpsockaddr) :=
  match rps with
  | [] => mret (-1, local)
  | rp :: rps =>
      fd ← socket (ai_family rp) (ai_socktype rp) (ai_protocol rp);
      if fd =? -1 then udp_server_loop rps local else
      ok ← setsockopt fd SOL_SOCKET SO_REUSEPORT 1;
      if negb ok then _ ← close fd; udp_server_loop rps local else
      ok ← bind fd (ai_addr rp);
      if ok : bool then local ← set_sockaddr local (ai_addr rp); mret (fd, local)
      else _ ← close fd; udp_server_loop rps local
  end.

Definition dpudp_server_vopen (local : dpsockaddr) (host : option chars) (port : Z) : K (Z * dpsockaddr) :=
  match host with
  | Some host =>
      if port_ok port then
        match getaddrinfo host (fmt_d port) (Hints AF_UNSPEC SOCK_DGRAM AI_PASSIVE) with
        | inl r => mret (- r, local)
        | inr result => udp_server_loop result local
        end
      else mret (DPE_INVAL, local)
  | None => mret (DPE_INVAL, local)
  end.

Definition _dpudp_client_copy (src : dpudp_client) : Z * dpudp_client := (DPE_OK, src).
Definition _dpudp_server_copy (src : dpsockaddr) : Z * dpsockaddr := (DPE_OK, src).

(** The data of an element of each type. *)
Inductive sk_data := SkAddr (a : dpsockaddr) | SkUds (d : dpuds_data) | SkUdpClient (c : dpudp_client).

Definition dpudp_addr (ty : sk_type) (d : sk_data) : option chars :=
  match ty, d with
  | UdpServer, SkAddr a => Some (get_address (chr "udp://") (sa_bytes a))
  | UdpClient, SkUdpClient c => Some (get_address (chr "udp://") (sa_bytes (uc_local c)))
  | _, _ => None
  end.
Definition dpudp_peeraddr (ty : sk_type) (d : sk_data) : option chars :=
  match ty, d with
  | UdpClient, SkUdpClient c => Some (get_address (chr "udp://") (sa_bytes (uc_peer c)))
  | _, _ => None
  end.

(** ** Options of QUIC sockets *)

Definition IPPROTO_IP : Z := 0.
Definition IPPROTO_IPV6 : Z := 41.
Definition IP_PMTUDISC_PROBE : Z := 3.

(** Calls up to the first that fails. *)
Fixpoint setsockopts (fd : Z) (l : list (Z * Z * Z)) : K Z :=
  match l with
  | [] => mret DPE_OK
  | (level, opt, val) :: l =>
      ok ← setsockopt fd level opt val;
      if negb ok then e ← get_errno; mret (- e) else setsockopts fd l
  end.

(** [IPV6_V6ONLY], [IPV6_RECVPKTINFO], [IPV6_RECVTCLASS], [IPV6_TCLASS] and
    [IPV6_MTU_DISCOVER]; [IP_RECVORIGDSTADDR], [SO_RXQ_OVFL], [IP_RECVTOS],
    [IP_TOS] and [IP_MTU_DISCOVER]. *)
Definition dpqic_server_setopt (fd : Z) (usvr : dpsockaddr) : K Z :=
  if AF_INET6 =? sa_family usvr then
    setsockopts fd [(IPPROTO_IPV6, 26, 1); (IPPROTO_IPV6, 49, 1); (IPPROTO_IPV6, 66, 1); (IPPROTO_IPV6, 67, 1);
                    (IPPROTO_IPV6, 23, IP_PMTUDISC_PROBE)]
  else
    setsockopts fd [(IPPROTO_IP, 20, 1); (SOL_SOCKET, 40, 1); (IPPROTO_IP, 13, 1); (IPPROTO_IP, 1, 1);
                    (IPPROTO_IP, 10, IP_PMTUDISC_PROBE)].

Definition dpqic_client_setopt (fd : Z) (ucet : dpudp_client) : K Z :=
  if AF_INET6 =? sa_family (uc_peer ucet) then
    setsockopts fd [(IPPROTO_IPV6, 66, 1); (IPPROTO_IPV6, 67, 1); (IPPROTO_IPV6, 23, IP_PMTUDISC_PROBE)]
  else
    setsockopts fd [(IPPROTO_IP, 13, 1); (IPPROTO_IP, 1, 1); (IPPROTO_IP, 10, IP_PMTUDISC_PROBE)].

End Sockets.

(** ** Element types *)

Definition dptcp_client_type : dpele_type := EleType 10 DPELE_TYPE_EFD 136 DPAIO_TYPE_SKT (Z.lor DPEVT_IN DPEVT_OUT).
Definition dptcp_server_type : dpele_type := EleType 11 DPELE_TYPE_EFD 136 DPAIO_TYPE_SKT (Z.lor DPEVT_IN DPEVT_OUT).
Definition dptcp_listen_type : dpele_type := EleType 12 DPELE_TYPE_EFD 136 DPAIO_TYPE_SKT DPEVT_IN.
Definition dpuds_client_type : dpele_type := EleType 13 DPELE_TYPE_EFD 120 DPAIO_TYPE_SKT (Z.lor DPEVT_IN DPEVT_OUT).
Definition dpuds_server_type : dpele_type := EleType 14 DPELE_TYPE_EFD 120 DPAIO_TYPE_SKT (Z.lor DPEVT_IN DPEVT_OUT).
Definition dpuds_listen_type : dpele_type := EleType 15 DPELE_TYPE_EFD 120 DPAIO_TYPE_SKT DPEVT_IN.
Definition dpudp_client_type : dpele_type := EleType 16 DPELE_TYPE_EFD 272 DPAIO_TYPE_SKT (Z.lor DPEVT_IN DPEVT_OUT).
Definition dpudp_server_type : dpele_type := EleType 17 DPELE_TYPE_EFD 136 DPAIO_TYPE_SKT (Z.lor DPEVT_IN DPEVT_OUT).
