(* ===== verification/SktFacts.v ===== *)
(** * Factories own one descriptor

    Whatever the system answers, the [init] function of a socket type either
    gives a fresh descriptor, configured as its type says, or leaves none open. *)

From S2P Require Import Prelude Chars Dpret Ele Kern Sockets.

#[local] Set Default Proof Using "Type*".

(** ** The calls *)

Section Calls.
Context `{FdAlloc}.

Lemma wp_answer k (Q : bool -> kern -> Prop) :
  (forall k', k_fds k' = k_fds k -> k_files k' = k_files k -> k_errno k' = k_errno k -> Q true k') ->
  (forall k', k_fds k' = k_fds k -> k_files k' = k_files k -> 0 < k_errno k' -> Q false k') -> wp answer k Q.
Proof.
  intros Ht Hf. unfold wp, answer. destruct (k_answers k) as [|e l]; [by apply Ht|].
  destruct (Z.ltb_spec 0 e); [by apply Hf|by apply Ht].
Qed.

Lemma wp_open_new kind k (Q : Z -> kern -> Prop) :
  (forall fd k', 0 <= fd -> k_fds k !! fd = None -> k_fds k' = <[fd := new_kfd kind]> (k_fds k) ->
     k_files k' = k_files k -> Q fd k') -> wp (open_new kind) k Q.
Proof.
  intros HQ. unfold open_new. apply wp_bind, wp_gets, wp_bind, wp_modify, wp_ret.
  apply HQ; try done; [apply new_fd_nonneg|]. apply not_elem_of_dom, new_fd_fresh.
Qed.

Lemma wp_socket d t p k (Q : Z -> kern -> Prop) :
  (forall fd k', 0 <= fd -> k_fds k !! fd = None -> k_fds k' = <[fd := new_kfd (FSock d t p)]> (k_fds k) -> Q fd k') ->
  (forall k', k_fds k' = k_fds k -> 0 < k_errno k' -> Q (-1) k') -> wp (socket d t p) k Q.
Proof.
  intros Ht Hf. unfold socket. apply wp_bind, wp_answer; intros k1 E1 E2 E3.
  - apply wp_open_new. intros fd k2 Hfd Hn E. rewrite E1 in Hn, E. intros _. by apply Ht.
  - apply wp_ret. by apply Hf.
Qed.

Lemma wp_fd_call fd f d k (Q : bool -> kern -> Prop) :
  k_fds k !! fd = Some d ->
  (forall k', k_fds k' = <[fd := f d]> (k_fds k) -> Q true k') ->
  (forall k', k_fds k' = k_fds k -> 0 < k_errno k' -> Q false k') -> wp (fd_call fd f) k Q.
Proof.
  intros Hd Ht Hf. unfold fd_call. apply wp_bind, wp_gets. unfold id. rewrite Hd. apply wp_bind, wp_answer; intros k1 E1 E2 E3.
  - apply wp_bind, wp_modify, wp_ret, Ht. cbn. by rewrite E1.
  - apply wp_ret. by apply Hf.
Qed.

Lemma wp_close fd d k (Q : bool -> kern -> Prop) :
  k_fds k !! fd = Some d ->
  (forall ok k', k_fds k' = delete fd (k_fds k) -> (0 < k_errno k -> 0 < k_errno k') -> Q ok k') -> wp (close fd) k Q.
Proof.
  intros Hd HQ. unfold close. apply wp_bind, wp_gets. unfold id. rewrite Hd. apply wp_bind, wp_modify, wp_answer.
  - intros k1 E1 E2 E3. apply HQ; [done|]. by rewrite E3.
  - intros k1 E1 E2 E3. by apply HQ.
Qed.

(** Closing a descriptor just made. *)
Lemma wp_close_new fd d k k0 (Q : bool -> kern -> Prop) :
  k_fds k0 !! fd = None -> k_fds k = <[fd := d]> (k_fds k0) ->
  (forall ok k', k_fds k' = k_fds k0 -> (0 < k_errno k -> 0 < k_errno k') -> Q ok k') -> wp (close fd) k Q.
Proof.
  intros Hn Hk HQ. eapply wp_close; [rewrite Hk; apply lookup_insert_eq|]. intros ok k' E He.
  apply HQ; [|done]. by rewrite E, Hk, delete_insert_id.
Qed.

Lemma close_then {A} fd d k k0 (m : K A) (Q : A -> kern -> Prop) :
  k_fds k0 !! fd = None -> k_fds k = <[fd := d]> (k_fds k0) ->
  (forall k', k_fds k' = k_fds k0 -> wp m k' Q) -> wp (_ ← close fd; m) k Q.
Proof. intros Hn Hk HQ. apply wp_bind. eapply wp_close_new; [done..|]. intros ok k' E _. by apply HQ. Qed.

(** A call on a descriptor just made. *)
Lemma wp_on_new fd d f k k0 (Q : bool -> kern -> Prop) :
  k_fds k = <[fd := d]> (k_fds k0) ->
  (forall k', k_fds k' = <[fd := f d]> (k_fds k0) -> Q true k') ->
  (forall k', k_fds k' = <[fd := d]> (k_fds k0) -> 0 < k_errno k' -> Q false k') -> wp (fd_call fd f) k Q.
Proof.
  intros Hk Ht Hf. eapply wp_fd_call; [rewrite Hk; apply lookup_insert_eq| |].
  - intros k' E. apply Ht. by rewrite E, Hk, insert_insert_eq.
  - intros k' E. apply Hf. by rewrite E, Hk.
Qed.

Lemma wp_and_then a b k (Q : bool -> kern -> Prop) :
  wp a k (fun ok k' => if ok : bool then wp b k' Q else Q false k') -> wp (and_then a b) k Q.
Proof.
  intros Hw. apply wp_bind. eapply wp_mono; [exact Hw|]. cbv beta. intros [] k' Hq; [done|by apply wp_ret].
Qed.

Lemma wp_errno k (Q : Z -> kern -> Prop) : Q (k_errno k) k -> wp get_errno k Q.
Proof. intros HQ. unfold get_errno. by apply wp_bind, wp_gets, wp_ret. Qed.

End Calls.

Lemma wp_set_sockaddr a bs k (Q : dpsockaddr -> kern -> Prop) :
  zlen bs <= 128 -> (forall a', sa_bytes a' = bs -> Q a' k) -> wp (set_sockaddr a bs) k Q.
Proof.
  intros Hb HQ. unfold set_sockaddr. destruct (Z.ltb_spec 128 (zlen bs)); [lia|]. apply wp_ret, HQ.
  unfold sa_bytes. cbn. unfold splice. rewrite ztake_0, app_nil_l. rewrite ztake_app, ztake_all by lia.
  by rewrite Z.sub_diag, ztake_0, app_nil_r.
Qed.

(** ** The requests *)

Inductive vopen :=
  | VTcpClient (host : option chars) (port : Z)
  | VTcpListen (host : option chars) (port backlog : Z)
  | VUdpServer (host : option chars) (port : Z)
  | VUdpClient (host : option chars) (port : Z)
  | VUdsClient (path : option chars)
  | VUdsListen (path : option chars).

Section Facts.
Context `{FdAlloc, NetLib}.

(** Each on the zeroed data of a new element. *)
Definition run_vopen (v : vopen) : K (Z * sk_data) :=
  match v with
  | VTcpClient host port => r ← _dptcp_client_vopen zero_sockaddr host port; mret (r.1, SkAddr r.2)
  | VTcpListen host port n => r ← _dptcp_listen_vopen zero_sockaddr host port n; mret (r.1, SkAddr r.2)
  | VUdpServer host port => r ← dpudp_server_vopen zero_sockaddr host port; mret (r.1, SkAddr r.2)
  | VUdpClient host port => r ← dpudp_client_vopen (UdpC zero_sockaddr zero_sockaddr) host port; mret (r.1, SkUdpClient r.2)
  | VUdsClient path => r ← _dpuds_client_vopen zero_uds path; mret (r.1, SkUds r.2)
  | VUdsListen path => r ← _dpuds_listen_vopen zero_uds path; mret (r.1, SkUds r.2)
  end.

(** What the resolution of the host answers, if it is asked. *)
Definition resolve (v : vopen) : option (Z + list addrinfo) :=
  let ask host port ty fl :=
    if port_ok port then (fun h => getaddrinfo h (fmt_d port) (Hints AF_UNSPEC ty fl)) <$> host else None in
  match v with
  | VTcpClient host port => ask host port SOCK_STREAM 0
  | VTcpListen host port _ => ask host port SOCK_STREAM AI_PASSIVE
  | VUdpServer host port => ask host port SOCK_DGRAM AI_PASSIVE
  | VUdpClient host port => ask host port SOCK_DGRAM 0
  | _ => None
  end.

Definition sock_of (rp : addrinfo) : fdkind := FSock (ai_family rp) (ai_socktype rp) (ai_protocol rp).
Definition nodelay : gmap (Z * Z) Z := {[ (IPPROTO_TCP, TCP_NODELAY) := 1 ]}.
Definition reuse : gmap (Z * Z) Z := {[ (SOL_SOCKET, SO_REUSEPORT) := 1 ]}.

(** The descriptor and the data a request is to give, from one of the addresses. *)
Definition configured (v : vopen) (rp : addrinfo) (d : kfd) (data : sk_data) : Prop :=
  match v, data with
  | VTcpClient _ _, SkAddr a => d = Kfd (sock_of rp) nodelay None None None /\ sa_bytes a = ai_addr rp
  | VTcpListen _ _ n, SkAddr a =>
      d = Kfd (sock_of rp) (<[(IPPROTO_TCP, TCP_NODELAY) := 1]> reuse) (Some (ai_addr rp)) (Some n) None /\ sa_bytes a = ai_addr rp
  | VUdpServer _ _, SkAddr a => d = Kfd (sock_of rp) reuse (Some (ai_addr rp)) None None /\ sa_bytes a = ai_addr rp
  | VUdpClient _ _, SkUdpClient c =>
      exists any, local_any (bytes_family (ai_addr rp)) = Some any /\
        d = Kfd (sock_of rp) ∅ (Some any) None (Some (ai_addr rp)) /\
        sa_bytes (uc_peer c) = ai_addr rp /\ sa_bytes (uc_local c) = getsockname d
  | VUdsClient (Some path), SkUds u => d = new_kfd (FSock AF_UNIX SOCK_STREAM 0) /\ u = Uds 2 AF_UNIX (ztake 107 path)
  | VUdsListen (Some path), SkUds u =>
      (* bound to the family alone: the path is not in the two bytes of [u_real] *)
      d = Kfd (FSock AF_UNIX SOCK_STREAM 0) ∅ (Some [AF_UNIX; 0]) (Some 100) None /\ u = Uds 2 AF_UNIX (ztake 107 path)
  | _, _ => False
  end.

(** What is given back when there is no descriptor.  The opposite of a code of the
    resolver is positive where its codes are negative, and 22 is the opposite of
    [DPE_INVAL]: neither tells the caller of the failure. *)
Definition refused (v : vopen) (r : Z) : Prop :=
  match resolve v, v with
  | Some (inl code), _ => r = - code
  | Some (inr _), VUdpClient _ _ => r < 0 \/ r = 22
  | Some (inr _), _ => r = -1
  | None, (VUdsClient (Some _) | VUdsListen (Some _)) => r < 0
  | None, _ => r = DPE_INVAL
  end.

(** A descriptor made from one of [rps], or none. *)
Definition one_or_none (k0 : kern) (rps : list addrinfo) (P : addrinfo -> kfd -> dpsockaddr -> Prop)
    (o : Z * dpsockaddr) (k' : kern) : Prop :=
  (exists rp d, rp ∈ rps /\ 0 <= o.1 /\ k_fds k0 !! o.1 = None /\ k_fds k' = <[o.1 := d]> (k_fds k0) /\ P rp d o.2) \/
  (o.1 = -1 /\ k_fds k' = k_fds k0).

Lemma one_or_none_more k0 k1 rp rps P o k' :
  k_fds k1 = k_fds k0 -> one_or_none k1 rps P o k' -> one_or_none k0 (rp :: rps) P o k'.
Proof.
  intros E [(rq & d & Hin & Hr & Hn & Hk & HP)|[Hr Hk]]; [left|right].
  - exists rq, d. rewrite <- E. split_and!; try done. by right.
  - by rewrite <- E.
Qed.

(** Addresses hold a family and fit. *)
Definition short (rps : list addrinfo) : Prop := Forall (fun rp => 2 <= zlen (ai_addr rp) <= 128) rps.

Lemma tcp_client_loop_ok rps ios k : short rps ->
  wp (tcp_client_loop rps ios) k (one_or_none k rps (fun rp d a => d = Kfd (sock_of rp) nodelay None None None /\ sa_bytes a = ai_addr rp)).
Proof.
  intros Hs. revert k. induction Hs as [|rp rps Hrp Hs IH]; intros k; cbn [tcp_client_loop].
  { apply wp_ret. by right. }
  apply wp_bind, wp_socket.
  - intros fd k1 Hfd Hn E1. rewrite (proj2 (Z.eqb_neq fd (-1))) by lia. apply wp_bind. unfold _set_nodelay, setsockopt.
    eapply (wp_on_new _ _ _ _ k); [done| |]; intros k2 E2; [|intros He]; cbn [negb].
    + apply wp_bind, wp_set_sockaddr; [apply Hrp|]. intros a Ha. apply wp_ret. left.
      eexists rp, _. split_and!; try done. left.
    + eapply (close_then _ _ _ k); [done..|]. intros k3 E3.
      eapply wp_mono; [apply IH|]. intros o k'. by apply one_or_none_more.
  - intros k1 E1 _. cbn [Z.eqb]. eapply wp_mono; [apply IH|]. intros o k'. by apply one_or_none_more.
Qed.

Lemma tcp_listen_loop_ok n rps ios k : short rps ->
  wp (tcp_listen_loop n rps ios) k (one_or_none k rps (fun rp d a =>
    d = Kfd (sock_of rp) (<[(IPPROTO_TCP, TCP_NODELAY) := 1]> reuse) (Some (ai_addr rp)) (Some n) None /\ sa_bytes a = ai_addr rp)).
Proof.
  intros Hs. revert k. induction Hs as [|rp rps Hrp Hs IH]; intros k; cbn [tcp_listen_loop].
  { apply wp_ret. by right. }
  apply wp_bind, wp_socket.
  2: { intros k1 E1 _. cbn [Z.eqb]. eapply wp_mono; [apply IH|]. intros o k'. by apply one_or_none_more. }
  intros fd k1 Hfd Hn E1. rewrite (proj2 (Z.eqb_neq fd (-1))) by lia.
  assert (Hagain : forall d k2, k_fds k2 = <[fd := d]> (k_fds k) ->
    wp (_ ← close fd; tcp_listen_loop n rps ios) k2 (one_or_none k (rp :: rps) (fun rp d a =>
      d = Kfd (sock_of rp) (<[(IPPROTO_TCP, TCP_NODELAY) := 1]> reuse) (Some (ai_addr rp)) (Some n) None /\ sa_bytes a = ai_addr rp))).
  { intros d k2 E2. eapply (close_then _ _ _ k); [done..|]. intros k3 E3.
    eapply wp_mono; [apply IH|]. intros o k'. by apply one_or_none_more. }
  apply wp_bind. unfold _set_nodelay, setsockopt, bind, listen.
  eapply (wp_on_new _ _ _ _ k); [done| |]; intros k2 E2; [|intros _]; cbn [negb]; [|by eapply Hagain].
  apply wp_bind, wp_and_then. eapply (wp_on_new _ _ _ _ k); [done| |]; intros k3 E3; [|intros _]; [|by eapply Hagain].
  apply wp_and_then. eapply (wp_on_new _ _ _ _ k); [done| |]; intros k4 E4; [|intros _]; [|by eapply Hagain].
  eapply (wp_on_new _ _ _ _ k); [done| |]; intros k5 E5; [|intros _]; [|by eapply Hagain].
  apply wp_bind, wp_set_sockaddr; [apply Hrp|]. intros a Ha. apply wp_ret. left.
  eexists rp, _. split_and!; try done. left.
Qed.

Lemma udp_server_loop_ok rps ios k : short rps ->
  wp (udp_server_loop rps ios) k (one_or_none k rps (fun rp d a =>
    d = Kfd (sock_of rp) reuse (Some (ai_addr rp)) None None /\ sa_bytes a = ai_addr rp)).
Proof.
  intros Hs. revert k. induction Hs as [|rp rps Hrp Hs IH]; intros k; cbn [udp_server_loop].
  { apply wp_ret. by right. }
  apply wp_bind, wp_socket.
  2: { intros k1 E1 _. cbn [Z.eqb]. eapply wp_mono; [apply IH|]. intros o k'. by apply one_or_none_more. }
  intros fd k1 Hfd Hn E1. rewrite (proj2 (Z.eqb_neq fd (-1))) by lia.
  assert (Hagain : forall d k2, k_fds k2 = <[fd := d]> (k_fds k) ->
    wp (_ ← close fd; udp_server_loop rps ios) k2 (one_or_none k (rp :: rps) (fun rp d a =>
      d = Kfd (sock_of rp) reuse (Some (ai_addr rp)) None None /\ sa_bytes a = ai_addr rp))).
  { intros d k2 E2. eapply (close_then _ _ _ k); [done..|]. intros k3 E3.
    eapply wp_mono; [apply IH|]. intros o k'. by apply one_or_none_more. }
  apply wp_bind. unfold setsockopt, bind.
  eapply (wp_on_new _ _ _ _ k); [done| |]; intros k2 E2; [|intros _]; cbn [negb]; [|by eapply Hagain].
  apply wp_bind. eapply (wp_on_new _ _ _ _ k); [done| |]; intros k3 E3; [|intros _]; [|by eapply Hagain].
  apply wp_bind, wp_set_sockaddr; [apply Hrp|]. intros a Ha. apply wp_ret. left.
  eexists rp, _. split_and!; try done. left.
Qed.

Lemma udp_client_loop_ok rps a0 k : short rps ->
  wp (udp_client_loop rps a0) k (fun o k' =>
    one_or_none k rps (fun rp d a => d = new_kfd (sock_of rp) /\ sa_bytes a = ai_addr rp) o k' /\ (o.1 = -1 -> o.2 = a0)).
Proof.
  intros Hs. revert k. induction Hs as [|rp rps Hrp Hs IH]; intros k; cbn [udp_client_loop].
  { apply wp_ret. split; [by right|done]. }
  apply wp_bind, wp_socket.
  - intros fd k1 Hfd Hn E1. rewrite (proj2 (Z.eqb_neq fd (-1))) by lia.
    apply wp_bind, wp_set_sockaddr; [apply Hrp|]. intros a Ha. apply wp_ret. split; [|cbn; lia]. left.
    eexists rp, _. split_and!; try done. left.
  - intros k1 E1 _. cbn [Z.eqb]. eapply wp_mono; [apply IH|]. cbv beta. intros o k' [Ho Hz]. split; [|done].
    by eapply one_or_none_more.
Qed.

(** What a request comes to. *)
Definition vopen_post (v : vopen) (k : kern) (r : Z * sk_data) (k' : kern) : Prop :=
  (exists rp d, (forall rps, resolve v = Some (inr rps) -> rp ∈ rps) /\ 0 <= r.1 /\ k_fds k !! r.1 = None /\
     k_fds k' = <[r.1 := d]> (k_fds k) /\ configured v rp d r.2) \/
  (refused v r.1 /\ k_fds k' = k_fds k).

Lemma refuse v k r data k' : refused v r -> k_fds k' = k_fds k -> vopen_post v k (r, data) k'.
Proof. intros Hr Hk. by right. Qed.

Lemma loop_post v k rps P o k' mk :
  (forall h p, v <> VUdpClient h p) -> resolve v = Some (inr rps) -> one_or_none k rps P o k' ->
  (forall rp d a, P rp d a -> configured v rp d (mk a)) -> vopen_post v k (o.1, mk o.2) k'.
Proof.
  intros Hv Hres [(rp & d & Hin & Hr & Hn & Hk' & HP)|[Hr Hk']] Hconf.
  - left. exists rp, d. split_and!; try done; [|by apply Hconf]. intros rps' E. by simplify_eq.
  - right. split; [|done]. unfold refused. rewrite Hres. destruct v; try exact Hr. by destruct (Hv host port).
Qed.

(** Resolving, then trying the addresses. *)
Lemma resolved_ok v k (m : Z + list addrinfo -> K (Z * dpsockaddr)) mk a0 P :
  (forall h p, v <> VUdpClient h p) -> (forall p, v <> VUdsClient p /\ v <> VUdsListen p) ->
  (forall rps, resolve v = Some (inr rps) -> short rps) ->
  (forall rps, resolve v = Some (inr rps) -> short rps -> wp (m (inr rps)) k (one_or_none k rps P)) ->
  (forall code, resolve v = Some (inl code) -> m (inl code) = mret (- code, a0)) ->
  (forall rp d a, P rp d a -> configured v rp d (mk a)) ->
  wp (match resolve v with Some g => m g | None => mret (DPE_INVAL, a0) end) k
    (fun r k' => wp (mret (r.1, mk r.2)) k' (vopen_post v k)).
Proof.
  intros Hudp Huds Hs Hok Hcode Hconf. destruct (resolve v) as [[code|rps]|] eqn:Hres.
  - rewrite (Hcode code) by done. apply wp_ret, wp_ret. apply refuse; [|done]. unfold refused. by rewrite Hres.
  - eapply wp_mono; [apply Hok; [done|by apply Hs]|]. cbv beta. intros o k' Ho. apply wp_ret. by eapply loop_post.
  - apply wp_ret, wp_ret. apply refuse; [|done]. unfold refused. rewrite Hres.
    destruct v as [| | | |path|path]; try done; by destruct (Huds path).
Qed.

Lemma tcp_client_resolve host port ios :
  _dptcp_client_vopen ios host port =
  match resolve (VTcpClient host port) with
  | Some (inl r) => mret (- r, ios) | Some (inr rps) => tcp_client_loop rps ios | None => mret (DPE_INVAL, ios)
  end.
Proof. unfold _dptcp_client_vopen. cbn. by destruct host, (port_ok port). Qed.

Lemma tcp_listen_resolve host port n ios :
  _dptcp_listen_vopen ios host port n =
  match resolve (VTcpListen host port n) with
  | Some (inl r) => mret (- r, ios) | Some (inr rps) => tcp_listen_loop n rps ios | None => mret (DPE_INVAL, ios)
  end.
Proof. unfold _dptcp_listen_vopen. cbn. by destruct host, (port_ok port). Qed.

Lemma udp_server_resolve host port ios :
  dpudp_server_vopen ios host port =
  match resolve (VUdpServer host port) with
  | Some (inl r) => mret (- r, ios) | Some (inr rps) => udp_server_loop rps ios | None => mret (DPE_INVAL, ios)
  end.
Proof. unfold dpudp_server_vopen. cbn. by destruct host, (port_ok port). Qed.

Context (Hname : forall d, zlen (getsockname d) <= 128).

(** The end of [dpudp_client_vopen], after the loop over the addresses. *)
Definition udp_client_tail (ucet : dpudp_client) (o : Z * dpsockaddr) : K (Z * dpudp_client) :=
  let '(fd, peer) := o in
  let ucet := UdpC (uc_local ucet) peer in
  let error := (e ← get_errno; _ ← close fd; mret (- e, ucet)) in
  match local_any (sa_family peer) with
  | None => modify (put_errno DPE_INVAL);; error
  | Some sa_local =>
      ok ← bind fd sa_local;
      if negb ok then error else
      ok ← connect fd (sa_bytes peer);
      if negb ok then error else
      ok ← fd_call fd id;
      if negb ok then error else
      k ← gets id;
      d ← lift_opt (k_fds k !! fd);
      local ← set_sockaddr (uc_local ucet) (getsockname d);
      mret (fd, UdpC local peer)
  end.

Lemma udp_client_resolve host port u :
  dpudp_client_vopen u host port =
  match resolve (VUdpClient host port) with
  | Some (inl r) => mret (- r, u)
  | Some (inr rps) => o ← udp_client_loop rps (uc_peer u); udp_client_tail u o
  | None => mret (DPE_INVAL, u)
  end.
Proof. unfold dpudp_client_vopen. cbn. by destruct host, (port_ok port). Qed.

Lemma sa_family_bytes a bs : sa_bytes a = bs -> 2 <= zlen bs -> sa_family a = bytes_family bs.
Proof.
  intros <- Hl. unfold sa_bytes, sa_family in *. rewrite zlen_ztake in Hl. unfold ztake.
  destruct (sa_addr a) as [|x [|y l]]; [unfold zlen in Hl; cbn in Hl; lia..|].
  destruct (Z.to_nat (sa_real a)) as [|[|n]] eqn:E; [lia|lia|done].
Qed.

Lemma udp_error_ok h p k0 k fd d u rps :
  resolve (VUdpClient h p) = Some (inr rps) -> k_fds k0 !! fd = None -> k_fds k = <[fd := d]> (k_fds k0) -> 0 < k_errno k \/ k_errno k = DPE_INVAL ->
  wp (e ← get_errno; _ ← close fd; mret (- e, u)) k (fun r k' =>
    vopen_post (VUdpClient h p) k0 (r.1, SkUdpClient r.2) k').
Proof.
  intros Hres Hn Hk He. apply wp_bind, wp_errno. eapply (close_then _ _ _ k0); [done..|]. intros k' E.
  apply wp_ret, refuse; [|done]. unfold refused. rewrite Hres. cbn [fst]. destruct He as [He|He]; [left; lia|right]. by rewrite He.
Qed.

Lemma udp_client_tail_ok h p k0 k rp rps d u o :
  resolve (VUdpClient h p) = Some (inr rps) -> rp ∈ rps -> 2 <= zlen (ai_addr rp) ->
  0 <= o.1 -> k_fds k0 !! o.1 = None -> k_fds k = <[o.1 := d]> (k_fds k0) ->
  d = new_kfd (sock_of rp) -> sa_bytes o.2 = ai_addr rp ->
  wp (udp_client_tail u o) k (fun r k' => vopen_post (VUdpClient h p) k0 (r.1, SkUdpClient r.2) k').
Proof.
  destruct o as [fd peer]. cbn [fst snd]. intros Hres Hin Hlen Hfd Hn Hk -> Hpeer. unfold udp_client_tail.
  rewrite (sa_family_bytes _ _ Hpeer Hlen). destruct (local_any (bytes_family (ai_addr rp))) as [any|] eqn:Hany.
  2: { apply wp_bind, wp_modify. eapply udp_error_ok; [done|done|done|by right]. }
  apply wp_bind. eapply (wp_on_new _ _ _ _ k0); [done| |]; intros k2 E2; [|intros He]; cbn [negb];
    [|eapply udp_error_ok; [done|done|done|by left]].
  apply wp_bind. eapply (wp_on_new _ _ _ _ k0); [done| |]; intros k3 E3; [|intros He]; cbn [negb];
    [|eapply udp_error_ok; [done|done|done|by left]].
  apply wp_bind. eapply (wp_on_new _ _ _ _ k0); [done| |]; intros k4 E4; [|intros He]; cbn [negb];
    [|eapply udp_error_ok; [done|done|done|by left]].
  apply wp_bind, wp_gets. unfold id in *. rewrite E4, lookup_insert_eq. apply wp_bind, wp_ret.
  apply wp_bind, wp_set_sockaddr; [apply Hname|]. intros a Ha. apply wp_ret. left.
  eexists rp, _. split_and!; [|done|done|exact E4|].
  - intros rps' E. by simplify_eq.
  - cbn. exists any. rewrite Hpeer in *. by split_and!.
Qed.

Lemma udp_client_ok h p k u :
  (forall fd d, k_fds k !! fd = Some d -> 0 <= fd) -> uc_peer u = zero_sockaddr ->
  (forall rps, resolve (VUdpClient h p) = Some (inr rps) -> short rps) ->
  wp (dpudp_client_vopen u h p) k (fun r k' => vopen_post (VUdpClient h p) k (r.1, SkUdpClient r.2) k').
Proof.
  intros Hfds Hu Hs. rewrite udp_client_resolve. destruct (resolve (VUdpClient h p)) as [[code|rps]|] eqn:Hres.
  - apply wp_ret, refuse; [|done]. unfold refused. by rewrite Hres.
  - specialize (Hs rps eq_refl). apply wp_bind. eapply wp_mono; [by apply udp_client_loop_ok|]. cbv beta.
    intros o k1 [[(rp & d & Hin & Hr & Hn & Hk1 & -> & Hb)|[Hr Hk1]] Hz].
    + assert (2 <= zlen (ai_addr rp)) by (unfold short in Hs; rewrite Forall_forall in Hs; by apply Hs).
      by eapply udp_client_tail_ok.
    + specialize (Hz Hr). destruct o as [fd peer]. cbn in Hr, Hz. subst fd peer. unfold udp_client_tail. rewrite Hu.
      change (local_any (sa_family zero_sockaddr)) with (@None (list Z)).
      apply wp_bind, wp_modify, wp_bind, wp_errno. apply wp_bind. unfold close. apply wp_bind, wp_gets.
      change (k_fds (id (put_errno DPE_INVAL k1))) with (k_fds k1). rewrite Hk1.
      destruct (k_fds k !! (-1)) eqn:E; [specialize (Hfds _ _ E); lia|].
      apply wp_bind, wp_modify, wp_ret, wp_ret, refuse; [|done]. unfold refused. rewrite Hres. by right.
  - apply wp_ret, refuse; [|done]. unfold refused. by rewrite Hres.
Qed.

Lemma uds_client_ok path k :
  wp (_dpuds_client_vopen zero_uds path) k (fun r k' => vopen_post (VUdsClient path) k (r.1, SkUds r.2) k').
Proof.
  unfold _dpuds_client_vopen. destruct path as [path|]; [|by apply wp_ret, refuse].
  apply wp_bind, wp_socket; intros k1 *.
  - intros Hfd Hn E1. rewrite (proj2 (Z.ltb_ge _ _) Hfd). apply wp_ret. left.
    eexists (Addrinfo 0 0 0 []), _. split_and!; [done|done|done|exact E1|]. by cbn.
  - intros E1 He. cbn [Z.ltb Z.compare]. apply wp_bind, wp_errno, wp_ret, refuse; [cbn; lia|done].
Qed.

Lemma wp_unlink path k (Q : bool -> kern -> Prop) :
  (forall ok k', k_fds k' = k_fds k -> Q ok k') -> wp (unlink path) k Q.
Proof.
  intros HQ. unfold unlink. apply wp_bind, wp_gets. unfold id. destruct (k_files k !! path).
  - apply wp_bind, wp_answer; intros k1 E1 _ _; [apply wp_bind, wp_modify, wp_ret, HQ|apply wp_ret, HQ]; done.
  - apply wp_bind, wp_modify, wp_ret, HQ. done.
Qed.

Lemma uds_listen_ok path k :
  wp (_dpuds_listen_vopen zero_uds path) k (fun r k' => vopen_post (VUdsListen path) k (r.1, SkUds r.2) k').
Proof.
  unfold _dpuds_listen_vopen. destruct path as [path|]; [|by apply wp_ret, refuse].
  apply wp_bind, wp_socket; intros k1 *.
  2: { intros E1 He. cbn [Z.ltb Z.compare]. apply wp_bind, wp_errno, wp_ret, refuse; [cbn; lia|done]. }
  rename k1 into fd. intros Hfd Hn E1. rewrite (proj2 (Z.ltb_ge _ _) Hfd). apply wp_bind, wp_unlink. intros _ k2 E2.
  rewrite E1 in E2. match goal with |- wp _ _ ?Q0 => set (Q := Q0) end.
  assert (Herr : forall d k3 u, k_fds k3 = <[fd := d]> (k_fds k) -> 0 < k_errno k3 ->
    wp (_ ← close fd; e ← get_errno; mret (- e, u)) k3 Q).
  { intros d k3 u E3 He. apply wp_bind. eapply (wp_close_new _ _ _ k); [done..|]. intros ok k4 E4 He4.
    apply wp_bind, wp_errno, wp_ret, refuse; [cbn; specialize (He4 He); lia|done]. }
  apply wp_bind, wp_and_then. unfold bind, listen.
  eapply (wp_on_new _ _ _ _ k); [done| |]; intros k3 E3; [|intros He; by eapply Herr].
  eapply (wp_on_new _ _ _ _ k); [done| |]; intros k4 E4; [|intros He; by eapply Herr].
  cbn [negb]. apply wp_ret. left. eexists (Addrinfo 0 0 0 []), _. split_and!; [done|done|done|exact E4|]. by cbn.
Qed.

(** C9. The factories of sockets own one descriptor.  Whatever the system
    answers to each call and whatever addresses the host has, the [init] function
    of a TCP, UDP or domain socket type is defined, and either gives a descriptor
    that was not open, set up as [configured] says for its type (a TCP listener: its
    options set, bound to the address kept in the element's data, listening with the
    backlog; a UDP client: bound to any address and connected to its peer; a domain
    listener: listening, but bound to its family alone and not to the path in its
    data), with every other descriptor as before; or it leaves open exactly the
    descriptors that were open, those made for the addresses tried in vain being
    closed, and gives the value of [refused].  That value is not always an error:
    when the host does not resolve it is the opposite of the resolver's code, and
    for a UDP client it can be 22; where these are positive the caller takes them
    for a descriptor it does not have. *)
Theorem vopen_owns_one_descriptor (v : vopen) (k : kern) :
  (forall fd d, k_fds k !! fd = Some d -> 0 <= fd) ->
  (forall rps, resolve v = Some (inr rps) -> short rps) ->
  wp (run_vopen v) k (vopen_post v k).
Proof.
  intros Hk Hs. destruct v as [host port|host port n|host port|host port|path|path]; cbn [run_vopen]; apply wp_bind.
  - rewrite tcp_client_resolve. eapply (resolved_ok _ _ (fun g => match g with inl r => mret (- r, _) | inr rps => _ end) SkAddr);
      [done|done|done|intros; by apply tcp_client_loop_ok|done|done].
  - rewrite tcp_listen_resolve. eapply (resolved_ok _ _ (fun g => match g with inl r => mret (- r, _) | inr rps => _ end) SkAddr);
      [done|done|done|intros; by apply tcp_listen_loop_ok|done|done].
  - rewrite udp_server_resolve. eapply (resolved_ok _ _ (fun g => match g with inl r => mret (- r, _) | inr rps => _ end) SkAddr);
      [done|done|done|intros; by apply udp_server_loop_ok|done|done].
  - eapply wp_mono; [by apply udp_client_ok|]. intros r k' Hp. apply wp_ret. exact Hp.
  - eapply wp_mono; [by apply uds_client_ok|]. intros r k' Hp. apply wp_ret. exact Hp.
  - eapply wp_mono; [by apply uds_listen_ok|]. intros r k' Hp. apply wp_ret. exact Hp.
Qed.

End Facts.

(** ** Examples *)

(** A host with an IPv6 and an IPv4 address, and one that does not exist: glibc's
    [EAI_NONAME] is -2. *)
Definition ex_in4 (port : Z) : list Z := [AF_INET; 0; port / 256; port mod 256; 127; 0; 0; 1] ++ replicate 8 0.
Definition ex_in6 (port : Z) : list Z := [AF_INET6; 0; port / 256; port mod 256] ++ replicate 24 0.

#[export] Instance ex_netlib : NetLib := {|
  getaddrinfo host port h :=
    if bool_decide (host = chr "localhost")
    then inr (map (fun a => Addrinfo (bytes_family a) (h_socktype h) 0 a) [ex_in6 80; ex_in4 80])
    else inl (-2);
  getnameinfo a := Some (chr "127.0.0.1", chr "80");
  getsockname d := ztake 28 (default [] (f_bound d));
  getpeername d := f_peer d;
  so_error d := Some 0;
  stack_junk := [];
|}.

Definition ex_listen : vopen := VTcpListen (Some (chr "localhost")) 80 5.

Lemma ex_resolve : resolve ex_listen = Some (inr (map (fun a => Addrinfo (bytes_family a) SOCK_STREAM 0 a) [ex_in6 80; ex_in4 80])).
Proof. by vm_compute. Qed.

Lemma vopen_owns_one_descriptor_witness :
  wp (run_vopen ex_listen) (fresh_kern [0; 0; 0; 98]) (vopen_post ex_listen (fresh_kern [0; 0; 0; 98])).
Proof.
  apply vopen_owns_one_descriptor.
  - intros d. cbn. rewrite zlen_ztake. lia.
  - intros fd d Hd. discriminate Hd.
  - intros rps Hres. rewrite ex_resolve in Hres. injection Hres as <-. repeat constructor; by vm_compute.
Defined.

(** The bind to the first address fails ([EADDRINUSE]): its socket is closed, and
    the second address is used. *)
Example listen_second_address :
  match run_vopen ex_listen (fresh_kern [0; 0; 0; 98]) with
  | Some ((fd, _), k) => (fd, k_fds k !! fd ≫= f_bound, size (k_fds k)) = (3, Some (ex_in4 80), 1%nat)
  | None => False
  end.
Proof. by vm_compute. Qed.

(** A host that does not exist: the code of [getaddrinfo] is negative already, and
    its opposite is taken for a descriptor, here that of [stderr]. *)
Example unknown_host_gives_stderr :
  fst <$> (r ← run_vopen (VTcpClient (Some (chr "nohost")) 80); mret r.1) (fresh_kern []) = Some 2.
Proof. by vm_compute. Qed.

(** No socket can be made ([EMFILE]): the UDP client reports success with
    descriptor 22, because [errno] is set to [DPE_INVAL], which is negative. *)
Example udp_client_gives_22 :
  fst <$> (r ← run_vopen (VUdpClient (Some (chr "localhost")) 80); mret r.1) (fresh_kern [24; 24]) = Some 22.
Proof. by vm_compute. Qed.

(** The length of a domain socket's address is computed before its path is
    stored: only the family is bound, and the kernel chooses another name. *)
Example uds_bound_without_path :
  match run_vopen (VUdsListen (Some (chr "/run/app.sock"))) (fresh_kern []) with
  | Some ((fd, SkUds u), k) => (k_fds k !! fd ≫= f_bound, u_path u) = (Some [AF_UNIX; 0], chr "/run/app.sock")
  | _ => False
  end.
Proof. by vm_compute. Qed.
