(* ===== verification/Cmsg.v ===== *)
(** * Control messages of datagrams ([lib/dpapp/os/linux/dpudp_pri.c])

    The ancillary data of [recvmmsg] and [sendmmsg]: the address a datagram came to
    or leaves from, its ECN bits, and how many were dropped.  A control buffer is
    its bytes, and the [CMSG_] macros of the C library are their offsets. *)

From S2P Require Import Prelude Dpret Dpbuf Kern Sockets.

#[local] Set Default Proof Using "Type*".

Definition SO_RXQ_OVFL : Z := 40.
Definition IP_TOS : Z := 1.
Definition IP_PKTINFO : Z := 8.
Definition IP_ORIGDSTADDR : Z := 20.
Definition IPV6_PKTINFO : Z := 50.
Definition IPV6_TCLASS : Z := 67.
Definition IPTOS_ECN_MASK : Z := 3.
Definition CW_SENDADDR : Z := 1.
Definition CW_ECN : Z := 2.

(** ** Bytes and offsets *)

(** [n] bytes of [v], the lowest first. *)
Fixpoint le_bytes (n : nat) (v : Z) : list Z :=
  match n with O => [] | S n => v mod 256 :: le_bytes n (v / 256) end.
Fixpoint le_val (bs : list Z) : Z := match bs with [] => 0 | b :: bs => b + 256 * le_val bs end.

(** Reading and writing in the buffer; past it is undefined. *)
Definition at_bytes (ctl : list Z) (off n : Z) : option (list Z) :=
  if (0 <=? off) && (off + n <=? zlen ctl) then Some (slice off n ctl) else None.
Definition put_bytes (ctl : list Z) (off : Z) (bs : list Z) : option (list Z) :=
  if (0 <=? off) && (off + zlen bs <=? zlen ctl) then Some (splice off bs ctl) else None.

Definition CMSG_HDR : Z := 16.
Definition CMSG_ALIGN (n : Z) : Z := (n + 7) / 8 * 8.
Definition CMSG_LEN (n : Z) : Z := CMSG_HDR + n.
Definition CMSG_SPACE (n : Z) : Z := CMSG_HDR + CMSG_ALIGN n.
Definition CMSG_DATA (off : Z) : Z := off + CMSG_HDR.

Definition cmsg_len (ctl : list Z) (off : Z) : option Z := le_val <$> at_bytes ctl off 8.
Definition cmsg_level (ctl : list Z) (off : Z) : option Z := le_val <$> at_bytes ctl (off + 8) 4.
Definition cmsg_type (ctl : list Z) (off : Z) : option Z := le_val <$> at_bytes ctl (off + 12) 4.

(** [None] for [NULL]; the outer option is for what cannot be read. *)
Definition CMSG_FIRSTHDR (controllen : Z) : option Z := if controllen <? CMSG_HDR then None else Some 0.
Definition CMSG_NXTHDR (ctl : list Z) (controllen off : Z) : option (option Z) :=
  len ← cmsg_len ctl off;
  if len <? CMSG_HDR then Some None else
  let next := off + CMSG_ALIGN len in
  if controllen <? next + CMSG_HDR then Some None else
  len ← cmsg_len ctl next;
  if controllen <? next + CMSG_ALIGN len then Some None else Some (Some next).

Definition put_cmsg (ctl : list Z) (off level type : Z) (data : list Z) : option (list Z) :=
  put_bytes ctl off (le_bytes 8 (CMSG_LEN (zlen data)) ++ le_bytes 4 level ++ le_bytes 4 type ++ data).

(** ** Addresses *)

(** [sin_addr] and [sin6_addr]. *)
Definition sin_addr (sa : list Z) : option (list Z) := at_bytes sa 4 4.
Definition sin6_addr (sa : list Z) : option (list Z) := at_bytes sa 8 16.
(** [struct in_pktinfo] with the source address, and [struct in6_pktinfo]. *)
Definition in_pktinfo (spec_dst : list Z) : list Z := replicate 4 0 ++ spec_dst ++ replicate 4 0.
Definition in6_pktinfo (addr : list Z) : list Z := addr ++ replicate 4 0.

(** ** Receiving *)

(** The address, the number of datagrams dropped and the ECN bits. *)
Record received := Received { r_storage : list Z; r_dropped : Z; r_ecn : Z }.

Definition parse_one (ctl : list Z) (off : Z) (r : received) : option received :=
  level ← cmsg_level ctl off;
  type ← cmsg_type ctl off;
  if (level =? IPPROTO_IP) && (type =? IP_ORIGDSTADDR) then
    a ← at_bytes ctl (CMSG_DATA off) 16;
    s ← put_bytes (r_storage r) 0 a;
    Some (Received s (r_dropped r) (r_ecn r))
  else if (level =? IPPROTO_IPV6) && (type =? IPV6_PKTINFO) then
    a ← at_bytes ctl (CMSG_DATA off) 16;
    s ← put_bytes (r_storage r) 8 a;
    Some (Received s (r_dropped r) (r_ecn r))
  else if (level =? SOL_SOCKET) && (type =? SO_RXQ_OVFL) then
    n ← at_bytes ctl (CMSG_DATA off) 4;
    Some (Received (r_storage r) (le_val n) (r_ecn r))
  else if ((level =? IPPROTO_IP) && (type =? IP_TOS)) || ((level =? IPPROTO_IPV6) && (type =? IPV6_TCLASS)) then
    len ← cmsg_len ctl off;
    let n := to_u64 (len - CMSG_HDR) in
    bs ← at_bytes ctl (CMSG_DATA off) (if n <? 4 then n else 4);
    Some (Received (r_storage r) (r_dropped r) (Z.land (le_val bs) IPTOS_ECN_MASK))
  else Some r.

(** Every message takes at least a header. *)
Fixpoint parse_loop (fuel : nat) (ctl : list Z) (controllen : Z) (cmsg : option Z) (r : received) : option received :=
  match cmsg with
  | None => Some r
  | Some off =>
      match fuel with
      | O => None
      | S fuel =>
          r ← parse_one ctl off r;
          next ← CMSG_NXTHDR ctl controllen off;
          parse_loop fuel ctl controllen next r
      end
  end.
Definition _parse_contorl_msg (ctl : list Z) (controllen : Z) (r : received) : option received :=
  parse_loop (length ctl) ctl controllen (CMSG_FIRSTHDR controllen) r.

(** ** Sending *)

(** One message for each bit of [cw]; the buffer and its length. *)
Fixpoint setup_loop (fuel : nat) (ctl : list Z) (controllen cw ctl_len : Z) (cmsg : option Z)
    (local_sa dest_sa : list Z) (ecn : Z) : option (list Z * Z) :=
  match cmsg with
  | None => Some (ctl, ctl_len)
  | Some off =>
      if cw =? 0 then Some (ctl, ctl_len) else
      match fuel with
      | O => None
      | S fuel =>
          let v4 := bytes_family dest_sa =? AF_INET in
          if has_flag cw CW_SENDADDR then
            a ← (if v4 then sin_addr local_sa else sin6_addr local_sa);
            let data := if v4 then in_pktinfo a else in6_pktinfo a in
            ctl ← (if v4 then put_cmsg ctl off IPPROTO_IP IP_PKTINFO data else put_cmsg ctl off IPPROTO_IPV6 IPV6_PKTINFO data);
            next ← CMSG_NXTHDR ctl controllen off;
            setup_loop fuel ctl controllen (Z.ldiff cw CW_SENDADDR) (ctl_len + CMSG_SPACE (zlen data)) next local_sa dest_sa ecn
          else if has_flag cw CW_ECN then
            let data := le_bytes 4 ecn in
            ctl ← (if v4 then put_cmsg ctl off IPPROTO_IP IP_TOS data else put_cmsg ctl off IPPROTO_IPV6 IPV6_TCLASS data);
            next ← CMSG_NXTHDR ctl controllen off;
            setup_loop fuel ctl controllen (Z.ldiff cw CW_ECN) (ctl_len + CMSG_SPACE 4) next local_sa dest_sa ecn
          else Some (ctl, 0)
      end
  end.
Definition _setup_control_msg (ctl : list Z) (controllen cw : Z) (local_sa dest_sa : list Z) (ecn : Z) : option (list Z * Z) :=
  setup_loop 3 ctl controllen cw 0 (CMSG_FIRSTHDR controllen) local_sa dest_sa ecn.
