(* ===== verification/CmsgFacts.v ===== *)
(** * Control messages come back as they were sent

    What [_setup_control_msg] writes is read back by [_parse_contorl_msg]: the ECN
    bits always, the address over IPv6. *)

From S2P Require Import Prelude Dpret Dpbuf Kern Sockets Cmsg.

#[local] Set Default Proof Using "Type*".

Lemma list_16 {A} (l : list A) : length l = 16%nat ->
  exists a b c d e f g h i j k m n o p q, l = [a; b; c; d; e; f; g; h; i; j; k; m; n; o; p; q].
Proof. do 17 (destruct l as [|? l]; cbn; [try done|]); intros; try lia; by repeat eexists. Qed.

Definition ecn_ok (ecn : Z) : Prop := 0 <= ecn <= 3.
Lemma ecn_cases ecn : ecn_ok ecn -> ecn = 0 \/ ecn = 1 \/ ecn = 2 \/ ecn = 3.
Proof. unfold ecn_ok. lia. Qed.

(** The buffer that the setup starts from. *)
Definition CTL_SIZE : Z := 256.
Definition fresh_ctl : list Z := replicate (Z.to_nat CTL_SIZE) 0.

Lemma setup_v6 cw a ecn : length a = 16%nat -> ecn_ok ecn -> 0 <= cw <= 3 ->
  forall local dest st d e, sin6_addr local = Some a -> bytes_family dest <> AF_INET -> zlen st = 128 ->
  exists ctl n, _setup_control_msg fresh_ctl CTL_SIZE cw local dest ecn = Some (ctl, n) /\ 0 <= n <= CTL_SIZE /\
    _parse_contorl_msg ctl n (Received st d e) =
      Some (Received (if has_flag cw CW_SENDADDR then splice 8 a st else st) d (if has_flag cw CW_ECN then ecn else e)).
Proof.
  intros Ha Hecn Hcw local dest st d e Hl Hd Hst.
  assert (Hput : put_bytes st 8 a = Some (splice 8 a st)).
  { unfold put_bytes. unfold zlen in *. rewrite Ha, Hst. done. }
  apply Z.eqb_neq in Hd. unfold _setup_control_msg.
  assert (Hc : cw = 0 \/ cw = 1 \/ cw = 2 \/ cw = 3) by lia.
  destruct (list_16 a Ha) as (x0 & x1 & x2 & x3 & x4 & x5 & x6 & x7 & x8 & x9 & x10 & x11 & x12 & x13 & x14 & x15 & ->).
  apply ecn_cases in Hecn.
  unfold fresh_ctl, CTL_SIZE. cbn [setup_loop CMSG_FIRSTHDR]. cbv zeta. rewrite !Hd, !Hl.
  destruct Hc as [-> | [-> | [-> | ->]]]; [|destruct Hecn as [-> | [-> | [-> | ->]]] ..].
  all: do 2 eexists; split; [vm_compute; reflexivity|]; split; [by vm_compute|].
  all: cbv -[put_bytes splice] in *; rewrite ?Hput; reflexivity.
Qed.

Lemma setup_v4 cw a ecn : length a = 4%nat -> ecn_ok ecn -> 0 <= cw <= 3 ->
  forall local dest st d e, sin_addr local = Some a -> bytes_family dest = AF_INET ->
  exists ctl n, _setup_control_msg fresh_ctl CTL_SIZE cw local dest ecn = Some (ctl, n) /\ 0 <= n <= CTL_SIZE /\
    _parse_contorl_msg ctl n (Received st d e) = Some (Received st d (if has_flag cw CW_ECN then ecn else e)).
Proof.
  intros Ha Hecn Hcw local dest st d e Hl Hd. apply Z.eqb_eq in Hd. unfold _setup_control_msg.
  assert (Hc : cw = 0 \/ cw = 1 \/ cw = 2 \/ cw = 3) by lia.
  do 5 (destruct a as [|? a]; cbn in Ha; [try done|]); [|lia]. apply ecn_cases in Hecn.
  unfold fresh_ctl, CTL_SIZE. cbn [setup_loop CMSG_FIRSTHDR]. cbv zeta. rewrite !Hd, !Hl.
  destruct Hc as [-> | [-> | [-> | ->]]]; [|destruct Hecn as [-> | [-> | [-> | ->]]] ..].
  all: do 2 eexists; split; [vm_compute; reflexivity|]; split; [by vm_compute|]; reflexivity.
Qed.

Lemma at_bytes_Some (l : list Z) off n : 0 <= off -> 0 <= n -> off + n <= zlen l -> exists bs,
  at_bytes l off n = Some bs /\ bs = slice off n l /\ length bs = Z.to_nat n.
Proof.
  intros. unfold at_bytes. replace (0 <=? off) with true by lia. replace (off + n <=? zlen l) with true by lia.
  eexists. split; [done|]. split; [done|]. pose proof (zlen_slice off n l). unfold zlen in *. lia.
Qed.

(** C24. What is set up for sending is read back as it was asked for: the ECN bits in
    both families, and over IPv6 the address of the local end, at its place in the
    address of the receiver; over IPv4 no address, since the receiver looks for the
    message that the kernel sends instead.  The messages fit the buffer. *)
Theorem control_messages_roundtrip cw ecn local dest st d e :
  0 <= cw <= Z.lor CW_SENDADDR CW_ECN -> 0 <= ecn <= IPTOS_ECN_MASK -> 28 <= zlen local -> zlen st = 128 ->
  exists ctl n, _setup_control_msg (replicate 256 0) 256 cw local dest ecn = Some (ctl, n) /\ 0 <= n <= 256 /\
    _parse_contorl_msg ctl n (Received st d e) = Some (Received
      (if has_flag cw CW_SENDADDR && negb (bytes_family dest =? AF_INET) then splice 8 (slice 8 16 local) st else st)
      d (if has_flag cw CW_ECN then ecn else e)).
Proof.
  intros Hcw Hecn Hl Hst. destruct (Z.eqb_spec (bytes_family dest) AF_INET) as [Hd|Hd]; cbn [negb]; rewrite ?andb_false_r, ?andb_true_r.
  - destruct (at_bytes_Some local 4 4) as (a & Ha & _ & Hlen); [lia..|]. by apply (setup_v4 cw a ecn Hlen Hecn Hcw).
  - destruct (at_bytes_Some local 8 16) as (a & Ha & Hs & Hlen); [lia..|]. rewrite <- Hs.
    by apply (setup_v6 cw a ecn Hlen Hecn Hcw).
Qed.

Definition ex_local : list Z := [10; 0; 1; 187; 0; 0; 0; 0; 32; 1; 13; 184; 0; 0; 0; 0; 0; 0; 0; 0; 0; 0; 0; 1; 0; 0; 0; 0].

Lemma control_messages_roundtrip_witness :
  exists ctl n, _setup_control_msg (replicate 256 0) 256 3 ex_local [10; 0] 2 = Some (ctl, n) /\
    _parse_contorl_msg ctl n (Received (replicate 128 0) 0 0) =
      Some (Received (replicate 8 0 ++ [32; 1; 13; 184; 0; 0; 0; 0; 0; 0; 0; 0; 0; 0; 0; 1] ++ replicate 104 0) 0 2).
Proof.
  destruct (control_messages_roundtrip 3 2 ex_local [10; 0] (replicate 128 0) 0 0) as (ctl & n & Hs & _ & Hp);
    [by vm_compute|by vm_compute|by vm_compute|done|].
  exists ctl, n. split; [exact Hs|]. rewrite Hp. vm_compute. reflexivity.
Defined.
