(* ===== verification/CmsgBsd.v ===== *)
(** * Datagram options and control messages on the BSDs ([lib/dpapp/os/bsd/dpudp_pri.c])

    The twin of [Cmsg]: the same two functions with the names, the header and the
    alignment of FreeBSD and of macOS.  What a system's headers define is a record;
    the three names of path MTU discovery, which neither system defines, are
    variables.  What is set up is read back on both, [bsd_messages_roundtrip]. *)

From S2P Require Import Prelude Dpret Dpbuf Kern Sockets Cmsg CmsgFacts.

#[local] Set Default Proof Using "Type*".

(** [__APPLE__] and the names; [None] for a name that only one system has. *)
Record sysnames := SysNames {
  n_apple : bool;
  n_align : Z; (* of control messages *)
  n_AF_INET6 : Z;
  n_IP_TOS : Z;
  n_IP_RECVTOS : Z;
  n_IP_PKTINFO : option Z;
  n_IP_RECVDSTADDR : Z;
  n_IPV6_V6ONLY : Z;
  n_IPV6_RECVPKTINFO : Z;
  n_IPV6_PKTINFO : Z;
  n_IPV6_RECVTCLASS : Z;
  n_IPV6_TCLASS : Z;
}.

Definition freebsd : sysnames := SysNames false 8 28 3 68 None 7 27 36 46 57 61.
Definition darwin : sysnames := SysNames true 4 30 3 27 (Some 26) 7 27 61 46 35 36.

(** [IP_SENDSRCADDR] is [IP_RECVDSTADDR]. *)
Definition n_IP_SENDSRCADDR (s : sysnames) : Z := n_IP_RECVDSTADDR s.

(** The family is a byte, after the length of the address. *)
Definition bsd_family (bs : list Z) : Z := match bs with _ :: b :: _ => b | _ => 0 end.

Section Bsd.
Context (s : sysnames).

(** ** Headers of 12 bytes *)

Definition bsd_align (n : Z) : Z := (n + (n_align s - 1)) / n_align s * n_align s.
Definition BSD_HDR : Z := 12.
Definition BSD_CMSG_LEN (n : Z) : Z := bsd_align BSD_HDR + n.
Definition BSD_CMSG_SPACE (n : Z) : Z := bsd_align BSD_HDR + bsd_align n.
Definition BSD_CMSG_DATA (off : Z) : Z := off + bsd_align BSD_HDR.

Definition bsd_cmsg_len (ctl : list Z) (off : Z) : option Z := le_val <$> at_bytes ctl off 4.
Definition bsd_cmsg_level (ctl : list Z) (off : Z) : option Z := le_val <$> at_bytes ctl (off + 4) 4.
Definition bsd_cmsg_type (ctl : list Z) (off : Z) : option Z := le_val <$> at_bytes ctl (off + 8) 4.

Definition BSD_CMSG_FIRSTHDR (controllen : Z) : option Z := if controllen <? BSD_HDR then None else Some 0.
Definition BSD_CMSG_NXTHDR (ctl : list Z) (controllen off : Z) : option (option Z) :=
  len ← bsd_cmsg_len ctl off;
  let next := off + bsd_align len in
  if controllen <? next + bsd_align BSD_HDR then Some None else Some (Some next).

(** The header, then the data at its place: between the two nothing is written. *)
Definition bsd_put_cmsg (ctl : list Z) (off level type : Z) (data : list Z) : option (list Z) :=
  ctl ← put_bytes ctl off (le_bytes 4 (BSD_CMSG_LEN (zlen data)) ++ le_bytes 4 level ++ le_bytes 4 type);
  put_bytes ctl (BSD_CMSG_DATA off) data.

(** ** Receiving *)

(** Where the address of a datagram is: the message and the offset in its data. *)
Definition dst_message : option Z * Z := if n_apple s then (n_IP_PKTINFO s, 8) else (Some (n_IP_RECVDSTADDR s), 0).

Definition bsd_parse_one (ctl : list Z) (off : Z) (r : received) : option received :=
  level ← bsd_cmsg_level ctl off;
  type ← bsd_cmsg_type ctl off;
  if (level =? IPPROTO_IP) && bool_decide (Some type = dst_message.1) then
    a ← at_bytes ctl (BSD_CMSG_DATA off + dst_message.2) 4;
    st ← put_bytes (r_storage r) 4 a;
    Some (Received st (r_dropped r) (r_ecn r))
  else if (level =? IPPROTO_IPV6) && (type =? n_IPV6_PKTINFO s) then
    a ← at_bytes ctl (BSD_CMSG_DATA off) 16;
    st ← put_bytes (r_storage r) 8 a;
    Some (Received st (r_dropped r) (r_ecn r))
  else if ((level =? IPPROTO_IP) && (type =? n_IP_TOS s)) || ((level =? IPPROTO_IPV6) && (type =? n_IPV6_TCLASS s)) then
    len ← bsd_cmsg_len ctl off;
    let n := to_u64 (len - BSD_HDR) in
    bs ← at_bytes ctl (BSD_CMSG_DATA off) (if n <? 4 then n else 4);
    Some (Received (r_storage r) (r_dropped r) (Z.land (le_val bs) IPTOS_ECN_MASK))
  else if negb (n_apple s) && (level =? IPPROTO_IP) && (type =? n_IP_RECVTOS s) then
    tos ← at_bytes ctl (BSD_CMSG_DATA off) 1;
    Some (Received (r_storage r) (r_dropped r) (Z.land (le_val tos) IPTOS_ECN_MASK))
  else Some r.

(** A message whose length is 0 is met again and again: there is no result then. *)
Fixpoint bsd_parse_loop (fuel : nat) (ctl : list Z) (controllen : Z) (cmsg : option Z) (r : received) : option received :=
  match cmsg with
  | None => Some r
  | Some off =>
      match fuel with
      | O => None
      | S fuel =>
          r ← bsd_parse_one ctl off r;
          next ← BSD_CMSG_NXTHDR ctl controllen off;
          bsd_parse_loop fuel ctl controllen next r
      end
  end.
Definition _parse_contorl_msg (ctl : list Z) (controllen : Z) (r : received) : option received :=
  bsd_parse_loop (length ctl) ctl controllen (BSD_CMSG_FIRSTHDR controllen) r.

(** ** Sending *)

Definition bsd_addr_message (v4 : bool) (local_sa : list Z) : option (Z * Z * list Z) :=
  if v4 then
    a ← sin_addr local_sa;
    if n_apple s then t ← n_IP_PKTINFO s; Some (IPPROTO_IP, t, in_pktinfo a)
    else Some (IPPROTO_IP, n_IP_SENDSRCADDR s, a)
  else
    a ← sin6_addr local_sa;
    Some (IPPROTO_IPV6, n_IPV6_PKTINFO s, in6_pktinfo a).

(** FreeBSD takes the type of service as a byte. *)
Definition bsd_ecn_message (v4 : bool) (ecn : Z) : Z * Z * list Z :=
  if v4 then (IPPROTO_IP, n_IP_TOS s, le_bytes (if n_apple s then 4 else 1) ecn)
  else (IPPROTO_IPV6, n_IPV6_TCLASS s, le_bytes 4 ecn).

Fixpoint bsd_setup_loop (fuel : nat) (ctl : list Z) (controllen cw ctl_len : Z) (cmsg : option Z)
    (local_sa dest_sa : list Z) (ecn : Z) : option (list Z * Z) :=
  match cmsg with
  | None => Some (ctl, ctl_len)
  | Some off =>
      if cw =? 0 then Some (ctl, ctl_len) else
      match fuel with
      | O => None
      | S fuel =>
          let v4 := bsd_family dest_sa =? AF_INET in
          let message (m : Z * Z * list Z) (bit : Z) :=
            let '(level, type, data) := m in
            ctl ← bsd_put_cmsg ctl off level type data;
            next ← BSD_CMSG_NXTHDR ctl controllen off;
            bsd_setup_loop fuel ctl controllen (Z.ldiff cw bit) (ctl_len + BSD_CMSG_SPACE (zlen data)) next local_sa dest_sa ecn in
          if has_flag cw CW_SENDADDR then m ← bsd_addr_message v4 local_sa; message m CW_SENDADDR
          else if has_flag cw CW_ECN then message (bsd_ecn_message v4 ecn) CW_ECN
          else Some (ctl, 0)
      end
  end.
Definition _setup_control_msg (ctl : list Z) (controllen cw : Z) (local_sa dest_sa : list Z) (ecn : Z) : option (list Z * Z) :=
  bsd_setup_loop 3 ctl controllen cw 0 (BSD_CMSG_FIRSTHDR controllen) local_sa dest_sa ecn.

(** ** Socket options *)

Section Options.
Context `{FdAlloc, NetLib}.
Context (IP_MTU_DISCOVER IPV6_MTU_DISCOVER PMTUDISC_PROBE : Z).

(** [flag1]: macOS has no [IP_RECVORIGDSTADDR]. *)
Definition bsd_flag1 : Z := if n_apple s then default 0 (n_IP_PKTINFO s) else n_IP_RECVDSTADDR s.

Definition dpqic_server_setopt (fd : Z) (usvr : dpsockaddr) : K Z :=
  if n_AF_INET6 s =? bsd_family (sa_addr usvr) then
    setsockopts fd [(IPPROTO_IPV6, n_IPV6_V6ONLY s, 1); (IPPROTO_IPV6, n_IPV6_RECVPKTINFO s, 1);
                    (IPPROTO_IPV6, n_IPV6_RECVTCLASS s, 1); (IPPROTO_IPV6, n_IPV6_TCLASS s, 1);
                    (IPPROTO_IPV6, IPV6_MTU_DISCOVER, PMTUDISC_PROBE)]
  else
    setsockopts fd ((if bsd_flag1 =? 0 then [] else [(IPPROTO_IP, bsd_flag1, 1)]) ++
                    [(IPPROTO_IP, n_IP_RECVTOS s, 1); (IPPROTO_IP, n_IP_TOS s, 1); (IPPROTO_IP, IP_MTU_DISCOVER, 1)]).

Definition dpqic_client_setopt (fd : Z) (ucet : dpudp_client) : K Z :=
  if n_AF_INET6 s =? bsd_family (sa_addr (uc_peer ucet)) then
    setsockopts fd [(IPPROTO_IPV6, n_IPV6_RECVTCLASS s, 1); (IPPROTO_IPV6, n_IPV6_TCLASS s, 1);
                    (IPPROTO_IPV6, IPV6_MTU_DISCOVER, PMTUDISC_PROBE)]
  else
    setsockopts fd [(IPPROTO_IP, n_IP_RECVTOS s, 1); (IPPROTO_IP, n_IP_TOS s, 1); (IPPROTO_IP, IP_MTU_DISCOVER, 1)].

End Options.
End Bsd.

(** ** What is set up is read back *)

(** The address that the receiver stores, and where. *)
Definition stored_addr (s : sysnames) (v4 : bool) (local : list Z) : Z * list Z :=
  if v4 then (4, if n_apple s then replicate 4 0 else slice 4 4 local) else (8, slice 8 16 local).

Lemma list_4 {A} (l : list A) : length l = 4%nat -> exists a b c d, l = [a; b; c; d].
Proof. do 5 (destruct l as [|? l]; cbn; [try done|]); intros; try lia; by repeat eexists. Qed.

Lemma put_storage st off bs : zlen st = 128 -> 0 <= off -> off + zlen bs <= 128 ->
  put_bytes st off bs = Some (splice off bs st).
Proof. intros Hst H1 H2. unfold put_bytes. rewrite Hst. by replace (0 <=? off) with true by lia; replace (off + zlen bs <=? 128) with true by lia. Qed.

(** One case of the buffer: the setup is evaluated, then the reading of it. *)
Ltac messages Hput :=
  do 2 eexists; split; [vm_compute; reflexivity|]; split; [by vm_compute|];
  cbv -[put_bytes splice] in *; rewrite ?Hput; reflexivity.

Lemma bsd_setup_v6 s cw a ecn : s = freebsd \/ s = darwin -> length a = 16%nat -> ecn_ok ecn -> 0 <= cw <= 3 ->
  forall local dest st d e, sin6_addr local = Some a -> bsd_family dest <> AF_INET -> zlen st = 128 ->
  exists ctl n, _setup_control_msg s fresh_ctl CTL_SIZE cw local dest ecn = Some (ctl, n) /\ 0 <= n <= CTL_SIZE /\
    _parse_contorl_msg s ctl n (Received st d e) =
      Some (Received (if has_flag cw CW_SENDADDR then splice 8 a st else st) d (if has_flag cw CW_ECN then ecn else e)).
Proof.
  intros Hs Ha Hecn Hcw local dest st d e Hl Hd Hst.
  assert (Hput : put_bytes st 8 a = Some (splice 8 a st)) by (apply put_storage; [done|lia|unfold zlen; lia]).
  apply Z.eqb_neq in Hd. assert (Hc : cw = 0 \/ cw = 1 \/ cw = 2 \/ cw = 3) by lia.
  destruct (list_16 a Ha) as (x0 & x1 & x2 & x3 & x4 & x5 & x6 & x7 & x8 & x9 & x10 & x11 & x12 & x13 & x14 & x15 & ->).
  apply ecn_cases in Hecn. unfold _setup_control_msg, fresh_ctl, CTL_SIZE. cbn [bsd_setup_loop BSD_CMSG_FIRSTHDR].
  cbv zeta. unfold bsd_addr_message. rewrite !Hd, !Hl.
  destruct Hs as [-> | ->], Hc as [-> | [-> | [-> | ->]]]; try destruct Hecn as [-> | [-> | [-> | ->]]]; messages Hput.
Qed.

Lemma bsd_setup_v4 s cw a ecn : s = freebsd \/ s = darwin -> length a = 4%nat -> ecn_ok ecn -> 0 <= cw <= 3 ->
  forall local dest st d e, sin_addr local = Some a -> bsd_family dest = AF_INET -> zlen st = 128 ->
  exists ctl n, _setup_control_msg s fresh_ctl CTL_SIZE cw local dest ecn = Some (ctl, n) /\ 0 <= n <= CTL_SIZE /\
    _parse_contorl_msg s ctl n (Received st d e) =
      Some (Received (if has_flag cw CW_SENDADDR then splice 4 (if n_apple s then replicate 4 0 else a) st else st)
        d (if has_flag cw CW_ECN then ecn else e)).
Proof.
  intros Hs Ha Hecn Hcw local dest st d e Hl Hd Hst.
  set (a' := if n_apple s then replicate 4 0 else a).
  assert (Hput : put_bytes st 4 a' = Some (splice 4 a' st)).
  { apply put_storage; [done|lia|]. unfold zlen, a'. destruct (n_apple s); cbn; lia. }
  subst a'. apply Z.eqb_eq in Hd. assert (Hc : cw = 0 \/ cw = 1 \/ cw = 2 \/ cw = 3) by lia.
  destruct (list_4 a Ha) as (x0 & x1 & x2 & x3 & ->).
  apply ecn_cases in Hecn. unfold _setup_control_msg, fresh_ctl, CTL_SIZE. cbn [bsd_setup_loop BSD_CMSG_FIRSTHDR].
  cbv zeta. unfold bsd_addr_message. rewrite !Hd, !Hl.
  destruct Hs as [-> | ->], Hc as [-> | [-> | [-> | ->]]]; try destruct Hecn as [-> | [-> | [-> | ->]]]; messages Hput.
Qed.

(** What is set up for sending is read back on both systems: the ECN bits, the IPv6
    address, and on FreeBSD the IPv4 address too, whose message is the one the kernel
    sends.  On macOS the address to send from is not the one that is read: a receiver
    of the message itself stores zeros. *)
Theorem bsd_messages_roundtrip s cw ecn local dest st d e :
  s = freebsd \/ s = darwin ->
  0 <= cw <= Z.lor CW_SENDADDR CW_ECN -> 0 <= ecn <= IPTOS_ECN_MASK -> 28 <= zlen local -> zlen st = 128 ->
  let (off, addr) := stored_addr s (bsd_family dest =? AF_INET) local in
  exists ctl n, _setup_control_msg s (replicate 256 0) 256 cw local dest ecn = Some (ctl, n) /\ 0 <= n <= 256 /\
    _parse_contorl_msg s ctl n (Received st d e) = Some (Received
      (if has_flag cw CW_SENDADDR then splice off addr st else st) d (if has_flag cw CW_ECN then ecn else e)).
Proof.
  intros Hs Hcw Hecn Hl Hst. unfold stored_addr.
  destruct (Z.eqb_spec (bsd_family dest) AF_INET) as [Hd|Hd].
  - destruct (at_bytes_Some local 4 4) as (a & Ha & Hv & Hlen); [lia..|]. rewrite <- Hv.
    by apply (bsd_setup_v4 s cw a ecn Hs Hlen Hecn Hcw).
  - destruct (at_bytes_Some local 8 16) as (a & Ha & Hv & Hlen); [lia..|]. rewrite <- Hv.
    by apply (bsd_setup_v6 s cw a ecn Hs Hlen Hecn Hcw).
Qed.

Definition ex_local4 : list Z := [16; 2; 1; 187; 192; 0; 2; 7] ++ replicate 20 0.

Lemma bsd_messages_roundtrip_witness :
  exists ctl n, _setup_control_msg freebsd (replicate 256 0) 256 3 ex_local4 [16; 2] 2 = Some (ctl, n) /\
    _parse_contorl_msg freebsd ctl n (Received (replicate 128 0) 0 0) =
      Some (Received (replicate 4 0 ++ [192; 0; 2; 7] ++ replicate 120 0) 0 2).
Proof.
  destruct (bsd_messages_roundtrip freebsd 3 2 ex_local4 [16; 2] (replicate 128 0) 0 0) as (ctl & n & Hs & _ & Hp);
    [by left|by vm_compute|by vm_compute|by vm_compute|done|].
  exists ctl, n. split; [exact Hs|]. rewrite Hp. vm_compute. reflexivity.
Defined.

(** The type of service as the kernels report it, one byte in an [IP_RECVTOS] message:
    read on FreeBSD only. *)
Definition tos_ctl (s : sysnames) : list Z :=
  default [] (bsd_put_cmsg s (replicate 32 0) 0 IPPROTO_IP (n_IP_RECVTOS s) [3]).
Example recvtos_read_on_freebsd :
  r_ecn <$> _parse_contorl_msg freebsd (tos_ctl freebsd) 20 (Received [] 0 0) = Some 3.
Proof. vm_compute. reflexivity. Qed.
Example recvtos_ignored_on_darwin :
  r_ecn <$> _parse_contorl_msg darwin (tos_ctl darwin) 16 (Received [] 0 0) = Some 0.
Proof. vm_compute. reflexivity. Qed.
