(* ===== verification/Devices.v ===== *)
(** * Other descriptor factories ([lib/dpapp/os/dppip.c], [dpspd.c], [linux/dpsig.c], [linux/dpfsm.c])

    Named pipes, serial lines, signals and file system events. *)

From S2P Require Import Prelude Chars Dpret Ele Kern.

#[local] Set Default Proof Using "Type*".

(** What a serial line starts with, and what it makes of the settings asked for. *)
Class TtyDev := {
  tty_init : chars -> termios;
  tty_apply : termios -> termios -> termios;
}.

Definition ENOTTY : Z := 25.
Definition O_RDONLY : Z := 0.
Definition O_WRONLY : Z := 1.
Definition O_RDWR_NOCTTY : Z := 258.

Section Devices.
Context `{FdAlloc, TtyDev}.

(** ** Named pipes *)

Record dppip_udata := Pip { p_path : option chars; unlink_on_del : Z }.
Definition zero_pip : dppip_udata := Pip None 0.

Definition strdup (s : chars) : K (option chars) := ok ← answer; mret (if ok : bool then Some s else None).

Definition _dppip_vopen (udata : option dppip_udata) (fifo_path : option chars) (ev unlink_ : Z)
  : K (Z * option dppip_udata) :=
  match fifo_path with
  | None => mret (DPE_INVAL, udata)
  | Some path =>
      st ← stat path;
      e ← get_errno;
      bad ← (match st with
             | None =>
                 if e =? ENOENT then
                   ok ← mkfifo path;
                   e ← get_errno;
                   mret (if negb ok && negb (e =? EEXIST) then Some (- e) else None)
                 else mret (Some (- e))
             | Some m => mret (if S_ISFIFO m then None else Some DPE_INVAL)
             end);
      match bad with
      | Some r => mret (r, udata)
      | None =>
          match (if ev =? DPEVT_IN then Some O_RDONLY else if ev =? DPEVT_OUT then Some O_WRONLY else None) with
          | None => mret (DPE_INVAL, udata)
          | Some open_mode =>
              fd ← open path (FPath path open_mode);
              if fd <? 0 then e ← get_errno; mret (- e, udata) else
              match udata with
              | None => mret (fd, udata)
              | Some pip =>
                  p ← strdup path;
                  match p with
                  | None => _ ← close fd; mret (- ENOMEM, Some (Pip None (unlink_on_del pip)))
                  | Some p => mret (fd, Some (Pip (Some p) (if unlink_ =? 0 then 0 else 1)))
                  end
              end
          end
      end
  end.

Definition _dppip_fini (udata : option dppip_udata) : K (option dppip_udata) :=
  match udata with
  | None => mret None
  | Some pip =>
      match p_path pip with
      | None => mret (Some pip)
      | Some path =>
          (if negb (unlink_on_del pip =? 0) then
             st ← stat path; (* lstat *)
             match st with
             | Some m => if S_ISFIFO m then _ ← unlink path; mret tt else mret tt
             | None => mret tt
             end
           else mret tt);;
          mret (Some (Pip None (unlink_on_del pip)))
      end
  end.

Definition _dppip_copy (dst src : option dppip_udata) : K (Z * option dppip_udata) :=
  match dst with
  | None => mret (DPE_INVAL, None)
  | Some _ =>
      match src ≫= p_path with
      | Some path =>
          p ← strdup path;
          mret (match p with Some p => (DPE_OK, Some (Pip (Some p) 0)) | None => (DPE_NOMEM, Some (Pip None 0)) end)
      | None => mret (DPE_OK, Some (Pip None 0))
      end
  end.

(** [is_pip]: the element's type is [dppip_type]. *)
Definition dppip_path (is_pip : bool) (pip : dppip_udata) : option chars := if is_pip then p_path pip else None.

(** ** Signals *)

Definition valid_signo (n : Z) : bool := (1 <=? n) && (n <=? 64).

Definition signalfd_new (mask : gset Z) : K Z :=
  ok ← answer; if ok : bool then open_new (FSignal mask) else mret (-1).

Definition dpsig_vopen : K (Z * gset Z) := fd ← signalfd_new ∅; mret (fd, ∅).
Definition dpsig_copy (src : gset Z) : Z * gset Z := (DPE_OK, src).

(** [sigaddset] or [sigdelset], [signalfd], [sigprocmask]; the mask of the element
    stays changed when a later call fails. *)
Definition sig_change (fd : Z) (mask : gset Z) (signo : Z) (mask' : gset Z) (block : gset Z -> gset Z) : K (Z * gset Z) :=
  if negb (valid_signo signo) then modify (put_errno EINVAL);; mret (- EINVAL, mask) else
  ok ← fd_call fd (with_kind (FSignal mask'));
  if negb ok then e ← get_errno; mret (- e, mask') else
  ok ← answer;
  if negb ok then e ← get_errno; mret (- e, mask') else
  k ← gets id;
  modify (put_sigmask (block (k_sigmask k)));;
  mret (DPE_OK, mask').

(** [SIG_BLOCK] adds to the signals blocked, [SIG_SETMASK] replaces them. *)
Definition dpsig_addno (fd : Z) (mask : gset Z) (signo : Z) : K (Z * gset Z) :=
  sig_change fd mask signo ({[ signo ]} ∪ mask) (fun b => b ∪ ({[ signo ]} ∪ mask)).
Definition dpsig_delno (fd : Z) (mask : gset Z) (signo : Z) : K (Z * gset Z) :=
  sig_change fd mask signo (mask ∖ {[ signo ]}) (fun b => mask ∖ {[ signo ]}).
Definition dpsig_hasno (mask : gset Z) (signo : Z) : bool := valid_signo signo && bool_decide (signo ∈ mask).

(** ** File system events *)

Definition dpfsm_vopen : K Z := ok ← answer; if ok : bool then open_new (FInotify []) else mret (-1).

(** A watch is named by its position in the list. *)
Definition dpfsm_addev (fd : Z) (path : chars) (mask : Z) : K Z :=
  k ← gets id;
  match k_fds k !! fd ≫= (fun d => match f_kind d with FInotify l => Some l | _ => None end) with
  | None => mret (- EBADF)
  | Some l =>
      ok ← fd_call fd (with_kind (FInotify (l ++ [(path, mask)])));
      if ok : bool then mret (zlen l + 1) else e ← get_errno; mret (- e)
  end.

(** A watch taken off keeps its number: it is left without events. *)
Definition dpfsm_delev (fd wd : Z) : K Z :=
  k ← gets id;
  match k_fds k !! fd ≫= (fun d => match f_kind d with FInotify l => Some l | _ => None end) with
  | None => mret (- EBADF)
  | Some l =>
      if (1 <=? wd) && (wd <=? zlen l) then
        ok ← fd_call fd (with_kind (FInotify (alter (fun w : chars * Z => (w.1, 0)) (Z.to_nat (wd - 1)) l)));
        if ok : bool then mret DPE_OK else e ← get_errno; mret (- e)
      else mret (- EINVAL)
  end.

(** ** Serial lines *)

Record dpspd_udata := Spd { tio : termios; has_tio : Z; device : chars }.

Definition bauds : list (Z * Z) :=
  [(0, 0); (50, 1); (75, 2); (110, 3); (134, 4); (150, 5); (200, 6); (300, 7); (600, 8); (1200, 9); (1800, 10);
   (2400, 11); (4800, 12); (9600, 13); (19200, 14); (38400, 15); (57600, 4097); (115200, 4098); (230400, 4099)].

Definition _dpspd_baud_to_flag (baud : Z) : Z :=
  match list_find (fun p : Z * Z => p.1 = baud) bauds with Some (_, p) => p.2 | None => 0 end.
Definition _dpspd_flag_to_baud (sp : Z) : Z :=
  match list_find (fun p : Z * Z => p.2 = sp) bauds with Some (_, p) => p.1 | None => -1 end.

Definition parity_N : Z := 78.
Definition parity_E : Z := 69.
Definition parity_O : Z := 79.

Record line := Line { l_baud : Z; l_parity : Z; l_databits : Z; l_stopbits : Z }.

Definition _dpspd_apply_defaults (l : line) : line :=
  Line (if l_baud l <=? 0 then 115200 else l_baud l)
       (if bool_decide (l_parity l <> parity_N /\ l_parity l <> parity_E /\ l_parity l <> parity_O) then parity_N else l_parity l)
       (if (l_databits l <? 5) || (8 <? l_databits l) then 8 else l_databits l)
       (if negb (l_stopbits l =? 1) && negb (l_stopbits l =? 2) then 1 else l_stopbits l).

Definition CSIZE : Z := 48.
Definition CS5 : Z := 0.
Definition CS6 : Z := 16.
Definition CS7 : Z := 32.
Definition CS8 : Z := 48.
Definition CSTOPB : Z := 64.
Definition CREAD : Z := 128.
Definition PARENB : Z := 256.
Definition PARODD : Z := 512.
Definition CLOCAL : Z := 2048.
Definition INPCK : Z := 16.
Definition IXFLOW : Z := 7168. (* IXON | IXOFF | IXANY *)
Definition OPOST : Z := 1.
Definition LCOOKED : Z := 27. (* ICANON | ECHO | ECHOE | ISIG *)

Definition cs_bits (databits : Z) : Z :=
  if databits =? 5 then CS5 else if databits =? 6 then CS6 else if databits =? 7 then CS7 else CS8.

Definition set_cflag (l : line) (c : Z) : Z :=
  let c := Z.lor c (Z.lor CLOCAL CREAD) in
  let c := Z.lor (clear_bits c CSIZE) (cs_bits (l_databits l)) in
  let c := if l_parity l =? parity_E then clear_bits (Z.lor c PARENB) PARODD
           else if l_parity l =? parity_O then Z.lor c (Z.lor PARENB PARODD)
           else clear_bits c PARENB in
  if l_stopbits l =? 2 then Z.lor c CSTOPB else clear_bits c CSTOPB.
Definition set_iflag (l : line) (i : Z) : Z :=
  let i := if (l_parity l =? parity_E) || (l_parity l =? parity_O) then Z.lor i INPCK else clear_bits i INPCK in
  clear_bits i IXFLOW.

(** The settings [_dpspd_configure_fd] asks for. *)
Definition line_settings (l : line) (sp : Z) (t : termios) : termios :=
  Termios (set_iflag l (c_iflag t)) (clear_bits (c_oflag t) OPOST) (set_cflag l (c_cflag t))
          (clear_bits (c_lflag t) LCOOKED) 0 0 sp sp.

Definition tcgetattr (fd : Z) : K (option termios) :=
  k ← gets id;
  match k_fds k !! fd with
  | None => modify (put_errno EBADF);; mret None
  | Some d =>
      match f_kind d with
      | FTty _ _ t => ok ← answer; mret (if ok : bool then Some t else None)
      | _ => modify (put_errno ENOTTY);; mret None
      end
  end.
Definition tcsetattr (fd : Z) (t : termios) : K bool :=
  fd_call fd (fun d => with_kind (match f_kind d with FTty p m old => FTty p m (tty_apply old t) | k => k end) d).

Definition _dpspd_configure_fd (fd : Z) (l : line) : K Z :=
  t ← tcgetattr fd;
  match t with
  | None => e ← get_errno; mret (- e)
  | Some t =>
      let sp := _dpspd_baud_to_flag (l_baud l) in
      if sp =? 0 then mret DPE_INVAL else
      ok ← tcsetattr fd (line_settings l sp t);
      if negb ok then e ← get_errno; mret (- e) else mret DPE_OK
  end.

Definition _dpspd_vopen (udata : dpspd_udata) (spdfile : option chars) (baud databits stopbits parity_ch : Z)
  : K (Z * dpspd_udata) :=
  let l := _dpspd_apply_defaults (Line baud ((parity_ch + 128) mod 256 - 128) databits stopbits) in
  match spdfile with
  | None => mret (DPE_INVAL, udata)
  | Some path =>
      fd ← open path (FTty path O_RDWR_NOCTTY (tty_init path));
      if fd <? 0 then e ← get_errno; mret (- e, udata) else
      let spd := Spd (tio udata) 0 (ztake 127 path) in
      rc ← _dpspd_configure_fd fd l;
      if rc <? 0 then _ ← close fd; mret (rc, spd) else
      t ← tcgetattr fd;
      mret (fd, match t with Some t => Spd t 1 (device spd) | None => spd end)
  end.

Definition _dpspd_copy (src : dpspd_udata) : Z * dpspd_udata := (DPE_OK, src).

(** [is_spd]: the element's type is [dpspd_type]. *)
Definition dpspd_device (is_spd : bool) (spd : dpspd_udata) : option chars := if is_spd then Some (device spd) else None.

Definition _dpspd_ensure_tio (is_spd : bool) (fd : Z) (spd : dpspd_udata) : K (Z * dpspd_udata) :=
  if negb is_spd then mret (DPE_INVAL, spd) else
  if has_tio spd =? 0 then
    t ← tcgetattr fd;
    match t with
    | None => e ← get_errno; mret (- e, spd)
    | Some t => mret (DPE_OK, Spd t 1 (device spd))
    end
  else mret (DPE_OK, spd).

(** The four readers: [f] of the settings, [err] of an error. *)
Definition read_tio (is_spd : bool) (fd : Z) (spd : dpspd_udata) (err f : Z -> Z) (sel : termios -> Z) : K (Z * dpspd_udata) :=
  r ← _dpspd_ensure_tio is_spd fd spd;
  let '(rc, spd) := r in
  if rc <? 0 then mret (err rc, spd) else mret (f (sel (tio spd)), spd).

Definition dpspd_baud (is_spd : bool) (fd : Z) (spd : dpspd_udata) : K (Z * dpspd_udata) :=
  read_tio is_spd fd spd id _dpspd_flag_to_baud c_ispeed.
Definition cflag_databits (c : Z) : Z :=
  let b := Z.land c CSIZE in
  if b =? CS5 then 5 else if b =? CS6 then 6 else if b =? CS7 then 7 else 8.
Definition dpspd_databits (is_spd : bool) (fd : Z) (spd : dpspd_udata) : K (Z * dpspd_udata) :=
  read_tio is_spd fd spd id cflag_databits c_cflag.
Definition cflag_parity (c : Z) : Z :=
  if Z.land c PARENB =? 0 then parity_N else if Z.land c PARODD =? 0 then parity_E else parity_O.
Definition dpspd_parity (is_spd : bool) (fd : Z) (spd : dpspd_udata) : K (Z * dpspd_udata) :=
  read_tio is_spd fd spd (fun _ => 63) cflag_parity c_cflag.
Definition cflag_stopbits (c : Z) : Z := if Z.land c CSTOPB =? 0 then 1 else 2.
Definition dpspd_stopbits (is_spd : bool) (fd : Z) (spd : dpspd_udata) : K (Z * dpspd_udata) :=
  read_tio is_spd fd spd id cflag_stopbits c_cflag.

End Devices.

Definition dppip_type : dpele_type := EleType 18 DPELE_TYPE_EFD 16 DPAIO_TYPE_GFD (Z.lor DPEVT_IN DPEVT_OUT).
Definition dpspd_type : dpele_type := EleType 19 DPELE_TYPE_EFD 192 DPAIO_TYPE_GFD (Z.lor DPEVT_IN DPEVT_OUT).
Definition dpsig_type : dpele_type := EleType 20 DPELE_TYPE_EFD 128 DPAIO_TYPE_GFD DPEVT_IN.
Definition dpfsm_type : dpele_type := EleType 21 DPELE_TYPE_EFD 0 DPAIO_TYPE_GFD DPEVT_IN.
