(* ===== verification/DevFacts.v ===== *)
(** * Named pipes, serial lines, signals

    The remaining factories own one descriptor too; the settings of a serial line
    read back as asked for; the mask of a signal element is its descriptor's. *)

From S2P Require Import Prelude Chars Dpret Ele Kern Sockets SktFacts Devices.

#[local] Set Default Proof Using "Type*".

(** ** Bits of literals *)

Ltac lit_eval t := let v := eval vm_compute in t in change t with v.
(** One bit of a value built with [Z.lor] and [clear_bits] of literals. *)
Ltac bit_lits :=
  unfold clear_bits; repeat first [rewrite Z.lor_spec | rewrite Z.ldiff_spec];
  repeat match goal with |- context [Z.testbit (Zpos ?a) ?n] => lit_eval (Z.testbit (Zpos a) n) end;
  rewrite ?Z.bits_0, ?orb_true_r, ?orb_false_r, ?andb_false_r, ?andb_true_r.

Lemma land_bit c n : 0 <= n -> Z.land c (2 ^ n) = if Z.testbit c n then 2 ^ n else 0.
Proof.
  intros Hn. apply Z.bits_inj'. intros m Hm. rewrite Z.land_spec, Z.pow2_bits_eqb by done.
  destruct (Z.eqb_spec n m) as [->|Hne]; rewrite ?andb_true_r, ?andb_false_r.
  - destruct (Z.testbit c m); [by rewrite Z.pow2_bits_true|by rewrite Z.bits_0].
  - destruct (Z.testbit c n); [by rewrite Z.pow2_bits_false|by rewrite Z.bits_0].
Qed.

Lemma land_csize c : Z.land c CSIZE = (if Z.testbit c 4 then 16 else 0) + (if Z.testbit c 5 then 32 else 0).
Proof.
  replace CSIZE with (Z.lor (2 ^ 4) (2 ^ 5)) by done. rewrite Z.land_lor_distr_r, !land_bit by done.
  by destruct (Z.testbit c 4), (Z.testbit c 5).
Qed.

Definition line_ok (l : line) : Prop :=
  5 <= l_databits l <= 8 /\ (l_stopbits l = 1 \/ l_stopbits l = 2) /\
  (l_parity l = parity_N \/ l_parity l = parity_E \/ l_parity l = parity_O).

Lemma apply_defaults_ok l : line_ok (_dpspd_apply_defaults l) /\ 0 < l_baud (_dpspd_apply_defaults l).
Proof.
  unfold _dpspd_apply_defaults, line_ok. cbn. split_and!.
  - destruct (Z.ltb_spec (l_databits l) 5), (Z.ltb_spec 8 (l_databits l)); cbn; lia.
  - destruct (Z.ltb_spec (l_databits l) 5), (Z.ltb_spec 8 (l_databits l)); cbn; lia.
  - destruct (Z.eqb_spec (l_stopbits l) 1), (Z.eqb_spec (l_stopbits l) 2); cbn; lia.
  - case_bool_decide as Hp; [by left|]. destruct (decide (l_parity l = parity_N)); [by left|].
    destruct (decide (l_parity l = parity_E)); [by right; left|]. destruct (decide (l_parity l = parity_O)); [by right; right|].
    by destruct Hp.
  - destruct (Z.leb_spec (l_baud l) 0); lia.
Qed.

(** A line that is well-formed already is left alone. *)
Lemma apply_defaults_id l : line_ok l -> 0 < l_baud l -> _dpspd_apply_defaults l = l.
Proof.
  destruct l as [b p d s]. intros (Hd & Hs & Hp) Hb. unfold _dpspd_apply_defaults. cbn in *. f_equal.
  - destruct (Z.leb_spec b 0); lia.
  - case_bool_decide as H; [|done]. destruct H as (? & ? & ?). by destruct Hp as [|[|]].
  - destruct (Z.ltb_spec d 5), (Z.ltb_spec 8 d); cbn; lia.
  - destruct (Z.eqb_spec s 1), (Z.eqb_spec s 2); cbn; lia.
Qed.

(** The control word holds the line. *)
Lemma set_cflag_reads l c :
  line_ok l -> cflag_databits (set_cflag l c) = l_databits l /\ cflag_parity (set_cflag l c) = l_parity l /\
    cflag_stopbits (set_cflag l c) = l_stopbits l.
Proof.
  destruct l as [b p d s]. unfold line_ok, set_cflag. cbn [l_databits l_parity l_stopbits l_baud]. intros (Hd & Hs & Hp).
  assert (Hd' : d = 5 \/ d = 6 \/ d = 7 \/ d = 8) by lia. clear Hd.
  unfold cflag_databits, cflag_parity, cflag_stopbits. rewrite land_csize.
  change PARENB with (2 ^ 8). change PARODD with (2 ^ 9). change CSTOPB with (2 ^ 6). rewrite !land_bit by done.
  destruct Hd' as [-> | [-> | [-> | ->]]], Hs as [-> | ->], Hp as [-> | [-> | ->]];
    unfold cs_bits, parity_N, parity_E, parity_O, CLOCAL, CREAD, CSIZE, CS5, CS6, CS7, CS8; cbn [Z.eqb Pos.eqb];
    change (2 ^ 8) with 256; change (2 ^ 9) with 512; change (2 ^ 6) with 64; bit_lits; done.
Qed.

Lemma baud_flag_inv baud : _dpspd_baud_to_flag baud <> 0 -> _dpspd_flag_to_baud (_dpspd_baud_to_flag baud) = baud.
Proof.
  unfold _dpspd_baud_to_flag. destruct (list_find (fun p : Z * Z => p.1 = baud) bauds) as [[i p]|] eqn:Hf; [|done].
  apply list_find_Some in Hf as (Hi & <- & _). intros _. unfold bauds in Hi.
  do 19 (destruct i as [|i]; [injection Hi as <-; by vm_compute|cbn in Hi]). done.
Qed.

Section Facts.
Context `{FdAlloc, TtyDev}.

Definition tty_at (k : kern) (fd : Z) (t : termios) : Prop :=
  exists d p m, k_fds k !! fd = Some d /\ f_kind d = FTty p m t.

Lemma wp_tcgetattr fd t k (Q : option termios -> kern -> Prop) :
  tty_at k fd t ->
  (forall k', k_fds k' = k_fds k -> Q (Some t) k') -> (forall k', k_fds k' = k_fds k -> 0 < k_errno k' -> Q None k') ->
  wp (tcgetattr fd) k Q.
Proof.
  intros (d & p & m & Hd & Hk) Ht Hf. unfold tcgetattr. apply wp_bind, wp_gets. unfold id. rewrite Hd, Hk.
  apply wp_bind, wp_answer; intros k1 E1 _ He.
  - apply wp_ret. by apply Ht.
  - apply wp_ret. by apply Hf.
Qed.

Lemma wp_open path kind k (Q : Z -> kern -> Prop) :
  (forall fd k', 0 <= fd -> k_fds k !! fd = None -> k_fds k' = <[fd := new_kfd kind]> (k_fds k) -> Q fd k') ->
  (forall k', k_fds k' = k_fds k -> 0 < k_errno k' -> Q (-1) k') -> wp (open path kind) k Q.
Proof.
  intros Ht Hf. unfold open. apply wp_bind, wp_gets. unfold id. destruct (k_files k !! path).
  - apply wp_bind, wp_answer; intros k1 E1 _ He; [|by apply wp_ret, Hf].
    apply wp_open_new. intros fd k2 Hfd Hn E2 _. rewrite E1 in Hn, E2. by apply Ht.
  - apply wp_bind, wp_modify, wp_ret, Hf; done.
Qed.

(** The error of the next call, if it fails. *)
Definition next_error (k : kern) : option Z :=
  match k_answers k with e :: _ => if 0 <? e then Some e else None | [] => None end.

Lemma wp_answer_exact k (Q : bool -> kern -> Prop) :
  (next_error k = None -> forall k', k_fds k' = k_fds k -> Q true k') ->
  (forall e, next_error k = Some e -> 0 < e -> forall k', k_fds k' = k_fds k -> k_errno k' = e -> Q false k') ->
  wp answer k Q.
Proof.
  unfold wp, answer, next_error. intros Ht Hf. destruct (k_answers k) as [|e l]; [by apply Ht|].
  destruct (Z.ltb_spec 0 e); [by eapply Hf|by apply Ht].
Qed.

Lemma wp_answer_fine k (Q : bool -> kern -> Prop) : k_answers k = [] -> Q true k -> wp answer k Q.
Proof. unfold wp, answer. by intros ->. Qed.

(** What a reader gives of the settings [t]; with none stored it asks the system,
    and then gives [err] of the negated error when that fails. *)
Lemma read_tio_ok fd spd err f sel t k :
  tty_at k fd t -> (has_tio spd = 0 \/ tio spd = t) ->
  wp (read_tio true fd spd err f sel) k (fun r _ =>
    r.1 = match (if has_tio spd =? 0 then next_error k else None) with Some e => err (- e) | None => f (sel t) end).
Proof.
  intros (d & p & m & Hd & Hk) Hspd. unfold read_tio, _dpspd_ensure_tio. cbn [negb]. apply wp_bind.
  destruct (Z.eqb_spec (has_tio spd) 0) as [|Hz].
  - apply wp_bind. unfold tcgetattr. apply wp_bind, wp_gets. unfold id. rewrite Hd, Hk.
    apply wp_bind, wp_answer_exact; [intros -> k1 _|intros er -> He k1 _ Hk1]; apply wp_ret.
    + apply wp_ret. cbn. by apply wp_ret.
    + apply wp_bind, wp_errno, wp_ret. rewrite (proj2 (Z.ltb_lt _ _)) by lia. apply wp_ret. cbn. by rewrite Hk1.
  - apply wp_ret. cbn. apply wp_ret. cbn. by destruct Hspd as [|<-].
Qed.

(** The line asked for, after the defaults, and the one that settings stand for. *)
Definition asked (baud databits stopbits parity_ch : Z) : line :=
  _dpspd_apply_defaults (Line baud ((parity_ch + 128) mod 256 - 128) databits stopbits).
Definition line_of (t : termios) : line :=
  Line (_dpspd_flag_to_baud (c_ispeed t)) (cflag_parity (c_cflag t)) (cflag_databits (c_cflag t)) (cflag_stopbits (c_cflag t)).
(** The settings asked for, and what the device makes of them: [tcsetattr] succeeds
    when it takes any. *)
Definition wanted_of (path : chars) (l : line) : termios :=
  line_settings l (_dpspd_baud_to_flag (l_baud l)) (tty_init path).
Definition taken_of (path : chars) (l : line) : termios := tty_apply (tty_init path) (wanted_of path l).

(** The speeds that [termios] names, up to 230400. *)
Definition speeds : list Z :=
  [50; 75; 110; 134; 150; 200; 300; 600; 1200; 1800; 2400; 4800; 9600; 19200; 38400; 57600; 115200; 230400].

Lemma baud_known b : _dpspd_baud_to_flag b <> 0 <-> b ∈ speeds.
Proof.
  unfold _dpspd_baud_to_flag. split.
  - destruct (list_find (fun p : Z * Z => p.1 = b) bauds) as [[i p]|] eqn:Hf; [|done].
    apply list_find_Some in Hf as (Hi & <- & _). unfold bauds in Hi.
    do 19 (destruct i as [|i]; [injection Hi as <-; cbn; first [done|intros _; unfold speeds; set_solver]|cbn in Hi]). done.
  - unfold speeds. rewrite !elem_of_cons, elem_of_nil. intros Hb. repeat destruct Hb as [-> |Hb]; by vm_compute.
Qed.

(** The readers of a descriptor with the data [u], on a line [l]. *)
Definition reads (u : dpspd_udata) (k : kern) (m : K (Z * dpspd_udata)) (err : Z -> Z) (v : Z) : Prop :=
  wp m k (fun r _ => r.1 = match (if has_tio u =? 0 then next_error k else None) with Some e => err (- e) | None => v end).
Definition read_back (fd : Z) (u : dpspd_udata) (l : line) (k : kern) : Prop :=
  reads u k (dpspd_baud true fd u) id (l_baud l) /\ reads u k (dpspd_databits true fd u) id (l_databits l) /\
  reads u k (dpspd_parity true fd u) (fun _ => 63) (l_parity l) /\ reads u k (dpspd_stopbits true fd u) id (l_stopbits l).

Lemma read_back_ok fd u k t : tty_at k fd t -> has_tio u = 0 \/ tio u = t -> read_back fd u (line_of t) k.
Proof.
  intros Ht Hu. unfold read_back, reads, dpspd_baud, dpspd_databits, dpspd_parity, dpspd_stopbits.
  split_and!; by apply read_tio_ok.
Qed.

(** A device that takes the speed and the control word of a known speed holds the
    line. *)
Lemma line_of_wanted path l t :
  line_ok l -> l_baud l ∈ speeds -> c_ispeed t = c_ispeed (wanted_of path l) -> c_cflag t = c_cflag (wanted_of path l) ->
  line_of t = l.
Proof.
  intros Hl Hb%baud_known Hi Hc. unfold line_of. rewrite Hi, Hc. unfold wanted_of. cbn [c_ispeed c_cflag line_settings].
  destruct (set_cflag_reads l (c_cflag (tty_init path)) Hl) as (-> & -> & ->). rewrite baud_flag_inv by done. by destruct l.
Qed.

(** A request that is opened or refused. *)
Definition opened (path : chars) (l : line) (k : kern) (r : Z * dpspd_udata) (k' : kern) : Prop :=
  0 <= r.1 /\ k_fds k !! r.1 = None /\ delete r.1 (k_fds k') = k_fds k /\ l_baud l ∈ speeds /\
  read_back r.1 r.2 (line_of (taken_of path l)) k'.

Lemma vopen_safe u path baud databits stopbits parity_ch k :
  let l := asked baud databits stopbits parity_ch in
  wp (_dpspd_vopen u (Some path) baud databits stopbits parity_ch) k (fun r k' =>
    r.1 < 0 /\ k_fds k' = k_fds k \/ opened path l k r k').
Proof.
  intros l. unfold _dpspd_vopen. fold (asked baud databits stopbits parity_ch). fold l.
  match goal with |- wp _ _ ?Q0 => set (Q := Q0) end. apply wp_bind, wp_open.
  2: { intros k1 E1 He. cbn [Z.ltb Z.compare]. apply wp_bind, wp_errno, wp_ret. left. cbn. split; [lia|done]. }
  intros fd k1 Hfd Hn E1. rewrite (proj2 (Z.ltb_ge _ _) Hfd). apply wp_bind. unfold _dpspd_configure_fd.
  assert (Hclose : forall rc d kx ux, rc < 0 -> k_fds kx = <[fd := d]> (k_fds k) ->
    wp (if rc <? 0 then _ ← close fd; mret (rc, ux) else
        t ← tcgetattr fd; mret (fd, match t with Some t => Spd t 1 (device ux) | None => ux end)) kx Q).
  { intros rc d kx ux Hrc Ex. rewrite (proj2 (Z.ltb_lt _ _) Hrc).
    eapply (close_then _ _ _ k); [done..|]. intros k2 E2. apply wp_ret. by left. }
  assert (Htty : forall kx t, k_fds kx = <[fd := new_kfd (FTty path O_RDWR_NOCTTY t)]> (k_fds k) -> tty_at kx fd t).
  { intros kx t Ex. eexists _, _, _. rewrite Ex, lookup_insert_eq. done. }
  apply wp_bind. eapply wp_tcgetattr; [by apply Htty| |].
  2: { intros k2 E2 He. rewrite E1 in E2. apply wp_bind, wp_errno, wp_ret. eapply Hclose; [lia|done]. }
  intros k2 E2. rewrite E1 in E2. cbv zeta. destruct (Z.eqb_spec (_dpspd_baud_to_flag (l_baud l)) 0) as [|Hsp].
  { apply wp_ret. eapply Hclose; [done|done]. }
  apply wp_bind. unfold tcsetattr. eapply (wp_on_new _ _ _ _ k); [exact E2| |]; intros k3 E3.
  2: { intros He. cbn [negb]. apply wp_bind, wp_errno, wp_ret. eapply Hclose; [lia|done]. }
  cbn [negb]. apply wp_ret. cbn [Z.ltb Z.compare DPE_OK]. cbn in E3.
  change (tty_apply (tty_init path) (line_settings l (_dpspd_baud_to_flag (l_baud l)) (tty_init path))) with (taken_of path l) in E3.
  apply wp_bind. eapply (wp_tcgetattr _ (taken_of path l)); [by apply Htty| |]; intros k4 E4; [|intros _]; apply wp_ret; right;
    (split; [done|]); (split; [done|]); (split; [rewrite E4, E3; by apply delete_insert_id|]); (split; [by apply baud_known|]);
    (apply read_back_ok; [apply Htty; by rewrite E4|]); [by right|by left].
Qed.

(** Where no call fails, the device is there and the speed is known. *)
Lemma vopen_succeeds u path baud databits stopbits parity_ch k :
  l_baud (asked baud databits stopbits parity_ch) ∈ speeds -> k_answers k = [] -> is_Some (k_files k !! path) ->
  wp (_dpspd_vopen u (Some path) baud databits stopbits parity_ch) k (fun r _ => 0 <= r.1 /\ has_tio r.2 = 1).
Proof.
  intros Hb%baud_known Hans [m Hm]. unfold _dpspd_vopen. fold (asked baud databits stopbits parity_ch).
  set (l := asked baud databits stopbits parity_ch) in *. apply wp_bind. unfold open. apply wp_bind, wp_gets. unfold id.
  rewrite Hm. apply wp_bind, wp_answer_fine; [done|]. unfold open_new. apply wp_bind, wp_gets, wp_bind, wp_modify, wp_ret.
  unfold id. set (fd := new_fd (dom (k_fds k))). assert (Hfd : 0 <= fd) by apply new_fd_nonneg.
  rewrite (proj2 (Z.ltb_ge _ _) Hfd). apply wp_bind. unfold _dpspd_configure_fd. apply wp_bind. unfold tcgetattr.
  apply wp_bind, wp_gets. unfold id. cbn [k_fds put_fds]. rewrite lookup_insert_eq. cbn [f_kind new_kfd].
  apply wp_bind, wp_answer_fine; [done|]. apply wp_ret. cbv zeta. rewrite (proj2 (Z.eqb_neq _ _) Hb).
  apply wp_bind. unfold tcsetattr, fd_call. apply wp_bind, wp_gets. unfold id. cbn [k_fds put_fds].
  rewrite lookup_insert_eq. apply wp_bind, wp_answer_fine; [done|]. apply wp_bind, wp_modify, wp_ret. cbn [negb]. apply wp_ret.
  cbn [Z.ltb Z.compare DPE_OK]. apply wp_bind, wp_bind, wp_gets. unfold id. cbn [k_fds put_fds]. rewrite lookup_insert_eq.
  cbn [f_kind new_kfd with_kind]. apply wp_bind, wp_answer_fine; [done|]. by apply wp_ret, wp_ret.
Qed.

(** C35. A serial line reads back as the device holds it.  Whatever the system answers,
    opening one either fails and leaves the open descriptors as they were, or gives a
    fresh descriptor; an unknown speed is refused, and where no call fails and the
    device is there a known one is not.  The readers [dpspd_baud], [dpspd_databits],
    [dpspd_parity] and [dpspd_stopbits] then give what the device holds; one that has to
    ask the system again, because the settings could not be read when the line was
    opened, gives the negated error ('?' for the parity) when that fails.  A device
    that takes the speed and the control word it is asked for holds the line asked for,
    with the default values where they were out of range; one that takes only part of
    them, which [tcsetattr] reports as success, is opened all the same. *)
Theorem serial_line_roundtrip (u : dpspd_udata) (path : chars) (baud databits stopbits parity_ch : Z) (k : kern) :
  let l := asked baud databits stopbits parity_ch in
  let vopen := _dpspd_vopen u (Some path) baud databits stopbits parity_ch in
  wp vopen k (fun r k' => r.1 < 0 /\ k_fds k' = k_fds k \/ opened path l k r k') /\
  (l_baud l ∈ speeds -> k_answers k = [] -> is_Some (k_files k !! path) -> wp vopen k (fun r _ => 0 <= r.1 /\ has_tio r.2 = 1)) /\
  (l_baud l ∈ speeds -> c_ispeed (taken_of path l) = c_ispeed (wanted_of path l) ->
    c_cflag (taken_of path l) = c_cflag (wanted_of path l) -> line_of (taken_of path l) = l) /\
  (line_ok (Line baud ((parity_ch + 128) mod 256 - 128) databits stopbits) -> 0 < baud ->
    l = Line baud ((parity_ch + 128) mod 256 - 128) databits stopbits).
Proof.
  intros l vopen. split; [apply vopen_safe|]. split; [apply vopen_succeeds|]. split.
  - apply line_of_wanted. by destruct (apply_defaults_ok (Line baud ((parity_ch + 128) mod 256 - 128) databits stopbits)).
  - intros Hl Hb. by apply apply_defaults_id.
Qed.

End Facts.

(** ** Named pipes *)

Section Pipes.
Context `{FdAlloc}.

Lemma wp_stat path k (Q : option Z -> kern -> Prop) :
  (forall st k', k_fds k' = k_fds k -> (st = None -> 0 < k_errno k') -> Q st k') -> wp (stat path) k Q.
Proof.
  intros HQ. unfold stat. apply wp_bind, wp_answer; intros k1 E1 E2 E3; apply wp_bind, wp_gets; unfold id;
    (destruct (k_files k1 !! path); [apply wp_ret, HQ; done|]).
  - apply wp_bind, wp_modify, wp_ret, HQ; done.
  - apply wp_bind, wp_ret, wp_ret, HQ; done.
Qed.

Lemma wp_mkfifo path k (Q : bool -> kern -> Prop) :
  (forall ok k', k_fds k' = k_fds k -> (ok = false -> 0 < k_errno k') -> Q ok k') -> wp (mkfifo path) k Q.
Proof.
  intros HQ. unfold mkfifo. apply wp_bind, wp_gets. unfold id. destruct (k_files k !! path).
  - apply wp_bind, wp_modify, wp_ret, HQ; done.
  - apply wp_bind, wp_answer; intros k1 E1 _ He; [apply wp_bind, wp_modify, wp_ret, HQ; done|apply wp_ret, HQ; done].
Qed.

(** Opening a named pipe gives one fresh descriptor, open for the direction asked
    for, and keeps a copy of the path; a failure leaves none open. *)
Lemma dppip_owns_one_descriptor pip path ev unlink_ k :
  wp (_dppip_vopen (Some pip) (Some path) ev unlink_) k (fun r k' =>
    r.1 < 0 /\ k_fds k' = k_fds k \/
    0 <= r.1 /\ k_fds k !! r.1 = None /\
      k_fds k' = <[r.1 := new_kfd (FPath path (if ev =? DPEVT_IN then O_RDONLY else O_WRONLY))]> (k_fds k) /\
      r.2 = Some (Pip (Some path) (if unlink_ =? 0 then 0 else 1)) /\ (ev = DPEVT_IN \/ ev = DPEVT_OUT)).
Proof.
  unfold _dppip_vopen. apply wp_bind, wp_stat. intros st k1 E1 He1. apply wp_bind, wp_errno, wp_bind.
  match goal with |- wp ?m k1 _ => assert (Hbad : wp m k1 (fun bad k2 => k_fds k2 = k_fds k /\ forall r, bad = Some r -> r < 0)) end.
  { destruct st as [m|]; [apply wp_ret; split; [done|]; destruct (S_ISFIFO m); [done|by intros r [= <-]]|].
    specialize (He1 eq_refl). destruct (k_errno k1 =? ENOENT); [|apply wp_ret; split; [done|intros r [= <-]; lia]].
    apply wp_bind, wp_mkfifo. intros ok k2 E2 He2. apply wp_bind, wp_errno, wp_ret. split; [by rewrite E2|].
    destruct ok; [done|]. cbn [negb andb]. specialize (He2 eq_refl). destruct (k_errno k2 =? EEXIST); [done|]. intros r [= <-]. lia. }
  eapply wp_mono; [exact Hbad|]. cbv beta. intros [r|] k2 [E2 Hr].
  { apply wp_ret. left. split; [by apply Hr|done]. }
  assert (Hopen : forall mode, mode = (if ev =? DPEVT_IN then O_RDONLY else O_WRONLY) -> ev = DPEVT_IN \/ ev = DPEVT_OUT ->
    wp (fd ← open path (FPath path mode);
        if fd <? 0 then e ← get_errno; mret (- e, Some pip) else
        p ← strdup path;
        match p with
        | None => _ ← close fd; mret (- ENOMEM, Some (Pip None (unlink_on_del pip)))
        | Some p => mret (fd, Some (Pip (Some p) (if unlink_ =? 0 then 0 else 1)))
        end) k2 (fun r k' => r.1 < 0 /\ k_fds k' = k_fds k \/
      0 <= r.1 /\ k_fds k !! r.1 = None /\
      k_fds k' = <[r.1 := new_kfd (FPath path (if ev =? DPEVT_IN then O_RDONLY else O_WRONLY))]> (k_fds k) /\
      r.2 = Some (Pip (Some path) (if unlink_ =? 0 then 0 else 1)) /\ (ev = DPEVT_IN \/ ev = DPEVT_OUT))).
  { intros mode -> Hev. apply wp_bind, wp_open.
    2: { intros k3 E3 He. cbn [Z.ltb Z.compare]. apply wp_bind, wp_errno, wp_ret. left. cbn. split; [lia|by rewrite E3]. }
    intros fd k3 Hfd Hn E3. rewrite E2 in Hn, E3. rewrite (proj2 (Z.ltb_ge _ _) Hfd). apply wp_bind. unfold strdup. apply wp_bind, wp_answer;
      intros k4 E4 _ He4; rewrite E3 in E4; apply wp_ret.
    - apply wp_ret. right. by split_and!.
    - eapply (close_then _ _ _ k); [done..|]. intros k5 E5. apply wp_ret. by left. }
  destruct (Z.eqb_spec ev DPEVT_IN) as [->|]; [apply Hopen; auto|].
  destruct (Z.eqb_spec ev DPEVT_OUT) as [->|]; [apply Hopen; auto|]. apply wp_ret. by left.
Qed.

End Pipes.

(** ** Witnesses and examples *)

#[export] Instance ex_tty : TtyDev := {| tty_init _ := Termios 9472 5 3261 35387 1 0 15 15; tty_apply old new := new |}.

Definition ex_tty_path : chars := chr "/dev/ttyS0".
Definition ex_tty_kern (answers : list Z) : kern := Kern ∅ {[ ex_tty_path := S_IFCHR ]} answers 0 ∅.
Definition zero_spd : dpspd_udata := Spd (Termios 0 0 0 0 0 0 0 0) 0 [].

(** 57600 baud, seven bits, even parity, two stop bits: opened and read back. *)
Lemma serial_line_roundtrip_witness :
  wp (_dpspd_vopen zero_spd (Some ex_tty_path) 57600 7 2 parity_E) (ex_tty_kern []) (fun r k' =>
    0 <= r.1 /\ wp (dpspd_baud true r.1 r.2) k' (fun b _ => b.1 = 57600) /\
    wp (dpspd_parity true r.1 r.2) k' (fun p _ => p.1 = parity_E)).
Proof.
  destruct (serial_line_roundtrip zero_spd ex_tty_path 57600 7 2 parity_E (ex_tty_kern [])) as (Hsafe & Hopen & Hline & Hid).
  assert (Hs : l_baud (asked 57600 7 2 parity_E) ∈ speeds) by (apply baud_known; by vm_compute).
  specialize (Hopen Hs eq_refl (ex_intro _ S_IFCHR eq_refl)).
  specialize (Hline Hs eq_refl eq_refl). unfold opened in Hsafe. rewrite Hline in Hsafe. revert Hsafe Hopen. unfold wp at 1 2 3.
  destruct (_dpspd_vopen _ _ _ _ _ _ _) as [[r k']|]; [|done].
  intros [[? _]|(Hr & _ & _ & _ & (Hb & _ & Hp & _))] [Hpos Htio]; [lia|]. split; [done|].
  unfold reads in Hb, Hp. rewrite Htio in Hb, Hp. cbn in Hb, Hp. split; [exact Hb|exact Hp].
Defined.

(** A device that knows no speed but its own takes the rest: the line is opened, and
    says so. *)
Definition stubborn : TtyDev := {|
  tty_init _ := Termios 9472 5 3261 35387 1 0 13 13;
  tty_apply old new := Termios (c_iflag new) (c_oflag new) (c_cflag new) (c_lflag new) (c_vmin new) (c_vtime new) (c_ispeed old) (c_ospeed old);
|}.
Example partly_taken :
  fst <$> (r ← _dpspd_vopen (H0 := stubborn) zero_spd (Some ex_tty_path) 57600 7 2 parity_E;
    b ← dpspd_baud true r.1 r.2; d ← dpspd_databits true r.1 r.2; mret (b.1, d.1)) (ex_tty_kern []) = Some (9600, 7).
Proof. by vm_compute. Qed.

Example serial_7E2 :
  fst <$> (r ← _dpspd_vopen zero_spd (Some ex_tty_path) 9600 7 2 parity_E;
    b ← dpspd_baud true r.1 r.2; d ← dpspd_databits true r.1 r.2; p ← dpspd_parity true r.1 r.2;
    s ← dpspd_stopbits true r.1 r.2; mret (b.1, d.1, p.1, s.1)) (ex_tty_kern []) = Some (9600, 7, parity_E, 2).
Proof. by vm_compute. Qed.

(** The direction is tested after the pipe has been made: the request is refused
    and the file stays. *)
Example pipe_left_behind :
  match _dppip_vopen (Some zero_pip) (Some (chr "/tmp/p")) 7 1 (fresh_kern []) with
  | Some ((r, _), k) => (r, k_files k !! chr "/tmp/p") = (DPE_INVAL, Some S_IFIFO)
  | None => False
  end.
Proof. by vm_compute. Qed.

(** Two signal elements on a thread: taking a signal off the first unblocks those
    of the second, whose descriptor then misses them. *)
Example delno_unblocks_others :
  match (a ← dpsig_vopen; b ← dpsig_vopen;
         ma ← dpsig_addno a.1 a.2 10; ma ← dpsig_addno a.1 ma.2 12; mb ← dpsig_addno b.1 b.2 15;
         ma ← dpsig_delno a.1 ma.2 10; mret (ma.2, mb.2)) (fresh_kern []) with
  | Some ((ma, mb), k) => dpsig_hasno ma 12 = true /\ dpsig_hasno mb 15 = true /\ bool_decide (15 ∈ k_sigmask k) = false
  | None => False
  end.
Proof. by vm_compute. Qed.
