(* ===== verification/Qic.v ===== *)
(** * QUIC engines and their callbacks ([lib/dpapp/dpqic.c], built with [DPAPP_LSQUIC_ENABLE])

    An engine serves the listeners and clients of a TLS group; lsquic, the class
    [Lsq], calls back when it makes a connection or a stream, when there is data,
    and to send packets.  The callbacks that a call of the library makes are run in
    its order before the call returns ([drain]).  Engines are objects of the thread;
    the data of an element, and the cells that callers pass for results, are stores
    by address. *)

From Stdlib Require Import SpecFloat.
From S2P Require Import Prelude Chars Dpret Dpbuf Ele Tmrset World Evp AscTmr Dpssl DpsslIo Kern Sockets Cmsg.

#[local] Set Default Proof Using "Type*".

(** ** lsquic *)

(** A packet that the library wants sent: the element it goes through, the local
    address and where it is kept, the remote one, the bytes and the ECN bits. *)
Record out_spec := OutSpec {
  sp_peer : loc;
  sp_local_p : Z;
  sp_local : list Z;
  sp_dest : list Z;
  sp_iov : list Z;
  sp_ecn : Z;
}.
(** What [sendmmsg] is given for one packet, and what [recvmmsg] gives. *)
Record mmsg := Mmsg { mm_name : list Z; mm_iov : list Z; mm_control : list Z }.
Record dgram := Dgram { dg_peer : list Z; dg_data : list Z; dg_control : list Z; dg_controllen : Z }.

Inductive lsquic_hsk_status := LSQ_HSK_FAIL | LSQ_HSK_OK | LSQ_HSK_OTHER.

(** The callbacks, with the contexts that the code registered. *)
Inductive lsq_cb :=
  | CbNewConn (engine : loc) (conn : Z)
  | CbConnClosed (conn : Z)
  | CbNewStream (stream : Z)
  | CbRead (stream : Z) (ctx : option loc)
  | CbWrite (stream : Z) (ctx : option loc)
  | CbClose (stream : Z) (ctx : option loc)
  | CbHskDone (conn : Z) (status : lsquic_hsk_status)
  | CbPacketsOut (engine : loc) (specs : list out_spec).

Class Lsq (E : Type) := {
  lsquic_global_init : E -> bool * E;
  lsquic_global_cleanup : E -> E;
  lsquic_engine_check_settings : Z -> bool -> bool -> E -> bool; (* server, HTTP *)
  lsquic_engine_new : bool -> bool -> Z -> chars -> loc -> E -> option Z * E;
  lsquic_engine_destroy : Z -> E -> E;
  lsquic_get_h3_alpns : Z -> E -> list chars;
  lsquic_engine_connect : Z -> loc -> list Z -> list Z -> option chars -> list Z -> E -> option Z * E;
  lsquic_engine_process_conns : Z -> E -> E;
  lsquic_engine_earliest_adv_tick : Z -> E -> option Z;
  lsquic_engine_packet_in : Z -> list Z -> list Z -> list Z -> loc -> Z -> E -> bool * E;
  lsquic_engine_has_unsent_packets : Z -> E -> bool;
  lsquic_engine_send_unsent_packets : Z -> E -> E;
  lsquic_conn_get_ctx : Z -> E -> option loc;
  lsquic_conn_set_ctx : Z -> option loc -> E -> E;
  lsquic_conn_get_peer_ctx : Z -> E -> option loc;
  lsquic_conn_make_stream : Z -> E -> E;
  lsquic_conn_close : Z -> E -> E;
  lsquic_stream_conn : Z -> E -> Z;
  lsquic_stream_set_ctx : Z -> option loc -> E -> E;
  lsquic_stream_is_pushed : Z -> E -> bool;
  lsquic_stream_refuse_push : Z -> E -> E;
  lsquic_stream_close : Z -> E -> E;
  lsquic_stream_wantread : Z -> bool -> E -> E;
  lsquic_stream_wantwrite : Z -> bool -> E -> E;
  lsquic_stream_read : Z -> Z -> E -> (list Z + Z) * E; (* the bytes, or [errno] *)
  lsquic_stream_readv : Z -> list Z -> E -> (list Z + Z) * E; (* the lengths of the buffers *)
  lsquic_stream_write : Z -> list Z -> E -> option Z * E;
  lsquic_stream_writev : Z -> list (list Z) -> E -> option Z * E;
  lsquic_stream_flush : Z -> E -> E;
  lsquic_stream_get_hset : Z -> E -> (loc + Z) * E;
  lsquic_stream_send_headers : Z -> loc -> E -> option Z * E; (* [errno] *)
  next_callback : E -> option lsq_cb * E;
  conn_returned : Z -> option loc -> E -> E; (* what a callback answered *)
  stream_returned : Z -> option loc -> E -> E;
  packets_returned : Z -> E -> E;
  recvmmsg : Z -> list (Z * Z) -> E -> (list dgram + Z) * E; (* the room for names and controls *)
  sendmmsg : Z -> list mmsg -> E -> (Z + Z) * E;
}.

(** ** Data *)

Record dpqic_engine := Engine {
  qe_role : Z;
  qe_http : bool; (* [LSENG_HTTP] of [engine_flag] *)
  qe_group : chars;
  qe_engine : Z;
  qe_count : Z;
  qe_timer : option loc;
}.
Definition with_count (f : Z -> Z) (e : dpqic_engine) : dpqic_engine :=
  Engine (qe_role e) (qe_http e) (qe_group e) (qe_engine e) (f (qe_count e)) (qe_timer e).

(** [_DPQIC_EFD_HEAD_FIELDS], which listeners and clients share. *)
Record efd_head := EfdHead { udp_efd : option loc; engine : option loc; writable : bool }.
(** [out_conn] and [out_stm] are addresses of cells, 0 for [NULL]. *)
Record listen_data := Listen { lsn_head : efd_head; out_conn : Z; ready_conn_head : option loc; ready_conn_tail : option loc }.
Record conect_data := Conect {
  conn_next : option loc;
  conn : Z; (* 0 for [NULL] *)
  out_stm : Z;
  ready_stm_head : option loc;
  ready_stm_tail : option loc;
}.
Record stream_data := Stream { stm_next : option loc; stream : Z; avatar : option loc; is_owner : bool }.

(** The data of an element, by its type. *)
Inductive qaux := QListen (d : listen_data) | QClient (d : efd_head) | QConect (d : conect_data) | QStream (d : stream_data).

Definition MAX_PACKET_COUNT : Z := 64.
Definition EAGAIN : Z := 11.
Definition DPE_CLOSED : Z := -154.
Definition DPE_CONNREFUSED : Z := -111.
Definition DPE_UNKNOWN : Z := -150.

Record qic (E : Type) := Qic {
  k_engines : gmap loc dpqic_engine;
  k_head : list loc;
  k_next : loc;
  k_env : bool; (* [_qic_thenv] *)
  k_thcount : Z;
  k_aux : gmap loc qaux;
  k_udp : gmap loc dpudp_client;
  k_cells : gmap Z (option loc);
  k_iovs : gmap Z (list (Z * Z));
  k_out : list (list Z); (* [out_storage] *)
  k_in : list (Z * Z); (* [msg_namelen] and [msg_controllen] of [in_data] *)
  k_errno : Z;
  k_kern : kern;
  k_tls : tls E;
}.
Arguments Qic {E}. Arguments k_engines {E}. Arguments k_head {E}. Arguments k_next {E}. Arguments k_env {E}.
Arguments k_thcount {E}. Arguments k_aux {E}. Arguments k_udp {E}. Arguments k_cells {E}. Arguments k_iovs {E}.
Arguments k_out {E}. Arguments k_in {E}. Arguments k_errno {E}. Arguments k_kern {E}. Arguments k_tls {E}.

Section Qic.
Context {E : Type} `{Ssl E, Lsq E, Sys E}.

Definition set_kern (k : kern) (s : qic E) : qic E :=
  Qic (k_engines s) (k_head s) (k_next s) (k_env s) (k_thcount s) (k_aux s) (k_udp s) (k_cells s) (k_iovs s) (k_out s) (k_in s)
    (k_errno s) k (k_tls s).

(** The system of the loops is that of the libraries' state; descriptors are the
    kernel's. *)
Definition on_lib {A} (f : tls E -> A * tls E) (s : qic E) : A * qic E :=
  let '(a, t) := f (k_tls s) in
  (a, Qic (k_engines s) (k_head s) (k_next s) (k_env s) (k_thcount s) (k_aux s) (k_udp s) (k_cells s) (k_iovs s) (k_out s) (k_in s)
        (k_errno s) (k_kern s) t).
#[export] Instance qic_sys : Sys (qic E) := {|
  millis := on_lib millis;
  epoll_create := on_lib epoll_create;
  epoll_add l fd d evs := on_lib (epoll_add l fd d evs);
  epoll_mod l fd d evs := on_lib (epoll_mod l fd d evs);
  epoll_del l fd := on_lib (epoll_del l fd);
  epoll_wait l t := on_lib (epoll_wait l t);
  fcntl_getfl fd := on_lib (fcntl_getfl fd);
  fcntl_setfl fd fl := on_lib (fcntl_setfl fd fl);
  sys_close fd s :=
    match close fd (k_kern s) with
    | Some (ok, k) => (if ok then 0 else - Kern.k_errno k, set_kern k s)
    | None => (-1, s)
    end;
  sys_dup fd := on_lib (sys_dup fd);
|}.

Abbreviation M := (ST (world (qic E))).

(** ** Access *)

Definition upd_qic (f : qic E -> qic E) : M unit :=
  modify (fun w => World (w_eles w) (w_next w) (w_oom w) (w_race w) (w_nodes w) (w_set w) (w_self w) (f (w_ext w))).
Definition set_engines (f : gmap loc dpqic_engine -> gmap loc dpqic_engine) (s : qic E) : qic E :=
  Qic (f (k_engines s)) (k_head s) (k_next s) (k_env s) (k_thcount s) (k_aux s) (k_udp s) (k_cells s) (k_iovs s) (k_out s) (k_in s)
    (k_errno s) (k_kern s) (k_tls s).
Definition set_head (l : list loc) (s : qic E) : qic E :=
  Qic (k_engines s) l (k_next s) (k_env s) (k_thcount s) (k_aux s) (k_udp s) (k_cells s) (k_iovs s) (k_out s) (k_in s)
    (k_errno s) (k_kern s) (k_tls s).
Definition set_env (b : bool) (n : Z) (s : qic E) : qic E :=
  Qic (k_engines s) (k_head s) (k_next s) b n (k_aux s) (k_udp s) (k_cells s) (k_iovs s) (k_out s) (k_in s)
    (k_errno s) (k_kern s) (k_tls s).
Definition set_auxs (f : gmap loc qaux -> gmap loc qaux) (s : qic E) : qic E :=
  Qic (k_engines s) (k_head s) (k_next s) (k_env s) (k_thcount s) (f (k_aux s)) (k_udp s) (k_cells s) (k_iovs s) (k_out s) (k_in s)
    (k_errno s) (k_kern s) (k_tls s).
Definition set_cells (f : gmap Z (option loc) -> gmap Z (option loc)) (s : qic E) : qic E :=
  Qic (k_engines s) (k_head s) (k_next s) (k_env s) (k_thcount s) (k_aux s) (k_udp s) (f (k_cells s)) (k_iovs s) (k_out s) (k_in s)
    (k_errno s) (k_kern s) (k_tls s).
Definition set_out (l : list (list Z)) (s : qic E) : qic E :=
  Qic (k_engines s) (k_head s) (k_next s) (k_env s) (k_thcount s) (k_aux s) (k_udp s) (k_cells s) (k_iovs s) l (k_in s)
    (k_errno s) (k_kern s) (k_tls s).
Definition set_in (l : list (Z * Z)) (s : qic E) : qic E :=
  Qic (k_engines s) (k_head s) (k_next s) (k_env s) (k_thcount s) (k_aux s) (k_udp s) (k_cells s) (k_iovs s) (k_out s) l
    (k_errno s) (k_kern s) (k_tls s).
Definition set_err (e : Z) (s : qic E) : qic E :=
  Qic (k_engines s) (k_head s) (k_next s) (k_env s) (k_thcount s) (k_aux s) (k_udp s) (k_cells s) (k_iovs s) (k_out s) (k_in s)
    e (k_kern s) (k_tls s).
Definition set_tls (t : tls E) (s : qic E) : qic E :=
  Qic (k_engines s) (k_head s) (k_next s) (k_env s) (k_thcount s) (k_aux s) (k_udp s) (k_cells s) (k_iovs s) (k_out s) (k_in s)
    (k_errno s) (k_kern s) t.

Definition getq {A} (f : qic E -> A) : M A := gets (fun w => f (w_ext w)).
Definition set_errno (e : Z) : M unit := upd_qic (set_err e).
Definition errno : M Z := getq k_errno.

Definition on_tls {A} (m : ST (tls E) A) : M A :=
  s ← getq k_tls;
  match m s with Some (a, s) => upd_qic (set_tls s);; mret a | None => ub end.
Definition on_kern {A} (m : ST kern A) : M A :=
  k ← getq k_kern;
  match m k with Some (a, k) => upd_qic (set_kern k);; mret a | None => ub end.

(** Calls of lsquic. *)
Definition qlib {A} (f : E -> A * E) : M A := on_tls (lib f).
Definition qlib_do (f : E -> E) : M unit := on_tls (lib_do f).
Definition qask {A} (f : E -> A) : M A := getq (fun s => f (s_ext (k_tls s))).

(** Objects: what was freed cannot be used. *)
Definition get_engine (p : loc) : M dpqic_engine := e ← getq (fun s => k_engines s !! p); lift_opt e.
Definition upd_engine (p : loc) (f : dpqic_engine -> dpqic_engine) : M unit :=
  e ← get_engine p; upd_qic (set_engines <[p := f e]>).
(** The data of an element goes with it. *)
Definition get_aux (x : loc) : M qaux := _ ← get_ele x; a ← getq (fun s => k_aux s !! x); lift_opt a.
Definition get_udp (x : loc) : M dpudp_client := _ ← get_ele x; u ← getq (fun s => k_udp s !! x); lift_opt u.
Definition put_aux (x : loc) (a : qaux) : M unit := upd_qic (set_auxs <[x := a]>).

Definition get_listen (x : loc) : M listen_data := a ← get_aux x; match a with QListen d => mret d | _ => ub end.
Definition get_conect (x : loc) : M conect_data := a ← get_aux x; match a with QConect d => mret d | _ => ub end.
Definition get_stream (x : loc) : M stream_data := a ← get_aux x; match a with QStream d => mret d | _ => ub end.
(** The head of a listener or of a client. *)
Definition get_head (x : loc) : M efd_head :=
  a ← get_aux x; match a with QListen d => mret (lsn_head d) | QClient d => mret d | _ => ub end.
Definition put_head (x : loc) (h : efd_head) : M unit :=
  a ← get_aux x;
  match a with
  | QListen d => put_aux x (QListen (Listen h (out_conn d) (ready_conn_head d) (ready_conn_tail d)))
  | QClient _ => put_aux x (QClient h)
  | _ => ub
  end.
(** [*p = v] of a caller's variable: it may have gone. *)
Definition put_cell (p : Z) (v : option loc) : M unit :=
  c ← getq (fun s => k_cells s !! p); _ ← lift_opt c; upd_qic (set_cells <[p := v]>).

Definition _dpqic_ready_next (ele : loc) : M (option loc) :=
  a ← get_aux ele; match a with QConect d => mret (conn_next d) | QStream d => mret (stm_next d) | _ => ub end.
Definition _dpqic_set_ready_next (ele : loc) (next : option loc) : M unit :=
  a ← get_aux ele;
  match a with
  | QConect d => put_aux ele (QConect (Conect next (conn d) (out_stm d) (ready_stm_head d) (ready_stm_tail d)))
  | QStream d => put_aux ele (QStream (Stream next (stream d) (avatar d) (is_owner d)))
  | _ => ub
  end.

(** ** Sending packets *)

(** The control of a message: the storage it is in, and its length. *)
Record omsg := Omsg { om_spec : out_spec; om_ctl : option (Z * Z) }.
Definition CTL_SIZE : Z := 256.

(** [dest_sa] up to [msg_namelen]. *)
Definition msg_name (sp : out_spec) : list Z :=
  ztake (if bytes_family (sp_dest sp) =? AF_INET then 16 else 28) (sp_dest sp).

(** [cw] and [ancil_key]. *)
Definition ancil (role : Z) (sp : out_spec) : Z * Z :=
  let '(cw, key) := if (role =? DPROLE_SERVER) && negb (bytes_family (sp_local sp) =? 0) then (CW_SENDADDR, sp_local_p sp) else (0, 0) in
  if negb (sp_ecn sp =? 0) then (Z.lor cw CW_ECN, Z.lor key (sp_ecn sp)) else (cw, key).

(** The message [m] of a batch, after [last] and with the key of what was set up. *)
Definition make_msg (role m : Z) (last : option omsg) (prev_key : Z) (sp : out_spec) : M (omsg * Z) :=
  let '(cw, key) := ancil role sp in
  if negb (cw =? 0) && (prev_key =? key) && (0 <? m) then
    last ← lift_opt last; mret (Omsg sp (om_ctl last), prev_key)
  else if negb (cw =? 0) then
    c ← lift_opt (_setup_control_msg (replicate (Z.to_nat CTL_SIZE) 0) CTL_SIZE cw (sp_local sp) (sp_dest sp) (sp_ecn sp));
    out ← getq k_out;
    upd_qic (set_out (<[Z.to_nat m := c.1]> out));;
    mret (Omsg sp (Some (m, c.2)), key)
  else mret (Omsg sp None, 0).

(** The packets of one batch: all through [ele], at most [MAX_PACKET_COUNT]; the
    messages, newest first. *)
Fixpoint make_batch (specs : list out_spec) (role : Z) (ele : loc) (m : Z) (msgs : list omsg) (prev_key : Z) : M (list omsg) :=
  match specs with
  | [] => mret msgs
  | sp :: specs =>
      if (m <? MAX_PACKET_COUNT) && bool_decide (sp_peer sp = ele) then
        r ← make_msg role m (head msgs) prev_key sp;
        make_batch specs role ele (m + 1) (r.1 :: msgs) r.2
      else mret msgs
  end.

(** A message as the kernel sees it. *)
Definition resolve_msg (out : list (list Z)) (o : omsg) : option mmsg :=
  ctl ← (match om_ctl o with
         | Some (i, len) => (fun c => ztake len c) <$> znth out i
         | None => Some []
         end);
  Some (Mmsg (msg_name (om_spec o)) (sp_iov (om_spec o)) ctl).

Fixpoint send_batches (fuel : nat) (specs : list out_spec) (role : Z) (n : Z) : M Z :=
  match specs with
  | [] => mret n
  | sp :: _ =>
      match fuel with
      | O => ub
      | S fuel =>
          let ele := sp_peer sp in
          h ← get_head ele;
          efd ← lift_opt (udp_efd h);
          msgs ← make_batch specs role ele 0 [] 0;
          out ← getq k_out;
          ms ← lift_opt (mapM (resolve_msg out) (rev msgs));
          fd ← dpefd_fd efd;
          r ← qlib (sendmmsg fd ms);
          let m := zlen msgs in
          match r with
          | inl s => if s =? m then send_batches fuel (zdrop m specs) role (n + m) else set_errno EAGAIN;; mret (n + s)
          | inr e => set_errno e;; mret n
          end
      end
  end.

Definition _dpqic_cb_send_packets (ctx : loc) (specs : list out_spec) : M Z :=
  e ← get_engine ctx;
  send_batches (length specs) specs (qe_role e) 0.

(** ** Connections and streams that the library makes *)

(** A result for the caller that waits, or the end of the queue. *)
Definition deliver_conn (lsn econn : loc) : M unit :=
  d ← get_listen lsn;
  if negb (out_conn d =? 0) then
    put_cell (out_conn d) (Some econn);;
    d ← get_listen lsn;
    put_aux lsn (QListen (Listen (lsn_head d) 0 (ready_conn_head d) (ready_conn_tail d)));;
    _ ← dpevp_end lsn DPE_OK; mret tt
  else match ready_conn_head d with
       | Some _ =>
           t ← lift_opt (ready_conn_tail d);
           _dpqic_set_ready_next t (Some econn);;
           d ← get_listen lsn;
           put_aux lsn (QListen (Listen (lsn_head d) (out_conn d) (ready_conn_head d) (Some econn)))
       | None => put_aux lsn (QListen (Listen (lsn_head d) (out_conn d) (Some econn) (Some econn)))
       end.

Definition deliver_stm (econn estm : loc) : M unit :=
  d ← get_conect econn;
  if negb (out_stm d =? 0) then
    put_cell (out_stm d) (Some estm);;
    d ← get_conect econn;
    put_aux econn (QConect (Conect (conn_next d) (conn d) 0 (ready_stm_head d) (ready_stm_tail d)));;
    _ ← dpevp_end econn DPE_OK; mret tt
  else match ready_stm_head d with
       | Some _ =>
           t ← lift_opt (ready_stm_tail d);
           _dpqic_set_ready_next t (Some estm);;
           d ← get_conect econn;
           put_aux econn (QConect (Conect (conn_next d) (conn d) (out_stm d) (ready_stm_head d) (Some estm)))
       | None => put_aux econn (QConect (Conect (conn_next d) (conn d) (out_stm d) (Some estm) (Some estm)))
       end.

Context (P : program (qic E)).

Definition dpqic_listen_type : dpele_type := EleType 40 DPELE_TYPE_USD 48 DPAIO_TYPE_QIC 0.
Definition dpqic_client_type : dpele_type := EleType 41 DPELE_TYPE_USD 24 DPAIO_TYPE_QIC 0.
Definition dpqic_conect_type : dpele_type := EleType 42 DPELE_TYPE_USD 40 DPAIO_TYPE_QIC 0.
Definition dpqic_stream_type : dpele_type := EleType 43 DPELE_TYPE_USD 32 DPAIO_TYPE_QIC 0.

Definition _dpqic_cb_on_new_conn (ctx : loc) (c : Z) : M (option loc) :=
  econn ← dpele_new P (Some dpqic_conect_type) [c];
  match econn with
  | None => qlib_do (lsquic_conn_close c);; mret None
  | Some econn =>
      e ← get_engine ctx;
      if qe_role e =? DPROLE_CLIENT then mret (Some econn) else
      lsn ← qask (lsquic_conn_get_peer_ctx c);
      match lsn with
      | None => qlib_do (lsquic_conn_close c);; mret None
      | Some lsn => deliver_conn lsn econn;; mret (Some econn)
      end
  end.

Definition _dpqic_cb_on_hsk_done (c : Z) (status : lsquic_hsk_status) : M unit :=
  x ← qask (lsquic_conn_get_peer_ctx c);
  match status with
  | LSQ_HSK_FAIL => x ← lift_opt x; _ ← dpevp_end x DPE_CONNREFUSED; mret tt
  | LSQ_HSK_OK => x ← lift_opt x; _ ← dpevp_end x DPE_OK; mret tt
  | LSQ_HSK_OTHER => mret tt
  end.

Definition _dpqic_cb_on_conn_closed (c : Z) : M unit :=
  econn ← qask (lsquic_conn_get_ctx c);
  match econn with
  | None => mret tt
  | Some econn =>
      d ← get_conect econn;
      put_aux econn (QConect (Conect (conn_next d) 0 0 (ready_stm_head d) (ready_stm_tail d)));;
      doing ← dpele_is_doing econn;
      (if doing : bool then _ ← dpevp_end econn DPE_CLOSED; mret tt else mret tt);;
      qlib_do (lsquic_conn_set_ctx c None)
  end.

Definition _dpqic_cb_on_new_stream (stm : Z) : M (option loc) :=
  pushed ← qask (lsquic_stream_is_pushed stm);
  if pushed : bool then qlib_do (lsquic_stream_refuse_push stm);; mret None else
  estm ← dpele_new P (Some dpqic_stream_type) [stm];
  match estm with
  | None => qlib_do (lsquic_stream_close stm);; mret None
  | Some estm =>
      c ← qask (lsquic_stream_conn stm);
      econn ← qask (lsquic_conn_get_ctx c);
      econn ← lift_opt econn;
      deliver_stm econn estm;;
      mret (Some estm)
  end.

(** The [post] of what the element does; its result ends the operation unless it
    has to wait. *)
Definition run_stream_post (x : loc) (want : bool -> M unit) : M unit :=
  a ← _dpele_asc_type x;
  match a with
  | Some a =>
      asc ← lift_opt (p_asc P a);
      post ← lift_opt (a_post asc);
      data ← dpele_asc_data x;
      r ← post x (Out 0 0 0 data);
      if r.1 =? DPE_WAIT then want true else want false;; _ ← dpevp_end x r.1; mret tt
  | None => want false
  end.
Definition _dpqic_cb_on_read (stm : Z) (st_h : option loc) : M unit :=
  x ← lift_opt st_h; run_stream_post x (fun on => qlib_do (lsquic_stream_wantread stm on)).
Definition _dpqic_cb_on_write (stm : Z) (st_h : option loc) : M unit :=
  x ← lift_opt st_h; run_stream_post x (fun on => qlib_do (lsquic_stream_wantwrite stm on)).

(** The stream is gone from the element; an operation in progress ends. *)
Definition close_stream (x : loc) : M unit :=
  d ← get_stream x;
  put_aux x (QStream (Stream (stm_next d) 0 (avatar d) (is_owner d)));;
  doing ← dpele_is_doing x;
  if doing : bool then _ ← dpevp_end x DPE_CLOSED; mret tt else mret tt.
Definition _dpqic_cb_on_close (stm : Z) (st_h : option loc) : M unit :=
  match st_h with
  | None => mret tt
  | Some x =>
      close_stream x;;
      d ← get_stream x;
      (match avatar d with Some a => close_stream a | None => mret tt end);;
      qlib_do (lsquic_stream_set_ctx stm None)
  end.

(** ** Running the callbacks of a call *)

Definition do_callback (cb : lsq_cb) : M unit :=
  match cb with
  | CbNewConn e c => r ← _dpqic_cb_on_new_conn e c; qlib_do (conn_returned c r)
  | CbConnClosed c => _dpqic_cb_on_conn_closed c
  | CbNewStream s => r ← _dpqic_cb_on_new_stream s; qlib_do (stream_returned s r)
  | CbRead s x => _dpqic_cb_on_read s x
  | CbWrite s x => _dpqic_cb_on_write s x
  | CbClose s x => _dpqic_cb_on_close s x
  | CbHskDone c st => _dpqic_cb_on_hsk_done c st
  | CbPacketsOut e specs => n ← _dpqic_cb_send_packets e specs; qlib_do (packets_returned n)
  end.

(** [fuel] bounds how many callbacks one call makes. *)
Fixpoint drain (fuel : nat) : M unit :=
  cb ← qlib next_callback;
  match cb with
  | None => mret tt
  | Some cb => match fuel with O => ub | S fuel => do_callback cb;; drain fuel end
  end.

Context (fuel : nat).

(** A call that may make callbacks. *)
Definition qcall {A} (f : E -> A * E) : M A := a ← qlib f; drain fuel;; mret a.
Definition qcall_do (f : E -> E) : M unit := qlib_do f;; drain fuel.

(** ** The timer of an engine *)

(** The bits of a [double]. *)
Definition bits_of_f64 (f : spec_float) : Z :=
  match f with
  | S754_finite s m e => (if s then 2 ^ 63 else 0) + (e + 1075) * 2 ^ 52 + (Z.pos m - 2 ^ 52)
  | S754_zero s => if s then 2 ^ 63 else 0
  | S754_infinity s => (if s then 2 ^ 63 else 0) + 2047 * 2 ^ 52
  | S754_nan => 2047 * 2 ^ 52 + 2 ^ 51
  end.
(** [(double)diff / 1000000.0] *)
Definition usec_to_sec (diff : Z) : spec_float := SFdiv prec emax (Z2SF diff) (Z2SF 1000000).

(** The numbers of [dptmr_callback()] and of the address of [_dpqic_cb_timeout]. *)
Definition dptmr_callback_no : Z := 40.
Definition _dpqic_cb_timeout_addr : Z := 1.

Definition arm_timer (p : loc) (after : Z) : M Z :=
  e ← get_engine p;
  dpevp_add P fuel (qe_timer e) (Some dptmr_callback_no) [after; _dpqic_cb_timeout_addr; Z.pos p].

Definition _dpqic_start_process (p : loc) : M unit := _ ← arm_timer p 0; mret tt.

Definition _dpqic_process_conns (p : loc) : M unit :=
  e ← get_engine p;
  qcall_do (lsquic_engine_process_conns (qe_engine e));;
  e ← get_engine p;
  t ← qask (lsquic_engine_earliest_adv_tick (qe_engine e));
  match t with
  | Some diff => _ ← arm_timer p (if diff <? 0 then 0 else bits_of_f64 (usec_to_sec diff)); mret tt
  | None => mret tt
  end.

Definition _dpqic_cb_timeout (tmr : loc) (arg : Z) : M unit :=
  p ← lift_opt (ele_at arg); _dpqic_process_conns p.

(** ** Engines *)

Definition is_h3 (alpn : chars) : bool := bool_decide (alpn = chr "h3") || bool_decide (ztake 3 alpn = chr "h3-").

Fixpoint find_engine (l : list loc) (group : chars) : M (option loc) :=
  match l with
  | [] => mret None
  | p :: l => e ← get_engine p; if bool_decide (qe_group e = group) then mret (Some p) else find_engine l group
  end.

Fixpoint add_alpns (group : chars) (l : list chars) : M unit :=
  match l with
  | [] => mret tt
  | a :: l => (if bool_decide (a = []) then mret tt else _ ← on_tls (dpssl_add_alpn (Some group) (Some a)); mret tt);; add_alpns group l
  end.

Definition fail_with {A} (e : Z) : M (option A) := set_errno e;; mret None.

(** A new engine of a group, after those that are there. *)
Definition new_engine (group alpn : chars) (role settings : Z) : M (option loc) :=
  let server := role =? DPROLE_SERVER in
  let http := is_h3 alpn in
  ok ← (if settings =? 0 then mret true else qask (lsquic_engine_check_settings settings server http));
  if negb ok then fail_with DPE_INVAL else
  ok ← alloc_ok;
  if negb ok then fail_with DPE_NOMEM else
  timer ← dpele_new P (Some dptmr_init_type) [];
  match timer with
  | None => fail_with DPE_NOMEM
  | Some timer =>
      _ ← dpele_set_detach timer true;
      p ← getq k_next;
      r ← qlib (lsquic_engine_new server http settings alpn p);
      match r with
      | None => dpele_del P (Some timer);; fail_with DPE_UNINIT
      | Some le =>
          upd_qic (fun s => Qic (<[p := Engine role http (ztake 31 group) le 0 (Some timer)]> (k_engines s)) (k_head s ++ [p])
            (Pos.succ p) (k_env s) (k_thcount s) (k_aux s) (k_udp s) (k_cells s) (k_iovs s) (k_out s) (k_in s) (k_errno s) (k_kern s) (k_tls s));;
          (if http then alpns ← qask (lsquic_get_h3_alpns le); add_alpns group alpns else mret tt);;
          mret (Some p)
      end
  end.

Definition _dpqic_get_engine (group : option chars) (settings : Z) : M (option loc) :=
  match group with
  | None | Some [] => fail_with DPE_INVAL
  | Some group =>
      alpn ← on_tls (dpssl_get_alpn (Some group) 0);
      match alpn with
      | None => fail_with DPE_INVAL
      | Some alpn =>
          v ← on_tls (dpssl_has_version (Some group) TLS1_3_VERSION TLS1_3_VERSION);
          if negb (v =? DPE_OK) then fail_with (if v =? DPE_NOTEXISTS then DPE_UNSUPPORT else v) else
          role ← on_tls (dpssl_role (Some group));
          env ← getq k_env;
          if negb env then ub else
          l ← getq k_head;
          p ← find_engine l group;
          match p with Some p => mret (Some p) | None => new_engine group alpn role settings end
      end
  end.

Definition dpqic_add_engine (group : option chars) (settings : Z) : M Z :=
  p ← _dpqic_get_engine group settings;
  match p with Some _ => mret DPE_OK | None => errno end.

(** The idle engines of the group, or of all; how many went. *)
Fixpoint del_engines (group : option chars) (kept l : list loc) : M Z :=
  match l with
  | [] => mret 0
  | p :: l =>
      e ← get_engine p;
      if (qe_count e =? 0) && (match group with None => true | Some g => bool_decide (qe_group e = g) end) then
        upd_qic (set_head (kept ++ l));;
        qcall_do (lsquic_engine_destroy (qe_engine e));;
        upd_qic (set_engines (delete p));;
        n ← del_engines group kept l;
        mret (n + 1)
      else del_engines group (kept ++ [p]) l
  end.
Definition dpqic_del_engine (group : option chars) : M Z :=
  env ← getq k_env;
  if negb env then ub else
  l ← getq k_head; del_engines group [] l.

(** ** Threads *)

(** The storage of a packet ready for the next: a whole address, all of the control
    buffer. *)
Definition _dpqic_reset_in_storage : Z * Z := (128, CTL_SIZE).

Definition dpqic_thrd_init : M Z :=
  env ← getq k_env;
  if env : bool then mret DPE_OK else
  ok ← alloc_ok;
  if negb ok then mret DPE_NOMEM else
  n ← getq k_thcount;
  upd_qic (set_env true n);;
  upd_qic (set_in (replicate (Z.to_nat MAX_PACKET_COUNT) _dpqic_reset_in_storage));;
  ok ← (if n =? 0 then qlib lsquic_global_init else mret true);
  if negb ok then mret DPE_UNINIT else
  upd_qic (set_env true (n + 1));;
  mret DPE_OK.

Definition dpqic_thrd_exit : M unit :=
  env ← getq k_env;
  if negb env then mret tt else
  _ ← dpqic_del_engine None;
  l ← getq k_head;
  n ← getq k_thcount;
  upd_qic (set_env (match l with [] => false | _ => true end) (n - 1));;
  if n - 1 =? 0 then qlib_do lsquic_global_cleanup else mret tt.
End Qic.
