(* ===== verification/QicOps.v ===== *)
(** * QUIC elements and operations ([lib/dpapp/dpqic.c])

    Listeners and clients own a datagram socket whose readiness drives their engine;
    connections and streams belong to the library.  The operations are those of
    [dpqic.h].  The functions that delete elements refer to the program itself, which
    is therefore built in levels ([qic_program]): a level is used up by a deletion
    inside a deletion, never by a loop. *)

From S2P Require Import Prelude Chars Dpret Dplog Dpbuf Ele Tmrset World Evp AscTmr Dpssl DpsslIo Kern Sockets Cmsg Qic.

#[local] Set Default Proof Using "Type*".

(** ** Lines of the library's log

    [buf] ends with its first zero, which the list does not hold. *)

Definition strchr (s : chars) (from : Z) (c : ascii) : option Z :=
  (Z.add from) <$> index_of (fun a => bool_decide (a = c)) (zdrop from s).

Fixpoint strstr (needle s : chars) : option Z :=
  if bool_decide (ztake (zlen needle) s = needle) then Some 0
  else match s with [] => None | _ :: s => Z.succ <$> strstr needle s end.

(** The level and the text that are logged; [None] where a pointer is [NULL] or a
    buffer too small. *)
Definition _dpqic_log_buf (buf : chars) (len : Z) : option (Z * chars) :=
  lbeg ← strchr buf 0 "["%char;
  lend ← strchr buf lbeg "]"%char;
  if 15 <? lend - lbeg - 1 then None else (* [lname[16]] *)
  let lname := slice (lbeg + 1) (lend - lbeg - 1) buf in
  lend ← match strstr (chr "[QUIC:") (zdrop lend buf) with
         | Some i => strchr buf (lend + i) "]"%char
         | None => Some lend
         end;
  if zlen buf <? lend + 2 then None else
  let n := len - (lend + 3) in
  Some (dplog_namel lname, (if n <? 0 then id else ztake n) (zdrop (lend + 2) buf)).

Definition DPE_CLOSED := Qic.DPE_CLOSED.

Section QicOps.
Context {E : Type} `{Ssl E, Lsq E, Sys E, FdAlloc, NetLib}.

Abbreviation M := (ST (world (qic E))).

Context (P : program (qic E)) (fuel : nat).

(** ** Arguments *)

Definition va_str (args : list Z) (i : Z) : M (option chars) := a ← lift_opt (znth args i); on_tls (cstr a).
Definition va_int (args : list Z) (i : Z) : M Z := lift_opt (znth args i).

(** ** Datagram sockets

    The elements of [dpudp_client_type] and [dpudp_server_type]; both begin with the
    local address. *)

Definition zero_udp : dpudp_client := UdpC zero_sockaddr zero_sockaddr.
Definition put_udp (x : loc) (u : dpudp_client) : M unit :=
  upd_qic (fun s => Qic (k_engines s) (k_head s) (k_next s) (k_env s) (k_thcount s) (k_aux s) (<[x := u]> (k_udp s)) (k_cells s)
    (k_iovs s) (k_out s) (k_in s) (k_errno s) (k_kern s) (k_tls s)).

Definition udp_client_init (x : loc) (args : list Z) : M Z :=
  put_udp x zero_udp;;
  host ← va_str args 0;
  port ← va_int args 1;
  r ← on_kern (dpudp_client_vopen zero_udp host port);
  put_udp x r.2;;
  mret r.1.
Definition udp_server_init (x : loc) (args : list Z) : M Z :=
  put_udp x zero_udp;;
  host ← va_str args 0;
  port ← va_int args 1;
  r ← on_kern (dpudp_server_vopen zero_sockaddr host port);
  put_udp x (UdpC r.2 zero_sockaddr);;
  mret r.1.

(** [dpefd_set_block(efd, false)] *)
Definition set_nonblock (efd : loc) : M Z :=
  fd ← dpefd_fd efd;
  if fd <? 0 then mret DPE_INVAL else
  flags ← sys (fcntl_getfl fd);
  if flags <? 0 then mret flags else
  let desired := Z.lor flags O_NONBLOCK in
  if desired =? flags then mret DPE_OK else
  r ← sys (fcntl_setfl fd desired);
  mret (if r <? 0 then r else DPE_OK).

(** ** Listeners and clients *)

Definition dpskt_qic_ioevent_no : Z := 60.

(** What both do with their new socket. *)
Definition setup_udp (x : loc) (efd : loc) (setopt : Z -> dpudp_client -> K Z) : M Z :=
  fd ← dpefd_fd efd;
  u ← get_udp efd;
  ret ← on_kern (setopt fd u);
  if dpret_iserr ret then dpele_del P (Some efd);; mret ret else
  ret ← set_nonblock efd;
  if dpret_iserr ret then dpele_del P (Some efd);; mret ret else
  _ ← dpele_set_detach efd true;
  ret ← dpevp_add P fuel (Some efd) (Some dpskt_qic_ioevent_no) [Z.pos x];
  (if dpret_iserr ret then dpele_del P (Some efd) else mret tt);;
  mret ret.

Definition zero_head : efd_head := EfdHead None None false.
Definition set_udp_efd (x : loc) (efd : option loc) : M unit :=
  h ← get_head x; put_head x (EfdHead efd (engine h) (writable h)).
Definition set_engine (x : loc) (p : loc) : M unit :=
  h ← get_head x; put_head x (EfdHead (udp_efd h) (Some p) (writable h));; upd_engine p (with_count (Z.add 1)).

Definition _dpqic_listen_vopen (x : loc) (args : list Z) : M Z :=
  put_aux x (QListen (Listen zero_head 0 None None));;
  group ← va_str args 0;
  eng ← _dpqic_get_engine P group 0;
  match eng with
  | None => errno
  | Some eng =>
      efd ← dpele_newv P (Some dpudp_server_type) (zdrop 1 args);
      set_udp_efd x efd;;
      match efd with
      | None => mret DPE_INVAL
      | Some efd =>
          ret ← setup_udp x efd (fun fd u => dpqic_server_setopt fd (uc_local u));
          if dpret_iserr ret then mret ret else set_engine x eng;; mret DPE_OK
      end
  end.

(** [dpele_del] of every element of a ready queue, by its links. *)
Fixpoint del_ready (n : nat) (conn : option loc) : M unit :=
  match conn with
  | None => mret tt
  | Some c =>
      match n with
      | O => ub
      | S n => tmp ← _dpqic_ready_next c; dpele_del P (Some c);; del_ready n tmp
      end
  end.

Definition _dpqic_listen_clean (x : loc) : M unit :=
  d ← get_listen x;
  (match engine (lsn_head d) with Some p => upd_engine p (with_count (Z.add (-1))) | None => mret tt end);;
  d ← get_listen x;
  del_ready fuel (ready_conn_head d);;
  h ← get_head x;
  dpele_del P (udp_efd h).

Definition _dpqic_client_vopen (x : loc) (args : list Z) : M Z :=
  put_aux x (QClient zero_head);;
  group ← va_str args 0;
  eng ← _dpqic_get_engine P group 0;
  match eng with
  | None => mret DPE_INVAL
  | Some eng =>
      efd ← dpele_newv P (Some dpudp_client_type) (zdrop 1 args);
      set_udp_efd x efd;;
      match efd with
      | None => mret DPE_INVAL
      | Some efd =>
          ret ← setup_udp x efd dpqic_client_setopt;
          if dpret_iserr ret then mret ret else set_engine x eng;; mret ret
      end
  end.

Definition _dpqic_client_clean (x : loc) : M unit :=
  h ← get_head x;
  p ← lift_opt (engine h);
  upd_engine p (with_count (Z.add (-1)));;
  dpele_del P (udp_efd h).

(** ** Connections and streams *)

Definition _dpqic_conect_vinit (x : loc) (args : list Z) : M Z :=
  c ← va_int args 0; put_aux x (QConect (Conect None c 0 None None));; mret DPE_OK.

Definition _dpqic_conect_clean (x : loc) : M unit :=
  d ← get_conect x;
  (if negb (conn d =? 0) then
     qlib_do (lsquic_conn_set_ctx (conn d) None);;
     qcall_do P fuel (lsquic_conn_close (conn d));;
     d ← get_conect x;
     put_aux x (QConect (Conect (conn_next d) 0 (out_stm d) (ready_stm_head d) (ready_stm_tail d)))
   else mret tt);;
  d ← get_conect x;
  del_ready fuel (ready_stm_head d).

Definition _dpqic_stream_vinit (x : loc) (args : list Z) : M Z :=
  s ← va_int args 0; put_aux x (QStream (Stream None s None true));; mret DPE_OK.

Definition _dpqic_stream_copy (dst src : loc) : M Z :=
  put_aux dst (QStream (Stream None 0 None false));;
  s ← get_stream src;
  match avatar s with
  | Some _ => mret DPE_PERM
  | None =>
      put_aux src (QStream (Stream (stm_next s) (stream s) (Some dst) (is_owner s)));;
      put_aux dst (QStream (Stream None (stream s) (Some src) false));;
      mret DPE_OK
  end.

Definition _dpqic_stream_clean (x : loc) : M unit :=
  d ← get_stream x;
  match avatar d with
  | Some a =>
      u ← get_stream a;
      put_aux a (QStream (Stream (stm_next u) (stream u) None true))
  | None =>
      if negb (stream d =? 0) then
        qlib_do (lsquic_stream_set_ctx (stream d) None);; qcall_do P fuel (lsquic_stream_close (stream d))
      else mret tt
  end.

(** ** Connecting *)

(** [c2b]: a table of 256 entries indexed by a [char], which is signed. *)
Definition c2b (c : Z) : option Z :=
  if 128 <=? c then None
  else Some (if (48 <=? c) && (c <=? 57) then c - 48
             else if (65 <=? c) && (c <=? 70) then c - 55
             else if (97 <=? c) && (c <=? 102) then c - 87 else 0).

Fixpoint token_bytes (s : chars) : option (list Z) :=
  match s with
  | a :: b :: s =>
      hi ← c2b (code a);
      lo ← c2b (code b);
      bs ← token_bytes s;
      Some (Z.lor (Z.shiftl hi 4) lo :: bs)
  | _ => Some []
  end.

(** The length and the bytes. *)
Definition _dpqic_gen_token (token_str : chars) : M (Z * list Z) :=
  ok ← alloc_ok;
  if negb ok then mret (DPE_NOMEM, []) else
  bs ← lift_opt (token_bytes token_str);
  mret (zlen bs, bs).

Definition _dpqic_connect_prep (x : loc) (arg : list Z) (out : dpasc_out) : M (Z * dpasc_out) :=
  sni ← va_str arg 0;
  token ← va_str arg 1;
  cell ← va_int arg 2;
  put_cell cell None;;
  h ← get_head x;
  efd ← lift_opt (udp_efd h);
  tok ← (match token with Some t => r ← _dpqic_gen_token t; mret (Some r) | None => mret None end);
  match tok with
  | Some (r, _) => if r <=? 0 then dpele_del P (Some efd);; mret (Some r) else mret None
  | None => mret None
  end ≫= fun failed =>
  match failed with
  | Some r => mret (r, out)
  | None =>
      p ← lift_opt (engine h);
      e ← get_engine p;
      u ← get_udp efd;
      qconn ← qcall P fuel (lsquic_engine_connect (qe_engine e) x (sa_addr (uc_local u)) (sa_addr (uc_peer u)) sni
                              (match tok with Some (_, bs) => bs | None => [] end));
      match qconn with
      | None => mret (DPE_INVAL, out)
      | Some qconn =>
          ctx ← qask (lsquic_conn_get_ctx qconn);
          put_cell cell ctx;;
          _dpqic_start_process P fuel p;;
          mret (DPE_CONTINUE, out)
      end
  end.

(** ** Taking streams and connections *)

Definition _dpqic_stream_prep (x : loc) (arg : list Z) (out : dpasc_out) : M (Z * dpasc_out) :=
  stm ← va_int arg 0;
  new ← va_int arg 1;
  d ← get_conect x;
  if conn d =? 0 then mret (DPE_PERM, out) else
  put_cell stm None;;
  if negb (new =? 0) then
    put_aux x (QConect (Conect (conn_next d) (conn d) stm (ready_stm_head d) (ready_stm_tail d)));;
    qcall_do P fuel (lsquic_conn_make_stream (conn d));;
    d ← get_conect x;
    mret (if out_stm d =? 0 then DPE_OK else DPE_CONTINUE, out)
  else match ready_stm_head d with
       | None =>
           put_aux x (QConect (Conect (conn_next d) (conn d) stm None (ready_stm_tail d)));; mret (DPE_CONTINUE, out)
       | Some s =>
           put_cell stm (Some s);;
           n ← _dpqic_ready_next s;
           put_aux x (QConect (Conect (conn_next d) (conn d) (out_stm d) n
             (match n with None => None | Some _ => ready_stm_tail d end)));;
           mret (DPE_OK, out)
       end.

Definition _dpqic_accept_prep (x : loc) (arg : list Z) (out : dpasc_out) : M (Z * dpasc_out) :=
  conn ← va_int arg 0;
  d ← get_listen x;
  match ready_conn_head d with
  | None => put_aux x (QListen (Listen (lsn_head d) conn None (ready_conn_tail d)));; mret (DPE_CONTINUE, out)
  | Some c =>
      put_cell conn (Some c);;
      n ← _dpqic_ready_next c;
      put_aux x (QListen (Listen (lsn_head d) (out_conn d) n (match n with None => None | Some _ => ready_conn_tail d end)));;
      mret (DPE_OK, out)
  end.

(** ** Data of a stream *)

(** [DPQIC_PREP_CHECK_RECV_STREAM] and [DPQIC_PREP_CHECK_SEND_STREAM]: an error, or
    the stream. *)
Definition DPQIC_PREP_CHECK_RECV_STREAM (x : loc) : M (Z + Z) :=
  u ← get_stream x;
  mret (if stream u =? 0 then inl DPE_CLOSED else if negb (is_owner u) then inl DPE_PERM else inr (stream u)).
Definition DPQIC_PREP_CHECK_SEND_STREAM (x : loc) : M (Z + Z) :=
  u ← get_stream x;
  mret (if stream u =? 0 then inl DPE_CLOSED
        else if is_owner u && bool_decide (is_Some (avatar u)) then inl DPE_PERM else inr (stream u)).

(** The engine of a connection: that of the element that its packets go through. *)
Definition _dpqic_conect_engine (c : Z) : M loc :=
  x ← qask (lsquic_conn_get_peer_ctx c);
  x ← lift_opt x;
  h ← get_head x;
  lift_opt (engine h).

(** [_dpqic_start_process] of the engine of a stream. *)
Definition stream_engine (s : Z) : M loc := c ← qask (lsquic_stream_conn s); _dpqic_conect_engine c.

(** The buffer and the length, kept in the scratch memory; then the checks, what is
    asked of the library, and its engine woken. *)
Definition buf_prep (check : loc -> M (Z + Z)) (want : Z -> E -> E) (x : loc) (arg : list Z) (out : dpasc_out)
    : M (Z * dpasc_out) :=
  buf ← va_int arg 0;
  len ← va_int arg 1;
  set_data_word x out 0 buf;;
  set_data_word x out 1 len;;
  if (buf =? 0) || (len <=? 0) then mret (DPE_INVAL, out) else
  r ← check x;
  match r with
  | inl e => mret (e, out)
  | inr s =>
      qlib_do (want s);;
      p ← stream_engine s;
      _dpqic_start_process P fuel p;;
      mret (DPE_CONTINUE, out)
  end.

(** The same for header sets, which need an HTTP engine. *)
Definition ptr_prep (check : loc -> M (Z + Z)) (want : Z -> E -> E) (x : loc) (arg : list Z) (out : dpasc_out)
    : M (Z * dpasc_out) :=
  ptr ← va_int arg 0;
  set_data_word x out 0 ptr;;
  if ptr =? 0 then mret (DPE_INVAL, out) else
  r ← check x;
  match r with
  | inl e => mret (e, out)
  | inr s =>
      p ← stream_engine s;
      e ← get_engine p;
      if negb (qe_http e) then mret (DPE_PERM, out) else
      qlib_do (want s);;
      _dpqic_start_process P fuel p;;
      mret (DPE_CONTINUE, out)
  end.

Definition want_read (s : Z) : E -> E := lsquic_stream_wantread s true.
Definition want_write (s : Z) : E -> E := lsquic_stream_wantwrite s true.

(** [io] and the stream, in a [post]. *)
Definition post_stream (x : loc) : M Z := u ← get_stream x; if stream u =? 0 then ub else mret (stream u).
Definition post_io (x : loc) (out : dpasc_out) : M (Z * Z) :=
  d ← data_words x out;
  buf ← lift_opt (znth d.2 0);
  len ← lift_opt (znth d.2 1);
  mret (buf, len).
Definition mem_ptr (a : Z) : M ptr := on_tls (mem_at a).
Definition store_at (p : ptr) (bs : list Z) : M unit := on_tls (on_mem (store_bytes p bs)).
Definition load_at (p : ptr) (n : Z) : M (list Z) := on_tls (on_mem (load_bytes p n)).

(** What a read and a write report. *)
Definition read_ret (n : Z) : Z := if n =? 0 then DPE_EOF else n.
Definition write_ret (s : Z) (n : option Z) (out : dpasc_out) : M (Z * dpasc_out) :=
  match n with
  | Some n => if 0 <? n then qlib_do (lsquic_stream_flush s);; mret (n, out) else mret (if n =? 0 then DPE_WAIT else DPE_BADFD, out)
  | None => mret (DPE_BADFD, out)
  end.

Definition _dpqic_recv_prep := buf_prep DPQIC_PREP_CHECK_RECV_STREAM want_read.
Definition _dpqic_recv_post (x : loc) (out : dpasc_out) : M (Z * dpasc_out) :=
  io ← post_io x out;
  s ← post_stream x;
  r ← qlib (lsquic_stream_read s io.2);
  match r with
  | inl [] => mret (read_ret 0, out)
  | inl bs => p ← mem_ptr io.1; store_at p bs;; mret (read_ret (zlen bs), out)
  | inr e => mret (- e, out)
  end.

Definition _dpqic_send_prep := buf_prep DPQIC_PREP_CHECK_SEND_STREAM want_write.
Definition _dpqic_send_post (x : loc) (out : dpasc_out) : M (Z * dpasc_out) :=
  io ← post_io x out;
  s ← post_stream x;
  p ← mem_ptr io.1;
  bs ← load_at p io.2;
  r ← qlib (lsquic_stream_write s bs);
  write_ret s r out.

(** The first [n] buffers of an array. *)
Definition iovs (a n : Z) : M (list (Z * Z)) :=
  v ← getq (fun s => k_iovs s !! a);
  v ← lift_opt v;
  if (n <? 0) || (zlen v <? n) then ub else mret (ztake n v).
(** Bytes into buffers, in their order. *)
Fixpoint scatter (v : list (Z * Z)) (bs : list Z) : M unit :=
  match bs, v with
  | [], _ => mret tt
  | _, [] => ub
  | _, (base, len) :: v =>
      (if 0 <? len then p ← mem_ptr base; store_at p (ztake len bs) else mret tt);; scatter v (zdrop len bs)
  end.
Fixpoint gather (v : list (Z * Z)) : M (list (list Z)) :=
  match v with
  | [] => mret []
  | (base, len) :: v =>
      bs ← (if 0 <? len then p ← mem_ptr base; load_at p len else mret []);
      l ← gather v;
      mret (bs :: l)
  end.

Definition _dpqic_recvv_prep := buf_prep DPQIC_PREP_CHECK_RECV_STREAM want_read.
Definition _dpqic_recvv_post (x : loc) (out : dpasc_out) : M (Z * dpasc_out) :=
  io ← post_io x out;
  s ← post_stream x;
  v ← iovs io.1 io.2;
  r ← qlib (lsquic_stream_readv s (map snd v));
  match r with
  | inl bs => scatter v bs;; mret (read_ret (zlen bs), out)
  | inr e => mret (- e, out)
  end.

Definition _dpqic_sendv_prep := buf_prep DPQIC_PREP_CHECK_SEND_STREAM want_write.
Definition _dpqic_sendv_post (x : loc) (out : dpasc_out) : M (Z * dpasc_out) :=
  io ← post_io x out;
  s ← post_stream x;
  v ← iovs io.1 io.2;
  l ← gather v;
  r ← qlib (lsquic_stream_writev s l);
  write_ret s r out.

Definition _dpqic_recv_hdrset_prep := ptr_prep DPQIC_PREP_CHECK_RECV_STREAM want_read.
Definition _dpqic_recv_hdrset_post (x : loc) (out : dpasc_out) : M (Z * dpasc_out) :=
  io ← post_io x out;
  s ← post_stream x;
  r ← qlib (lsquic_stream_get_hset s);
  match r with
  | inl h => put_cell io.1 (Some h);; mret (DPE_OK, out)
  | inr e => mret (- e, out)
  end.

Definition _dpqic_send_hdrset_prep := ptr_prep DPQIC_PREP_CHECK_SEND_STREAM want_write.
Definition _dpqic_send_hdrset_post (x : loc) (out : dpasc_out) : M (Z * dpasc_out) :=
  io ← post_io x out;
  s ← post_stream x;
  h ← lift_opt (ele_at io.1);
  r ← qlib (lsquic_stream_send_headers s h);
  mret (match r with None => DPE_OK | Some e => - e end, out).

(** ** Packets *)

Definition MTU_SIZE : Z := 2048.

Definition set_slot (n : Z) (v : Z * Z) : M unit :=
  l ← getq k_in; upd_qic (set_in (<[Z.to_nat n := v]> l)).

(** The packets [n], [n + 1], ... of one [recvmmsg], up to one that is refused, whose
    slots behind it are not reset; how many the library took. *)
Fixpoint packets_in (qele eng efd : loc) (l : list dgram) (n count : Z) : M Z :=
  match l with
  | [] => mret count
  | d :: l =>
      u ← get_udp efd;
      r ← lift_opt (_parse_contorl_msg (dg_control d) (dg_controllen d) (Received (sa_addr (uc_local u)) 0 0));
      e ← get_engine eng;
      ok ← qcall P fuel (lsquic_engine_packet_in (qe_engine e) (ztake MTU_SIZE (dg_data d)) (r_storage r) (dg_peer d) qele (r_ecn r));
      set_slot n _dpqic_reset_in_storage;;
      if ok : bool then packets_in qele eng efd l (n + 1) (count + 1) else mret count
  end.

(** The slots as [recvmmsg] leaves them. *)
Fixpoint fill_slots (n : Z) (l : list dgram) : M unit :=
  match l with
  | [] => mret tt
  | d :: l => set_slot n (zlen (dg_peer d), dg_controllen d);; fill_slots (n + 1) l
  end.

(** Until the socket has no more; [n] bounds the calls.  The code a refused packet
    leaves is overwritten by the next call. *)
Fixpoint recv_loop (n : nat) (qele eng efd : loc) (count : Z) : M (Z * Z) :=
  fd ← dpefd_fd efd;
  slots ← getq k_in;
  r ← qlib (recvmmsg fd slots);
  match r with
  | inr e => mret (- e, count)
  | inl [] => mret (DPE_WAIT, count)
  | inl l =>
      match n with
      | O => ub
      | S n => fill_slots 0 l;; count ← packets_in qele eng efd l 0 count; recv_loop n qele eng efd count
      end
  end.

Definition _dpqic_cb_recv_packets (qele : loc) : M Z :=
  h ← get_head qele;
  efd ← lift_opt (udp_efd h);
  eng ← lift_opt (engine h);
  r ← recv_loop fuel qele eng efd 0;
  (if negb (r.2 =? 0) then _dpqic_process_conns P fuel eng else mret tt);;
  mret r.1.

Definition _dpqic_ioevent_prep (x : loc) (arg : list Z) (out : dpasc_out) : M (Z * dpasc_out) :=
  qele ← va_int arg 0;
  set_data_word x out 0 qele;;
  mret (DPE_CONTINUE, Out DPEVT_AIO (o_inva out) (o_able out) (o_data out)).

(** What was waiting to be sent, while the socket takes it. *)
Definition send_unsent (p : loc) : M bool :=
  e ← get_engine p;
  more ← qask (lsquic_engine_has_unsent_packets (qe_engine e));
  (if more : bool then qcall_do P fuel (lsquic_engine_send_unsent_packets (qe_engine e)) else mret tt);;
  more ← qask (lsquic_engine_has_unsent_packets (qe_engine e));
  mret (negb more).

Definition add_inva (ev : Z) (out : dpasc_out) : dpasc_out := Out (o_want out) (Z.lor (o_inva out) ev) (o_able out) (o_data out).

Definition _dpqic_ioevent_post (x : loc) (out : dpasc_out) : M (Z * dpasc_out) :=
  let evs := o_able out in
  d ← data_words x out;
  q ← lift_opt (znth d.2 0);
  qele ← lift_opt (ele_at q);
  r ← (if has_flag evs DPEVT_IN then ret ← _dpqic_cb_recv_packets qele; mret (ret, add_inva DPEVT_IN out)
       else mret (DPE_WAIT, out));
  let '(ret, out) := r in
  h ← get_head qele;
  let w := has_flag evs DPEVT_OUT || writable h in
  put_head qele (EfdHead (udp_efd h) (engine h) w);;
  out ← (if w then
           p ← lift_opt (engine h);
           w ← send_unsent p;
           h ← get_head qele;
           put_head qele (EfdHead (udp_efd h) (engine h) w);;
           mret (add_inva DPEVT_OUT out)
         else mret out);
  doing ← dpele_is_doing qele;
  (if doing && dpret_iserr ret && negb (ret =? DPE_WAIT) then _ ← dpevp_end qele ret; mret tt else mret tt);;
  mret (ret, out).

(** ** Contexts and handles *)

Definition _dpqic_cb_get_ssl_ctx (peer_ctx : loc) : M (option Z) :=
  h ← get_head peer_ctx;
  p ← lift_opt (engine h);
  e ← get_engine p;
  on_tls (dpssl_get_ctx (Some (qe_group e)) None).

Definition _dpqic_cb_lookup_cert (cert_lu_ctx : loc) (sni : option chars) : M (option Z) :=
  e ← get_engine cert_lu_ctx;
  on_tls (dpssl_get_ctx (Some (qe_group e)) (Some (default [] sni))).

Definition dpqic_original_stream (x : option loc) : M Z :=
  match x with
  | None => mret 0
  | Some x => e ← get_ele x; if ty_id (e_type e) =? ty_id dpqic_stream_type then u ← get_stream x; mret (stream u) else mret 0
  end.
Definition dpqic_original_conn (x : option loc) : M Z :=
  match x with
  | None => mret 0
  | Some x => e ← get_ele x; if ty_id (e_type e) =? ty_id dpqic_conect_type then u ← get_conect x; mret (conn u) else mret 0
  end.

(** ** Descriptors of the operations *)

Definition DPASC_QIC_FUNCTION (prep : loc -> list Z -> dpasc_out -> M (Z * dpasc_out))
    (post : option (loc -> dpasc_out -> M (Z * dpasc_out))) (sz fl : Z) : dpasc (qic E) :=
  Asc prep post (Z.shiftl 1 (type_index DPELE_TYPE_USD)) (Z.shiftl 1 DPAIO_TYPE_QIC) sz fl.

Definition dpqic_connect := DPASC_QIC_FUNCTION _dpqic_connect_prep None 0 0.
Definition dpqic_stream := DPASC_QIC_FUNCTION _dpqic_stream_prep None 0 0.
Definition dpqic_accept := DPASC_QIC_FUNCTION _dpqic_accept_prep None 0 0.
Definition dpqic_recv := DPASC_QIC_FUNCTION _dpqic_recv_prep (Some _dpqic_recv_post) 24 0.
Definition dpqic_send := DPASC_QIC_FUNCTION _dpqic_send_prep (Some _dpqic_send_post) 24 0.
Definition dpqic_recvv := DPASC_QIC_FUNCTION _dpqic_recvv_prep (Some _dpqic_recvv_post) 24 0.
Definition dpqic_sendv := DPASC_QIC_FUNCTION _dpqic_sendv_prep (Some _dpqic_sendv_post) 24 0.
Definition dpqic_recv_hdrset := DPASC_QIC_FUNCTION _dpqic_recv_hdrset_prep (Some _dpqic_recv_hdrset_post) 24 0.
Definition dpqic_send_hdrset := DPASC_QIC_FUNCTION _dpqic_send_hdrset_prep (Some _dpqic_send_hdrset_post) 24 0.
Definition dpskt_qic_ioevent : dpasc (qic E) :=
  Asc _dpqic_ioevent_prep (Some _dpqic_ioevent_post) (Z.shiftl 1 (type_index DPELE_TYPE_EFD)) (Z.shiftl 1 DPAIO_TYPE_SKT) 8 0.
End QicOps.

(** ** The program *)

Section Program.
Context {E : Type} `{Ssl E, Lsq E, Sys E, FdAlloc, NetLib}.

(** A timer's callback; the only one that is not the user's is the engines'. *)
Definition run_callback (P : program (qic E)) (fuel : nat) (user : Z -> loc -> Z -> ST (world (qic E)) unit)
    (cb : Z) (tmr : loc) (arg : Z) : ST (world (qic E)) unit :=
  if cb =? _dpqic_cb_timeout_addr then _dpqic_cb_timeout P fuel tmr arg else user cb tmr arg.

(** No level is left: whatever would be run is undefined. *)
Definition no_program : program (qic E) :=
  Program (fun _ => Some (Asc (fun _ _ _ => ub) (Some (fun _ _ => ub)) (-1) 0 0 0))
    (fun _ => Some (fun _ _ => ub)) (fun _ => Some (fun _ _ => ub)) (fun _ => Some (fun _ => ub)).

Definition qic_asc (P : program (qic E)) (fuel : nat) (user : Z -> loc -> Z -> ST (world (qic E)) unit) (n : Z)
    : option (dpasc (qic E)) :=
  if n =? dptmr_callback_no then Some (dptmr_callback (run_callback P fuel user))
  else if n =? 50 then Some (dpqic_connect P fuel)
  else if n =? 51 then Some (dpqic_stream P fuel)
  else if n =? 52 then Some dpqic_accept
  else if n =? 53 then Some (dpqic_recv P fuel)
  else if n =? 54 then Some (dpqic_send P fuel)
  else if n =? 55 then Some (dpqic_recvv P fuel)
  else if n =? 56 then Some (dpqic_sendv P fuel)
  else if n =? 57 then Some (dpqic_recv_hdrset P fuel)
  else if n =? 58 then Some (dpqic_send_hdrset P fuel)
  else if n =? dpskt_qic_ioevent_no then Some (dpskt_qic_ioevent P fuel)
  else None.

Definition qic_init (P : program (qic E)) (fuel : nat) (n : Z) : option (loc -> list Z -> ST (world (qic E)) Z) :=
  if n =? ty_id dpudp_client_type then Some udp_client_init
  else if n =? ty_id dpudp_server_type then Some udp_server_init
  else if n =? ty_id dpqic_listen_type then Some (_dpqic_listen_vopen P fuel)
  else if n =? ty_id dpqic_client_type then Some (_dpqic_client_vopen P fuel)
  else if n =? ty_id dpqic_conect_type then Some _dpqic_conect_vinit
  else if n =? ty_id dpqic_stream_type then Some _dpqic_stream_vinit
  else None.

Definition qic_copy (n : Z) : option (loc -> loc -> ST (world (qic E)) Z) :=
  if n =? ty_id dpqic_stream_type then Some _dpqic_stream_copy else None.

Definition qic_fini (P : program (qic E)) (fuel : nat) (n : Z) : option (loc -> ST (world (qic E)) unit) :=
  if n =? ty_id dpqic_listen_type then Some (_dpqic_listen_clean P fuel)
  else if n =? ty_id dpqic_client_type then Some (_dpqic_client_clean P)
  else if n =? ty_id dpqic_conect_type then Some (_dpqic_conect_clean P fuel)
  else if n =? ty_id dpqic_stream_type then Some (_dpqic_stream_clean P fuel)
  else None.

Fixpoint qic_program (fuel : nat) (user : Z -> loc -> Z -> ST (world (qic E)) unit) (level : nat) : program (qic E) :=
  match level with
  | O => no_program
  | S level =>
      let P := qic_program fuel user level in
      Program (qic_asc P fuel user) (qic_init P fuel) qic_copy (qic_fini P fuel)
  end.
End Program.
