(* ===== verification/QicLogic.v ===== *)
(** * Reasoning about the QUIC state

    Rules of [wp] for the accesses of [Qic], and the tactic [qic_step]. *)

From S2P Require Import Prelude Chars Dpret Dpbuf Ele Tmrset World WorldLogic Evp Dpssl DpsslIo Kern Sockets Qic QicOps.

#[local] Set Default Proof Using "Type*".

Lemma mapM_same {A B} (f g : A -> option B) l : Forall (fun x => f x = g x) l -> mapM f l = mapM g l.
Proof. induction 1 as [|x l Hx _ IH]; [done|]. cbn. by rewrite Hx, IH. Qed.
Lemma mapM_snoc {A B} (f : A -> option B) l x ys y :
  mapM f l = Some ys -> f x = Some y -> mapM f (l ++ [x]) = Some (ys ++ [y]).
Proof.
  revert ys. induction l as [|z l IH]; cbn; intros ys Hl Hx; [injection Hl as <-; by rewrite Hx|].
  destruct (f z) as [b|]; [|done]. cbn in *. destruct (mapM f l) as [bs|]; [|done]. simplify_eq/=.
  injection Hl as <-. by rewrite (IH bs eq_refl Hx).
Qed.

(** The world with another state of the libraries. *)
Definition with_qic {E} (s : qic E) (w : world (qic E)) : world (qic E) :=
  World (w_eles w) (w_next w) (w_oom w) (w_race w) (w_nodes w) (w_set w) (w_self w) s.
Definition set_lib {E} (x : E) (s : qic E) : qic E := set_tls (with_lib (s_log (k_tls s)) x (k_tls s)) s.
Definition lib_of {E} (w : world (qic E)) : E := s_ext (k_tls (w_ext w)).

Section Rules.
Context {E : Type} `{Ssl E, Lsq E, Sys E}.
Abbreviation M := (ST (world (qic E))).

Lemma wp_getq {A} (f : qic E -> A) w (Q : A -> world (qic E) -> Prop) : Q (f (w_ext w)) w -> wp (getq f) w Q.
Proof using Type. done. Qed.

Lemma wp_upd_qic f w (Q : unit -> world (qic E) -> Prop) : Q tt (with_qic (f (w_ext w)) w) -> wp (upd_qic f) w Q.
Proof using Type. done. Qed.

Lemma wp_lift {S A} (o : option A) (a : A) (s : S) (Q : A -> S -> Prop) : o = Some a -> Q a s -> wp (lift_opt o) s Q.
Proof using Type. by intros ->. Qed.

Lemma wp_qlib {A} (f : E -> A * E) w (Q : A -> world (qic E) -> Prop) :
  Q (f (lib_of w)).1 (with_qic (set_lib (f (lib_of w)).2 (w_ext w)) w) -> wp (qlib f) w Q.
Proof using Type.
  intros HQ. unfold qlib, on_tls. apply wp_bind, wp_getq. unfold lib. unfold lib_of, set_lib in HQ.
  destruct (f (s_ext (k_tls (w_ext w)))) as [a x]. exact HQ.
Qed.

Lemma wp_qlib_do (f : E -> E) w (Q : unit -> world (qic E) -> Prop) :
  Q tt (with_qic (set_lib (f (lib_of w)) (w_ext w)) w) -> wp (qlib_do f) w Q.
Proof using Type. done. Qed.

Lemma wp_qask {A} (f : E -> A) w (Q : A -> world (qic E) -> Prop) : Q (f (lib_of w)) w -> wp (qask f) w Q.
Proof using Type. done. Qed.

Lemma wp_get_engine p e w (Q : dpqic_engine -> world (qic E) -> Prop) :
  k_engines (w_ext w) !! p = Some e -> Q e w -> wp (get_engine p) w Q.
Proof using Type. intros Hp HQ. unfold get_engine. apply wp_bind, wp_getq. by eapply wp_lift. Qed.

(** An element and its data. *)
Definition aux_at (w : world (qic E)) (x : loc) (a : qaux) : Prop :=
  is_Some (w_eles w !! x) /\ k_aux (w_ext w) !! x = Some a.

Lemma wp_get_aux x a w (Q : qaux -> world (qic E) -> Prop) : aux_at w x a -> Q a w -> wp (get_aux x) w Q.
Proof using Type.
  intros [[e He] Ha] HQ. unfold get_aux. apply wp_bind. eapply wp_get_ele; [done|]. apply wp_bind, wp_getq.
  by eapply wp_lift.
Qed.
Lemma wp_get_listen x d w (Q : listen_data -> world (qic E) -> Prop) :
  aux_at w x (QListen d) -> Q d w -> wp (get_listen x) w Q.
Proof using Type. intros Ha HQ. unfold get_listen. apply wp_bind. by eapply wp_get_aux. Qed.
Lemma wp_get_conect x d w (Q : conect_data -> world (qic E) -> Prop) :
  aux_at w x (QConect d) -> Q d w -> wp (get_conect x) w Q.
Proof using Type. intros Ha HQ. unfold get_conect. apply wp_bind. by eapply wp_get_aux. Qed.
Lemma wp_get_stream x d w (Q : stream_data -> world (qic E) -> Prop) :
  aux_at w x (QStream d) -> Q d w -> wp (get_stream x) w Q.
Proof using Type. intros Ha HQ. unfold get_stream. apply wp_bind. by eapply wp_get_aux. Qed.

Definition head_of (a : qaux) : option efd_head :=
  match a with QListen d => Some (lsn_head d) | QClient h => Some h | _ => None end.
Lemma wp_get_head x a h w (Q : efd_head -> world (qic E) -> Prop) :
  aux_at w x a -> head_of a = Some h -> Q h w -> wp (get_head x) w Q.
Proof using Type.
  intros Ha Hh HQ. unfold get_head. apply wp_bind. eapply wp_get_aux; [done|]. destruct a; simplify_eq/=; by apply wp_ret.
Qed.

Lemma wp_put_aux x a w (Q : unit -> world (qic E) -> Prop) :
  Q tt (with_qic (set_auxs <[x := a]> (w_ext w)) w) -> wp (put_aux x a) w Q.
Proof using Type. done. Qed.

Lemma wp_put_cell p v w (Q : unit -> world (qic E) -> Prop) :
  is_Some (k_cells (w_ext w) !! p) -> Q tt (with_qic (set_cells <[p := v]> (w_ext w)) w) -> wp (put_cell p v) w Q.
Proof using Type.
  intros [c Hc] HQ. unfold put_cell. apply wp_bind, wp_getq, wp_bind. eapply wp_lift; [done|]. by apply wp_upd_qic.
Qed.

End Rules.

(** ** Elements of the user's kind in the loop *)

Section Usd.
Context {E : Type} `{Sys E}.

Lemma set_timer_same v : set_timer (v_timer v) v = v.
Proof. by destruct v. Qed.

(** Nothing is timed: the timers of the loop stay. *)
Lemma wp_timer_remove_idle n x e v (w : world E) (Q : unit -> world E -> Prop) :
  w_eles w !! x = Some e -> e_timing e = false -> w_nodes w !! n = Some v -> Q tt w -> wp (timer_remove n x) w Q.
Proof.
  intros He Ht Hn HQ. unfold timer_remove. apply wp_bind. eapply wp_get_node; [done|]. apply wp_bind.
  unfold wp at 1, on_eles, _dptmrset_remove, mbind, ST_bind, ele_get. rewrite He, Ht. cbn.
  eapply wp_upd_node; [done|]. rewrite set_timer_same. unfold with_nodes, with_eles. cbn. rewrite insert_id by done. by destruct w.
Qed.
Lemma wp_timer_upsert_idle n x e v (w : world E) (Q : Z -> world E -> Prop) :
  w_eles w !! x = Some e -> e_tmr e = None -> w_nodes w !! n = Some v ->
  Q DPE_INVAL (World (w_eles w) (w_next w) (w_oom w) (w_race w) (w_nodes w) (w_set w) (w_self w) (millis (w_ext w)).2) ->
  wp (timer_upsert n x) w Q.
Proof.
  intros He Ht Hn HQ. unfold timer_upsert. apply wp_bind, wp_sys, wp_bind. eapply wp_get_node; [done|]. apply wp_bind.
  unfold wp at 1, on_eles, _dptmrset_upsert, mbind, ST_bind, ele_get. cbn [w_eles]. rewrite He, Ht. cbn [mret ST_ret fst snd].
  apply wp_bind. eapply wp_upd_node; [done|]. rewrite set_timer_same. apply wp_ret.
  unfold with_nodes, with_eles. cbn. by rewrite insert_id.
Qed.

(** Ending an operation of an element that is in no queue. *)
Lemma wp_end_usd x ret e v n (w : world E) (Q : Z -> world E -> Prop) :
  w_eles w !! x = Some e -> ty_type (e_type e) = DPELE_TYPE_USD -> is_Some (e_asc e) -> e_timing e = false ->
  w_self w = Some n -> w_nodes w !! n = Some v -> unqueued x w ->
  Q DPE_OK (with_nodes <[n := q_set QReady (v_ready v ++ [x]) v]> (with_eles <[x := set_ret e ret]> w)) ->
  wp (dpevp_end x ret) w Q.
Proof.
  intros He Hty Ha Ht Hs Hn Hu HQ. unfold dpevp_end, dpele_is_doing. apply wp_bind, wp_bind. eapply wp_get_ele; [done|]. apply wp_ret.
  rewrite bool_decide_true by done. cbn [negb]. apply wp_bind. eapply wp_self_id; [done|]. apply wp_bind. eapply wp_get_ele; [done|].
  unfold ele_is. rewrite Hty. cbn [bool_decide andb]. rewrite bool_decide_false by done. cbn [andb].
  apply wp_bind. eapply wp_timer_remove_idle; [done..|]. apply wp_bind, wp_bind. unfold dpele_set_ret.
  eapply wp_upd_ele; [done|]. eapply wp_q_push; [cbn; by rewrite lookup_insert_eq|exact Hn|done|]. by apply wp_ret.
Qed.
End Usd.
