(* ===== verification/QicCases.v ===== *)
(** * QUIC: cases

    A library that does as it is told ([lq_script] says which callbacks each call
    makes) and what [dpqic.c] does with it where an owner, a pointer of the caller
    or the end of an operation matters. *)

From S2P Require Import Prelude Chars Dpret Dplog Dpbuf Ele Tmrset World WorldLogic Evp Dpssl DpsslIo Kern Sockets SktFacts Qic QicOps.

(** ** A library *)

Record lq := Lq {
  lq_cbs : list lsq_cb;
  lq_script : list (list lsq_cb);
  lq_peer : option loc; (* the element of every connection's packets *)
  lq_conn : gmap Z (option loc); (* contexts *)
  lq_stm : gmap Z (option loc);
  lq_want : gmap (Z * bool) bool; (* whether to call for reading, for writing *)
  lq_reads : list (list Z + Z);
  lq_dgrams : list (list dgram);
  lq_refuse : list bool; (* what [packet_in] answers *)
  lq_slots : list (list (Z * Z)); (* what [recvmmsg] was given, newest first *)
  lq_sent : list (list mmsg); (* newest first *)
  lq_room : list Z; (* how many packets each [sendmmsg] takes *)
  lq_count : Z; (* packets taken, as reported *)
  lq_init : list bool;
  lq_cleanups : Z;
  lq_millis : Z;
}.

Definition ex_lq : lq := Lq [] [] None ∅ ∅ ∅ [] [] [] [] [] [] 0 [] 0 0.

Definition lq_call (l : lq) : lq :=
  match lq_script l with
  | [] => l
  | cbs :: script =>
      Lq (lq_cbs l ++ cbs) script (lq_peer l) (lq_conn l) (lq_stm l) (lq_want l) (lq_reads l) (lq_dgrams l) (lq_refuse l) (lq_slots l)
        (lq_sent l) (lq_room l) (lq_count l) (lq_init l) (lq_cleanups l) (lq_millis l)
  end.
Definition lq_set_conn (c : Z) (x : option loc) (l : lq) : lq :=
  Lq (lq_cbs l) (lq_script l) (lq_peer l) (<[c := x]> (lq_conn l)) (lq_stm l) (lq_want l) (lq_reads l) (lq_dgrams l) (lq_refuse l) (lq_slots l)
    (lq_sent l) (lq_room l) (lq_count l) (lq_init l) (lq_cleanups l) (lq_millis l).
Definition lq_set_stm (s : Z) (x : option loc) (l : lq) : lq :=
  Lq (lq_cbs l) (lq_script l) (lq_peer l) (lq_conn l) (<[s := x]> (lq_stm l)) (lq_want l) (lq_reads l) (lq_dgrams l) (lq_refuse l) (lq_slots l)
    (lq_sent l) (lq_room l) (lq_count l) (lq_init l) (lq_cleanups l) (lq_millis l).
Definition lq_set_want (s : Z) (w on : bool) (l : lq) : lq :=
  Lq (lq_cbs l) (lq_script l) (lq_peer l) (lq_conn l) (lq_stm l) (<[(s, w) := on]> (lq_want l)) (lq_reads l) (lq_dgrams l) (lq_refuse l) (lq_slots l)
    (lq_sent l) (lq_room l) (lq_count l) (lq_init l) (lq_cleanups l) (lq_millis l).
Definition lq_pop_cb (l : lq) : option lsq_cb * lq :=
  (head (lq_cbs l),
   Lq (tail (lq_cbs l)) (lq_script l) (lq_peer l) (lq_conn l) (lq_stm l) (lq_want l) (lq_reads l) (lq_dgrams l) (lq_refuse l) (lq_slots l)
     (lq_sent l) (lq_room l) (lq_count l) (lq_init l) (lq_cleanups l) (lq_millis l)).
Definition lq_pop_read (l : lq) : (list Z + Z) * lq :=
  (default (inr 11) (head (lq_reads l)),
   Lq (lq_cbs l) (lq_script l) (lq_peer l) (lq_conn l) (lq_stm l) (lq_want l) (tail (lq_reads l)) (lq_dgrams l) (lq_refuse l) (lq_slots l)
     (lq_sent l) (lq_room l) (lq_count l) (lq_init l) (lq_cleanups l) (lq_millis l)).
Definition lq_pop_init (l : lq) : bool * lq :=
  (default true (head (lq_init l)),
   Lq (lq_cbs l) (lq_script l) (lq_peer l) (lq_conn l) (lq_stm l) (lq_want l) (lq_reads l) (lq_dgrams l) (lq_refuse l) (lq_slots l)
     (lq_sent l) (lq_room l) (lq_count l) (tail (lq_init l)) (lq_cleanups l) (lq_millis l)).
Definition lq_cleanup (l : lq) : lq :=
  Lq (lq_cbs l) (lq_script l) (lq_peer l) (lq_conn l) (lq_stm l) (lq_want l) (lq_reads l) (lq_dgrams l) (lq_refuse l) (lq_slots l)
    (lq_sent l) (lq_room l) (lq_count l) (lq_init l) (lq_cleanups l + 1) (lq_millis l).
Definition lq_packet_in (l : lq) : bool * lq :=
  (default true (head (lq_refuse l)),
   Lq (lq_cbs l) (lq_script l) (lq_peer l) (lq_conn l) (lq_stm l) (lq_want l) (lq_reads l) (lq_dgrams l) (tail (lq_refuse l)) (lq_slots l)
     (lq_sent l) (lq_room l) (lq_count l) (lq_init l) (lq_cleanups l) (lq_millis l)).
Definition lq_recvmmsg (slots : list (Z * Z)) (l : lq) : (list dgram + Z) * lq :=
  (match lq_dgrams l with [] => inr 11 | ds :: _ => inl ds end,
   Lq (lq_cbs l) (lq_script l) (lq_peer l) (lq_conn l) (lq_stm l) (lq_want l) (lq_reads l) (tail (lq_dgrams l)) (lq_refuse l) (slots :: lq_slots l)
     (lq_sent l) (lq_room l) (lq_count l) (lq_init l) (lq_cleanups l) (lq_millis l)).
Definition lq_sendmmsg (ms : list mmsg) (l : lq) : (Z + Z) * lq :=
  let n := Z.min (zlen ms) (default 1000 (head (lq_room l))) in
  (inl n,
   Lq (lq_cbs l) (lq_script l) (lq_peer l) (lq_conn l) (lq_stm l) (lq_want l) (lq_reads l) (lq_dgrams l) (lq_refuse l) (lq_slots l)
     (ztake n ms :: lq_sent l) (tail (lq_room l)) (lq_count l) (lq_init l) (lq_cleanups l) (lq_millis l)).
Definition lq_returned (n : Z) (l : lq) : lq :=
  Lq (lq_cbs l) (lq_script l) (lq_peer l) (lq_conn l) (lq_stm l) (lq_want l) (lq_reads l) (lq_dgrams l) (lq_refuse l) (lq_slots l)
    (lq_sent l) (lq_room l) (lq_count l + n) (lq_init l) (lq_cleanups l) (lq_millis l).

(** [peer]: the element that the packets of a connection go through. *)
Definition lq_with (peer : lq -> option loc) : Lsq lq := {|
  lsquic_global_init := lq_pop_init;
  lsquic_global_cleanup := lq_cleanup;
  lsquic_engine_check_settings _ _ _ _ := true;
  lsquic_engine_new _ _ _ _ _ l := (Some 500, l);
  lsquic_engine_destroy _ := lq_call;
  lsquic_get_h3_alpns _ _ := [];
  lsquic_engine_connect _ _ _ _ _ _ l := (Some 600, lq_call l);
  lsquic_engine_process_conns _ := lq_call;
  lsquic_engine_earliest_adv_tick _ _ := None;
  lsquic_engine_packet_in _ _ _ _ _ _ := lq_packet_in;
  lsquic_engine_has_unsent_packets _ _ := false;
  lsquic_engine_send_unsent_packets _ := lq_call;
  lsquic_conn_get_ctx c l := default None (lq_conn l !! c);
  lsquic_conn_set_ctx := lq_set_conn;
  lsquic_conn_get_peer_ctx _ := peer;
  lsquic_conn_make_stream _ := lq_call;
  lsquic_conn_close _ := lq_call;
  lsquic_stream_conn _ _ := 600;
  lsquic_stream_set_ctx := lq_set_stm;
  lsquic_stream_is_pushed _ _ := false;
  lsquic_stream_refuse_push _ l := l;
  lsquic_stream_close _ := lq_call;
  lsquic_stream_wantread s on := lq_set_want s false on;
  lsquic_stream_wantwrite s on := lq_set_want s true on;
  lsquic_stream_read _ _ := lq_pop_read;
  lsquic_stream_readv _ _ := lq_pop_read;
  lsquic_stream_write _ bs l := (Some (zlen bs), l);
  lsquic_stream_writev _ v l := (Some (zlen (concat v)), l);
  lsquic_stream_flush _ l := l;
  lsquic_stream_get_hset _ l := (inr 11, l);
  lsquic_stream_send_headers _ _ l := (None, l);
  next_callback := lq_pop_cb;
  conn_returned := lq_set_conn;
  stream_returned := lq_set_stm;
  packets_returned := lq_returned;
  recvmmsg _ := lq_recvmmsg;
  sendmmsg _ := lq_sendmmsg;
|}.
#[export] Instance lq_lsq : Lsq lq := lq_with lq_peer.

#[export] Instance lq_ssl : Ssl lq := {|
  SSL_CTX_new _ x := (Some 7, x);
  SSL_CTX_set_min_proto_version _ _ x := x;
  SSL_CTX_set_max_proto_version _ _ x := x;
  SSL_CTX_get_min_proto_version _ _ := 0x0303;
  SSL_CTX_get_max_proto_version _ _ := 0x0304;
  SSL_CTX_set_default_verify_paths _ x := (true, x);
  SSL_CTX_use_certificate_file _ _ x := (1, x);
  SSL_CTX_use_PrivateKey_file _ _ x := (1, x);
  SSL_CTX_check_private_key _ x := (1, x);
  SSL_CTX_free _ x := x;
  SSL_new _ x := (None, x);
  SSL_free _ x := x;
  BIO_new_socket _ x := (None, x);
  SSL_set_bio _ _ x := x;
  SSL_set_connect_state _ x := x;
  SSL_set_accept_state _ x := x;
  SSL_set_tlsext_host_name _ _ x := x;
  SSL_set_alpn_protos _ _ x := x;
  SSL_set_SSL_CTX _ _ x := x;
  SSL_select_next_proto inp _ := Some inp;
  SSL_is_init_finished _ _ := false;
  SSL_do_handshake _ x := (inr SSL_ERROR_SYSCALL, x);
  SSL_shutdown _ x := (inr SSL_ERROR_SYSCALL, x);
  SSL_read _ _ x := (inr SSL_ERROR_SYSCALL, x);
  SSL_write _ _ x := (inr SSL_ERROR_SYSCALL, x);
  unexpected_eof _ := false;
  ssl_errno _ := 0;
|}.

#[export] Instance lq_sys : Sys lq := {|
  millis l := (lq_millis l, l);
  epoll_create l := (3, l);
  epoll_add _ _ _ _ l := (0, l);
  epoll_mod _ _ _ _ l := (0, l);
  epoll_del _ _ l := (0, l);
  epoll_wait _ _ l := ([], l);
  fcntl_getfl _ l := (0, l);
  fcntl_setfl _ _ l := (0, l);
  sys_close _ l := (0, l);
  sys_dup fd l := (fd + 1, l);
|}.

(** ** A thread with a group *)

Abbreviation M := (ST (world (qic lq))).

Definition FUEL : nat := 40.
Definition ex_prog : program (qic lq) := qic_program FUEL (fun _ _ _ => mret tt) 6.

(** Addresses 50 to 54 hold the strings ["g"], ["localhost"], [""], ["a0F"] and the
    buffer of 8 bytes; 100 and 101 are cells. *)
Definition ex_strings : gmap Z uaddr :=
  list_to_map [(50, AStr (chr "g")); (51, AStr (chr "localhost")); (52, AStr []); (53, AStr (chr "a0F")); (54, AMem (Ptr 900 0))].
Definition ex_bytes : bstore := BStore ∅ ∅ {[ 900%positive := replicate 8 0 ]} 1000 [] (fun _ => 0).
Definition ex_qic (l : lq) : qic lq :=
  Qic ∅ [] 1 false 0 ∅ ∅ {[ 100 := None; 101 := None ]} ∅ (replicate 64 []) [] 0 (fresh_kern [])
    (Tls ∅ [] ex_bytes ∅ ex_strings [] l).
Definition ex_world (l : lq) : world (qic lq) :=
  World ∅ 2000 [] [] (<[1 := ex_node 1]> (<[0 := ex_node 0]> ∅)) (EvpSet 2 2 [[0]; [1]] [1; 1]) (Some 1) (ex_qic l).

(** The group ["g"], for HTTP. *)
Definition add_group (role : Z) : M unit :=
  _ ← dpqic_thrd_init;
  _ ← on_tls (dpssl_add (Some (chr "g")) role 0x0303 0x0304);
  _ ← on_tls (dpssl_add_alpn (Some (chr "g")) (Some (chr "h3")));
  mret tt.
Definition upd_lq (f : lq -> lq) : M unit := on_tls (lib_do f).
Definition set_script (cbs : list (list lsq_cb)) : M unit :=
  upd_lq (fun l => Lq (lq_cbs l) cbs (lq_peer l) (lq_conn l) (lq_stm l) (lq_want l) (lq_reads l) (lq_dgrams l) (lq_refuse l) (lq_slots l)
    (lq_sent l) (lq_room l) (lq_count l) (lq_init l) (lq_cleanups l) (lq_millis l)).
Definition set_peer (x : loc) : M unit :=
  upd_lq (fun l => Lq (lq_cbs l) (lq_script l) (Some x) (lq_conn l) (lq_stm l) (lq_want l) (lq_reads l) (lq_dgrams l) (lq_refuse l) (lq_slots l)
    (lq_sent l) (lq_room l) (lq_count l) (lq_init l) (lq_cleanups l) (lq_millis l)).
Definition set_dgrams (ds : list (list dgram)) (refuse : list bool) : M unit :=
  upd_lq (fun l => Lq (lq_cbs l) (lq_script l) (lq_peer l) (lq_conn l) (lq_stm l) (lq_want l) (lq_reads l) ds refuse (lq_slots l)
    (lq_sent l) (lq_room l) (lq_count l) (lq_init l) (lq_cleanups l) (lq_millis l)).

Definition new_listen : M loc :=
  x ← dpele_new ex_prog (Some dpqic_listen_type) [50; 51; 80]; x ← lift_opt x; set_peer x;; mret x.
Definition new_client : M loc :=
  x ← dpele_new ex_prog (Some dpqic_client_type) [50; 51; 80]; x ← lift_opt x; set_peer x;; mret x.
Definition listening : M loc := add_group DPROLE_SERVER;; new_listen.
Definition cell (a : Z) : M (option loc) := c ← getq (fun s => k_cells s !! a); lift_opt c.

(** ** It works *)

(** A listener accepts the connection that a packet brings; the stream the peer opens
    on it is handed out too. *)
Definition accept_one : M (Z * Z * Z * option loc * option loc) :=
  x ← listening;
  a ← dpevp_add ex_prog FUEL (Some x) (Some 52) [100];
  h ← get_head x;
  efd ← lift_opt (udp_efd h);
  eng ← lift_opt (engine h);
  set_dgrams [[Dgram (ex_in6 9) [1; 2; 3] [] 0]] [];;
  set_script [[CbNewConn eng 600; CbNewStream 700]];;
  _ ← _dpefd_feed ex_prog FUEL efd DPEVT_IN;
  y ← dpevp_pop ex_prog FUEL 0;
  r ← dpele_ret x;
  c ← cell 100;
  c ← lift_opt c;
  b ← dpevp_add ex_prog FUEL (Some c) (Some 51) [101; 0];
  s ← cell 101;
  mret (a, r, b, y, s).
Example accept_hands_out :
  fst <$> accept_one (ex_world ex_lq) = Some (DPE_WAIT, DPE_OK, DPE_WAIT, Some 2000%positive, Some 2004%positive).
Proof. vm_compute. reflexivity. Qed.

(** ** Elements that cannot be made *)

(** A client of a group that does not exist: [_dpqic_client_vopen] fails, and
    [_dpqic_client_clean] counts on the engine it does not have.  A listener is
    refused. *)
Example client_without_group_crashes :
  fst <$> (_ ← dpqic_thrd_init; dpele_new ex_prog (Some dpqic_listen_type) [50; 51; 80]) (ex_world ex_lq) = Some None /\
  (_ ← dpqic_thrd_init; dpele_new ex_prog (Some dpqic_client_type) [50; 51; 80]) (ex_world ex_lq) = None.
Proof. split; vm_compute; reflexivity. Qed.

(** The socket's options cannot be set (the second option of the server): the socket
    is deleted by [_dpqic_listen_vopen] and again by [_dpqic_listen_clean]. *)
Definition kern_answers (l : list Z) : M unit :=
  upd_qic (fun s => set_kern (Kern (k_fds (k_kern s)) (k_files (k_kern s)) l (Kern.k_errno (k_kern s)) (k_sigmask (k_kern s))) s).
Definition listen_answers (l : list Z) : M (option loc) :=
  add_group DPROLE_SERVER;; kern_answers l;; dpele_new ex_prog (Some dpqic_listen_type) [50; 51; 80].
Example listen_setopt_fails_crashes :
  fst <$> listen_answers [98] (ex_world ex_lq) = Some (Some 2000%positive) /\ (* [socket] fails: the next address *)
  listen_answers [0; 0; 0; 0; 92] (ex_world ex_lq) = None.
Proof. split; vm_compute; reflexivity. Qed.

(** ** A token that is not one *)

(** The empty token: [connect] gives up the client's socket and reports success with
    no connection (-11 is [DPE_WAIT]: the result is in the ready queue). *)
Definition connect_with (token : Z) : M (Z * Z * option loc * Z) :=
  add_group DPROLE_CLIENT;;
  x ← new_client;
  h ← get_head x;
  efd ← lift_opt (udp_efd h);
  a ← dpevp_add ex_prog FUEL (Some x) (Some 50) [0; token; 100];
  r ← dpele_ret x;
  c ← cell 100;
  refs ← dpele_refc efd;
  mret (a, r, c, refs).
Example connect_empty_token :
  fst <$> connect_with 53 (ex_world ex_lq) = Some (DPE_WAIT, DPE_INPROGRESS, None, 1) /\
  fst <$> connect_with 52 (ex_world ex_lq) = Some (DPE_WAIT, DPE_OK, None, 0).
Proof. split; vm_compute; reflexivity. Qed.

(** Bytes past 127 are negative indices of the table. *)
Example token_negative_index : c2b 255 = None /\ token_bytes (chr "a0F") = Some [0xA0].
Proof. split; reflexivity. Qed.

(** ** A listener that is gone *)

(** Deleting the listener drops the last reference to its socket, which waits for
    packets: the loop would delete it, but nothing ends the wait.  The socket stays
    open, and the next packet is handled with the listener's freed data. *)
Definition delete_listener : M loc :=
  x ← listening;
  h ← get_head x;
  efd ← lift_opt (udp_efd h);
  dpele_del ex_prog (Some x);;
  mret efd.
Example listener_socket_outlives_it :
  (fun r => (r.1, e_refc <$> w_eles r.2 !! r.1, size (k_fds (k_kern (w_ext r.2))))) <$> delete_listener (ex_world ex_lq) =
    Some (2002%positive, Some 0, 1%nat) /\
  (efd ← delete_listener; _dpefd_feed ex_prog FUEL efd DPEVT_IN) (ex_world ex_lq) = None.
Proof. split; vm_compute; reflexivity. Qed.

(** ** An engine that is gone *)

(** Deleting an engine leaves its timer armed; when it expires the callback is given
    the freed engine. *)
Definition delete_engine : M (Z * list loc) :=
  add_group DPROLE_SERVER;;
  p ← _dpqic_get_engine ex_prog (Some (chr "g")) 0;
  p ← lift_opt p;
  _dpqic_start_process ex_prog FUEL p;;
  n ← dpqic_del_engine ex_prog FUEL None;
  v ← get_node 1;
  mret (n, v_timer v).
Example engine_timer_outlives_it :
  fst <$> delete_engine (ex_world ex_lq) = Some (1, [2000%positive]) /\
  (_ ← delete_engine; dpevp_pop ex_prog FUEL 0) (ex_world ex_lq) = None.
Proof. split; vm_compute; reflexivity. Qed.

(** ** An accept that timed out *)

(** The cell that the next connection is written to is the one of the accept that
    has ended: that connection is in no queue, and if the cell has gone with the
    caller's frame the write is undefined. *)
Definition accept_times_out (gone : bool) : M (option loc * option loc * option loc) :=
  x ← listening;
  _ ← dpevp_add ex_prog FUEL (Some x) (Some 52) [100];
  _ ← dpevp_end x DPE_TIME;
  y ← dpevp_pop ex_prog FUEL 0;
  (if gone then upd_qic (set_cells (delete 100)) else mret tt);;
  h ← get_head x;
  eng ← lift_opt (engine h);
  _ ← _dpqic_cb_on_new_conn ex_prog eng 600;
  _ ← dpevp_add ex_prog FUEL (Some x) (Some 52) [101];
  d ← get_listen x;
  c ← cell 100;
  mret (y, c, ready_conn_head d).
Example accept_timeout_loses_connection :
  fst <$> accept_times_out false (ex_world ex_lq) = Some (Some 2000%positive, Some 2003%positive, None) /\
  accept_times_out true (ex_world ex_lq) = None.
Proof. split; vm_compute; reflexivity. Qed.

(** ** A stream and its copy *)

(** A connection's stream [700] (element 2001) and the copy of it that sends. *)
Definition dup_stream : M loc :=
  _ ← dpqic_thrd_init;
  x ← dpele_new ex_prog (Some dpqic_stream_type) [700];
  x ← lift_opt x;
  upd_lq (lq_set_stm 700 (Some x));;
  y ← dpele_dup ex_prog x false;
  lift_opt y.
(** The library calls with the context of the stream, the first element: its element
    does nothing, so writing is no longer asked for and the send of the copy never
    ends. *)
Definition send_on_copy : M (Z * Z * bool) :=
  y ← dup_stream;
  upd_ele y (fun e => set_scratch (set_asc e (Some 54)) (Some (24, [54; 4; 0])));;
  upd_lq (lq_set_want 700 true true);;
  _dpqic_cb_on_write ex_prog 700 (Some 2000%positive);;
  want ← qask (fun l => default false (lq_want l !! (700, true)));
  doing ← dpele_is_doing y;
  r ← dpele_ret y;
  mret (r, Z.b2z want, doing).
Example send_on_copy_never_ends : fst <$> send_on_copy (ex_world ex_lq) = Some (0, 0, true).
Proof. vm_compute. reflexivity. Qed.

(** When the first element is deleted the copy owns the stream, but the library still
    has the first as its context. *)
Definition delete_original : M unit :=
  y ← dup_stream;
  dpele_del ex_prog (Some 2000%positive);;
  u ← get_stream y;
  if negb (is_owner u) then ub else
  ctx ← qask (fun l => default None (lq_stm l !! 700));
  _dpqic_cb_on_read ex_prog 700 ctx.
Example copy_keeps_freed_context :
  is_Some ((y ← dup_stream; dpele_del ex_prog (Some 2000%positive)) (ex_world ex_lq)) /\ delete_original (ex_world ex_lq) = None.
Proof. split; [eexists; vm_compute; reflexivity|vm_compute; reflexivity]. Qed.

(** ** A packet that is refused *)

(** Of three packets the second is refused: the third is lost, the code says that
    there is nothing more, and the third slot is left with no room for a control
    message in the next call. *)
Definition refuse_second : M (Z * list (Z * Z)) :=
  x ← listening;
  let d := Dgram (ex_in4 9) [1] [] 0 in
  set_dgrams [[d; d; d]] [true; false];;
  r ← _dpqic_cb_recv_packets ex_prog FUEL x;
  slots ← qask (fun l => default [] (head (lq_slots l)));
  mret (r, ztake 4 slots).
Example refused_packet_drops_rest :
  fst <$> refuse_second (ex_world ex_lq) = Some (DPE_WAIT, [(128, 256); (128, 256); (16, 0); (128, 256)]).
Proof. vm_compute. reflexivity. Qed.

(** ** Threads *)

Definition upd_init (l : list bool) : M unit :=
  upd_lq (fun q => Lq (lq_cbs q) (lq_script q) (lq_peer q) (lq_conn q) (lq_stm q) (lq_want q) (lq_reads q) (lq_dgrams q) (lq_refuse q)
    (lq_slots q) (lq_sent q) (lq_room q) (lq_count q) l (lq_cleanups q) (lq_millis q)).
(** After the library could not be set up, the next [dpqic_thrd_init] says it is, and
    [dpqic_thrd_exit] counts a thread that was not counted. *)
Definition init_twice : M (Z * Z * Z) :=
  upd_init [false];;
  a ← dpqic_thrd_init;
  b ← dpqic_thrd_init;
  dpqic_thrd_exit ex_prog FUEL;;
  n ← getq k_thcount;
  mret (a, b, n).
Example failed_init_succeeds_again : fst <$> init_twice (ex_world ex_lq) = Some (DPE_UNINIT, DPE_OK, -1).
Proof. vm_compute. reflexivity. Qed.

(** A thread that exits with a listener keeps the engine but cleans up the library
    under it. *)
Definition exit_with_listener : M (nat * Z) :=
  _ ← listening;
  dpqic_thrd_exit ex_prog FUEL;;
  l ← getq k_head;
  c ← qask lq_cleanups;
  mret (length l, c).
Example exit_cleans_up_under_engines : fst <$> exit_with_listener (ex_world ex_lq) = Some (1%nat, 1).
Proof. vm_compute. reflexivity. Qed.

(** ** The library's log *)

(** A line of lsquic; its "WARN" is not a name [dplog_namel] knows. *)
Example log_line :
  _dpqic_log_buf (chr "[INFO] [QUIC:AB12] conn: hello.") 31 = Some (DPLOG_L_INFO, chr "conn: hello") /\
  _dpqic_log_buf (chr "[WARN] engine: late.") 20 = Some (DPLOG_L_ALERT, chr "engine: late").
Proof. split; vm_compute; reflexivity. Qed.
