(* ===== verification/QicSend.v ===== *)
(** * Sending packets

    [_dpqic_cb_send_packets] sets up the control of a packet only when it differs from
    that of the packet before.  What the kernel is given is the same as if each
    packet's control were set up alone ([msg_of]), in batches of packets of one
    socket; the number of packets that the library is told is the number the kernel
    took ([ref_send]). *)

From S2P Require Import Prelude Chars Dpret Dpbuf Ele Tmrset World WorldLogic Evp Dpssl DpsslIo Kern Sockets SktFacts Cmsg CmsgFacts Qic QicOps QicLogic QicCases.

#[local] Set Default Proof Using "Type*".

(** ** Packets on their own *)

Definition zero_ctl : list Z := replicate (Z.to_nat Qic.CTL_SIZE) 0.
Definition ctl_of (role : Z) (sp : out_spec) : option (list Z) :=
  let cw := (ancil role sp).1 in
  if cw =? 0 then Some [] else
  c ← _setup_control_msg zero_ctl Qic.CTL_SIZE cw (sp_local sp) (sp_dest sp) (sp_ecn sp); Some (ztake c.2 c.1).
Definition msg_of (role : Z) (sp : out_spec) : option mmsg :=
  ctl ← ctl_of role sp; Some (Mmsg (msg_name sp) (sp_iov sp) ctl).

(** The packets that are sent together: the first [k] at most, through one socket. *)
Fixpoint batch (k : nat) (ele : loc) (specs : list out_spec) : list out_spec :=
  match k, specs with
  | S k, sp :: specs => if decide (sp_peer sp = ele) then sp :: batch k ele specs else []
  | _, _ => []
  end.

Section Ref.
Context {E : Type} `{Lsq E}.

(** The calls of [sendmmsg], the number taken and [errno]. *)
Fixpoint ref_send (fuel : nat) (fd : loc -> Z) (role : Z) (specs : list out_spec) (n err : Z) (x : E) : Z * Z * E :=
  match specs, fuel with
  | sp :: _, S fuel =>
      let b := batch (Z.to_nat MAX_PACKET_COUNT) (sp_peer sp) specs in
      match sendmmsg (fd (sp_peer sp)) (omap (msg_of role) b) x with
      | (inl s, x) => if s =? zlen b then ref_send fuel fd role (zdrop s specs) (n + s) err x else (n + s, EAGAIN, x)
      | (inr e, x) => (n, e, x)
      end
  | _, _ => (n, err, x)
  end.
End Ref.

(** Packets as the library makes them: a local address is kept at an aligned place,
    one place for one address; the ECN bits are two; the packets of one socket are
    of one family. *)
Definition spec_ok (sp : out_spec) : Prop :=
  0 < sp_local_p sp /\ sp_local_p sp mod 4 = 0 /\ 28 <= zlen (sp_local sp) /\ 0 <= sp_ecn sp <= 3.
Definition same_place (sp sp' : out_spec) : Prop :=
  sp_peer sp = sp_peer sp' ->
  bytes_family (sp_dest sp) = bytes_family (sp_dest sp') /\ (sp_local_p sp = sp_local_p sp' -> sp_local sp = sp_local sp').
Definition specs_ok (specs : list out_spec) : Prop :=
  Forall spec_ok specs /\ forall sp sp', sp ∈ specs -> sp' ∈ specs -> same_place sp sp'.

(** ** Keys *)

Lemma lor_place a e : a mod 4 = 0 -> 0 <= e <= 3 -> Z.lor a e = a + e.
Proof.
  intros Ha He. rewrite <- Z.add_lor_land. enough (Z.land a e = 0) by lia.
  replace e with (Z.land e 3) by (assert (e = 0 \/ e = 1 \/ e = 2 \/ e = 3) as [-> | [-> | [-> | ->]]] by lia; done).
  rewrite Z.land_assoc, (Z.land_comm a), <- Z.land_assoc. replace (Z.land a 3) with 0; [apply Z.land_0_r|].
  change 3 with (Z.ones 2). rewrite Z.land_ones by lia. done.
Qed.

(** Whether the local address is sent. *)
Definition addressed (role : Z) (sp : out_spec) : bool := (role =? DPROLE_SERVER) && negb (bytes_family (sp_local sp) =? 0).
Lemma ancil_eq role sp : spec_ok sp ->
  ancil role sp = ((if addressed role sp then 1 else 0) + (if sp_ecn sp =? 0 then 0 else 2),
                   (if addressed role sp then sp_local_p sp else 0) + sp_ecn sp).
Proof.
  intros (Hp & Hm & _ & He). unfold ancil. fold (addressed role sp).
  destruct (addressed role sp); destruct (Z.eqb_spec (sp_ecn sp) 0) as [Hz|]; cbn [negb]; rewrite ?Hz, ?Z.add_0_r; try done.
  by rewrite (lor_place (sp_local_p sp)) by done.
Qed.

Lemma key_pos role sp : spec_ok sp -> (ancil role sp).1 <> 0 -> (ancil role sp).2 <> 0.
Proof.
  intros Hok. rewrite ancil_eq by done. destruct Hok as (Hp & _ & _ & He). cbn.
  destruct (addressed role sp), (Z.eqb_spec (sp_ecn sp) 0); lia.
Qed.

Lemma setup_ecn_only ctl n local local' dest dest' ecn :
  bytes_family dest = bytes_family dest' ->
  _setup_control_msg ctl n CW_ECN local dest ecn = _setup_control_msg ctl n CW_ECN local' dest' ecn.
Proof.
  intros Hd. unfold _setup_control_msg. destruct (CMSG_FIRSTHDR n) as [off|]; [|done].
  cbn -[put_cmsg CMSG_NXTHDR bytes_family]. rewrite Hd. destruct (_ =? AF_INET).
  all: destruct (put_cmsg ctl off _ _ _) as [c|]; cbn; [|done]; by destruct (CMSG_NXTHDR c n off) as [[]|].
Qed.
Lemma setup_family ctl n cw local dest dest' ecn :
  bytes_family dest = bytes_family dest' ->
  _setup_control_msg ctl n cw local dest ecn = _setup_control_msg ctl n cw local dest' ecn.
Proof. intros Hd. unfold _setup_control_msg. cbn [setup_loop]. by rewrite !Hd. Qed.

(** Packets of one socket with the same key have the same control. *)
Lemma same_control role sp sp' :
  spec_ok sp -> spec_ok sp' -> same_place sp sp' -> sp_peer sp = sp_peer sp' ->
  (ancil role sp).1 <> 0 -> (ancil role sp').1 <> 0 -> (ancil role sp).2 = (ancil role sp').2 ->
  ctl_of role sp = ctl_of role sp'.
Proof.
  intros Hok Hok' Hsame Hpeer. destruct (Hsame Hpeer) as [Hfam Hloc]. unfold ctl_of.
  rewrite !(ancil_eq role) by done. cbn [fst snd].
  destruct Hok as (Hp & Hm & _ & He), Hok' as (Hp' & Hm' & _ & He').
  destruct (addressed role sp) eqn:Ha, (addressed role sp') eqn:Ha'; cbn [fst snd].
  - intros _ _ Hk. assert (Hl : sp_local_p sp = sp_local_p sp' /\ sp_ecn sp = sp_ecn sp').
    { clear - Hk Hm Hm' He He'. Z.to_euclidean_division_equations. lia. }
    destruct Hl as [Hl <-]. specialize (Hloc Hl) as <-. destruct (_ =? 0); [done|]. by erewrite setup_family.
  - intros _ _ Hk. clear - Hk Hm He He' Hp. Z.to_euclidean_division_equations. lia.
  - intros _ _ Hk. clear - Hk Hm' He He' Hp'. Z.to_euclidean_division_equations. lia.
  - intros Hc Hc' Hk. assert (sp_ecn sp = sp_ecn sp') as <- by lia. destruct (sp_ecn sp =? 0); [done|].
    cbn [Z.add Z.eqb]. by erewrite (setup_ecn_only _ _ (sp_local sp) (sp_local sp')).
Qed.

Lemma setup_total role sp : spec_ok sp -> is_Some (ctl_of role sp).
Proof.
  intros Hok. unfold ctl_of. rewrite ancil_eq by done. destruct Hok as (_ & _ & Hl & He). cbn [fst].
  set (cw := _ + _). assert (Hcw : 0 <= cw <= 3) by (unfold cw; repeat case_match; lia).
  destruct (cw =? 0); [by eexists|]. pose proof He as Hecn.
  destruct (Z.eqb_spec (bytes_family (sp_dest sp)) AF_INET) as [Hd|Hd].
  - destruct (at_bytes_Some (sp_local sp) 4 4) as (a & Ha & _ & Hlen); [lia..|].
    destruct (setup_v4 cw a (sp_ecn sp) Hlen Hecn Hcw (sp_local sp) (sp_dest sp) (replicate 128 0) 0 0 Ha Hd) as (c & n & Hs & _).
    change zero_ctl with fresh_ctl. change Qic.CTL_SIZE with CmsgFacts.CTL_SIZE. rewrite Hs. by eexists.
  - destruct (at_bytes_Some (sp_local sp) 8 16) as (a & Ha & _ & Hlen); [lia..|].
    destruct (setup_v6 cw a (sp_ecn sp) Hlen Hecn Hcw (sp_local sp) (sp_dest sp) (replicate 128 0) 0 0 Ha Hd eq_refl) as (c & n & Hs & _).
    change zero_ctl with fresh_ctl. change Qic.CTL_SIZE with CmsgFacts.CTL_SIZE. rewrite Hs. by eexists.
Qed.

(** ** One batch *)

Definition resolve_ctl (out : list (list Z)) (o : omsg) : option (list Z) :=
  match om_ctl o with Some (i, len) => (fun c => ztake len c) <$> znth out i | None => Some [] end.
(** The storage of a message is one of the first [m]. *)
Definition stored_below (m : Z) (o : omsg) : Prop := forall i len, om_ctl o = Some (i, len) -> 0 <= i < m.

Lemma resolve_set out m c o : stored_below m o -> resolve_ctl (<[Z.to_nat m := c]> out) o = resolve_ctl out o.
Proof.
  intros Hb. unfold resolve_ctl. destruct (om_ctl o) as [[i len]|] eqn:Ho; [|done]. specialize (Hb i len Ho).
  f_equal. unfold znth. destruct (i <? 0); [done|]. apply list_lookup_insert_ne. lia.
Qed.

Lemma stored_mono m m' o : m <= m' -> stored_below m o -> stored_below m' o.
Proof. intros Hm Hb i len Ho. specialize (Hb i len Ho). lia. Qed.

Section Batch.
Context {E : Type} `{Ssl E, Lsq E, Sys E}.
Context (all : list out_spec) (Hall : specs_ok all) (role : Z) (ele : loc).

Definition with_out (out : list (list Z)) (w : world (qic E)) : world (qic E) := with_qic (set_out out (w_ext w)) w.
Abbreviation out_of w := (k_out (w_ext w)).

Lemma with_out_same (w : world (qic E)) : with_out (out_of w) w = w.
Proof. by destruct w as [? ? ? ? ? ? ? []]. Qed.

Lemma spec_ok_all sp : sp ∈ all -> spec_ok sp.
Proof. destruct Hall as [Hf _]. rewrite Forall_forall in Hf. auto. Qed.

Lemma resolve_msg_of out o : resolve_ctl out o = ctl_of role (om_spec o) -> resolve_msg out o = msg_of role (om_spec o).
Proof. intros Hr. unfold resolve_msg, msg_of. rewrite <- Hr. reflexivity. Qed.

Lemma resolve_ctl_msg out out' o : resolve_ctl out o = resolve_ctl out' o -> resolve_msg out o = resolve_msg out' o.
Proof. unfold resolve_msg, resolve_ctl. by intros ->. Qed.
Lemma msg_of_some sp : sp ∈ all -> is_Some (msg_of role sp).
Proof. intros Hsp. destruct (setup_total role sp) as [c Hc]; [by apply spec_ok_all|]. unfold msg_of. rewrite Hc. by eexists. Qed.

(** What the last message was set up with, when a key is kept. *)
Definition shared (out : list (list Z)) (last : option omsg) (key : Z) : Prop :=
  key <> 0 -> exists o sp, last = Some o /\ sp ∈ all /\ sp_peer sp = ele /\ (ancil role sp).1 <> 0 /\
    (ancil role sp).2 = key /\ resolve_ctl out o = ctl_of role sp.

Lemma wp_make_msg m last key sp w :
  0 <= m < 64 -> zlen (out_of w) = 64 -> sp ∈ all -> sp_peer sp = ele ->
  shared (out_of w) last key -> (forall o, last = Some o -> stored_below m o) -> (0 < m -> is_Some last) ->
  (last = None <-> m = 0) ->
  wp (make_msg role m last key sp) w (fun r w' => exists out, w' = with_out out w /\ zlen out = 64 /\
    om_spec r.1 = sp /\ resolve_ctl out r.1 = ctl_of role sp /\ stored_below (m + 1) r.1 /\
    (forall o, stored_below m o -> resolve_ctl out o = resolve_ctl (out_of w) o) /\ shared out (Some r.1) r.2).
Proof.
  intros Hm Hout Hsp Hele Hsh Hlast Hne Hz. pose proof (spec_ok_all sp Hsp) as Hok. unfold make_msg.
  destruct (ancil role sp) as [cw k] eqn:Hanc.
  assert (Hcw : (ancil role sp).1 = cw) by by rewrite Hanc. assert (Hk : (ancil role sp).2 = k) by by rewrite Hanc.
  destruct (negb (cw =? 0) && (key =? k) && (0 <? m)) eqn:Hreuse.
  - apply andb_true_iff in Hreuse as [Hreuse Hm0%Z.ltb_lt]. apply andb_true_iff in Hreuse as [Hc%negb_true_iff%Z.eqb_neq <-%Z.eqb_eq].
    destruct Hsh as (o & sp0 & -> & Hin & Hpeer & Hc0 & Hk0 & Hres).
    { rewrite <- Hk. apply key_pos; [done|]. by rewrite Hcw. }
    apply wp_bind. eapply wp_lift; [done|]. apply wp_ret. exists (out_of w). rewrite with_out_same. cbn [fst snd om_spec].
    assert (Hctl : ctl_of role sp0 = ctl_of role sp).
    { apply same_control; [by apply spec_ok_all|done| |congruence|done|by rewrite Hcw|by rewrite Hk, Hk0].
      destruct Hall as [_ Hs]. by apply Hs. }
    split_and!; try done.
    + unfold resolve_ctl. cbn [om_ctl]. fold (resolve_ctl (out_of w) o). by rewrite Hres.
    + intros i len Hi. cbn in Hi. specialize (Hlast o eq_refl i len Hi). lia.
    + intros _. exists (Omsg sp (om_ctl o)), sp. split_and!; try done; try (rewrite Hanc; cbn; done); try (by rewrite Hcw).
      unfold resolve_ctl. cbn [om_ctl]. fold (resolve_ctl (out_of w) o). by rewrite Hres.
  - destruct (Z.eqb_spec cw 0) as [->|Hc]; cbn [negb].
    + apply wp_ret. exists (out_of w). rewrite with_out_same. cbn [fst snd om_spec].
      split_and!; try done. unfold resolve_ctl, ctl_of. cbn [om_ctl]. by rewrite Hcw, Z.eqb_refl.
      by intros ?.
    + destruct (setup_total role sp Hok) as [c Hctl]. pose proof Hctl as Hctl'.
      unfold ctl_of in Hctl'. rewrite Hcw in Hctl'. replace (cw =? 0) with false in Hctl' by lia.
      change (replicate (Z.to_nat Qic.CTL_SIZE) 0) with zero_ctl.
      destruct (_setup_control_msg zero_ctl Qic.CTL_SIZE cw (sp_local sp) (sp_dest sp) (sp_ecn sp)) as [[b len]|] eqn:Hs; [|done].
      cbn in Hctl'. injection Hctl' as <-. apply wp_bind. eapply wp_lift; [done|]. cbn [fst snd].
      apply wp_bind, wp_getq, wp_bind, wp_upd_qic, wp_ret. exists (<[Z.to_nat m := b]> (out_of w)).
      assert (Hres : resolve_ctl (<[Z.to_nat m := b]> (out_of w)) (Omsg sp (Some (m, len))) = ctl_of role sp).
      { unfold resolve_ctl. cbn [om_ctl]. unfold znth. replace (m <? 0) with false by lia.
        rewrite list_lookup_insert_eq by (unfold zlen in Hout; lia). cbn. by rewrite Hctl. }
      split_and!; try done.
      * unfold zlen. by rewrite length_insert.
      * intros i l [= <- <-]. lia.
      * intros o Ho. by apply resolve_set.
      * intros _. exists (Omsg sp (Some (m, len))), sp. cbn [fst snd]. split_and!; try done. by rewrite Hcw.
Qed.

(** [batch] with the room that is left. *)
Lemma make_batch_ok specs m msgs key w ms :
  (forall sp, sp ∈ specs -> sp ∈ all) -> zlen (out_of w) = 64 -> zlen msgs = m -> m <= 64 ->
  Forall (stored_below m) msgs -> shared (out_of w) (head msgs) key -> mapM (resolve_msg (out_of w)) (rev msgs) = Some ms ->
  wp (make_batch specs role ele m msgs key) w (fun msgs' w' => exists out, w' = with_out out w /\ zlen out = 64 /\
    zlen msgs' = m + zlen (batch (Z.to_nat (64 - m)) ele specs) /\
    mapM (resolve_msg out) (rev msgs') = Some (ms ++ omap (msg_of role) (batch (Z.to_nat (64 - m)) ele specs))).
Proof.
  revert m msgs key w ms. induction specs as [|sp specs IH]; intros m msgs key w ms Hin Hout Hlen Hm Hst Hsh Hms;
    cbn [make_batch].
  - apply wp_ret. exists (out_of w). rewrite with_out_same. replace (batch _ ele []) with (@nil out_spec) by by destruct (Z.to_nat _).
    cbn [omap list_omap]. rewrite app_nil_r, zlen_nil, Z.add_0_r. done.
  - unfold MAX_PACKET_COUNT. destruct (Z.ltb_spec m 64); cbn [andb]; cycle 1.
    { apply wp_ret. exists (out_of w). rewrite with_out_same. replace (Z.to_nat (64 - m)) with 0%nat by lia. cbn [batch omap list_omap].
      rewrite app_nil_r, zlen_nil, Z.add_0_r. done. }
    pose proof (zlen_nonneg msgs) as Hnn. replace (Z.to_nat (64 - m)) with (S (Z.to_nat (64 - (m + 1)))) by lia.
    cbn [batch]. destruct (decide (sp_peer sp = ele)) as [Hp|Hp]; cycle 1.
    { rewrite bool_decide_false by done. apply wp_ret. exists (out_of w). rewrite with_out_same. cbn [omap list_omap].
      rewrite app_nil_r, zlen_nil, Z.add_0_r. done. }
    rewrite bool_decide_true by done. apply wp_bind. eapply wp_mono.
    { apply (wp_make_msg m (head msgs) key sp w); [lia|done|apply Hin; left|done|done|..].
      - intros o Ho. destruct msgs; simplify_eq/=. by inversion Hst.
      - intros Hm0. destruct msgs; [rewrite zlen_nil in *; lia|]. by eexists.
      - destruct msgs; cbn; [rewrite zlen_nil in *; split; [lia|done]|]. rewrite zlen_cons in *. pose proof (zlen_nonneg msgs). split; [done|lia]. }
    cbv beta. intros [o k] w' (out & -> & Ho & Hspec & Hres & Hbelow & Hold & Hsh'). cbn [fst snd] in *.
    eapply wp_mono; [apply (IH (m + 1) (o :: msgs) k (with_out out w) (ms ++ omap (msg_of role) [sp]))|].
    + intros sp' ?. apply Hin. by right.
    + done.
    + rewrite zlen_cons. lia.
    + lia.
    + constructor; [done|]. eapply Forall_impl; [exact Hst|]. intros o'. apply stored_mono. lia.
    + done.
    + cbn [rev w_ext with_out with_qic k_out set_out]. destruct (msg_of_some sp) as [x Hx]; [apply Hin; left|].
      cbn [omap list_omap]. rewrite Hx. apply mapM_snoc.
      * rewrite <- Hms. apply mapM_same. apply Forall_rev. eapply Forall_impl; [exact Hst|]. intros o' Ho'.
        by apply resolve_ctl_msg, Hold.
      * by rewrite resolve_msg_of, Hspec by by rewrite Hspec.
    + cbv beta. intros msgs' w' (out' & -> & Ho' & Hl' & Hr'). exists out'. split_and!; [done|done| |].
      * rewrite Hl', zlen_cons. lia.
      * rewrite Hr', <- app_assoc. cbn [omap list_omap app].
        destruct (msg_of_some sp) as [x Hx]; [apply Hin; left|]. by rewrite Hx.
Qed.
End Batch.

(** ** All of them *)

Section Send.
Context {E : Type} `{Ssl E, Lsq E, Sys E}.
Context (all : list out_spec) (Hall : specs_ok all) (role : Z) (fd : loc -> Z).

(** The descriptor of the socket of a listener or client. *)
Definition has_socket (w : world (qic E)) (x : loc) : Prop :=
  exists a h efd e, aux_at w x a /\ head_of a = Some h /\ udp_efd h = Some efd /\ w_eles w !! efd = Some e /\ fd x = union_fd e.

(** What sending leaves: storage, [errno] and the library's state. *)
Definition sent (out : list (list Z)) (err : Z) (x : E) (w : world (qic E)) : world (qic E) :=
  with_qic (set_out out (set_err err (set_lib x (w_ext w)))) w.

Lemma sent_socket out err x w y : has_socket w y -> has_socket (sent out err x w) y.
Proof. done. Qed.
Lemma sent_sent out err x out' err' x' w : sent out' err' x' (sent out err x w) = sent out' err' x' w.
Proof. done. Qed.
Lemma sent_init w : w = sent (k_out (w_ext w)) (k_errno (w_ext w)) (lib_of w) w.
Proof. by destruct w as [? ? ? ? ? ? ? [? ? ? ? ? ? ? ? ? ? ? ? ? []]]. Qed.

Lemma batch_head k sp specs : batch (S k) (sp_peer sp) (sp :: specs) = sp :: batch k (sp_peer sp) specs.
Proof. cbn. by rewrite decide_True by done. Qed.
Lemma batch_length k ele specs : (length (batch k ele specs) <= length specs)%nat.
Proof. revert k. induction specs as [|sp specs IH]; intros [|k]; cbn; try lia. case_decide; cbn; [specialize (IH k)|]; lia. Qed.

Lemma send_batches_ok fuel specs n w :
  (length specs <= fuel)%nat -> (forall sp, sp ∈ specs -> sp ∈ all) -> zlen (k_out (w_ext w)) = 64 ->
  (forall sp, sp ∈ specs -> has_socket w (sp_peer sp)) ->
  wp (send_batches fuel specs role n) w (fun r w' => exists out err x, zlen out = 64 /\ w' = sent out err x w /\
    ref_send fuel fd role specs n (k_errno (w_ext w)) (lib_of w) = (r, err, x)).
Proof.
  revert specs n w. induction fuel as [|fuel IH]; intros specs n w Hf Hin Hout Hsock; (destruct specs as [|sp specs];
    [apply wp_ret; exists (k_out (w_ext w)), (k_errno (w_ext w)), (lib_of w); split_and!; [done|apply sent_init|done]|]).
  { cbn in Hf. lia. }
  destruct (Hsock sp) as (a & h & efd & e & Ha & Hh & Hu & He & Hfd); [left|].
  cbn [send_batches ref_send]. set (b := batch _ _ _).
  apply wp_bind. eapply wp_get_head; [done|done|]. apply wp_bind. eapply wp_lift; [done|].
  apply wp_bind. eapply wp_mono.
  { apply (make_batch_ok all Hall role (sp_peer sp) (sp :: specs) 0 [] 0 w []); [done|done|done|lia|constructor|by intros ?|done]. }
  cbv beta. intros msgs w1 (out & -> & Ho & Hlen & Hms). change (Z.to_nat (64 - 0)) with (Z.to_nat MAX_PACKET_COUNT) in *.
  fold b in Hlen, Hms. apply wp_bind, wp_getq, wp_bind. eapply wp_lift; [exact Hms|]. cbn [app].
  apply wp_bind. unfold dpefd_fd at 1. apply wp_bind. eapply wp_get_ele; [exact He|]. apply wp_ret.
  apply wp_bind, wp_qlib. rewrite <- Hfd. change (lib_of (with_out out w)) with (lib_of w).
  destruct (sendmmsg (fd (sp_peer sp)) (omap (msg_of role) b) (lib_of w)) as [[s|er] x]; cbn [fst snd].
  - rewrite Hlen, Z.add_0_l. destruct (Z.eqb_spec s (zlen b)) as [->|].
    + assert (Hsub : forall sp', sp' ∈ zdrop (zlen b) (sp :: specs) -> sp' ∈ sp :: specs).
      { intros sp' Hs. unfold zdrop in Hs. rewrite <- (take_drop (Z.to_nat (zlen b)) (sp :: specs)).
        apply elem_of_app. by right. }
      assert (Hb : (1 <= length b)%nat).
      { unfold b. change (Z.to_nat MAX_PACKET_COUNT) with (S 63). rewrite batch_head. cbn. lia. }
      eapply wp_mono; [apply (IH _ _ (sent out (k_errno (w_ext w)) x w))|].
      * unfold zdrop. rewrite length_drop. unfold zlen. cbn [length] in *. lia.
      * auto.
      * done.
      * intros sp' Hs. apply sent_socket. auto.
      * cbv beta. intros r w' (out' & err & x' & Ho' & -> & Href). exists out', err, x'. by rewrite sent_sent.
    + apply wp_bind, wp_upd_qic, wp_ret. by exists out, EAGAIN, x.
  - apply wp_bind, wp_upd_qic, wp_ret. by exists out, er, x.
Qed.

End Send.

(** C3. The kernel is given what it would be given if the control of every packet were
    set up alone, and the library is told how many packets the kernel took; the rest
    of the world is as it was. *)
Theorem send_packets_as_reference {E} `{Ssl E, Lsq E, Sys E} (specs : list out_spec) (fd : loc -> Z) (p : loc)
    (e : dpqic_engine) (w : world (qic E)) (Hspecs : specs_ok specs) (He : k_engines (w_ext w) !! p = Some e)
    (Hout : zlen (k_out (w_ext w)) = MAX_PACKET_COUNT) (Hsock : forall sp, sp ∈ specs -> has_socket fd w (sp_peer sp)) :
  wp (_dpqic_cb_send_packets p specs) w (fun n w' => exists out err x, w' = sent out err x w /\
    ref_send (length specs) fd (qe_role e) specs 0 (k_errno (w_ext w)) (lib_of w) = (n, err, x)).
Proof.
  unfold _dpqic_cb_send_packets. apply wp_bind. eapply wp_get_engine; [done|].
  eapply wp_mono; [by apply (send_batches_ok specs Hspecs (qe_role e) fd)|]. cbv beta.
  intros n w' (out & err & x & _ & -> & Hr). by exists out, err, x.
Qed.

(** ** An example

    Two packets with one control through one socket, one without the address'
    control, and one through another socket. *)
Definition ex_spec (peer : loc) (place ecn : Z) : out_spec := OutSpec peer place (ex_in4 53 ++ replicate 112 0) (ex_in4 9) [1; 2] ecn.
Definition ex_specs : list out_spec := [ex_spec 2000 4096 1; ex_spec 2000 4096 1; ex_spec 2000 8192 0; ex_spec 2010 4096 2].
Definition send_world : world (qic lq) :=
  let s := ex_qic ex_lq in
  World (<[2000%positive := zero_ele dpqic_listen_type]> (<[2001%positive := set_fd (zero_ele dpudp_server_type) 5]>
    (<[2010%positive := zero_ele dpqic_client_type]> (<[2011%positive := set_fd (zero_ele dpudp_client_type) 6]> ∅))))
    3000 [] [] ∅ (EvpSet 2 2 [[0]; [1]] [1; 1]) (Some 1)
    (set_engines <[7%positive := Engine DPROLE_SERVER true (chr "g") 500 2 None]>
       (set_auxs (fun _ => <[2000%positive := QListen (Listen (EfdHead (Some 2001%positive) (Some 7%positive) true) 0 None None)]>
          (<[2010%positive := QClient (EfdHead (Some 2011%positive) (Some 7%positive) true)]> ∅)) s)).
Definition ex_fd (x : loc) : Z := if decide (x = 2000%positive) then 5 else 6.

Lemma send_packets_as_reference_witness :
  wp (_dpqic_cb_send_packets 7 ex_specs) send_world (fun n w' => n = 4 /\
    map (map mm_control) (lq_sent (lib_of w')) = map (map (fun sp => default [] (ctl_of DPROLE_SERVER sp)))
      [[ex_spec 2010 4096 2]; [ex_spec 2000 4096 1; ex_spec 2000 4096 1; ex_spec 2000 8192 0]]).
Proof.
  eapply wp_mono; [eapply (send_packets_as_reference ex_specs ex_fd 7)|].
  - split; [repeat constructor; cbn; try lia; try done|]. intros sp sp' Hsp Hsp' _.
    assert (HF : Forall (fun sp => sp_local sp = sp_local (ex_spec 1 0 0) /\ sp_dest sp = ex_in4 9) ex_specs) by repeat constructor.
    rewrite Forall_forall in HF. destruct (HF sp Hsp) as [-> ->], (HF sp' Hsp') as [-> ->]. done.
  - reflexivity.
  - reflexivity.
  - apply Forall_forall. assert (Hl : has_socket ex_fd send_world 2000).
    { do 4 eexists. split_and!; [split; [by eexists|reflexivity]|reflexivity..]. }
    repeat constructor; [exact Hl..|]. do 4 eexists. split_and!; [split; [by eexists|reflexivity]|reflexivity..].
  - cbv beta. intros n w' (out & err & x & -> & Href). vm_compute in Href. injection Href as <- <- <-. split; [done|]. vm_compute. reflexivity.
Defined.
