(* ===== verification/QicQueue.v ===== *)
(** * Connections are handed out once, in order

    A listener has a queue of connections that nobody has accepted yet, linked
    through their own data, and at most one accept that waits for a connection.
    Whatever the order in which connections arrive, accepts are made and finished
    accepts are taken from the loop, the accepts get the connections in the order of
    their arrival, each one once. *)

From S2P Require Import Prelude Chars Dpret Dpbuf Ele Tmrset World WorldLogic Evp Dpssl DpsslIo Kern Sockets SktFacts Qic QicOps QicLogic QicCases.

#[local] Set Default Proof Using "Type*".

Definition accept_no : Z := 52.

(** A connection is reported, an accept is made, a finished accept is taken. *)
Inductive lsn_ev := EvConn (c : Z) | EvAccept (cell : Z) | EvTake (cell : Z).

(** What the listener does: nothing, or an accept into a cell that waits or is over. *)
Inductive phase (A : Type) := Idle | Waiting (cell : Z) | Done (cell : Z) (x : A).
Arguments Idle {A}. Arguments Waiting {A}. Arguments Done {A}.

(** The events that can happen: one accept at a time. *)
Definition next_phase (s : phase unit * nat) (ev : lsn_ev) : option (phase unit * nat) :=
  match ev, s with
  | EvConn _, (Waiting cell, n) => Some (Done cell tt, n)
  | EvConn _, (k, n) => Some (k, S n)
  | EvAccept cell, (Idle, n) =>
      if cell =? 0 then None else match n with O => Some (Waiting cell, O) | S n => Some (Done cell tt, n) end
  | EvTake cell, (Done cell' _, n) => if cell =? cell' then Some (Idle, n) else None
  | _, _ => None
  end.
Fixpoint next_phases (s : phase unit * nat) (evs : list lsn_ev) : option (phase unit * nat) :=
  match evs with [] => Some s | ev :: evs => s ← next_phase s ev; next_phases s evs end.

Definition conns (evs : list lsn_ev) : list Z := omap (fun ev => match ev with EvConn c => Some c | _ => None end) evs.
Definition takes (evs : list lsn_ev) : nat := length (omap (fun ev => match ev with EvTake c => Some c | _ => None end) evs).

Section Queue.
Context {E : Type} `{Ssl E, Lsq E, Sys E}.
Context (P : program (qic E)) (fuel : nat) (lsn p : loc) (self : Z) (cells : list Z).
Context (Hinit : p_init P (ty_id dpqic_conect_type) = Some _dpqic_conect_vinit).
Context (Hasc : p_asc P accept_no = Some dpqic_accept).
Context (Hpeer : forall c (x : E), lsquic_conn_get_peer_ctx c x = Some lsn).

Abbreviation W := (world (qic E)).

(** What the program does at each event; a taken accept gives the caller its cell. *)
Definition do_ev (ev : lsn_ev) : ST W (list (option loc)) :=
  match ev with
  | EvConn c => do_callback P (CbNewConn p c);; mret []
  | EvAccept cell => _ ← dpevp_addv P fuel (Some lsn) (Some accept_no) [cell]; mret []
  | EvTake cell =>
      x ← reap_ele P 1 (type_index DPELE_TYPE_USD) self;
      if negb (bool_decide (x = Some lsn)) then ub else
      v ← getq (fun s => k_cells s !! cell);
      v ← lift_opt v;
      mret [v]
  end.
Fixpoint run_evs (evs : list lsn_ev) : ST W (list (option loc)) :=
  match evs with [] => mret [] | ev :: evs => vs ← do_ev ev; us ← run_evs evs; mret (vs ++ us) end.

(** ** The state of the listener *)

Definition conn_of (w : W) (x : loc) : option Z :=
  match w_eles w !! x, k_aux (w_ext w) !! x with Some _, Some (QConect d) => Some (conn d) | _, _ => None end.

Fixpoint linked (w : W) (q : list loc) : Prop :=
  match q with
  | [] => True
  | x :: q => (exists d, aux_at w x (QConect d) /\ conn_next d = head q) /\ linked w q
  end.

Definition is_done {A} (st : phase A) : bool := match st with Done _ _ => true | _ => false end.
Definition is_idle {A} (st : phase A) : bool := match st with Idle => true | _ => false end.
Definition wait_cell {A} (st : phase A) : Z := match st with Waiting c => c | _ => 0 end.

Record lsn_state (st : phase loc) (q : list loc) (w : W) : Prop := {
  ls_self : w_self w = Some self;
  ls_oom : w_oom w = [];
  ls_fresh : forall x, is_Some (w_eles w !! x) -> (x < w_next w)%positive;
  ls_engine : exists e, k_engines (w_ext w) !! p = Some e /\ qe_role e = DPROLE_SERVER;
  ls_node : exists v, w_nodes w !! self = Some v /\ v_ready v = (if is_done st then [lsn] else []);
  ls_unq : forall n v k, w_nodes w !! n = Some v -> lsn ∈ q_get k v -> n = self /\ k = QReady /\ is_done st = true;
  ls_ele : exists e, w_eles w !! lsn = Some e /\ e_type e = dpqic_listen_type /\ e_detach e = false /\ 0 < e_refc e /\
    e_tmr e = None /\ e_timing e = false /\ e_asc e = (if is_idle st then None else Some accept_no);
  ls_aux : exists h, k_aux (w_ext w) !! lsn = Some (QListen (Listen h (wait_cell st) (head q) (last q)));
  ls_queue : NoDup q /\ lsn ∉ q /\ linked w q;
  ls_cells : Forall (fun c => is_Some (k_cells (w_ext w) !! c)) cells;
  ls_phase : match st with
             | Idle => True
             | Waiting c => c ∈ cells /\ c <> 0 /\ q = []
             | Done c x => k_cells (w_ext w) !! c = Some (Some x)
             end;
}.

(** Everything that waits to be taken, in order. *)
Definition line (st : phase loc) (q : list loc) : list loc := match st with Done _ x => x :: q | _ => q end.
(** The same without the elements. *)
Definition shape (st : phase loc) : phase unit := match st with Idle => Idle | Waiting c => Waiting c | Done c _ => Done c tt end.

(** Connections stay those of their elements. *)
Definition keeps (w w' : W) : Prop := forall x c, conn_of w x = Some c -> conn_of w' x = Some c.

Lemma linked_ext w w' q :
  (forall x, x ∈ q -> is_Some (w_eles w !! x) -> is_Some (w_eles w' !! x)) ->
  (forall x, x ∈ q -> k_aux (w_ext w') !! x = k_aux (w_ext w) !! x) -> linked w q -> linked w' q.
Proof.
  induction q as [|x q IH]; cbn; [done|]. intros He Ha [(d & [Hx Hd] & Hn) Hl]. split.
  - exists d. split; [split|done].
    + apply He; [left|done].
    + by rewrite Ha by left.
  - apply IH; [|by intros y ?; apply Ha; right|done]. intros y ?. apply He. by right.
Qed.

Lemma linked_eles w q x : linked w q -> x ∈ q -> is_Some (w_eles w !! x).
Proof.
  induction q as [|y q IH]; [by intros _ ?%not_elem_of_nil|]. cbn. intros [(d & [Hy _] & _) Hl] [->|Hx]%elem_of_cons; auto.
Qed.

(** The last element of the queue gets a successor. *)
Lemma linked_snoc w w' q t x d dx :
  last q = Some t -> NoDup q -> linked w q -> x ∉ q ->
  k_aux (w_ext w) !! t = Some (QConect d) ->
  (forall y, is_Some (w_eles w !! y) -> is_Some (w_eles w' !! y)) ->
  k_aux (w_ext w') !! t = Some (QConect (Conect (Some x) (conn d) (out_stm d) (ready_stm_head d) (ready_stm_tail d))) ->
  (forall y, y ∈ q -> y <> t -> k_aux (w_ext w') !! y = k_aux (w_ext w) !! y) ->
  aux_at w' x (QConect dx) -> conn_next dx = None -> linked w' (q ++ [x]).
Proof.
  intros Hlast Hnd Hl Hx Hd He Ht Hy Hax Hnx. induction q as [|y q IH]; [done|]. cbn in Hl. destruct Hl as [(dy & [Hye Hyd] & Hyn) Hl].
  apply NoDup_cons in Hnd as [Hyq Hnd]. destruct q as [|z q].
  - injection Hlast as ->. cbn. split; [|split; [by exists dx|done]]. eexists. split; [split; [by apply He|done]|done].
  - cbn [app linked]. split.
    + exists dy. split; [split; [by apply He|]|done]. rewrite Hy; [done|left|].
      intros ->. apply Hyq. by apply last_Some_elem_of.
    + apply IH; try done.
      * intros Hin. apply Hx. by right.
      * intros u Hu. apply Hy. by right.
Qed.

(** ** A connection arrives *)

(** The new element. *)
Definition new_conect (c : Z) (w : W) : W :=
  with_qic (set_auxs <[w_next w := QConect (Conect None c 0 None None)]> (w_ext w))
    (World (<[w_next w := set_refc (zero_ele dpqic_conect_type) 1]> (w_eles w)) (Pos.succ (w_next w)) [] (w_race w) (w_nodes w)
       (w_set w) (w_self w) (w_ext w)).

Lemma wp_new_conect c w (Q : option loc -> W -> Prop) :
  w_oom w = [] -> Q (Some (w_next w)) (new_conect c w) -> wp (dpele_new P (Some dpqic_conect_type) [c]) w Q.
Proof.
  intros Ho HQ. unfold dpele_new, dpele_newv, _dpele_new. apply wp_bind, wp_bind.
  unfold wp at 1, alloc_ok. rewrite Ho. cbn [negb]. apply wp_bind. unfold wp at 1. apply wp_bind, wp_ret, wp_ret.
  rewrite Hinit. apply wp_bind. unfold _dpqic_conect_vinit, va_int. apply wp_bind, (wp_lift _ c); [done|].
  apply wp_bind, wp_put_aux, wp_ret. cbn [dpret_isok]. apply wp_bind, wp_ret.
  replace (dpret_iserr DPE_OK) with false by done. apply wp_ret. revert HQ. unfold new_conect. by rewrite Ho.
Qed.

Lemma fresh_conect st q w : lsn_state st q w -> w_eles w !! w_next w = None.
Proof.
  intros Hs. apply eq_None_not_Some. intros Hx. apply (ls_fresh _ _ _ Hs) in Hx. lia.
Qed.

Lemma new_conect_state c st q w :
  lsn_state st q w -> lsn_state st q (new_conect c w) /\ keeps w (new_conect c w) /\
  aux_at (new_conect c w) (w_next w) (QConect (Conect None c 0 None None)) /\ w_next w ∉ q /\ w_next w <> lsn.
Proof.
  intros Hs. pose proof (fresh_conect _ _ _ Hs) as Hf. pose proof (ls_ele _ _ _ Hs) as (e & He & Hrest).
  assert (Hnl : w_next w <> lsn) by (intros Heq; congruence).
  assert (Hnq : w_next w ∉ q).
  { intros Hin. destruct (ls_queue _ _ _ Hs) as (_ & _ & Hl). apply (linked_eles _ _ _ Hl) in Hin as [? ?]. congruence. }
  split_and!; [destruct Hs; constructor|..]; cbn [new_conect with_qic w_self w_oom w_eles w_next w_nodes w_ext set_auxs k_engines k_aux k_cells]; try done.
  - intros x Hx. destruct (decide (x = w_next w)) as [->|]; [lia|]. rewrite lookup_insert_ne in Hx by done. apply ls_fresh0 in Hx. lia.
  - exists e. by rewrite lookup_insert_ne.
  - by rewrite lookup_insert_ne.
  - destruct ls_queue0 as (Hnd & Hlq & Hl). split_and!; [done|done|].
    eapply linked_ext; [| |exact Hl]; cbn [new_conect with_qic w_eles w_ext set_auxs k_aux].
    + intros x Hx Hxe. rewrite lookup_insert_ne; [done|]. by intros <-.
    + intros x Hx. rewrite lookup_insert_ne; [done|]. by intros <-.
  - intros x c' Hx. unfold conn_of in *. cbn [new_conect with_qic w_eles w_ext set_auxs k_aux].
    destruct (decide (w_next w = x)) as [<-|]; [by rewrite Hf in Hx|]. by rewrite !lookup_insert_ne by done.
  - split; cbn [new_conect with_qic w_eles w_ext set_auxs k_aux]; rewrite lookup_insert_eq; by eexists.
Qed.

Lemma keeps_trans w w1 w2 : keeps w w1 -> keeps w1 w2 -> keeps w w2.
Proof. unfold keeps. auto. Qed.

Lemma unqueued_of st q w : lsn_state st q w -> is_done st = false -> unqueued lsn w.
Proof. intros Hs Hd n v k Hn Hin. destruct (ls_unq _ _ _ Hs n v k Hn Hin) as (_ & _ & ?). congruence. Qed.

(** Changing the library's state changes nothing here. *)
Lemma lib_state st q x w : lsn_state st q w -> lsn_state st q (with_qic (set_lib x (w_ext w)) w) /\ keeps w (with_qic (set_lib x (w_ext w)) w).
Proof.
  intros []. split; [|by intros y c]. constructor; try done. destruct ls_queue0 as (? & ? & Hl). split_and!; [done..|].
  by apply (linked_ext w).
Qed.

(** The new data of the listener. *)
Definition set_lsn (w : W) (h : efd_head) (cell : Z) (q : list loc) : W :=
  with_qic (set_auxs <[lsn := QListen (Listen h cell (head q) (last q))]> (w_ext w)) w.

Lemma conn_of_lsn w h cell q x : lsn <> x -> conn_of (set_lsn w h cell q) x = conn_of w x.
Proof. intros Hx. unfold conn_of, set_lsn. cbn. by rewrite lookup_insert_ne. Qed.
Lemma keeps_lsn st q w h cell q' : lsn_state st q w -> keeps w (set_lsn w h cell q').
Proof.
  intros Hs x c Hx. destruct (decide (lsn = x)) as [<-|]; [|by rewrite conn_of_lsn].
  destruct (ls_aux _ _ _ Hs) as [h' Ha]. unfold conn_of in Hx. rewrite Ha in Hx. by destruct (w_eles w !! lsn).
Qed.

(** A connection that somebody waits for. *)
Lemma deliver_waiting cell x w :
  lsn_state (Waiting cell) [] w -> lsn <> x -> is_Some (conn_of w x) ->
  wp (deliver_conn lsn x) w (fun _ w' => lsn_state (Done cell x) [] w' /\ keeps w w').
Proof.
  intros Hs Hx Hc. pose proof (ls_ele _ _ _ Hs) as (e & He & Hty & Hdet & Href & Htmr & Htim & Ha).
  pose proof (ls_node _ _ _ Hs) as (v & Hn & Hr). pose proof (ls_aux _ _ _ Hs) as (h & Hax).
  pose proof (ls_phase _ _ _ Hs) as (Hcell & Hc0 & _). pose proof (ls_cells _ _ _ Hs) as Hcells.
  assert (Haux : aux_at w lsn (QListen (Listen h cell None None))) by (split; [by eexists|done]).
  unfold deliver_conn. apply wp_bind. eapply wp_get_listen; [done|]. cbn [out_conn]. replace (cell =? 0) with false by lia.
  cbn [negb]. apply wp_bind. apply wp_put_cell; [rewrite Forall_forall in Hcells; by apply Hcells|].
  apply wp_bind. eapply wp_get_listen; [exact Haux|]. apply wp_bind, wp_put_aux. apply wp_bind.
  eapply wp_end_usd; [exact He|by rewrite Hty|rewrite Ha; by eexists|exact Htim|apply Hs|exact Hn|exact (unqueued_of _ _ w Hs eq_refl)|].
  apply wp_ret. rewrite Hr. cbn [app is_done].
  split; [constructor|]; cbn; try done.
  - apply Hs.
  - apply Hs.
  - intros y Hy. apply (ls_fresh _ _ _ Hs). destruct (decide (y = lsn)) as [->|]; [by eexists|]. by rewrite lookup_insert_ne in Hy.
  - apply Hs.
  - rewrite lookup_insert_eq. by eexists.
  - intros n u k Hu Hin. destruct (decide (self = n)) as [<-|].
    + rewrite lookup_insert_eq in Hu. injection Hu as <-. split_and!; [done| |done].
      destruct (decide (k = QReady)); [done|]. rewrite q_get_set_ne in Hin by congruence.
      by destruct (unqueued_of _ _ _ Hs eq_refl self v k Hn).
    + rewrite lookup_insert_ne in Hu by done. by destruct (unqueued_of _ _ _ Hs eq_refl n u k Hu).
  - rewrite lookup_insert_eq. by eexists.
  - rewrite lookup_insert_eq. by exists h.
  - split_and!; [constructor|by apply not_elem_of_nil|done].
  - eapply Forall_impl; [exact Hcells|]. intros c Hcc. cbn. destruct (decide (c = cell)) as [->|].
    + rewrite lookup_insert_eq. by eexists.
    + by rewrite lookup_insert_ne.
  - by rewrite lookup_insert_eq.
  - intros y c Hy. unfold conn_of in *. cbn. destruct (decide (lsn = y)) as [<-|].
    + rewrite Hax in Hy. by destruct (w_eles w !! lsn).
    + by rewrite !lookup_insert_ne.
Qed.

(** A connection that nobody waits for: the end of the queue. *)
Lemma deliver_queued st q x dx w :
  lsn_state st q w -> wait_cell st = 0 -> x ∉ q -> x <> lsn -> aux_at w x (QConect dx) -> conn_next dx = None ->
  wp (deliver_conn lsn x) w (fun _ w' => lsn_state st (q ++ [x]) w' /\ keeps w w').
Proof.
  intros Hs Hw Hxq Hxl Hx Hnx. pose proof (ls_ele _ _ _ Hs) as (e & He & _). pose proof (ls_aux _ _ _ Hs) as (h & Hax).
  pose proof (ls_queue _ _ _ Hs) as (Hnd & Hlq & Hl).
  assert (Haux : aux_at w lsn (QListen (Listen h 0 (head q) (last q)))) by (rewrite <- Hw; split; [by eexists|done]).
  assert (Hnd' : NoDup (q ++ [x])).
  { apply NoDup_app. split_and!; [done| |apply NoDup_singleton]. intros y Hy ->%list_elem_of_singleton. done. }
  assert (Hlq' : lsn ∉ q ++ [x]).
  { rewrite elem_of_app, list_elem_of_singleton. intros [?| ->]; done. }
  unfold deliver_conn. apply wp_bind. eapply wp_get_listen; [exact Haux|]. cbn [out_conn ready_conn_head Z.eqb negb].
  destruct (head q) as [hd|] eqn:Hhd.
  - assert (exists t, last q = Some t) as [t Ht].
    { destruct (last q) eqn:Hlast; [by eexists|]. apply last_None in Hlast as ->. done. }
    assert (Htq : t ∈ q) by by apply last_Some_elem_of. assert (Htl : t <> lsn) by by intros ->.
    assert (Hdt : exists d, k_aux (w_ext w) !! t = Some (QConect d)).
    { clear - Hl Htq. induction q as [|y q IH]; [by apply not_elem_of_nil in Htq|]. destruct Hl as [(d & [_ Hd] & _) Hl].
      apply elem_of_cons in Htq as [->|?]; [by eexists|auto]. }
    destruct Hdt as [d Hd]. cbn [ready_conn_tail]. rewrite Ht. apply wp_bind. eapply wp_lift; [done|].
    apply wp_bind. unfold _dpqic_set_ready_next. apply wp_bind. eapply wp_get_aux; [split; [by eapply linked_eles|exact Hd]|].
    apply wp_put_aux. apply wp_bind.
    eapply (wp_get_listen _ (Listen h 0 (Some hd) (Some t))).
    { split; [by eexists|]. cbn. rewrite lookup_insert_ne by done. destruct Haux as [_ Haux]. by rewrite Haux, Ht. }
    apply wp_put_aux. cbn [lsn_head out_conn ready_conn_head].
    assert (Hhd' : head (q ++ [x]) = Some hd) by by destruct q; simplify_eq/=.
    split.
    + destruct Hs; constructor; cbn; try done.
      * exists h. rewrite lookup_insert_eq. by rewrite Hhd', last_snoc, Hw.
      * split_and!; [done|done|]. eapply (linked_snoc w _ q t x d dx); try done; cbn.
        -- rewrite lookup_insert_ne by done. by rewrite lookup_insert_eq.
        -- intros y Hy Hyt. rewrite !lookup_insert_ne; [done|done|]. by intros <-.
        -- destruct Hx as [Hxe Hxa]. split; [done|]. cbn. rewrite !lookup_insert_ne; [done| |done]. by intros ->.
      * destruct st as [|c|]; [done| |done]. destruct ls_phase0 as (? & ? & _). done.
    + intros y c Hy. unfold conn_of in *. cbn. destruct (decide (lsn = y)) as [<-|].
      { rewrite Hax in Hy. by destruct (w_eles w !! lsn). }
      rewrite lookup_insert_ne by done. destruct (decide (t = y)) as [<-|]; [|by rewrite lookup_insert_ne].
      rewrite lookup_insert_eq. rewrite Hd in Hy. by destruct (w_eles w !! t).
  - assert (q = []) as -> by by destruct q. apply wp_put_aux. cbn [lsn_head out_conn app head last].
    split; [|exact (keeps_lsn _ _ w h 0 [x] Hs)].
    destruct Hs; constructor; cbn; try done.
    + exists h. rewrite lookup_insert_eq. by rewrite Hw.
    + split_and!; [done|done| |done]. exists dx. destruct Hx as [Hxe Hxa]. split; [split; [done|]|done]. cbn.
      by rewrite lookup_insert_ne.
    + destruct st as [|c|]; [done| |done]. destruct ls_phase0 as (? & ? & _). done.
Qed.

(** The step of an arrival. *)
Lemma step_conn c st q w :
  lsn_state st q w ->
  wp (do_ev (EvConn c)) w (fun vs w' => exists st' q' x, vs = [] /\ lsn_state st' q' w' /\ keeps w w' /\
    conn_of w x = None /\ conn_of w' x = Some c /\ line st' q' = line st q ++ [x] /\
    next_phase (shape st, length q) (EvConn c) = Some (shape st', length q')).
Proof.
  intros Hs. destruct (new_conect_state c st q w Hs) as (Hs1 & Hk1 & Hx & Hxq & Hxl).
  assert (Hold : conn_of w (w_next w) = None) by (unfold conn_of; by rewrite (fresh_conect _ _ _ Hs)).
  set (w1 := new_conect c w) in *. set (x := w_next w) in *.
  assert (Hnew : conn_of w1 x = Some c) by (unfold conn_of; destruct Hx as [[e ->] ->]; done).
  destruct (ls_engine _ _ _ Hs1) as (e & He & Hrole).
  cbn [do_ev do_callback]. apply wp_bind, wp_bind. unfold _dpqic_cb_on_new_conn. apply wp_bind.
  apply wp_new_conect; [apply Hs|]. apply wp_bind. eapply wp_get_engine; [exact He|].
  rewrite Hrole. cbn [Z.eqb DPROLE_SERVER DPROLE_CLIENT Pos.eqb]. apply wp_bind, wp_qask. rewrite Hpeer.
  assert (Hdone : forall st' q' (w' : W), lsn_state st' q' w' /\ keeps w1 w' -> line st' q' = line st q ++ [x] ->
    next_phase (shape st, length q) (EvConn c) = Some (shape st', length q') ->
    wp (mret (Some x) : ST W _) w' (fun r w2 => wp (qlib_do (conn_returned c r)) w2 (fun _ w3 =>
      wp (mret [] : ST W (list (option loc))) w3 (fun vs w' => exists st' q' x, vs = [] /\ lsn_state st' q' w' /\ keeps w w' /\ conn_of w x = None /\
         conn_of w' x = Some c /\ line st' q' = line st q ++ [x] /\
         next_phase (shape st, length q) (EvConn c) = Some (shape st', length q'))))).
  { intros st' q' w' [Hs' Hk'] Hli Hph. apply wp_ret, wp_qlib_do, wp_ret.
    destruct (lib_state st' q' (conn_returned c (Some x) (lib_of w')) w' Hs') as [Hs2 Hk2].
    exists st', q', x. split_and!; try done; [by eapply keeps_trans, keeps_trans|by apply Hk2, Hk']. }
  destruct (decide (wait_cell st = 0)) as [Hw|Hw].
  - apply wp_bind. eapply wp_mono; [by apply (deliver_queued st q x _ w1 Hs1 Hw Hxq Hxl Hx)|]. cbv beta. intros _ w' Hok.
    apply (Hdone st (q ++ [x]) w' Hok); [by destruct st|]. rewrite length_app, Nat.add_1_r.
    destruct st as [|c'|]; [done| |done]. destruct (ls_phase _ _ _ Hs) as (_ & Hc & _). done.
  - destruct st as [|c'|]; [done| |done]. destruct (ls_phase _ _ _ Hs) as (_ & _ & ->). apply wp_bind.
    eapply wp_mono; [by apply (deliver_waiting c' x w1 Hs1); [done|rewrite Hnew; eexists]|]. cbv beta. intros _ w' Hok.
    by apply (Hdone (Done c' x) [] w' Hok).
Qed.

(** ** An accept is made *)

(** Reading the clock is a matter of the library's state. *)
Lemma millis_lib (s : qic E) : exists x, (millis s).2 = set_lib x s.
Proof.
  destruct (millis (s_ext (k_tls s))) as [t x] eqn:Hm. exists x. cbn. unfold on_lib. cbn. unfold on_ext. rewrite Hm.
  by destruct s.
Qed.

(** [dpevp_addv] up to the [prep] of an accept. *)
Lemma wp_addv_accept cell w e (Q : Z -> W -> Prop) (w1 := with_eles <[lsn := set_asc e (Some accept_no)]> w) :
  w_eles w !! lsn = Some e -> e_type e = dpqic_listen_type -> e_asc e = None ->
  wp (_dpqic_accept_prep lsn [cell] (Out 0 0 (e_able e) false)) w1 (fun r w2 => w_eles w2 = w_eles w1 /\
    (forall (ret := if r.1 =? DPE_CONTINUE then DPE_WAIT else r.1), (r.1 =? DPE_CONTINUE) || (r.1 =? DPE_OK) = true ->
      exists v, w_self w2 = Some self /\ w_nodes w2 !! self = Some v /\ unqueued lsn w2 /\ e_tmr e = None /\ e_detach e = false /\
      (if ret =? DPE_WAIT then
         forall x, Q DPE_WAIT (with_eles <[lsn := set_ret (set_asc e (Some accept_no)) DPE_INPROGRESS]>
           (with_qic (set_lib x (w_ext w2)) w2))
       else
         Q DPE_WAIT (with_nodes <[self := q_set QReady (v_ready v ++ [lsn]) v]>
           (with_eles <[lsn := set_ret (set_asc e (Some accept_no)) DPE_OK]> w2)))) /\
    (r.1 =? DPE_CONTINUE) || (r.1 =? DPE_OK) = true) ->
  wp (dpevp_addv P fuel (Some lsn) (Some accept_no) [cell]) w Q.
Proof.
  intros He Hty Ha Hprep. unfold dpevp_addv. cbn [mbind option_bind]. rewrite Hasc.
  apply wp_bind. eapply wp_get_ele; [done|]. rewrite Hty.
  change ((Z.land (a_types dpqic_accept) (Z.shiftl 1 (type_index (ty_type dpqic_listen_type))) =? 0)
    || (negb (a_iotypes dpqic_accept =? 0) &&
        (Z.land (a_iotypes dpqic_accept) (Z.shiftl 1 (ty_iotype dpqic_listen_type mod 32)) =? 0))) with false. cbn iota.
  apply wp_bind. unfold dpele_is_doing at 1. apply wp_bind. eapply wp_get_ele; [done|]. apply wp_ret.
  rewrite Ha, bool_decide_false by (by intros []). cbn [andb].
  apply wp_bind. eapply wp_upd_ele; [done|]. fold w1.
  assert (He1 : w_eles w1 !! lsn = Some (set_asc e (Some accept_no))) by (unfold w1; cbn; by rewrite lookup_insert_eq).
  apply wp_bind. unfold _dpele_asc_data at 1. apply wp_bind. eapply wp_get_ele; [exact He1|].
  unfold asc_of at 1. cbn [e_asc set_asc mbind option_bind]. rewrite Hasc. cbn [a_datasz dpqic_accept DPASC_QIC_FUNCTION Z.eqb].
  apply wp_ret. apply wp_bind. eapply wp_get_ele; [exact He1|]. apply wp_bind. cbn [a_prep dpqic_accept DPASC_QIC_FUNCTION e_able set_asc].
  eapply wp_mono; [exact Hprep|]. cbv beta. intros [r out] w2 (He2 & HQ & Hr). cbn [fst snd] in *.
  assert (He2' : w_eles w2 !! lsn = Some (set_asc e (Some accept_no))) by by rewrite He2.
  destruct (HQ Hr) as (v & Hs & Hn & Hu & Htmr & Hdet & HQ'). clear HQ. cbn zeta in HQ'.
  apply wp_bind. apply orb_true_iff in Hr as [Hr%Z.eqb_eq|Hr%Z.eqb_eq]; subst r; cbn [Z.eqb negb] in *.
  - change (DPE_CONTINUE =? DPE_CONTINUE) with true in *. cbn iota in *. cbn [negb].
    apply wp_bind. eapply wp_get_ele; [exact He2'|]. cbn [e_type set_asc]. rewrite Hty. cbn [ty_type dpqic_listen_type]. apply wp_ret.
    apply wp_bind. unfold dpele_set_ret at 1. eapply wp_upd_ele; [exact He2'|]. apply wp_bind. eapply wp_self_id; [exact Hs|].
    apply wp_bind. eapply wp_get_ele; [cbn; by rewrite lookup_insert_eq|].
    change (dpret_isok DPE_WAIT) with false. change (DPE_WAIT =? DPE_WAIT) with true in *. cbn iota in *.
    apply wp_bind. unfold dpele_set_ret. eapply wp_upd_ele; [cbn; by rewrite lookup_insert_eq|].
    apply wp_bind. eapply wp_timer_upsert_idle; [cbn; by rewrite lookup_insert_eq|exact Htmr|exact Hn|].
    apply wp_ret. cbn [e_detach set_ret set_asc]. rewrite Hdet. destruct (millis_lib (w_ext w2)) as [y Hy].
    specialize (HQ' y). unfold with_eles, with_qic in *. cbn in *. rewrite insert_insert_eq, Hy. exact HQ'.
  - change (DPE_OK =? DPE_CONTINUE) with false in *. cbn iota in *. cbn [negb]. apply wp_ret.
    apply wp_bind. unfold dpele_set_ret at 1. eapply wp_upd_ele; [exact He2'|]. apply wp_bind. eapply wp_self_id; [exact Hs|].
    apply wp_bind. eapply wp_get_ele; [cbn; by rewrite lookup_insert_eq|].
    change (dpret_isok DPE_OK) with true. change (DPE_OK =? DPE_WAIT) with false in *. cbn iota in *.
    apply wp_bind. eapply wp_q_push; [cbn; by rewrite lookup_insert_eq|exact Hn|exact Hu|]. apply wp_ret.
    cbn [e_detach set_ret set_asc]. rewrite Hdet. exact HQ'.
Qed.

(** The node of the loop with the listener in the ready queue, or not. *)
Lemma done_node (ns : gmap Z dpevp) v n u k :
  (forall m u k, ns !! m = Some u -> lsn ∈ q_get k u -> False) ->
  ns !! self = Some v -> <[self := q_set QReady [lsn] v]> ns !! n = Some u -> lsn ∈ q_get k u -> n = self /\ k = QReady.
Proof.
  intros Hno Hv Hu Hin. destruct (decide (self = n)) as [<-|].
  - split; [done|]. rewrite lookup_insert_eq in Hu. injection Hu as <-. destruct (decide (k = QReady)); [done|].
    rewrite q_get_set_ne in Hin by congruence. by destruct (Hno self v k).
  - rewrite lookup_insert_ne in Hu by done. by destruct (Hno n u k).
Qed.

(** Only the listener's own element and data have changed. *)
Lemma keeps_self st q w w' :
  lsn_state st q w -> (forall x, x <> lsn -> w_eles w' !! x = w_eles w !! x /\ k_aux (w_ext w') !! x = k_aux (w_ext w) !! x) -> keeps w w'.
Proof.
  intros Hs Hx x c Hc. destruct (decide (x = lsn)) as [->|Hne].
  - destruct (ls_aux _ _ _ Hs) as [h Ha]. unfold conn_of in Hc. rewrite Ha in Hc. by destruct (w_eles w !! lsn).
  - unfold conn_of in *. by destruct (Hx x Hne) as [-> ->].
Qed.
Lemma linked_self w w' q :
  lsn ∉ q -> (forall x, x <> lsn -> w_eles w' !! x = w_eles w !! x /\ k_aux (w_ext w') !! x = k_aux (w_ext w) !! x) ->
  linked w q -> linked w' q.
Proof.
  intros Hq Hx. apply linked_ext; intros x Hin; (destruct (Hx x) as [He Ha]; [by intros ->|]); [by rewrite He|done].
Qed.

Lemma fresh_self (es : gmap loc dpele) (n : loc) e' :
  (forall x, is_Some (es !! x) -> (x < n)%positive) -> is_Some (es !! lsn) ->
  forall x, is_Some (<[lsn := e']> es !! x) -> (x < n)%positive.
Proof.
  intros Hf Hl x Hx. apply Hf. destruct (decide (lsn = x)) as [<-|]; [done|]. by rewrite lookup_insert_ne in Hx.
Qed.

Lemma step_accept cell q w :
  lsn_state Idle q w -> cell ∈ cells -> cell <> 0 ->
  wp (do_ev (EvAccept cell)) w (fun vs w' => exists st' q', vs = [] /\ lsn_state st' q' w' /\ keeps w w' /\ line st' q' = q /\
    next_phase (Idle, length q) (EvAccept cell) = Some (shape st', length q')).
Proof.
  intros Hs Hcell Hc0. pose proof (ls_ele _ _ _ Hs) as (e & He & Hty & Hdet & Href & Htmr & Htim & Ha).
  pose proof (ls_node _ _ _ Hs) as (v & Hn & Hr). pose proof (ls_aux _ _ _ Hs) as (h & Hax).
  pose proof (ls_queue _ _ _ Hs) as (Hnd & Hlq & Hl). pose proof (ls_cells _ _ _ Hs) as Hcells.
  pose proof (ls_fresh _ _ _ Hs) as Hfresh. pose proof (unqueued_of _ _ _ Hs eq_refl) as Hu.
  cbn [is_idle is_done wait_cell] in *. cbn [do_ev]. apply wp_bind. apply (wp_addv_accept cell w e); [done|done|done|].
  set (w1 := with_eles _ w). assert (Haux : aux_at w1 lsn (QListen (Listen h 0 (head q) (last q)))).
  { split; [unfold w1; cbn; rewrite lookup_insert_eq; by eexists|done]. }
  unfold _dpqic_accept_prep, va_int. apply wp_bind, (wp_lift _ cell); [done|]. apply wp_bind. eapply wp_get_listen; [exact Haux|].
  assert (Hnext : next_phase (Idle, length q) (EvAccept cell) =
    match q with [] => Some (Waiting cell, 0%nat) | _ :: q => Some (Done cell tt, length q) end).
  { cbn. replace (cell =? 0) with false by lia. by destruct q. }
  destruct q as [|x q]; cbn [head ready_conn_head].
  - apply wp_bind, wp_put_aux, wp_ret. split; [done|]. split; [|done]. cbv beta zeta. intros _.
    exists v. split_and!; [apply Hs|done|done|done|done|]. intros lib. cbn. exists (Waiting cell), []. split_and!; [done| | |done|exact Hnext].
    + destruct Hs; constructor; cbn; try done.
      * apply fresh_self; [apply fresh_self; [exact Hfresh|by eexists]|rewrite lookup_insert_eq; by eexists].
      * rewrite lookup_insert_eq. by eexists.
      * rewrite lookup_insert_eq. by exists h.
    + eapply keeps_self; [exact Hs|]. intros y Hy. cbn. by rewrite !lookup_insert_ne.
  - destruct Hl as [(d & Hxa & Hdn) Hl]. apply NoDup_cons in Hnd as [Hxq Hnd]. apply not_elem_of_cons in Hlq as [Hlx Hlq].
    destruct Hxa as [Hxe Hxa]. apply wp_bind, wp_put_cell; [rewrite Forall_forall in Hcells; by apply Hcells|].
    apply wp_bind. unfold _dpqic_ready_next. apply wp_bind. eapply wp_get_aux.
    { split; [unfold w1; cbn; by rewrite lookup_insert_ne|exact Hxa]. }
    apply wp_ret. rewrite Hdn. apply wp_bind, wp_put_aux, wp_ret. split; [done|]. split; [|done]. cbv beta zeta. intros _.
    exists v. split_and!; [apply Hs|done|done|done|done|]. cbn. rewrite Hr. exists (Done cell x), q. split_and!; [done| | |done|exact Hnext].
    + destruct Hs; constructor; cbn; try done.
      * apply fresh_self; [apply fresh_self; [exact Hfresh|by eexists]|rewrite lookup_insert_eq; by eexists].
      * rewrite lookup_insert_eq. by eexists.
      * intros n u k Hnu Hin. destruct (done_node (w_nodes w) v n u k) as [-> ->]; done.
      * rewrite lookup_insert_eq. by eexists.
      * rewrite lookup_insert_eq. exists h. by destruct q.
      * split_and!; [done|done|]. eapply linked_self; [done| |exact Hl]. intros y Hy. cbn. by rewrite !lookup_insert_ne.
      * eapply Forall_impl; [exact Hcells|]. intros c Hc. cbn. destruct (decide (c = cell)) as [->|].
        -- rewrite lookup_insert_eq. by eexists.
        -- by rewrite lookup_insert_ne.
      * by rewrite lookup_insert_eq.
    + eapply keeps_self; [exact Hs|]. intros y Hy. cbn. by rewrite !lookup_insert_ne.
Qed.

(** ** A finished accept is taken *)

Lemma step_take cell x q w :
  lsn_state (Done cell x) q w ->
  wp (do_ev (EvTake cell)) w (fun vs w' => vs = [Some x] /\ lsn_state Idle q w' /\ keeps w w').
Proof.
  intros Hs. pose proof (ls_ele _ _ _ Hs) as (e & He & Hty & Hdet & Href & Htmr & Htim & Ha).
  pose proof (ls_node _ _ _ Hs) as (v & Hn & Hr). pose proof (ls_queue _ _ _ Hs) as (Hnd & Hlq & Hl).
  pose proof (ls_fresh _ _ _ Hs) as Hfresh. pose proof (ls_unq _ _ _ Hs) as Hunq. pose proof (ls_phase _ _ _ Hs) as Hcell. cbn in Hcell.
  cbn [do_ev reap_ele]. apply wp_bind, wp_bind. change (reap_func P (type_index DPELE_TYPE_USD) 0 self) with (q_pop (E := qic E) self QReady).
  eapply wp_q_pop; [exact Hn|]. cbn [q_get]. rewrite Hr. cbn [is_done]. apply wp_bind.
  unfold _dpele_asc_over. apply wp_bind. eapply wp_get_ele; [exact He|]. rewrite Hty.
  change (negb (ty_iotype dpqic_listen_type =? DPAIO_TYPE_NAN)) with true. rewrite orb_true_r.
  apply wp_bind. eapply wp_put_ele; [exact He|]. unfold asc_over_end. apply wp_bind. eapply wp_get_ele; [cbn; by rewrite lookup_insert_eq|].
  replace (e_refc (set_asc (set_want e 0) None) <=? 0) with false by (cbn; lia). apply wp_ret.
  cbn [e_detach set_asc set_want]. rewrite Hdet. apply wp_ret. rewrite bool_decide_true by done. cbn [negb].
  apply wp_bind, wp_getq, wp_bind. eapply wp_lift; [exact Hcell|]. apply wp_ret.
  split; [done|]. split; [|eapply keeps_self; [exact Hs|]; intros y Hy; cbn; by rewrite lookup_insert_ne].
  destruct Hs; constructor; cbn; try done.
  - apply fresh_self; [exact Hfresh|by eexists].
  - rewrite lookup_insert_eq. by eexists.
  - intros n u k Hu Hin. destruct (decide (self = n)) as [<-|].
    + rewrite lookup_insert_eq in Hu. injection Hu as <-. destruct (decide (k = QReady)) as [->|].
      * by apply not_elem_of_nil in Hin.
      * rewrite q_get_set_ne in Hin by congruence. by destruct (Hunq self v k Hn Hin) as (_ & ? & _).
    + rewrite lookup_insert_ne in Hu by done. destruct (Hunq n u k Hu Hin) as (? & _). congruence.
  - rewrite lookup_insert_eq. by eexists.
  - split_and!; [done|done|]. eapply linked_self; [done| |exact Hl]. intros y Hy. cbn. by rewrite lookup_insert_ne.
Qed.

(** ** All events *)

(** [xs] are the elements of the connections so far; those before [line] are taken. *)
Lemma run_evs_ok evs st q w taken cs s' :
  lsn_state st q w -> Forall (fun ev => match ev with EvAccept c => c ∈ cells | _ => True end) evs ->
  next_phases (shape st, length q) evs = Some s' ->
  Forall2 (fun x c => conn_of w x = Some c) (taken ++ line st q) cs -> NoDup (taken ++ line st q) ->
  wp (run_evs evs) w (fun vs w' => exists xs rest, Forall2 (fun x c => conn_of w' x = Some c) (xs ++ rest) (cs ++ conns evs) /\
    NoDup (xs ++ rest) /\ map Some xs = map Some taken ++ vs /\ length vs = takes evs).
Proof.
  revert st q w taken cs. induction evs as [|ev evs IH]; intros st q w taken cs Hs Hc Hph Hcs Hnd; cbn [run_evs].
  { apply wp_ret. exists taken, (line st q). unfold conns. cbn. by rewrite !app_nil_r. }
  inversion Hc as [|? ? Hev Hevs]; subst. cbn [next_phases] in Hph.
  destruct (next_phase (shape st, length q) ev) as [s1|] eqn:Hn; [|done]. cbn in Hph.
  assert (Hstep : forall (vs : list (option loc)) (w1 : W) st1 q1 taken1 ds, lsn_state st1 q1 w1 -> s1 = (shape st1, length q1) ->
    Forall2 (fun x c => conn_of w1 x = Some c) (taken1 ++ line st1 q1) (cs ++ ds) -> NoDup (taken1 ++ line st1 q1) ->
    map Some taken1 = map Some taken ++ vs -> conns (ev :: evs) = ds ++ conns evs -> takes (ev :: evs) = (length vs + takes evs)%nat ->
    wp (us ← run_evs evs; mret (vs ++ us)) w1 (fun vs w' => exists xs rest,
      Forall2 (fun x c => conn_of w' x = Some c) (xs ++ rest) (cs ++ conns (ev :: evs)) /\
      NoDup (xs ++ rest) /\ map Some xs = map Some taken ++ vs /\ length vs = takes (ev :: evs))).
  { intros vs w1 st1 q1 taken1 ds Hs1 -> Hcs1 Hnd1 Htk Hco Hta. apply wp_bind.
    eapply wp_mono; [by apply (IH st1 q1 w1 taken1 (cs ++ ds))|]. cbv beta.
    intros us w' (xs & rest & Hf & Hnd' & Hxs & Hlen). apply wp_ret. exists xs, rest.
    rewrite Hco, Hta, length_app, Hlen, app_assoc. split_and!; [done|done| |done]. by rewrite Hxs, Htk, app_assoc. }
  apply wp_bind. destruct ev as [c|cell|cell].
  - eapply wp_mono; [by apply step_conn|]. cbv beta. intros vs w1 (st1 & q1 & x & -> & Hs1 & Hk & Hold & Hx & Hli & Hnx).
    apply (Hstep [] w1 st1 q1 taken [c]); try done; [by rewrite Hnx in Hn; simplify_eq| | |by rewrite app_nil_r].
    + rewrite Hli, app_assoc. apply Forall2_app; [|by repeat constructor]. eapply Forall2_impl; [exact Hcs|]. auto.
    + rewrite Hli, app_assoc. apply NoDup_app. split_and!; [done| |apply NoDup_singleton].
      intros y Hy ->%list_elem_of_singleton. apply list_elem_of_lookup in Hy as [i Hi].
      destruct (Forall2_lookup_l _ _ _ i _ Hcs Hi) as (c' & _ & Hc'). congruence.
  - destruct st; [|done..]. cbn in Hn. destruct (Z.eqb_spec cell 0); [done|].
    eapply wp_mono; [by apply step_accept|]. cbv beta. intros vs w1 (st1 & q1 & -> & Hs1 & Hk & Hli & Hnx).
    apply (Hstep [] w1 st1 q1 taken []); rewrite ?app_nil_r, ?Hli; try done.
    + cbn in Hnx. rewrite (proj2 (Z.eqb_neq _ _)) in Hnx by done. congruence.
    + eapply Forall2_impl; [exact Hcs|]. auto.
  - destruct st as [|?|cell' x]; [done..|]. cbn in Hn. destruct (Z.eqb_spec cell cell') as [<-|]; [|done]. injection Hn as <-.
    eapply wp_mono; [by apply step_take|]. cbv beta. intros vs w1 (-> & Hs1 & Hk).
    apply (Hstep [Some x] w1 Idle q (taken ++ [x]) []); rewrite ?app_nil_r, <- ?app_assoc; try done.
    + eapply Forall2_impl; [exact Hcs|]. auto.
    + by rewrite map_app.
Qed.

End Queue.

(** C2. The accepts that are taken, in their order, have given their callers the first
    connections that arrived, in theirs, each in an element of its own: none is lost
    or handed out twice, however arrivals and accepts follow each other. *)
Theorem connections_handed_out_in_order {E} `{Ssl E, Lsq E, Sys E} (P : program (qic E)) (fuel : nat) (lsn p : loc) (self : Z)
    (cells : list Z) (evs : list lsn_ev) (w : world (qic E))
    (Hinit : p_init P (ty_id dpqic_conect_type) = Some _dpqic_conect_vinit) (Hasc : p_asc P accept_no = Some dpqic_accept)
    (Hpeer : forall c (x : E), lsquic_conn_get_peer_ctx c x = Some lsn)
    (Hs : lsn_state lsn p self cells Idle [] w)
    (Hcells : Forall (fun ev => match ev with EvAccept c => c ∈ cells | _ => True end) evs)
    (Hevs : is_Some (next_phases (Idle, 0%nat) evs)) :
  wp (run_evs P fuel lsn p self evs) w (fun vs w' => exists xs, Forall2 (fun x c => conn_of w' x = Some c) xs (conns evs) /\
    NoDup xs /\ vs = map Some (take (takes evs) xs)).
Proof.
  destruct Hevs as [s' Hev].
  eapply wp_mono; [apply (run_evs_ok P fuel lsn p self cells Hinit Hasc Hpeer evs Idle [] w [] [] s'); try done; constructor|].
  cbv beta. intros vs w' (xs & rest & Hf & Hnd & Hxs & Hlen). exists (xs ++ rest). split_and!; [done|done|].
  cbn in Hxs. rewrite <- Hxs in Hlen |- *. rewrite length_map in Hlen. by rewrite <- Hlen, take_app_length.
Qed.

(** ** An example

    Two connections arrive before the first accept, one while the second accept
    waits. *)
#[local] Instance fixed_peer : Lsq lq := lq_with (fun _ => Some 2000%positive).
Definition queue_prog : program (qic lq) := qic_program FUEL (fun _ _ _ => mret tt) 4.
Definition queue_world : world (qic lq) :=
  World {[ 2000%positive := set_refc (zero_ele dpqic_listen_type) 1 ]} 2001 [] [] {[ 1 := ex_node 1 ]} (EvpSet 2 2 [[0]; [1]] [1; 1])
    (Some 1)
    (set_engines (fun _ => {[ 7%positive := Engine DPROLE_SERVER true (chr "g") 500 1 None ]})
       (set_auxs (fun _ => {[ 2000%positive := QListen (Listen (EfdHead None (Some 7%positive) true) 0 None None) ]}) (ex_qic ex_lq))).
Definition queue_evs : list lsn_ev :=
  [EvConn 601; EvAccept 100; EvTake 100; EvAccept 101; EvConn 602; EvConn 603; EvTake 101; EvConn 604; EvAccept 100; EvTake 100].

Lemma queue_world_ok : lsn_state 2000 7 1 [100; 101] Idle [] queue_world.
Proof.
  constructor; try done.
  - intros x [e He]. cbn in He. apply lookup_singleton_Some in He as [<- _]. done.
  - by eexists.
  - by eexists.
  - intros n v k Hn Hin. cbn in Hn. apply lookup_singleton_Some in Hn as [<- <-]. destruct k; by apply not_elem_of_nil in Hin.
  - eexists. by split_and!.
  - by eexists.
  - split_and!; [constructor|by apply not_elem_of_nil|done].
  - repeat constructor; by eexists.
Qed.

Lemma connections_handed_out_in_order_witness :
  wp (run_evs queue_prog FUEL 2000 7 1 queue_evs) queue_world (fun vs w' => exists a b c d,
    vs = [Some a; Some b; Some c] /\ map (conn_of w') [a; b; c; d] = [Some 601; Some 602; Some 603; Some 604]).
Proof.
  eapply wp_mono; [eapply (connections_handed_out_in_order queue_prog FUEL 2000 7 1 [100; 101] queue_evs queue_world)|].
  - reflexivity.
  - reflexivity.
  - reflexivity.
  - exact queue_world_ok.
  - repeat constructor.
  - eexists. vm_compute. reflexivity.
  - cbv beta. intros vs w' (xs & Hf & _ & ->). cbn in Hf.
    inversion Hf as [|a ? ? ? Ha Hf1]; subst. inversion Hf1 as [|b ? ? ? Hb Hf2]; subst.
    inversion Hf2 as [|c ? ? ? Hc Hf3]; subst. inversion Hf3 as [|d ? ? ? Hd Hf4]; subst. inversion Hf4; subst.
    exists a, b, c, d. split; [done|]. cbn. congruence.
Defined.
