(* ===== verification/Kq.v ===== *)
(** * Elements over kqueue ([lib/dpapp/os/bsd/dpevp_kqueue.c], first half)

    The event loops of the BSD systems keep the elements of [Ele] with two flags
    more, which filters of the descriptor are registered; timers and wake-ups are
    entries of the kernel queue, which is a parameter ([KSys]).  This file has the
    state and the elements: creation, destruction, duplication, registration,
    readiness, and the calls between threads.  The loops are in [KqEvp]. *)

From Stdlib Require Import SpecFloat.
From S2P Require Import Prelude Dpret Ele Tmrset World.

(** ** Kernel events *)

(** The wake-up entries of a worker, an element, and a watch of a file ([dpfsm.c]),
    as addresses. *)
Inductive kptr := PCommit (id : Z) | PAccept (id : Z) | PEle (x : loc) | PWatch (x : loc) (i : Z).
Inductive kident := INum (n : Z) | IPtr (p : kptr).
Inductive kfilter :=
  EVFILT_READ | EVFILT_WRITE | EVFILT_TIMER | EVFILT_USER | EVFILT_SIGNAL | EVFILT_VNODE | EVFILT_OTHER.

#[export] Instance kptr_eq_dec : EqDecision kptr.
Proof. solve_decision. Defined.
#[export] Instance kident_eq_dec : EqDecision kident.
Proof. solve_decision. Defined.
#[export] Instance kfilter_eq_dec : EqDecision kfilter.
Proof. solve_decision. Defined.

(** [struct kevent], and [EV_SET]. *)
Record kevent := EV_SET {
  ke_ident : kident;
  ke_filter : kfilter;
  ke_flags : Z;
  ke_fflags : Z;
  ke_data : Z;
  ke_udata : option kptr;
}.

Definition EV_ADD : Z := 0x1.
Definition EV_DELETE : Z := 0x2.
Definition EV_ONESHOT : Z := 0x10.
Definition EV_CLEAR : Z := 0x20.
Definition EV_ERROR : Z := 0x4000.
Definition EV_EOF : Z := 0x8000.
Definition NOTE_TRIGGER : Z := 0x01000000.
Definition NOTE_MSECONDS : Z := 0x2.
Definition NOTE_NSECONDS : Z := 0x8.

(** The calls of the system; a failure is the negated [errno], [None] for the
    call that waits. *)
Class KSys (E : Type) := {
  kqueue : E -> Z * E;
  kevent_change : Z -> list kevent -> E -> Z * E; (* queue, changes *)
  kevent_wait : Z -> Z -> option (Z * Z) -> E -> option (list kevent) * E; (* queue, room, [timespec] *)
  ksys_close : Z -> E -> Z * E;
  ksys_dup : Z -> E -> Z * E;
}.

(** ** State *)

(** [struct dpele]: the expiry time of the timer slot is not used here. *)
Record kele := KEle { k_ele : dpele; is_inpoll_read : bool; is_inpoll_write : bool }.

(** [dpevp_t] and [worker_t]; [v_feed] are the thread-local [_g_kq_feed_bytes] and
    [_g_kq_feed_fflags] of the loop's thread, [v_worker] says whose functions the
    loop has. *)
Record kevp := KNode {
  v_id : Z;
  v_type : Z;
  v_worker : bool;
  v_kq_fd : Z;
  v_capacity : Z;
  v_evs : list kevent;
  v_index : nat;
  v_enter : list loc;
  v_pop_limit : Z;
  v_ready : list loc;
  v_accepting : list loc;
  v_commiting : list loc;
  v_accepted : list loc;
  v_commited : list loc;
  v_request : bool; (* is_request_ctc *)
  v_respond : bool; (* is_respond_ctc *)
  v_feed : Z * Z;
}.

Definition q_get (q : qname) (v : kevp) : list loc :=
  match q with
  | QEnter => v_enter v | QReady => v_ready v | QAccepting => v_accepting v
  | QCommiting => v_commiting v | QAccepted => v_accepted v | QCommited => v_commited v
  end.
Definition q_set (q : qname) (l : list loc) (v : kevp) : kevp :=
  KNode (v_id v) (v_type v) (v_worker v) (v_kq_fd v) (v_capacity v) (v_evs v) (v_index v)
    (pick q QEnter l (v_enter v)) (v_pop_limit v) (pick q QReady l (v_ready v))
    (pick q QAccepting l (v_accepting v)) (pick q QCommiting l (v_commiting v))
    (pick q QAccepted l (v_accepted v)) (pick q QCommited l (v_commited v)) (v_request v) (v_respond v) (v_feed v).
Definition set_evs (evs : list kevent) (i : nat) (v : kevp) : kevp :=
  KNode (v_id v) (v_type v) (v_worker v) (v_kq_fd v) (v_capacity v) evs i (v_enter v) (v_pop_limit v) (v_ready v)
    (v_accepting v) (v_commiting v) (v_accepted v) (v_commited v) (v_request v) (v_respond v) (v_feed v).
Definition set_pop_limit (k : Z) (v : kevp) : kevp :=
  KNode (v_id v) (v_type v) (v_worker v) (v_kq_fd v) (v_capacity v) (v_evs v) (v_index v) (v_enter v) k (v_ready v)
    (v_accepting v) (v_commiting v) (v_accepted v) (v_commited v) (v_request v) (v_respond v) (v_feed v).
Definition set_turns (rq rs : bool) (v : kevp) : kevp :=
  KNode (v_id v) (v_type v) (v_worker v) (v_kq_fd v) (v_capacity v) (v_evs v) (v_index v) (v_enter v)
    (v_pop_limit v) (v_ready v) (v_accepting v) (v_commiting v) (v_accepted v) (v_commited v) rq rs (v_feed v).
Definition set_feed (f : Z * Z) (v : kevp) : kevp :=
  KNode (v_id v) (v_type v) (v_worker v) (v_kq_fd v) (v_capacity v) (v_evs v) (v_index v) (v_enter v)
    (v_pop_limit v) (v_ready v) (v_accepting v) (v_commiting v) (v_accepted v) (v_commited v)
    (v_request v) (v_respond v) f.

Record kworld (E : Type) := KWorld {
  w_eles : gmap loc kele;
  w_next : loc;
  w_oom : list bool; (* answers of the next allocations *)
  w_race : list (option Z); (* cancellations by other threads, with their result *)
  w_nodes : gmap Z kevp; (* [_gevps.evps] *)
  w_set : dpevp_set;
  w_self : option Z; (* [_gevp] *)
  w_ext : E;
}.
Arguments KWorld {E}.
Arguments w_eles {E}. Arguments w_next {E}. Arguments w_oom {E}. Arguments w_race {E}.
Arguments w_nodes {E}. Arguments w_set {E}. Arguments w_self {E}. Arguments w_ext {E}.

(** [dpasc_out_t]; [data] is [NULL] or not. *)
Record kout := KOut {
  o_want : Z;
  o_inva : Z;
  o_able : Z;
  able_bytes : Z;
  kq_fflags : Z;
  o_data : bool;
}.

Record kasc (E : Type) := KAsc {
  a_prep : loc -> list Z -> kout -> ST (kworld E) (Z * kout);
  a_post : option (loc -> kout -> ST (kworld E) (Z * kout));
  a_types : Z;
  a_iotypes : Z;
  a_datasz : Z;
  a_flags : Z;
}.
Arguments KAsc {E}.
Arguments a_prep {E}. Arguments a_post {E}. Arguments a_types {E}. Arguments a_iotypes {E}.
Arguments a_datasz {E}. Arguments a_flags {E}.

(** Static program data, by number, and the hooks of the signal and file
    elements ([_dpsig_kq_notify], [_dpfsm_kq_notify]). *)
Record kprogram (E : Type) := KProgram {
  p_asc : Z -> option (kasc E);
  p_init : Z -> option (loc -> list Z -> ST (kworld E) Z);
  p_copy : Z -> option (loc -> loc -> ST (kworld E) Z);
  p_fini : Z -> option (loc -> ST (kworld E) unit);
  p_sig_notify : loc -> Z -> ST (kworld E) unit;
  p_fsm_notify : option kptr -> Z -> ST (kworld E) unit;
}.
Arguments KProgram {E}.
Arguments p_asc {E}. Arguments p_init {E}. Arguments p_copy {E}. Arguments p_fini {E}.
Arguments p_sig_notify {E}. Arguments p_fsm_notify {E}.

Section Kq.
Context {E : Type} `{KSys E} (P : kprogram E).

Abbreviation M := (ST (kworld E)).

(** ** Access: a freed element is gone, and any access to it is undefined *)

Definition with_eles (f : gmap loc kele -> gmap loc kele) (w : kworld E) : kworld E :=
  KWorld (f (w_eles w)) (w_next w) (w_oom w) (w_race w) (w_nodes w) (w_set w) (w_self w) (w_ext w).
Definition with_nodes (f : gmap Z kevp -> gmap Z kevp) (w : kworld E) : kworld E :=
  KWorld (w_eles w) (w_next w) (w_oom w) (w_race w) (f (w_nodes w)) (w_set w) (w_self w) (w_ext w).
Definition with_ext (s : E) (w : kworld E) : kworld E :=
  KWorld (w_eles w) (w_next w) (w_oom w) (w_race w) (w_nodes w) (w_set w) (w_self w) s.

Definition get_kele (x : loc) : M kele := fun w => (fun k => (k, w)) <$> w_eles w !! x.
Definition get_ele (x : loc) : M dpele := k ← get_kele x; mret (k_ele k).
Definition put_kele (x : loc) (k : kele) : M unit := _ ← get_kele x; modify (with_eles <[x := k]>).
Definition put_ele (x : loc) (e : dpele) : M unit :=
  k ← get_kele x; put_kele x (KEle e (is_inpoll_read k) (is_inpoll_write k)).
Definition upd_ele (x : loc) (f : dpele -> dpele) : M unit := e ← get_ele x; put_ele x (f e).
Definition put_inpoll (x : loc) (r w : bool) : M unit := e ← get_ele x; put_kele x (KEle e r w).

Definition get_node (n : Z) : M kevp := fun w => (fun v => (v, w)) <$> w_nodes w !! n.
Definition upd_node (n : Z) (f : kevp -> kevp) : M unit := v ← get_node n; modify (with_nodes <[n := f v]>).

(** [_gevp]: dereferencing it on a thread without a loop is undefined. *)
Definition self_id : M Z := fun w => (fun n => (n, w)) <$> w_self w.

Definition sys {A} (f : E -> A * E) : M A := fun w => let '(a, s) := f (w_ext w) in Some (a, with_ext s w).

(** [kevent(evp->kq_fd, changes, n, NULL, 0, NULL)] *)
Definition kevent_on (evp : Z) (changes : list kevent) : M Z :=
  v ← get_node evp; sys (kevent_change (v_kq_fd v) changes).

Definition alloc_ok : M bool :=
  fun w => match w_oom w with
           | [] => Some (true, w)
           | ok :: oom => Some (ok, KWorld (w_eles w) (w_next w) oom (w_race w) (w_nodes w) (w_set w) (w_self w) (w_ext w))
           end.

Definition asc_of (e : dpele) : option (kasc E) := e_asc e ≫= p_asc P.

(** The hints of the last event the loop of this thread handed to an element. *)
Definition get_feed : M (Z * Z) := n ← self_id; v ← get_node n; mret (v_feed v).
Definition put_feed (f : Z * Z) : M unit := n ← self_id; upd_node n (set_feed f).

(** ** Queues *)

Definition has_links (x : loc) (w : kworld E) : bool :=
  existsb (fun nv => existsb (fun q => nbr x (q_get q nv.2)) all_queues) (map_to_list (w_nodes w)).

Definition _dpele_deque_push_back (n : Z) (q : qname) (x : loc) : M unit :=
  _ ← get_ele x;
  v ← get_node n;
  linked ← gets (has_links x);
  if linked || bool_decide (head (q_get q v) = Some x) then mret tt
  else upd_node n (q_set q (q_get q v ++ [x])).

Definition _dpele_deque_pop_front (n : Z) (q : qname) : M (option loc) :=
  v ← get_node n;
  match q_get q v with
  | [] => mret None
  | x :: l => upd_node n (q_set q l);; mret (Some x)
  end.

Definition _dpele_deque_move (n : Z) (dst src : qname) : M unit :=
  upd_node n (fun v => q_set src [] (q_set dst (q_get src v) v)).

(** [src] of loop [m] appended to [dst] of loop [n]. *)
Definition _dpele_deque_pushq (n : Z) (dst : qname) (m : Z) (src : qname) : M unit :=
  vs ← get_node m;
  let l := q_get src vs in
  upd_node m (q_set src []);;
  upd_node n (fun v => q_set dst (q_get dst v ++ l) v).

(** ** Registering a descriptor *)

Definition fd_change (e : dpele) (fi : kfilter) (flags : Z) (u : option kptr) : kevent :=
  EV_SET (INum (e_fd e)) fi flags 0 0 u.

Definition _dpevp_unwch_efd (efd : loc) : M Z :=
  k ← get_kele efd;
  let e := k_ele k in
  if (negb (is_inpoll_read k) && negb (is_inpoll_write k)) || (e_fd e <? 0) then mret DPE_INVAL else
  let kevs := (if is_inpoll_read k then [fd_change e EVFILT_READ EV_DELETE None] else []) ++
              (if is_inpoll_write k then [fd_change e EVFILT_WRITE EV_DELETE None] else []) in
  n ← self_id;
  r ← kevent_on n kevs;
  put_inpoll efd false false;;
  mret (if r =? 0 then DPE_OK else if r =? - ENOENT then DPE_OK else r).

(** The change one filter needs. *)
Definition filter_change (e : dpele) (fi : kfilter) (wanted inpoll : bool) (u : kptr) : list kevent :=
  if wanted then if inpoll then [] else [fd_change e fi EV_ADD (Some u)]
  else if inpoll then [fd_change e fi EV_DELETE None] else [].

Definition _dpevp_watch_efd (efd : loc) : M Z :=
  k ← get_kele efd;
  let e := k_ele k in
  let inr := has_flag (e_poll e) DPEVT_IN in
  let inw := has_flag (e_poll e) DPEVT_OUT in
  let kevs := filter_change e EVFILT_READ inr (is_inpoll_read k) (PEle efd) ++
              filter_change e EVFILT_WRITE inw (is_inpoll_write k) (PEle efd) in
  if bool_decide (kevs = []) then mret DPE_OK else
  n ← self_id;
  r ← kevent_on n kevs;
  if r =? 0 then put_inpoll efd inr inw;; mret DPE_OK else mret r.

(** ** Timers *)

(** 0.001, 0.5 and 1e9 as [double]s. *)
Definition F_MILLI : spec_float := S754_finite false 4611686018427388 (-62).
Definition F_HALF : spec_float := S754_finite false 4503599627370496 (-53).
Definition F_GIGA : spec_float := Z2SF 1000000000.

(** The unit and the count for a delay; the conversion to [int64_t] is undefined
    out of range. *)
Definition tmr_value (sec : spec_float) : option (Z * Z) :=
  if SFleb F_MILLI sec then
    v ← SF_to_i64 (f64_add (f64_mul sec (Z2SF 1000)) F_HALF);
    Some (NOTE_MSECONDS, if v <? 1 then 1 else v)
  else
    v ← SF_to_i64 (f64_add (f64_mul sec F_GIGA) F_HALF);
    Some (NOTE_NSECONDS, if v <? 1 then 1 else v).

Definition _dpevp_watch_tmr (ele : loc) : M Z :=
  e ← get_ele ele;
  match e_tmr e with
  | None => mret DPE_INVAL
  | Some spec =>
      if f64_ltb (ts_after spec) (S754_zero false) then mret DPE_INVAL else
      nv ← lift_opt (tmr_value (ts_after spec));
      n ← self_id;
      r ← kevent_on n [EV_SET (IPtr (PEle ele)) EVFILT_TIMER (Z.lor EV_ADD EV_ONESHOT) nv.1 nv.2 (Some (PEle ele))];
      if r =? 0 then upd_ele ele (fun e => set_timing e true);; mret DPE_OK else mret r
  end.

Definition _dpevp_unwatch_tmr (ele : loc) : M unit :=
  e ← get_ele ele;
  if e_timing e then
    n ← self_id;
    _ ← kevent_on n [EV_SET (IPtr (PEle ele)) EVFILT_TIMER EV_DELETE 0 0 None];
    upd_ele ele (fun e => set_timing e false)
  else mret tt.

(** ** Creation and destruction *)

Definition _dpctc_init (self : loc) : M unit :=
  upd_ele self (fun e =>
    set_detach (set_reto (set_ret (set_stat (set_fromid (set_toid e (-1)) (-1)) DPCTC_INITIAL) 0) false) false).

Definition _dpefd_init (self : loc) : M unit :=
  upd_ele self (fun e => set_poll (set_fd (set_close e true) (-1)) (mask5 (ty_events (e_type e)))).

Definition _dpele_new (ty : dpele_type) : M (option loc) :=
  ok ← alloc_ok;
  if negb ok then mret None else
  ele ← (fun w => Some (w_next w, KWorld (<[w_next w := KEle (set_refc (zero_ele ty) 1) false false]> (w_eles w))
           (Pos.succ (w_next w)) (w_oom w) (w_race w) (w_nodes w) (w_set w) (w_self w) (w_ext w)));
  (match ty_type ty with
   | DPELE_TYPE_EFD => _dpefd_init ele
   | DPELE_TYPE_USD => mret tt
   | DPELE_TYPE_TMR => mret tt
   | DPELE_TYPE_CTC => _dpctc_init ele
   end);;
  mret (Some ele).

Definition free_ele (x : loc) : M unit := _ ← get_ele x; modify (with_eles (delete x)).

Definition _dpele_del (self : loc) : M unit :=
  e ← get_ele self;
  (if ele_is e DPELE_TYPE_EFD && (0 <=? e_fd e) then
     _ ← _dpevp_unwch_efd self;
     if e_close e then
       _ ← sys (ksys_close (e_fd e));
       upd_ele self (fun e => set_fd e (-1))
     else mret tt
   else mret tt);;
  (match p_fini P (ty_id (e_type e)) with Some fini => fini self | None => mret tt end);;
  free_ele self.

Definition dpele_newv (ty : option dpele_type) (args : list Z) : M (option loc) :=
  match ty with
  | None => mret None
  | Some ty =>
      ele ← _dpele_new ty;
      match ele with
      | None => mret None
      | Some x =>
          match p_init P (ty_id ty) with
          | None => mret (Some x)
          | Some init =>
              r ← init x args;
              r ← (if dpret_isok r && bool_decide (ty_type ty = DPELE_TYPE_EFD) && (0 <? ty_events ty)
                   then upd_ele x (fun e => set_fd e r);; _dpevp_watch_efd x
                   else mret r);
              if dpret_iserr r then _dpele_del x;; mret None else mret (Some x)
          end
      end
  end.

Definition dpele_new (ty : option dpele_type) (args : list Z) : M (option loc) := dpele_newv ty args.

Definition dpele_ref (self : loc) : M loc :=
  upd_ele self (fun e => set_refc e (e_refc e + 1));; mret self.

Definition dpele_refc (self : loc) : M Z := e ← get_ele self; mret (e_refc e).

Definition dpele_del (self : option loc) : M unit :=
  match self with
  | None => mret tt
  | Some x =>
      e ← get_ele x;
      put_ele x (set_refc e (e_refc e - 1));;
      if e_refc e =? 1 then
        match e_asc e with
        | Some _ => mret tt (* the loop deletes it *)
        | None => _dpele_del x
        end
      else mret tt
  end.

Definition dpele_is_doing (self : loc) : M bool :=
  e ← get_ele self; mret (bool_decide (is_Some (e_asc e))).

(** ** Scratch memory of the operation in progress *)

Definition _dpele_asc_data (ele : loc) : M bool :=
  e ← get_ele ele;
  match asc_of e with
  | None => mret false
  | Some a =>
      if a_datasz a =? 0 then mret false else
      match e_scratch e with
      | Some (cap, ws) =>
          if a_datasz a <=? cap then
            put_ele ele (set_scratch e (Some (cap, zero_words (a_datasz a) ws)));; mret true
          else
            ok ← alloc_ok;
            if negb ok then mret false else
            put_ele ele (set_scratch e (Some (a_datasz a, fresh_words (a_datasz a))));; mret true
      | None =>
          ok ← alloc_ok;
          if negb ok then mret false else
          put_ele ele (set_scratch e (Some (a_datasz a, fresh_words (a_datasz a))));; mret true
      end
  end.

Definition dpele_asc_data (ele : loc) : M bool :=
  e ← get_ele ele; mret (bool_decide (is_Some (e_scratch e))).

Definition _dpele_asc_type (ele : loc) : M (option Z) := e ← get_ele ele; mret (e_asc e).

(** ** Duplication *)

(** [free(ele)] without the element's own destructor. *)
Definition dup_fail (x : loc) : M (option loc) := free_ele x;; mret None.

Definition dpele_dup (self : loc) (unuse_ : bool) : M (option loc) :=
  e ← get_ele self;
  if ele_is e DPELE_TYPE_EFD && (e_fd e <? 0) then mret None else
  doing ← dpele_is_doing self;
  if doing : bool then mret None else
  ele ← _dpele_new (e_type e);
  match ele with
  | None => mret None
  | Some x =>
      r ← (if 0 <? ty_size (e_type e)
           then match p_copy P (ty_id (e_type e)) with
                | Some copy => copy x self
                | None => mret DPE_OK (* memcpy of the auxiliary data *)
                end
           else mret DPE_OK);
      if (0 <? ty_size (e_type e)) && dpret_iserr r then dup_fail x else
      n ← get_ele x;
      if 0 <=? union_fd n then
        e ← get_ele self;
        fd ← sys (ksys_dup (union_fd e));
        upd_ele x (fun n => set_fd n fd);;
        if fd <? 0 then dup_fail x else
        upd_ele x (fun n => set_poll n (clear_bits (e_poll e) DPEVT_AIN));;
        r ← _dpevp_watch_efd x;
        if dpret_iserr r then dup_fail x else
        upd_ele self (fun e => set_poll e (clear_bits (e_poll e) DPEVT_OUT));;
        _ ← _dpevp_watch_efd self;
        e ← get_ele self;
        upd_ele x (fun n => set_able (set_want n 0) (clear_bits (e_able e) DPEVT_AIN));;
        mret (Some x)
      else mret (Some x)
  end.

(** ** Results, flags and timeouts *)

Definition dpele_ret (self : loc) : M Z := e ← get_ele self; mret (e_ret e).
Definition dpele_set_ret (self : loc) (ret : Z) : M unit := upd_ele self (fun e => set_ret e ret).

Definition dpele_set_detach (self : loc) (detach : bool) : M Z :=
  doing ← dpele_is_doing self;
  if doing : bool then mret DPE_BUSY
  else upd_ele self (fun e => set_detach e detach);; mret DPE_OK.

Definition dpele_is_detach (self : loc) : M bool := e ← get_ele self; mret (e_detach e).

Definition dpele_set_timeout (self : loc) (sec : spec_float) : M Z :=
  e ← get_ele self;
  if ele_is e DPELE_TYPE_CTC then mret DPE_INVAL else
  let ret := if f64_ltb sec (S754_zero false) then DPE_BEINITED else DPE_OK in
  match e_tmr e with
  | Some s => put_ele self (set_tmr e (Some (TmrSpec 0 sec)));; mret ret
  | None =>
      if negb (ret =? DPE_OK) then mret ret else
      ok ← alloc_ok;
      if negb ok then mret DPE_NOMEM else
      put_ele self (set_tmr e (Some (TmrSpec 0 sec)));; mret ret
  end.

Definition dpele_timeout (self : loc) : M spec_float :=
  e ← get_ele self; mret (match e_tmr e with Some s => ts_after s | None => Z2SF (-1) end).

Definition dpele_cop (self : loc) : M Z := e ← get_ele self; mret (e_cop e).

Definition dpele_wait (self : loc) (cop : Z) : M bool :=
  doing ← dpele_is_doing self;
  e ← get_ele self;
  if doing && negb (e_detach e) then put_ele self (set_cop e cop);; mret true
  else mret false.

Definition _dpele_set_cop (self : loc) (cop : Z) : M unit := upd_ele self (fun e => set_cop e cop).

Definition dpele_type_of (self : option loc) : M (option dpele_type) :=
  match self with Some x => e ← get_ele x; mret (Some (e_type e)) | None => mret None end.

Definition dpefd_fd (self : loc) : M Z := e ← get_ele self; mret (union_fd e).
Definition dpefd_set_close (self : loc) (cl : bool) : M unit := upd_ele self (fun e => set_close e cl).

(** ** Readiness of a descriptor *)

(** [out->able_bytes] and [out->kq_fflags] of the last event. *)
Definition with_feed (out : kout) (f : Z * Z) : kout :=
  KOut (o_want out) (o_inva out) (o_able out) f.1 f.2 (o_data out).

Definition drop_inva (self : loc) (out : kout) : M kout :=
  if negb (o_inva out =? 0) then
    upd_ele self (fun e => set_able e (clear_bits (e_able e) (o_inva out)));;
    mret (KOut (o_want out) 0 (o_able out) (able_bytes out) (kq_fflags out) (o_data out))
  else mret out.

(** One turn of the loop of [_dpefd_wake] with a wanted event pending: whether the
    loop goes on. *)
Definition wake_turn (self : loc) (out : kout) : M (bool * (Z * kout)) :=
  e ← get_ele self;
  f ← get_feed;
  a ← lift_opt (asc_of e);
  post ← lift_opt (a_post a);
  let out := with_feed out f in
  r ← post self (KOut (o_want out) (o_inva out) (e_able e) (able_bytes out) (kq_fflags out) (o_data out));
  out ← drop_inva self r.2;
  if r.1 =? DPE_WAIT then
    (if 0 <? o_want out then upd_ele self (fun e => set_want e (mask5 (o_want out))) else mret tt);;
    mret (true, (r.1, out))
  else
    upd_ele self (fun e => set_want e 0);; mret (false, (r.1, out)).

Fixpoint efd_wake_loop (fuel : nat) (self : loc) (out : kout) (ret : Z) : M (Z * kout) :=
  e ← get_ele self;
  if Z.land (e_able e) (e_want e) =? 0 then mret (ret, out) else
  match fuel with
  | O => ub
  | S fuel =>
      t ← wake_turn self out;
      if (t.1 : bool) then efd_wake_loop fuel self t.2.2 t.2.1 else mret t.2
  end.

Definition _dpefd_wake (fuel : nat) (self : loc) (out : kout) : M (Z * kout) :=
  f ← get_feed;
  let out := with_feed out f in
  e ← get_ele self;
  let ret := DPEVT_GET_ERR (e_able e) in
  if dpret_iserr ret then put_ele self (set_want e 0);; mret (ret, out) else
  out ← drop_inva self out;
  upd_ele self (fun e => set_want e (mask5 (o_want out)));;
  efd_wake_loop fuel self out DPE_WAIT.

Definition _dpefd_feed (fuel : nat) (self : loc) (evs : Z) : M bool :=
  upd_ele self (fun e => set_able e (mask5 (Z.lor (e_able e) evs)));;
  doing ← dpele_is_doing self;
  e ← get_ele self;
  if (e_want e =? 0) || negb doing then mret false else
  f ← get_feed;
  data ← dpele_asc_data self;
  r ← _dpefd_wake fuel self (KOut (e_want e) 0 (e_able e) f.1 f.2 data);
  if r.1 =? DPE_WAIT then dpele_set_ret self DPE_INPROGRESS;; mret false
  else dpele_set_ret self r.1;; mret true.

(** ** Calls between threads *)

(** A loop number, or the negated index of a loop type ([dpevp_pri.c]). *)
Definition _dpctc_resolve_toid (key : loc) (toid : Z) : M Z :=
  s ← gets w_set;
  if (0 <=? toid) && (toid <? gv_count s) then mret toid else
  if toid =? INT_MIN then ub else (* [-toid] overflows *)
  if toid <? 0 then
    if gv_type_count s <=? - toid then mret DPE_INVAL else
    cnt ← lift_opt (znth (gv_each_count s) (- toid));
    if cnt =? 0 then mret DPE_INVAL else
    let idx := _dpctc_hash_ptr key (to_u32 cnt) in
    ids ← lift_opt (znth (gv_each_ids s) (- toid));
    lift_opt (znth ids idx)
  else mret DPE_INVAL.

Definition dpctc_set_toid (self : option loc) (toid : Z) : M Z :=
  match self with
  | None => mret DPE_INVAL
  | Some x =>
      e ← get_ele x;
      if negb (ele_is e DPELE_TYPE_CTC) then mret DPE_INVAL else
      toid ← _dpctc_resolve_toid x toid;
      if dpret_iserr toid then mret toid else
      upd_ele x (fun e => set_toid e toid);; mret DPE_OK
  end.

(** Whether the call is gone or nobody waits for it. *)
Definition _dpctc_del (self : loc) : M bool :=
  e ← get_ele self;
  if e_refc e <=? 0 then _dpele_del self;; mret true
  else mret (e_detach e).

Definition dpctc_fromid (self : loc) : M Z := e ← get_ele self; mret (e_fromid e).
Definition dpctc_toid (self : loc) : M Z := e ← get_ele self; mret (e_toid e).
Definition _dpctc_stat (self : loc) : M dpctc_stat_e := e ← get_ele self; mret (e_stat e).
Definition _dpctc_set_stat (self : loc) (stat : dpctc_stat_e) : M unit :=
  upd_ele self (fun e => set_stat e stat).

(** Compare and exchange. *)
Definition _dpctc_ces_stat (self : loc) (new_stat old_stat : dpctc_stat_e) : M bool :=
  e ← get_ele self;
  if bool_decide (e_stat e = old_stat)
  then put_ele self (set_stat e new_stat);; mret true
  else mret false.

(** Between reading the state of a call and acting on it the thread that
    submitted the call may cancel it ([dpevp_end]). *)
Definition other_threads (self : loc) : M unit :=
  fun w => match w_race w with
           | c :: race =>
               let w := KWorld (w_eles w) (w_next w) (w_oom w) race (w_nodes w) (w_set w) (w_self w) (w_ext w) in
               match c with
               | Some r =>
                   (e ← get_ele self;
                    if bool_decide (e_stat e = DPCTC_COMMIT)
                    then put_ele self (set_ret (set_stat e DPCTC_CANCEL) r) else mret tt) w
               | None => Some (tt, w)
               end
           | [] => Some (tt, w)
           end.

End Kq.
