(* ===== verification/KqEvp.v ===== *)
(** * The event loops over kqueue ([lib/dpapp/os/bsd/dpevp_kqueue.c], second half)

    The master and the workers, the queues and wake-ups by which they hand calls
    over, the reapers, [dpevp_pop], and the operations users call.  A wake-up is an
    [EVFILT_USER] entry: triggering it gives the kernel a word, which comes back as
    the data of the event. *)

From S2P Require Import Prelude Dpret Ele Tmrset World Kq.

Definition _CTC_INCR_FLAG : Z := 0x0000000000000001.
Definition _CTC_TAKE_FLAG : Z := 0x0000001000000000.
Definition TAKE_MASK : Z := 0xfffffff000000000.
Definition PUSH_MASK : Z := 0x00000000ffffffff.

Definition DPEVP_REAP_LIMIT : Z := 32.
Definition DPASC_FLAG_ALLOW_DOING : Z := Z.shiftl 1 1.
Definition EVS_CAPACITY : Z := 256.

Section KqEvp.
Context {E : Type} `{KSys E} (P : kprogram E).

Abbreviation M := (ST (kworld E)).

(** ** Wake-ups: [wake] is an address, the loop [evp] has the queue *)

Definition user_event (wake : kptr) (flags fflags data : Z) (u : option kptr) : kevent :=
  EV_SET (IPtr wake) EVFILT_USER flags fflags data u.

Definition _dpele_wake_register (evp : Z) (wake : kptr) : M bool :=
  r ← kevent_on evp [user_event wake (Z.lor EV_ADD EV_CLEAR) 0 0 (Some wake)];
  mret (r =? 0).
Definition _dpele_wake_fini (evp : Z) (wake : kptr) : M unit :=
  _ ← kevent_on evp [user_event wake EV_DELETE 0 0 None]; mret tt.
Definition _dpele_wake_trigger (evp : Z) (wake : kptr) (data : Z) : M unit :=
  _ ← kevent_on evp [user_event wake 0 NOTE_TRIGGER data (Some wake)]; mret tt.

(** ** Handing calls over

    [self] is the worker whose queues are used, on whichever thread. *)

Definition _worker_move_accept_ctc (self : Z) : M unit :=
  _dpele_deque_move self QAccepted QAccepting;;
  v ← get_node self;
  match v_accepted v with
  | _ :: _ => _dpele_wake_trigger self (PAccept self) _CTC_INCR_FLAG
  | [] => upd_node self (set_turns (v_request v) true)
  end.

Definition _worker_move_commit_ctc (self : Z) : M unit :=
  _dpele_deque_move self QCommited QCommiting;;
  v ← get_node self;
  match v_commited v with
  | _ :: _ => _dpele_wake_trigger 0 (PCommit self) _CTC_INCR_FLAG
  | [] => upd_node self (set_turns true (v_respond v))
  end.

Definition _worker_push_commit_ctc (self : Z) (ctc : loc) : M unit :=
  v ← get_node self;
  if v_request v then
    upd_node self (set_turns false (v_respond v));;
    _dpele_deque_push_back self QCommited ctc;;
    _dpele_wake_trigger 0 (PCommit self) _CTC_INCR_FLAG
  else _dpele_deque_push_back self QCommiting ctc.

Definition _worker_push_accept_ctc (self : Z) (ctc : loc) : M unit :=
  v ← get_node self;
  if v_respond v then
    upd_node self (set_turns (v_request v) false);;
    _dpele_deque_push_back self QAccepted ctc;;
    _dpele_wake_trigger self (PAccept self) _CTC_INCR_FLAG
  else _dpele_deque_push_back self QAccepting ctc.

(** The queue is taken into [QEnter] of loop [dst]. *)
Definition _worker_take_commit_ctc (self dst : Z) : M unit :=
  _dpele_deque_pushq dst QEnter self QCommited;; _dpele_wake_trigger self (PAccept self) _CTC_TAKE_FLAG.
Definition _worker_take_accept_ctc (self dst : Z) : M unit :=
  _dpele_deque_pushq dst QEnter self QAccepted;; _dpele_wake_trigger 0 (PCommit self) _CTC_TAKE_FLAG.

Definition _worker_finish_ctc (self : Z) (ctc : loc) : M unit :=
  e ← get_ele ctc; v ← get_node self;
  if e_fromid e =? v_id v then _dpele_deque_push_back self QEnter ctc else _worker_push_commit_ctc self ctc.
Definition _worker_commit_ctc (self : Z) (ctc : loc) : M unit :=
  e ← get_ele ctc; v ← get_node self;
  if e_toid e =? v_id v then _dpele_deque_push_back self QEnter ctc else _worker_push_commit_ctc self ctc.
Definition _master_finish_ctc (self : Z) (ctc : loc) : M unit :=
  e ← get_ele ctc; v ← get_node self;
  if e_fromid e =? v_id v then _dpele_deque_push_back self QEnter ctc
  else _worker_push_accept_ctc (e_fromid e) ctc.
Definition _master_commit_ctc (self : Z) (ctc : loc) : M unit :=
  e ← get_ele ctc; v ← get_node self;
  if e_toid e =? v_id v then _dpele_deque_push_back self QEnter ctc
  else _worker_push_accept_ctc (e_toid e) ctc.

(** The function pointers of a loop. *)
Definition commit_ctc_f (self : Z) (ctc : loc) : M unit :=
  v ← get_node self;
  if v_worker v then _worker_commit_ctc self ctc else _master_commit_ctc self ctc.
Definition finish_ctc_f (self : Z) (ctc : loc) : M unit :=
  v ← get_node self;
  if v_worker v then _worker_finish_ctc self ctc else _master_finish_ctc self ctc.

(** Storing [next = NULL] in a call another call follows would cut its queue. *)
Definition followed (x : loc) (w : kworld E) : bool :=
  existsb (fun nv => existsb (fun q => bool_decide (x ∈ q_get q nv.2 /\ last (q_get q nv.2) <> Some x)) all_queues)
    (map_to_list (w_nodes w)).

Definition _dpctc_commit (self : Z) (ctc : loc) : M unit :=
  _dpctc_set_stat ctc DPCTC_COMMIT;;
  cut ← gets (followed ctc);
  if cut : bool then ub else
  v ← get_node self;
  upd_ele ctc (fun e => set_ret (set_cop (set_reto (set_fromid e (v_id v)) false) 0) DPE_INPROGRESS);;
  commit_ctc_f self ctc.

(** ** Reapers *)

Definition _dpevp_reap_usd (self : Z) : M (option loc) :=
  n ← self_id; _dpele_deque_pop_front n QReady.

(** Timer events from the cursor on, up to the first event of another kind. *)
Fixpoint _dpevp_reap_tmr (fuel : nat) (self : Z) : M (option loc) :=
  v ← get_node self;
  match v_evs v !! v_index v with
  | None => mret None
  | Some ke =>
      if negb (bool_decide (ke_filter ke = EVFILT_TIMER)) then mret None else
      match fuel with
      | O => ub
      | S fuel =>
          upd_node self (set_evs (v_evs v) (S (v_index v)));;
          match ke_udata ke with
          | Some (PEle x) =>
              upd_ele x (fun e => set_timing e false);;
              e ← get_ele x;
              match ty_type (e_type e) with
              | DPELE_TYPE_EFD | DPELE_TYPE_USD | DPELE_TYPE_TMR =>
                  dpele_set_ret x DPE_TIME;; mret (Some x)
              | DPELE_TYPE_CTC =>
                  ok ← _dpctc_ces_stat x DPCTC_CANCEL DPCTC_COMMIT;
                  (if ok : bool then dpele_set_ret x DPE_TIME else mret tt);;
                  _dpevp_reap_tmr fuel self
              end
          | _ => ub
          end
      end
  end.

Definition read_stat (x : loc) : M dpctc_stat_e :=
  s ← _dpctc_stat x; other_threads x;; mret s.

Definition reap_cancelled (finish : loc -> M unit) (ctc : loc) : M unit :=
  gone ← _dpctc_del P ctc;
  if gone : bool then mret tt else finish ctc.

(** [post] outside an event: the hints are zero. *)
Definition run_post (ctc : loc) (post : loc -> kout -> M (Z * kout)) : M Z :=
  data ← dpele_asc_data ctc; r ← post ctc (KOut 0 0 0 0 0 data); mret r.1.

Fixpoint _worker_reap_ctc (fuel : nat) (self : Z) : M (option loc) :=
  match fuel with
  | O => ub
  | S fuel =>
      ctc ← _dpele_deque_pop_front self QEnter;
      match ctc with
      | None => mret None
      | Some x =>
          let running :=
            e ← get_ele x;
            match asc_of P e ≫= a_post with
            | Some post =>
                ret ← run_post x post;
                dpele_set_ret x ret;;
                upd_ele x (fun e => set_asc e None);;
                _dpctc_set_stat x DPCTC_FINISH;;
                _worker_finish_ctc self x;;
                _worker_reap_ctc fuel self
            | None => mret (Some x)
            end in
          let cancel :=
            ok ← _dpctc_ces_stat x DPCTC_FINISH DPCTC_CANCEL;
            if ok : bool then
              reap_cancelled (_worker_finish_ctc self) x;; _worker_reap_ctc fuel self
            else running in
          stat ← read_stat x;
          match stat with
          | DPCTC_COMMIT =>
              ok ← _dpctc_ces_stat x DPCTC_RUNNING DPCTC_COMMIT;
              if ok : bool then mret (Some x) else cancel
          | DPCTC_CANCEL => cancel
          | DPCTC_RUNNING => running
          | DPCTC_INITIAL | DPCTC_FINISH =>
              _dpevp_unwatch_tmr x;;
              gone ← _dpctc_del P x;
              if gone : bool then _worker_reap_ctc fuel self else mret (Some x)
          end
      end
  end.

Fixpoint _master_reap_ctc (fuel : nat) (self : Z) : M (option loc) :=
  match fuel with
  | O => ub
  | S fuel =>
      ctc ← _dpele_deque_pop_front self QEnter;
      match ctc with
      | None => mret None
      | Some x =>
          let other :=
            e ← get_ele x;
            if e_fromid e =? 0 then
              _dpevp_unwatch_tmr x;;
              gone ← _dpctc_del P x;
              if gone : bool then _master_reap_ctc fuel self else mret (Some x)
            else _worker_push_accept_ctc (e_fromid e) x;; _master_reap_ctc fuel self in
          let cancel :=
            ok ← _dpctc_ces_stat x DPCTC_FINISH DPCTC_CANCEL;
            if ok : bool then
              reap_cancelled (_master_finish_ctc self) x;; _master_reap_ctc fuel self
            else other in
          stat ← read_stat x;
          match stat with
          | DPCTC_COMMIT =>
              ok ← _dpctc_ces_stat x DPCTC_RUNNING DPCTC_COMMIT;
              if ok : bool then
                e ← get_ele x;
                if e_toid e =? 0 then mret (Some x)
                else _worker_push_accept_ctc (e_toid e) x;; _master_reap_ctc fuel self
              else cancel
          | DPCTC_CANCEL => cancel
          | DPCTC_RUNNING | DPCTC_INITIAL | DPCTC_FINISH => other
          end
      end
  end.

Definition _dpevp_kev_to_evs (ke : kevent) : Z :=
  let evs := match ke_filter ke with
             | EVFILT_READ | EVFILT_SIGNAL | EVFILT_VNODE => DPEVT_IN
             | EVFILT_WRITE => DPEVT_OUT
             | _ => 0
             end in
  let evs := if has_flag (ke_flags ke) EV_EOF then Z.lor evs DPEVT_HUP else evs in
  if has_flag (ke_flags ke) EV_ERROR then Z.lor evs DPEVT_ERR else evs.

(** A wake-up at a worker, and one at the master: the data says whether the other
    side took the queue it was given, and whether it gave one. *)
Definition worker_wake (self : Z) (ke : kevent) : M unit :=
  let ctc_ev := to_u64 (ke_data ke) in
  (if has_flag ctc_ev TAKE_MASK then _worker_move_commit_ctc self else mret tt);;
  (if has_flag ctc_ev PUSH_MASK then _worker_take_accept_ctc self self else mret tt).

Definition wake_id (ke : kevent) : M Z :=
  match ke_udata ke with Some (PCommit id) | Some (PAccept id) => mret id | _ => ub end.

Definition master_wake (self : Z) (ke : kevent) : M unit :=
  worker ← wake_id ke;
  let ctc_ev := to_u64 (ke_data ke) in
  (if has_flag ctc_ev TAKE_MASK then _worker_move_accept_ctc worker else mret tt);;
  (if has_flag ctc_ev PUSH_MASK then _worker_take_commit_ctc worker self else mret tt).

Definition event_ele (ke : kevent) : M loc :=
  match ke_udata ke with Some (PEle x) => mret x | _ => ub end.
Definition event_num (ke : kevent) : M Z :=
  match ke_ident ke with INum n => mret n | IPtr _ => ub end.

(** One event of a descriptor or a signal: the element it completes, if any. *)
Definition feed_event (fuel : nat) (ke : kevent) : M (option loc) :=
  match ke_filter ke with
  | EVFILT_SIGNAL =>
      efd ← event_ele ke;
      signo ← event_num ke;
      p_sig_notify P efd signo;;
      put_feed (128, 0);;
      done ← _dpefd_feed P fuel efd DPEVT_IN;
      if done : bool then _dpevp_unwatch_tmr efd;; mret (Some efd) else mret None
  | EVFILT_VNODE => p_fsm_notify P (ke_udata ke) (ke_fflags ke);; mret None
  | EVFILT_READ | EVFILT_WRITE =>
      efd ← event_ele ke;
      put_feed (to_u32 (ke_data ke), ke_fflags ke);;
      done ← _dpefd_feed P fuel efd (_dpevp_kev_to_evs ke);
      if done : bool then _dpevp_unwatch_tmr efd;; mret (Some efd) else mret None
  | _ => mret None
  end.

(** Events from the cursor on, up to the first timer event; [wake] handles the
    wake-ups. *)
Fixpoint reap_efd (wake : Z -> kevent -> M unit) (fuel : nat) (self : Z) : M (option loc) :=
  v ← get_node self;
  match v_evs v !! v_index v with
  | None => mret None
  | Some ke =>
      if bool_decide (ke_filter ke = EVFILT_TIMER) then mret None else
      match fuel with
      | O => ub
      | S fuel =>
          upd_node self (set_evs (v_evs v) (S (v_index v)));;
          if bool_decide (ke_filter ke = EVFILT_USER) then wake self ke;; reap_efd wake fuel self
          else
            done ← feed_event fuel ke;
            match done with Some x => mret (Some x) | None => reap_efd wake fuel self end
      end
  end.

Definition _worker_reap_efd : nat -> Z -> M (option loc) := reap_efd worker_wake.
Definition _master_reap_efd : nat -> Z -> M (option loc) := reap_efd master_wake.

(** ** Completing an element *)

Definition asc_over_end (ele : loc) : M bool :=
  e ← get_ele ele;
  if e_refc e <=? 0 then _dpele_del P ele;; mret false
  else mret (negb (e_detach e)).

Definition _dpele_asc_over (ele : loc) : M bool :=
  e ← get_ele ele;
  if ele_is e DPELE_TYPE_EFD || negb (ty_iotype (e_type e) =? DPAIO_TYPE_NAN) then
    put_ele ele (set_asc (set_want e 0) None);; asc_over_end ele
  else
    let no_post := match asc_of P e with Some a => negb (bool_decide (is_Some (a_post a))) | None => false end in
    if ele_is e DPELE_TYPE_CTC && bool_decide (e_stat e = DPCTC_RUNNING) && no_post then mret true
    else
      put_ele ele (set_asc (set_want e 0) None);;
      match asc_of P e ≫= a_post with
      | Some post => ret ← run_post ele post; dpele_set_ret ele ret
      | None => mret tt
      end;;
      asc_over_end ele.

(** [reap_funcs]: by type index. *)
Definition reap_func (i : Z) (fuel : nat) (self : Z) : M (option loc) :=
  v ← get_node self;
  if i =? type_index DPELE_TYPE_EFD then
    if v_worker v then _worker_reap_efd fuel self else _master_reap_efd fuel self
  else if i =? type_index DPELE_TYPE_USD then _dpevp_reap_usd self
  else if i =? type_index DPELE_TYPE_CTC then
    if v_worker v then _worker_reap_ctc fuel self else _master_reap_ctc fuel self
  else _dpevp_reap_tmr fuel self.

(** [DPEVP_REAP_ELE]: reap until an element is to be delivered. *)
Fixpoint reap_ele (fuel : nat) (i self : Z) : M (option loc) :=
  match fuel with
  | O => ub
  | S fuel =>
      ele ← reap_func i fuel self;
      match ele with
      | None => mret None
      | Some x =>
          over ← _dpele_asc_over x;
          if over : bool then mret (Some x) else reap_ele fuel i self
      end
  end.

(** The sources after the descriptors, while the limit is not reached. *)
Fixpoint reap_others (fuel : nat) (srcs : list Z) (self : Z) : M (option loc) :=
  match srcs with
  | [] => mret None
  | i :: srcs =>
      v ← get_node self;
      if v_pop_limit v <? DPEVP_REAP_LIMIT then
        ele ← reap_ele fuel i self;
        match ele with
        | Some x => upd_node self (fun v => set_pop_limit (v_pop_limit v + 1) v);; mret (Some x)
        | None => reap_others fuel srcs self
        end
      else mret None
  end.

(** The time the kernel queue may be waited for; [None] is for ever. *)
Definition wait_spec (v : kevp) (timeout_ms : Z) : option (Z * Z) :=
  let timeout_ms := if (DPEVP_REAP_LIMIT <=? v_pop_limit v) || bool_decide (v_ready v <> []) then 0 else timeout_ms in
  if 0 <=? timeout_ms then Some (timeout_ms / 1000, timeout_ms mod 1000 * 1000000) else None.

(** The next batch of events replaces the last one. *)
Definition fetch (self timeout_ms : Z) : M unit :=
  v ← get_node self;
  upd_node self (fun v => set_evs (v_evs v) 0 (set_pop_limit 0 v));;
  evs ← sys (kevent_wait (v_kq_fd v) (v_capacity v) (wait_spec v timeout_ms));
  upd_node self (set_evs (default [] evs) 0).

Definition dpevp_pop (fuel : nat) (timeout_ms : Z) : M (option loc) :=
  self ← self_id;
  ele ← reap_ele fuel (type_index DPELE_TYPE_EFD) self;
  match ele with
  | Some x => mret (Some x)
  | None =>
      ele ← reap_others fuel [1; 2; 3] self;
      match ele with
      | Some x => mret (Some x)
      | None => fetch self timeout_ms;; mret None
      end
  end.

(** ** Loops come and go *)

Fixpoint _dpele_deque_clear (l : list loc) : M unit :=
  match l with
  | [] => mret tt
  | x :: l => dpele_del P (Some x);; _dpele_deque_clear l
  end.

(** [memset] of the [dpevp_t] part. *)
Definition zero_base (v : kevp) : kevp :=
  KNode 0 0 (v_worker v) 0 0 [] 0 [] 0 [] (v_accepting v) (v_commiting v) (v_accepted v) (v_commited v)
    (v_request v) (v_respond v) (v_feed v).

Definition _dpevp_free (self : Z) : M unit :=
  v ← get_node self;
  (if 0 <? v_kq_fd v then _ ← sys (ksys_close (v_kq_fd v)); mret tt else mret tt);;
  v ← get_node self;
  _dpele_deque_clear (v_enter v);;
  upd_node self zero_base.

(** A loop at slot [self], all zero before. *)
Definition _dpevp_init (self type id : Z) : M bool :=
  let loop kq cap v := KNode id type (v_worker v) kq cap [] 0 [] 0 [] [] [] [] [] (v_request v) (v_respond v) (v_feed v) in
  r ← sys kqueue;
  if r <? 0 then upd_node self (loop r 0);; _dpevp_free self;; mret false else
  ok ← alloc_ok;
  if negb ok then upd_node self (loop r 0);; _dpevp_free self;; mret false else
  upd_node self (loop r EVS_CAPACITY);;
  mret true.

Definition new_node (self : Z) (worker : bool) : M unit :=
  modify (with_nodes <[self := KNode 0 0 worker 0 0 [] 0 [] 0 [] [] [] [] [] false false (0, 0)]>).

(** The result of [_dpevp_init] is not looked at; clearing [NULL] is undefined. *)
Definition worker_new (type id : Z) : M bool :=
  ok ← alloc_ok;
  if negb ok then ub else
  new_node id true;;
  _ ← _dpevp_init id type id;
  upd_node id (set_turns true true);;
  mret true.

Definition master_new (type id : Z) : M bool :=
  ok ← alloc_ok;
  if negb ok then mret false else
  new_node 0 false;;
  ok ← _dpevp_init 0 0 0;
  if negb ok then modify (with_nodes (delete 0));; mret false else mret true.

Definition dpevp_new (type id : Z) : M bool :=
  if id =? 0 then master_new type id else worker_new type id.

(** The queue of the loop is zero by the time its wake-up is removed from it. *)
Definition worker_del (self : Z) : M unit :=
  _dpevp_free self;;
  v ← get_node self;
  _dpele_deque_clear (v_accepting v);;
  _dpele_deque_clear (v_commiting v);;
  _dpele_deque_clear (v_accepted v);;
  _dpele_deque_clear (v_commited v);;
  _dpele_wake_fini self (PAccept self);;
  _dpele_wake_fini 0 (PCommit self);;
  modify (with_nodes (delete self)).

Definition master_del (self : Z) : M unit :=
  _dpevp_free self;; modify (with_nodes (delete self)).

Definition dpevp_del (self : Z) : M unit :=
  v ← get_node self;
  if v_id v =? 0 then master_del self else worker_del self.

Definition worker_start (self : Z) : M bool := _dpele_wake_register self (PAccept self).

Fixpoint master_watch (ids : list Z) (self : Z) : M bool :=
  match ids with
  | [] => mret true
  | i :: ids =>
      _ ← get_node i;
      ok ← _dpele_wake_register self (PCommit i);
      if ok : bool then master_watch ids self else mret false
  end.
Definition master_start (self : Z) : M bool :=
  s ← gets w_set; master_watch (seqZ 1 (gv_count s - 1)) self.

(** The loop becomes the thread's own; [start_fun] runs on it. *)
Definition enter_loop (self : Z) : M unit :=
  modify (fun w => KWorld (w_eles w) (w_next w) (w_oom w) (w_race w) (w_nodes w) (w_set w) (Some self) (w_ext w)).
Definition dpevp_start (self : Z) (start_fun : M unit) : M unit :=
  enter_loop self;;
  v ← get_node self;
  _ ← (if v_id v =? 0 then master_start self else worker_start self);
  start_fun.

Definition dpevp_id : M Z :=
  s ← gets w_self;
  match s with Some n => v ← get_node n; mret (v_id v) | None => mret (-1) end.
Definition dpevp_type : M Z :=
  s ← gets w_self;
  match s with Some n => v ← get_node n; mret (v_type v) | None => mret (-1) end.

(** ** Submitting, ending and forwarding *)

(** [asc] is [None] for [NULL]. *)
Definition dpevp_addv (fuel : nat) (ele : option loc) (asc : option Z) (vargs : list Z) : M Z :=
  match ele, asc ≫= p_asc P with
  | Some x, Some a =>
      e ← get_ele x;
      if (Z.land (a_types a) (Z.shiftl 1 (type_index (ty_type (e_type e)))) =? 0)
         || (negb (a_iotypes a =? 0)
             && (Z.land (a_iotypes a) (Z.shiftl 1 (ty_iotype (e_type e) mod 32)) =? 0))
      then mret DPE_INVAL else (* a shift by [DPAIO_TYPE_NAN] takes the low five bits of the count *)
      doing ← dpele_is_doing x;
      if doing && negb (has_flag (a_flags a) DPASC_FLAG_ALLOW_DOING) then mret DPE_PERM else
      upd_ele x (fun e => set_asc e asc);;
      data ← _dpele_asc_data P x;
      e ← get_ele x;
      r ← a_prep a x vargs (KOut 0 0 (e_able e) 0 0 data);
      ret ← (if negb (r.1 =? DPE_CONTINUE) then mret r.1 else
             e ← get_ele x;
             match ty_type (e_type e) with
             | DPELE_TYPE_EFD => w ← _dpefd_wake P fuel x r.2; mret w.1
             | DPELE_TYPE_CTC => self ← self_id; _dpctc_commit self x;; mret DPE_WAIT
             | DPELE_TYPE_USD | DPELE_TYPE_TMR => mret DPE_WAIT
             end);
      dpele_set_ret x ret;;
      if dpret_isok ret then
        self ← self_id;
        _dpele_deque_push_back self QReady x;;
        e ← get_ele x;
        mret (if e_detach e then DPE_OK else DPE_WAIT)
      else if ret =? DPE_WAIT then
        dpele_set_ret x DPE_INPROGRESS;;
        _ ← _dpevp_watch_tmr x;
        e ← get_ele x;
        mret (if e_detach e then DPE_OK else DPE_WAIT)
      else
        upd_ele x (fun e => set_asc e None);; mret ret
  | _, _ => mret DPE_INVAL
  end.

Definition dpevp_add (fuel : nat) (ele : option loc) (asc : option Z) (vargs : list Z) : M Z :=
  dpevp_addv fuel ele asc vargs.

Definition dpevp_end (ele : loc) (ret : Z) : M Z :=
  doing ← dpele_is_doing ele;
  if negb doing then mret DPE_OK else
  self ← self_id;
  v ← get_node self;
  e ← get_ele ele;
  if ele_is e DPELE_TYPE_CTC && negb (e_fromid e =? v_id v) then mret DPE_PERM else
  _dpevp_unwatch_tmr ele;;
  (match ty_type (e_type e) with
   | DPELE_TYPE_EFD =>
       upd_ele ele (fun e => set_want (set_ret e ret) DPEVT_NAN);; _dpele_deque_push_back self QReady ele
   | DPELE_TYPE_USD => dpele_set_ret ele ret;; _dpele_deque_push_back self QReady ele
   | DPELE_TYPE_CTC =>
       ok ← _dpctc_ces_stat ele DPCTC_CANCEL DPCTC_COMMIT;
       if ok : bool then dpele_set_ret ele ret else mret tt
   | DPELE_TYPE_TMR => dpele_set_ret ele ret;; _dpele_deque_push_back self QReady ele
   end);;
  mret DPE_OK.

Definition dpctc_reto (self : option loc) (toid : Z) : M Z :=
  match self with
  | None => mret DPE_INVAL
  | Some x =>
      e ← get_ele x;
      if negb (ele_is e DPELE_TYPE_CTC) then mret DPE_INVAL else
      toid ← _dpctc_resolve_toid x toid;
      if dpret_iserr toid then mret toid else
      stat ← _dpctc_stat x;
      if negb (bool_decide (stat = DPCTC_RUNNING)) then mret DPE_PERM else
      upd_ele x (fun e => set_reto (set_toid e toid) true);; mret DPE_OK
  end.

(** The arguments of a call, stored in its scratch memory. *)
Definition _dpctc_submit_prep (ctc : loc) (arg : list Z) (out : kout) : M (Z * kout) :=
  e ← get_ele ctc;
  if negb (ele_is e DPELE_TYPE_CTC) then mret (DPE_INVAL, out) else
  let stat := stat_index (e_stat e) in
  if (stat_index DPCTC_INITIAL <? stat) && (stat <? stat_index DPCTC_FINISH) then mret (DPE_REPEAT, out) else
  if negb (o_data out) then mret (DPE_INVAL, out) else
  match arg, e_scratch e with
  | a0 :: a1 :: _, Some (cap, ws) =>
      put_ele ctc (set_scratch e (Some (cap, splice 0 [a0; a1] ws)));; mret (DPE_CONTINUE, out)
  | _, _ => ub
  end.

Definition dpctc_submit : kasc E := KAsc _dpctc_submit_prep None (Z.shiftl 1 (type_index DPELE_TYPE_CTC)) 0 16 0.

Definition dpevp_end_ctc_ (ctc : option loc) (err : Z) : M Z :=
  match ctc with
  | None => mret DPE_INVAL
  | Some x =>
      e ← get_ele x;
      doing ← dpele_is_doing x;
      if negb (ele_is e DPELE_TYPE_CTC) || negb doing then mret DPE_INVAL else
      self ← self_id;
      dpele_set_ret x err;;
      if e_reto e then
        upd_ele x (fun e => set_reto e false);;
        _dpctc_set_stat x DPCTC_COMMIT;;
        commit_ctc_f self x;;
        mret DPE_OK
      else
        _dpctc_set_stat x DPCTC_FINISH;;
        if e_detach e then
          n ← dpele_refc x;
          (if n <=? 0 then _dpele_del P x else mret tt);;
          mret DPE_OK
        else
          finish_ctc_f self x;; mret DPE_OK
  end.

(** ** Signals and files *)

Definition kq_call (ke : kevent) : M Z :=
  n ← self_id; r ← kevent_on n [ke]; mret (if r =? 0 then DPE_OK else r).

(** On a thread without a loop, or with a number that is not one: an error. *)
Definition kq_guarded (ok : bool) (ke : kevent) : M Z :=
  s ← gets w_self;
  match s with Some _ => if ok then kq_call ke else mret DPE_INVAL | None => mret DPE_INVAL end.

Definition _dpevp_kq_sig_add (ele : loc) (signo : Z) : M Z :=
  kq_guarded (0 <? signo) (EV_SET (INum signo) EVFILT_SIGNAL EV_ADD 0 0 (Some (PEle ele))).
Definition _dpevp_kq_sig_del (signo : Z) : M Z :=
  kq_guarded (0 <? signo) (EV_SET (INum signo) EVFILT_SIGNAL EV_DELETE 0 0 None).
Definition _dpevp_kq_vnode_add (vnode_fd : Z) (udata : kptr) (fflags : Z) : M Z :=
  kq_guarded (0 <=? vnode_fd) (EV_SET (INum vnode_fd) EVFILT_VNODE EV_ADD fflags 0 (Some udata)).
Definition _dpevp_kq_vnode_del (vnode_fd : Z) : M Z :=
  kq_guarded (0 <=? vnode_fd) (EV_SET (INum vnode_fd) EVFILT_VNODE EV_DELETE 0 0 None).

End KqEvp.
