(* ===== verification/KqFacts.v ===== *)
(** * The kqueue loop: rules, registrations and batches

    Rules of [wp] for the world of [Kq]; what registering a descriptor leaves in
    the kernel queue; what becomes of a batch of events when the loop asks for the
    next one; and the loop of [_dpefd_wake] turn by turn. *)

From S2P Require Import Prelude Dpret Ele Tmrset World Kq KqEvp.

#[local] Set Default Proof Using "Type*".

Section Rules.
Context {E : Type} `{KSys E}.

Lemma kwp_get_kele x (w : kworld E) k (Q : kele -> kworld E -> Prop) :
  w_eles w !! x = Some k -> Q k w -> wp (get_kele x) w Q.
Proof. intros Hx HQ. unfold wp, get_kele. by rewrite Hx. Qed.

Lemma kwp_get_ele x (w : kworld E) k (Q : dpele -> kworld E -> Prop) :
  w_eles w !! x = Some k -> Q (k_ele k) w -> wp (get_ele x) w Q.
Proof. intros Hx HQ. apply wp_bind. by eapply kwp_get_kele. Qed.

Lemma kwp_put_kele x k' (w : kworld E) k (Q : unit -> kworld E -> Prop) :
  w_eles w !! x = Some k -> Q tt (with_eles <[x := k']> w) -> wp (put_kele x k') w Q.
Proof. intros Hx HQ. apply wp_bind. by eapply kwp_get_kele. Qed.

Lemma kwp_put_ele x e (w : kworld E) k (Q : unit -> kworld E -> Prop) :
  w_eles w !! x = Some k ->
  Q tt (with_eles <[x := KEle e (is_inpoll_read k) (is_inpoll_write k)]> w) -> wp (put_ele x e) w Q.
Proof. intros Hx HQ. apply wp_bind. eapply kwp_get_kele; [done|]. by eapply kwp_put_kele. Qed.

Lemma kwp_upd_ele x f (w : kworld E) k (Q : unit -> kworld E -> Prop) :
  w_eles w !! x = Some k ->
  Q tt (with_eles <[x := KEle (f (k_ele k)) (is_inpoll_read k) (is_inpoll_write k)]> w) -> wp (upd_ele x f) w Q.
Proof. intros Hx HQ. apply wp_bind. eapply kwp_get_ele; [done|]. by eapply kwp_put_ele. Qed.

Lemma kwp_put_inpoll x r b (w : kworld E) k (Q : unit -> kworld E -> Prop) :
  w_eles w !! x = Some k -> Q tt (with_eles <[x := KEle (k_ele k) r b]> w) -> wp (put_inpoll x r b) w Q.
Proof. intros Hx HQ. apply wp_bind. eapply kwp_get_ele; [done|]. by eapply kwp_put_kele. Qed.

Lemma kwp_get_node n (w : kworld E) v (Q : kevp -> kworld E -> Prop) :
  w_nodes w !! n = Some v -> Q v w -> wp (get_node n) w Q.
Proof. intros Hn HQ. unfold wp, get_node. by rewrite Hn. Qed.

Lemma kwp_upd_node n f (w : kworld E) v (Q : unit -> kworld E -> Prop) :
  w_nodes w !! n = Some v -> Q tt (with_nodes <[n := f v]> w) -> wp (upd_node n f) w Q.
Proof. intros Hn HQ. apply wp_bind. by eapply kwp_get_node. Qed.

Lemma kwp_self_id (w : kworld E) n (Q : Z -> kworld E -> Prop) :
  w_self w = Some n -> Q n w -> wp self_id w Q.
Proof. intros Hn HQ. unfold wp, self_id. by rewrite Hn. Qed.

Lemma kwp_sys {A} (f : E -> A * E) (w : kworld E) (Q : A -> kworld E -> Prop) :
  Q (f (w_ext w)).1 (with_ext (f (w_ext w)).2 w) -> wp (sys f) w Q.
Proof. unfold wp, sys. by destruct (f (w_ext w)). Qed.

Lemma kwp_kevent_on n cs (w : kworld E) v (Q : Z -> kworld E -> Prop) :
  w_nodes w !! n = Some v ->
  Q (kevent_change (v_kq_fd v) cs (w_ext w)).1 (with_ext (kevent_change (v_kq_fd v) cs (w_ext w)).2 w) ->
  wp (kevent_on n cs) w Q.
Proof. intros Hn HQ. apply wp_bind. eapply kwp_get_node; [done|]. by apply kwp_sys. Qed.

Lemma kwp_get_feed (w : kworld E) n v (Q : Z * Z -> kworld E -> Prop) :
  w_self w = Some n -> w_nodes w !! n = Some v -> Q (v_feed v) w -> wp get_feed w Q.
Proof.
  intros Hs Hn HQ. apply wp_bind. eapply kwp_self_id; [done|]. apply wp_bind. by eapply kwp_get_node.
Qed.
End Rules.

(** Runs the first step of a goal [wp m w Q] when it reads or writes the world. *)
Ltac kq_step :=
  match goal with
  | |- wp (_ ≫= _) _ _ => apply wp_bind
  | |- wp (mret _) _ _ => apply wp_ret
  | |- wp (get_kele _) _ _ => eapply kwp_get_kele; [eassumption|]
  | |- wp (get_ele _) _ _ => eapply kwp_get_ele; [eassumption|]
  | |- wp (get_node _) _ _ => eapply kwp_get_node; [eassumption|]
  | |- wp (upd_node _ _) _ _ => eapply kwp_upd_node; [eassumption|]
  | |- wp self_id _ _ => eapply kwp_self_id; [eassumption|]
  | |- wp get_feed _ _ => eapply kwp_get_feed; [eassumption|eassumption|]
  | |- wp (kevent_on _ _) _ _ => eapply kwp_kevent_on; [eassumption|]
  | |- wp (sys _) _ _ => apply kwp_sys
  | |- wp (gets _) _ _ => apply wp_gets
  end; cbv beta.

(** ** Registering a descriptor *)

(** What one change makes of the filters registered at a queue. *)
Definition change1 (c : kevent) (reg : kident -> kfilter -> option (option kptr)) (i : kident) (f : kfilter) :
    option (option kptr) :=
  if bool_decide (i = ke_ident c /\ f = ke_filter c) then
    if has_flag (ke_flags c) EV_DELETE then None
    else if has_flag (ke_flags c) EV_ADD then Some (ke_udata c) else reg i f
  else reg i f.
Definition changes (cs : list kevent) (reg : kident -> kfilter -> option (option kptr)) :=
  fold_left (fun reg c => change1 c reg) cs reg.

(** A kernel keeps the filters registered at each queue; a call that succeeds has
    made its changes in order, at its queue alone. *)
Class KRegs (E : Type) `{KSys E} := {
  registered : E -> Z -> kident -> kfilter -> option (option kptr);
  change_made q cs s s' : kevent_change q cs s = (0, s') ->
    forall q' i f, registered s' q' i f =
      if bool_decide (q' = q) then changes cs (registered s q) i f else registered s q' i f;
}.

Definition inpoll (k : kele) (f : kfilter) : bool :=
  match f with EVFILT_READ => is_inpoll_read k | EVFILT_WRITE => is_inpoll_write k | _ => false end.
Definition wanted (e : dpele) (f : kfilter) : bool :=
  match f with
  | EVFILT_READ => has_flag (e_poll e) DPEVT_IN
  | EVFILT_WRITE => has_flag (e_poll e) DPEVT_OUT
  | _ => false
  end.
Definition io_filter (f : kfilter) : Prop := f = EVFILT_READ \/ f = EVFILT_WRITE.

Section Registering.
Context {E : Type} `{KRegs E}.

(** The flags of an element say what is registered for its descriptor. *)
Definition flags_true (x : loc) (k : kele) (q : Z) (s : E) : Prop :=
  forall f, io_filter f ->
    registered s q (INum (e_fd (k_ele k))) f = if inpoll k f then Some (Some (PEle x)) else None.

(** Nothing else is touched: the filters of other descriptors and queues. *)
Definition others_kept (k : kele) (q : Z) (s s' : E) : Prop :=
  forall q' i f, q' <> q \/ i <> INum (e_fd (k_ele k)) \/ ~ io_filter f -> registered s' q' i f = registered s q' i f.

Lemma changes_app a b reg : changes (a ++ b) reg = changes b (changes a reg).
Proof. unfold changes. by rewrite fold_left_app. Qed.

(** What the change of one filter makes of a queue whose flag is true. *)
Lemma filter_change_spec (x : loc) (e : dpele) f (wanted inpoll : bool) reg :
  reg (INum (e_fd e)) f = (if inpoll then Some (Some (PEle x)) else None) ->
  changes (filter_change e f wanted inpoll (PEle x)) reg (INum (e_fd e)) f
    = (if wanted then Some (Some (PEle x)) else None) /\
  (forall i f', i <> INum (e_fd e) \/ f' <> f -> changes (filter_change e f wanted inpoll (PEle x)) reg i f' = reg i f').
Proof.
  intros Hr. unfold filter_change, fd_change. destruct wanted, inpoll; cbn; try by split.
  all: unfold change1; cbn; split; [by rewrite bool_decide_true|].
  all: intros i f' Hne; rewrite bool_decide_false; [done|]; intros [-> ->]; by destruct Hne.
Qed.

(** The two changes together. *)
Lemma watch_changes (x : loc) (k : kele) (q : Z) (s : E) (cr cw : bool) :
  flags_true x k q s ->
  let kevs := filter_change (k_ele k) EVFILT_READ cr (is_inpoll_read k) (PEle x) ++
              filter_change (k_ele k) EVFILT_WRITE cw (is_inpoll_write k) (PEle x) in
  (forall f, io_filter f -> changes kevs (registered s q) (INum (e_fd (k_ele k))) f
     = if (match f with EVFILT_READ => cr | _ => cw end) then Some (Some (PEle x)) else None) /\
  (forall i f, i <> INum (e_fd (k_ele k)) \/ ~ io_filter f -> changes kevs (registered s q) i f = registered s q i f).
Proof.
  intros Hf kevs. unfold kevs. rewrite changes_app.
  destruct (filter_change_spec x (k_ele k) EVFILT_READ cr (is_inpoll_read k) (registered s q)) as [R1 R2];
    [by apply (Hf EVFILT_READ); left|].
  set (reg := changes (filter_change (k_ele k) EVFILT_READ cr _ _) (registered s q)) in *.
  destruct (filter_change_spec x (k_ele k) EVFILT_WRITE cw (is_inpoll_write k) reg) as [W1 W2].
  { rewrite R2 by by right. apply (Hf EVFILT_WRITE). by right. }
  split.
  - intros f [->| ->]; [|done]. rewrite W2 by by right. done.
  - intros i f Hne. assert (Hn : forall g, io_filter g -> i <> INum (e_fd (k_ele k)) \/ f <> g).
    { intros g Hg. destruct Hne as [?|Hne]; [by left|]. right. by intros ->. }
    rewrite W2 by (apply Hn; by right). apply R2, Hn. by left.
Qed.

(** C29. Registering a descriptor leaves exactly the filters of the events it polls
    registered with the kernel, pointing to the element, and its flags say so;
    filters registered before are not registered again, and no other descriptor or
    queue is touched.  When the kernel refuses, the element is as before. *)
Theorem watch_registers_polled x (w : kworld E) k n v :
  w_eles w !! x = Some k -> w_self w = Some n -> w_nodes w !! n = Some v ->
  flags_true x k (v_kq_fd v) (w_ext w) ->
  wp (_dpevp_watch_efd x) w (fun r w' => exists k', w_eles w' !! x = Some k' /\ k_ele k' = k_ele k /\
    w_nodes w' = w_nodes w /\
    if r =? DPE_OK then
      (forall f, io_filter f -> inpoll k' f = wanted (k_ele k) f) /\
      flags_true x k' (v_kq_fd v) (w_ext w') /\ others_kept k (v_kq_fd v) (w_ext w) (w_ext w')
    else k' = k).
Proof.
  intros Hx Hs Hn Hf. unfold _dpevp_watch_efd. do 2 kq_step.
  set (e := k_ele k) in *. set (cr := has_flag (e_poll e) DPEVT_IN). set (cw := has_flag (e_poll e) DPEVT_OUT).
  destruct (watch_changes x k (v_kq_fd v) (w_ext w) cr cw Hf) as [Hio Hother]. fold e in Hio, Hother.
  set (kevs := filter_change e EVFILT_READ _ _ _ ++ _) in *. cbv zeta.
  destruct (bool_decide_reflect (kevs = [])) as [Hnil|Hne].
  - kq_step. exists k. split_and!; try done. cbn. rewrite Hnil in Hio, Hother. cbn in Hio. split_and!; [|exact Hf|done].
    intros f Hff. specialize (Hio f Hff). pose proof (Hf f Hff) as Hg. fold e in Hg. rewrite Hg in Hio.
    destruct Hff as [->| ->]; cbn in *; fold cr cw; destruct (is_inpoll_read k), (is_inpoll_write k), cr, cw; done.
  - do 4 kq_step. destruct (kevent_change (v_kq_fd v) kevs (w_ext w)) as [r s'] eqn:Hc. cbn.
    destruct (Z.eqb_spec r 0) as [->|Hr].
    + apply wp_bind. eapply kwp_put_inpoll; [done|]. kq_step. exists (KEle e cr cw). cbn.
      rewrite lookup_insert_eq. split_and!; try done.
      * intros f Hff. rewrite (change_made _ _ _ _ Hc), bool_decide_true by done. cbn. rewrite Hio by done.
        by destruct Hff as [->| ->].
      * intros q' i f Hq. rewrite (change_made _ _ _ _ Hc). destruct (bool_decide_reflect (q' = v_kq_fd v)) as [->|]; [|done].
        apply Hother. by destruct Hq as [?|].
    + kq_step. exists k. split_and!; try done. by rewrite (proj2 (Z.eqb_neq r DPE_OK)).
Qed.

End Registering.

(** ** The next batch *)

Section Batches.
Context {E : Type} `{KSys E} (P : kprogram E).

(** Once 32 elements have been delivered since the last batch, the loop asks for
    the next one without looking at timer events: a timer event at the cursor, and
    every event after it, is replaced.  A timer is one-shot, so the kernel will not
    report it again; the element waits on, and no element has changed. *)
Theorem full_batch_drops_timers fuel t (w : kworld E) n v ke :
  w_self w = Some n -> w_nodes w !! n = Some v ->
  v_evs v !! v_index v = Some ke -> ke_filter ke = EVFILT_TIMER -> DPEVP_REAP_LIMIT <= v_pop_limit v ->
  wp (dpevp_pop P (S fuel) t) w (fun r w' => r = None /\ w_eles w' = w_eles w /\
    exists v', w_nodes w' !! n = Some v' /\ v_index v' = O /\ v_pop_limit v' = 0 /\
      v_evs v' = default [] (kevent_wait (v_kq_fd v) (v_capacity v) (Some (0, 0)) (w_ext w)).1).
Proof.
  intros Hs Hn Hev Ht Hl. unfold dpevp_pop. do 2 kq_step.
  assert (Hreap : forall (Q : option loc -> kworld E -> Prop), Q None w -> wp (reap_ele P (S fuel) 0 n) w Q).
  { intros Q HQ. cbn [reap_ele]. apply wp_bind. unfold reap_func. do 2 kq_step. cbn.
    assert (Hr : forall wake, reap_efd P wake fuel n w = Some (None, w)).
    { intros wake. destruct fuel; cbn [reap_efd]; unfold mbind, ST_bind, get_node; rewrite Hn; cbn;
        rewrite Hev; by rewrite bool_decide_true. }
    unfold _worker_reap_efd, _master_reap_efd, wp. by destruct (v_worker v); rewrite Hr. }
  kq_step. apply Hreap. kq_step. cbn [reap_others]. do 2 kq_step.
  rewrite (proj2 (Z.ltb_ge _ _)) by lia. kq_step. kq_step. unfold fetch. do 4 kq_step. do 2 kq_step.
  eapply kwp_upd_node; [apply lookup_insert_eq|]. kq_step. cbn.
  assert (Hw : wait_spec v t = Some (0, 0)) by (unfold wait_spec; by rewrite (proj2 (Z.leb_le _ _) Hl)).
  rewrite Hw. split_and!; [done|done|]. eexists. rewrite lookup_insert_eq. split_and!; done.
Qed.

(** ** The loop of [_dpefd_wake], turn by turn *)

(** [n] turns that all go on. *)
Fixpoint wake_turns (n : nat) (x : loc) (out : kout) : ST (kworld E) kout :=
  match n with
  | O => mret out
  | S n => t ← wake_turn P x out; if (t.1 : bool) then wake_turns n x t.2.2 else ub
  end.

Definition event_pending (x : loc) (w : kworld E) : Prop :=
  exists k, w_eles w !! x = Some k /\ Z.land (e_able (k_ele k)) (e_want (k_ele k)) <> 0.

(** A turn that keeps [I], with an event pending, goes on for ever. *)
Lemma loop_spins x (I : kout -> kworld E -> Prop) :
  (forall out w, I out w -> event_pending x w /\ wp (wake_turn P x out) w (fun t w' => t.1 = true /\ I t.2.2 w')) ->
  forall out w, I out w ->
    (forall n, wp (wake_turns n x out) w I) /\ (forall fuel r, efd_wake_loop P fuel x out r w = None).
Proof.
  intros HI out w H0. split.
  - intros n. revert out w H0. induction n as [|n IH]; intros out w H0; [by apply wp_ret|].
    cbn [wake_turns]. apply wp_bind. eapply wp_mono; [apply (HI _ _ H0)|]. cbv beta.
    intros t w' [-> H1]. by apply IH.
  - intros fuel. revert out w H0. induction fuel as [|fuel IH]; intros out w H0 r.
    all: destruct (HI _ _ H0) as [(k & Hk & Hp) Hturn].
    all: assert (Hg : get_ele x w = Some (k_ele k, w)) by (unfold get_ele, get_kele, mbind, ST_bind; by rewrite Hk).
    all: cbn [efd_wake_loop]; rewrite (ST_bind_Some _ _ _ _ _ Hg); rewrite (proj2 (Z.eqb_neq _ _) Hp).
    + done.
    + apply wp_run in Hturn as (t & w' & Hr & Ht & H1). rewrite (ST_bind_Some _ _ _ _ _ Hr), Ht. by apply IH.
Qed.

End Batches.
