(* ===== verification/AscKq.v ===== *)
(** * Operations over kqueue ([lib/dpapp/os/bsd/dpasc_kqueue.c])

    The operations of [AscIo] and [AscSyc] on the BSD systems.  A descriptor is
    level triggered and its event says how many bytes are ready: [able_bytes], the
    quota of a call of [post].  The loops that repeat a system call differ from
    those of Linux in this quota and in what they do when the call would block;
    calls of Linux alone are refused.  The rest has the same text in both files
    and is used from there. *)

From S2P Require Import Prelude Dpret Dpbuf Ele Tmrset World Aio AscIo AscSyc.

#[local] Set Default Proof Using "Type*".

(** An operation; [post] gets [out->able_bytes]. *)
Record kopdesc (Os : Type) := KOp {
  ko_prep : dpele -> ST (ast Os) Z;
  ko_post : option (Z -> dpele -> ST (ast Os) Z);
  ko_types : Z;
  ko_iotypes : Z;
  ko_data : scratch;
  ko_datasz : Z;
  ko_flags : Z;
}.
Arguments KOp {Os}.
Arguments ko_prep {Os}. Arguments ko_post {Os}. Arguments ko_types {Os}. Arguments ko_iotypes {Os}.
Arguments ko_data {Os}. Arguments ko_datasz {Os}. Arguments ko_flags {Os}.

(** [errno == EAGAIN || errno == EWOULDBLOCK] *)
Definition would_block (e : Z) : bool := e =? - DPE_WAIT.

(** What is left of the quota after [res] bytes; zero stands for no quota. *)
Definition use_quota (quota res : Z) : Z := if 0 <? quota then to_u32 (quota - to_u32 res) else quota.

Section AscKq.
Context {Os : Type} `{IoSys Os}.

Abbreviation X := (ST (ast Os)).
Abbreviation kop := (kopdesc Os).

Definition DPASC_GFD_FUNCTION (prep : dpele -> X Z) (post : option (Z -> dpele -> X Z)) (d : scratch) (sz fl : Z) : kop :=
  KOp prep post (type_bit DPELE_TYPE_EFD) GFD_SKT d sz fl.
Definition DPASC_SKT_FUNCTION (prep : dpele -> X Z) (post : option (Z -> dpele -> X Z)) (d : scratch) (sz fl : Z) : kop :=
  KOp prep post (type_bit DPELE_TYPE_EFD) (Z.shiftl 1 DPAIO_TYPE_SKT) d sz fl.
Definition DPASC_EFD_FUNCTION (prep : dpele -> X Z) : kop :=
  KOp prep None (type_bit DPELE_TYPE_EFD) 0 SNull 0 0.
Definition DPASC_SYC_FUNCTION (prep post : dpele -> X Z) : kop :=
  KOp prep (Some (fun _ => post)) (type_bit DPELE_TYPE_CTC) 0 (SSyc zero_syc) 56 0.

(** ** Repeating a call within the quota *)

(** The call fails: nothing is given up when it would block. *)
Definition io_failed (total : Z) : X Z :=
  e ← errno;
  if would_block e then mret (if 0 <? total then total else DPE_WAIT)
  else inva_wanted;; mret (if 0 <? total then total else - e).

Fixpoint buf_loop (fuel : nat) (fd : Z) (iofun : Z -> dpaio_arg -> Z -> X Z) (saved_len quota total : Z) : X Z :=
  match fuel with
  | O => ub
  | S fuel =>
      let remain := saved_len - total in
      let try_len := if (0 <? quota) && (quota <? to_u32 remain) then to_i32 quota else remain in
      ioarg ← get_arg;
      put_arg (with_len ioarg (total + try_len));;
      ioarg ← get_arg;
      res ← iofun fd ioarg total;
      ioarg ← get_arg;
      put_arg (with_len ioarg saved_len);;
      if 0 <? res then
        let total := total + res in
        let quota := use_quota quota res in
        if total =? saved_len then mret total
        else if quota =? 0 then mret DPE_WAIT
        else buf_loop fuel fd iofun saved_len quota total
      else if res =? 0 then inva_wanted;; mret DPE_EOF
      else io_failed total
  end.

Definition _dpaio_buf_post (able_bytes : Z) (gio : dpele) (iofun : Z -> dpaio_arg -> Z -> X Z) : X Z :=
  ioarg ← get_arg;
  buf_loop (Z.to_nat (io_len ioarg) + 1) (union_fd gio) iofun (io_len ioarg) able_bytes 0.

Fixpoint iov_loop (fuel : nat) (fd : Z) (iofun : Z -> list iovec -> X Z) (iov : list iovec)
    (total_len quota total : Z) : X Z :=
  match fuel with
  | O => ub
  | S fuel =>
      if (quota =? 0) && (total <? total_len) then mret DPE_WAIT else
      res ← iofun fd iov;
      if 0 <? res then
        let total := total + res in
        let quota := use_quota quota res in
        let iov := _dpioc_iov_advance iov res in
        if total =? total_len then mret total
        else if quota =? 0 then mret DPE_WAIT
        else iov_loop fuel fd iofun iov total_len quota total
      else if res =? 0 then inva_wanted;; mret DPE_EOF
      else io_failed total
  end.

Definition _dpaio_iov_post (able_bytes : Z) (gio : dpele) (iofun : Z -> list iovec -> X Z) : X Z :=
  ioarg ← get_arg;
  a ← iov_array (io_ptr ioarg);
  iov ← iov_prefix (io_len ioarg) a;
  iov_loop (Z.to_nat (io_total ioarg) + 1) (union_fd gio) iofun iov (io_total ioarg) able_bytes 0.

Fixpoint msg_loop (fuel : nat) (fd : Z) (iofun : Z -> msghdr -> list iovec -> Z -> X (Z * msghdr))
    (msg : msghdr) (iov : list iovec) (flag total_len quota total : Z) : X (Z * msghdr) :=
  match fuel with
  | O => ub
  | S fuel =>
      if (quota =? 0) && (total <? total_len) then mret (DPE_WAIT, msg) else
      r ← iofun fd msg iov flag;
      let '(res, msg) := r : Z * msghdr in
      if 0 <? res then
        let total := total + res in
        let quota := use_quota quota res in
        let iov := _dpioc_iov_advance iov res in
        let msg := set_iovlen msg (zlen iov) in
        if total =? total_len then mret (total, msg)
        else if quota =? 0 then mret (DPE_WAIT, msg)
        else msg_loop fuel fd iofun msg iov flag total_len quota total
      else if res =? 0 then inva_wanted;; mret (if 0 <? total then total else DPE_EOF, msg)
      else ret ← io_failed total; mret (ret, msg)
  end.

(** The caller's header gets the fields the system wrote. *)
Definition _dpaio_msg_post (able_bytes : Z) (gio : dpele)
    (iofun : Z -> msghdr -> list iovec -> Z -> X (Z * msghdr)) : X Z :=
  io ← get_arg;
  match io_ptr io with
  | Some (PMsg p) =>
      m ← get_msg p;
      q ← lift_opt (msg_iov m);
      a ← get_iovs q;
      iov ← iov_prefix (to_i32 (msg_iovlen m)) a;
      r ← msg_loop (Z.to_nat (io_total io) + 1) (union_fd gio) iofun m iov (io_flag io) (io_total io) able_bytes 0;
      m ← get_msg p;
      put_msg p (set_back m (msg_namelen r.2) (msg_controllen r.2) (msg_flags r.2));;
      mret r.1
  | _ => ub
  end.

(** ** Descriptors *)

Definition _dpgfd_read_post (q : Z) (gio : dpele) : X Z := _dpaio_buf_post q gio _dpaio_read.
Definition dpgfd_read : kop :=
  DPASC_GFD_FUNCTION _dpgfd_read_prep (Some _dpgfd_read_post) (SStm zero_stm) ARG_SIZE 0.
Definition _dpgfd_write_post (q : Z) (gio : dpele) : X Z := _dpaio_buf_post q gio _dpaio_write.
Definition dpgfd_write : kop :=
  DPASC_GFD_FUNCTION _dpgfd_write_prep (Some _dpgfd_write_post) (SStm zero_stm) ARG_SIZE 0.
Definition _dpgfd_readv_post (q : Z) (gio : dpele) : X Z := _dpaio_iov_post q gio readv.
Definition dpgfd_readv : kop :=
  DPASC_GFD_FUNCTION _dpgfd_readv_prep (Some _dpgfd_readv_post) (SStm zero_stm) ARG_SIZE 0.
Definition _dpgfd_writev_post (q : Z) (gio : dpele) : X Z := _dpaio_iov_post q gio writev.
Definition dpgfd_writev : kop :=
  DPASC_GFD_FUNCTION _dpgfd_writev_prep (Some _dpgfd_writev_post) (SStm zero_stm) ARG_SIZE 0.

(** ** Sockets *)

Definition _dpskt_recv_post (q : Z) (skt : dpele) : X Z := _dpaio_buf_post q skt _dpaio_recv.
Definition dpskt_recv : kop :=
  DPASC_SKT_FUNCTION _dpskt_recv_prep (Some _dpskt_recv_post) (SStm zero_stm) ARG_SIZE 0.
Definition dpskt_recv2 : kop :=
  DPASC_SKT_FUNCTION _dpskt_recv2_prep (Some _dpskt_recv_post) (SStm zero_stm) ARG_SIZE 0.
Definition _dpskt_send_post (q : Z) (skt : dpele) : X Z := _dpaio_buf_post q skt _dpaio_send.
Definition dpskt_send : kop :=
  DPASC_SKT_FUNCTION _dpskt_send_prep (Some _dpskt_send_post) (SStm zero_stm) ARG_SIZE 0.
Definition dpskt_send2 : kop :=
  DPASC_SKT_FUNCTION _dpskt_send2_prep (Some _dpskt_send_post) (SStm zero_stm) ARG_SIZE 0.
Definition _dpskt_recvmsg_post (q : Z) (skt : dpele) : X Z := _dpaio_msg_post q skt recvmsg.
Definition dpskt_recvmsg : kop :=
  DPASC_SKT_FUNCTION _dpskt_recvmsg_prep (Some _dpskt_recvmsg_post) (SStm zero_stm) ARG_SIZE 0.
Definition _dpskt_sendmsg_post (q : Z) (skt : dpele) : X Z := _dpaio_msg_post q skt sendmsg.
Definition dpskt_sendmsg : kop :=
  DPASC_SKT_FUNCTION _dpskt_sendmsg_prep (Some _dpskt_sendmsg_post) (SStm zero_stm) ARG_SIZE 0.
Definition dpskt_accept : kop :=
  DPASC_SKT_FUNCTION _dpskt_accept_prep (Some (fun _ => _dpskt_accept_post)) (SAcc None) 8 0.
Definition dpskt_connect : kop :=
  DPASC_SKT_FUNCTION _dpskt_connect_prep (Some (fun _ => _dpskt_connect_post)) SNull 0 0.

(** ** Calls there are only on Linux *)

Definition _dpgfd_splice_prep (fio : dpele) : X Z := mret DPE_UNSUPPORT.
Definition _dpgfd_splice_post (fio : dpele) : X Z := mret DPE_UNSUPPORT.
Definition dpgfd_splice : kop :=
  DPASC_GFD_FUNCTION _dpgfd_splice_prep (Some (fun _ => _dpgfd_splice_post)) (STee (Tee 0 0 0)) 12 0.
Definition _dpgfd_tee_prep (fio : dpele) : X Z := mret DPE_UNSUPPORT.
Definition _dpgfd_tee_post (fio : dpele) : X Z := mret DPE_UNSUPPORT.
Definition dpgfd_tee : kop :=
  DPASC_GFD_FUNCTION _dpgfd_tee_prep (Some (fun _ => _dpgfd_tee_post)) (STee (Tee 0 0 0)) 12 0.

Definition _dpefd_sync_file_range_prep (efd : dpele) : X Z :=
  _ ← va_int; _ ← va_int; _ ← va_int; mret DPE_UNSUPPORT.
Definition dpefd_sync_file_range : kop := DPASC_EFD_FUNCTION _dpefd_sync_file_range_prep.

Definition _dpsyc_openat2_prep (ctc : dpele) : X Z := _ ← va_int; _ ← va_int; _ ← va_int; mret DPE_UNSUPPORT.
Definition _dpsyc_openat2_post (ctc : dpele) : X Z := mret DPE_UNSUPPORT.
Definition dpsyc_openat2 : kop := DPASC_SYC_FUNCTION _dpsyc_openat2_prep _dpsyc_openat2_post.

Definition _dpsyc_statx_prep (ctc : dpele) : X Z :=
  _ ← va_int; _ ← va_int; _ ← va_int; _ ← va_int; _ ← va_int; mret DPE_UNSUPPORT.
Definition _dpsyc_statx_post (ctc : dpele) : X Z := mret DPE_UNSUPPORT.
Definition dpsyc_statx : kop := DPASC_SYC_FUNCTION _dpsyc_statx_prep _dpsyc_statx_post.

(** ** Control of a descriptor *)

(** [posix_fallocate] has no mode. *)
Definition _dpefd_fallocate_prep (efd : dpele) : X Z :=
  mode ← va_int; offset ← va_int; len ← va_int;
  if negb (mode =? 0) then mret DPE_UNSUPPORT else
  r ← call (Fallocate (union_fd efd) 0 offset len); _dpsyc_ret_ok r.
Definition dpefd_fallocate : kop := DPASC_EFD_FUNCTION _dpefd_fallocate_prep.
Definition dpefd_fsync : kop := DPASC_EFD_FUNCTION _dpefd_fsync_prep.
Definition dpefd_fadvise : kop := DPASC_EFD_FUNCTION _dpefd_fadvise_prep.
Definition dpefd_close : kop := DPASC_EFD_FUNCTION _dpefd_close_prep.
Definition dpskt_shutdown : kop := DPASC_SKT_FUNCTION _dpskt_shutdown_prep None SNull 0 0.

(** ** Paths *)

(** [renameat] has no flags: it is the call of [Renameat2] with none. *)
Definition _dpsyc_renameat_post (ctc : dpele) : X Z :=
  a ← get_syc;
  if negb (sy_flags a =? 0) then mret DPE_UNSUPPORT else
  r ← call (Renameat2 (sy_dirfd a) (sy_path a) (sy_dirfd2 a) (sy_name a) 0); _dpsyc_ret_ok r.
Definition dpsyc_renameat : kop := DPASC_SYC_FUNCTION _dpsyc_renameat_prep _dpsyc_renameat_post.
Definition dpsyc_rename : kop := DPASC_SYC_FUNCTION _dpsyc_rename_prep _dpsyc_rename_post.
Definition dpsyc_madvise : kop := DPASC_SYC_FUNCTION _dpsyc_madvise_prep _dpsyc_madvise_post.
Definition dpsyc_openat : kop := DPASC_SYC_FUNCTION _dpsyc_openat_prep _dpsyc_openat_post.
Definition dpsyc_open : kop := DPASC_SYC_FUNCTION _dpsyc_open_prep _dpsyc_open_post.
Definition dpsyc_unlinkat : kop := DPASC_SYC_FUNCTION _dpsyc_unlinkat_prep _dpsyc_unlinkat_post.
Definition dpsyc_unlink : kop := DPASC_SYC_FUNCTION _dpsyc_unlink_prep _dpsyc_unlink_post.
Definition dpsyc_mkdirat : kop := DPASC_SYC_FUNCTION _dpsyc_mkdirat_prep _dpsyc_mkdirat_post.
Definition dpsyc_mkdir : kop := DPASC_SYC_FUNCTION _dpsyc_mkdir_prep _dpsyc_mkdir_post.
Definition dpsyc_symlinkat : kop := DPASC_SYC_FUNCTION _dpsyc_symlinkat_prep _dpsyc_symlinkat_post.
Definition dpsyc_symlink : kop := DPASC_SYC_FUNCTION _dpsyc_symlink_prep _dpsyc_symlink_post.
Definition dpsyc_linkat : kop := DPASC_SYC_FUNCTION _dpsyc_linkat_prep _dpsyc_linkat_post.
Definition dpsyc_link : kop := DPASC_SYC_FUNCTION _dpsyc_link_prep _dpsyc_link_post.
Definition dpsyc_getxattr : kop := DPASC_SYC_FUNCTION _dpsyc_getxattr_prep _dpsyc_getxattr_post.
Definition dpsyc_setxattr : kop := DPASC_SYC_FUNCTION _dpsyc_setxattr_prep _dpsyc_setxattr_post.
Definition dpsyc_fgetxattr : kop := DPASC_SYC_FUNCTION _dpsyc_fgetxattr_prep _dpsyc_fgetxattr_post.
Definition dpsyc_fsetxattr : kop := DPASC_SYC_FUNCTION _dpsyc_fsetxattr_prep _dpsyc_fsetxattr_post.

End AscKq.
