(* ===== verification/AscKqFacts.v ===== *)
(** * The operations of the two systems compared

    With a quota that covers the request, reading and writing one buffer over
    kqueue is reading and writing it over epoll, but for the event given up when
    the call would block: over kqueue the descriptor reports it again.  With a
    smaller quota the bytes moved are forgotten. *)

From S2P Require Import Prelude Dpret Dpbuf Ele Tmrset World Aio AscIo AscFacts AscKq.

#[local] Set Default Proof Using "Type*".

(** A call moves at most what it is asked to. *)
Class AnswersFit (Os : Type) `{IoSys Os} : Prop := {
  read_fits fd n s bs s' : 0 <= n -> sys_read fd n s = (inr bs, s') -> zlen bs <= n;
  recv_fits fd n fl s bs s' : 0 <= n -> sys_recv fd n fl s = (inr bs, s') -> zlen bs <= n;
  write_fits fd bs s k s' : sys_write fd bs s = (inr k, s') -> k <= zlen bs;
  send_fits fd bs fl s k s' : sys_send fd bs fl s = (inr k, s') -> k <= zlen bs;
}.

(** [out->inva_events = out->want_events] *)
Definition given_up {Os} (a : ast Os) : ast Os :=
  put_out_of (Out (o_want (x_out a)) (o_want (x_out a)) (o_able (x_out a)) (o_data (x_out a))) a.

(** The answers of the two systems: the same result, and the same state but for
    the event when the call would block. *)
Definition same_answer {Os} (epoll kqueue : option (Z * ast Os)) : Prop :=
  match epoll, kqueue with
  | None, None => True
  | Some (r, a), Some (r', a') => r' = r /\ (a' = a \/ x_errno a = - DPE_WAIT /\ a = given_up a')
  | _, _ => False
  end.

Section Compared.
Context {Os : Type} `{IoSys Os}.
Abbreviation X := (ST (ast Os)).

(** [iofun] uses its scratch memory without changing it and moves at most the rest
    of the request. *)
Definition io_bounded (fd : Z) (s : dpaio_stm) (iofun : Z -> dpaio_arg -> Z -> X Z) : Prop :=
  forall total a r a', x_data a = SStm s -> 0 <= total <= io_len (stm_io s) ->
    iofun fd (stm_io s) total a = Some (r, a') -> x_data a' = SStm s /\ r <= io_len (stm_io s) - total.

Lemma get_arg_run (a : ast Os) s : x_data a = SStm s -> get_arg a = Some (stm_io s, a).
Proof. intros Hd. unfold get_arg, get_stm, mbind, ST_bind. by rewrite Hd. Qed.

Lemma put_arg_same (a : ast Os) s n :
  x_data a = SStm s -> n = io_len (stm_io s) -> put_arg (with_len (stm_io s) n) a = Some (tt, a).
Proof.
  intros Hd ->. unfold put_arg, put_stm, get_stm, modify, mbind, ST_bind. destruct s as [[]], a. cbn in *. by subst.
Qed.

(** What is left of a quota that covers the rest of the request. *)
Lemma use_quota_covers q res left :
  0 < res -> res <= left <= q -> q < 4294967296 ->
  left - res <= use_quota q res /\ 0 <= use_quota q res < 4294967296.
Proof.
  intros. unfold use_quota. destruct (Z.ltb_spec 0 q); [|lia]. unfold to_u32. rewrite (Z.mod_small res) by lia.
  rewrite Z.mod_small by lia. lia.
Qed.

Lemma io_failed_as_epoll total (a : ast Os) :
  same_answer ((inva_wanted;; e ← errno; mret (if 0 <? total then total else - e)) a) (io_failed total a).
Proof.
  unfold io_failed, inva_wanted, inva_events, errno, gets, modify, mbind, ST_bind, would_block. cbn.
  destruct (Z.eqb_spec (x_errno a) (- DPE_WAIT)) as [He|]; cbn; [|by split; [|left]].
  split; [by rewrite He|]. right. split; [exact He|done].
Qed.

Lemma same_answer_refl (r : option (Z * ast Os)) : same_answer r r.
Proof. destruct r as [[? ?]|]; cbn; auto. Qed.

Lemma buf_loop_as_epoll fuel fd s iofun q total (a : ast Os) :
  io_bounded fd s iofun -> x_data a = SStm s -> io_len (stm_io s) <= INT_MAX ->
  0 <= total < io_len (stm_io s) -> io_len (stm_io s) - total <= q < 4294967296 ->
  same_answer (AscIo.buf_loop fuel fd iofun total a)
    (buf_loop fuel fd iofun (io_len (stm_io s)) q total a).
Proof.
  intros Hio. revert q total a. induction fuel as [|fuel IH]; intros q total a Hd Hmax Ht Hq; [done|].
  cbn [buf_loop AscIo.buf_loop]. set (len := io_len (stm_io s)) in *.
  assert (Hcut : (0 <? q) && (q <? to_u32 (len - total)) = false).
  { unfold to_u32, INT_MAX in *. rewrite Z.mod_small by lia. lia. }
  assert (Hlen : total + (len - total) = io_len (stm_io s)) by (unfold len; lia).
  rewrite Hcut. cbv zeta iota. rewrite !(ST_bind_Some _ _ _ _ _ (get_arg_run a s Hd)).
  rewrite (ST_bind_Some _ _ _ _ _ (put_arg_same a s (total + (len - total)) Hd Hlen)).
  rewrite (ST_bind_Some _ _ _ _ _ (get_arg_run a s Hd)).
  destruct (iofun fd (stm_io s) total a) as [[res a1]|] eqn:Hrun;
    [|by rewrite !ST_bind_None by exact Hrun].
  destruct (Hio total a res a1 Hd ltac:(unfold len in *; lia) Hrun) as [Hd1 Hres].
  rewrite !(ST_bind_Some _ _ _ _ _ Hrun), (ST_bind_Some _ _ _ _ _ (get_arg_run a1 s Hd1)).
  rewrite (ST_bind_Some _ _ _ _ _ (put_arg_same a1 s _ Hd1 eq_refl)).
  destruct (Z.ltb_spec 0 res).
  - rewrite (ST_bind_Some _ _ _ _ _ (get_arg_run a1 s Hd1)). fold len.
    destruct (Z.eqb_spec (total + res) len); [apply same_answer_refl|].
    destruct (use_quota_covers q res (len - total)) as [Hq1 Hq2]; [lia|unfold len in *; lia|lia|].
    destruct (Z.eqb_spec (use_quota q res) 0); [unfold len in *; lia|].
    apply IH; [done|done|unfold len in *; lia|unfold len in *; lia].
  - destruct (Z.eqb_spec res 0); [apply same_answer_refl|apply io_failed_as_epoll].
Qed.

Lemma buf_post_as_epoll gio s iofun q (a : ast Os) :
  io_bounded (union_fd gio) s iofun -> x_data a = SStm s ->
  0 < io_len (stm_io s) <= INT_MAX -> io_len (stm_io s) <= q < 4294967296 ->
  same_answer (AscIo._dpaio_buf_post gio iofun a) (_dpaio_buf_post q gio iofun a).
Proof.
  intros Hio Hd Hl Hq. unfold AscIo._dpaio_buf_post, _dpaio_buf_post.
  rewrite !(ST_bind_Some _ _ _ _ _ (get_arg_run a s Hd)). apply buf_loop_as_epoll; try done; lia.
Qed.

(** ** The four calls *)

Lemma fill_run p r (a : ast Os) v a' :
  fill p r a = Some (v, a') -> x_data a' = x_data a /\ (v = -1 \/ exists bs, r = Some bs /\ v = zlen bs).
Proof.
  unfold fill. destruct r as [[|b bs]|]; [..|intros [= <- <-]; auto].
  - intros [= <- <-]. split; [done|]. right. by exists [].
  - intros Hr. apply ST_bind_inv in Hr as (q & a1 & Hp & Hr). unfold lift_opt in Hp. destruct p as [p|]; [|done].
    injection Hp as -> ->. apply ST_bind_inv in Hr as ([] & a2 & Hm & [= <- <-]).
    unfold on_mem in Hm. destruct (store_bytes q (b :: bs) (x_mem a1)) as [[[] m]|]; [|done]. injection Hm as <-.
    split; [done|]. right. by exists (b :: bs).
Qed.

Lemma gather_run p n (a : ast Os) bs a' : gather p n a = Some (bs, a') -> x_data a' = x_data a /\ zlen bs <= n.
Proof.
  unfold gather. intros Hr. apply ST_bind_inv in Hr as (q & a1 & Hp & Hm). unfold lift_opt in Hp.
  destruct p as [p|]; [|done]. injection Hp as -> ->. unfold on_mem, load_bytes in Hm.
  destruct (st_blks (x_mem a1) !! p_blk q) as [l|]; [|done].
  destruct (in_block q n l) eqn:Hin; [|done]. injection Hm as <- <-. split; [done|].
  unfold in_block in Hin. rewrite zlen_slice by lia. lia.
Qed.

Lemma io_call_run {A} (f : Os -> (Z + A) * Os) (a : ast Os) r a' :
  io_call f a = Some (r, a') -> x_data a' = x_data a /\ forall v, r = Some v -> exists s', f (x_sys a) = (inr v, s').
Proof.
  unfold io_call. destruct (f (x_sys a)) as [[e|v] s'] eqn:Hf; intros [= <- <-]; split; try done.
  intros ? [= <-]. eauto.
Qed.

Context `{!AnswersFit Os}.

Lemma reads_bounded fd s (f : Z -> Os -> (Z + list Z) * Os) :
  io_len (stm_io s) <= INT_MAX -> (forall n st bs st', 0 <= n -> f n st = (inr bs, st') -> zlen bs <= n) ->
  io_bounded fd s (fun _ io off => r ← io_call (f (to_u64 (io_len io - off))); fill (byte_ptr (io_ptr io) off) r).
Proof.
  intros Hmax Hf total a r a' Hd Ht Hr. apply ST_bind_inv in Hr as (o & a1 & Hc & Hr).
  apply io_call_run in Hc as [Hd1 Hc]. apply fill_run in Hr as [Hd2 Hr]. split; [congruence|].
  destruct Hr as [->|(bs & -> & ->)]; [lia|]. destruct (Hc bs eq_refl) as [s' Hs].
  unfold to_u64, INT_MAX in *. rewrite Z.mod_small in Hs by lia. apply Hf in Hs; lia.
Qed.

Lemma writes_bounded fd s (f : list Z -> Os -> (Z + Z) * Os) :
  (forall bs st k st', f bs st = (inr k, st') -> k <= zlen bs) ->
  io_bounded fd s (fun _ io off =>
    bs ← gather (byte_ptr (io_ptr io) off) (io_len io - off); r ← io_call (f bs); mret (default (-1) r)).
Proof.
  intros Hf total a r a' Hd Ht Hr. apply ST_bind_inv in Hr as (bs & a1 & Hg & Hr).
  apply gather_run in Hg as [Hd1 Hg]. apply ST_bind_inv in Hr as (o & a2 & Hc & [= <- <-]).
  apply io_call_run in Hc as [Hd2 Hc]. split; [congruence|].
  destruct o as [k|]; cbn; [|lia]. destruct (Hc k eq_refl) as [s' Hs]. apply Hf in Hs. lia.
Qed.

(** C21. Reading and writing one buffer over kqueue, with a quota that covers the
    request, gives the answer of the Linux code: the same result, and the same
    state of the caller's memory, the operation and the system; when the call
    would block the Linux code also gives the event up.  A quota is a 32-bit
    count of bytes; the request is what [prep] accepts. *)
Theorem kqueue_io_as_epoll gio s q (a : ast Os) :
  x_data a = SStm s -> 0 < io_len (stm_io s) <= INT_MAX -> io_len (stm_io s) <= q < 4294967296 ->
  same_answer (AscIo._dpgfd_read_post gio a) (_dpgfd_read_post q gio a) /\
  same_answer (AscIo._dpgfd_write_post gio a) (_dpgfd_write_post q gio a) /\
  same_answer (AscIo._dpskt_recv_post gio a) (_dpskt_recv_post q gio a) /\
  same_answer (AscIo._dpskt_send_post gio a) (_dpskt_send_post q gio a).
Proof.
  intros Hd Hl Hq. split_and!; (eapply buf_post_as_epoll; [|exact Hd|exact Hl|exact Hq]).
  - exact (reads_bounded (union_fd gio) s (sys_read (union_fd gio)) (proj2 Hl) (read_fits _)).
  - exact (writes_bounded (union_fd gio) s (sys_write (union_fd gio)) (write_fits _)).
  - exact (reads_bounded (union_fd gio) s (fun n => sys_recv (union_fd gio) n (io_flag (stm_io s))) (proj2 Hl)
             (fun n => recv_fits _ n _)).
  - exact (writes_bounded (union_fd gio) s (fun bs => sys_send (union_fd gio) bs (io_flag (stm_io s)))
             (fun bs => send_fits _ bs _)).
Qed.

End Compared.

(** ** Examples *)

#[export] Instance script_fits : AnswersFit script.
Proof.
  assert (Hr : forall fd n s bs s', 0 <= n -> script_read fd n s = (inr bs, s') -> zlen bs <= n).
  { intros fd n [[|[|c cs] rx] tx caps] bs s' Hn; unfold script_read; cbn; intros [= <- <-].
    - by rewrite zlen_nil.
    - rewrite zlen_ztake. pose proof (zlen_nonneg (c :: cs)). lia. }
  assert (Hw : forall fd bs s k s', script_write fd bs s = (inr k, s') -> k <= zlen bs).
  { intros fd bs [rx tx [|c caps]] k s'; unfold script_write; cbn; [by intros [= <- <-]|].
    destruct (c <=? 0); intros [= <- <-]. unfold _imin. destruct (Z.ltb_spec c (zlen bs)); lia. }
  split.
  - exact Hr.
  - intros fd n fl. apply (Hr fd).
  - exact Hw.
  - intros fd bs fl. apply (Hw fd).
Qed.

(** Six bytes asked for, which arrive in two pieces. *)
Definition six : dpaio_stm := with_io zero_stm (IoArg (Some (PBytes (Ptr 1 0))) 6 0 0 0).
Definition ex_six (s : script) : ast script :=
  put_data_of (SStm six) (put_out_of (Out DPEVT_IN 0 DPEVT_IN true) (ex_ast s)).

Lemma kqueue_io_as_epoll_witness :
  let a := ex_six (Script [[1; 2]; [3; 4; 5]] [] []) in
  0 < io_len (stm_io six) <= INT_MAX /\
  same_answer (AscIo._dpgfd_read_post ex_gfd a) (_dpgfd_read_post 9 ex_gfd a).
Proof.
  intros a. split; [unfold INT_MAX; cbn; lia|].
  refine (proj1 (kqueue_io_as_epoll ex_gfd six 9 a eq_refl _ _)); unfold INT_MAX; cbn; lia.
Defined.

(** With the quota the event gives, two bytes: they are stored, and the answer says
    to wait, without the event being given up. *)
Example short_quota_forgets :
  (fun r => (r.1, o_inva (x_out r.2), ztake 3 (default [] (st_blks (x_mem r.2) !! 1%positive)))) <$>
    _dpgfd_read_post 2 ex_gfd (ex_six (Script [[1; 2]] [] [])) = Some (DPE_WAIT, 0, [1; 2; 0]).
Proof. vm_compute. reflexivity. Qed.

(** The same descriptor over epoll: two bytes. *)
Example short_read_over_epoll :
  fst <$> AscIo._dpgfd_read_post ex_gfd (ex_six (Script [[1; 2]; []] [] [])) = Some 2.
Proof. vm_compute. reflexivity. Qed.

(** A vector is not read at all without an event that says how much there is, and a
    quota below what one call moves wraps around. *)
Example quota_wraps : use_quota 2 5 = 4294967293.
Proof. reflexivity. Qed.
