(* ===== verification/KqLoop.v ===== *)
(** * The operations in the kqueue loop

    An operation of [AscKq] becomes one of the program's: its state and its scratch
    memory are in the state outside the loops ([env]), as in [AscLoop].  A read of
    more bytes than have arrived does not end there: the theorem says so turn by
    turn. *)

From S2P Require Import Prelude Dpret Dpbuf DpbufFacts Ele Tmrset World Aio AscIo AscFacts AscLoop AscKq AscKqFacts Kq KqEvp KqFacts.

#[local] Set Default Proof Using "Type*".

Section Lift.
Context {Os : Type}.

#[export] Instance env_ksys `{KSys Os} : KSys (env Os) := {|
  kqueue := on_sys kqueue;
  kevent_change q cs := on_sys (kevent_change q cs);
  kevent_wait q n ts := on_sys (kevent_wait q n ts);
  ksys_close fd := on_sys (ksys_close fd);
  ksys_dup fd := on_sys (ksys_dup fd);
|}.

Abbreviation M := (ST (kworld (env Os))).

(** Runs [m] with [out] and the scratch memory [d] of the element [x], and keeps
    what it leaves there. *)
Definition run_kasc (x : loc) (d : scratch) (args : list Z) (out : kout) (m : ST (ast Os) Z) : M (Z * kout) :=
  fun w =>
    let o := Out (o_want out) (o_inva out) (o_able out) (o_data out) in
    match m (put_args_of args (put_out_of o (put_data_of d (n_ast (w_ext w))))) with
    | None => None
    | Some (r, a) =>
        let o := x_out a in
        Some ((r, KOut (World.o_want o) (World.o_inva o) (World.o_able o) (able_bytes out) (kq_fflags out) (World.o_data o)),
              with_ext (Env (<[x := x_data a]> (n_scr (w_ext w))) a) w)
    end.

Definition lift_kprep (op : kopdesc Os) (x : loc) (args : list Z) (out : kout) : M (Z * kout) :=
  e ← get_ele x; run_kasc x (if o_data out then ko_data op else SNull) args out (ko_prep op e).
Definition lift_kpost (post : Z -> dpele -> ST (ast Os) Z) (x : loc) (out : kout) : M (Z * kout) :=
  e ← get_ele x; v ← gets w_ext;
  run_kasc x (if o_data out then scr_of v x else SNull) [] out (post (able_bytes out) e).

Definition kasc_desc (op : kopdesc Os) : kasc (env Os) :=
  KAsc (lift_kprep op) (lift_kpost <$> ko_post op) (ko_types op) (ko_iotypes op) (ko_datasz op) (ko_flags op).

End Lift.

(** ** A read that gets less than it asked for *)

(** Nothing to read, and nothing comes. *)
Definition dry {Os} `{IoSys Os} (fd : Z) (s : Os) : Prop := forall n, sys_read fd n s = (inl (- DPE_WAIT), s).

Section Reads.
Context {Os : Type} `{IoSys Os}.

Lemma put_arg_run (a : ast Os) s io : x_data a = SStm s -> put_arg io a = Some (tt, put_data_of (SStm (with_io s io)) a).
Proof. intros Hd. unfold put_arg, put_stm, get_stm, modify, mbind, ST_bind. by rewrite Hd; cbn; rewrite Hd. Qed.

(** The system's answer, with the length of the request put back. *)
Lemma buf_step_run fd s q fuel (a a1 : ast Os) res :
  x_data a = SStm s ->
  let len := io_len (stm_io s) in
  let n := if (0 <? q) && (q <? to_u32 (len - 0)) then to_i32 q else len - 0 in
  _dpaio_read fd (with_len (stm_io s) (0 + n)) 0 (put_data_of (SStm (with_io s (with_len (stm_io s) (0 + n)))) a)
    = Some (res, a1) ->
  x_data a1 = SStm (with_io s (with_len (stm_io s) (0 + n))) ->
  buf_loop (S fuel) fd _dpaio_read len q 0 a =
    (if 0 <? res then
       if 0 + res =? len then mret (0 + res)
       else if use_quota q res =? 0 then mret DPE_WAIT
       else buf_loop fuel fd _dpaio_read len (use_quota q res) (0 + res)
     else if res =? 0 then inva_wanted;; mret DPE_EOF
     else io_failed 0) (put_data_of (SStm s) a1).
Proof.
  intros Hd len n Hr Hd1. cbn [buf_loop]. cbv zeta. fold len n.
  rewrite (ST_bind_Some _ _ _ _ _ (get_arg_run a s Hd)), (ST_bind_Some _ _ _ _ _ (put_arg_run a s _ Hd)).
  rewrite (ST_bind_Some _ _ _ _ _ (get_arg_run (put_data_of (SStm (with_io s (with_len (stm_io s) (0 + n)))) a) _ eq_refl)).
  cbn [stm_io with_io]. rewrite (ST_bind_Some _ _ _ _ _ Hr), (ST_bind_Some _ _ _ _ _ (get_arg_run a1 _ Hd1)).
  rewrite (ST_bind_Some _ _ _ _ _ (put_arg_run a1 _ _ Hd1)).
  replace (with_io _ _) with s; [done|]. destruct s as [[] ? ? ? ?]. done.
Qed.

(** Nothing to read: the answer is to wait, and nothing is given up. *)
Lemma read_dry q e s (a : ast Os) :
  x_data a = SStm s -> 0 <= io_len (stm_io s) -> dry (union_fd e) (x_sys a) ->
  _dpgfd_read_post q e a = Some (DPE_WAIT, put_errno_of (- DPE_WAIT) a).
Proof.
  intros Hd Hl Hdry. unfold _dpgfd_read_post, _dpaio_buf_post.
  rewrite (ST_bind_Some _ _ _ _ _ (get_arg_run a s Hd)). rewrite Nat.add_1_r.
  set (n := if (0 <? q) && (q <? to_u32 (io_len (stm_io s) - 0)) then to_i32 q else io_len (stm_io s) - 0).
  rewrite (buf_step_run _ _ _ _ a
    (put_errno_of (- DPE_WAIT) (put_data_of (SStm (with_io s (with_len (stm_io s) (0 + n)))) a)) (-1)); [| done | | done].
  - cbn. unfold io_failed, errno, gets, mbind, ST_bind. cbn. destruct a. cbn in *. by subst.
  - fold n. unfold _dpaio_read, io_call, mbind, ST_bind. cbn. rewrite Hdry. destruct a. done.
Qed.

(** Fewer bytes than the request: they are stored, and the answer is to wait. *)
Lemma read_short q e s (a : ast Os) p l bs s1 :
  x_data a = SStm s -> io_ptr (stm_io s) = Some (PBytes p) -> 0 < q < io_len (stm_io s) -> io_len (stm_io s) <= INT_MAX ->
  sys_read (union_fd e) q (x_sys a) = (inr bs, s1) -> zlen bs = q -> room (x_mem a) p q l ->
  _dpgfd_read_post q e a = Some (DPE_WAIT, put_sys_of s1 (put_mem_of (store_at p bs l (x_mem a)) a)).
Proof.
  intros Hd Hp Hq Hmax Hread Hbs Hroom. unfold _dpgfd_read_post, _dpaio_buf_post, INT_MAX in *.
  rewrite (ST_bind_Some _ _ _ _ _ (get_arg_run a s Hd)), Nat.add_1_r.
  assert (Hn : (if (0 <? q) && (q <? to_u32 (io_len (stm_io s) - 0)) then to_i32 q else io_len (stm_io s) - 0) = q).
  { unfold to_u32. rewrite Z.mod_small by lia. rewrite (proj2 (Z.ltb_lt _ _)) by lia.
    rewrite (proj2 (Z.ltb_lt _ _)) by lia. apply to_i32_id. unfold is_i32, INT_MIN, INT_MAX. lia. }
  rewrite (buf_step_run _ _ _ _ a
    (put_sys_of s1 (put_mem_of (store_at p bs l (x_mem a)) (put_data_of (SStm (with_io s (with_len (stm_io s) q))) a))) q);
    rewrite ?Hn; [|done| |done].
  - rewrite (proj2 (Z.ltb_lt _ _)) by lia. rewrite (proj2 (Z.eqb_neq _ _)) by lia.
    unfold use_quota, to_u32. rewrite (proj2 (Z.ltb_lt _ _)) by lia. rewrite (Z.mod_small q), Z.sub_diag by lia.
    cbn. destruct a. cbn in *. by subst.
  - unfold _dpaio_read, io_call, mbind, ST_bind. cbn. unfold to_u64. rewrite Z.sub_0_r, Z.add_0_l, Z.mod_small by lia.
    rewrite Hread. cbn. rewrite Hp. destruct bs as [|b bs]; [rewrite zlen_nil in Hbs; lia|]. cbn.
    unfold lift_opt, on_mem, store_bytes, mbind, ST_bind. destruct Hroom as (Hb & Ho & Hl). cbn.
    rewrite Hb. unfold in_block. cbn [p_off p_blk ptr_add].
    rewrite Z.add_0_r. pose proof (zlen_nonneg (b :: bs)).
    rewrite !(proj2 (Z.leb_le _ _)) by lia. cbn. by rewrite Hbs.
Qed.

End Reads.

(** ** In the loop *)

Section Spin.
Context {Os : Type} `{IoSys Os, !KSys Os} (P : kprogram (env Os)).
Context (asc : Z) (Hasc : p_asc P asc = Some (kasc_desc (dpgfd_read (Os := Os)))).

(** A turn of [_dpefd_wake] for a read that is to wait and gives nothing up. *)
Lemma wp_read_turn x (w : kworld (env Os)) k m v able bytes ff a' (Q : bool * (Z * kout) -> kworld (env Os) -> Prop) :
  w_eles w !! x = Some k -> e_asc (k_ele k) = Some asc -> w_self w = Some m -> w_nodes w !! m = Some v ->
  _dpgfd_read_post (v_feed v).1 (k_ele k)
    (put_args_of [] (put_out_of (Out DPEVT_IN 0 (e_able (k_ele k)) true)
       (put_data_of (scr_of (w_ext w) x) (n_ast (w_ext w))))) = Some (DPE_WAIT, a') ->
  x_out a' = Out DPEVT_IN 0 (e_able (k_ele k)) true ->
  Q (true, (DPE_WAIT, KOut DPEVT_IN 0 (e_able (k_ele k)) (v_feed v).1 (v_feed v).2 true))
    (with_eles <[x := KEle (set_want (k_ele k) DPEVT_IN) (is_inpoll_read k) (is_inpoll_write k)]>
       (with_ext (Env (<[x := x_data a']> (n_scr (w_ext w))) a') w)) ->
  wp (wake_turn P x (KOut DPEVT_IN 0 able bytes ff true)) w Q.
Proof.
  intros Hx Ha Hs Hn Hrun Hout HQ. unfold wake_turn. do 4 kq_step.
  apply wp_bind. unfold asc_of. rewrite Ha. cbn [mbind option_bind]. rewrite Hasc. apply wp_ret.
  apply wp_bind, wp_ret. apply wp_bind. unfold lift_kpost. do 4 kq_step. cbn.
  unfold wp, run_kasc. cbn. rewrite Hrun. rewrite Hout. cbn.
  apply (wp_bind (mret _)). apply wp_ret. apply wp_bind.
  eapply kwp_upd_ele; [exact Hx|]. apply wp_ret. exact HQ.
Qed.

(** The state in which the loop turns for ever: the read is in progress, its event
    pending, and the descriptor has nothing. *)
Definition stuck (x : loc) (s1 : Os) (mem : bstore) (out : kout) (w : kworld (env Os)) : Prop :=
  exists k m v d able bytes ff, out = KOut DPEVT_IN 0 able bytes ff true /\
    w_eles w !! x = Some k /\ e_asc (k_ele k) = Some asc /\ e_want (k_ele k) = DPEVT_IN /\
    has_flag (e_able (k_ele k)) DPEVT_IN = true /\ w_self w = Some m /\ w_nodes w !! m = Some v /\
    scr_of (w_ext w) x = SStm d /\ 0 <= io_len (stm_io d) /\
    dry (union_fd (k_ele k)) s1 /\ x_sys (n_ast (w_ext w)) = s1 /\ x_mem (n_ast (w_ext w)) = mem.

Lemma stuck_pending x s1 mem out w : stuck x s1 mem out w -> event_pending x w.
Proof.
  intros (k & m & v & d & able & bytes & ff & -> & Hx & _ & Hw & Hable & _). exists k. split; [done|].
  rewrite Hw. unfold has_flag in Hable. by destruct (Z.eqb_spec (Z.land (e_able (k_ele k)) DPEVT_IN) 0).
Qed.

Lemma stuck_turn x s1 mem out w :
  stuck x s1 mem out w -> wp (wake_turn P x out) w (fun t w' => t.1 = true /\ stuck x s1 mem t.2.2 w').
Proof.
  intros (k & m & v & d & able & bytes & ff & -> & Hx & Ha & Hw & Hable & Hs & Hn & Hd & Hl & Hdry & Hsys & Hmem).
  eapply wp_read_turn; [done|done|done|done| | |].
  - rewrite (read_dry _ _ d); [done|by cbn; rewrite Hd|done|cbn; by rewrite Hsys].
  - done.
  - split; [done|]. eexists _, m, v, d, _, _, _. split; [done|]. cbn. rewrite lookup_insert_eq.
    split_and!; try done. unfold scr_of at 1. cbn. rewrite lookup_insert_eq. exact Hd.
Qed.

(** The element as [_dpefd_feed] hands it to the loop, and the loop's arguments. *)
Definition able_fed (k : kele) : Z := mask5 (Z.lor (e_able (k_ele k)) DPEVT_IN).
Definition fed_world (x : loc) (k : kele) (w : kworld (env Os)) : kworld (env Os) :=
  let put e := with_eles <[x := KEle e (is_inpoll_read k) (is_inpoll_write k)]> in
  put (set_want (set_able (k_ele k) (able_fed k)) DPEVT_IN) (put (set_able (k_ele k) (able_fed k)) w).
Definition fed_out (k : kele) (v : kevp) : kout := KOut DPEVT_IN 0 (able_fed k) (v_feed v).1 (v_feed v).2 true.

Lemma able_fed_in k : Z.land (able_fed k) DPEVT_IN <> 0.
Proof.
  unfold able_fed, mask5, DPEVT_IN, DPEVT_ALL. intros Hz. apply (f_equal (fun z => Z.testbit z 0)) in Hz.
  rewrite !Z.land_spec, Z.lor_spec in Hz. cbn in Hz. by rewrite orb_true_r in Hz.
Qed.

Lemma upd_ele_run x f (w : kworld (env Os)) k : w_eles w !! x = Some k ->
  upd_ele x f w = Some (tt, with_eles <[x := KEle (f (k_ele k)) (is_inpoll_read k) (is_inpoll_write k)]> w).
Proof.
  intros Hx. unfold upd_ele, put_ele, put_kele, get_ele, get_kele, modify, mbind, ST_bind.
  by do 3 (rewrite Hx; cbn).
Qed.

Lemma feed_runs fuel x (w : kworld (env Os)) k m v :
  w_eles w !! x = Some k -> e_asc (k_ele k) = Some asc -> e_want (k_ele k) = DPEVT_IN ->
  is_Some (e_scratch (k_ele k)) -> w_self w = Some m -> w_nodes w !! m = Some v ->
  dpret_iserr (DPEVT_GET_ERR (able_fed k)) = false ->
  efd_wake_loop P fuel x (fed_out k v) DPE_WAIT (fed_world x k w) = None ->
  _dpefd_feed P fuel x DPEVT_IN w = None.
Proof.
  intros Hx Ha Hw [sc Hsc] Hs Hn Herr Hloop. unfold _dpefd_feed.
  rewrite (ST_bind_Some _ _ _ _ _ (upd_ele_run _ _ _ _ Hx)). fold (able_fed k).
  set (w1 := with_eles _ w).
  assert (Hx1 : w_eles w1 !! x = Some (KEle (set_able (k_ele k) (able_fed k)) (is_inpoll_read k) (is_inpoll_write k)))
    by apply lookup_insert_eq.
  assert (Hg : forall f : dpele -> ST (kworld (env Os)) bool, (get_ele x ≫= f) w1 = f (set_able (k_ele k) (able_fed k)) w1).
  { intros f. unfold get_ele, get_kele, mbind, ST_bind. by rewrite Hx1. }
  assert (Hdo : dpele_is_doing x w1 = Some (true, w1)).
  { unfold dpele_is_doing, get_ele, get_kele, mbind, ST_bind. rewrite Hx1. cbn. by rewrite Ha. }
  assert (Hda : dpele_asc_data x w1 = Some (true, w1)).
  { unfold dpele_asc_data, get_ele, get_kele, mbind, ST_bind. rewrite Hx1. cbn. by rewrite Hsc. }
  assert (Hf : get_feed w1 = Some (v_feed v, w1)).
  { unfold get_feed, self_id, get_node, mbind, ST_bind. cbn. rewrite Hs. cbn. by rewrite Hn. }
  rewrite (ST_bind_Some _ _ _ _ _ Hdo), Hg. cbn [set_able e_want]. rewrite Hw. change ((DPEVT_IN =? 0) || negb true) with false. cbv iota.
  rewrite (ST_bind_Some _ _ _ _ _ Hf), (ST_bind_Some _ _ _ _ _ Hda).
  apply ST_bind_None. unfold _dpefd_wake. rewrite (ST_bind_Some _ _ _ _ _ Hf).
  assert (Hg' : forall A (f : dpele -> ST (kworld (env Os)) A), (get_ele x ≫= f) w1 = f (set_able (k_ele k) (able_fed k)) w1).
  { intros A f. unfold get_ele, get_kele, mbind, ST_bind. by rewrite Hx1. }
  rewrite Hg'. cbn [set_able e_able]. rewrite Herr. unfold drop_inva. cbn.
  erewrite (ST_bind_Some (mret _)) by done. rewrite (ST_bind_Some _ _ _ _ _ (upd_ele_run _ _ _ _ Hx1)). exact Hloop.
Qed.

(** C22. A read that gets less than it asked for never ends over kqueue.  The event says
    [q] bytes are ready, the operation asked for more, and no more come: the bytes
    are taken from the descriptor and stored at the start of the caller's buffer,
    their count is forgotten, and the loop that calls the operation turns for ever
    on the same event, so the thread serves nothing else and the operation has no
    result.  (After any number of turns the loop is still turning, so it is not
    undefined behaviour that [None] stands for.) *)
Theorem short_read_never_ends x (w : kworld (env Os)) k m v q d p l bs s1 :
  w_eles w !! x = Some k -> e_asc (k_ele k) = Some asc -> e_want (k_ele k) = DPEVT_IN ->
  is_Some (e_scratch (k_ele k)) -> w_self w = Some m -> w_nodes w !! m = Some v -> (v_feed v).1 = q ->
  dpret_iserr (DPEVT_GET_ERR (able_fed k)) = false ->
  scr_of (w_ext w) x = SStm d -> io_ptr (stm_io d) = Some (PBytes p) ->
  0 < q < io_len (stm_io d) -> io_len (stm_io d) <= INT_MAX ->
  sys_read (union_fd (k_ele k)) q (x_sys (n_ast (w_ext w))) = (inr bs, s1) -> zlen bs = q ->
  dry (union_fd (k_ele k)) s1 -> room (x_mem (n_ast (w_ext w))) p q l ->
  (forall fuel, _dpefd_feed P fuel x DPEVT_IN w = None) /\
  (forall n, wp (wake_turns P (S n) x (fed_out k v)) (fed_world x k w) (fun _ w' =>
     event_pending x w' /\ x_sys (n_ast (w_ext w')) = s1 /\
     x_mem (n_ast (w_ext w')) = store_at p bs l (x_mem (n_ast (w_ext w))))).
Proof.
  intros Hx Ha Hw Hsc Hs Hn Hq Herr Hd Hp Hlen Hmax Hread Hbs Hdry Hroom.
  set (mem := store_at p bs l (x_mem (n_ast (w_ext w)))).
  assert (Hpend : event_pending x (fed_world x k w)).
  { eexists. split; [apply lookup_insert_eq|]. apply (able_fed_in k). }
  assert (Hfirst : wp (wake_turn P x (fed_out k v)) (fed_world x k w) (fun t w' => t.1 = true /\ stuck x s1 mem t.2.2 w')).
  { eapply wp_read_turn; [apply lookup_insert_eq|done|done|done| | |].
    - rewrite Hq. eapply (read_short q _ d _ p l bs s1); cbn; rewrite ?Hd; try done; lia.
    - done.
    - split; [done|]. eexists _, m, v, d, _, _, _. split; [done|]. cbn. rewrite lookup_insert_eq.
      split_and!; try done; [|unfold scr_of at 1; cbn; rewrite lookup_insert_eq; exact Hd|lia].
      change (has_flag (able_fed k) DPEVT_IN = true). unfold has_flag.
      by rewrite (proj2 (Z.eqb_neq _ _) (able_fed_in k)). }
  pose proof (fun out w' => loop_spins P x (stuck x s1 mem)
    (fun out w' HI => conj (stuck_pending _ _ _ _ _ HI) (stuck_turn _ _ _ _ _ HI)) out w') as Hspin.
  split.
  - intros fuel. eapply feed_runs; try done.
    destruct Hpend as (k1 & Hk1 & Hp1).
    assert (Hg : get_ele x (fed_world x k w) = Some (k_ele k1, fed_world x k w))
      by (unfold get_ele, get_kele, mbind, ST_bind; by rewrite Hk1).
    destruct fuel; cbn [efd_wake_loop]; rewrite (ST_bind_Some _ _ _ _ _ Hg), (proj2 (Z.eqb_neq _ _) Hp1); [done|].
    apply wp_run in Hfirst as (t & w' & Hr & Ht & HI). rewrite (ST_bind_Some _ _ _ _ _ Hr), Ht.
    apply (Hspin _ _ HI).
  - intros n. cbn [wake_turns]. apply wp_bind. eapply wp_mono; [exact Hfirst|]. cbv beta.
    intros t w' [-> HI]. eapply wp_mono; [apply (Hspin _ _ HI)|]. cbv beta.
    intros out w'' HI'. split; [by eapply stuck_pending|].
    destruct HI' as (? & ? & ? & ? & ? & ? & ? & _ & _ & _ & _ & _ & _ & _ & _ & _ & _ & ? & ?). done.
Qed.

End Spin.

(** ** Example

    A descriptor with the bytes of a list to read, after which a read would block. *)

Record pipe := Pipe { pipe_bytes : list Z }.

#[export] Instance pipe_sys : IoSys pipe := {|
  sys_read _ n s := match pipe_bytes s with
                    | [] => (inl (- DPE_WAIT), s)
                    | l => (inr (ztake n l), Pipe (zdrop n l))
                    end;
  sys_write _ bs s := (inr (zlen bs), s);
  sys_recv _ n _ s := (inl (- DPE_WAIT), s);
  sys_send _ bs _ s := (inr (zlen bs), s);
  sys_readv _ n s := (inl (- DPE_WAIT), s);
  sys_writev _ bs s := (inr (zlen bs), s);
  sys_recvmsg _ n m _ s := (inl (- DPE_WAIT), s);
  sys_sendmsg _ bs m _ s := (inl (- DPE_WAIT), s);
  sys_accept _ s := (inl (- DPE_WAIT), s);
  sys_connect _ a s := (inl (- DPE_WAIT), s);
  sys_call c s := (inr 0, s);
|}.
#[export] Instance pipe_ksys : KSys pipe := {|
  kqueue s := (5, s);
  kevent_change _ _ s := (0, s);
  kevent_wait _ _ _ s := (Some [], s);
  ksys_close _ s := (0, s);
  ksys_dup _ s := (-1, s);
|}.

Definition ex_kele : kele :=
  KEle (set_scratch (set_asc (set_want (set_fd (zero_ele dpefd_init_type) 3) DPEVT_IN) (Some 9)) (Some (24, []))) true true.
Definition ex_knode (feed : Z * Z) : kevp :=
  KNode 0 0 false 5 256 [] 0 [] 0 [] [] [] [] [] false false feed.
Definition ex_kprogram {Os} `{IoSys Os} : kprogram (env Os) :=
  KProgram (fun n => if n =? 9 then Some (kasc_desc dpgfd_read) else None)
    (fun _ => None) (fun _ => None) (fun _ => None) (fun _ _ => mret tt) (fun _ _ => mret tt).
(** A read of six bytes in progress, with two to read. *)
Definition ex_kworld (feed : Z * Z) (bs : list Z) : kworld (env pipe) :=
  KWorld {[ 1%positive := ex_kele ]} 2 [] [] {[ 0 := ex_knode feed ]} (EvpSet 1 1 [] []) (Some 0)
    (Env {[ 1%positive := SStm six ]} (Ast SNull (Out 0 0 0 true) [] ∅ ex_mem ∅ ∅ ∅ 0 (Pipe bs))).

Lemma short_read_never_ends_witness :
  dry 3 (Pipe []) /\ (forall fuel, _dpefd_feed ex_kprogram fuel 1 DPEVT_IN (ex_kworld (2, 0) [7; 8]) = None).
Proof.
  split; [by intros n|].
  refine (proj1 (short_read_never_ends ex_kprogram 9 eq_refl 1%positive (ex_kworld (2, 0) [7; 8]) ex_kele 0
    (ex_knode (2, 0)) 2 six (Ptr 1 0) (replicate 16 0) [7; 8] (Pipe [])
    eq_refl eq_refl eq_refl _ eq_refl eq_refl eq_refl eq_refl eq_refl eq_refl _ _ eq_refl eq_refl _ _)).
  - by eexists.
  - cbn. lia.
  - unfold INT_MAX. cbn. lia.
  - by intros n.
  - unfold room. cbn. unfold zlen. cbn. split_and!; [done|lia|lia].
Defined.

(** All six bytes ready: the read ends. *)
Example whole_read_ends :
  fst <$> (f ← _dpefd_feed ex_kprogram 4 1 DPEVT_IN; r ← dpele_ret 1; mret (f, r)) (ex_kworld (6, 0) [1; 2; 3; 4; 5; 6])
  = Some (true, 6).
Proof. vm_compute. reflexivity. Qed.
