(* ===== verification/KqDev.v ===== *)
(** * Signals and file events over kqueue ([lib/dpapp/os/bsd/dpsig.c], [dpfsm.c])

    There is no descriptor to read signals or file events from: the elements are
    pipes, and the loop writes a record into the pipe when the kernel queue reports
    a signal or a change of a file.  The auxiliary data of the elements is kept by
    element; a file is named to the kernel by the slot of its watch. *)

From S2P Require Import Prelude Chars Dpret Ele Tmrset World Kq KqEvp.

#[local] Set Default Proof Using "Type*".

(** [dpsig_iop_t] *)
Record dpsig_iop := SigIop { sg_mask : gset Z; sg_pipe_w : Z }.

(** [dpfsm_watch_t], [dpfsm_iop_t]: the array has 64 slots. *)
Record dpfsm_watch := Watch { w_ele : option loc; w_wd : Z; vnode_fd : Z; w_name : chars; inotify_mask : Z }.
Record dpfsm_iop := FsmIop { fs_pipe_w : Z; next_wd : Z; watch_cnt : Z; watches : list dpfsm_watch }.

Definition DPFSM_MAX_WATCH : Z := 64.
Definition NAME_MAX : Z := 255.

(** The calls of the system: a failure is an [errno]. *)
Class DevSys (D : Type) := {
  dv_pipe : D -> (Z + Z * Z) * D;
  dv_open : chars -> D -> (Z + Z) * D;
  dv_close : Z -> D -> D;
  dv_write : Z -> list Z -> D -> D;
  dv_sigaddset : Z -> bool; (* a signal number of the system *)
  dv_block : gset Z -> D -> option Z * D; (* [sigprocmask(SIG_BLOCK, ...)] *)
  dv_setmask : gset Z -> D -> option Z * D;
}.

Record kdev (D : Type) := KDev { d_sigs : gmap loc dpsig_iop; d_fsms : gmap loc dpfsm_iop; d_sys : D }.
Arguments KDev {D}. Arguments d_sigs {D}. Arguments d_fsms {D}. Arguments d_sys {D}.

(** [<sys/inotify.h>] and [<sys/event.h>]; two notes the code names are not known to
    every system and are parameters. *)
Definition IN_ACCESS : Z := 0x1.
Definition IN_MODIFY : Z := 0x2.
Definition IN_ATTRIB : Z := 0x4.
Definition IN_CLOSE_WRITE : Z := 0x8.
Definition IN_OPEN : Z := 0x20.
Definition IN_MOVED_FROM : Z := 0x40.
Definition IN_MOVED_TO : Z := 0x80.
Definition IN_CREATE : Z := 0x100.
Definition IN_DELETE : Z := 0x200.
Definition IN_DELETE_SELF : Z := 0x400.
Definition IN_MOVE_SELF : Z := 0x800.
Definition IN_UNMOUNT : Z := 0x2000.
Definition NOTE_DELETE : Z := 0x1.
Definition NOTE_WRITE : Z := 0x2.
Definition NOTE_EXTEND : Z := 0x4.
Definition NOTE_ATTRIB : Z := 0x8.
Definition NOTE_LINK : Z := 0x10.
Definition NOTE_RENAME : Z := 0x20.
Definition NOTE_REVOKE : Z := 0x40.

Definition any_of (l : list Z) : Z := fold_left Z.lor l 0.
(** [if (v & from) acc |= to;] *)
Definition or_if (v from to acc : Z) : Z := if has_flag v from then Z.lor acc to else acc.

(** A 32-bit number in memory. *)
Definition le32 (v : Z) : list Z := map (fun i => (to_u32 v / 256 ^ i) mod 256) (seqZ 0 4).

Section Notes.
Context (NOTE_OPEN NOTE_ACCESS : Z).

Definition _inotify_to_note (mask : Z) : Z :=
  let note := or_if mask IN_DELETE NOTE_DELETE 0 in
  let note := or_if mask (any_of [IN_MODIFY; IN_CLOSE_WRITE; IN_CREATE; IN_MOVED_TO]) NOTE_WRITE note in
  let note := or_if mask IN_ATTRIB NOTE_ATTRIB note in
  let note := or_if mask IN_OPEN NOTE_OPEN note in
  let note := or_if mask (any_of [IN_MOVED_FROM; IN_MOVED_TO; IN_MOVE_SELF]) NOTE_RENAME note in
  let note := or_if mask IN_ACCESS NOTE_ACCESS note in
  if note =? 0 then any_of [NOTE_WRITE; NOTE_DELETE; NOTE_ATTRIB] else note.
End Notes.

Definition _note_to_inotify (note : Z) : Z :=
  let mask := or_if note NOTE_DELETE (Z.lor IN_DELETE IN_DELETE_SELF) 0 in
  let mask := or_if note NOTE_WRITE IN_MODIFY mask in
  let mask := or_if note NOTE_EXTEND IN_MODIFY mask in
  let mask := or_if note NOTE_ATTRIB IN_ATTRIB mask in
  let mask := or_if note NOTE_LINK IN_CREATE mask in
  let mask := or_if note NOTE_RENAME (Z.lor IN_MOVED_FROM IN_MOVED_TO) mask in
  let mask := or_if note NOTE_REVOKE IN_UNMOUNT mask in
  if mask =? 0 then IN_MODIFY else mask.

(** [strrchr(path, '/') + 1], or the path. *)
Definition base_name (path : chars) : chars :=
  match list_find (fun c => c = "/"%char) (reverse path) with
  | Some (i, _) => reverse (take i (reverse path))
  | None => path
  end.

Definition dpsig_type : dpele_type := EleType 20 DPELE_TYPE_EFD 20 DPAIO_TYPE_GFD DPEVT_IN.
Definition dpfsm_type : dpele_type := EleType 21 DPELE_TYPE_EFD 17936 DPAIO_TYPE_GFD DPEVT_IN.

Section KqDev.
Context {D : Type} `{DevSys D, !KSys (kdev D)} (NOTE_OPEN NOTE_ACCESS : Z) (P : kprogram (kdev D)).

Abbreviation M := (ST (kworld (kdev D))).

Definition upd_dev (f : kdev D -> kdev D) : M unit := modify (fun w => with_ext (f (w_ext w)) w).
Definition dev {A} (f : D -> A * D) : M A :=
  sys (fun d => let '(a, s) := f (d_sys d) in (a, KDev (d_sigs d) (d_fsms d) s)).

(** [dpele_aux_data]: the data of a freed element is gone. *)
Definition get_sig (x : loc) : M dpsig_iop :=
  _ ← get_ele x; w ← gets w_ext; lift_opt (d_sigs w !! x).
Definition put_sig (x : loc) (s : dpsig_iop) : M unit :=
  _ ← get_ele x; upd_dev (fun d => KDev (<[x := s]> (d_sigs d)) (d_fsms d) (d_sys d)).
Definition get_fsm (x : loc) : M dpfsm_iop :=
  _ ← get_ele x; w ← gets w_ext; lift_opt (d_fsms w !! x).
Definition put_fsm (x : loc) (f : dpfsm_iop) : M unit :=
  _ ← get_ele x; upd_dev (fun d => KDev (d_sigs d) (<[x := f]> (d_fsms d)) (d_sys d)).

(** ** Signals *)

Definition dpsig_vopen (x : loc) (args : list Z) : M Z :=
  put_sig x (SigIop ∅ (-1));;
  r ← dev dv_pipe;
  match r with
  | inl e => mret (- e)
  | inr (rd, wr) => put_sig x (SigIop ∅ wr);; mret rd
  end.

Definition _dpsig_fini (x : loc) : M unit :=
  s ← get_sig x;
  if 0 <=? sg_pipe_w s then
    _ ← dev (fun d => (tt, dv_close (sg_pipe_w s) d)); put_sig x (SigIop (sg_mask s) (-1))
  else mret tt.

Definition dpsig_copy (dst src : loc) : M Z :=
  s ← get_sig src; put_sig dst (SigIop (sg_mask s) (-1));; mret DPE_OK.

Definition dpsig_addno (self : loc) (signo : Z) : M Z :=
  s ← get_sig self;
  if negb (dv_sigaddset signo) then mret DPE_INVAL else
  let mask := {[ signo ]} ∪ sg_mask s in
  put_sig self (SigIop mask (sg_pipe_w s));;
  r ← dev (dv_block mask);
  match r with
  | Some e => mret (- e)
  | None => _dpevp_kq_sig_add self signo
  end.

Definition dpsig_delno (self : loc) (signo : Z) : M Z :=
  s ← get_sig self;
  r ← _dpevp_kq_sig_del signo;
  if dpret_iserr r then mret r else
  if negb (dv_sigaddset signo) then mret DPE_INVAL else
  let mask := sg_mask s ∖ {[ signo ]} in
  put_sig self (SigIop mask (sg_pipe_w s));;
  r ← dev (dv_setmask mask);
  match r with Some e => mret (- e) | None => mret DPE_OK end.

Definition dpsig_hasno (self : loc) (signo : Z) : M bool :=
  s ← get_sig self; mret (dv_sigaddset signo && bool_decide (signo ∈ sg_mask s)).

(** A record of 128 bytes with the number of the signal in front. *)
Definition siginfo (signo : Z) : list Z := le32 signo ++ replicate 124 0.
Definition _dpsig_kq_notify (ele : loc) (signo : Z) : M unit :=
  s ← get_sig ele;
  if sg_pipe_w s <? 0 then mret tt else
  dev (fun d => (tt, dv_write (sg_pipe_w s) (siginfo signo) d)).

(** ** Files *)

Definition zero_watch : dpfsm_watch := Watch None 0 0 [] 0.

(** The slots are zero from the element's allocation on. *)
Definition dpfsm_vopen (x : loc) (args : list Z) : M Z :=
  put_fsm x (FsmIop (-1) 1 0 (replicate 64 zero_watch));;
  r ← dev dv_pipe;
  match r with
  | inl e => mret (- e)
  | inr (rd, wr) => put_fsm x (FsmIop wr 1 0 (replicate 64 zero_watch));; mret rd
  end.

(** The watches in use, closed one by one. *)
Fixpoint close_watches (x : loc) (ids : list Z) : M unit :=
  match ids with
  | [] => mret tt
  | i :: ids =>
      f ← get_fsm x;
      w ← lift_opt (znth (watches f) i);
      (if 0 <=? vnode_fd w then
         _ ← _dpevp_kq_vnode_del (vnode_fd w);
         _ ← dev (fun d => (tt, dv_close (vnode_fd w) d));
         put_fsm x (FsmIop (fs_pipe_w f) (next_wd f) (watch_cnt f)
           (<[Z.to_nat i := Watch (w_ele w) (w_wd w) (-1) (w_name w) (inotify_mask w)]> (watches f)))
       else mret tt);;
      close_watches x ids
  end.

Definition _dpfsm_fini (x : loc) : M unit :=
  f ← get_fsm x;
  close_watches x (seqZ 0 (watch_cnt f));;
  f ← get_fsm x;
  put_fsm x (FsmIop (fs_pipe_w f) (next_wd f) 0 (watches f));;
  if 0 <=? fs_pipe_w f then
    _ ← dev (fun d => (tt, dv_close (fs_pipe_w f) d));
    put_fsm x (FsmIop (-1) (next_wd f) 0 (watches f))
  else mret tt.

(** The slot is written before the kernel is asked, and counted only when it agrees. *)
Definition dpfsm_addev (self : loc) (path : option chars) (mask : Z) : M Z :=
  match path with
  | None => mret DPE_INVAL
  | Some path =>
      f ← get_fsm self;
      if DPFSM_MAX_WATCH <=? watch_cnt f then mret DPE_NOMEM else
      r ← dev (dv_open path);
      match r with
      | inl e => mret (- e)
      | inr vfd =>
          let w := Watch (Some self) (next_wd f) vfd (ztake NAME_MAX (base_name path)) mask in
          let ws := <[Z.to_nat (watch_cnt f) := w]> (watches f) in
          put_fsm self (FsmIop (fs_pipe_w f) (next_wd f + 1) (watch_cnt f) ws);;
          r ← _dpevp_kq_vnode_add vfd (PWatch self (watch_cnt f)) (_inotify_to_note NOTE_OPEN NOTE_ACCESS mask);
          if dpret_iserr r then _ ← dev (fun d => (tt, dv_close vfd d)); mret r else
          put_fsm self (FsmIop (fs_pipe_w f) (next_wd f + 1) (watch_cnt f + 1) ws);;
          mret (w_wd w)
      end
  end.

(** The last watch takes the slot of the one that goes. *)
Fixpoint delev_loop (self : loc) (wd : Z) (ids : list Z) : M Z :=
  match ids with
  | [] => mret DPE_INVAL
  | i :: ids =>
      f ← get_fsm self;
      w ← lift_opt (znth (watches f) i);
      if negb (w_wd w =? wd) then delev_loop self wd ids else
      _ ← _dpevp_kq_vnode_del (vnode_fd w);
      _ ← dev (fun d => (tt, dv_close (vnode_fd w) d));
      last ← lift_opt (znth (watches f) (watch_cnt f - 1));
      let ws := if i <? watch_cnt f - 1 then <[Z.to_nat i := last]> (watches f) else watches f in
      put_fsm self (FsmIop (fs_pipe_w f) (next_wd f) (watch_cnt f - 1) ws);;
      mret DPE_OK
  end.
Definition dpfsm_delev (self : loc) (wd : Z) : M Z :=
  f ← get_fsm self; delev_loop self wd (seqZ 0 (watch_cnt f)).

(** [wd], [mask], [cookie], [len] and the name. *)
Definition fsm_record (w : dpfsm_watch) (fflags : Z) : list Z :=
  le32 (w_wd w) ++ le32 (_note_to_inotify fflags) ++ le32 0 ++ le32 (zlen (w_name w)) ++ map code (w_name w).

Definition _dpfsm_kq_notify (fuel : nat) (udata : option kptr) (note_fflags : Z) : M unit :=
  match udata with
  | None => mret tt
  | Some (PWatch x i) =>
      f ← get_fsm x;
      w ← lift_opt (znth (watches f) i);
      match w_ele w with
      | None => mret tt
      | Some e =>
          f ← get_fsm e;
          if fs_pipe_w f <? 0 then mret tt else
          _ ← dev (fun d => (tt, dv_write (fs_pipe_w f) (fsm_record w note_fflags) d));
          _ ← _dpefd_feed P fuel e DPEVT_IN;
          mret tt
      end
  | Some _ => ub
  end.

End KqDev.

(** ** Examples

    A system that hands out descriptors and keeps what is written to pipes. *)

Record toy := Toy { ty_next : Z; ty_writes : list (Z * list Z); ty_blocked : gset Z }.

#[export] Instance toy_dev : DevSys toy := {|
  dv_pipe s := (inr (ty_next s, ty_next s + 1), Toy (ty_next s + 2) (ty_writes s) (ty_blocked s));
  dv_open _ s := (inr (ty_next s), Toy (ty_next s + 1) (ty_writes s) (ty_blocked s));
  dv_close _ s := s;
  dv_write fd bs s := Toy (ty_next s) (ty_writes s ++ [(fd, bs)]) (ty_blocked s);
  dv_sigaddset n := (1 <=? n) && (n <=? 128);
  dv_block m s := (None, Toy (ty_next s) (ty_writes s) (ty_blocked s ∪ m));
  dv_setmask m s := (None, Toy (ty_next s) (ty_writes s) m);
|}.
#[export] Instance toy_ksys : KSys (kdev toy) := {|
  kqueue s := (5, s);
  kevent_change _ _ s := (0, s);
  kevent_wait _ _ _ s := (Some [], s);
  ksys_close _ s := (0, s);
  ksys_dup _ s := (-1, s);
|}.

Definition dev_prog : kprogram (kdev toy) :=
  KProgram (fun _ => None)
    (fun n => if n =? 20 then Some dpsig_vopen else if n =? 21 then Some dpfsm_vopen else None)
    (fun n => if n =? 20 then Some dpsig_copy else None)
    (fun n => if n =? 20 then Some _dpsig_fini else if n =? 21 then Some _dpfsm_fini else None)
    _dpsig_kq_notify (fun _ _ => mret tt).
Definition dev_world : kworld (kdev toy) :=
  KWorld ∅ 1 [] [] {[ 0 := KNode 0 0 false 5 256 [] 0 [] 0 [] [] [] [] [] false false (0, 0) ]} (EvpSet 1 1 [] [])
    (Some 0) (KDev ∅ ∅ (Toy 10 [] ∅)).

(** Three files are watched after one of them was given up: the change of the second
    is reported as one of the third, whose watch took the slot the kernel knows. *)
Example moved_watch_misreported :
  fst <$> (_ ← dpele_newv dev_prog (Some dpfsm_type) [];
     a ← dpfsm_addev 0 0 1 (Some (chr "/a")) IN_MODIFY; b ← dpfsm_addev 0 0 1 (Some (chr "/b")) IN_MODIFY;
     d ← dpfsm_delev 1 a; c ← dpfsm_addev 0 0 1 (Some (chr "/c")) IN_MODIFY;
     _dpfsm_kq_notify dev_prog 4 (Some (PWatch 1 1)) NOTE_WRITE;;
     ws ← gets (fun w => ty_writes (d_sys (w_ext w)));
     mret (a, b, d, c, ws)) dev_world
  = Some (1, 2, DPE_OK, 3, [(11, le32 3 ++ le32 IN_MODIFY ++ le32 0 ++ le32 1 ++ [99])]).
Proof. vm_compute. reflexivity. Qed.

(** A file created in a watched directory is reported as a modification. *)
Example create_becomes_modify : _note_to_inotify (_inotify_to_note 0 0 IN_CREATE) = IN_MODIFY.
Proof. reflexivity. Qed.

(** Taking a signal off one element unblocks the signals of the others. *)
Example bsd_delno_unblocks_others :
  fst <$> (s ← dpele_newv dev_prog (Some dpsig_type) []; t ← dpele_newv dev_prog (Some dpsig_type) [];
     _ ← dpsig_addno 1 10; _ ← dpsig_addno 2 12; r ← dpsig_delno 1 10;
     b ← gets (fun w => bool_decide (12 ∈ ty_blocked (d_sys (w_ext w)))); mret (r, b)) dev_world
  = Some (DPE_OK, false).
Proof. vm_compute. reflexivity. Qed.

(** A signal becomes a record in the pipe of its element. *)
Example signal_record :
  fst <$> (_ ← dpele_newv dev_prog (Some dpsig_type) []; _ ← dpsig_addno 1 10; _dpsig_kq_notify 1 10;;
     gets (fun w => ty_writes (d_sys (w_ext w)))) dev_world
  = Some [(11, 10 :: replicate 127 0)].
Proof. vm_compute. reflexivity. Qed.
