(* ===== verification/KqCases.v ===== *)
(** * The kqueue loops over a small kernel

    A kernel that keeps the filters registered at its queues and the events that
    are pending, with one word of data for each entry: triggering a wake-up that is
    pending replaces its data.  The loops run on it: what the theorems of [KqFacts]
    give there, and what goes wrong. *)

From S2P Require Import Prelude Dpret Ele Tmrset World Kq KqEvp KqFacts.

#[local] Set Default Proof Using "Type*".

Record kern := Kern {
  kn_next : Z;
  kn_regs : Z -> kident -> kfilter -> option (option kptr);
  kn_pend : list (Z * kevent); (* by queue, oldest first *)
}.

Definition same_entry (q : Z) (c : kevent) (p : Z * kevent) : bool :=
  bool_decide (p.1 = q /\ ke_ident p.2 = ke_ident c /\ ke_filter p.2 = ke_filter c).

(** The pending event of an entry, replaced or added at the end. *)
Definition put_event (q : Z) (e : kevent) (l : list (Z * kevent)) : list (Z * kevent) :=
  if existsb (same_entry q e) l then map (fun p => if same_entry q e p then (q, e) else p) l else l ++ [(q, e)].

Definition put_regs (q : Z) (c : kevent) (s : kern) : Z -> kident -> kfilter -> option (option kptr) :=
  fun q' => if decide (q' = q) then change1 c (kn_regs s q) else kn_regs s q'.

(** One change: deleting or triggering what is not registered is an error. *)
Definition kern_change (q : Z) (c : kevent) (s : kern) : Z * kern :=
  let known := bool_decide (is_Some (kn_regs s q (ke_ident c) (ke_filter c))) in
  if has_flag (ke_flags c) EV_DELETE then
    if known then (0, Kern (kn_next s) (put_regs q c s) (base.filter (fun p => same_entry q c p = false) (kn_pend s)))
    else (- ENOENT, s)
  else if has_flag (ke_flags c) EV_ADD then (0, Kern (kn_next s) (put_regs q c s) (kn_pend s))
  else if known then (0, Kern (kn_next s) (put_regs q c s) (put_event q c (kn_pend s)))
  else (- ENOENT, s).

Fixpoint kern_changes (q : Z) (cs : list kevent) (s : kern) : Z * kern :=
  match cs with
  | [] => (0, s)
  | c :: cs => let r := kern_change q c s in if r.1 =? 0 then kern_changes q cs r.2 else r
  end.

#[export] Instance kern_sys : KSys kern := {|
  kqueue s := (kn_next s, Kern (kn_next s + 1) (kn_regs s) (kn_pend s));
  kevent_change := kern_changes;
  kevent_wait q n _ s :=
    (Some (ztake n (map snd (base.filter (fun p => p.1 = q) (kn_pend s)))),
     Kern (kn_next s) (kn_regs s) (base.filter (fun p => p.1 <> q) (kn_pend s)));
  ksys_close _ s := (0, s);
  ksys_dup _ s := (-1, s);
|}.

Lemma kern_change_regs q c s s' :
  kern_change q c s = (0, s') -> kn_regs s' = put_regs q c s.
Proof.
  unfold kern_change. destruct (has_flag (ke_flags c) EV_DELETE), (has_flag (ke_flags c) EV_ADD), (bool_decide (is_Some (kn_regs s q (ke_ident c) (ke_filter c)))); by intros [= <-].
Qed.

Lemma kern_made q cs s s' : kern_changes q cs s = (0, s') -> forall q' i f,
  kn_regs s' q' i f = if bool_decide (q' = q) then changes cs (kn_regs s q) i f else kn_regs s q' i f.
Proof.
  intros Hr q' i f. revert s Hr. induction cs as [|c cs IH]; intros s; cbn.
  - intros [= ->]. destruct (bool_decide_reflect (q' = q)) as [->|]; done.
  - destruct (kern_change q c s) as [r s1] eqn:Hc. cbn. destruct (Z.eqb_spec r 0) as [->|]; [|by intros [= ->]].
    intros Hr. rewrite (IH _ Hr), (kern_change_regs _ _ _ _ Hc). unfold put_regs.
    destruct (bool_decide_reflect (q' = q)) as [->|]; [by rewrite decide_True|by rewrite decide_False].
Qed.

#[export] Instance kern_regs : KRegs kern := { registered := kn_regs; change_made := kern_made }.

Definition kern0 : kern := Kern 5 (fun _ _ _ => None) [].

(** ** Loops *)

Definition idle_node (id kq : Z) (worker : bool) : kevp :=
  KNode id id worker kq 256 [] 0 [] 0 [] [] [] [] [] worker worker (0, 0).
Definition prog : kprogram kern :=
  KProgram (fun n => if n =? 7 then Some dpctc_submit else None)
    (fun _ => None) (fun _ => None) (fun _ => None) (fun _ _ => mret tt) (fun _ _ => mret tt).

(** The master, queue 5, and a worker, queue 6; calls 1 and 2 are from the worker
    to the master. *)
Definition call_ele : kele := KEle (set_toid (set_refc (zero_ele dpctc_init_type) 1) 0) false false.
Definition two_loops : kworld kern :=
  KWorld {[ 1%positive := call_ele; 2%positive := call_ele ]} 3 [] []
    {[ 0 := idle_node 0 5 false; 1 := idle_node 1 6 true ]} (EvpSet 2 2 [] []) None (Kern 7 (fun _ _ _ => None) []).

Abbreviation M := (ST (kworld kern)).
Definition on {A} (n : Z) (m : M A) : M A := enter_loop n;; m.
Definition pop2 (n : Z) : M (option loc) := on n (_ ← dpevp_pop prog 20 0; dpevp_pop prog 20 0).
Definition pending : M nat := gets (fun w => length (kn_pend (w_ext w))).

(** A call goes to the master, which ends it before the worker looks at its queue. *)
Definition round_trip (x : loc) : M (Z * option loc * option loc) :=
  r ← on 1 (dpevp_addv prog 20 (Some x) (Some 7) [1; 2]);
  a ← pop2 0;
  _ ← on 0 (dpevp_end_ctc_ prog a 5);
  b ← pop2 1;
  mret (r, a, b).

(** The worker gets its call back, but the wake-up that told it the master had taken
    the queue was replaced by the one that gave the call back: the worker never has
    the turn again, and its next call stays where no one looks. *)
Example wake_up_overwritten :
  (fun r => r.1) <$>
    (_ ← on 0 (master_start 0); _ ← on 1 (worker_start 1);
     t1 ← round_trip 1;
     r2 ← on 1 (dpevp_addv prog 20 (Some 2%positive) (Some 7) [1; 2]);
     a2 ← pop2 0; b2 ← pop2 1; a3 ← pop2 0;
     v ← get_node 1; p ← pending;
     mret (t1, r2, (a2, b2, a3), (v_request v, v_commited v, v_commiting v), p)) two_loops
  = Some ((DPE_WAIT, Some 1%positive, Some 1%positive), DPE_WAIT, (None, None, None),
          (false, [], [2%positive]), 0%nat).
Proof. vm_compute. reflexivity. Qed.

(** The worker looks at its queue in between: the second call arrives. *)
Example wake_ups_one_by_one :
  (fun r => r.1) <$>
    (_ ← on 0 (master_start 0); _ ← on 1 (worker_start 1);
     _ ← on 1 (dpevp_addv prog 20 (Some 1%positive) (Some 7) [1; 2]);
     a ← pop2 0; _ ← pop2 1;
     _ ← on 0 (dpevp_end_ctc_ prog a 5); b ← pop2 1; _ ← pop2 0;
     _ ← on 1 (dpevp_addv prog 20 (Some 2%positive) (Some 7) [1; 2]);
     a2 ← pop2 0;
     mret (a, b, a2)) two_loops
  = Some (Some 1%positive, Some 1%positive, Some 2%positive).
Proof. vm_compute. reflexivity. Qed.

(** A worker that submits a call before the master has registered the wake-ups: the
    trigger fails, the failure is not looked at, and no later call wakes the master. *)
Example early_wake_up_lost :
  (fun r => r.1) <$>
    (_ ← on 1 (worker_start 1);
     r1 ← on 1 (dpevp_addv prog 20 (Some 1%positive) (Some 7) [1; 2]);
     ok ← on 0 (master_start 0);
     r2 ← on 1 (dpevp_addv prog 20 (Some 2%positive) (Some 7) [1; 2]);
     a ← pop2 0; v ← get_node 1; p ← pending;
     mret (r1, ok, r2, a, (v_commited v, v_commiting v), p)) two_loops
  = Some (DPE_WAIT, true, DPE_WAIT, None, ([1%positive], [2%positive]), 0%nat).
Proof. vm_compute. reflexivity. Qed.

(** ** Loops come and go *)

(** The shutdown of [dpapp.c] deletes the master first; deleting a worker then uses
    the queue of the master. *)
Example shutdown_uses_freed_master :
  (dpevp_del prog 0;; dpevp_del prog 1) two_loops = None /\
  is_Some ((dpevp_del prog 1;; dpevp_del prog 0) two_loops).
Proof. split; [vm_compute; reflexivity|]. by eexists. Qed.

(** No queue can be made (here [EMFILE]): the worker is made all the same, with
    number 0 and descriptor 0 for its queue. *)
#[local] Instance full_sys : KSys (unit * kern) := {|
  kqueue s := (-24, s);
  kevent_change _ _ s := (0, s);
  kevent_wait _ _ _ s := (Some [], s);
  ksys_close _ s := (0, s);
  ksys_dup _ s := (-1, s);
|}.
Example worker_without_queue :
  (fun r => r.1) <$>
    (ok ← worker_new (KProgram (fun _ => None) (fun _ => None) (fun _ => None) (fun _ => None) (fun _ _ => mret tt) (fun _ _ => mret tt)) 1 3;
     v ← get_node 3; mret (ok, v_id v, v_kq_fd v, v_capacity v))
    (KWorld ∅ 1 [] [] ∅ (EvpSet 4 2 [] []) None (tt, kern0))
  = Some (true, 0, 0, 0).
Proof. vm_compute. reflexivity. Qed.

(** ** A batch of events *)

Definition tmr_event (x : loc) : kevent := EV_SET (IPtr (PEle x)) EVFILT_TIMER 0 0 1 (Some (PEle x)).
Definition read_event (x : loc) (flags data : Z) : kevent := EV_SET (INum 3) EVFILT_READ flags 0 data (Some (PEle x)).

(** An operation that takes whatever is there. *)
Definition take_all : kasc kern :=
  KAsc (fun _ _ o => mret (DPE_CONTINUE, KOut DPEVT_IN 0 (o_able o) (able_bytes o) (kq_fflags o) (o_data o)))
    (Some (fun _ o => mret (able_bytes o, o))) 1 0 8 0.
Definition io_prog : kprogram kern :=
  KProgram (fun n => if n =? 8 then Some take_all else None)
    (fun _ => None) (fun _ => None) (fun _ => None) (fun _ _ => mret tt) (fun _ _ => mret tt).
Definition reading_ele : kele :=
  KEle (set_timing (set_refc (set_scratch (set_asc (set_want (set_poll (set_fd (zero_ele dpefd_init_type) 3) DPEVT_AIO) DPEVT_IN)
    (Some 8)) (Some (8, [0]))) 1) true) true true.
Definition batch_world (k : kele) (evs : list kevent) (limit : Z) : kworld kern :=
  KWorld {[ 1%positive := k ]} 2 [] []
    {[ 0 := KNode 0 0 false 5 256 evs 0 [] limit [] [] [] [] [] false false (0, 0) ]} (EvpSet 1 1 [] []) (Some 0)
    (Kern 7 (fun _ _ _ => None) []).

(** The read completes, and the user deletes its element; the timer of the same
    batch, taken off the kernel but not off the batch, is still delivered: the loop
    uses the element after it was freed. *)
Example stale_timer_event :
  fst <$> dpevp_pop io_prog 20 0 (batch_world reading_ele [read_event 1 0 6; tmr_event 1] 0) = Some (Some 1%positive) /\
  (_ ← dpevp_pop io_prog 20 0; dpele_del io_prog (Some 1%positive);; dpevp_pop io_prog 20 0)
    (batch_world reading_ele [read_event 1 0 6; tmr_event 1] 0) = None.
Proof. split; vm_compute; reflexivity. Qed.

(** The peer sends six bytes and closes: the event has the bytes and the end of the
    stream, and the operation is not called at all. *)
Example bytes_before_close_lost :
  fst <$> (x ← dpevp_pop io_prog 20 0; r ← dpele_ret 1; mret (x, r))
    (batch_world reading_ele [read_event 1 EV_EOF 6] 0) = Some (Some 1%positive, DPE_CONNRESET).
Proof. vm_compute. reflexivity. Qed.

(** A timer event of an element nobody is told about, then a wake-up: asking for the
    next batch drops the wake-up, which the kernel will not give again. *)
Definition detached_timer : kele :=
  KEle (set_detach (set_refc (set_asc (zero_ele dptmr_init_type) (Some 9)) 1) true) false false.
Example wake_up_after_timer_dropped :
  fst <$> (x ← dpevp_pop io_prog 20 0; v ← get_node 0; mret (x, v_evs v, v_enter v))
    (batch_world detached_timer
       [tmr_event 1; EV_SET (IPtr (PCommit 1)) EVFILT_USER 0 0 _CTC_INCR_FLAG (Some (PCommit 1))] 0)
  = Some (None, [], []).
Proof. vm_compute. reflexivity. Qed.

(** The timer of a read, when 32 elements have been delivered since the last batch:
    the theorem, and the element still waits. *)
Lemma full_batch_drops_timers_witness :
  wp (dpevp_pop io_prog 5 100) (batch_world reading_ele [tmr_event 1] 32) (fun r w' => r = None /\
    w_eles w' = w_eles (batch_world reading_ele [tmr_event 1] 32) /\
    exists v', w_nodes w' !! 0 = Some v' /\ v_index v' = O /\ v_pop_limit v' = 0 /\ v_evs v' = []).
Proof.
  exact (full_batch_drops_timers io_prog 4 100 (batch_world reading_ele [tmr_event 1] 32) 0
    (KNode 0 0 false 5 256 [tmr_event 1] 0 [] 32 [] [] [] [] [] false false (0, 0)) (tmr_event 1)
    eq_refl eq_refl eq_refl eq_refl (Z.le_refl 32)).
Defined.

(** A descriptor registered for reading that is now polled for writing only. *)
Definition half_regs : Z -> kident -> kfilter -> option (option kptr) :=
  fun q i f => if bool_decide (q = 5 /\ i = INum 3 /\ f = EVFILT_READ) then Some (Some (PEle 1)) else None.
Definition half_ele : kele :=
  KEle (set_poll (set_fd (zero_ele dpefd_init_type) 3) DPEVT_OUT) true false.
Definition half_world : kworld kern :=
  KWorld {[ 1%positive := half_ele ]} 2 [] [] {[ 0 := idle_node 0 5 false ]} (EvpSet 1 1 [] []) (Some 0)
    (Kern 7 half_regs []).

Lemma half_flags : flags_true 1 half_ele 5 (w_ext half_world).
Proof. intros f [->| ->]; reflexivity. Qed.

Lemma watch_registers_polled_witness :
  wp (_dpevp_watch_efd 1) half_world (fun r w' => exists k', w_eles w' !! 1%positive = Some k' /\ k_ele k' = k_ele half_ele /\
    w_nodes w' = w_nodes half_world /\
    if r =? DPE_OK then
      (forall f, io_filter f -> inpoll k' f = wanted (k_ele half_ele) f) /\
      flags_true 1 k' 5 (w_ext w') /\ others_kept half_ele 5 (w_ext half_world) (w_ext w')
    else k' = half_ele).
Proof.
  exact (watch_registers_polled 1 half_world half_ele 0 (idle_node 0 5 false) eq_refl eq_refl eq_refl half_flags).
Defined.

Example half_watched :
  fst <$> (r ← _dpevp_watch_efd 1; k ← get_kele 1; mret (r, is_inpoll_read k, is_inpoll_write k)) half_world
  = Some (DPE_OK, false, true).
Proof. vm_compute. reflexivity. Qed.
