(* ===== verification/Handoff.v ===== *)
(** * Handing calls between a worker and the master

    A worker and the master exchange calls through two symmetric channels and
    two [eventfd] counters.  A producer that has the turn puts a call in the
    offered queue and wakes the consumer (INCR); otherwise it stages the call.
    The consumer takes the offered queue and says so (TAKE); the producer then
    offers what it staged, or gets the turn back.

    [endp] is one side: for the worker, the queues [commited] and [commiting],
    the turn [is_request] and the counter it reads, [accept_wake]; for the
    master, [accepted], [accepting], [is_respond] and [commit_wake].  [pc] says
    where in a handler of [Evp] the side is: the steps are the accesses to
    shared memory, so sides interleave inside handlers too. *)

From S2P Require Import Prelude Dpret Ele Tmrset World WorldLogic Evp.

(** ** The two sides *)

Inductive pc :=
  | Idle
  | Flags (tk ps : bool)  (* the counter was read: to move, to take *)
  | Wake (ps : bool)      (* about to write INCR, then maybe to take *)
  | Tell.                 (* about to write TAKE *)

Record endp := Endp {
  ep_pc : pc;
  ep_turn : bool;
  ep_off : list loc;  (* offered *)
  ep_stg : list loc;  (* staged *)
  ep_cnt : Z;         (* the counter this side reads *)
  ep_enter : list loc;
  ep_push : list loc; (* every call this side handed over, in order *)
  ep_got : list loc;  (* every call this side received, in order *)
}.

Definition take_flag (c : Z) : bool := has_flag c _CTC_TAKE_MASK.
Definition push_flag (c : Z) : bool := has_flag c _CTC_PUSH_MASK.

(** A step of side [a] with peer [b]. *)
Inductive side_step : endp -> endp -> endp -> endp -> Prop :=
  | st_push_turn x off stg cnt en pu go b :
      side_step (Endp Idle true off stg cnt en pu go) b
                (Endp (Wake false) false (off ++ [x]) stg cnt en (pu ++ [x]) go) b
  | st_push_stage x off stg cnt en pu go b :
      side_step (Endp Idle false off stg cnt en pu go) b
                (Endp Idle false off (stg ++ [x]) cnt en (pu ++ [x]) go) b
  | st_wake ps t off stg cnt en pu go p t' off' stg' cnt' en' pu' go' :
      side_step (Endp (Wake ps) t off stg cnt en pu go) (Endp p t' off' stg' cnt' en' pu' go')
                (Endp (Flags false ps) t off stg cnt en pu go)
                (Endp p t' off' stg' (cnt' + _CTC_INCR_FLAG) en' pu' go')
  | st_read t off stg cnt en pu go b :
      cnt <> 0 ->
      side_step (Endp Idle t off stg cnt en pu go) b
                (Endp (Flags (take_flag cnt) (push_flag cnt)) t off stg 0 en pu go) b
  | st_move ps t off stg cnt en pu go b :
      side_step (Endp (Flags true ps) t off stg cnt en pu go) b
                (match stg with
                 | [] => Endp (Flags false ps) true [] [] cnt en pu go
                 | _ => Endp (Wake ps) t stg [] cnt en pu go
                 end) b
  | st_take t off stg cnt en pu go p t' off' stg' cnt' en' pu' go' :
      side_step (Endp (Flags false true) t off stg cnt en pu go) (Endp p t' off' stg' cnt' en' pu' go')
                (Endp Tell t off stg cnt (en ++ off') pu (go ++ off')) (Endp p t' [] stg' cnt' en' pu' go')
  | st_tell t off stg cnt en pu go p t' off' stg' cnt' en' pu' go' :
      side_step (Endp Tell t off stg cnt en pu go) (Endp p t' off' stg' cnt' en' pu' go')
                (Endp (Flags false false) t off stg cnt en pu go)
                (Endp p t' off' stg' (cnt' + _CTC_TAKE_FLAG) en' pu' go')
  | st_done t off stg cnt en pu go b :
      side_step (Endp (Flags false false) t off stg cnt en pu go) b
                (Endp Idle t off stg cnt en pu go) b.

(** Pushes and consumption come from outside the protocol. *)
Definition is_push (a a' : endp) : Prop := ep_push a' <> ep_push a.

(** Either side moves; a side may also hand a received call on to its users. *)
Inductive sys_step : endp * endp -> endp * endp -> Prop :=
  | sys_left a b a' b' : side_step a b a' b' -> sys_step (a, b) (a', b')
  | sys_right a b a' b' : side_step b a b' a' -> sys_step (a, b) (a', b').

Definition set_enter (l : list loc) (a : endp) : endp :=
  Endp (ep_pc a) (ep_turn a) (ep_off a) (ep_stg a) (ep_cnt a) l (ep_push a) (ep_got a).

Inductive env_step : endp * endp -> endp * endp -> Prop :=
  | env_left a b l : env_step (a, b) (set_enter l a, b)
  | env_right a b l : env_step (a, b) (a, set_enter l b).

Definition any_step (s s' : endp * endp) : Prop := sys_step s s' \/ env_step s s'.

(** The sides as [worker_new] makes them. *)
Definition fresh_end : endp := Endp Idle true [] [] 0 [] [] [].
Definition reachable (s : endp * endp) : Prop := rtc any_step (fresh_end, fresh_end) s.

(** ** The invariant of one channel, from producer [p] to consumer [c]

    The turn travels: exactly one of these places has it. *)

Definition b2z (b : bool) : Z := if b then 1 else 0.
Definition wants_wake (q : pc) : bool := match q with Wake _ => true | _ => false end.
Definition wants_take (q : pc) : bool := match q with Flags _ true | Wake true => true | _ => false end.
Definition wants_tell (q : pc) : bool := match q with Tell => true | _ => false end.
Definition wants_move (q : pc) : bool := match q with Flags true _ => true | _ => false end.

Definition low (c : Z) : Z := c mod 4294967296.
Definition high (c : Z) : Z := c / 4294967296.

Definition turns (p c : endp) : Z :=
  b2z (ep_turn p) + b2z (wants_wake (ep_pc p)) + low (ep_cnt c) + b2z (wants_take (ep_pc c))
  + b2z (wants_tell (ep_pc c)) + high (ep_cnt p) + b2z (wants_move (ep_pc p)).

(** Where the offered queue holds calls. *)
Definition offering (p c : endp) : bool :=
  wants_wake (ep_pc p) || (0 <? low (ep_cnt c)) || wants_take (ep_pc c).

Record chan_inv (p c : endp) : Prop := {
  ci_turn : turns p c = 1;
  ci_cnt : 0 <= ep_cnt p /\ 0 <= ep_cnt c;
  ci_off : if offering p c then ep_off p <> [] else ep_off p = [];
  ci_stg : ep_turn p = true -> ep_stg p = [];
  ci_fifo : ep_push p = ep_got c ++ ep_off p ++ ep_stg p;
}.

Definition sys_inv (s : endp * endp) : Prop := chan_inv s.1 s.2 /\ chan_inv s.2 s.1.

Lemma low_high c : c = 4294967296 * high c + low c.
Proof. unfold low, high. pose proof (Z.div_mod c 4294967296). lia. Qed.

Lemma low_range c : 0 <= low c < 4294967296.
Proof. unfold low. apply Z.mod_pos_bound. lia. Qed.

Lemma high_nonneg c : 0 <= c -> 0 <= high c.
Proof. intros. apply Z.div_pos; lia. Qed.

Lemma low_high_unique c h l : c = 4294967296 * h + l -> 0 <= l < 4294967296 -> high c = h /\ low c = l.
Proof.
  intros -> Hl. unfold high, low. split.
  - rewrite Z.mul_comm, Z.div_add_l, Z.div_small by lia. lia.
  - rewrite Z.add_comm, Z.mul_comm, Z.mod_add, Z.mod_small by lia. lia.
Qed.

Lemma cnt_cases c :
  0 <= c -> low c <= 1 -> high c <= 1 ->
  c = 0 \/ c = 1 \/ c = 4294967296 \/ c = 4294967297.
Proof.
  intros H Hl Hh. pose proof (low_high c). pose proof (low_range c). pose proof (high_nonneg c H). lia.
Qed.

Lemma low_incr c : low c <= 1 -> low (c + _CTC_INCR_FLAG) = low c + 1 /\ high (c + _CTC_INCR_FLAG) = high c.
Proof.
  intros Hl. unfold _CTC_INCR_FLAG. pose proof (low_high c). pose proof (low_range c).
  destruct (low_high_unique (c + 1) (high c) (low c + 1)); auto; lia.
Qed.

Lemma high_tell c : low (c + _CTC_TAKE_FLAG) = low c /\ high (c + _CTC_TAKE_FLAG) = high c + 1.
Proof.
  unfold _CTC_TAKE_FLAG. pose proof (low_high c). pose proof (low_range c).
  destruct (low_high_unique (c + 4294967296) (high c + 1) (low c)); auto; lia.
Qed.

Lemma flags_of_cnt c :
  0 <= c -> low c <= 1 -> high c <= 1 -> take_flag c = (0 <? high c) /\ push_flag c = (0 <? low c).
Proof. intros H Hl Hh. destruct (cnt_cases c H Hl Hh) as [->|[->|[->| ->]]]; by vm_compute. Qed.

Lemma b2z_range b : 0 <= b2z b <= 1.
Proof. destruct b; cbn; lia. Qed.

(** The counters of two sides that satisfy both channel invariants. *)
Lemma inv_counters a b :
  chan_inv a b -> chan_inv b a ->
  0 <= low (ep_cnt a) <= 1 /\ 0 <= high (ep_cnt a) <= 1 /\
  0 <= low (ep_cnt b) <= 1 /\ 0 <= high (ep_cnt b) <= 1.
Proof.
  intros [T1 [C1 C2] _ _ _] [T2 _ _ _ _]. unfold turns in *.
  pose proof (low_range (ep_cnt a)). pose proof (low_range (ep_cnt b)).
  pose proof (high_nonneg _ C1). pose proof (high_nonneg _ C2).
  repeat match goal with |- context [b2z ?x] => fail 1 | H : context [b2z ?x] |- _ =>
    lazymatch goal with _ : 0 <= b2z x <= 1 |- _ => fail | _ => pose proof (b2z_range x) end end.
  lia.
Qed.

(** Exposes the fields and the arithmetic of both channels. *)
Ltac chan_open :=
  unfold turns, offering in *; cbn [ep_pc ep_turn ep_off ep_stg ep_cnt ep_enter ep_push ep_got
    wants_wake wants_take wants_tell wants_move b2z orb] in *.

Lemma low_0 : low 0 = 0. Proof. done. Qed.
Lemma high_0 : high 0 = 0. Proof. done. Qed.

Lemma app_snoc_nonnil {A} (l : list A) x : l ++ [x] <> [].
Proof. by destruct l. Qed.

Lemma low_ltb c : 0 <= low c <= 1 -> (0 <? low c) = bool_decide (low c = 1).
Proof. intros. case_bool_decide; lia. Qed.
Lemma high_ltb c : 0 <= high c <= 1 -> (0 <? high c) = bool_decide (high c = 1).
Proof. intros. case_bool_decide; lia. Qed.

(** Case analysis on where the turn is, then each field of the invariant: the
    turn is in one place only, so the other places are impossible. *)
Ltac b2z_ranges := repeat match goal with
  | H : context [b2z ?x] |- _ =>
      lazymatch goal with _ : 0 <= b2z x <= 1 |- _ => fail | _ => pose proof (b2z_range x) end
  end.
Ltac chan_cases :=
  b2z_ranges;
  repeat match goal with
  | H : context [b2z ?x] |- _ => destruct x; chan_open; try (exfalso; lia)
  | H : context [0 <? ?c] |- _ => destruct (Z.ltb_spec 0 c); chan_open; try (exfalso; lia)
  | |- context [0 <? ?c] => destruct (Z.ltb_spec 0 c); chan_open; try (exfalso; lia)
  end; rewrite ?orb_true_r, ?orb_false_r, ?orb_true_l in *; chan_open.
Ltac chan_field :=
  first [ lia | done | discriminate | congruence | by auto | apply app_snoc_nonnil
        | exfalso; lia
        | intros; simplify_eq/=; rewrite ?app_assoc, ?app_nil_r in *; congruence
        | idtac ].

Lemma side_step_inv a b a' b' :
  side_step a b a' b' -> chan_inv a b -> chan_inv b a -> chan_inv a' b' /\ chan_inv b' a'.
Proof.
  intros Hstep Hab Hba. pose proof (inv_counters _ _ Hab Hba) as Hcnt.
  assert (Hflags := flags_of_cnt (ep_cnt a)). pose proof low_0. pose proof high_0.
  pose proof (low_incr (ep_cnt b) ltac:(lia)) as [L1 L2].
  pose proof (high_tell (ep_cnt b)) as [L3 L4].
  destruct Hab as [A1 A2 A3 A4 A5], Hba as [B1 B2 B3 B4 B5].
  destruct b as [pb tb offb stgb cntb enb pub gob].
  destruct Hstep; chan_open; simplify_eq; unfold _CTC_INCR_FLAG, _CTC_TAKE_FLAG in *;
    try (destruct Hflags as [-> ->]; [lia|lia|lia|]); try clear Hflags.
  - split; split; chan_open; chan_cases; chan_field.
    all: rewrite A4 by done; by rewrite !app_nil_r, app_assoc.
  - split; split; chan_open; chan_cases; chan_field.
  - split; split; chan_open; rewrite ?L1, ?L2; chan_cases; chan_field.
  - split; split; chan_open; chan_cases; chan_field.
  - destruct stg; split; split; chan_open; chan_cases; chan_field.
  - split; split; chan_open; chan_cases; chan_field.
  - split; split; chan_open; rewrite ?L3, ?L4; chan_cases; chan_field.
  - split; split; chan_open; chan_cases; chan_field.
    all: idtac.
Qed.

Lemma reachable_inv s : reachable s -> sys_inv s.
Proof.
  intros Hr. unfold reachable in Hr.
  assert (H0 : sys_inv (fresh_end, fresh_end)) by (split; split; vm_compute; intuition discriminate).
  revert H0. induction Hr as [s|s s1 s2 Hs _ IH]; [done|]. intros Hs0. apply IH. clear IH.
  destruct Hs as [Hs|Hs]; inversion Hs; subst; destruct Hs0 as [Ha Hb]; cbn in *.
  - by destruct (side_step_inv _ _ _ _ H Ha Hb).
  - by destruct (side_step_inv _ _ _ _ H Hb Ha).
  - destruct Ha, Hb. by split; split.
  - destruct Ha, Hb. by split; split.
Qed.

(** ** The functions of [Evp] are runs of the protocol

    A handler of the code takes a side from [Idle] to [Idle]; its peer may be
    anywhere. *)

Definition wside (v : dpevp) (p : pc) (pu go : list loc) : endp :=
  Endp p (v_request v) (v_commited v) (v_commiting v) (v_accept_wake v) (v_enter v) pu go.
Definition mside (v : dpevp) (enter : list loc) (p : pc) (pu go : list loc) : endp :=
  Endp p (v_respond v) (v_accepted v) (v_accepting v) (v_commit_wake v) enter pu go.

Lemma to_u64_small z : 0 <= z < 18446744073709551616 -> to_u64 z = z.
Proof. apply Z.mod_small. Qed.

Lemma inv_cnt_small a b :
  chan_inv a b -> chan_inv b a -> 0 <= ep_cnt a <= 4294967297 /\ 0 <= ep_cnt b <= 4294967297.
Proof.
  intros Ha Hb. pose proof (inv_counters _ _ Ha Hb) as (? & ? & ? & ?).
  destruct Ha as [_ [Hca Hcb] _ _ _].
  pose proof (cnt_cases (ep_cnt a) ltac:(lia) ltac:(lia) ltac:(lia)).
  pose proof (cnt_cases (ep_cnt b) ltac:(lia) ltac:(lia) ltac:(lia)). lia.
Qed.

(** Runs a side by the rules, in the order of the code. *)
Ltac side_run side :=
  cbn; repeat first [ apply rtc_refl
    | eapply rtc_l; [apply side; first [apply st_move | apply st_wake | apply st_take | apply st_tell
                                       | apply st_done | apply st_push_turn | apply st_push_stage]|]; cbn ].
Ltac side_runs side :=
  eexists _, _; split; [reflexivity|]; unfold wside, mside; cbn;
  rewrite ?to_u64_small by (rewrite ?to_u64_small; unfold _CTC_INCR_FLAG, _CTC_TAKE_FLAG; lia);
  eapply rtc_l; [apply side, st_read; done|]; unfold take_flag, push_flag;
  repeat match goal with H : has_flag _ _ = _ |- _ => rewrite H; clear H end; side_run side.

Ltac side_push side :=
  eexists; split; [reflexivity|]; unfold wside, mside; cbn;
  rewrite ?to_u64_small by (unfold _CTC_INCR_FLAG, _CTC_TAKE_FLAG; lia); side_run side.

Section Refines.
Context {E : Type} `{Sys E} (self : Z).
Variables (v : dpevp) (pw pm gw gm : list loc).

Lemma worker_wake_runs (w : world E) pcm enm :
  w_nodes w !! self = Some v -> v_accept_wake v <> 0 ->
  sys_inv (wside v Idle pw gw, mside v enm pcm pm gm) ->
  wp (worker_wake self (EvAccept self)) w (fun _ w' => exists v' gw',
    w' = with_nodes <[self := v']> w /\
    rtc sys_step (wside v Idle pw gw, mside v enm pcm pm gm) (wside v' Idle pw gw', mside v' enm pcm pm gm)).
Proof.
  intros Hv Hc [Ha Hb]. pose proof (inv_cnt_small _ _ Ha Hb) as [Ca Cb]; cbn in Ca, Cb. clear Ha Hb.
  destruct v as [id ty en tm wm evs ix pl rd cw aw ag cg ad cd rq rs]; cbn in *.
  unfold worker_wake, read_wake, read_accept. repeat world_step. cbn.
  destruct (has_flag aw _CTC_TAKE_MASK) eqn:Ht; unfold _worker_move_commit_ctc; [destruct cg as [|x cg]|];
    unfold write_commit; repeat world_step; cbn; repeat world_step;
    (destruct (has_flag aw _CTC_PUSH_MASK) eqn:Hp; unfold _worker_take_accept_ctc, write_commit; repeat world_step).
  all: side_runs sys_left.
Qed.

Lemma wp_take_commit m v1 vm (w : world E) (Q : unit -> world E -> Prop) :
  m <> self -> w_nodes w !! m = Some vm ->
  Q tt (with_nodes (fun ns => <[m := q_set QEnter (v_enter vm ++ v_commited v1) vm]>
          (<[self := set_wakes (v_commit_wake v1) (to_u64 (v_accept_wake v1 + _CTC_TAKE_FLAG)) (q_set QCommited [] v1)]> ns)) w) ->
  wp (_worker_take_commit_ctc self m) (with_nodes <[self := v1]> w) Q.
Proof.
  intros Hne Hm HQ. unfold _worker_take_commit_ctc, write_accept. apply wp_bind.
  eapply (wp_q_pushq m QEnter self QCommited _ vm v1); world_simpl; [by rewrite lookup_insert_ne|done|done|].
  eapply wp_upd_node; [cbn; rewrite lookup_insert_ne by done; apply lookup_insert_eq|].
  refine (eq_rect _ (Q tt) HQ _ _).
  unfold with_nodes. cbn. f_equal. apply map_eq. intros k.
  destruct (decide (k = m)), (decide (k = self)); by simplify_map_eq.
Qed.

Lemma with_nodes_pad m v1 vm (w : world E) :
  m <> self -> w_nodes w !! m = Some vm ->
  with_nodes <[self := v1]> w = with_nodes (fun ns => <[m := vm]> (<[self := v1]> ns)) w.
Proof.
  intros Hne Hm. unfold with_nodes. f_equal. symmetry. apply insert_id. by rewrite lookup_insert_ne.
Qed.

Lemma master_wake_runs (m : Z) (vm : dpevp) (w : world E) pcw :
  w_nodes w !! self = Some v -> w_nodes w !! m = Some vm -> m <> self -> v_commit_wake v <> 0 ->
  sys_inv (wside v pcw pw gw, mside v (v_enter vm) Idle pm gm) ->
  wp (master_wake m (EvCommit self)) w (fun _ w' => exists v' vm' gm',
    w' = with_nodes (fun ns => <[m := vm']> (<[self := v']> ns)) w /\
    rtc sys_step (wside v pcw pw gw, mside v (v_enter vm) Idle pm gm)
                 (wside v' pcw pw gw, mside v' (v_enter vm') Idle pm gm')).
Proof.
  intros Hv Hm Hne Hc [Ha Hb]. pose proof (inv_cnt_small _ _ Ha Hb) as [Ca Cb]; cbn in Ca, Cb. clear Ha Hb.
  destruct v as [id ty en tm wm evs ix pl rd cw aw ag cg ad cd rq rs], vm as [id1 ty1 en1]; cbn in *.
  unfold master_wake, wake_id, read_wake, read_commit. repeat world_step. cbn. repeat world_step.
  destruct (has_flag cw _CTC_TAKE_MASK) eqn:Ht; unfold _worker_move_accept_ctc; [destruct ag as [|x ag]|];
    unfold write_accept; repeat world_step; cbn; repeat world_step;
    (destruct (has_flag cw _CTC_PUSH_MASK) eqn:Hp; repeat world_step).
  1,3,5: eapply wp_take_commit; [done|done|]; world_simpl.
  4-6: erewrite (with_nodes_pad m) by done.
  all: eexists; side_runs sys_right.
Qed.

Lemma worker_push_runs (w : world E) x e pcm enm :
  w_nodes w !! self = Some v -> w_eles w !! x = Some e -> unqueued x w ->
  sys_inv (wside v Idle pw gw, mside v enm pcm pm gm) ->
  wp (_worker_push_commit_ctc self x) w (fun _ w' => exists v',
    w' = with_nodes <[self := v']> w /\
    rtc sys_step (wside v Idle pw gw, mside v enm pcm pm gm) (wside v' Idle (pw ++ [x]) gw, mside v' enm pcm pm gm)).
Proof.
  intros Hv Hx Hu [Ha Hb]. pose proof (inv_cnt_small _ _ Ha Hb) as [Ca Cb]; cbn in Ca, Cb. clear Ha Hb.
  unfold _worker_push_commit_ctc. repeat world_step.
  destruct v as [id ty en tm wm evs ix pl rd cw aw ag cg ad cd rq rs]; cbn in *.
  destruct rq; unfold write_commit; repeat world_step;
    (eapply wp_q_push; [done|world_simpl; done|by first [eapply unqueued_node; [|done|by intros []]|done]|]);
    repeat world_step; side_push sys_left.
Qed.

Lemma master_push_runs (w : world E) x e pcw enm :
  w_nodes w !! self = Some v -> w_eles w !! x = Some e -> unqueued x w ->
  sys_inv (wside v pcw pw gw, mside v enm Idle pm gm) ->
  wp (_worker_push_accept_ctc self x) w (fun _ w' => exists v',
    w' = with_nodes <[self := v']> w /\
    rtc sys_step (wside v pcw pw gw, mside v enm Idle pm gm) (wside v' pcw pw gw, mside v' enm Idle (pm ++ [x]) gm)).
Proof.
  intros Hv Hx Hu [Ha Hb]. pose proof (inv_cnt_small _ _ Ha Hb) as [Ca Cb]; cbn in Ca, Cb. clear Ha Hb.
  unfold _worker_push_accept_ctc. repeat world_step.
  destruct v as [id ty en tm wm evs ix pl rd cw aw ag cg ad cd rq rs]; cbn in *.
  destruct rs; unfold write_accept; repeat world_step;
    (eapply wp_q_push; [done|world_simpl; done|by first [eapply unqueued_node; [|done|by intros []]|done]|]);
    repeat world_step; side_push sys_right.
Qed.
End Refines.
(** C12. Nothing is lost, duplicated or reordered in either direction: at every
    moment, the calls a side handed over are, in order, those its peer got,
    those in the offered queue and those still staged; and a counter never
    holds more than one INCR and one TAKE, so the addition of the [eventfd]
    does not carry from one half into the other. *)
Theorem handoff_fifo (a b : endp) (H : reachable (a, b)) :
  ep_push a = ep_got b ++ ep_off a ++ ep_stg a /\ ep_push b = ep_got a ++ ep_off b ++ ep_stg b /\
  ep_cnt a ∈ [0; _CTC_INCR_FLAG; _CTC_TAKE_FLAG; _CTC_INCR_FLAG + _CTC_TAKE_FLAG] /\
  ep_cnt b ∈ [0; _CTC_INCR_FLAG; _CTC_TAKE_FLAG; _CTC_INCR_FLAG + _CTC_TAKE_FLAG].
Proof.
  destruct (reachable_inv _ H) as [Ha Hb]; cbn in *.
  pose proof (inv_counters _ _ Ha Hb) as (? & ? & ? & ?).
  destruct Ha as [_ [Hca Hcb] _ _ Hfa], Hb as [_ _ _ _ Hfb].
  pose proof (cnt_cases (ep_cnt a) ltac:(lia) ltac:(lia) ltac:(lia)).
  pose proof (cnt_cases (ep_cnt b) ltac:(lia) ltac:(lia) ltac:(lia)).
  unfold _CTC_INCR_FLAG, _CTC_TAKE_FLAG. set_solver by lia.
Qed.

(** The next access of a side to the queue it offers, and to its peer's. *)
Definition may_offer (a : endp) : Prop :=
  (ep_pc a = Idle /\ ep_turn a = true) \/ (exists ps, ep_pc a = Flags true ps).
Definition may_take (a : endp) : Prop := ep_pc a = Flags false true.

(** C16. The queues are not locked and need not be: whenever a side may write
    the queue it offers, its peer is not about to take it, nor will it be
    before the side has written to the peer's counter. *)
Theorem handoff_exclusive (a b : endp) (H : reachable (a, b)) :
  (may_offer a -> ~ may_take b /\ wants_take (ep_pc b) = false /\ push_flag (ep_cnt b) = false) /\
  (may_offer b -> ~ may_take a /\ wants_take (ep_pc a) = false /\ push_flag (ep_cnt a) = false).
Proof.
  destruct (reachable_inv _ H) as [Ha Hb]; cbn in *.
  pose proof (inv_counters _ _ Ha Hb) as (? & ? & ? & ?).
  pose proof (flags_of_cnt (ep_cnt a)) as Fa. pose proof (flags_of_cnt (ep_cnt b)) as Fb.
  destruct Ha as [Ta [Ca Cb] _ _ _], Hb as [Tb _ _ _ _].
  destruct (Fa ltac:(lia) ltac:(lia) ltac:(lia)) as [_ ->].
  destruct (Fb ltac:(lia) ltac:(lia) ltac:(lia)) as [_ ->].
  unfold turns, may_take in *. clear Fa Fb H. b2z_ranges.
  split; intros [[Hp Ht]|[ps Hp]]; rewrite Hp in *; rewrite ?Ht in *; cbn [wants_move wants_wake b2z] in *.
  all: split; [intros Hq; rewrite Hq in *; cbn in *; lia|]; split; [|destruct (Z.ltb_spec 0 (low (ep_cnt b))), (Z.ltb_spec 0 (low (ep_cnt a))); try done; lia].
  all: destruct (wants_take (ep_pc b)), (wants_take (ep_pc a)); cbn in *; try done; lia.
Qed.

(** ** Liveness

    A step of the protocol proper hands nothing new over. *)
Definition internal_step (s s' : endp * endp) : Prop :=
  sys_step s s' /\ ep_push s'.1 = ep_push s.1 /\ ep_push s'.2 = ep_push s.2.

Definition busy (p : pc) : Z := match p with Idle => 0 | _ => 1 end.

(** How far the turn of the channel from [p] to [c] is from being back. *)
Definition chan_work (p c : endp) : Z :=
  12 * b2z (wants_wake (ep_pc p)) + 10 * low (ep_cnt c) + 8 * b2z (wants_take (ep_pc c))
  + 6 * b2z (wants_tell (ep_pc c)) + 4 * high (ep_cnt p) + 2 * b2z (wants_move (ep_pc p))
  + match ep_stg p with [] => 0 | _ => 14 end.

Definition work (a b : endp) : Z := chan_work a b + chan_work b a + busy (ep_pc a) + busy (ep_pc b).

Lemma side_step_work a b a' b' :
  side_step a b a' b' -> ep_push a' = ep_push a -> chan_inv a b -> chan_inv b a ->
  work a' b' < work a b.
Proof.
  intros Hstep Hpush Hab Hba. pose proof (inv_counters _ _ Hab Hba) as Hcnt.
  assert (Hflags := flags_of_cnt (ep_cnt a)). pose proof low_0. pose proof high_0.
  pose proof (low_incr (ep_cnt b) ltac:(lia)) as [L1 L2].
  pose proof (high_tell (ep_cnt b)) as [L3 L4].
  pose proof (low_high (ep_cnt a)).
  destruct Hab as [A1 A2 A3 A4 A5], Hba as [B1 B2 B3 B4 B5]. clear A3 A4 A5 B3 B4 B5.
  unfold work, chan_work, busy, _CTC_INCR_FLAG, _CTC_TAKE_FLAG in *.
  destruct b as [pb tb offb stgb cntb enb pub gob].
  destruct Hstep; chan_open; simplify_eq; try (destruct Hflags as [-> ->]; [lia|lia|lia|]);
    try (exfalso; apply (f_equal length) in Hpush; rewrite length_app in Hpush; cbn in Hpush; lia).
  all: unfold _CTC_INCR_FLAG, _CTC_TAKE_FLAG in *; rewrite ?L1, ?L2, ?L3, ?L4, ?low_0, ?high_0;
    try (destruct stg); chan_open; b2z_ranges; try lia.
  all: destruct (Z.ltb_spec 0 (low cnt)), (Z.ltb_spec 0 (high cnt)); cbn [b2z]; lia.
Qed.

Lemma internal_acc s : sys_inv s -> Acc (fun s2 s1 => internal_step s1 s2) s.
Proof.
  enough (forall n, forall s, sys_inv s -> Z.to_nat (work s.1 s.2 + 1) = n ->
            Acc (fun s2 s1 => internal_step s1 s2) s) by eauto.
  induction n as [n IH] using lt_wf_ind. intros [a b] [Ha Hb] Hn. constructor.
  intros [a' b'] [Hs [P1 P2]]. cbn in *.
  assert (Hinv : sys_inv (a', b') /\ work a' b' < work a b).
  { inversion Hs; subst.
    - split; [by apply side_step_inv with a b|by apply side_step_work].
    - split; [by destruct (side_step_inv b a b' a')|].
      pose proof (side_step_work b a b' a') as Hw. unfold work in *. specialize (Hw ltac:(done) P2 Hb Ha); lia. }
  destruct Hinv as [Hinv Hw]. eapply IH; [|done|done]. cbn.
  enough (0 <= work a' b') by lia. clear Hw.
  destruct Hinv as [I1 I2]. pose proof (inv_counters _ _ I1 I2).
  cbn in *. unfold work, chan_work, busy.
  pose proof (b2z_range (wants_wake (ep_pc a'))). pose proof (b2z_range (wants_wake (ep_pc b'))).
  pose proof (b2z_range (wants_take (ep_pc a'))). pose proof (b2z_range (wants_take (ep_pc b'))).
  pose proof (b2z_range (wants_tell (ep_pc a'))). pose proof (b2z_range (wants_tell (ep_pc b'))).
  pose proof (b2z_range (wants_move (ep_pc a'))). pose proof (b2z_range (wants_move (ep_pc b'))).
  destruct (ep_stg a'), (ep_stg b'), (ep_pc a'), (ep_pc b'); lia.
Qed.

Lemma idle_settled a b :
  (forall s', ~ internal_step (a, b) s') -> ep_pc a = Idle /\ ep_cnt a = 0.
Proof.
  intros Hno. destruct a as [p t off stg cnt en pu go], b as [p' t' off' stg' cnt' en' pu' go']; cbn.
  assert (Hs : forall a' b', side_step (Endp p t off stg cnt en pu go) (Endp p' t' off' stg' cnt' en' pu' go') a' b' ->
    ep_push a' = pu -> ep_push b' = pu' -> False).
  { intros a' b' Hst H1 H2. apply (Hno (a', b')). by split; [apply sys_left|]. }
  destruct p as [|tk ps|ps|].
  - split; [done|]. destruct (decide (cnt = 0)) as [|Hc]; [done|]. exfalso. by eapply Hs; [apply st_read| |].
  - exfalso. destruct tk; [|destruct ps].
    + by eapply Hs; [apply st_move| |]; destruct stg.
    + by eapply Hs; [apply st_take| |].
    + by eapply Hs; [apply st_done| |].
  - exfalso. by eapply Hs; [apply st_wake| |].
  - exfalso. by eapply Hs; [apply st_tell| |].
Qed.

(** C10. Every call handed over is delivered: from any reachable state the
    protocol cannot run for ever without new calls, in whatever order the two
    sides move, and where it stops the peer got exactly what was pushed and
    both sides have their turn back. *)
Theorem handoff_live (a b : endp) (H : reachable (a, b)) :
  Acc (fun s2 s1 => internal_step s1 s2) (a, b) /\
  ((forall s', ~ internal_step (a, b) s') ->
   ep_got b = ep_push a /\ ep_got a = ep_push b /\ ep_turn a = true /\ ep_turn b = true).
Proof.
  apply reachable_inv in H as Hinv. split; [by apply internal_acc|]. intros Hno.
  destruct (idle_settled _ _ Hno) as [Pa Ca].
  destruct (idle_settled b a) as [Pb Cb].
  { intros [b' a'] [Hs [P1 P2]]. apply (Hno (a', b')). split; [|done].
    inversion Hs; subst; [by apply sys_right|by apply sys_left]. }
  destruct Hinv as [[A1 _ A3 A4 A5] [B1 _ B3 B4 B5]]; cbn in *.
  unfold turns, offering in *. rewrite Pa, Pb, Ca, Cb, low_0, ?high_0 in *. cbn in *.
  destruct (ep_turn a), (ep_turn b); cbn in *; try lia.
  rewrite A5, B5, A3, B3, A4, B4 by done. by rewrite !app_nil_r.
Qed.

(** C6. The functions of the code implement the protocol: when worker [self]
    and the master hold a reachable state of it, each of the two wake-up
    handlers and each of the two hand-over functions runs without undefined
    behaviour and is a sequence of protocol steps of its own side, whatever
    its peer is in the middle of. *)
Theorem handoff_refines {E} `{Sys E} (self m : Z) (v vm : dpevp) (w : world E) (pw gw pm gm : list loc)
    (Hv : w_nodes w !! self = Some v) (Hm : w_nodes w !! m = Some vm) (Hne : m <> self) :
  (forall pcm enm, reachable (wside v Idle pw gw, mside v enm pcm pm gm) ->
    (v_accept_wake v <> 0 ->
     wp (worker_wake self (EvAccept self)) w (fun _ w' => exists v' gw',
       w' = with_nodes <[self := v']> w /\
       rtc sys_step (wside v Idle pw gw, mside v enm pcm pm gm) (wside v' Idle pw gw', mside v' enm pcm pm gm))) /\
    (forall x e, w_eles w !! x = Some e -> unqueued x w ->
     wp (_worker_push_commit_ctc self x) w (fun _ w' => exists v',
       w' = with_nodes <[self := v']> w /\
       rtc sys_step (wside v Idle pw gw, mside v enm pcm pm gm)
                    (wside v' Idle (pw ++ [x]) gw, mside v' enm pcm pm gm)))) /\
  (forall pcw, reachable (wside v pcw pw gw, mside v (v_enter vm) Idle pm gm) ->
    (v_commit_wake v <> 0 ->
     wp (master_wake m (EvCommit self)) w (fun _ w' => exists v' vm' gm',
       w' = with_nodes (fun ns => <[m := vm']> (<[self := v']> ns)) w /\
       rtc sys_step (wside v pcw pw gw, mside v (v_enter vm) Idle pm gm)
                    (wside v' pcw pw gw, mside v' (v_enter vm') Idle pm gm'))) /\
    (forall x e, w_eles w !! x = Some e -> unqueued x w ->
     wp (_worker_push_accept_ctc self x) w (fun _ w' => exists v',
       w' = with_nodes <[self := v']> w /\
       rtc sys_step (wside v pcw pw gw, mside v (v_enter vm) Idle pm gm)
                    (wside v' pcw pw gw, mside v' (v_enter vm) Idle (pm ++ [x]) gm)))).
Proof.
  split; intros pc; [intros en|]; intros Hr; apply reachable_inv in Hr.
  - split; [intros; by apply worker_wake_runs|intros; by eapply worker_push_runs].
  - split; [intros; by apply master_wake_runs|intros; by eapply master_push_runs].
Qed.

(** ** Examples *)

(** The left side handed over 1 and 2; the right side took 1 and is about to
    say so. *)
Lemma ex_reachable :
  reachable (Endp Idle false [] [2%positive] 0 [] [1%positive; 2%positive] [],
             Endp Tell true [] [] 0 [1%positive] [] [1%positive]).
Proof.
  unfold reachable, any_step. change fresh_end with (Endp Idle true [] [] 0 [] [] []).
  eapply rtc_l; [left; apply sys_left, (st_push_turn 1)|]. cbn.
  eapply rtc_l; [left; apply sys_left, st_wake|]. cbn.
  eapply rtc_l; [left; apply sys_left, st_done|].
  eapply rtc_l; [left; apply sys_left, (st_push_stage 2)|]. cbn.
  eapply rtc_l; [left; apply sys_right, st_read; done|]. cbn.
  eapply rtc_l; [left; apply sys_right, st_take|]. cbn. apply rtc_refl.
Qed.

Lemma handoff_fifo_witness :
  ep_push (Endp Idle false [] [2%positive] 0 [] [1%positive; 2%positive] [])
  = ep_got (Endp Tell true [] [] 0 [1%positive] [] [1%positive]) ++ [] ++ [2%positive].
Proof. exact (proj1 (handoff_fifo _ _ ex_reachable)). Defined.

Lemma handoff_live_witness :
  Acc (fun s2 s1 => internal_step s1 s2)
    (Endp Idle false [] [2%positive] 0 [] [1%positive; 2%positive] [],
     Endp Tell true [] [] 0 [1%positive] [] [1%positive]).
Proof. exact (proj1 (handoff_live _ _ ex_reachable)). Defined.

(** The worker offered call 5 and the master has not read the counter. *)
Definition ex_offered : dpevp := set_wakes 1 0 (set_turns false true (q_set QCommited [5%positive] (ex_node 1))).

Lemma ex_offered_reachable : reachable (wside ex_offered Idle [5%positive] [], mside ex_offered [] Idle [] []).
Proof.
  unfold reachable, any_step. change fresh_end with (Endp Idle true [] [] 0 [] [] []).
  eapply rtc_l; [left; apply sys_left, (st_push_turn 5)|]. cbn.
  eapply rtc_l; [left; apply sys_left, st_wake|]. cbn.
  eapply rtc_l; [left; apply sys_left, st_done|]. cbn. apply rtc_refl.
Qed.

Lemma handoff_exclusive_witness :
  may_offer (mside ex_offered [] Idle [] []) /\ ~ may_take (wside ex_offered Idle [5%positive] []).
Proof. split; [by left|]. apply (handoff_exclusive _ _ ex_offered_reachable). by left. Defined.

Lemma handoff_refines_witness :
  wp (master_wake 0 (EvCommit 1)) (ex_world 1 ex_offered) (fun _ w' => exists v' vm' gm',
    w' = with_nodes (fun ns => <[0 := vm']> (<[1 := v']> ns)) (ex_world 1 ex_offered) /\
    rtc sys_step (wside ex_offered Idle [5%positive] [], mside ex_offered [] Idle [] [])
                 (wside v' Idle [5%positive] [], mside v' (v_enter vm') Idle [] gm')).
Proof.
  apply (proj2 (handoff_refines 1 0 ex_offered (ex_node 0) (ex_world 1 ex_offered) [5%positive] [] [] []
    ltac:(done) ltac:(done) ltac:(done)) Idle); [exact ex_offered_reachable|done].
Defined.
